(* ===== verification/_CoqProject ===== *)
-Q . S2P
Prelude.v
Ring.v
CMem.v
KString.v
Riscv.v
Kalloc.v
Locks.v
Vm.v
VmInv.v
VmMap.v
VmUser.v
VmBuild.v
KvmOk.v
VmGrow.v
VmCopy.v
Pipe.v
Block.v
Bio.v
BioInv.v
BioSpec.v
Log.v
LogSpec.v
LogCrash.v
Fs.v
FsBase.v
FsAlloc.v
FsInode.v
FsFile.v
FsBmap.v
FsRead.v
FsWrite.v
FsWriteOk.v
FsDir.v
FsDirOk.v
File.v
FileOk.v
FileWrite.v
Printf.v
UPrintf.v
Ulib.v
Uart.v
Proc.v
ProcTable.v
Sched.v
SchedOk.v
Sysproc.v
Exec.v
Sysfile.v
Msg.v
Syscall.v
Console.v
ConsoleOk.v
Virtio.v
VirtioSys.v
VirtioOk.v
Trap.v
TrapOk.v
Boot.v
BootOk.v
Asm.v
AsmOk.v
Grep.v
Umalloc.v
UmallocOk.v
Sh.v
ShLex.v
ShGram.v
ShOk.v
ShRun.v
Mkfs.v
MkfsInv.v
MkfsNode.v
MkfsOk.v
Usys.v
Utools.v
UserOs.v
UtoolsOk.v
LsOk.v
InitOk.v
Utests.v
