(* ===== verification/Prelude.v ===== *)
(** * Verification of xv6-64-bit

    A Rocq model of the xv6 kernel of this repository, with its threads,
    signals and message queues, of its user library and programs, and of the
    program that builds the disk image, together with the theorems that say
    what the code does.

    ** The program and its model

    The kernel runs on several RISC-V CPUs.  User programs enter it by traps;
    the trap code calls system calls, which work on processes, address spaces,
    files, pipes and message queues.  Files live in inodes over a log of block
    writes, the log over a buffer cache, the cache over the virtio disk driver;
    the console is a line editor over the serial port.

    Shared machinery
    - Prelude.v: machine integers ([u8] to [i64]), the kernel monad [M S A]
      (state [S], the locks held and the channels woken; results [Ret],
      [Panic], [Sleep] and [Stuck]), lenses that let a component run on its
      part of a larger state, and weakest preconditions.
    - Ring.v: ring buffers with free-running counters, used for pipes, the
      console, the serial port and the rings of the disk.
    - CMem.v: byte-addressed memory.  Riscv.v: riscv.h, memlayout.h, param.h.

    Components, by source file
    - kernel/string.c: KString.v.  kernel/kalloc.c: Kalloc.v, the free list
      threaded through the free pages.
    - kernel/spinlock.c, sleeplock.c: Locks.v, as the atomic actions of every
      CPU, and the view of locks the other files use.
    - kernel/vm.c: Vm.v; VmInv.v, VmMap.v, VmUser.v the page table as a map;
      VmGrow.v and VmCopy.v its theorems, VmBuild.v tables under
      construction, KvmOk.v the kernel's own.
    - kernel/pipe.c: Pipe.v.  kernel/bio.c: Block.v, Bio.v, BioInv.v,
      BioSpec.v.  kernel/log.c: Log.v, LogSpec.v, LogCrash.v.
    - kernel/fs.c: Fs.v; FsBase.v, FsAlloc.v blocks, and a concrete disk;
      FsInode.v inodes; FsFile.v, FsBmap.v, FsRead.v, FsWrite.v, FsWriteOk.v contents;
      FsDir.v, FsDirOk.v names and paths.
    - kernel/file.c: File.v, FileOk.v, and FileWrite.v for writes to files as
      transactions.  kernel/printf.c: Printf.v.
      kernel/uart.c: Uart.v.  kernel/console.c: Console.v, ConsoleOk.v.
    - kernel/proc.c: Proc.v the functions one at a time, ProcTable.v their
      theorems and the table of states and pids; Sched.v and SchedOk.v the scheduler,
      sleep, wakeup, fork, wait and exit as interleaved steps of all CPUs.
    - kernel/syscall.c, sysproc.c, sysfile.c, exec.c, msg.c: Sysproc.v,
      Sysfile.v, Exec.v, Msg.v, Syscall.v.
    - kernel/virtio_disk.c: Virtio.v; VirtioSys.v the driver together with its
      device; VirtioOk.v.  kernel/trap.c, plic.c: Trap.v, TrapOk.v.
    - kernel/start.c, main.c and the initialisers they call: Boot.v, one hart
      and all harts; BootOk.v.
    - entry.S, swtch.S, trampoline.S, kernelvec.S, usys.S, and initcode.S as the
      bytes in proc.c: Asm.v the instructions on a hart with Sv39 translation
      and the routines; AsmOk.v.
    - user/printf.c: UPrintf.v.  user/ulib.c: Ulib.v.  user/grep.c: Grep.v.
      user/umalloc.c: Umalloc.v, UmallocOk.v.
    - user/sh.c: Sh.v the parser, ShRun.v running commands; ShLex.v tokens,
      ShGram.v the grammar, ShOk.v the theorem on the parser.
    - user/cat.c, wc.c, grep.c, ls.c, echo.c, kill.c, ln.c, mkdir.c, rm.c,
      cps.c, init.c, zombie.c, signal.c: Usys.v the system calls of user.h as
      events of interaction trees and runs of such trees, Utools.v the
      programs, UserOs.v the interface they rely on and a system that keeps
      it, UtoolsOk.v, LsOk.v and InitOk.v the theorems.  user/forktest.c,
      stressfs.c, msgtest.c, grind.c: Utests.v.
    - mkfs/mkfs.c: Mkfs.v; MkfsInv.v the image under construction, its
      blocks and appending, MkfsNode.v inodes and files, MkfsOk.v the theorem.

    A C function is a definition of the same name.  Code that sleeps is cut
    into segments at its calls of sleep: a segment ([_seg]) runs under its lock
    and ends [Done] or [Blocked]; interleavings are sequences of segments.

    ** What the theorems show

    - Boot: in every interleaving of the harts the kernel comes up, init's
      address space included, and no hart schedules before that
      ([boot_correct]); its first process then calls exec with /init
      ([first_process]).
    - Traps and switches: user registers survive the way into the kernel and
      back, shown for a call of getpid from the stub in the user library to its
      return ([getpid_user]); a context switch and an interrupt in the kernel
      preserve what the interrupted code relies on ([swtch_roundtrip],
      [kernelvec_roundtrip]).
    - Crashes: a transaction is all or nothing at every disk write
      ([commit_atomic]), and recovery may itself be interrupted
      ([recovery_idempotent]).  A write system call composes them with the
      contents of files: a crash leaves a prefix of the bytes, and what it has
      written when it returns survives ([filewrite_correct]).
    - Concurrency: mutual exclusion of spin and sleep locks, that the lock
      view of the other files is refined by the lock machine, scheduler safety
      and no lost wakeups, FIFO order of pipes, from the user memory of writers
      to that of readers ([pipe_fifo]), and of the serial port.
    - The disk: every interleaving of requests, interrupts and device steps
      transfers exactly the requested blocks, without panics, leaks or lost
      requests.
    - Memory: page-table operations against maps, all-or-nothing growth and
      copy of address spaces, the user copies against byte-by-byte references,
      the kernel's own page table ([kvmmake_correct]).
    - Files: block allocation, inode round trips, reading and writing contents
      with isolation between files, directories and path names; mkfs builds
      an image of that form with the files it is given.
    - Processes: every call moves processes along the state diagram only, and
      pids are unique.
    - Input, output and system calls: the console refines a line editor,
      decimal printing and atoi are inverse in the stated range, cat, wc, grep
      and ls write what the contents of files and directories determine, init
      runs one shell after the other and ends only when fork or wait fails
      ([init_correct]), forktest succeeds exactly when processes run out before
      its limit, malloc and free keep a heap of disjoint
      blocks and lose no byte, the shell's parser decides its grammar and the
      processes of a line exec just the programs its tree names, with their
      arguments and the right open files ([shell_correct]).
    - Deviations: where the code does not do what it means to, the theorem
      states what it does instead (log reservation, message queues, the
      printer's buffer, thread_join, kill of pid 0, long lines in grep, the
      limits of mkfs).

    ** Bounds and fuel

    Loops over tables recurse over the table's size (NPROC, NOFILE, NINODE,
    NBUF, NUM).  Loops whose length depends on data take fuel: the length of
    the list or path they consume, the number of pages or bytes left, 64 digits
    for a 64-bit number, NUM descriptors for a chain, the length of the
    free list in malloc and free, the bytes left in mkfs; the theorems show
    that this is enough.  User programs need none: a loop is an interaction
    tree, and a theorem that a program ends gives a run of it.  C strings that
    have no length in the code (strcpy, strlen) take fuel as an argument and return [None] when it runs out.

    ** Assumptions

    Code outside the sources is an argument: the addresses the linker and the
    assembly define, the values of device registers, the functions of the
    device switch, read in grep, whether the kernel grants an sbrk, what the
    host's read returns to mkfs.  User tools run on any system that keeps the
    interface of UserOs.v: reads return what is left in pieces, standard
    output and error take every byte.  The disk device is a relation constrained by
    [device_ok], what the virtio specification says of a device that reports
    success; it moves between driver segments, not within them.

    The machine of Sched.v interleaves the steps of processes and schedulers.
    Interrupts arrive in it as calls of yield; a handler that calls wakeup on a
    CPU that is in the scheduler, interrupt enabling and the check of intr_get
    in sched, locks nested below those of sleep and wakeup, and thread_create
    and thread_join are in Proc.v, Trap.v and Locks.v only.  The
    kernel's printf appends to a list of characters; how a character reaches
    the serial port is in Uart.v and Console.v.

    ** Not modelled

    The encoding of the assembly but that of initcode; the accessed and dirty
    bits of page-table entries; the stack frames of C code; weak memory, since the
    barriers order what the steps order; usertests.c, whose tests pass
    arbitrary addresses to system calls and rely on the faults of their own
    loads and stores, and thread_test.c, whose thread runs on memory of malloc. *)

From Stdlib Require Export ZArith Lia ZifyBool.
From stdpp Require Export base tactics numbers list gmap strings.

#[global] Open Scope Z_scope.

(** ** Machine integers

    C integers are integers of [Z]; a conversion to a w-bit type is written
    out as the wrap-around below. *)

Definition u8 (x : Z) : Z := x mod 2 ^ 8.
Definition u16 (x : Z) : Z := x mod 2 ^ 16.
Definition u32 (x : Z) : Z := x mod 2 ^ 32.
Definition u64 (x : Z) : Z := x mod 2 ^ 64.
Definition i16 (x : Z) : Z := (x + 2 ^ 15) mod 2 ^ 16 - 2 ^ 15.
Definition i32 (x : Z) : Z := (x + 2 ^ 31) mod 2 ^ 32 - 2 ^ 31.
Definition i64 (x : Z) : Z := (x + 2 ^ 63) mod 2 ^ 64 - 2 ^ 63.

(** A C condition on an integer: non-zero is true. *)
Definition truth (x : Z) : bool := negb (x =? 0).

(** A C boolean as an integer. *)
Definition b2z (b : bool) : Z := if b then 1 else 0.

(** The characters of a string literal. *)
Fixpoint str (s : string) : list Z :=
  match s with
  | EmptyString => []
  | String a s' => Z.of_N (Ascii.N_of_ascii a) :: str s'
  end.

Lemma u32_small x : 0 <= x < 2 ^ 32 -> u32 x = x.
Proof. intros; unfold u32; apply Z.mod_small; lia. Qed.

Lemma u64_small x : 0 <= x < 2 ^ 64 -> u64 x = x.
Proof. intros; unfold u64; apply Z.mod_small; lia. Qed.

Lemma u16_small x : 0 <= x < 2 ^ 16 -> u16 x = x.
Proof. intros; unfold u16; apply Z.mod_small; lia. Qed.

Lemma i32_small x : - 2 ^ 31 <= x < 2 ^ 31 -> i32 x = x.
Proof. intros; unfold i32; rewrite Z.mod_small; lia. Qed.

Lemma i16_small x : - 2 ^ 15 <= x < 2 ^ 15 -> i16 x = x.
Proof. intros; unfold i16; rewrite Z.mod_small; lia. Qed.

Lemma u8_u8 x : u8 (u8 x) = u8 x.
Proof. unfold u8; by rewrite Z.mod_mod. Qed.

Lemma u32_range x : 0 <= u32 x < 2 ^ 32.
Proof. apply Z.mod_pos_bound; lia. Qed.

Lemma u64_range x : 0 <= u64 x < 2 ^ 64.
Proof. apply Z.mod_pos_bound; lia. Qed.

Lemma i32_range x : - 2 ^ 31 <= i32 x < 2 ^ 31.
Proof. unfold i32; pose proof (Z.mod_pos_bound (x + 2 ^ 31) (2 ^ 32)); lia. Qed.

(** ** Kernel objects

    Spin locks and sleep channels are addresses of kernel objects in the
    source; here each object has a constructor of its own. *)

Inductive kobj : Type :=
| O_kmem | O_pid | O_wait | O_ticks | O_bcache | O_itable | O_ftable
| O_log | O_cons | O_uart | O_pr | O_vdisk | O_diskfree | O_msgtable
| O_proc (i : nat)       (* a struct proc: its lock, and the channel of wait() *)
| O_buf (i : nat)        (* a struct buf: channel of the disk driver *)
| O_buflk (i : nat)      (* b->lock, a sleep lock: its spin lock and channel *)
| O_inodelk (i : nat)    (* ip->lock, a sleep lock *)
| O_msgq (i : nat)       (* a message queue: its lock and its channel *)
| O_pipe (pa : Z)        (* pi->lock of the pipe stored at pa *)
| O_nread (pa : Z)       (* channel &pi->nread *)
| O_nwrite (pa : Z).     (* channel &pi->nwrite *)

#[export] Instance kobj_eq_dec : EqDecision kobj.
Proof. solve_decision. Defined.

(** ** The kernel monad

    Kernel code runs on one CPU in a context: the spin locks this CPU holds
    and the channels it has passed to [wakeup], oldest first.  A run returns,
    panics, goes to sleep on a channel, or (in a model that recurses on fuel)
    runs out of fuel.  A sleep gives the context and state in which the loop
    around the call of [sleep] is entered again. *)

Record kctx : Type := Ctx {
  held : list kobj;
  woken : list kobj
}.

Inductive outcome (S A : Type) : Type :=
| Ret (a : A) (c : kctx) (s : S)
| Panic (msg : string)
| Sleep (chan : kobj) (c : kctx) (s : S)
| Stuck.
Arguments Ret {S A} a c s.
Arguments Panic {S A} msg.
Arguments Sleep {S A} chan c s.
Arguments Stuck {S A}.

Definition M (S A : Type) : Type := kctx -> S -> outcome S A.

Definition kret {S A} (a : A) : M S A := fun c s => Ret a c s.
Definition kbind {S A B} (m : M S A) (k : A -> M S B) : M S B := fun c s =>
  match m c s with
  | Ret a c' s' => k a c' s'
  | Panic msg => Panic msg
  | Sleep ch c' s' => Sleep ch c' s'
  | Stuck => Stuck
  end.
Definition kget {S} : M S S := fun c s => Ret s c s.
Definition kput {S} (s' : S) : M S unit := fun c _ => Ret tt c s'.
Definition kmod {S} (f : S -> S) : M S unit := fun c s => Ret tt c (f s).
Definition panic {S A} (msg : string) : M S A := fun _ _ => Panic msg.
Definition stuck {S A} : M S A := fun _ _ => Stuck.

Declare Scope kernel_scope.
Delimit Scope kernel_scope with kernel.
Notation "'let*' x ':=' m 'in' k" := (kbind m (fun x => k))
  (at level 10, x pattern, m at level 100, k at level 200,
   format "'[v' 'let*'  x  ':='  m  'in' '/' k ']'") : kernel_scope.
Notation "m ;;; k" := (kbind m (fun _ => k))
  (at level 100, k at level 200, right associativity,
   format "'[v' m  ;;; '/' k ']'") : kernel_scope.
#[global] Open Scope kernel_scope.

(** Remove one occurrence of a lock from the list of held ones. *)
Fixpoint drop_lock (lk : kobj) (h : list kobj) : list kobj :=
  match h with
  | [] => []
  | x :: h' => if decide (x = lk) then h' else x :: drop_lock lk h'
  end.

Definition push_lock (lk : kobj) (c : kctx) : kctx := Ctx (lk :: held c) (woken c).
Definition add_woken (chan : kobj) (c : kctx) : kctx := Ctx (held c) (woken c ++ [chan]).

(** The effect of spinlock.c's [acquire] and [release] seen from the CPU that
    calls them; Locks.v derives both from the detailed model. *)
Definition acquire {S} (lk : kobj) : M S unit := fun c s =>
  if decide (lk ∈ held c) then Panic "acquire" else Ret tt (push_lock lk c) s.
Definition release {S} (lk : kobj) : M S unit := fun c s =>
  if decide (lk ∈ held c) then Ret tt (Ctx (drop_lock lk (held c)) (woken c)) s
  else Panic "release".

(** [wakeup] and [sleep] as the caller's context sees them.  [sleep] gives up
    [lk] and enters [sched], which panics when another lock is held
    ([noff != 1]); woken up, the caller holds [lk] again. *)
Definition wakeup {S} (chan : kobj) : M S unit := fun c s => Ret tt (add_woken chan c) s.
Definition sleep {S A} (chan lk : kobj) : M S A := fun c s =>
  if decide (lk ∈ held c) then
    if decide (held c = [lk]) then Sleep chan c s else Panic "sched locks"
  else Panic "release".

(** A call that may sleep in the middle of a loop runs in segments: from the
    acquisition of a lock to the return or to the [sleep] that gives the lock
    up.  A segment that sleeps hands on the loop's local state [l], with which
    the next segment takes the lock again and goes on. *)
Inductive seg (A L : Type) : Type :=
| Done (r : A)
| Blocked (chan : kobj) (l : L).
Arguments Done {A L} r.
Arguments Blocked {A L} chan l.

Definition sleep_at {S A L} (chan lk : kobj) (l : L) : M S (seg A L) := fun c s =>
  match @sleep S unit chan lk c s with
  | Sleep _ _ _ => (let* _ := release lk in kret (Blocked chan l)) c s
  | Panic msg => Panic msg
  | _ => Stuck
  end.

(** The call as its caller sees it. *)
Definition whole {S A L} (lk : kobj) (m : M S (seg A L)) : M S A :=
  let* r := m in
  match r with
  | Done r => kret r
  | Blocked chan _ => fun c s => Sleep chan (push_lock lk c) s
  end.

(** A list traversed for its effects, and a counted loop [for(i=0;i<n;i++)]. *)
Fixpoint kfor {S} (n : nat) (i : Z) (body : Z -> M S unit) : M S unit :=
  match n with
  | O => kret tt
  | Datatypes.S n' => body i ;;; kfor n' (i + 1) body
  end.

(** ** Component states inside larger states *)

Record lens (S A : Type) : Type := Lens {
  lget : S -> A;
  lset : A -> S -> S
}.
Arguments Lens {S A}.
Arguments lget {S A}.
Arguments lset {S A}.

Class LensLaws {S A} (l : lens S A) : Prop := {
  lget_lset : forall a s, lget l (lset l a s) = a;
  lset_lget : forall s, lset l (lget l s) s = s;
  lset_lset : forall a b s, lset l b (lset l a s) = lset l b s
}.

Definition zoom {S A X} (l : lens S A) (m : M A X) : M S X := fun c s =>
  match m c (lget l s) with
  | Ret x c' a => Ret x c' (lset l a s)
  | Panic msg => Panic msg
  | Sleep ch c' a => Sleep ch c' (lset l a s)
  | Stuck => Stuck
  end.

(** ** Weakest preconditions

    [wp m Q c s]: run from [c] and [s], [m] returns and [Q] holds of its
    result; a panic, a sleep and a lack of fuel all falsify it. *)

Definition wp {S A} (m : M S A) (Q : A -> kctx -> S -> Prop) (c : kctx) (s : S) : Prop :=
  match m c s with
  | Ret a c' s' => Q a c' s'
  | _ => False
  end.

(** Runs of the lock operations, for proofs that compute an outcome. *)
Lemma acquire_run {S} lk c (s : S) :
  lk ∉ held c -> acquire lk c s = Ret tt (push_lock lk c) s.
Proof. intros; unfold acquire; by rewrite decide_False. Qed.

Lemma release_run {S} lk c (s : S) : release lk (push_lock lk c) s = Ret tt c s.
Proof.
  unfold release; cbn [held push_lock]; rewrite decide_True by left; simpl.
  rewrite decide_True by done; by destruct c.
Qed.

Lemma release_run_woken {S} lk ch c (s : S) :
  release lk (add_woken ch (push_lock lk c)) s = Ret tt (add_woken ch c) s.
Proof.
  unfold release; cbn [held push_lock add_woken]; rewrite decide_True by left; simpl.
  by rewrite decide_True.
Qed.

(** A critical section. *)
Lemma critical_run {S} lk (body : M S unit) c (s : S) c1 s1 :
  lk ∉ held c -> body (push_lock lk c) s = Ret tt c1 s1 -> held c1 = lk :: held c ->
  (acquire lk ;;; body ;;; release lk) c s = Ret tt (Ctx (held c) (woken c1)) s1.
Proof.
  intros Hl Hb Hh; unfold kbind; rewrite acquire_run, Hb by done.
  unfold release; rewrite Hh, decide_True by left; cbn; by rewrite decide_True.
Qed.

Lemma release_only {S} lk c (s : S) : held c = [lk] -> release lk c s = Ret tt (Ctx [] (woken c)) s.
Proof. intros Hc; unfold release; rewrite Hc, decide_True by left; cbn; by rewrite decide_True. Qed.

Lemma sleep_at_run {S A L} chan lk (l : L) c (s : S) :
  held c = [] -> sleep_at (A := A) chan lk l (push_lock lk c) s = Ret (Blocked chan l) c s.
Proof.
  intros Hc; unfold sleep_at, sleep; cbn [held push_lock]; rewrite decide_True by left.
  rewrite Hc, decide_True by done; unfold kbind; by rewrite release_run.
Qed.

Lemma sleep_at_run_woken {S A L} chan lk ch (l : L) c (s : S) :
  held c = [] ->
  sleep_at (A := A) chan lk l (add_woken ch (push_lock lk c)) s = Ret (Blocked chan l) (add_woken ch c) s.
Proof.
  intros Hc; unfold sleep_at, sleep; cbn [held push_lock add_woken]; rewrite decide_True by left.
  rewrite Hc, decide_True by done; unfold kbind; by rewrite release_run_woken.
Qed.

Section wp_rules.
Context {S A B : Type}.
Implicit Types (c : kctx) (s : S).

Lemma wp_elim (m : M S A) Q c s :
  wp m Q c s <-> exists a c' s', m c s = Ret a c' s' /\ Q a c' s'.
Proof.
  unfold wp; split.
  - destruct (m c s) eqn:E; naive_solver.
  - intros (a & c' & s' & -> & HQ); done.
Qed.

Lemma wp_mono (m : M S A) (Q Q' : A -> kctx -> S -> Prop) c s :
  wp m Q c s -> (forall a c' s', Q a c' s' -> Q' a c' s') -> wp m Q' c s.
Proof. unfold wp; destruct (m c s); naive_solver. Qed.

Lemma wp_bind (m : M S A) (k : A -> M S B) Q c s :
  wp m (fun a c' s' => wp (k a) Q c' s') c s -> wp (kbind m k) Q c s.
Proof. unfold wp, kbind; destruct (m c s); naive_solver. Qed.

Lemma wp_ret (a : A) (Q : A -> kctx -> S -> Prop) c s :
  Q a c s -> wp (kret a) Q c s.
Proof. done. Qed.

Lemma wp_get (Q : S -> kctx -> S -> Prop) c s : Q s c s -> wp kget Q c s.
Proof. done. Qed.

Lemma wp_put (s' : S) (Q : unit -> kctx -> S -> Prop) c s :
  Q tt c s' -> wp (kput s') Q c s.
Proof. done. Qed.

Lemma wp_mod (f : S -> S) (Q : unit -> kctx -> S -> Prop) c s :
  Q tt c (f s) -> wp (kmod f) Q c s.
Proof. done. Qed.

Lemma wp_acquire lk (Q : unit -> kctx -> S -> Prop) c s :
  lk ∉ held c -> Q tt (push_lock lk c) s -> wp (acquire lk) Q c s.
Proof. intros Hn HQ; unfold wp; by rewrite acquire_run. Qed.

Lemma wp_release lk (Q : unit -> kctx -> S -> Prop) c s :
  Q tt c s -> wp (release lk) Q (push_lock lk c) s.
Proof. intros HQ; unfold wp; by rewrite release_run. Qed.

Lemma wp_zoom {T} (l : lens T S) (m : M S A) Q c (t : T) :
  wp m (fun a c' s' => Q a c' (lset l s' t)) c (lget l t) ->
  wp (zoom l m) Q c t.
Proof. unfold wp, zoom; destruct (m c (lget l t)); naive_solver. Qed.
End wp_rules.

Lemma kbind_run {S A B} (m : M S A) (k : A -> M S B) c s a c' s' :
  m c s = Ret a c' s' -> kbind m k c s = k a c' s'.
Proof. unfold kbind; by intros ->. Qed.

Lemma kbind_panic {S A B} (m : M S A) (k : A -> M S B) c s msg :
  m c s = Panic msg -> kbind m k c s = Panic msg.
Proof. unfold kbind; by intros ->. Qed.

Lemma kbind_assoc {S A B C} (m : M S A) (f : A -> M S B) (g : B -> M S C) c s :
  kbind (kbind m f) g c s = kbind m (fun x => kbind (f x) g) c s.
Proof. unfold kbind; by destruct (m c s). Qed.

Lemma zoom_run {S A X} (l : lens S A) (m : M A X) c s x c' a :
  m c (lget l s) = Ret x c' a -> zoom l m c s = Ret x c' (lset l a s).
Proof. unfold zoom; by intros ->. Qed.

(** Run one monadic primitive at the head of a [wp] goal. *)
Ltac wp_step :=
  lazymatch goal with
  | |- wp (kbind _ _) _ _ _ => apply wp_bind
  | |- wp (kret _) _ _ _ => apply wp_ret
  | |- wp kget _ _ _ => apply wp_get
  | |- wp (kput _) _ _ _ => apply wp_put
  | |- wp (kmod _) _ _ _ => apply wp_mod
  | |- wp (acquire _) _ _ _ => apply wp_acquire; [ try done | ]
  | |- wp (release ?l) _ (push_lock ?l _) _ => apply wp_release
  | |- wp (if ?b then _ else _) _ _ _ => destruct b eqn:?
  end.
Ltac wp_run := repeat (wp_step; cbv beta).

(** Compute the outcome of a run, primitive by primitive. *)
Ltac krun :=
  repeat first
    [ progress (unfold kret, kget, kput, kmod, panic, stuck, wakeup; cbn beta iota)
    | rewrite acquire_run by (done || set_solver)
    | rewrite release_run
    | rewrite release_run_woken
    | progress (unfold kbind; cbn beta iota) ].

Lemma not_elem_push lk lk' c : lk <> lk' -> lk ∉ held c -> lk ∉ held (push_lock lk' c).
Proof. intros; cbn [held push_lock]; by apply not_elem_of_cons. Qed.

Create HintDb locks.
#[export] Hint Resolve not_elem_push : locks.
#[export] Hint Extern 1 (_ <> _) => discriminate : locks.
