(* ===== verification/Ring.v ===== *)
(** * Ring buffers with free-running counters

    The pattern of pipes, the console and the serial port: a buffer of [N]
    cells and two unsigned counters modulo [W], a multiple of [N], that are
    never reduced modulo [N].  The buffer holds a queue: the cells from the
    read counter to the write counter. *)

From S2P Require Import Prelude.

Section ring.
Variables N W : Z.
Hypothesis HN : 0 < N < W.
Hypothesis HW : (N | W).
#[local] Set Default Proof Using "HN HW".

(** The [k] cells from counter [r] on. *)
Definition ring (d : list Z) (r : Z) (k : nat) : list Z :=
  (fun i => default 0 (d !! Z.to_nat ((r + Z.of_nat i) mod N))) <$> seq 0 k.

Definition fill (r w : Z) : Z := (w - r) mod W.
Definition contents (d : list Z) (r w : Z) : list Z := ring d r (Z.to_nat (fill r w)).

Record ring_inv (d : list Z) (r w : Z) : Prop := RingInv {
  ri_data : Z.of_nat (length d) = N;
  ri_r : 0 <= r < W;
  ri_w : 0 <= w < W;
  ri_fill : fill r w <= N
}.

Lemma ring_S d r k : ring d r (S k) = default 0 (d !! Z.to_nat (r mod N)) :: ring d (r + 1) k.
Proof using.
  unfold ring; cbn [seq]; rewrite fmap_cons, Z.add_0_r; f_equal.
  rewrite <- fmap_S_seq, <- list_fmap_compose; apply list_fmap_ext; intros i x _; simpl.
  by replace (r + 1 + Z.of_nat x) with (r + Z.of_nat (S x)) by lia.
Qed.

Lemma ring_snoc d r k : ring d r (S k) = ring d r k ++ [default 0 (d !! Z.to_nat ((r + Z.of_nat k) mod N))].
Proof using. unfold ring; by rewrite seq_S, fmap_app. Qed.

Lemma length_ring d r k : length (ring d r k) = k.
Proof using. unfold ring; by rewrite length_fmap, length_seq. Qed.

Lemma ring_app d r j k : ring d r (j + k) = ring d r j ++ ring d (r + Z.of_nat j) k.
Proof using.
  revert r; induction j as [|j IH]; intros r; [by rewrite Z.add_0_r|].
  rewrite Nat.add_succ_l, !ring_S, IH; cbn [app]; do 3 f_equal; lia.
Qed.

Lemma ring_wrap d r r' k : r mod N = r' mod N -> ring d r k = ring d r' k.
Proof.
  intros H; unfold ring; apply list_fmap_ext; intros i x _; simpl; do 3 f_equal.
  by rewrite Z.add_mod, H, <- Z.add_mod by lia.
Qed.

Lemma mod_mod x : (x mod W) mod N = x mod N.
Proof. by rewrite Z.mod_mod_divide. Qed.

Lemma fill_range r w : 0 <= fill r w < W.
Proof. apply Z.mod_pos_bound; lia. Qed.

Lemma fill_eq r w : 0 <= r < W -> 0 <= w < W -> fill r w = if decide (r <= w) then w - r else w - r + W.
Proof.
  intros; unfold fill; case_decide; [apply Z.mod_small; lia|].
  rewrite <- (Z.mod_add _ 1) by lia; rewrite Z.mod_small; lia.
Qed.

Lemma succ_eq a : 0 <= a < W -> (a + 1) mod W = if decide (a + 1 = W) then 0 else a + 1.
Proof. intros; case_decide as E; [by rewrite E, Z.mod_same by lia|apply Z.mod_small; lia]. Qed.

Lemma add_eq a n : 0 <= a < W -> 0 <= n <= W -> (a + n) mod W = if decide (a + n < W) then a + n else a + n - W.
Proof.
  intros; case_decide; [apply Z.mod_small; lia|].
  rewrite <- (Z.mod_add _ (-1)) by lia; rewrite Z.mod_small; lia.
Qed.

Lemma length_contents d r w : Z.of_nat (length (contents d r w)) = fill r w.
Proof. unfold contents; rewrite length_ring, Z2Nat.id; [done|apply fill_range]. Qed.

Lemma empty_iff d r w : ring_inv d r w -> (r =? w) = bool_decide (contents d r w = []).
Proof.
  intros [_ Hr Hw _]; pose proof (length_contents d r w) as Hl; rewrite fill_eq in Hl by done.
  destruct (Z.eqb_spec r w); symmetry.
  - apply bool_decide_eq_true, nil_length_inv; case_decide; lia.
  - apply bool_decide_eq_false; intros E; rewrite E in Hl; simpl in Hl; case_decide; lia.
Qed.

Lemma full_iff d r w :
  ring_inv d r w -> (w =? (r + N) mod W) = bool_decide (Z.of_nat (length (contents d r w)) = N).
Proof.
  intros [_ Hr Hw Hf]; rewrite length_contents, fill_eq in * by done; rewrite add_eq by lia.
  destruct (Z.eqb_spec w (if decide (r + N < W) then r + N else r + N - W)); symmetry.
  - apply bool_decide_eq_true; repeat case_decide; lia.
  - apply bool_decide_eq_false; intros E; repeat case_decide; lia.
Qed.

(** A cell outside the [k] from [r] on does not matter. *)
Lemma ring_insert_other d r k w b :
  Z.of_nat k < N -> w mod N = (r + Z.of_nat k) mod N -> 0 <= r ->
  ring (<[Z.to_nat (w mod N) := b]> d) r k = ring d r k.
Proof.
  intros Hk Hw Hr; unfold ring; apply list_fmap_ext; intros i x Hx; simpl.
  apply lookup_seq in Hx as [-> Hi]; rewrite Nat.add_0_l, list_lookup_insert_ne; [done|].
  rewrite Hw; intros E.
  pose proof (Z.mod_pos_bound (r + Z.of_nat k) N ltac:(lia)); pose proof (Z.mod_pos_bound (r + Z.of_nat i) N ltac:(lia)).
  apply Z2Nat.inj in E; [|lia..].
  pose proof (Z.div_mod (r + Z.of_nat k) N ltac:(lia)); pose proof (Z.div_mod (r + Z.of_nat i) N ltac:(lia)).
  assert ((r + Z.of_nat k) / N = (r + Z.of_nat i) / N) by nia; lia.
Qed.

Lemma write_index r w : 0 <= r < W -> 0 <= w < W -> w mod N = (r + fill r w) mod N.
Proof.
  intros; unfold fill; rewrite <- Z.add_mod_idemp_r, mod_mod, Z.add_mod_idemp_r by lia; f_equal; lia.
Qed.

Lemma fill_succ r w : 0 <= r < W -> 0 <= w < W -> fill r w < N -> fill r ((w + 1) mod W) = fill r w + 1.
Proof.
  intros Hr Hw; rewrite !fill_eq by (done || apply Z.mod_pos_bound; lia); rewrite succ_eq by done.
  intros; repeat case_decide; lia.
Qed.
Lemma fill_skip r w : 0 <= r < W -> 0 <= w < W -> 0 < fill r w -> fill ((r + 1) mod W) w = fill r w - 1.
Proof.
  intros Hr Hw; rewrite !fill_eq by (done || apply Z.mod_pos_bound; lia); rewrite succ_eq by done.
  intros; repeat case_decide; lia.
Qed.

(** Storing at the write counter appends to the queue. *)
Lemma push d r w b :
  ring_inv d r w -> Z.of_nat (length (contents d r w)) <> N ->
  let d' := <[Z.to_nat (w mod N) := b]> d in let w' := (w + 1) mod W in
  ring_inv d' r w' /\ contents d' r w' = contents d r w ++ [b].
Proof.
  intros [Hd Hr Hw Hf] Hn d' w'; rewrite length_contents in Hn.
  pose proof (fill_succ r w Hr Hw ltac:(lia)) as Hs; pose proof (fill_range r w) as Hfr.
  split; [split; [unfold d'; by rewrite length_insert|done|apply Z.mod_pos_bound; lia|unfold w'; lia]|].
  unfold contents, w'; rewrite Hs.
  replace (Z.to_nat (fill r w + 1)) with (S (Z.to_nat (fill r w))) by lia; rewrite ring_snoc.
  pose proof (write_index r w Hr Hw) as Hidx; rewrite <- (Z2Nat.id (fill r w)) in Hidx by lia.
  unfold d'; rewrite ring_insert_other by (done || lia); do 2 f_equal; rewrite <- Hidx.
  rewrite list_lookup_insert_eq; [done|]; pose proof (Z.mod_pos_bound w N ltac:(lia)); lia.
Qed.

(** Moving the read counter removes the head of the queue. *)
Lemma skip d r w b q :
  ring_inv d r w -> contents d r w = b :: q ->
  default 0 (d !! Z.to_nat (r mod N)) = b /\
  ring_inv d ((r + 1) mod W) w /\ contents d ((r + 1) mod W) w = q.
Proof.
  intros [Hd Hr Hw Hf] Hq; pose proof (length_contents d r w) as Hl.
  rewrite Hq in Hl; cbn [length] in Hl.
  pose proof (fill_skip r w Hr Hw ltac:(lia)) as Hs.
  unfold contents in Hq; rewrite <- Hl in Hq.
  replace (Z.to_nat (Z.of_nat (S (length q)))) with (S (length q)) in Hq by lia.
  rewrite ring_S in Hq; injection Hq as Hb Hq; split; [done|]; split.
  - split; [done|apply Z.mod_pos_bound; lia|done|lia].
  - unfold contents; rewrite Hs, <- Hl.
    replace (Z.to_nat (Z.of_nat (S (length q)) - 1)) with (length q) by lia.
    rewrite <- Hq at 2; apply ring_wrap, mod_mod.
Qed.

(** The last element of the queue, and dropping it by moving the write counter
    back. *)
Lemma unpush d r w q b :
  ring_inv d r w -> contents d r w = q ++ [b] ->
  default 0 (d !! Z.to_nat (((w - 1) mod W) mod N)) = b /\
  ring_inv d r ((w - 1) mod W) /\ contents d r ((w - 1) mod W) = q.
Proof.
  intros [Hd Hr Hw Hf] Hq; pose proof (length_contents d r w) as Hl.
  rewrite Hq, length_app in Hl; cbn [length] in Hl.
  assert (Hs : fill r ((w - 1) mod W) = fill r w - 1).
  { pose proof (fill_eq r w Hr Hw) as H1.
    pose proof (fill_eq r ((w - 1) mod W) Hr (Z.mod_pos_bound (w - 1) W ltac:(lia))) as H2.
    assert ((w - 1) mod W = if decide (w = 0) then W - 1 else w - 1) as E.
    { destruct (decide (w = 0)) as [->|]; [|rewrite Z.mod_small; lia].
      rewrite <- (Z.mod_add (0 - 1) 1) by lia; rewrite Z.mod_small; lia. }
    rewrite E in *; repeat case_decide; lia. }
  assert (Hk : Z.to_nat (fill r w) = S (length q)) by lia.
  unfold contents in Hq; rewrite Hk, ring_snoc in Hq; apply app_inj_tail in Hq as [Hq Hb].
  split; [|split].
  - rewrite mod_mod, <- Hb; do 3 f_equal.
    rewrite (Zminus_mod w), (write_index r w Hr Hw), <- Zminus_mod; f_equal; lia.
  - split; [done|done|apply Z.mod_pos_bound; lia|lia].
  - unfold contents; rewrite Hs; by replace (Z.to_nat (fill r w - 1)) with (length q) by lia.
Qed.
End ring.
