(* ===== verification/CMem.v ===== *)
(** * Byte-addressed memory

    Physical memory as the kernel sees it through its direct map: a byte per
    address, with little-endian loads and stores of machine words. *)

From S2P Require Import Prelude.

Definition mem : Type := Z -> Z.

(** Memories are compared address by address. *)
#[export] Instance mem_equiv : Equiv mem := fun m m' => forall a, m a = m' a.

#[export] Instance mem_equivalence : Equivalence (≡@{mem}).
Proof.
  split.
  - intros m a; done.
  - intros m m' H a; by rewrite (H a).
  - intros m1 m2 m3 H1 H2 a; by rewrite (H1 a), (H2 a).
Qed.

(** Every cell holds a byte. *)
Definition mem_ok (m : mem) : Prop := forall a, 0 <= m a < 256.

Definition store1 (m : mem) (a v : Z) : mem := fun x => if x =? a then u8 v else m x.

Definition store_bytes (m : mem) (a : Z) (l : list Z) : mem := fun x =>
  if (a <=? x) && (x <? a + Z.of_nat (length l))
  then default 0 (l !! Z.to_nat (x - a)) else m x.

Definition load_bytes (m : mem) (a : Z) (n : nat) : list Z :=
  (fun i : nat => m (a + Z.of_nat i)) <$> seq 0 n.

(** ** Little-endian words *)

Fixpoint le_encode (n : nat) (v : Z) : list Z :=
  match n with
  | O => []
  | S n' => v mod 256 :: le_encode n' (v / 256)
  end.

Fixpoint le_decode (l : list Z) : Z :=
  match l with
  | [] => 0
  | b :: l' => b + 256 * le_decode l'
  end.

Definition load64 (m : mem) (a : Z) : Z := le_decode (load_bytes m a 8).
Definition store64 (m : mem) (a v : Z) : mem := store_bytes m a (le_encode 8 v).
Definition load32 (m : mem) (a : Z) : Z := le_decode (load_bytes m a 4).
Definition store32 (m : mem) (a v : Z) : mem := store_bytes m a (le_encode 4 v).

Definition is_byte (b : Z) : Prop := 0 <= b < 256.

Lemma length_le_encode n v : length (le_encode n v) = n.
Proof. revert v; induction n; intros; simpl; auto. Qed.

Lemma le_encode_bytes n v : Forall is_byte (le_encode n v).
Proof.
  revert v; induction n; intros; simpl; constructor; auto.
  unfold is_byte; apply Z.mod_pos_bound; lia.
Qed.

Lemma le_decode_range l : Forall is_byte l -> 0 <= le_decode l < 256 ^ Z.of_nat (length l).
Proof.
  unfold is_byte; induction 1 as [|b l Hb _ IH]; cbn [le_decode length]; [lia|].
  rewrite Nat2Z.inj_succ, Z.pow_succ_r by lia; lia.
Qed.

Lemma le_decode_encode n v : le_decode (le_encode n v) = v mod 256 ^ Z.of_nat n.
Proof.
  revert v; induction n as [|n IH]; intros v; cbn [le_encode le_decode].
  - by rewrite Z.pow_0_r, Z.mod_1_r.
  - rewrite IH, Nat2Z.inj_succ, Z.pow_succ_r by lia.
    rewrite Z.rem_mul_r by lia. lia.
Qed.

Lemma le_encode_decode l : Forall is_byte l -> le_encode (length l) (le_decode l) = l.
Proof.
  unfold is_byte; induction 1 as [|b l Hb Hl IH]; cbn [le_encode le_decode length]; [done|].
  f_equal.
  - rewrite Z.mul_comm, Z_mod_plus_full, Z.mod_small; lia.
  - replace ((b + 256 * le_decode l) / 256) with (le_decode l); [done|].
    apply Z.div_unique with b; lia.
Qed.

(** ** Loads and stores *)

Lemma length_load_bytes m a n : length (load_bytes m a n) = n.
Proof. unfold load_bytes; by rewrite length_fmap, length_seq. Qed.

Lemma lookup_load_bytes m a n i :
  (i < n)%nat -> load_bytes m a n !! i = Some (m (a + Z.of_nat i)).
Proof.
  intros; unfold load_bytes.
  rewrite list_lookup_fmap, lookup_seq_lt by done; done.
Qed.

Lemma load_bytes_ext m m' a n :
  (forall x, a <= x < a + Z.of_nat n -> m x = m' x) -> load_bytes m a n = load_bytes m' a n.
Proof.
  intros H; apply list_eq_same_length with n; rewrite ?length_load_bytes; auto.
  intros i x y Hi; rewrite !lookup_load_bytes by done; intros [= <-] [= <-]; apply H; lia.
Qed.

#[export] Instance load_bytes_proper : Proper ((≡@{mem}) ==> eq ==> eq ==> eq) load_bytes.
Proof. intros m m' H a ? <- n ? <-; apply load_bytes_ext; auto. Qed.

Lemma load_bytes_forall m a n : mem_ok m -> Forall is_byte (load_bytes m a n).
Proof.
  intros H; apply Forall_lookup; intros i x Hx.
  pose proof (lookup_lt_Some _ _ _ Hx) as Hi; rewrite length_load_bytes in Hi.
  rewrite lookup_load_bytes in Hx by done; injection Hx as <-; apply H.
Qed.

Lemma load_bytes_S m a n : load_bytes m a (S n) = m a :: load_bytes m (a + 1) n.
Proof.
  unfold load_bytes; cbn [seq]; rewrite fmap_cons, Z.add_0_r; f_equal.
  rewrite <- (fmap_S_seq 0 n), <- list_fmap_compose.
  apply list_fmap_ext; intros i x _; simpl; f_equal; lia.
Qed.

Lemma load_bytes_app m a n k :
  load_bytes m a (n + k) = load_bytes m a n ++ load_bytes m (a + Z.of_nat n) k.
Proof.
  revert a; induction n as [|n IH]; intros a.
  - simpl; by rewrite Z.add_0_r.
  - cbn [Nat.add]; rewrite !load_bytes_S, IH; simpl; do 3 f_equal; lia.
Qed.

Lemma store_bytes_out m a l x : ~ (a <= x < a + Z.of_nat (length l)) -> store_bytes m a l x = m x.
Proof.
  intros H; unfold store_bytes.
  destruct (Z.leb_spec a x), (Z.ltb_spec x (a + Z.of_nat (length l))); simpl; auto; lia.
Qed.

Lemma store_bytes_in m a l x :
  a <= x < a + Z.of_nat (length l) -> store_bytes m a l x = default 0 (l !! Z.to_nat (x - a)).
Proof.
  intros H; unfold store_bytes.
  destruct (Z.leb_spec a x), (Z.ltb_spec x (a + Z.of_nat (length l))); simpl; auto; lia.
Qed.

Lemma store_bytes_ok m a l : mem_ok m -> Forall is_byte l -> mem_ok (store_bytes m a l).
Proof.
  intros Hm Hl x; unfold store_bytes.
  destruct (_ && _); [|apply Hm].
  destruct (l !! Z.to_nat (x - a)) eqn:E; simpl; [|lia].
  by apply (Forall_lookup_1 _ _ _ _ Hl E).
Qed.

#[export] Instance store_bytes_proper : Proper ((≡@{mem}) ==> eq ==> eq ==> (≡)) store_bytes.
Proof. intros m m' H a ? <- l ? <- x; unfold store_bytes; by rewrite (H x). Qed.

Lemma store_bytes_nil m a : store_bytes m a [] ≡ m.
Proof. intros x; apply store_bytes_out; simpl; lia. Qed.

Lemma store_bytes_cons m a b l :
  store_bytes m a (b :: l) ≡ store_bytes (store_bytes m a [b]) (a + 1) l.
Proof.
  intros x; destruct (decide (a + 1 <= x < a + 1 + Z.of_nat (length l))) as [Hin|Hout].
  - rewrite store_bytes_in by (cbn [length]; lia); rewrite store_bytes_in by lia.
    by replace (Z.to_nat (x - a)) with (S (Z.to_nat (x - (a + 1)))) by lia.
  - rewrite (store_bytes_out _ (a + 1)) by lia.
    destruct (decide (x = a)) as [->|].
    + rewrite !store_bytes_in by (cbn [length]; lia); by rewrite Z.sub_diag.
    + by rewrite !store_bytes_out by (cbn [length]; lia).
Qed.

Lemma store1_bytes m a v : store1 m a v ≡ store_bytes m a [u8 v].
Proof.
  intros x; unfold store1; destruct (Z.eqb_spec x a) as [->|].
  - rewrite store_bytes_in by (simpl; lia); by rewrite Z.sub_diag.
  - by rewrite store_bytes_out by (simpl; lia).
Qed.

Lemma store1_ok m a v : mem_ok m -> mem_ok (store1 m a v).
Proof.
  intros H x; unfold store1; destruct (x =? a); auto; apply Z.mod_pos_bound; lia.
Qed.

Lemma load_store_same m a l n :
  n = length l -> load_bytes (store_bytes m a l) a n = l.
Proof.
  intros ->; apply list_eq_same_length with (length l); rewrite ?length_load_bytes; auto.
  intros i x y Hi Hx Hy; rewrite lookup_load_bytes in Hx by lia.
  injection Hx as <-; rewrite store_bytes_in by lia.
  replace (Z.to_nat _) with i by lia; by rewrite Hy.
Qed.

Lemma load_store_disj m a l b n :
  b + Z.of_nat n <= a \/ a + Z.of_nat (length l) <= b ->
  load_bytes (store_bytes m a l) b n = load_bytes m b n.
Proof. intros H; apply load_bytes_ext; intros x Hx; apply store_bytes_out; lia. Qed.

Lemma load64_store64_same m a v : 0 <= v < 2 ^ 64 -> load64 (store64 m a v) a = v.
Proof.
  intros; unfold load64, store64.
  rewrite load_store_same by (by rewrite length_le_encode).
  rewrite le_decode_encode; apply Z.mod_small; done.
Qed.

Lemma load64_store_disj m a l b :
  b + 8 <= a \/ a + Z.of_nat (length l) <= b -> load64 (store_bytes m a l) b = load64 m b.
Proof. intros; unfold load64; by rewrite load_store_disj. Qed.

Lemma load64_store64_disj m a v b :
  b + 8 <= a \/ a + 8 <= b -> load64 (store64 m a v) b = load64 m b.
Proof. intros; unfold store64; apply load64_store_disj; rewrite length_le_encode; lia. Qed.

Lemma load64_ext m m' a : (forall x, a <= x < a + 8 -> m x = m' x) -> load64 m a = load64 m' a.
Proof. intros H; unfold load64; f_equal; by apply load_bytes_ext. Qed.

Lemma load64_range m a : mem_ok m -> 0 <= load64 m a < 2 ^ 64.
Proof.
  intros H; unfold load64; pose proof (le_decode_range _ (load_bytes_forall m a 8 H)) as Hr.
  by rewrite length_load_bytes in Hr.
Qed.

Lemma store64_out m a v x : ~ (a <= x < a + 8) -> store64 m a v x = m x.
Proof. intros; apply store_bytes_out; rewrite length_le_encode; lia. Qed.

Lemma store64_ok m a v : mem_ok m -> mem_ok (store64 m a v).
Proof. intros; apply store_bytes_ok; auto using le_encode_bytes. Qed.

Create HintDb cmem.
#[export] Hint Resolve store64_ok store1_ok store_bytes_ok le_encode_bytes load_bytes_forall : cmem.
