(* ===== verification/KString.v ===== *)
(** * kernel/string.c

    The kernel's memory and string routines over [CMem.mem], each loop as the
    source runs it, one byte at a time, and what they compute. *)

From S2P Require Import Prelude CMem.

(** ** Definitions *)

(** [for(i = 0; i < n; i++) cdst[i] = c;] *)
Fixpoint memset_loop (k : nat) (m : mem) (dst c i : Z) : mem :=
  match k with
  | O => m
  | S k' => memset_loop k' (store1 m (dst + i) c) dst c (i + 1)
  end.
Definition memset (m : mem) (dst c n : Z) : mem := memset_loop (Z.to_nat n) m dst c 0.

(** [while(n-- > 0){ if( *s1 != *s2) return *s1 - *s2; s1++, s2++; }] *)
Fixpoint memcmp_loop (k : nat) (m : mem) (s1 s2 : Z) : Z :=
  match k with
  | O => 0
  | S k' => if m s1 =? m s2 then memcmp_loop k' m (s1 + 1) (s2 + 1) else m s1 - m s2
  end.
Definition memcmp (m : mem) (v1 v2 n : Z) : Z := memcmp_loop (Z.to_nat n) m v1 v2.

(** [while(n-- > 0) *d++ = *s++;] *)
Fixpoint copy_up (k : nat) (m : mem) (d s : Z) : mem :=
  match k with
  | O => m
  | S k' => copy_up k' (store1 m d (m s)) (d + 1) (s + 1)
  end.

(** [while(n-- > 0) *--d = *--s;] *)
Fixpoint copy_down (k : nat) (m : mem) (d s : Z) : mem :=
  match k with
  | O => m
  | S k' => copy_down k' (store1 m (d - 1) (m (s - 1))) (d - 1) (s - 1)
  end.

Definition memmove (m : mem) (dst src n : Z) : mem :=
  if n =? 0 then m
  else if (src <? dst) && (dst <? src + n)
  then copy_down (Z.to_nat n) m (dst + n) (src + n)
  else copy_up (Z.to_nat n) m dst src.

Definition memcpy (m : mem) (dst src n : Z) : mem := memmove m dst src n.

(** [while(n > 0 && *p && *p == *q) n--, p++, q++;] *)
Fixpoint strncmp_loop (k : nat) (m : mem) (p q : Z) : Z :=
  match k with
  | O => 0
  | S k' =>
      if truth (m p) && (m p =? m q) then strncmp_loop k' m (p + 1) (q + 1)
      else m p - m q
  end.
Definition strncmp (m : mem) (p q n : Z) : Z := strncmp_loop (Z.to_nat n) m p q.

(** [while(n-- > 0 && ( *s++ = *t++ ) != 0) ;] returns the memory, the cursor
    [s] and the count that is left for the second loop. *)
Fixpoint strncpy_copy (k : nat) (m : mem) (s t : Z) : mem * Z * nat :=
  match k with
  | O => (m, s, O)
  | S k' =>
      let c := m t in
      let m' := store1 m s c in
      if c =? 0 then (m', s + 1, k') else strncpy_copy k' m' (s + 1) (t + 1)
  end.

(** [while(n-- > 0) *s++ = 0;] *)
Fixpoint strncpy_pad (k : nat) (m : mem) (s : Z) : mem :=
  match k with
  | O => m
  | S k' => strncpy_pad k' (store1 m s 0) (s + 1)
  end.
Definition strncpy (m : mem) (s t n : Z) : mem :=
  let '(m', s', k) := strncpy_copy (Z.to_nat n) m s t in strncpy_pad k m' s'.

(** [while(--n > 0 && ( *s++ = *t++ ) != 0) ;] *)
Fixpoint safestrcpy_copy (k : nat) (m : mem) (s t : Z) : mem * Z :=
  match k with
  | O => (m, s)
  | S k' =>
      let c := m t in
      let m' := store1 m s c in
      if c =? 0 then (m', s + 1) else safestrcpy_copy k' m' (s + 1) (t + 1)
  end.
Definition safestrcpy (m : mem) (s t n : Z) : mem :=
  if n <=? 0 then m
  else let '(m', s') := safestrcpy_copy (Z.to_nat (n - 1)) m s t in store1 m' s' 0.

(** [for(n = 0; s[n]; n++) ;]  The loop runs until a NUL; [None] is the run
    that has not met one after [fuel] bytes. *)
Fixpoint strlen_loop (fuel : nat) (m : mem) (s n : Z) : option Z :=
  match fuel with
  | O => None
  | S f => if truth (m (s + n)) then strlen_loop f m s (n + 1) else Some n
  end.
Definition strlen (fuel : nat) (m : mem) (s : Z) : option Z := strlen_loop fuel m s 0.

(** ** Specification vocabulary *)

(** The bytes of a list before its first NUL. *)
Fixpoint until_nul (l : list Z) : list Z :=
  match l with
  | [] => []
  | c :: l' => if c =? 0 then [] else c :: until_nul l'
  end.

(** The string at [a], cut after [n] bytes. *)
Definition cstr (m : mem) (a : Z) (n : nat) : list Z := until_nul (load_bytes m a n).

Definition disjoint (a n b k : Z) : Prop := a + n <= b \/ b + k <= a.

(** ** Lemmas *)

Lemma u8_byte m a : mem_ok m -> u8 (m a) = m a.
Proof. intros H; unfold u8; apply Z.mod_small; apply H. Qed.

Lemma store1_at m a v : store1 m a v a = u8 v.
Proof. unfold store1; by rewrite Z.eqb_refl. Qed.

Lemma store1_ne m a v x : x <> a -> store1 m a v x = m x.
Proof. intros; unfold store1; by destruct (Z.eqb_spec x a). Qed.

Lemma memset_loop_spec k m dst c i x :
  memset_loop k m dst c i x =
  if (dst + i <=? x) && (x <? dst + i + Z.of_nat k) then u8 c else m x.
Proof.
  revert m i; induction k as [|k IH]; intros m i; cbn [memset_loop].
  - destruct (Z.leb_spec (dst + i) x), (Z.ltb_spec x (dst + i + Z.of_nat 0)); simpl; auto; lia.
  - rewrite IH; unfold store1.
    destruct (Z.eqb_spec x (dst + i)),
      (Z.leb_spec (dst + (i + 1)) x), (Z.ltb_spec x (dst + (i + 1) + Z.of_nat k)),
      (Z.leb_spec (dst + i) x), (Z.ltb_spec x (dst + i + Z.of_nat (S k))); simpl; auto; lia.
Qed.

Lemma memset_out m dst c n x : 0 <= n -> ~ (dst <= x < dst + n) -> memset m dst c n x = m x.
Proof.
  intros Hn H; unfold memset; rewrite memset_loop_spec, Z.add_0_r, Z2Nat.id by lia.
  destruct (Z.leb_spec dst x), (Z.ltb_spec x (dst + n)); simpl; auto; lia.
Qed.

Lemma memset_in m dst c n x : dst <= x < dst + n -> memset m dst c n x = u8 c.
Proof.
  intros H; unfold memset; rewrite memset_loop_spec, Z.add_0_r, Z2Nat.id by lia.
  destruct (Z.leb_spec dst x), (Z.ltb_spec x (dst + n)); simpl; auto; lia.
Qed.

Lemma memset_ok m dst c n : mem_ok m -> mem_ok (memset m dst c n).
Proof.
  intros H x; unfold memset; rewrite memset_loop_spec.
  destruct (_ && _); auto; apply Z.mod_pos_bound; lia.
Qed.

(** A copy loop leaves the source bytes it has yet to read alone: upwards when
    the destination does not lie inside the rest of the source, downwards when
    it does. *)
Lemma copy_up_spec k m d s x :
  mem_ok m -> d <= s \/ s + Z.of_nat k <= d ->
  copy_up k m d s x =
  if (d <=? x) && (x <? d + Z.of_nat k) then m (s + (x - d)) else m x.
Proof.
  revert m d s; induction k as [|k IH]; intros m d s Hm Hds; cbn [copy_up].
  - destruct (Z.leb_spec d x), (Z.ltb_spec x (d + Z.of_nat 0)); simpl; auto; lia.
  - rewrite IH; [|auto with cmem|lia].
    destruct (Z.leb_spec (d + 1) x), (Z.ltb_spec x (d + 1 + Z.of_nat k)),
      (Z.leb_spec d x), (Z.ltb_spec x (d + Z.of_nat (S k))); simpl; try lia;
      try (rewrite store1_ne by lia; f_equal; lia).
    replace x with d by lia; rewrite store1_at, u8_byte by done; f_equal; lia.
Qed.

Lemma copy_down_spec k m d s x :
  mem_ok m -> s <= d ->
  copy_down k m d s x =
  if (d - Z.of_nat k <=? x) && (x <? d) then m (s + (x - d)) else m x.
Proof.
  revert m d s; induction k as [|k IH]; intros m d s Hm Hds; cbn [copy_down].
  - destruct (Z.leb_spec (d - Z.of_nat 0) x), (Z.ltb_spec x d); simpl; auto; lia.
  - rewrite IH; [|auto with cmem|lia].
    destruct (Z.leb_spec (d - 1 - Z.of_nat k) x), (Z.ltb_spec x (d - 1)),
      (Z.leb_spec (d - Z.of_nat (S k)) x), (Z.ltb_spec x d); simpl; try lia;
      try (rewrite store1_ne by lia; f_equal; lia).
    replace x with (d - 1) by lia; rewrite store1_at, u8_byte by done; f_equal; lia.
Qed.

Lemma memmove_at m d s n x :
  mem_ok m -> 0 <= n ->
  memmove m d s n x = if (d <=? x) && (x <? d + n) then m (s + (x - d)) else m x.
Proof.
  intros Hm Hn; unfold memmove; destruct (Z.eqb_spec n 0) as [->|].
  { destruct (Z.leb_spec d x), (Z.ltb_spec x (d + 0)); simpl; auto; lia. }
  destruct (Z.ltb_spec s d), (Z.ltb_spec d (s + n)); cbn [andb];
    rewrite ?copy_down_spec, ?copy_up_spec by (auto; lia); rewrite Z2Nat.id by lia; auto.
  replace (d + n - n) with d by lia; by replace (s + n + (x - (d + n))) with (s + (x - d)) by lia.
Qed.

Lemma memmove_bytes m d s n :
  mem_ok m -> 0 <= n -> memmove m d s n ≡ store_bytes m d (load_bytes m s (Z.to_nat n)).
Proof.
  intros Hm Hn x; rewrite memmove_at by done.
  destruct (decide (d <= x < d + n)) as [Hx|Hx].
  - rewrite store_bytes_in by (rewrite length_load_bytes; lia).
    rewrite lookup_load_bytes by lia; simpl.
    replace (d <=? x) with true by lia; replace (x <? d + n) with true by lia; simpl; f_equal; lia.
  - rewrite store_bytes_out by (rewrite length_load_bytes; lia).
    destruct (Z.leb_spec d x), (Z.ltb_spec x (d + n)); simpl; auto; lia.
Qed.

Lemma memmove_ok m d s n : mem_ok m -> 0 <= n -> mem_ok (memmove m d s n).
Proof. intros Hm Hn x; rewrite memmove_at by done; destruct (_ && _); apply Hm. Qed.

#[export] Hint Resolve memset_ok memmove_ok : cmem.

Lemma memcmp_loop_zero k m a b :
  memcmp_loop k m a b = 0 <-> load_bytes m a k = load_bytes m b k.
Proof.
  revert a b; induction k as [|k IH]; intros a b; cbn [memcmp_loop]; [done|].
  rewrite !load_bytes_S; destruct (Z.eqb_spec (m a) (m b)) as [E|E].
  - rewrite IH, E; split; [by intros ->|by intros [= ->]].
  - split; [lia|by intros [= ? ?]].
Qed.

Lemma length_until_nul l : (length (until_nul l) <= length l)%nat.
Proof. induction l as [|c l IH]; simpl; [lia|]; destruct (c =? 0); simpl; lia. Qed.

Lemma cstr_S m a n :
  cstr m a (S n) = if m a =? 0 then [] else m a :: cstr m (a + 1) n.
Proof. unfold cstr; by rewrite load_bytes_S. Qed.

Lemma cstr_ext m m' a n :
  (forall x, a <= x < a + Z.of_nat n -> m x = m' x) -> cstr m a n = cstr m' a n.
Proof. intros H; unfold cstr; by rewrite (load_bytes_ext m m'). Qed.

Lemma strncmp_loop_zero k m p q :
  strncmp_loop k m p q = 0 <-> cstr m p k = cstr m q k.
Proof.
  revert p q; induction k as [|k IH]; intros p q; cbn [strncmp_loop]; [done|].
  rewrite !cstr_S; unfold truth; destruct (Z.eqb_spec (m p) (m q)) as [E|E].
  - rewrite <- E, andb_true_r; destruct (m p =? 0); cbn [negb]; [split; [done|lia]|].
    rewrite IH; split; [by intros ->|by intros [= ->]].
  - rewrite andb_false_r; split; [lia|].
    destruct (Z.eqb_spec (m p) 0), (Z.eqb_spec (m q) 0); try done; [lia|by intros [= ? ?]].
Qed.

Lemma strncpy_pad_spec k m s x :
  strncpy_pad k m s x = if (s <=? x) && (x <? s + Z.of_nat k) then 0 else m x.
Proof.
  revert m s; induction k as [|k IH]; intros m s; cbn [strncpy_pad].
  - destruct (Z.leb_spec s x), (Z.ltb_spec x (s + Z.of_nat 0)); simpl; auto; lia.
  - rewrite IH; unfold store1.
    destruct (Z.eqb_spec x s), (Z.leb_spec (s + 1) x), (Z.ltb_spec x (s + 1 + Z.of_nat k)),
      (Z.leb_spec s x), (Z.ltb_spec x (s + Z.of_nat (S k))); simpl; auto; lia.
Qed.

(** Copying ends with the string and pads: every byte of the field is a byte
    of the string, or zero past its end. *)
Lemma strncpy_at k m s t x :
  mem_ok m -> disjoint s (Z.of_nat k) t (Z.of_nat k) ->
  (let '(m', s', r) := strncpy_copy k m s t in strncpy_pad r m' s') x =
  if (s <=? x) && (x <? s + Z.of_nat k)
  then default 0 (cstr m t k !! Z.to_nat (x - s)) else m x.
Proof.
  unfold disjoint; revert m s t; induction k as [|k IH]; intros m s t Hm Hd;
    cbn [strncpy_copy].
  { destruct (Z.leb_spec s x), (Z.ltb_spec x (s + Z.of_nat 0)); cbn [andb strncpy_pad]; auto; lia. }
  rewrite cstr_S; destruct (Z.eqb_spec (m t) 0) as [E|E].
  - rewrite strncpy_pad_spec, E, lookup_nil; unfold store1.
    destruct (Z.eqb_spec x s), (Z.leb_spec (s + 1) x), (Z.ltb_spec x (s + 1 + Z.of_nat k)),
      (Z.leb_spec s x), (Z.ltb_spec x (s + Z.of_nat (S k))); cbn [andb]; try lia; done.
  - rewrite IH; [|auto with cmem|lia].
    rewrite (cstr_ext (store1 m s (m t)) m) by (intros y Hy; apply store1_ne; lia).
    destruct (decide (x = s)) as [->|Hne].
    + replace (s + 1 <=? s) with false by lia; replace (s <=? s) with true by lia.
      replace (s <? s + Z.of_nat (S k)) with true by lia; cbn [andb].
      by rewrite store1_at, u8_byte, Z.sub_diag.
    + rewrite store1_ne by done.
      destruct (Z.leb_spec (s + 1) x), (Z.ltb_spec x (s + 1 + Z.of_nat k)),
        (Z.leb_spec s x), (Z.ltb_spec x (s + Z.of_nat (S k))); simpl; try lia; auto.
      by replace (Z.to_nat (x - s)) with (S (Z.to_nat (x - (s + 1)))) by lia.
Qed.

Lemma strncpy_spec_at m s t n x :
  mem_ok m -> 0 <= n -> disjoint s n t n ->
  strncpy m s t n x =
  if (s <=? x) && (x <? s + n)
  then default 0 (cstr m t (Z.to_nat n) !! Z.to_nat (x - s)) else m x.
Proof.
  intros Hm Hn Hd; pose proof (strncpy_at (Z.to_nat n) m s t x Hm) as H.
  rewrite Z2Nat.id in H by lia; by apply H.
Qed.

Lemma until_nul_nonzero l i c : until_nul l !! i = Some c -> c <> 0.
Proof.
  revert i; induction l as [|b l IH]; intros i; simpl; [done|].
  destruct (Z.eqb_spec b 0); [done|]; destruct i; simpl; [naive_solver|apply IH].
Qed.

(** A region spells the string [l] when it holds its bytes and then a NUL, or
    ends. *)
Lemma cstr_intro (l : list Z) m a n :
  (length l <= n)%nat -> Forall (fun c => c <> 0) l ->
  (forall i, (i < length l)%nat -> m (a + Z.of_nat i) = default 0 (l !! i)) ->
  ((length l < n)%nat -> m (a + Z.of_nat (length l)) = 0) -> cstr m a n = l.
Proof.
  revert a n; induction l as [|c l IH]; intros a n Hlen Hnz Hin Hend.
  - destruct n; [done|]; rewrite cstr_S; simpl in Hend.
    by rewrite Z.add_0_r in Hend; rewrite Hend by lia.
  - destruct n as [|n]; [simpl in Hlen; lia|].
    apply Forall_cons in Hnz as [Hc Hnz].
    pose proof (Hin O ltac:(simpl; lia)) as H0; simpl in H0; rewrite Z.add_0_r in H0.
    rewrite cstr_S, H0; destruct (Z.eqb_spec c 0); [done|]; f_equal; apply IH; auto.
    + simpl in Hlen; lia.
    + intros i Hi; pose proof (Hin (S i) ltac:(simpl; lia)) as HS; simpl in HS.
      rewrite <- HS; f_equal; lia.
    + intros Hn; rewrite <- Hend by (simpl; lia); f_equal; simpl; lia.
Qed.

Lemma until_nul_Forall l : Forall (fun c => c <> 0) (until_nul l).
Proof. apply Forall_lookup; intros i c; apply until_nul_nonzero. Qed.

Lemma length_cstr m a n : (length (cstr m a n) <= n)%nat.
Proof.
  unfold cstr; pose proof (length_until_nul (load_bytes m a n)) as H.
  by rewrite length_load_bytes in H.
Qed.

Lemma cstr_lookup m a n i :
  (i < length (cstr m a n))%nat -> cstr m a n !! i = Some (m (a + Z.of_nat i)).
Proof.
  revert a i; induction n as [|n IH]; intros a i; [simpl; lia|].
  rewrite cstr_S; destruct (m a =? 0); simpl; [lia|].
  destruct i as [|i]; intros Hi; simpl; [by rewrite Z.add_0_r|].
  rewrite IH by lia; do 2 f_equal; lia.
Qed.

Lemma cstr_end m a n :
  (length (cstr m a n) < n)%nat -> m (a + Z.of_nat (length (cstr m a n))) = 0.
Proof.
  revert a; induction n as [|n IH]; intros a; [simpl; lia|].
  rewrite cstr_S; destruct (Z.eqb_spec (m a) 0) as [E|E]; simpl; intros H.
  - by rewrite Z.add_0_r.
  - rewrite <- (IH (a + 1)) by lia; f_equal; lia.
Qed.

Lemma safestrcpy_copy_spec k m s t :
  mem_ok m -> disjoint s (Z.of_nat k + 1) t (Z.of_nat k) ->
  let '(m', s') := safestrcpy_copy k m s t in
  let m'' := store1 m' s' 0 in
  (forall x, ~ (s <= x < s + Z.of_nat k + 1) -> m'' x = m x) /\
  (forall i, (i < length (cstr m t k))%nat ->
     m'' (s + Z.of_nat i) = default 0 (cstr m t k !! i)) /\
  m'' (s + Z.of_nat (length (cstr m t k))) = 0.
Proof.
  unfold disjoint; revert m s t; induction k as [|k IH]; intros m s t Hm Hd;
    cbn [safestrcpy_copy].
  { cbn; rewrite Z.add_0_r, store1_at; split_and!; [|lia|done].
    intros x Hx; apply store1_ne; lia. }
  rewrite cstr_S; destruct (Z.eqb_spec (m t) 0) as [E|E]; cbv zeta.
  - cbn [length]; rewrite E; split_and!; [|lia|].
    + intros x Hx; rewrite !store1_ne by lia; done.
    + rewrite store1_ne, Z.add_0_r, store1_at by lia; done.
  - specialize (IH (store1 m s (m t)) (s + 1) (t + 1)).
    destruct (safestrcpy_copy k _ _ _) as [m' s'] eqn:Eq.
    destruct IH as (IHo & IHi & IHn); [auto with cmem|lia|].
    rewrite (cstr_ext (store1 m s (m t)) m) in IHi, IHn
      by (intros y Hy; apply store1_ne; lia).
    split_and!.
    + intros x Hx; rewrite IHo by lia; apply store1_ne; lia.
    + intros [|i] Hi; simpl in *.
      * rewrite Z.add_0_r, IHo, store1_at by lia; by apply u8_byte.
      * rewrite <- IHi by lia; f_equal; lia.
    + rewrite <- IHn; f_equal; cbn [length]; lia.
Qed.

Lemma strlen_loop_spec fuel m s n :
  strlen_loop fuel m s n =
  (let l := length (cstr m (s + n) fuel) in
   if decide (l < fuel)%nat then Some (n + Z.of_nat l) else None).
Proof.
  revert n; induction fuel as [|f IH]; intros n; cbn [strlen_loop]; [done|].
  rewrite IH, cstr_S; unfold truth; replace (s + (n + 1)) with (s + n + 1) by lia.
  destruct (m (s + n) =? 0); cbn [negb length]; [by rewrite Z.add_0_r|].
  cbv zeta; repeat case_decide; try lia; auto; f_equal; lia.
Qed.

(** ** Properties *)

(** [memmove] copies as if through a buffer: whatever the overlap of the
    two regions, the destination ends up with the bytes the source held, and
    no other byte changes. *)
Theorem memmove_correct (m : mem) (dst src n : Z) :
  mem_ok m -> 0 <= n ->
  memmove m dst src n ≡ store_bytes m dst (load_bytes m src (Z.to_nat n)).
Proof. apply memmove_bytes. Qed.

Definition demo_mem : mem := fun a => if (0 <=? a) && (a <? 256) then a else 0.

Lemma demo_mem_ok : mem_ok demo_mem.
Proof.
  intros a; unfold demo_mem.
  destruct (Z.leb_spec 0 a), (Z.ltb_spec a 256); simpl; lia.
Qed.

Lemma memmove_correct_witness :
  mem_ok demo_mem /\ 0 <= 4 /\
  memmove demo_mem 12 10 4 ≡ store_bytes demo_mem 12 (load_bytes demo_mem 10 (Z.to_nat 4)).
Proof.
  split; [apply demo_mem_ok|split; [lia|]].
  apply (memmove_correct demo_mem 12 10 4); [apply demo_mem_ok|lia].
Defined.

(** The string in the destination of [strncpy] is that of the source. *)
Lemma strncpy_cstr m s t n :
  mem_ok m -> 0 <= n -> disjoint s n t n -> cstr (strncpy m s t n) s (Z.to_nat n) = cstr m t (Z.to_nat n).
Proof.
  intros Hm Hn Hd; apply cstr_intro; [apply length_cstr|apply until_nul_Forall| |].
  - intros i Hi; pose proof (length_cstr m t (Z.to_nat n)).
    rewrite strncpy_spec_at by done.
    replace (s <=? s + Z.of_nat i) with true by lia.
    replace (s + Z.of_nat i <? s + n) with true by lia; simpl; do 2 f_equal; lia.
  - intros Hl; rewrite strncpy_spec_at by done.
    destruct (_ && _) eqn:Eb; [|lia].
    rewrite lookup_ge_None_2 by lia; done.
Qed.

(** A name written with [strncpy] into a field compares equal to the
    original with [strncmp] of the same width, which is how a directory entry
    written by [dirlink] is found again by [dirlookup]; the bytes outside the
    field are unchanged. *)
Theorem strncpy_strncmp (m : mem) (s t n : Z) :
  mem_ok m -> 0 <= n -> disjoint s n t n ->
  strncmp (strncpy m s t n) t s n = 0 /\
  (forall x, ~ (s <= x < s + n) -> strncpy m s t n x = m x).
Proof.
  intros Hm Hn Hd; split.
  - apply strncmp_loop_zero; rewrite (cstr_ext (strncpy m s t n) m t); [symmetry; by apply strncpy_cstr|].
    intros x Hx; rewrite strncpy_spec_at by done; unfold disjoint in Hd.
    destruct (Z.leb_spec s x), (Z.ltb_spec x (s + n)); simpl; auto; lia.
  - intros x Hx; rewrite strncpy_spec_at by done.
    destruct (Z.leb_spec s x), (Z.ltb_spec x (s + n)); simpl; auto; lia.
Qed.

Lemma strncpy_strncmp_witness :
  disjoint 300 14 65 14 /\
  strncmp (strncpy demo_mem 300 65 14) 65 300 14 = 0 /\
  (forall x, ~ (300 <= x < 300 + 14) -> strncpy demo_mem 300 65 14 x = demo_mem x).
Proof.
  split; [unfold disjoint; lia|].
  apply (strncpy_strncmp demo_mem 300 65 14);
    [apply demo_mem_ok|lia|unfold disjoint; lia].
Defined.

(** [safestrcpy] stores the longest prefix of the source that leaves room
    for a terminating NUL, always terminates the destination, and writes no
    byte outside its [n]-byte buffer. *)
Theorem safestrcpy_correct (m : mem) (s t n : Z) :
  mem_ok m -> 0 < n -> disjoint s n t (n - 1) ->
  cstr (safestrcpy m s t n) s (Z.to_nat n) = cstr m t (Z.to_nat (n - 1)) /\
  (forall x, ~ (s <= x < s + n) -> safestrcpy m s t n x = m x).
Proof.
  intros Hm Hn Hd; unfold safestrcpy.
  destruct (Z.leb_spec n 0); [lia|].
  pose proof (safestrcpy_copy_spec (Z.to_nat (n - 1)) m s t Hm) as H1.
  rewrite Z2Nat.id in H1 by lia; replace (n - 1 + 1) with n in H1 by lia.
  specialize (H1 Hd); destruct (safestrcpy_copy _ _ _ _) as [m' s'].
  destruct H1 as (Ho & Hi & Hz); split; [|intros x Hx; apply Ho; lia].
  pose proof (length_cstr m t (Z.to_nat (n - 1))) as Hl.
  apply cstr_intro; [lia|apply until_nul_Forall|exact Hi|auto].
Qed.

Lemma safestrcpy_correct_witness :
  0 < 16 /\ disjoint 300 16 65 (16 - 1) /\
  cstr (safestrcpy demo_mem 300 65 16) 300 (Z.to_nat 16) = cstr demo_mem 65 (Z.to_nat (16 - 1)) /\
  (forall x, ~ (300 <= x < 300 + 16) -> safestrcpy demo_mem 300 65 16 x = demo_mem x).
Proof.
  split; [lia|split; [unfold disjoint; lia|]].
  apply (safestrcpy_correct demo_mem 300 65 16);
    [apply demo_mem_ok|lia|unfold disjoint; lia].
Defined.
