(* ===== verification/Riscv.v ===== *)
(** * kernel/riscv.h, kernel/memlayout.h, kernel/param.h

    Page and page-table-entry arithmetic of the Sv39 scheme, the memory layout
    and the kernel's size limits, with their arithmetic reading. *)

From S2P Require Import Prelude.

(** ** Definitions *)

(** riscv.h: pages *)
Definition PGSIZE : Z := 4096.
Definition PGSHIFT : Z := 12.
Definition PGROUNDUP (sz : Z) : Z := Z.land (u64 (sz + PGSIZE - 1)) (Z.lnot (PGSIZE - 1)).
Definition PGROUNDDOWN (a : Z) : Z := Z.land a (Z.lnot (PGSIZE - 1)).

(** riscv.h: page-table entries *)
Definition PTE_V : Z := Z.shiftl 1 0.
Definition PTE_R : Z := Z.shiftl 1 1.
Definition PTE_W : Z := Z.shiftl 1 2.
Definition PTE_X : Z := Z.shiftl 1 3.
Definition PTE_U : Z := Z.shiftl 1 4.
Definition PA2PTE (pa : Z) : Z := u64 (Z.shiftl (Z.shiftr pa 12) 10).
Definition PTE2PA (pte : Z) : Z := u64 (Z.shiftl (Z.shiftr pte 10) 12).
Definition PTE_FLAGS (pte : Z) : Z := Z.land pte 0x3FF.

(** riscv.h: indices of a virtual address *)
Definition PXMASK : Z := 0x1FF.
Definition PXSHIFT (level : Z) : Z := PGSHIFT + 9 * level.
Definition PX (level va : Z) : Z := Z.land (Z.shiftr va (PXSHIFT level)) PXMASK.
Definition MAXVA : Z := Z.shiftl 1 (9 + 9 + 9 + 12 - 1).

(** riscv.h: interrupt enable bit of sstatus, and the satp mode *)
Definition SSTATUS_SPP : Z := Z.shiftl 1 8.
Definition SSTATUS_SPIE : Z := Z.shiftl 1 5.
Definition SSTATUS_SIE : Z := Z.shiftl 1 1.
Definition SATP_SV39 : Z := Z.shiftl 8 60.
Definition MAKE_SATP (pagetable : Z) : Z := Z.lor SATP_SV39 (Z.shiftr pagetable 12).

(** memlayout.h *)
Definition UART0 : Z := 0x10000000.
Definition UART0_IRQ : Z := 10.
Definition VIRTIO0 : Z := 0x10001000.
Definition VIRTIO0_IRQ : Z := 1.
Definition PLIC : Z := 0x0c000000.
Definition KERNBASE : Z := 0x80000000.
Definition PHYSTOP : Z := KERNBASE + 128 * 1024 * 1024.
Definition TRAMPOLINE : Z := MAXVA - PGSIZE.
Definition KSTACK (p : Z) : Z := TRAMPOLINE - (p + 1) * 2 * PGSIZE.
Definition TRAPFRAME : Z := TRAMPOLINE - PGSIZE.

(** param.h *)
Definition NPROC : Z := 64.
Definition NCPU : Z := 8.
Definition NOFILE : Z := 16.
Definition NFILE : Z := 100.
Definition NINODE : Z := 50.
Definition NDEV : Z := 10.
Definition ROOTDEV : Z := 1.
Definition MAXARG : Z := 32.
Definition MAXOPBLOCKS : Z := 10.
Definition LOGSIZE : Z := MAXOPBLOCKS * 3.
Definition NBUF : Z := MAXOPBLOCKS * 3.
Definition FSSIZE : Z := 2000.
Definition MAXPATH : Z := 128.
Definition USERSTACK : Z := 1.

(** A bit of a page-table entry, as the C test [pte & bit]. *)
Definition has (pte bit : Z) : bool := truth (Z.land pte bit).

(** Page frames: a physical address that a page-table entry can hold. *)
Definition is_frame (pa : Z) : Prop := 0 <= pa < 2 ^ 56 /\ pa mod 4096 = 0.

(** ** Arithmetic readings *)

Lemma land_lnot_ones a n : 0 <= n -> Z.land a (Z.lnot (2 ^ n - 1)) = a - a mod 2 ^ n.
Proof.
  intros Hn; replace (2 ^ n - 1) with (Z.ones n) by (rewrite Z.ones_equiv; lia).
  rewrite <- Z.ldiff_land, Z.ldiff_ones_r, Z.shiftl_mul_pow2, Z.shiftr_div_pow2 by lia.
  pose proof (Z.div_mod a (2 ^ n) ltac:(lia)); lia.
Qed.

Lemma PGROUNDDOWN_eq a : PGROUNDDOWN a = a - a mod 4096.
Proof. apply (land_lnot_ones a 12); lia. Qed.

Lemma PGROUNDUP_eq sz : 0 <= sz -> sz + 4095 < 2 ^ 64 -> PGROUNDUP sz = (sz + 4095) / 4096 * 4096.
Proof.
  intros; unfold PGROUNDUP, PGSIZE; rewrite u64_small by lia.
  replace (sz + 4096 - 1) with (sz + 4095) by lia.
  change (4096 - 1) with (2 ^ 12 - 1); rewrite land_lnot_ones by lia.
  change (2 ^ 12) with 4096; pose proof (Z.div_mod (sz + 4095) 4096 ltac:(lia)); lia.
Qed.

Lemma PX_eq level va : 0 <= level -> PX level va = (va / 2 ^ (12 + 9 * level)) mod 512.
Proof.
  intros; unfold PX, PXMASK, PXSHIFT, PGSHIFT.
  rewrite Z.shiftr_div_pow2 by lia; apply (Z.land_ones _ 9); lia.
Qed.

Lemma PX_range level va : 0 <= level -> 0 <= PX level va < 512.
Proof. intros; rewrite PX_eq by lia; apply Z.mod_pos_bound; lia. Qed.

Lemma MAXVA_eq : MAXVA = 2 ^ 38.
Proof. reflexivity. Qed.

Lemma lor_add a b n : 0 <= n -> 0 <= b < 2 ^ n -> Z.lor (a * 2 ^ n) b = a * 2 ^ n + b.
Proof.
  intros Hn Hb.
  assert (Hd : Z.land (a * 2 ^ n) b = 0).
  { apply Z.bits_inj'; intros i Hi; rewrite Z.land_spec, Z.bits_0.
    destruct (decide (i < n)).
    - by rewrite Z.mul_pow2_bits_low.
    - destruct (decide (b = 0)) as [->|]; [by rewrite Z.bits_0, andb_false_r|].
      assert (Z.log2 b < n) by (apply Z.log2_lt_pow2; lia).
      by rewrite (Z.bits_above_log2 b i), andb_false_r by lia. }
  rewrite <- Z.lxor_lor, Z.add_nocarry_lxor by done; done.
Qed.

Lemma PA2PTE_eq pa : is_frame pa -> PA2PTE pa = pa / 4096 * 2 ^ 10.
Proof.
  intros [Hr _]; unfold PA2PTE.
  rewrite Z.shiftl_mul_pow2, Z.shiftr_div_pow2 by lia; apply u64_small.
  change (2 ^ 12) with 4096; split; [apply Z.mul_nonneg_nonneg; [apply Z.div_pos|]; lia|].
  assert (pa / 4096 < 2 ^ 44) by (apply Z.div_lt_upper_bound; lia); lia.
Qed.

Lemma PTE2PA_lor pa f : is_frame pa -> 0 <= f < 2 ^ 10 -> PTE2PA (Z.lor (PA2PTE pa) f) = pa.
Proof.
  intros Hf Hb; rewrite PA2PTE_eq, (lor_add _ _ 10) by (done || lia); unfold PTE2PA.
  rewrite Z.shiftl_mul_pow2, Z.shiftr_div_pow2 by lia.
  rewrite Z.div_add_l, (Z.div_small f) by lia.
  destruct Hf as [Hr Ha]; rewrite Z.add_0_r.
  replace (pa / 4096 * 2 ^ 12) with pa; [apply u64_small; lia|].
  pose proof (Z.div_mod pa 4096 ltac:(lia)); lia.
Qed.

Lemma PTE_FLAGS_lor pa f : is_frame pa -> 0 <= f < 2 ^ 10 -> PTE_FLAGS (Z.lor (PA2PTE pa) f) = f.
Proof.
  intros Hf Hb; rewrite PA2PTE_eq, (lor_add _ _ 10) by (done || lia); unfold PTE_FLAGS.
  change 0x3FF with (Z.ones 10); rewrite Z.land_ones by lia.
  rewrite Z.add_comm, Z.mod_add, Z.mod_small by lia; done.
Qed.

Lemma land_bit pa f b :
  is_frame pa -> 0 <= f < 2 ^ 10 -> 0 <= b < 10 ->
  Z.land (Z.lor (PA2PTE pa) f) (Z.shiftl 1 b) = Z.land f (Z.shiftl 1 b).
Proof.
  intros Hf Hr Hb; rewrite Z.land_lor_distr_l.
  replace (Z.land (PA2PTE pa) (Z.shiftl 1 b)) with 0; [apply Z.lor_0_l|].
  rewrite PA2PTE_eq by done; apply Z.bits_inj'; intros i Hi.
  rewrite Z.bits_0, Z.land_spec, Z.shiftl_spec by lia.
  destruct (decide (i < 10)); [by rewrite Z.mul_pow2_bits_low|].
  rewrite (Z.bits_above_log2 1 (i - b)), andb_false_r by (simpl; lia); done.
Qed.

(** The flag tests on an entry built by [PA2PTE(pa) | f] read [f]. *)
Lemma has_lor pa f b :
  is_frame pa -> 0 <= f < 2 ^ 10 -> 0 <= b < 10 ->
  has (Z.lor (PA2PTE pa) f) (Z.shiftl 1 b) = has f (Z.shiftl 1 b).
Proof. intros; unfold has; by rewrite land_bit. Qed.

Lemma PTE_range pa f : is_frame pa -> 0 <= f < 2 ^ 10 -> 0 <= Z.lor (PA2PTE pa) f < 2 ^ 64.
Proof.
  intros Hf Hb; rewrite PA2PTE_eq, (lor_add _ _ 10) by (done || lia).
  destruct Hf as [Hr _]; assert (0 <= pa / 4096 < 2 ^ 44); [|lia].
  split; [apply Z.div_pos|apply Z.div_lt_upper_bound]; lia.
Qed.

Lemma PTE2PA_frame pte : 0 <= pte < 2 ^ 64 -> PTE2PA pte mod 4096 = 0 /\ 0 <= PTE2PA pte.
Proof.
  intros H; unfold PTE2PA; split; [|apply u64_range].
  rewrite Z.shiftl_mul_pow2 by lia; unfold u64; change (2 ^ 64) with (2 ^ 52 * 2 ^ 12).
  rewrite Z.mul_mod_distr_r by lia; apply Z.mod_mul; lia.
Qed.

(** The two upper indices and the page number of a virtual address. *)
Lemma PX_split va :
  0 <= va < MAXVA ->
  PX 2 va = va / 2 ^ 30 /\
  va / 2 ^ 21 = PX 2 va * 512 + PX 1 va /\
  va / 2 ^ 12 = va / 2 ^ 21 * 512 + PX 0 va.
Proof.
  rewrite MAXVA_eq; intros Hva.
  assert (H2 : PX 2 va = (va / 2 ^ 30) mod 512) by (by rewrite PX_eq by lia).
  assert (H1 : PX 1 va = (va / 2 ^ 21) mod 512) by (by rewrite PX_eq by lia).
  assert (H0 : PX 0 va = (va / 2 ^ 12) mod 512) by (by rewrite PX_eq by lia).
  assert (va / 2 ^ 30 < 512) by (apply Z.div_lt_upper_bound; lia).
  assert (0 <= va / 2 ^ 30) by (apply Z.div_pos; lia).
  rewrite Z.mod_small in H2 by lia; rewrite H2, H1, H0; split_and!; [done| |].
  - replace (va / 2 ^ 30) with (va / 2 ^ 21 / 512) by (rewrite Z.div_div by lia; done).
    pose proof (Z.div_mod (va / 2 ^ 21) 512 ltac:(lia)); lia.
  - replace (va / 2 ^ 21) with (va / 2 ^ 12 / 512) by (rewrite Z.div_div by lia; done).
    pose proof (Z.div_mod (va / 2 ^ 12) 512 ltac:(lia)); lia.
Qed.
