(* ===== verification/Kalloc.v ===== *)
(** * kernel/kalloc.c

    The physical page allocator.  The free list is threaded through the free
    pages themselves, so the component's state is the memory together with
    [kmem.freelist]. *)

From S2P Require Import Prelude CMem KString Riscv.

Record pmem : Type := PMem {
  pm_mem : mem;        (* physical memory *)
  freelist : Z         (* kmem.freelist, 0 when empty *)
}.

Definition with_mem (f : mem -> mem) (s : pmem) : pmem := PMem (f (pm_mem s)) (freelist s).

Section kalloc.
(** [end], the first address after the kernel, which the linker script
    kernel.ld defines. *)
Variable kend : Z.

(** ** Operations *)

Definition kfree (pa : Z) : M pmem unit :=
  if negb (pa mod PGSIZE =? 0) || (pa <? kend) || (PHYSTOP <=? pa) then panic "kfree"
  else
    kmod (with_mem (fun m => memset m pa 1 PGSIZE)) ;;;
    acquire O_kmem ;;;
    kmod (fun s => PMem (store64 (pm_mem s) pa (freelist s)) pa) ;;;
    release O_kmem.

Definition kalloc : M pmem Z :=
  acquire O_kmem ;;;
  let* s := kget in
  let r := freelist s in
  (if r =? 0 then kret tt else kput (PMem (pm_mem s) (load64 (pm_mem s) r))) ;;;
  release O_kmem ;;;
  (if r =? 0 then kret tt else kmod (with_mem (fun m => memset m r 5 PGSIZE))) ;;;
  kret r.

(** [for(; p + PGSIZE <= pa_end; p += PGSIZE) kfree(p);] *)
Fixpoint freerange_loop (fuel : nat) (p pa_end : Z) : M pmem unit :=
  match fuel with
  | O => stuck
  | S f => if p + PGSIZE <=? pa_end
           then kfree p ;;; freerange_loop f (p + PGSIZE) pa_end
           else kret tt
  end.
Definition freerange (pa_start pa_end : Z) : M pmem unit :=
  let p := PGROUNDUP pa_start in
  freerange_loop (S (Z.to_nat ((pa_end - p) / PGSIZE))) p pa_end.

Definition kinit : M pmem unit := freerange kend PHYSTOP.

(** ** Invariant *)

Definition page_ok (p : Z) : Prop := p mod 4096 = 0 /\ kend <= p < PHYSTOP.

(** The list of pages reached from [p] through the links of [m]. *)
Fixpoint chain (m : mem) (p : Z) (l : list Z) : Prop :=
  match l with
  | [] => p = 0
  | x :: l' => p = x /\ chain m (load64 m x) l'
  end.

Definition kmem_inv (s : pmem) (l : list Z) : Prop :=
  mem_ok (pm_mem s) /\ chain (pm_mem s) (freelist s) l /\ NoDup l /\ Forall page_ok l.

Hypothesis kend_pos : 0 < kend.

(** ** Lemmas *)

Definition in_page (p x : Z) : Prop := p <= x < p + 4096.

Lemma in_page_inj p q x :
  p mod 4096 = 0 -> q mod 4096 = 0 -> in_page p x -> in_page q x -> p = q.
Proof.
  unfold in_page; intros Hp Hq H1 H2.
  pose proof (Z.div_mod p 4096 ltac:(lia)); pose proof (Z.div_mod q 4096 ltac:(lia)).
  assert (p / 4096 = q / 4096); lia.
Qed.

Lemma page_word p : p mod 4096 = 0 -> 0 < p -> 4096 <= p.
Proof. intros H ?; pose proof (Z.div_mod p 4096 ltac:(lia)); lia. Qed.

Lemma chain_frame m m' p l :
  Forall page_ok l ->
  (forall q x, q ∈ l -> in_page q x -> m' x = m x) ->
  chain m p l -> chain m' p l.
Proof.
  revert p; induction l as [|q l IH]; intros p Hok Hx; [done|].
  apply Forall_cons in Hok as [Hq Hok]; cbn [chain]; intros [-> Hc]; split; [done|].
  rewrite (load64_ext m' m) by (intros x ?; apply (Hx q); [left|unfold in_page; lia]).
  apply IH; auto; intros q' x Hq'; apply Hx; by right.
Qed.

Lemma kfree_run p c s :
  page_ok p -> O_kmem ∉ held c ->
  kfree p c s =
  Ret tt c (PMem (store64 (memset (pm_mem s) p 1 PGSIZE) p (freelist s)) p).
Proof.
  intros [Ha Hr] Hh; unfold kfree, PGSIZE; rewrite Ha.
  replace (p <? kend) with false by lia; replace (PHYSTOP <=? p) with false by lia.
  cbn [negb orb Z.eqb]; by krun.
Qed.

Lemma kfree_spec p c s l :
  kmem_inv s l -> page_ok p -> p ∉ l -> O_kmem ∉ held c ->
  exists s', kfree p c s = Ret tt c s' /\ kmem_inv s' (p :: l) /\
    (forall x, ~ in_page p x -> pm_mem s' x = pm_mem s x).
Proof.
  intros (Hm & Hc & Hn & Hok) Hp Hpl Hh; eexists; split; [by apply kfree_run|].
  pose proof Hp as [Ha Hr]; unfold PGSIZE; cbn [pm_mem freelist].
  assert (Hout : forall x, ~ in_page p x ->
            store64 (memset (pm_mem s) p 1 4096) p (freelist s) x = pm_mem s x).
  { unfold in_page; intros x Hx; rewrite store64_out, memset_out by lia; done. }
  split; [|done]; split_and!; cbn [pm_mem freelist].
  - auto with cmem.
  - cbn [chain]; split; [done|].
    assert (0 <= freelist s < 2 ^ 64).
    { destruct l as [|q l]; cbn [chain] in Hc; [lia|].
      destruct Hc as [-> _]; apply Forall_cons in Hok as [[_ Hq] _].
      unfold PHYSTOP, KERNBASE in Hq; lia. }
    rewrite load64_store64_same by done.
    eapply chain_frame; [done| |exact Hc].
    intros q x Hq Hx; apply Hout; intros Hx'.
    rewrite Forall_forall in Hok; destruct (Hok q Hq) as [Hqa _].
    by rewrite (in_page_inj p q x Ha Hqa Hx' Hx) in Hpl.
  - by constructor.
  - by constructor.
Qed.

Lemma kalloc_spec_nil c s :
  kmem_inv s [] -> O_kmem ∉ held c -> kalloc c s = Ret 0 c s.
Proof.
  intros (_ & Hc & _) Hh; cbn [chain] in Hc.
  unfold kalloc; krun; rewrite Hc; cbn [Z.eqb]; by krun.
Qed.

Lemma kalloc_run p l c s :
  kmem_inv s (p :: l) -> O_kmem ∉ held c ->
  kalloc c s = Ret p c (PMem (memset (pm_mem s) p 5 PGSIZE) (load64 (pm_mem s) p)).
Proof.
  intros (_ & [Hf _] & _ & Hok) Hh.
  apply Forall_cons in Hok as [[_ Hr] _].
  unfold kalloc; krun; rewrite Hf; replace (p =? 0) with false by lia; by krun.
Qed.

Lemma kalloc_spec p l c s :
  kmem_inv s (p :: l) -> O_kmem ∉ held c ->
  exists s', kalloc c s = Ret p c s' /\ kmem_inv s' l /\ page_ok p /\ (p ∉ l) /\
    (forall x, ~ in_page p x -> pm_mem s' x = pm_mem s x).
Proof.
  intros Hinv Hh; pose proof Hinv as (Hm & [Hf Hc] & Hn & Hok).
  eexists; split; [by eapply kalloc_run|].
  apply NoDup_cons in Hn as [Hpl Hn]; apply Forall_cons in Hok as [Hp Hok].
  assert (Hout : forall x, ~ in_page p x -> memset (pm_mem s) p 5 PGSIZE x = pm_mem s x).
  { unfold in_page, PGSIZE; intros x Hx; apply memset_out; lia. }
  split_and!; auto; split_and!; cbn [pm_mem freelist]; auto with cmem.
  eapply chain_frame; [done| |exact Hc].
  intros q x Hq Hx; apply Hout; intros Hx'.
  rewrite Forall_forall in Hok; destruct (Hok q Hq) as [Hqa _], Hp as [Ha _].
  by rewrite (in_page_inj p q x Ha Hqa Hx' Hx) in Hpl.
Qed.

(** The pages [p], [p + 4096], ... ([n] of them), last one first. *)
Fixpoint pages_rev (n : nat) (p : Z) : list Z :=
  match n with
  | O => []
  | S n' => pages_rev n' (p + 4096) ++ [p]
  end.

Lemma elem_of_pages_rev n p q :
  q ∈ pages_rev n p <-> exists i, 0 <= i < Z.of_nat n /\ q = p + 4096 * i.
Proof.
  revert p; induction n as [|n IH]; intros p; cbn [pages_rev].
  - split; [intros Hq; inversion Hq|intros (i & Hi & _); lia].
  - rewrite elem_of_app, IH, list_elem_of_singleton; split.
    + intros [(i & Hi & ->)| ->]; [exists (i + 1)|exists 0]; lia.
    + intros (i & Hi & ->); destruct (decide (i = 0)); [right; lia|left].
      exists (i - 1); lia.
Qed.

Lemma freerange_loop_spec n fuel p pa_end l c s :
  (n < fuel)%nat -> Z.of_nat n = (pa_end - p) / 4096 ->
  p mod 4096 = 0 -> kend <= p -> pa_end <= PHYSTOP ->
  kmem_inv s l -> (forall q, q ∈ l -> q < p) -> O_kmem ∉ held c ->
  exists s', freerange_loop fuel p pa_end c s = Ret tt c s' /\
    kmem_inv s' (pages_rev n p ++ l).
Proof.
  revert fuel p l s; induction n as [|n IH]; intros fuel p l s Hf Hn Ha Hk Hend Hinv Hl Hh;
    (destruct fuel as [|fuel]; [lia|]); cbn [freerange_loop]; unfold PGSIZE;
    pose proof (Z.div_mod (pa_end - p) 4096 ltac:(lia));
    pose proof (Z.mod_pos_bound (pa_end - p) 4096 ltac:(lia)).
  - replace (p + 4096 <=? pa_end) with false by lia; eexists; split; [done|done].
  - replace (p + 4096 <=? pa_end) with true by lia.
    destruct (kfree_spec p c s l) as (s1 & Hrun & Hinv1 & _); auto.
    { split; [done|lia]. }
    { intros Hp; apply Hl in Hp; lia. }
    destruct (IH fuel (p + 4096) (p :: l) s1) as (s' & Hrun' & Hinv'); auto; try lia.
    { replace (pa_end - (p + 4096)) with (pa_end - p + (-1) * 4096) by lia.
      rewrite Z.div_add by lia; lia. }
    { rewrite <- (Z.mul_1_l 4096), Z.mod_add by lia; done. }
    { intros q [->|Hq]%elem_of_cons; [lia|apply Hl in Hq; lia]. }
    exists s'; split; [unfold kbind; by rewrite Hrun|].
    cbn [pages_rev]; by rewrite <- app_assoc.
Qed.

Lemma length_pages_rev n p : length (pages_rev n p) = n.
Proof. revert p; induction n as [|n IH]; intros p; cbn [pages_rev]; [done|]; rewrite length_app, IH; cbn; lia. Qed.

(** The first page from [end] on and the number of pages from there. *)
Definition first_page : Z := (kend + 4095) / 4096 * 4096.
Definition page_count : nat := Z.to_nat ((PHYSTOP - first_page) / 4096).

Lemma kinit_run c s :
  kmem_inv s [] -> kend < PHYSTOP -> O_kmem ∉ held c ->
  exists s', kinit c s = Ret tt c s' /\ kmem_inv s' (pages_rev page_count first_page).
Proof.
  intros Hinv Hend Hh; unfold kinit, freerange, PGSIZE.
  assert (HP : PHYSTOP = 2281701376) by reflexivity.
  rewrite PGROUNDUP_eq by lia; fold first_page page_count.
  pose proof (Z.div_mod (kend + 4095) 4096 ltac:(lia)).
  pose proof (Z.mod_pos_bound (kend + 4095) 4096 ltac:(lia)).
  assert (Hp0 : kend <= first_page < kend + 4096) by (unfold first_page; lia).
  assert (Ha : first_page mod 4096 = 0) by (apply Z.mod_mul; lia).
  assert (first_page <= PHYSTOP).
  { rewrite HP in *; unfold first_page; assert ((kend + 4095) / 4096 < 557057); [|lia].
    apply Z.div_lt_upper_bound; lia. }
  destruct (freerange_loop_spec page_count (S page_count) first_page PHYSTOP [] c s) as (s' & Hrun & Hinv'); auto;
    try lia; [|intros q Hq; inversion Hq|].
  - unfold page_count; rewrite Z2Nat.id; [done|apply Z.div_pos; lia].
  - exists s'; split; [done|]; by rewrite app_nil_r in Hinv'.
Qed.

(** ** Properties *)

(** [kalloc] pops the free list: a non-empty list yields its first page,
    filled with junk, and every byte of the other pages is unchanged; an
    empty list yields 0 and changes nothing. [kmem.lock] is released on both
    paths and the list invariant is kept. *)
Theorem kalloc_correct (c : kctx) (s : pmem) (l : list Z) :
  kmem_inv s l -> O_kmem ∉ held c ->
  match l with
  | [] => kalloc c s = Ret 0 c s
  | p :: l' => exists s', kalloc c s = Ret p c s' /\ kmem_inv s' l' /\
      (forall x, in_page p x -> pm_mem s' x = 5) /\
      (forall x, ~ in_page p x -> pm_mem s' x = pm_mem s x)
  end.
Proof.
  intros Hinv Hh; destruct l as [|p l]; [by apply kalloc_spec_nil|].
  destruct (kalloc_spec p l c s Hinv Hh) as (s' & Hrun & Hinv' & _ & _ & Hout).
  exists s'; split_and!; auto; intros x Hx.
  rewrite (kalloc_run p l) in Hrun by done; injection Hrun as <-; cbn [pm_mem].
  unfold in_page in Hx; unfold PGSIZE; by rewrite memset_in.
Qed.

(** [kfree] panics exactly on an address that is not a page of the
    managed range; otherwise it pushes the page on the free list, keeps the
    invariant, writes only that page, and a following [kalloc] returns the
    same page. *)
Theorem kfree_correct (p : Z) (c : kctx) (s : pmem) (l : list Z) :
  kmem_inv s l -> p ∉ l -> O_kmem ∉ held c ->
  (~ page_ok p -> kfree p c s = Panic "kfree") /\
  (page_ok p -> exists s1 s2, kfree p c s = Ret tt c s1 /\ kmem_inv s1 (p :: l) /\
     (forall x, ~ in_page p x -> pm_mem s1 x = pm_mem s x) /\
     kalloc c s1 = Ret p c s2 /\ kmem_inv s2 l).
Proof.
  intros Hinv Hp Hh; split.
  - intros Hbad; unfold kfree, PGSIZE; destruct (_ || _) eqn:E; [done|].
    exfalso; apply Hbad; split; lia.
  - intros Hok; destruct (kfree_spec p c s l) as (s1 & H1 & Hinv1 & Hout); auto.
    destruct (kalloc_spec p l c s1) as (s2 & H2 & Hinv2 & _); auto.
    by exists s1, s2.
Qed.

(** C40: [kinit] terminates and leaves every whole page between [end] and
    [PHYSTOP], and nothing else, on the free list, once each. *)
Theorem kinit_correct (c : kctx) (s : pmem) :
  kmem_inv s [] -> kend < PHYSTOP -> O_kmem ∉ held c ->
  exists s' l, kinit c s = Ret tt c s' /\ kmem_inv s' l /\
    forall p, p ∈ l <-> (p mod 4096 = 0 /\ kend <= p /\ p + 4096 <= PHYSTOP).
Proof.
  intros Hinv Hend Hh; destruct (kinit_run c s Hinv Hend Hh) as (s' & Hrun & Hinv').
  assert (HP : PHYSTOP = 2281701376) by reflexivity.
  exists s', (pages_rev page_count first_page); split_and!; auto; intros p.
  rewrite elem_of_pages_rev; unfold page_count.
  pose proof (Z.div_mod (kend + 4095) 4096 ltac:(lia)); pose proof (Z.mod_pos_bound (kend + 4095) 4096 ltac:(lia)).
  assert (Hp0 : kend <= first_page < kend + 4096) by (unfold first_page; lia).
  assert (Ha : first_page mod 4096 = 0) by (apply Z.mod_mul; lia); pose proof (Z.div_mod first_page 4096 ltac:(lia)).
  pose proof (Z.div_mod (PHYSTOP - first_page) 4096 ltac:(lia)).
  pose proof (Z.mod_pos_bound (PHYSTOP - first_page) 4096 ltac:(lia)).
  split.
  - intros (i & Hi & ->); split_and!; try lia.
    rewrite Z.mul_comm, Z.mod_add by lia; done.
  - intros (Hpa & Hpk & Hpe); pose proof (Z.div_mod p 4096 ltac:(lia)).
    exists (p / 4096 - first_page / 4096); lia.
Qed.
End kalloc.

(** ** Witnesses *)

(** A memory of zeroes whose last page is the only free one. *)
Definition demo_page : Z := PHYSTOP - 4096.
Definition demo_pmem : pmem := PMem (fun _ => 0) demo_page.

Lemma demo_pmem_inv : kmem_inv KERNBASE demo_pmem [demo_page].
Proof.
  split_and!; cbn [pm_mem freelist demo_pmem].
  - intros a; lia.
  - split; vm_compute; reflexivity.
  - repeat constructor; intros H; inversion H.
  - repeat constructor; vm_compute; done.
Qed.

Lemma kalloc_correct_witness :
  exists s', kalloc (Ctx [] []) demo_pmem = Ret demo_page (Ctx [] []) s' /\ kmem_inv KERNBASE s' [] /\
    (forall x, in_page demo_page x -> pm_mem s' x = 5) /\
    (forall x, ~ in_page demo_page x -> pm_mem s' x = pm_mem demo_pmem x).
Proof.
  apply (kalloc_correct KERNBASE ltac:(vm_compute; reflexivity) (Ctx [] []) demo_pmem [demo_page]).
  - apply demo_pmem_inv.
  - intros H; inversion H.
Defined.

Lemma kfree_correct_witness :
  (~ page_ok KERNBASE 12 -> kfree KERNBASE 12 (Ctx [] []) demo_pmem = Panic "kfree") /\
  (page_ok KERNBASE KERNBASE ->
     exists s1 s2, kfree KERNBASE KERNBASE (Ctx [] []) demo_pmem = Ret tt (Ctx [] []) s1 /\
       kmem_inv KERNBASE s1 [KERNBASE; demo_page] /\
       (forall x, ~ in_page KERNBASE x -> pm_mem s1 x = pm_mem demo_pmem x) /\
       kalloc (Ctx [] []) s1 = Ret KERNBASE (Ctx [] []) s2 /\ kmem_inv KERNBASE s2 [demo_page]).
Proof.
  assert (Hk : 0 < KERNBASE) by (vm_compute; reflexivity).
  assert (Hno : forall x : kobj, x ∉ []) by (intros x H; inversion H).
  assert (Hl : forall p, p <> demo_page -> p ∉ [demo_page])
    by (intros p Hp; by rewrite list_elem_of_singleton).
  split.
  - apply (kfree_correct KERNBASE Hk 12 (Ctx [] []) demo_pmem [demo_page] demo_pmem_inv);
      [apply Hl; vm_compute; congruence|auto].
  - apply (kfree_correct KERNBASE Hk KERNBASE (Ctx [] []) demo_pmem [demo_page] demo_pmem_inv);
      [apply Hl; vm_compute; congruence|auto].
Defined.

Lemma kinit_correct_witness :
  exists s' l, kinit (PHYSTOP - 10000) (Ctx [] []) (PMem (fun _ => 0) 0) = Ret tt (Ctx [] []) s' /\
    kmem_inv (PHYSTOP - 10000) s' l /\
    forall p, p ∈ l <-> (p mod 4096 = 0 /\ PHYSTOP - 10000 <= p /\ p + 4096 <= PHYSTOP).
Proof.
  apply (kinit_correct (PHYSTOP - 10000) ltac:(vm_compute; reflexivity)).
  - split_and!; cbn [pm_mem freelist]; [intros a; lia|reflexivity|constructor|constructor].
  - vm_compute; reflexivity.
  - intros H; inversion H.
Defined.
