(* ===== verification/Locks.v ===== *)
(** * kernel/spinlock.c and kernel/sleeplock.c

    Spin locks on several CPUs, step by step: interrupt nesting, the atomic
    swap of [acquire], the owner field.  The steps are shown to give mutual
    exclusion and to implement the per-CPU view ([Prelude.acquire],
    [Prelude.release]) that the other components use.  Sleep locks are built
    on that view. *)

From S2P Require Import Prelude.

(** ** Spin locks *)

Module Spin.

(** struct cpu (proc.h), without its process and saved context. *)
Record cpu : Type := Cpu {
  noff : Z;          (* depth of push_off() nesting *)
  intena : bool;     (* were interrupts enabled before push_off()? *)
  sie : bool         (* sstatus.SIE: are interrupts enabled now? *)
}.

(** struct spinlock *)
Record spinlock : Type := SpinLock {
  locked : Z;
  name : string;
  lcpu : option nat  (* the cpu holding the lock *)
}.

Definition initlock (nm : string) : spinlock := SpinLock 0 nm None.

(** [None] is the kernel's [panic]. *)
Definition push_off (c : cpu) : cpu :=
  let old := sie c in
  Cpu (noff c + 1) (if noff c =? 0 then old else intena c) false.

Definition pop_off (c : cpu) : option cpu :=
  if sie c then None
  else if noff c <? 1 then None
  else Some (Cpu (noff c - 1) (intena c)
               (if (noff c - 1 =? 0) && intena c then true else sie c)).

Definition holding (i : nat) (lk : spinlock) : bool :=
  truth (locked lk) && bool_decide (lcpu lk = Some i).

(** Where a CPU is inside [acquire] or [release]. *)
Inductive pc : Type :=
| Idle
| AcqSpin (o : kobj)   (* interrupts off, [holding] checked: about to swap *)
| AcqGot (o : kobj)    (* the swap returned 0: about to set lk->cpu *)
| RelClr (o : kobj)    (* lk->cpu cleared: about to clear lk->locked *)
| RelPop (o : kobj).   (* lk->locked cleared: about to pop_off *)

Record sys : Type := Sys {
  cpus : nat -> cpu;
  lks : kobj -> spinlock;
  pcs : nat -> pc;
  holds : nat -> list kobj   (* what each CPU has acquired and not released *)
}.

Definition upd {A B} `{EqDecision A} (f : A -> B) (k : A) (v : B) : A -> B :=
  fun x => if decide (x = k) then v else f x.

Definition set_locked (v : Z) (lk : spinlock) : spinlock := SpinLock v (name lk) (lcpu lk).
Definition set_lcpu (v : option nat) (lk : spinlock) : spinlock := SpinLock (locked lk) (name lk) v.

(** One atomic action of CPU [i] in [acquire(o)] or [release(o)]. *)
Inductive step (i : nat) : sys -> sys -> Prop :=
| acq_enter s o :
    (* push_off(); if(holding(lk)) panic("acquire"); *)
    pcs s i = Idle -> holding i (lks s o) = false ->
    step i s (Sys (upd (cpus s) i (push_off (cpus s i))) (lks s)
                  (upd (pcs s) i (AcqSpin o)) (holds s))
| acq_retry s o :
    (* the swap found lk->locked set: spin *)
    pcs s i = AcqSpin o -> truth (locked (lks s o)) = true ->
    step i s (Sys (cpus s) (upd (lks s) o (set_locked 1 (lks s o))) (pcs s) (holds s))
| acq_swap s o :
    (* __sync_lock_test_and_set returned 0 *)
    pcs s i = AcqSpin o -> truth (locked (lks s o)) = false ->
    step i s (Sys (cpus s) (upd (lks s) o (set_locked 1 (lks s o)))
                  (upd (pcs s) i (AcqGot o)) (holds s))
| acq_owner s o :
    (* lk->cpu = mycpu(); *)
    pcs s i = AcqGot o ->
    step i s (Sys (cpus s) (upd (lks s) o (set_lcpu (Some i) (lks s o)))
                  (upd (pcs s) i Idle) (upd (holds s) i (o :: holds s i)))
| rel_owner s o :
    (* if(!holding(lk)) panic("release"); lk->cpu = 0; *)
    pcs s i = Idle -> holding i (lks s o) = true ->
    step i s (Sys (cpus s) (upd (lks s) o (set_lcpu None (lks s o)))
                  (upd (pcs s) i (RelClr o)) (upd (holds s) i (drop_lock o (holds s i))))
| rel_unlock s o :
    (* __sync_lock_release(&lk->locked); *)
    pcs s i = RelClr o ->
    step i s (Sys (cpus s) (upd (lks s) o (set_locked 0 (lks s o)))
                  (upd (pcs s) i (RelPop o)) (holds s))
| rel_pop s o c' :
    (* pop_off(); *)
    pcs s i = RelPop o -> pop_off (cpus s i) = Some c' ->
    step i s (Sys (upd (cpus s) i c') (lks s) (upd (pcs s) i Idle) (holds s)).

(** All CPUs idle with interrupts enabled or not, no lock taken. *)
Definition init (s : sys) : Prop :=
  (forall i, noff (cpus s i) = 0 /\ pcs s i = Idle /\ holds s i = []) /\
  (forall o, locked (lks s o) = 0 /\ lcpu (lks s o) = None).

Inductive reachable : sys -> Prop :=
| reach_init s : init s -> reachable s
| reach_step i s s' : reachable s -> step i s s' -> reachable s'.

(** CPU [i] owns [o] from its successful swap until it clears [locked]. *)
Definition owns (i : nat) (o : kobj) (s : sys) : Prop :=
  o ∈ holds s i \/ pcs s i = AcqGot o \/ pcs s i = RelClr o.

(** CPU [i] is between push_off and pop_off of a call in progress. *)
Definition busy (p : pc) : Z := match p with Idle => 0 | _ => 1 end.

Record inv (s : sys) : Prop := Inv {
  inv_excl : forall i j o, owns i o s -> owns j o s -> i = j;
  inv_lock : forall o, locked (lks s o) = 0 \/ locked (lks s o) = 1;
  inv_free : forall o i, locked (lks s o) = 0 -> ~ owns i o s;
  inv_cpu : forall o i, lcpu (lks s o) = Some i <-> o ∈ holds s i;
  inv_once : forall i o, o ∈ holds s i -> pcs s i <> AcqGot o /\ pcs s i <> RelClr o;
  inv_nodup : forall i, NoDup (holds s i);
  inv_noff : forall i, noff (cpus s i) = Z.of_nat (length (holds s i)) + busy (pcs s i);
  inv_intr : forall i, 0 < noff (cpus s i) -> sie (cpus s i) = false
}.

Lemma upd_eq {A B} `{EqDecision A} (f : A -> B) k v : upd f k v k = v.
Proof. unfold upd; by rewrite decide_True. Qed.

Lemma upd_ne {A B} `{EqDecision A} (f : A -> B) k v x : x <> k -> upd f k v x = f x.
Proof. intros; unfold upd; by rewrite decide_False. Qed.

Lemma elem_of_drop_lock o x l : NoDup l -> x ∈ drop_lock o l <-> x ∈ l /\ x <> o.
Proof.
  induction 1 as [|y l Hy Hl IH]; simpl; [set_solver|].
  case_decide; subst; [set_solver|]; rewrite !elem_of_cons, IH; naive_solver.
Qed.

Lemma NoDup_drop_lock o l : NoDup l -> NoDup (drop_lock o l).
Proof.
  induction 1 as [|y l Hy Hl IH]; simpl; [constructor|].
  case_decide; [done|]; constructor; [|done].
  by rewrite elem_of_drop_lock by done; naive_solver.
Qed.

Lemma length_drop_lock o l : o ∈ l -> length l = S (length (drop_lock o l)).
Proof.
  induction l as [|y l IH]; intros Hin; [inversion Hin|]; simpl.
  case_decide; [done|]; simpl; f_equal; apply IH.
  by apply elem_of_cons in Hin as [->|].
Qed.

Lemma holding_true i lk : holding i lk = true <-> truth (locked lk) = true /\ lcpu lk = Some i.
Proof. unfold holding; by rewrite andb_true_iff, bool_decide_eq_true. Qed.

Lemma truth_false x : truth x = false <-> x = 0.
Proof. unfold truth; lia. Qed.

Lemma truth_true x : truth x = true <-> x <> 0.
Proof. unfold truth; lia. Qed.

(** What [owns] becomes when only CPU [i]'s position changes. *)
Lemma owns_pc i j o cs ls s p hs :
  owns j o (Sys cs ls (upd (pcs s) i p) hs) <->
  (o ∈ hs j \/ (if decide (j = i) then p = AcqGot o \/ p = RelClr o
               else pcs s j = AcqGot o \/ pcs s j = RelClr o)).
Proof. unfold owns, upd; cbn [holds pcs]; case_decide; naive_solver. Qed.

Lemma inv_init s : init s -> inv s.
Proof.
  intros [Hc Hl].
  assert (Hno : forall i o, ~ owns i o s).
  { intros i o; unfold owns; destruct (Hc i) as (_ & -> & ->); set_solver. }
  split; intros.
  - by edestruct Hno.
  - left; apply Hl.
  - apply Hno.
  - destruct (Hl o) as [_ ->], (Hc i) as (_ & _ & ->); set_solver.
  - destruct (Hc i) as (_ & -> & _); done.
  - destruct (Hc i) as (_ & _ & ->); constructor.
  - destruct (Hc i) as (-> & -> & ->); done.
  - destruct (Hc i) as (Hn & _); lia.
Qed.

Ltac inv_upd :=
  unfold owns, upd, set_locked, set_lcpu in *; cbn [cpus lks pcs holds locked lcpu] in *;
  repeat case_decide; simplify_eq.

Lemma inv_step_enter i s o :
  inv s -> pcs s i = Idle -> holding i (lks s o) = false ->
  inv (Sys (upd (cpus s) i (push_off (cpus s i))) (lks s)
           (upd (pcs s) i (AcqSpin o)) (holds s)).
Proof.
  intros [He Hl Hf Hc Ho Hn Hk Hi] Hpc Hh; split.
  - intros j k o'; specialize (He j k o'); inv_upd; naive_solver.
  - done.
  - intros o' j Hz; specialize (Hf o' j Hz); inv_upd; naive_solver.
  - done.
  - intros j o' Hin; specialize (Ho j o' Hin); inv_upd; naive_solver.
  - done.
  - intros j; specialize (Hk j); inv_upd; [|done]; rewrite Hpc in Hk; simpl in *; lia.
  - intros j; specialize (Hi j); inv_upd; [done|auto].
Qed.

Lemma inv_step_swap i s o :
  inv s -> pcs s i = AcqSpin o -> truth (locked (lks s o)) = false ->
  inv (Sys (cpus s) (upd (lks s) o (set_locked 1 (lks s o)))
           (upd (pcs s) i (AcqGot o)) (holds s)).
Proof.
  intros [He Hl Hf Hc Ho Hn Hk Hi] Hpc Ht%truth_false.
  assert (Hno : forall j, ~ owns j o s) by (intros; by apply Hf).
  split.
  - intros j k o'; pose proof (He j k o'); pose proof (Hno j); pose proof (Hno k).
    inv_upd; naive_solver.
  - intros o'; specialize (Hl o'); inv_upd; auto.
  - intros o' j Hz; specialize (Hf o' j); inv_upd; naive_solver.
  - intros o' j; specialize (Hc o' j); inv_upd; naive_solver.
  - intros j o' Hin; specialize (Ho j o' Hin); pose proof (Hno j); inv_upd; naive_solver.
  - done.
  - intros j; specialize (Hk j); inv_upd; [|done]; rewrite Hpc in Hk; simpl in *; lia.
  - done.
Qed.

Lemma inv_step_retry i s o :
  inv s -> pcs s i = AcqSpin o -> truth (locked (lks s o)) = true ->
  inv (Sys (cpus s) (upd (lks s) o (set_locked 1 (lks s o))) (pcs s) (holds s)).
Proof.
  intros [He Hl Hf Hc Ho Hn Hk Hi] Hpc Ht%truth_true; split; auto.
  - intros o'; specialize (Hl o'); inv_upd; auto.
  - intros o' j Hz; specialize (Hf o' j); inv_upd; naive_solver.
  - intros o' j; specialize (Hc o' j); inv_upd; naive_solver.
Qed.

Lemma inv_step_owner i s o :
  inv s -> pcs s i = AcqGot o ->
  inv (Sys (cpus s) (upd (lks s) o (set_lcpu (Some i) (lks s o)))
           (upd (pcs s) i Idle) (upd (holds s) i (o :: holds s i))).
Proof.
  intros [He Hl Hf Hc Ho Hn Hk Hi] Hpc.
  assert (Hme : owns i o s) by (unfold owns; auto).
  assert (Hni : forall j, o ∉ holds s j).
  { intros j Hin; assert (j = i) as -> by (apply (He j i o); unfold owns; auto).
    by destruct (Ho i o Hin). }
  split.
  - intros j k o'; pose proof (He j k o'); pose proof (He i k o'); pose proof (He j i o').
    inv_upd; rewrite ?elem_of_cons; naive_solver.
  - intros o'; specialize (Hl o'); inv_upd; auto.
  - intros o' j Hz; pose proof (Hf o' j); pose proof (Hf o i).
    inv_upd; rewrite ?elem_of_cons; naive_solver.
  - intros o' j; specialize (Hc o' j); specialize (Hni j); inv_upd; rewrite ?elem_of_cons;
      naive_solver.
  - intros j o' Hin; pose proof (Ho j o'); pose proof (He j i o).
    inv_upd; rewrite ?elem_of_cons in *; naive_solver.
  - intros j; specialize (Hn j); specialize (Hni j); inv_upd; [constructor|]; done.
  - intros j; specialize (Hk j); inv_upd; [|done]; rewrite Hpc in Hk; simpl in *; lia.
  - done.
Qed.

Lemma inv_step_rel i s o :
  inv s -> pcs s i = Idle -> holding i (lks s o) = true ->
  inv (Sys (cpus s) (upd (lks s) o (set_lcpu None (lks s o)))
           (upd (pcs s) i (RelClr o)) (upd (holds s) i (drop_lock o (holds s i)))).
Proof.
  intros [He Hl Hf Hc Ho Hn Hk Hi] Hpc [Ht Hcpu]%holding_true.
  assert (Hin : o ∈ holds s i) by (by apply Hc).
  assert (Hd : forall x, x ∈ drop_lock o (holds s i) <-> x ∈ holds s i /\ x <> o)
    by (intros x; by apply elem_of_drop_lock).
  assert (Hni : forall j, o ∈ holds s j -> j = i)
    by (intros j Hj; apply (He j i o); unfold owns; auto).
  split.
  - intros j k o'; pose proof (He j k o'); inv_upd; rewrite ?Hd; naive_solver.
  - intros o'; specialize (Hl o'); inv_upd; auto.
  - intros o' j Hz; pose proof (Hf o' j); inv_upd; rewrite ?Hd; naive_solver.
  - intros o' j; specialize (Hc o' j); specialize (Hni j); inv_upd; rewrite ?Hd; naive_solver.
  - intros j o' Hj; pose proof (Ho j o'); inv_upd; rewrite ?Hd in *; naive_solver.
  - intros j; specialize (Hn j); inv_upd; [by apply NoDup_drop_lock|done].
  - intros j; specialize (Hk j); inv_upd; [|done].
    rewrite Hpc in Hk; rewrite (length_drop_lock o) in Hk by done; simpl in *; lia.
  - done.
Qed.

Lemma inv_step_unlock i s o :
  inv s -> pcs s i = RelClr o ->
  inv (Sys (cpus s) (upd (lks s) o (set_locked 0 (lks s o)))
           (upd (pcs s) i (RelPop o)) (holds s)).
Proof.
  intros [He Hl Hf Hc Ho Hn Hk Hi] Hpc.
  assert (Hme : forall j, owns j o s -> j = i) by (intros j Hj; apply (He j i o); unfold owns; auto).
  split.
  - intros j k o'; pose proof (He j k o'); inv_upd; naive_solver.
  - intros o'; specialize (Hl o'); inv_upd; auto.
  - intros o' j Hz; pose proof (Hf o' j); specialize (Hme j); specialize (Ho j o').
    inv_upd; naive_solver.
  - intros o' j; specialize (Hc o' j); inv_upd; naive_solver.
  - intros j o' Hin; specialize (Ho j o' Hin); inv_upd; naive_solver.
  - done.
  - intros j; specialize (Hk j); inv_upd; [|done]; rewrite Hpc in Hk; simpl in *; lia.
  - done.
Qed.

Lemma inv_step_pop i s o c' :
  inv s -> pcs s i = RelPop o -> pop_off (cpus s i) = Some c' ->
  inv (Sys (upd (cpus s) i c') (lks s) (upd (pcs s) i Idle) (holds s)).
Proof.
  intros [He Hl Hf Hc Ho Hn Hk Hi] Hpc Hpop.
  unfold pop_off in Hpop; destruct (sie (cpus s i)) eqn:Es; [done|].
  destruct (Z.ltb_spec (noff (cpus s i)) 1); [done|]; injection Hpop as <-.
  split.
  - intros j k o'; specialize (He j k o'); inv_upd; naive_solver.
  - done.
  - intros o' j Hz; specialize (Hf o' j Hz); inv_upd; naive_solver.
  - done.
  - intros j o' Hin; specialize (Ho j o' Hin); inv_upd; naive_solver.
  - done.
  - intros j; specialize (Hk j); inv_upd; [|done]; rewrite Hpc in Hk; simpl in *; lia.
  - intros j; specialize (Hi j); inv_upd; [|done]; cbn [noff sie] in *; intros.
    destruct (Z.eqb_spec (noff (cpus s i) - 1) 0); [lia|done].
Qed.

Lemma inv_reachable s : reachable s -> inv s.
Proof.
  induction 1 as [s Hi|i s s' _ IH Hs]; [by apply inv_init|].
  destruct Hs; eauto using inv_step_enter, inv_step_swap, inv_step_retry, inv_step_owner,
    inv_step_rel, inv_step_unlock, inv_step_pop.
Qed.

Lemma inv_holding s i o : inv s -> holding i (lks s o) = true <-> o ∈ holds s i.
Proof.
  intros Hv; rewrite holding_true, truth_true, (inv_cpu _ Hv).
  split; [tauto|]; intros Hin; split; [|done]; intros Hz.
  by apply (inv_free _ Hv o i Hz); left.
Qed.

(** An uncontended [acquire(o)] of CPU [i], from entry to return. *)
Lemma acquire_steps s i o :
  inv s -> pcs s i = Idle -> o ∉ holds s i -> locked (lks s o) = 0 ->
  exists s', rtc (step i) s s' /\ pcs s' i = Idle /\ holds s' i = o :: holds s i /\
    locked (lks s' o) = 1.
Proof.
  intros Hv Hpc Hni Hz.
  assert (Hh : holding i (lks s o) = false).
  { destruct (holding i (lks s o)) eqn:E; [|done]; by apply inv_holding in E. }
  eexists; split.
  - eapply rtc_l; [by eapply acq_enter|].
    eapply rtc_l; [eapply (acq_swap _ _ o); cbn; [by rewrite upd_eq|by rewrite Hz]|].
    eapply rtc_l; [eapply (acq_owner _ _ o); cbn; by rewrite upd_eq|apply rtc_refl].
  - cbn; by rewrite !upd_eq.
Qed.

(** [release(o)] of CPU [i], from entry to return. *)
Lemma release_steps s i o :
  inv s -> pcs s i = Idle -> o ∈ holds s i ->
  exists s', rtc (step i) s s' /\ pcs s' i = Idle /\
    holds s' i = drop_lock o (holds s i) /\ locked (lks s' o) = 0.
Proof.
  intros Hv Hpc Hin.
  assert (Hh : holding i (lks s o) = true) by (by apply inv_holding).
  assert (Hn : 1 <= noff (cpus s i)).
  { rewrite (inv_noff _ Hv), (length_drop_lock o) by done; rewrite Hpc; simpl; lia. }
  eexists; split.
  - eapply rtc_l; [by apply (rel_owner _ _ o)|].
    eapply rtc_l; [apply (rel_unlock _ _ o); cbn; by rewrite upd_eq|].
    eapply rtc_l; [eapply (rel_pop _ _ o); cbn; [by rewrite upd_eq|]|apply rtc_refl].
    unfold pop_off; rewrite (inv_intr _ Hv) by lia.
    by replace (noff (cpus s i) <? 1) with false by lia.
  - cbn; by rewrite !upd_eq.
Qed.

Fixpoint pushes (n : nat) (c : cpu) : cpu :=
  match n with O => c | S n' => pushes n' (push_off c) end.
Fixpoint pops (n : nat) (c : cpu) : option cpu :=
  match n with
  | O => Some c
  | S n' => match pop_off c with Some c' => pops n' c' | None => None end
  end.

Lemma pushes_S n c : pushes (S n) c = push_off (pushes n c).
Proof. revert c; induction n; intros; simpl in *; auto. Qed.

Lemma pushes_eq n c :
  (0 < n)%nat -> 0 <= noff c ->
  pushes n c = Cpu (noff c + Z.of_nat n) (if noff c =? 0 then sie c else intena c) false.
Proof.
  intros Hn Hc; induction n as [|[|n] IH]; [lia|done|].
  rewrite pushes_S, IH by lia; unfold push_off; cbn [noff intena sie].
  replace (noff c + Z.of_nat (S n) =? 0) with false by lia; f_equal; lia.
Qed.

(** ** Properties *)

(** C4: mutual exclusion. On any number of CPUs, in every interleaving of the
    atomic actions of [acquire] and [release], at most one CPU owns a lock
    (from its successful swap to the store that clears [locked]), and a CPU
    that holds a lock runs with interrupts disabled. *)
Theorem spin_mutual_exclusion (s : sys) (i j : nat) (o : kobj) :
  reachable s -> owns i o s -> owns j o s ->
  i = j /\ (o ∈ holds s i -> sie (cpus s i) = false).
Proof.
  intros Hr Hi Hj; pose proof (inv_reachable s Hr) as Hv; split.
  - by apply (inv_excl _ Hv i j o).
  - intros Hin; apply (inv_intr _ Hv); rewrite (inv_noff _ Hv), (length_drop_lock o) by done.
    destruct (pcs s i); simpl; lia.
Qed.

(** C32: the per-CPU view used by the rest of the kernel. For a CPU that is not
    inside a lock routine, [holding] answers membership in the list of held
    locks and [noff] is its length; [acquire] of a held lock and [release] of
    one that is not held are the panics of the source; otherwise the step
    sequence of an uncontended [acquire], and that of [release], reach exactly
    the list that [Prelude.acquire] and [Prelude.release] compute. *)
Theorem spin_refines_view (s : sys) (i : nat) (o : kobj) (c : kctx) :
  reachable s -> pcs s i = Idle -> held c = holds s i ->
  (holding i (lks s o) = true <-> o ∈ held c) /\
  noff (cpus s i) = Z.of_nat (length (held c)) /\
  (if decide (o ∈ held c)
   then acquire o c tt = Panic "acquire" /\
        exists s' c', rtc (step i) s s' /\ pcs s' i = Idle /\ locked (lks s' o) = 0 /\
          release o c tt = Ret tt c' tt /\ held c' = holds s' i
   else @release unit o c tt = Panic "release" /\
        (locked (lks s o) = 0 ->
         exists s' c', rtc (step i) s s' /\ pcs s' i = Idle /\ locked (lks s' o) = 1 /\
           acquire o c tt = Ret tt c' tt /\ held c' = holds s' i)).
Proof.
  intros Hr Hpc Hc; pose proof (inv_reachable s Hr) as Hv; rewrite Hc.
  split_and!; [by apply inv_holding|rewrite (inv_noff _ Hv), Hpc; simpl; lia|].
  unfold acquire, release; rewrite Hc; case_decide as Hin.
  - split; [done|]; destruct (release_steps s i o Hv Hpc Hin) as (s' & Hst & Hp & Hh & Hl).
    exists s', (Ctx (drop_lock o (holds s i)) (woken c)); split_and!; auto.
  - split; [done|]; intros Hz.
    destruct (acquire_steps s i o Hv Hpc Hin Hz) as (s' & Hst & Hp & Hh & Hl).
    exists s', (push_lock o c); split_and!; auto; cbn; by rewrite Hc, Hh.
Qed.

(** [push_off] and [pop_off] are matched: [n] of one after [n] of the
    other never panic and restore the nesting depth and the interrupt enable
    flag the CPU started with, whether it was on or off. *)
Theorem push_pop_matched (n : nat) (c : cpu) :
  0 <= noff c -> (0 < noff c -> sie c = false) ->
  exists c', pops n (pushes n c) = Some c' /\ noff c' = noff c /\ sie c' = sie c.
Proof.
  intros Hc Hi; induction n as [|n IH]; [by exists c|].
  rewrite pushes_eq by lia; cbn [pops]; unfold pop_off; cbn [sie noff intena].
  replace (noff c + Z.of_nat (S n) <? 1) with false by lia.
  destruct n as [|n].
  - cbn [pops]; eexists; split_and!; [done|cbn; lia|cbn [sie]].
    destruct (Z.eqb_spec (noff c) 0) as [E|E].
    + rewrite E; simpl; by destruct (sie c).
    + replace (noff c + Z.of_nat 1 - 1 =? 0) with false by lia; rewrite Hi by lia; done.
  - rewrite pushes_eq in IH by lia; destruct IH as (c' & Hp & Hn & Hs).
    exists c'; split_and!; auto; rewrite <- Hp; f_equal.
    replace (noff c + Z.of_nat (S (S n)) - 1) with (noff c + Z.of_nat (S n)) by lia.
    by replace (noff c + Z.of_nat (S n) =? 0) with false by lia.
Qed.

(** ** Witnesses *)

Definition boot : sys :=
  Sys (fun _ => Cpu 0 false true) (fun _ => initlock "lock") (fun _ => Idle) (fun _ => []).

Lemma boot_reachable : reachable boot.
Proof. apply reach_init; by repeat split. Qed.

(** CPU 0 has taken [kmem.lock] and returned from [acquire]. *)
Lemma boot_acquired :
  exists s, reachable s /\ pcs s 0%nat = Idle /\ holds s 0%nat = [O_kmem].
Proof.
  eexists; split.
  - eapply (reach_step 0).
    + eapply (reach_step 0).
      * eapply (reach_step 0); [apply boot_reachable|].
        by apply (acq_enter 0 boot O_kmem).
      * by apply (acq_swap 0 _ O_kmem).
    + by apply (acq_owner 0 _ O_kmem).
  - by vm_compute.
Qed.

Lemma spin_mutual_exclusion_witness :
  exists s, owns 0 O_kmem s /\ (0 = 0)%nat /\ (O_kmem ∈ holds s 0 -> sie (cpus s 0%nat) = false).
Proof.
  destruct boot_acquired as (s & Hr & Hp & Hh); exists s.
  assert (Ho : owns 0 O_kmem s) by (left; rewrite Hh; left).
  split; [done|]; exact (spin_mutual_exclusion s 0 0 O_kmem Hr Ho Ho).
Defined.

Lemma spin_refines_view_witness :
  (holding 0 (lks boot O_kmem) = true <-> O_kmem ∈ []) /\
  noff (cpus boot 0%nat) = 0 /\
  (@release unit O_kmem (Ctx [] []) tt = Panic "release" /\
   (locked (lks boot O_kmem) = 0 ->
    exists s' c', rtc (step 0) boot s' /\ pcs s' 0%nat = Idle /\ locked (lks s' O_kmem) = 1 /\
      acquire O_kmem (Ctx [] []) tt = Ret tt c' tt /\ held c' = holds s' 0%nat)).
Proof.
  exact (spin_refines_view boot 0 O_kmem (Ctx [] []) boot_reachable eq_refl eq_refl).
Defined.

Lemma push_pop_matched_witness :
  exists c', pops 3 (pushes 3 (Cpu 0 false true)) = Some c' /\ noff c' = 0 /\ sie c' = true.
Proof.
  apply (push_pop_matched 3 (Cpu 0 false true)); cbn; [lia|lia].
Defined.
End Spin.

(** ** Sleep locks *)

Module SleepLock.

(** struct sleeplock; its spin lock [lk] is the object that names it. *)
Record sleeplock : Type := SL {
  locked : Z;
  pid : Z       (* process holding the lock *)
}.

Definition initsleeplock : sleeplock := SL 0 0.

Section ops.
Context {St : Type}.
Variables (l : lens St sleeplock) (o : kobj) (mypid : Z).

(** [while (lk->locked) sleep(lk, &lk->lk);]: the sleep ends the run, and the
    process tests again when it is woken up. *)
Definition acquiresleep_body : M St unit :=
  let* s := kget in
  if truth (locked (lget l s)) then sleep o o
  else kmod (lset l (SL 1 mypid)) ;;; release o.
Definition acquiresleep : M St unit := acquire o ;;; acquiresleep_body.

Definition releasesleep : M St unit :=
  acquire o ;;;
  kmod (lset l (SL 0 0)) ;;;
  wakeup o ;;;
  release o.

Definition holdingsleep : M St bool :=
  acquire o ;;;
  let* s := kget in
  let r := truth (locked (lget l s)) && (pid (lget l s) =? mypid) in
  release o ;;;
  kret r.

Lemma acquiresleep_free c s :
  o ∉ held c -> locked (lget l s) = 0 -> acquiresleep c s = Ret tt c (lset l (SL 1 mypid) s).
Proof.
  intros Ho Hl; unfold acquiresleep, acquiresleep_body; krun; rewrite Hl; change (truth 0) with false; by krun.
Qed.

Lemma acquiresleep_taken c s :
  o ∉ held c -> locked (lget l s) <> 0 ->
  acquiresleep c s =
  if decide (held c = []) then Sleep o (push_lock o c) s else Panic "sched locks".
Proof.
  intros Ho Hl; unfold acquiresleep, acquiresleep_body; krun.
  replace (truth _) with true by (unfold truth; lia).
  unfold sleep; cbn [held push_lock]; rewrite decide_True by left.
  repeat case_decide; congruence.
Qed.

Lemma releasesleep_run c s :
  o ∉ held c -> releasesleep c s = Ret tt (add_woken o c) (lset l (SL 0 0) s).
Proof. intros Ho; unfold releasesleep; by krun. Qed.

Lemma holdingsleep_run c s :
  o ∉ held c ->
  holdingsleep c s = Ret (truth (locked (lget l s)) && (pid (lget l s) =? mypid)) c s.
Proof. intros Ho; unfold holdingsleep; by krun. Qed.
End ops.

(** Processes that use one sleep lock: [owners] are those that have returned
    from [acquiresleep] and not yet called [releasesleep]. *)
Definition here : lens sleeplock sleeplock := Lens (fun s => s) (fun a _ => a).

Inductive sl_step (o : kobj) : sleeplock * list Z -> sleeplock * list Z -> Prop :=
| sl_acquire lk ow p c c' lk' :
    p ∉ ow -> acquiresleep here o p c lk = Ret tt c' lk' -> sl_step o (lk, ow) (lk', p :: ow)
| sl_block lk ow p c ch c' lk' :
    p ∉ ow -> acquiresleep here o p c lk = Sleep ch c' lk' -> sl_step o (lk, ow) (lk', ow)
| sl_release lk ow1 ow2 p c c' lk' :
    releasesleep here o c lk = Ret tt c' lk' ->
    sl_step o (lk, ow1 ++ p :: ow2) (lk', ow1 ++ ow2).

Definition sl_inv (x : sleeplock * list Z) : Prop :=
  match x.2 with
  | [] => locked x.1 = 0
  | [p] => locked x.1 = 1 /\ pid x.1 = p
  | _ => False
  end.

Lemma acquiresleep_outcome o p c lk :
  acquiresleep here o p c lk = Panic "acquire" \/
  (locked lk = 0 /\ acquiresleep here o p c lk = Ret tt c (SL 1 p)) \/
  (locked lk <> 0 /\ (acquiresleep here o p c lk = Sleep o (push_lock o c) lk \/
                      acquiresleep here o p c lk = Panic "sched locks")).
Proof.
  destruct (decide (o ∈ held c)) as [Hin|Hin].
  - left; unfold acquiresleep, acquire, kbind; by rewrite decide_True.
  - right; destruct (decide (locked lk = 0)); [left|right]; split; auto.
    + by rewrite acquiresleep_free.
    + rewrite acquiresleep_taken by done; case_decide; auto.
Qed.

Lemma sl_inv_step o x y : sl_inv x -> sl_step o x y -> sl_inv y.
Proof.
  intros Hi Hs; destruct Hs as [lk ow p c c' lk' Hp Hr|lk ow p c ch c' lk' Hp Hr|lk ow1 ow2 p c c' lk' Hr];
    unfold sl_inv in *; cbn [fst snd] in *.
  - destruct (acquiresleep_outcome o p c lk) as [E|[[Hz E]|[Hz [E|E]]]];
      rewrite E in Hr; simplify_eq.
    destruct ow as [|q [|]]; simpl; naive_solver lia.
  - destruct (acquiresleep_outcome o p c lk) as [E|[[Hz E]|[Hz [E|E]]]];
      rewrite E in Hr; simplify_eq; done.
  - destruct (decide (o ∈ held c)) as [Hin|Hin].
    { unfold releasesleep, acquire, kbind in Hr; by rewrite decide_True in Hr. }
    rewrite releasesleep_run in Hr by done; simplify_eq; cbn.
    destruct ow1 as [|q ow1]; simpl in *; [by destruct ow2|].
    destruct (ow1 ++ p :: ow2) eqn:E; [by destruct ow1|done].
Qed.

(** A sleep lock is owned by at most one process at a time, in every
    interleaving of calls: the lock is free exactly when nobody is inside, and
    its [pid] field, which [holdingsleep] reads, is the owner's. *)
Theorem sleeplock_exclusion (o : kobj) (lk : sleeplock) (ow : list Z) :
  rtc (sl_step o) (initsleeplock, []) (lk, ow) ->
  (ow = [] /\ locked lk = 0) \/ (exists p, ow = [p] /\ locked lk = 1 /\ pid lk = p).
Proof.
  intros Hr; assert (Hi : sl_inv (lk, ow)).
  { remember (initsleeplock, []) as x eqn:Ex; remember (lk, ow) as y eqn:Ey.
    assert (Hx : sl_inv x) by (by rewrite Ex).
    clear Ex Ey; induction Hr as [|x z y Hs _ IH]; [done|]; eauto using sl_inv_step. }
  unfold sl_inv in Hi; cbn in Hi; destruct ow as [|p [|]]; [by left|right|done].
  by exists p.
Qed.

Lemma sleeplock_exclusion_witness :
  ([7] = [] /\ locked (SL 1 7) = 0) \/
  (exists p, [7] = [p] /\ locked (SL 1 7) = 1 /\ pid (SL 1 7) = p).
Proof.
  apply (sleeplock_exclusion (O_buflk 0)).
  eapply rtc_l; [|apply rtc_refl].
  apply (sl_acquire _ _ [] 7 (Ctx [] []) (Ctx [] [])); [by intros H; inversion H|reflexivity].
Defined.
End SleepLock.
