(* ===== verification/Vm.v ===== *)
(** * kernel/vm.c

    Page tables of the Sv39 scheme in physical memory, user address spaces,
    and the copies between user and kernel memory. *)

From S2P Require Import Prelude CMem KString Riscv Kalloc.

(** A store of the kernel through its direct map. *)
Definition poke (a v : Z) : M pmem unit := kmod (with_mem (fun m => store64 m a v)).
Definition peek (a : Z) : M pmem Z := fun c s => Ret (load64 (pm_mem s) a) c s.
Definition zero_page (p : Z) : M pmem unit :=
  kmod (with_mem (fun m => memset m p 0 PGSIZE)).

Section vm.
Variable kend : Z.   (* [end], from kernel.ld *)

(** ** Walking a page table *)

(** The loop of [walk], with [level] counting down to 0. *)
Fixpoint walk_loop (level : nat) (pagetable va : Z) (alloc : bool) : M pmem Z :=
  match level with
  | O => kret (pagetable + 8 * PX 0 va)
  | S l =>
      let pte := pagetable + 8 * PX (Z.of_nat (S l)) va in
      let* v := peek pte in
      if has v PTE_V then walk_loop l (PTE2PA v) va alloc
      else if negb alloc then kret 0
      else
        let* pagetable := kalloc in
        if pagetable =? 0 then kret 0
        else
          zero_page pagetable ;;;
          poke pte (Z.lor (PA2PTE pagetable) PTE_V) ;;;
          walk_loop l pagetable va alloc
  end.
Definition walk (pagetable va : Z) (alloc : bool) : M pmem Z :=
  if MAXVA <=? va then panic "walk" else walk_loop 2 pagetable va alloc.

Definition walkaddr (pagetable va : Z) : M pmem Z :=
  if MAXVA <=? va then kret 0
  else
    let* pte := walk pagetable va false in
    if pte =? 0 then kret 0
    else
      let* v := peek pte in
      if negb (has v PTE_V) then kret 0
      else if negb (has v PTE_U) then kret 0
      else kret (PTE2PA v).

(** ** Mapping and unmapping *)

(** One turn of the [for(;;)] of [mappages] per unit of fuel. *)
Fixpoint mappages_loop (fuel : nat) (pagetable a last pa perm : Z) : M pmem Z :=
  match fuel with
  | O => stuck
  | S f =>
      let* pte := walk pagetable a true in
      if pte =? 0 then kret (-1)
      else
        let* v := peek pte in
        if has v PTE_V then panic "mappages: remap"
        else
          poke pte (Z.lor (Z.lor (PA2PTE pa) perm) PTE_V) ;;;
          if a =? last then kret 0
          else mappages_loop f pagetable (u64 (a + PGSIZE)) last (u64 (pa + PGSIZE)) perm
  end.
Definition mappages (pagetable va size pa perm : Z) : M pmem Z :=
  if negb (va mod PGSIZE =? 0) then panic "mappages: va not aligned"
  else if negb (size mod PGSIZE =? 0) then panic "mappages: size not aligned"
  else if size =? 0 then panic "mappages: size"
  else mappages_loop (Z.to_nat (size / PGSIZE)) pagetable va (u64 (va + size - PGSIZE)) pa perm.

Definition kvmmap (kpgtbl va pa sz perm : Z) : M pmem unit :=
  let* r := mappages kpgtbl va sz pa perm in
  if r =? 0 then kret tt else panic "kvmmap".

(** [for(a = va; a < va + npages*PGSIZE; a += PGSIZE)] *)
Fixpoint uvmunmap_loop (fuel : nat) (pagetable a lim : Z) (do_free : bool) : M pmem unit :=
  match fuel with
  | O => stuck
  | S f =>
      if a <? lim then
        let* pte := walk pagetable a false in
        if pte =? 0 then panic "uvmunmap: walk"
        else
          let* v := peek pte in
          if negb (has v PTE_V) then panic "uvmunmap: not mapped"
          else if PTE_FLAGS v =? PTE_V then panic "uvmunmap: not a leaf"
          else
            (if do_free then kfree kend (PTE2PA v) else kret tt) ;;;
            poke pte 0 ;;;
            uvmunmap_loop f pagetable (u64 (a + PGSIZE)) lim do_free
      else kret tt
  end.
Definition uvmunmap (pagetable va npages : Z) (do_free : bool) : M pmem unit :=
  if negb (va mod PGSIZE =? 0) then panic "uvmunmap: not aligned"
  else uvmunmap_loop (S (Z.to_nat npages)) pagetable va (u64 (va + npages * PGSIZE)) do_free.

Definition uvmcreate : M pmem Z :=
  let* pagetable := kalloc in
  if pagetable =? 0 then kret 0
  else zero_page pagetable ;;; kret pagetable.

(** [src] is the initial program, [sz] bytes. *)
Definition uvmfirst (pagetable : Z) (src : list Z) : M pmem unit :=
  if PGSIZE <=? Z.of_nat (length src) then panic "uvmfirst: more than a page"
  else
    let* mem := kalloc in
    zero_page mem ;;;
    let* _ := mappages pagetable 0 PGSIZE mem (Z.lor (Z.lor (Z.lor PTE_W PTE_R) PTE_X) PTE_U) in
    kmod (with_mem (fun m => store_bytes m mem src)).

(** ** Growing and shrinking an address space *)

Definition uvmdealloc (pagetable oldsz newsz : Z) : M pmem Z :=
  if oldsz <=? newsz then kret oldsz
  else
    (if PGROUNDUP newsz <? PGROUNDUP oldsz then
       let npages := u64 (i32 ((PGROUNDUP oldsz - PGROUNDUP newsz) / PGSIZE)) in
       uvmunmap pagetable (PGROUNDUP newsz) npages true
     else kret tt) ;;;
    kret newsz.

(** [for(a = oldsz; a < newsz; a += PGSIZE)], [oldsz] already rounded up. *)
Fixpoint uvmalloc_loop (fuel : nat) (pagetable a oldsz newsz xperm : Z) : M pmem Z :=
  match fuel with
  | O => stuck
  | S f =>
      if a <? newsz then
        let* mem := kalloc in
        if mem =? 0 then uvmdealloc pagetable a oldsz ;;; kret 0
        else
          zero_page mem ;;;
          let* r := mappages pagetable a PGSIZE mem (Z.lor (Z.lor PTE_R PTE_U) xperm) in
          if negb (r =? 0) then
            kfree kend mem ;;;
            uvmdealloc pagetable a oldsz ;;;
            kret 0
          else uvmalloc_loop f pagetable (u64 (a + PGSIZE)) oldsz newsz xperm
      else kret newsz
  end.
Definition uvmalloc (pagetable oldsz newsz xperm : Z) : M pmem Z :=
  if newsz <? oldsz then kret oldsz
  else
    let oldsz := PGROUNDUP oldsz in
    uvmalloc_loop (S (Z.to_nat ((newsz - oldsz + PGSIZE - 1) / PGSIZE)))
      pagetable oldsz oldsz newsz xperm.

(** [for(int i = 0; i < 512; i++)] of [freewalk], [n] entries being left;
    [rec] is the recursive call. *)
Fixpoint freewalk_entries (rec : Z -> M pmem unit) (n : nat) (pagetable i : Z) : M pmem unit :=
  match n with
  | O => kret tt
  | S n' =>
      let* pte := peek (pagetable + 8 * i) in
      (if has pte PTE_V && (Z.land pte (Z.lor (Z.lor PTE_R PTE_W) PTE_X) =? 0) then
         let child := PTE2PA pte in
         rec child ;;;
         poke (pagetable + 8 * i) 0
       else if has pte PTE_V then panic "freewalk: leaf"
       else kret tt) ;;;
      freewalk_entries rec n' pagetable (i + 1)
  end.

(** [freewalk] recurses along valid non-leaf entries; [depth] bounds the
    recursion. *)
Fixpoint freewalk (depth : nat) (pagetable : Z) : M pmem unit :=
  match depth with
  | O => stuck
  | S d => freewalk_entries (freewalk d) 512 pagetable 0 ;;; kfree kend pagetable
  end.

(** A page table has three levels. *)
Definition uvmfree (pagetable sz : Z) : M pmem unit :=
  (if 0 <? sz then uvmunmap pagetable 0 (PGROUNDUP sz / PGSIZE) true else kret tt) ;;;
  freewalk 3 pagetable.

(** [for(i = 0; i < sz; i += PGSIZE)] *)
Fixpoint uvmcopy_loop (fuel : nat) (old new i sz : Z) : M pmem Z :=
  match fuel with
  | O => stuck
  | S f =>
      if i <? sz then
        let* pte := walk old i false in
        if pte =? 0 then panic "uvmcopy: pte should exist"
        else
          let* v := peek pte in
          if negb (has v PTE_V) then panic "uvmcopy: page not present"
          else
            let pa := PTE2PA v in
            let flags := PTE_FLAGS v in
            let* mem := kalloc in
            if mem =? 0 then uvmunmap new 0 (i / PGSIZE) true ;;; kret (-1)
            else
              kmod (with_mem (fun m => memmove m mem pa PGSIZE)) ;;;
              let* r := mappages new i PGSIZE mem flags in
              if negb (r =? 0) then
                kfree kend mem ;;;
                uvmunmap new 0 (i / PGSIZE) true ;;;
                kret (-1)
              else uvmcopy_loop f old new (u64 (i + PGSIZE)) sz
      else kret 0
  end.
Definition uvmcopy (old new sz : Z) : M pmem Z :=
  uvmcopy_loop (S (Z.to_nat ((sz + PGSIZE - 1) / PGSIZE))) old new 0 sz.

Definition uvmclear (pagetable va : Z) : M pmem unit :=
  let* pte := walk pagetable va false in
  if pte =? 0 then panic "uvmclear"
  else
    let* v := peek pte in
    poke pte (Z.land v (Z.lnot PTE_U)).

(** ** Copies between kernel and user memory *)

(** [src] is the list of the [len] bytes to copy; one turn of the loop per
    unit of fuel, each of which copies at least one byte. *)
Fixpoint copyout_loop (fuel : nat) (pagetable dstva : Z) (src : list Z) : M pmem Z :=
  match src with
  | [] => kret 0
  | _ =>
      match fuel with
      | O => stuck
      | S f =>
          let len := Z.of_nat (length src) in
          let va0 := PGROUNDDOWN dstva in
          if MAXVA <=? va0 then kret (-1)
          else
            let* pte := walk pagetable va0 false in
            if pte =? 0 then kret (-1)
            else
              let* v := peek pte in
              if negb (has v PTE_V) || negb (has v PTE_U) || negb (has v PTE_W) then kret (-1)
              else
                let pa0 := PTE2PA v in
                let n := PGSIZE - (dstva - va0) in
                let n := if len <? n then len else n in
                kmod (with_mem (fun m =>
                  store_bytes m (pa0 + (dstva - va0)) (take (Z.to_nat n) src))) ;;;
                copyout_loop f pagetable (u64 (va0 + PGSIZE)) (drop (Z.to_nat n) src)
      end
  end.
Definition copyout (pagetable dstva : Z) (src : list Z) : M pmem Z :=
  copyout_loop (length src) pagetable dstva src.

(** Returns the status and the bytes stored at [dst]. *)
Fixpoint copyin_loop (fuel : nat) (pagetable srcva len : Z) (acc : list Z) : M pmem (Z * list Z) :=
  if len <=? 0 then kret (0, acc)
  else
    match fuel with
    | O => stuck
    | S f =>
        let va0 := PGROUNDDOWN srcva in
        let* pa0 := walkaddr pagetable va0 in
        if pa0 =? 0 then kret (-1, acc)
        else
          let n := PGSIZE - (srcva - va0) in
          let n := if len <? n then len else n in
          let* s := kget in
          let bytes := load_bytes (pm_mem s) (pa0 + (srcva - va0)) (Z.to_nat n) in
          copyin_loop f pagetable (u64 (va0 + PGSIZE)) (len - n) (acc ++ bytes)
    end.
Definition copyin (pagetable srcva len : Z) : M pmem (Z * list Z) :=
  copyin_loop (Z.to_nat len) pagetable srcva len [].

(** The inner loop of [copyinstr] over the [n] bytes left in a page: the
    bytes stored, and whether a NUL was met. *)
Fixpoint copyinstr_page (n : nat) (m : mem) (p : Z) (acc : list Z) : list Z * bool :=
  match n with
  | O => (acc, false)
  | S n' => if m p =? 0 then (acc ++ [0], true) else copyinstr_page n' m (p + 1) (acc ++ [m p])
  end.

Fixpoint copyinstr_loop (fuel : nat) (pagetable srcva max : Z) (acc : list Z) : M pmem (Z * list Z) :=
  if max <=? 0 then kret (-1, acc)
  else
    match fuel with
    | O => stuck
    | S f =>
        let va0 := PGROUNDDOWN srcva in
        let* pa0 := walkaddr pagetable va0 in
        if pa0 =? 0 then kret (-1, acc)
        else
          let n := PGSIZE - (srcva - va0) in
          let n := if max <? n then max else n in
          let* s := kget in
          let '(acc', got_null) :=
            copyinstr_page (Z.to_nat n) (pm_mem s) (pa0 + (srcva - va0)) acc in
          if got_null then kret (0, acc')
          else copyinstr_loop f pagetable (u64 (va0 + PGSIZE)) (max - n) acc'
    end.
Definition copyinstr (pagetable srcva max : Z) : M pmem (Z * list Z) :=
  copyinstr_loop (Z.to_nat max) pagetable srcva max [].

(** ** The kernel page table *)

(** proc.c: [for(p = proc; p < &proc[NPROC]; p++)], a mapped stack page each. *)
Fixpoint proc_mapstacks_loop (n : nat) (i : Z) (kpgtbl : Z) : M pmem unit :=
  match n with
  | O => kret tt
  | S n' =>
      let* pa := kalloc in
      if pa =? 0 then panic "kalloc"
      else
        kvmmap kpgtbl (KSTACK i) pa PGSIZE (Z.lor PTE_R PTE_W) ;;;
        proc_mapstacks_loop n' (i + 1) kpgtbl
  end.
Definition proc_mapstacks (kpgtbl : Z) : M pmem unit :=
  proc_mapstacks_loop (Z.to_nat NPROC) 0 kpgtbl.

(** [etext] and [trampoline] are addresses the linker script defines. *)
Definition kvmmake (etext trampoline : Z) : M pmem Z :=
  let* kpgtbl := kalloc in
  zero_page kpgtbl ;;;
  kvmmap kpgtbl UART0 UART0 PGSIZE (Z.lor PTE_R PTE_W) ;;;
  kvmmap kpgtbl VIRTIO0 VIRTIO0 PGSIZE (Z.lor PTE_R PTE_W) ;;;
  kvmmap kpgtbl PLIC PLIC 0x4000000 (Z.lor PTE_R PTE_W) ;;;
  kvmmap kpgtbl KERNBASE KERNBASE (etext - KERNBASE) (Z.lor PTE_R PTE_X) ;;;
  kvmmap kpgtbl etext etext (PHYSTOP - etext) (Z.lor PTE_R PTE_W) ;;;
  kvmmap kpgtbl TRAMPOLINE trampoline PGSIZE (Z.lor PTE_R PTE_X) ;;;
  proc_mapstacks kpgtbl ;;;
  kret kpgtbl.
End vm.
