(* ===== verification/VmInv.v ===== *)
(** * Page tables as maps

    The well-formedness invariant of a page table in memory, the map from
    virtual page numbers to page-table entries that it represents, and the
    effect of [walk] and of single stores on both. *)

From S2P Require Import Prelude CMem KString Riscv Kalloc Vm.

(** The page-table pages of an address space: level and index of the part of
    the address space they translate (the address shifted right by 39, 30 and
    21 bits for levels 2, 1 and 0), and their physical address. *)
Abbreviation tables := (gmap (nat * Z) Z).

Section inv.
Variable kend : Z.
Hypothesis kend_pos : 0 < kend.

Record pt_inv (m : mem) (root : Z) (tb : tables) : Prop := PtInv {
  pt_root : tb !! (2%nat, 0) = Some root;
  pt_level : forall l i b, tb !! (l, i) = Some b -> (l <= 2)%nat /\ 0 <= i;
  pt_page : forall k b, tb !! k = Some b -> page_ok kend b;
  pt_inj : forall k k' b, tb !! k = Some b -> tb !! k' = Some b -> k = k';
  pt_up : forall l i, (l < 2)%nat -> is_Some (tb !! (l, i)) -> is_Some (tb !! (S l, i / 512));
  pt_int : forall l i b j, tb !! (S l, i) = Some b -> 0 <= j < 512 ->
    match tb !! (l, i * 512 + j) with
    | Some p => load64 m (b + 8 * j) = Z.lor (PA2PTE p) PTE_V
    | None => has (load64 m (b + 8 * j)) PTE_V = false
    end
}.

(** The leaf entry of virtual page number [v]; 0 where there is no leaf table. *)
Definition leaf (m : mem) (tb : tables) (v : Z) : Z :=
  match tb !! (0%nat, v / 512) with
  | Some b => load64 m (b + 8 * (v mod 512))
  | None => 0
  end.

Definition is_table (tb : tables) (p : Z) : Prop := exists k, tb !! k = Some p.

(** A page table together with the allocator, [fl] being the free pages. *)
Definition vm_inv (s : pmem) (root : Z) (tb : tables) (fl : list Z) : Prop :=
  kmem_inv kend s fl /\ pt_inv (pm_mem s) root tb /\ (forall p, is_table tb p -> p ∉ fl).

(** Memory is unchanged outside the pages of [P]. *)
Definition frame (P : Z -> Prop) (m m' : mem) : Prop :=
  forall x, (forall p, P p -> ~ in_page p x) -> m' x = m x.

Lemma page_pos p : page_ok kend p -> 4096 <= p /\ p < 2 ^ 32 /\ p mod 4096 = 0.
Proof.
  intros [Ha Hr]; unfold PHYSTOP, KERNBASE in Hr; split_and!; [|lia|done].
  apply page_word; [done|lia].
Qed.

Lemma page_frame p : page_ok kend p -> is_frame p.
Proof. intros H%page_pos; split; lia. Qed.

Lemma frame_refl P m : frame P m m.
Proof. by intros x _. Qed.

Lemma frame_trans P m1 m2 m3 : frame P m1 m2 -> frame P m2 m3 -> frame P m1 m3.
Proof. intros H1 H2 x Hx; by rewrite H2, H1. Qed.

Lemma frame_mono (P Q : Z -> Prop) m m' : (forall p, P p -> Q p) -> frame P m m' -> frame Q m m'.
Proof. intros HPQ H x Hx; apply H; auto. Qed.

Lemma frame_load64 P m m' p j :
  frame P m m' -> (forall q, P q -> q mod 4096 = 0) -> p mod 4096 = 0 -> ~ P p ->
  0 <= j < 512 -> load64 m' (p + 8 * j) = load64 m (p + 8 * j).
Proof.
  intros Hf HP Hp Hn Hj; apply load64_ext; intros x Hx; apply Hf.
  intros q Hq Hqx; apply Hn.
  replace p with q; [done|].
  apply (in_page_inj q p x); auto; unfold in_page; lia.
Qed.

(** ** Reading a page table *)

Lemma table_slot m root tb l i b j :
  pt_inv m root tb -> tb !! (l, i) = Some b -> 0 <= j < 512 ->
  b mod 4096 = 0 /\ in_page b (b + 8 * j) /\ b + 8 * j + 8 <= b + 4096.
Proof.
  intros Hi Hb Hj; destruct (pt_page _ _ _ Hi _ _ Hb) as [Ha _]; unfold in_page; lia.
Qed.

Lemma vpn_split va :
  0 <= va < MAXVA -> va / 4096 / 512 = va / 2 ^ 21 /\ (va / 4096) mod 512 = PX 0 va.
Proof.
  intros Hva; split; [by rewrite Z.div_div by lia|].
  by rewrite PX_eq by lia.
Qed.

Lemma has_V_table p : is_frame p -> has (Z.lor (PA2PTE p) PTE_V) PTE_V = true.
Proof. intros; unfold PTE_V at 2; by rewrite has_lor. Qed.

Lemma walk_loop_step (l : nat) (b va : Z) (alloc : bool) c s p :
  is_frame p -> load64 (pm_mem s) (b + 8 * PX (Z.of_nat (S l)) va) = Z.lor (PA2PTE p) PTE_V ->
  walk_loop (S l) b va alloc c s = walk_loop l p va alloc c s.
Proof.
  intros Hp Hv; cbn [walk_loop]; unfold kbind, peek; rewrite Hv, has_V_table by done.
  by rewrite PTE2PA_lor.
Qed.

Lemma walk_loop_miss (l : nat) (b va : Z) c s :
  has (load64 (pm_mem s) (b + 8 * PX (Z.of_nat (S l)) va)) PTE_V = false ->
  walk_loop (S l) b va false c s = Ret 0 c s.
Proof. intros Hv; cbn [walk_loop]; unfold kbind, peek; by rewrite Hv. Qed.

Lemma walk_loop_oom (l : nat) (b va : Z) c s :
  has (load64 (pm_mem s) (b + 8 * PX (Z.of_nat (S l)) va)) PTE_V = false ->
  kalloc c s = Ret 0 c s -> walk_loop (S l) b va true c s = Ret 0 c s.
Proof. intros Hv Ha; cbn [walk_loop]; unfold kbind, peek; by rewrite Hv; simpl; rewrite Ha. Qed.

Lemma walk_loop_new (l : nat) (b va : Z) c s p s1 :
  has (load64 (pm_mem s) (b + 8 * PX (Z.of_nat (S l)) va)) PTE_V = false ->
  kalloc c s = Ret p c s1 -> (p =? 0) = false ->
  walk_loop (S l) b va true c s =
  walk_loop l p va true c
    (PMem (store64 (memset (pm_mem s1) p 0 PGSIZE) (b + 8 * PX (Z.of_nat (S l)) va)
             (Z.lor (PA2PTE p) PTE_V)) (freelist s1)).
Proof.
  intros Hv Ha Hp; cbn [walk_loop]; unfold kbind, peek; rewrite Hv; simpl; by rewrite Ha, Hp.
Qed.

(** Index of the table of level [l] that translates [va]. *)
Definition tix (l : nat) (va : Z) : Z := va / 2 ^ (12 + 9 * (Z.of_nat l + 1)).

Lemma tix_step l va :
  0 <= va -> tix l va = tix (S l) va * 512 + PX (Z.of_nat (S l)) va.
Proof.
  intros Hva; unfold tix; rewrite PX_eq by lia.
  set (k := 12 + 9 * (Z.of_nat l + 1)).
  replace (12 + 9 * (Z.of_nat (S l) + 1)) with (k + 9) by lia.
  replace (12 + 9 * Z.of_nat (S l)) with k by lia.
  rewrite Z.pow_add_r, <- Z.div_div by lia; change (2 ^ 9) with 512.
  pose proof (Z.div_mod (va / 2 ^ k) 512 ltac:(lia)); lia.
Qed.

Lemma tix_2 va : 0 <= va < MAXVA -> tix 2 va = 0.
Proof. rewrite MAXVA_eq; intros; unfold tix; apply Z.div_small; simpl; lia. Qed.

Lemma tix_0 va : 0 <= va -> tix 0 va = va / 2 ^ 21.
Proof. done. Qed.

Lemma tix_up l va : 0 <= va -> tix l va / 512 = tix (S l) va.
Proof.
  intros; rewrite (tix_step l va) by done.
  pose proof (PX_range (Z.of_nat (S l)) va ltac:(lia)).
  rewrite Z.div_add_l, Z.div_small by lia; lia.
Qed.

Lemma missing_up m root tb l va :
  pt_inv m root tb -> 0 <= va -> (l < 2)%nat -> tb !! (S l, tix (S l) va) = None ->
  tb !! (l, tix l va) = None.
Proof.
  intros Hi Hva Hl Hn; destruct (tb !! (l, tix l va)) eqn:E; [|done].
  destruct (pt_up _ _ _ Hi l (tix l va)) as [b Hb]; [done|by eauto|].
  by rewrite tix_up, Hn in Hb.
Qed.

Lemma missing_0 m root tb l va :
  pt_inv m root tb -> 0 <= va -> (l <= 2)%nat -> tb !! (l, tix l va) = None ->
  tb !! (0%nat, va / 2 ^ 21) = None.
Proof.
  intros Hi Hva Hl; rewrite <- tix_0 by done.
  revert Hl; induction l as [|l IH]; intros Hl Hn; [done|].
  apply IH; [lia|]; eapply missing_up; eauto.
Qed.

Lemma walk_loop_noalloc s root tb l b va c :
  pt_inv (pm_mem s) root tb -> 0 <= va < MAXVA -> (l <= 2)%nat ->
  tb !! (l, tix l va) = Some b ->
  walk_loop l b va false c s =
  Ret (match tb !! (0%nat, va / 2 ^ 21) with Some p => p + 8 * PX 0 va | None => 0 end) c s.
Proof.
  intros Hi Hva; revert b; induction l as [|l IH]; intros b Hl Hb.
  - rewrite tix_0 in Hb by lia; by rewrite Hb.
  - pose proof (PX_range (Z.of_nat (S l)) va ltac:(lia)) as Hpx.
    pose proof (pt_int _ _ _ Hi l _ b (PX (Z.of_nat (S l)) va) Hb Hpx) as Hent.
    rewrite <- tix_step in Hent by lia.
    destruct (tb !! (l, tix l va)) as [p|] eqn:E.
    + rewrite (walk_loop_step _ _ _ _ _ _ p); auto; [apply IH; auto; lia|].
      by eapply page_frame, pt_page.
    + rewrite walk_loop_miss by done; f_equal.
      by rewrite (missing_0 _ _ _ l va Hi) by (done || lia).
Qed.

Lemma walk_noalloc s root tb va c :
  pt_inv (pm_mem s) root tb -> 0 <= va < MAXVA ->
  walk root va false c s =
  Ret (match tb !! (0%nat, va / 2 ^ 21) with Some p => p + 8 * PX 0 va | None => 0 end) c s.
Proof.
  intros Hi Hva; unfold walk; replace (MAXVA <=? va) with false by lia.
  eapply walk_loop_noalloc; eauto; rewrite tix_2 by done; apply (pt_root _ _ _ Hi).
Qed.

Lemma slot_pos m root tb k b j :
  pt_inv m root tb -> tb !! k = Some b -> 0 <= j -> (b + 8 * j =? 0) = false.
Proof. intros Hi Hb Hj; pose proof (page_pos _ (pt_page _ _ _ Hi _ _ Hb)); lia. Qed.

(** [walk] without allocation followed by a read of the entry. *)
Lemma walk_read {A} s root tb va (miss : M pmem A) (k : Z -> Z -> M pmem A) c :
  pt_inv (pm_mem s) root tb -> 0 <= va < MAXVA ->
  (let* pte := walk root va false in
   if pte =? 0 then miss else let* v := peek pte in k pte v) c s =
  match tb !! (0%nat, va / 2 ^ 21) with
  | Some p => k (p + 8 * PX 0 va) (leaf (pm_mem s) tb (va / 4096)) c s
  | None => miss c s
  end.
Proof.
  intros Hi Hva; unfold kbind, peek; rewrite (walk_noalloc s root tb) by done.
  destruct (vpn_split va Hva) as [Hq Hr]; unfold leaf; rewrite Hq, Hr.
  destruct (tb !! (0%nat, va / 2 ^ 21)) as [b|] eqn:E; [|done].
  by erewrite slot_pos by (eauto; apply PX_range; lia).
Qed.

Lemma has_0 b : has 0 b = false.
Proof. unfold has; by rewrite Z.land_0_l. Qed.

Lemma walkaddr_run s root tb va c :
  pt_inv (pm_mem s) root tb -> 0 <= va < MAXVA ->
  walkaddr root va c s =
  Ret (let v := leaf (pm_mem s) tb (va / 4096) in
       if has v PTE_V && has v PTE_U then PTE2PA v else 0) c s.
Proof.
  intros Hi Hva; unfold walkaddr; replace (MAXVA <=? va) with false by lia.
  rewrite (walk_read s root tb) by done; cbv zeta.
  destruct (vpn_split va Hva) as [Hq _].
  destruct (tb !! (0%nat, va / 2 ^ 21)) as [b|] eqn:E.
  - by destruct (has _ PTE_V), (has _ PTE_U).
  - unfold leaf; by rewrite Hq, E, has_0.
Qed.

(** ** Stores next to a page table *)

Lemma load64_zero m a : (forall x, a <= x < a + 8 -> m x = 0) -> load64 m a = 0.
Proof.
  intros H; rewrite (load64_ext m (fun _ => 0)) by done; by vm_compute.
Qed.

Lemma leaf_frame P m m' root tb v :
  pt_inv m root tb -> frame P m m' ->
  (forall p, P p -> p mod 4096 = 0 /\ ~ is_table tb p) -> leaf m' tb v = leaf m tb v.
Proof.
  intros Hi Hf HP; unfold leaf; destruct (tb !! _) as [b|] eqn:E; [|done].
  pose proof (Z.mod_pos_bound v 512 ltac:(lia)).
  eapply frame_load64; [done|apply HP| | |done].
  - by destruct (pt_page _ _ _ Hi _ _ E).
  - intros Hp; destruct (HP _ Hp) as [_ Hn]; apply Hn; by eexists.
Qed.

Lemma pt_inv_frame P m m' root tb :
  pt_inv m root tb -> frame P m m' ->
  (forall p, P p -> p mod 4096 = 0 /\ ~ is_table tb p) -> pt_inv m' root tb.
Proof.
  intros Hi Hf HP; destruct Hi as [H1 H2 H3 H4 H5 H6]; split; auto.
  intros l i b j Hb Hj; specialize (H6 l i b j Hb Hj).
  rewrite (frame_load64 P m m' b j); auto; [apply HP|by destruct (H3 _ _ Hb)|].
  intros Hp; destruct (HP _ Hp) as [_ Hn]; apply Hn; by eexists.
Qed.

Lemma kmem_inv_mem s m' fl :
  kmem_inv kend s fl -> mem_ok m' ->
  (forall q x, q ∈ fl -> in_page q x -> m' x = pm_mem s x) ->
  kmem_inv kend (PMem m' (freelist s)) fl.
Proof.
  intros (Hm & Hc & Hn & Hok) Hm' Hx; split_and!; auto; cbn [pm_mem freelist].
  by apply (chain_frame kend (pm_mem s)).
Qed.

Lemma idx_split i j i' j' :
  0 <= j < 512 -> 0 <= j' < 512 -> i' * 512 + j' = i * 512 + j -> i' = i /\ j' = j.
Proof. lia. Qed.

Section extend.
Variables (m m' : mem) (root : Z) (tb : tables) (l : nat) (i j b p : Z).
Hypothesis Hi : pt_inv m root tb.
Hypothesis Hb : tb !! (S l, i) = Some b.
Hypothesis Hj : 0 <= j < 512.
Hypothesis Hnone : tb !! (l, i * 512 + j) = None.
Hypothesis Hp : page_ok kend p.
Hypothesis Hnt : ~ is_table tb p.
Hypothesis Hslot : load64 m' (b + 8 * j) = Z.lor (PA2PTE p) PTE_V.
Hypothesis Hzero : forall x, in_page p x -> m' x = 0.
Hypothesis Hsame : forall x, ~ in_page p x -> ~ (b + 8 * j <= x < b + 8 * j + 8) -> m' x = m x.

Lemma extend_other k b' j' :
  tb !! k = Some b' -> 0 <= j' < 512 -> (k <> (S l, i) \/ j' <> j) ->
  load64 m' (b' + 8 * j') = load64 m (b' + 8 * j').
Proof using Hi Hb Hj Hp Hnt Hsame.
  intros Hk Hj' Hne; apply load64_ext; intros x Hx; apply Hsame.
  - intros Hxp; destruct (pt_page _ _ _ Hi _ _ Hk) as [Ha' _], Hp as [Ha _].
    assert (p = b') as E by (apply (in_page_inj p b' x); auto; unfold in_page; lia).
    apply Hnt; rewrite E; by eexists.
  - intros Hxs; destruct (decide (b' = b)) as [E|E].
    + subst b'; assert (k = (S l, i)) by (by eapply pt_inj). destruct Hne; [done|lia].
    + apply E; destruct (pt_page _ _ _ Hi _ _ Hk) as [Ha' _].
      destruct (pt_page _ _ _ Hi _ _ Hb) as [Ha _].
      apply (in_page_inj b' b x); auto; unfold in_page; lia.
Qed.

Lemma extend_zero j' : 0 <= j' < 512 -> load64 m' (p + 8 * j') = 0.
Proof using Hzero. intros; apply load64_zero; intros x Hx; apply Hzero; unfold in_page; lia. Qed.

Lemma extend_inv : pt_inv m' root (<[(l, i * 512 + j) := p]> tb).
Proof using Hi Hb Hj Hnone Hp Hnt Hslot Hzero Hsame.
  pose proof (pt_level _ _ _ Hi _ _ _ Hb) as [Hl Hi0]; split.
  - rewrite lookup_insert_ne by (intros [=]; lia); apply (pt_root _ _ _ Hi).
  - intros l' i' b'; rewrite lookup_insert; case_decide as E.
    + injection E as <- <-; intros _; lia.
    + apply (pt_level _ _ _ Hi).
  - intros k b'; rewrite lookup_insert; case_decide; [by intros [= <-]|apply (pt_page _ _ _ Hi)].
  - intros k k' b'; rewrite !lookup_insert; repeat case_decide; intros E1 E2; subst; auto;
      try (injection E1 as <-); try (injection E2 as <-); try (exfalso; apply Hnt; by eexists).
    by eapply pt_inj.
  - intros l' i' Hl' Hs; destruct (decide ((l', i') = (l, i * 512 + j))) as [[= -> ->]|Hne].
    + rewrite Z.div_add_l, (Z.div_small j), Z.add_0_r by lia.
      rewrite lookup_insert_ne by (intros [=]; lia); by eexists.
    + rewrite lookup_insert_ne in Hs by congruence.
      destruct (pt_up _ _ _ Hi l' i' Hl' Hs) as [b' Hb'].
      rewrite lookup_insert; case_decide; by eexists.
  - intros l' i' b' j' Hb' Hj'; rewrite lookup_insert in Hb'; case_decide as E.
    + injection E as -> <-; injection Hb' as <-; rewrite lookup_insert_ne by (intros [=]; lia).
      rewrite extend_zero by done.
      destruct (tb !! (l', _)) eqn:E2; [|apply has_0].
      destruct (pt_up _ _ _ Hi l' ((i * 512 + j) * 512 + j')) as [b2 Hb2]; [lia|by eexists|].
      by rewrite Z.div_add_l, (Z.div_small j'), Z.add_0_r, Hnone in Hb2 by lia.
    + destruct (decide ((l', i' * 512 + j') = (l, i * 512 + j))) as [[= -> E2]|Hne].
      * rewrite E2, lookup_insert_eq.
        destruct (idx_split i j i' j') as [-> ->]; auto.
        by assert (b' = b) as -> by congruence.
      * rewrite lookup_insert_ne by congruence.
        rewrite (extend_other _ _ _ Hb' Hj'); [by apply (pt_int _ _ _ Hi)|].
        destruct (decide ((S l', i') = (S l, i))) as [[= -> ->]|]; [right|by left].
        intros ->; done.
Qed.

Lemma extend_leaf v : leaf m' (<[(l, i * 512 + j) := p]> tb) v = leaf m tb v.
Proof using Hi Hb Hj Hnone Hp Hnt Hzero Hsame.
  unfold leaf; pose proof (Z.mod_pos_bound v 512 ltac:(lia)).
  rewrite lookup_insert; case_decide as E.
  - injection E as E1 E2; rewrite <- E2, <- E1 in *; rewrite Hnone; by apply extend_zero.
  - destruct (tb !! (0%nat, v / 512)) as [b'|] eqn:E2; [|done].
    by apply (extend_other _ _ _ E2); [|left].
Qed.
End extend.

(** ** Growing a page table *)

(** From [s] to [s'] page-table pages were added from the free list; no
    translation changed, and no memory outside those pages and the tables. *)
Record vm_grow (root : Z) (s : pmem) (tb : tables) (fl : list Z)
    (s' : pmem) (tb' : tables) (fl' : list Z) : Prop := VmGrow {
  vg_inv : vm_inv s' root tb' fl';
  vg_sub : tb ⊆ tb';
  vg_fl : exists used, fl = used ++ fl' /\
    (forall p, is_table tb' p <-> is_table tb p \/ p ∈ used);
  vg_leaf : forall v, leaf (pm_mem s') tb' v = leaf (pm_mem s) tb v;
  vg_frame : frame (fun p => p ∈ fl \/ is_table tb p) (pm_mem s) (pm_mem s')
}.

Lemma is_table_insert tb k p q :
  tb !! k = None -> is_table (<[k := p]> tb) q <-> is_table tb q \/ q ∈ [p].
Proof.
  intros Hk; rewrite list_elem_of_singleton; split.
  - intros [k' Hq]; rewrite lookup_insert in Hq; case_decide; [right; congruence|left; by eexists].
  - intros [[k' Hq]| ->]; [|exists k; by rewrite lookup_insert_eq].
    exists k'; rewrite lookup_insert_ne; [done|congruence].
Qed.

Lemma vm_grow_refl root s tb fl : vm_inv s root tb fl -> vm_grow root s tb fl s tb fl.
Proof.
  intros Hv; split; auto using frame_refl.
  exists []; split; [done|]; set_solver.
Qed.

Lemma vm_grow_trans root s1 tb1 fl1 s2 tb2 fl2 s3 tb3 fl3 :
  vm_grow root s1 tb1 fl1 s2 tb2 fl2 -> vm_grow root s2 tb2 fl2 s3 tb3 fl3 ->
  vm_grow root s1 tb1 fl1 s3 tb3 fl3.
Proof.
  intros [I1 S1 (u1 & F1 & T1) L1 R1] [I2 S2 (u2 & F2 & T2) L2 R2]; split.
  - done.
  - by transitivity tb2.
  - exists (u1 ++ u2); split; [by rewrite F1, F2, app_assoc|].
    intros p; rewrite T2, T1, elem_of_app; tauto.
  - intros v; by rewrite L2, L1.
  - eapply frame_trans; [exact R1|]; eapply frame_mono; [|exact R2].
    intros p [Hp|Hp]; [left; rewrite F1; set_solver|].
    apply T1 in Hp as []; [by right|left; rewrite F1; set_solver].
Qed.

Lemma vm_inv_page s root tb fl p :
  vm_inv s root tb fl -> is_table tb p -> page_ok kend p.
Proof. intros (_ & Hi & _) [k Hk]; by eapply pt_page. Qed.

(** The slot of an interior entry lies inside its table's page. *)
Lemma slot_in_page b j x : 0 <= j < 512 -> b + 8 * j <= x < b + 8 * j + 8 -> in_page b x.
Proof. unfold in_page; lia. Qed.

Lemma add_table s root tb fl p l i j b :
  vm_inv s root tb (p :: fl) ->
  tb !! (S l, i) = Some b -> 0 <= j < 512 -> tb !! (l, i * 512 + j) = None ->
  let m1 := memset (memset (pm_mem s) p 5 PGSIZE) p 0 PGSIZE in
  let s' := PMem (store64 m1 (b + 8 * j) (Z.lor (PA2PTE p) PTE_V)) (load64 (pm_mem s) p) in
  vm_grow root s tb (p :: fl) s' (<[(l, i * 512 + j) := p]> tb) fl.
Proof.
  intros (Hk & Hi & Hd) Hb Hj Hn m1 s'.
  pose proof Hk as (Hm & [_ Hc] & [Hpfl Hnd]%NoDup_cons & [Hp Hok]%Forall_cons).
  assert (Hpt : ~ is_table tb p) by (intros Ht; apply (Hd p Ht); left).
  assert (Hbp : b <> p) by (intros ->; apply Hpt; by eexists).
  destruct (pt_page _ _ _ Hi _ _ Hb) as [Hba _]; pose proof Hp as [Hpa _].
  assert (Hm1 : forall x, m1 x = if decide (in_page p x) then 0 else pm_mem s x).
  { intros x; unfold m1, PGSIZE; case_decide as E; unfold in_page in E.
    - by rewrite memset_in by lia.
    - by rewrite !memset_out by lia. }
  assert (Hin : forall x, in_page p x -> ~ (b + 8 * j <= x < b + 8 * j + 8)).
  { intros x Hx Hs; apply Hbp; apply (in_page_inj b p x); auto; by eapply slot_in_page. }
  assert (Hout : forall x, ~ in_page p x -> ~ (b + 8 * j <= x < b + 8 * j + 8) ->
            pm_mem s' x = pm_mem s x).
  { intros x Hx Hs; cbn [s' pm_mem]; rewrite store64_out by done; rewrite Hm1.
    by rewrite decide_False. }
  assert (Hz : forall x, in_page p x -> pm_mem s' x = 0).
  { intros x Hx; cbn [s' pm_mem]; rewrite store64_out by (by apply Hin); rewrite Hm1.
    by rewrite decide_True. }
  assert (Hslot : load64 (pm_mem s') (b + 8 * j) = Z.lor (PA2PTE p) PTE_V).
  { apply load64_store64_same, PTE_range; [by apply page_frame|done]. }
  assert (Hff : forall q, q ∈ fl -> q <> p /\ q <> b /\ q mod 4096 = 0).
  { intros q Hq; rewrite Forall_forall in Hok; destruct (Hok q Hq) as [Hqa _].
    split_and!; [by intros ->| |done].
    intros ->; apply (Hd b); [by eexists|by right]. }
  split.
  - split_and!.
    + split_and!; auto; cbn [s' pm_mem freelist].
      * unfold m1; auto with cmem.
      * apply (chain_frame kend (pm_mem s)); auto.
        intros q x Hq Hx; destruct (Hff q Hq) as (Hq1 & Hq2 & Hqa); apply Hout.
        -- intros Hx'; apply Hq1; by apply (in_page_inj q p x).
        -- intros Hx'; apply Hq2; apply (in_page_inj q b x); auto; by eapply slot_in_page.
    + by apply (extend_inv (pm_mem s)) with b.
    + intros q [k Hq] Hqf; rewrite lookup_insert in Hq; case_decide.
      * by injection Hq as <-.
      * apply (Hd q); [by eexists|by right].
  - by apply insert_subseteq.
  - exists [p]; split; [done|]; intros q; by apply is_table_insert.
  - intros v; by apply (extend_leaf (pm_mem s) _ root tb l i j b p).
  - intros x Hx; apply Hout; [apply Hx; left; left|].
    intros Hs; apply (Hx b); [right; by eexists|by eapply slot_in_page].
Qed.

(** The tables [walk] adds are on the path of the address. *)
Definition on_path (va : Z) (k : nat * Z) : Prop := exists l, k = (l, tix l va).
Definition new_keys (P : nat * Z -> Prop) (tb tb' : tables) : Prop :=
  forall k, is_Some (tb' !! k) -> is_Some (tb !! k) \/ P k.

Lemma new_keys_trans P tb1 tb2 tb3 : new_keys P tb1 tb2 -> new_keys P tb2 tb3 -> new_keys P tb1 tb3.
Proof. intros H1 H2 k [Hk|]%H2; [by apply H1|by right]. Qed.

Lemma new_keys_insert (P : nat * Z -> Prop) tb k b : P k -> new_keys P tb (<[k := b]> tb).
Proof. intros Hk k'; rewrite lookup_insert; case_decide; [subst; by right|by left]. Qed.

Lemma walk_loop_alloc s root tb fl l b va c :
  vm_inv s root tb fl -> 0 <= va < MAXVA -> (l <= 2)%nat -> O_kmem ∉ held c ->
  tb !! (l, tix l va) = Some b ->
  exists s' tb' fl', vm_grow root s tb fl s' tb' fl' /\ new_keys (on_path va) tb tb' /\
    ((exists p, tb' !! (0%nat, va / 2 ^ 21) = Some p /\
        walk_loop l b va true c s = Ret (p + 8 * PX 0 va) c s') \/
     (fl' = [] /\ tb' !! (0%nat, va / 2 ^ 21) = None /\ walk_loop l b va true c s = Ret 0 c s')).
Proof.
  intros Hv Hva Hl Hc; revert s tb fl b Hv Hl; induction l as [|l IH]; intros s tb fl b Hv Hl Hb.
  - exists s, tb, fl; split_and!; [by apply vm_grow_refl|by left|left; exists b].
    rewrite tix_0 in Hb by lia; done.
  - pose proof Hv as (Hk & Hi & Hd).
    pose proof (PX_range (Z.of_nat (S l)) va ltac:(lia)) as Hpx.
    pose proof (pt_int _ _ _ Hi l _ b _ Hb Hpx) as Hent.
    rewrite <- tix_step in Hent by lia.
    destruct (tb !! (l, tix l va)) as [p|] eqn:E.
    + assert (is_frame p) by (by eapply page_frame, pt_page).
      rewrite (walk_loop_step _ _ _ _ _ _ p) by done; apply IH; auto; lia.
    + destruct fl as [|p fl].
      { exists s, tb, []; split_and!; [by apply vm_grow_refl|by left|right; split_and!; [done| |]].
        { by apply (missing_0 _ _ _ l va Hi); [lia|lia|]. }
        by apply walk_loop_oom; [|apply (kalloc_spec_nil kend)]. }
      rewrite (tix_step l va) in E by lia.
      pose proof (add_table s root tb fl p l _ _ b Hv Hb Hpx E) as Hg.
      rewrite <- tix_step in Hg by lia; cbv zeta in Hg.
      assert (Hp0 : (p =? 0) = false).
      { destruct Hk as (_ & _ & _ & [Hp _]%Forall_cons); pose proof (page_pos _ Hp); lia. }
      rewrite (walk_loop_new _ _ _ _ _ p _ Hent (kalloc_run kend kend_pos p fl c s Hk Hc) Hp0).
      destruct (IH _ _ _ p (vg_inv _ _ _ _ _ _ _ Hg)) as (s' & tb' & fl' & Hg' & Hnk & Hcase);
        [lia|by rewrite lookup_insert_eq|].
      exists s', tb', fl'; split_and!; [by eapply vm_grow_trans| |exact Hcase].
      eapply new_keys_trans; [apply new_keys_insert; by exists l|exact Hnk].
Qed.

Lemma walk_alloc s root tb fl va c :
  vm_inv s root tb fl -> 0 <= va < MAXVA -> O_kmem ∉ held c ->
  exists s' tb' fl', vm_grow root s tb fl s' tb' fl' /\ new_keys (on_path va) tb tb' /\
    ((exists p, tb' !! (0%nat, va / 2 ^ 21) = Some p /\
        walk root va true c s = Ret (p + 8 * PX 0 va) c s') \/
     (fl' = [] /\ tb' !! (0%nat, va / 2 ^ 21) = None /\ walk root va true c s = Ret 0 c s')).
Proof.
  intros Hv Hva Hc; unfold walk; replace (MAXVA <=? va) with false by lia.
  apply walk_loop_alloc; auto; rewrite tix_2 by done; apply (pt_root _ _ _ (proj1 (proj2 Hv))).
Qed.

(** ** Changing one leaf entry *)

Lemma set_leaf s root tb fl v b pte :
  vm_inv s root tb fl -> tb !! (0%nat, v / 512) = Some b -> 0 <= pte < 2 ^ 64 ->
  let s' := with_mem (fun m => store64 m (b + 8 * (v mod 512)) pte) s in
  vm_inv s' root tb fl /\
  (forall v', leaf (pm_mem s') tb v' = if decide (v' = v) then pte else leaf (pm_mem s) tb v') /\
  frame (fun p => p = b) (pm_mem s) (pm_mem s').
Proof.
  intros (Hk & Hi & Hd) Hb Hpte s'.
  pose proof (Z.mod_pos_bound v 512 ltac:(lia)) as Hr; pose proof Hk as (Hm & _).
  destruct (pt_page _ _ _ Hi _ _ Hb) as [Hba _].
  assert (Hf : frame (fun p => p = b) (pm_mem s) (pm_mem s')).
  { intros x Hx; apply store64_out; intros Hs; apply (Hx b); [done|by eapply slot_in_page]. }
  assert (Hoth : forall k b' j', tb !! k = Some b' -> 0 <= j' < 512 ->
            (k <> (0%nat, v / 512) \/ j' <> v mod 512) ->
            load64 (pm_mem s') (b' + 8 * j') = load64 (pm_mem s) (b' + 8 * j')).
  { intros k b' j' Hk' Hj' Hne; destruct (decide (b' = b)) as [->|Hbb].
    - assert (k = (0%nat, v / 512)) by (by eapply pt_inj); apply load64_store64_disj.
      destruct Hne; [done|lia].
    - destruct (pt_page _ _ _ Hi _ _ Hk') as [Hba' _].
      eapply frame_load64; [exact Hf| |done|done|done]; by intros q ->. }
  split_and!; [split_and!| |done].
  - apply (kmem_inv_mem s _ fl); auto with cmem.
    intros q x Hq Hx; apply Hf; intros p -> Hx'.
    destruct Hk as (_ & _ & _ & Hok); rewrite Forall_forall in Hok; destruct (Hok q Hq) as [Hqa _].
    apply (Hd b); [by eexists|]; by rewrite (in_page_inj b q x Hba Hqa Hx' Hx).
  - destruct Hi as [H1 H2 H3 H4 H5 H6]; split; auto.
    intros l i b' j' Hb' Hj'; rewrite (Hoth _ _ _ Hb' Hj'); [by apply H6|by left].
  - done.
  - intros v'; unfold leaf; case_decide as E.
    + subst v'; rewrite Hb; by apply load64_store64_same.
    + destruct (tb !! (0%nat, v' / 512)) as [b'|] eqn:E'; [|done].
      apply (Hoth _ _ _ E'); [apply Z.mod_pos_bound; lia|].
      destruct (decide (v' / 512 = v / 512)); [right|left; congruence].
      intros Hm'; apply E; pose proof (Z.div_mod v 512 ltac:(lia));
        pose proof (Z.div_mod v' 512 ltac:(lia)); lia.
Qed.
End inv.
