(* ===== verification/VmMap.v ===== *)
(** * Mapping and unmapping pages

    What [mappages], [uvmunmap], [uvmalloc], [uvmdealloc] and [uvmcopy] do to
    the map from virtual page numbers to entries that a page table represents. *)

From S2P Require Import Prelude CMem KString Riscv Kalloc Vm VmInv.

(** The entry [mappages] writes. *)
Definition mkpte (pa perm : Z) : Z := Z.lor (Z.lor (PA2PTE pa) perm) PTE_V.


Lemma mkpte_eq pa perm : mkpte pa perm = Z.lor (PA2PTE pa) (Z.lor perm PTE_V).
Proof. unfold mkpte; by rewrite Z.lor_assoc. Qed.

Lemma lor_V_range perm : 0 <= perm < 2 ^ 10 -> 0 <= Z.lor perm PTE_V < 2 ^ 10.
Proof.
  intros Hr; split; [apply Z.lor_nonneg; split; [lia|done]|].
  destruct (decide (Z.lor perm PTE_V = 0)) as [->|]; [lia|].
  assert (0 <= Z.lor perm PTE_V) by (apply Z.lor_nonneg; split; [lia|done]).
  apply Z.log2_lt_pow2; [lia|]; rewrite Z.log2_lor by (done || lia).
  change (Z.log2 PTE_V) with 0; destruct (decide (perm = 0)) as [->|]; [done|].
  assert (Z.log2 perm < 10) by (apply Z.log2_lt_pow2; lia); lia.
Qed.

Section mkpte.
Variables pa perm : Z.
Hypothesis Hpa : is_frame pa.
Hypothesis Hperm : 0 <= perm < 2 ^ 10.

Lemma mkpte_range : 0 <= mkpte pa perm < 2 ^ 64.
Proof using Hpa Hperm. rewrite mkpte_eq; apply PTE_range; auto using lor_V_range. Qed.

Lemma mkpte_pa : PTE2PA (mkpte pa perm) = pa.
Proof using Hpa Hperm. rewrite mkpte_eq; apply PTE2PA_lor; auto using lor_V_range. Qed.

Lemma mkpte_flags : PTE_FLAGS (mkpte pa perm) = Z.lor perm PTE_V.
Proof using Hpa Hperm. rewrite mkpte_eq; apply PTE_FLAGS_lor; auto using lor_V_range. Qed.

Lemma mkpte_bit b : 1 <= b < 10 -> has (mkpte pa perm) (Z.shiftl 1 b) = has perm (Z.shiftl 1 b).
Proof using Hpa Hperm.
  intros Hb; rewrite mkpte_eq, has_lor by (auto using lor_V_range; lia).
  unfold has; rewrite Z.land_lor_distr_l.
  replace (Z.land PTE_V (Z.shiftl 1 b)) with 0; [by rewrite Z.lor_0_r|].
  apply Z.bits_inj'; intros i Hi; rewrite Z.bits_0, Z.land_spec.
  change PTE_V with (2 ^ 0); rewrite Z.shiftl_1_l, !Z.pow2_bits_eqb by lia.
  destruct (Z.eqb_spec 0 i), (Z.eqb_spec b i); simpl; lia.
Qed.

Lemma mkpte_V : has (mkpte pa perm) PTE_V = true.
Proof using Hpa Hperm.
  change (has (mkpte pa perm) (Z.shiftl 1 0) = true).
  rewrite mkpte_eq, has_lor by (auto using lor_V_range; lia).
  unfold has; rewrite Z.land_lor_distr_l; change (Z.shiftl 1 0) with 1; change PTE_V with 1.
  unfold truth; rewrite Z.land_diag.
  destruct (Z.eqb_spec (Z.lor (Z.land perm 1) 1) 0) as [E|]; [|done].
  apply Z.lor_eq_0_iff in E as [_ E]; discriminate E.
Qed.
End mkpte.

Section map.
Variable kend : Z.

(** From [s] to [s'] the represented map became [F]; pages taken from the free
    list became tables or are in [own]; nothing changed outside the old free
    pages, the tables and the pages of [Q]. *)
Record vm_change (root : Z) (s : pmem) (tb : tables) (fl : list Z)
    (s' : pmem) (tb' : tables) (fl' : list Z) (F : Z -> Z) : Prop := VmChange {
  vc_inv : vm_inv kend s' root tb' fl';
  vc_sub : tb ⊆ tb';
  vc_fl : exists used, fl = used ++ fl' /\
    (forall p, is_table tb' p <-> is_table tb p \/ p ∈ used);
  vc_leaf : forall v, leaf (pm_mem s') tb' v = F v;
  vc_frame : frame (fun p => p ∈ fl \/ is_table tb p) (pm_mem s) (pm_mem s')
}.

Lemma vm_change_trans root s1 tb1 fl1 s2 tb2 fl2 s3 tb3 fl3 F G :
  vm_change root s1 tb1 fl1 s2 tb2 fl2 F -> vm_change root s2 tb2 fl2 s3 tb3 fl3 G ->
  vm_change root s1 tb1 fl1 s3 tb3 fl3 G.
Proof.
  intros [I1 S1 (u1 & F1 & T1) L1 R1] [I2 S2 (u2 & F2 & T2) L2 R2]; split.
  - done.
  - by transitivity tb2.
  - exists (u1 ++ u2); split; [by rewrite F1, F2, app_assoc|].
    intros p; rewrite T2, T1, elem_of_app; tauto.
  - done.
  - eapply frame_trans; [exact R1|]; eapply frame_mono; [|exact R2].
    intros p [Hp|Hp]; [left; rewrite F1; set_solver|].
    apply T1 in Hp as []; [by right|left; rewrite F1; set_solver].
Qed.

Lemma vm_change_ext root s tb fl s' tb' fl' F G :
  (forall v, F v = G v) ->
  vm_change root s tb fl s' tb' fl' F -> vm_change root s tb fl s' tb' fl' G.
Proof. intros HFG [H1 H2 H3 H4 H5]; split; auto; intros v; by rewrite H4. Qed.

Lemma grow_change root s tb fl s' tb' fl' :
  vm_grow kend root s tb fl s' tb' fl' ->
  vm_change root s tb fl s' tb' fl' (leaf (pm_mem s) tb).
Proof. intros [H1 H2 H3 H4 H5]; by split. Qed.

(** ** Page ownership

    [ps] are the pages a caller of the allocator holds: valid, distinct, not
    free and not part of the page table. *)
Definition vm_own (s : pmem) (root : Z) (tb : tables) (fl ps : list Z) : Prop :=
  vm_inv kend s root tb fl /\ NoDup (ps ++ fl) /\
  Forall (fun p => page_ok kend p /\ ~ is_table tb p) ps.

(** A step conserves the pages: those owned or free before are owned, free or
    tables after. *)
Record vm_step (root : Z) (s : pmem) (tb : tables) (fl ps : list Z)
    (s' : pmem) (tb' : tables) (fl' ps' : list Z) (F : Z -> Z) : Prop := VmStep {
  vs_own : vm_own s' root tb' fl' ps';
  vs_sub : tb ⊆ tb';
  vs_pages : exists ts, ps ++ fl ≡ₚ ts ++ ps' ++ fl' /\
    (forall p, is_table tb' p <-> is_table tb p \/ p ∈ ts);
  vs_leaf : forall v, leaf (pm_mem s') tb' v = F v;
  vs_frame : frame (fun p => p ∈ ps ++ fl \/ is_table tb p) (pm_mem s) (pm_mem s')
}.

Lemma vm_step_refl root s tb fl ps :
  vm_own s root tb fl ps -> vm_step root s tb fl ps s tb fl ps (leaf (pm_mem s) tb).
Proof. intros Ho; split; auto using frame_refl; exists []; split; [done|set_solver]. Qed.

Lemma vm_step_trans root s1 tb1 fl1 ps1 s2 tb2 fl2 ps2 s3 tb3 fl3 ps3 F G :
  vm_step root s1 tb1 fl1 ps1 s2 tb2 fl2 ps2 F -> vm_step root s2 tb2 fl2 ps2 s3 tb3 fl3 ps3 G ->
  vm_step root s1 tb1 fl1 ps1 s3 tb3 fl3 ps3 G.
Proof.
  intros [O1 S1 (t1 & P1 & T1) L1 R1] [O2 S2 (t2 & P2 & T2) L2 R2]; split; auto.
  - by transitivity tb2.
  - exists (t1 ++ t2); split; [by rewrite P1, P2, !app_assoc|].
    intros p; rewrite T2, T1, elem_of_app; tauto.
  - eapply frame_trans; [exact R1|]; eapply frame_mono; [|exact R2].
    intros p; rewrite P1, T1; set_solver.
Qed.

Lemma vm_step_ext root s tb fl ps s' tb' fl' ps' F G :
  (forall v, F v = G v) ->
  vm_step root s tb fl ps s' tb' fl' ps' F -> vm_step root s tb fl ps s' tb' fl' ps' G.
Proof. intros HFG [H1 H2 H3 H4 H5]; split; auto; intros v; by rewrite H4. Qed.

Lemma vm_own_perm s root tb fl ps ps' :
  ps ≡ₚ ps' -> vm_own s root tb fl ps -> vm_own s root tb fl ps'.
Proof. intros Hp (H1 & H2 & H3); split_and!; [done|by rewrite <- Hp|by rewrite <- Hp]. Qed.

Lemma vm_own_kmem s root tb fl ps : vm_own s root tb fl ps -> kmem_inv kend s fl.
Proof. by intros ((? & _) & _). Qed.

(** Mapping takes pages from the free list for tables only. *)
Lemma vm_change_step root s tb fl s' tb' fl' ps F :
  vm_own s root tb fl ps -> vm_change root s tb fl s' tb' fl' F ->
  vm_step root s tb fl ps s' tb' fl' ps F.
Proof.
  intros (Hv & Hn & Hps) [C1 C2 (u & C3 & C4) C5 C6]; split; auto.
  - split_and!; [done|rewrite C3 in Hn; apply NoDup_app in Hn as (? & ? & Hn);
      apply NoDup_app in Hn as (? & ? & ?); apply NoDup_app; set_solver|].
    rewrite Forall_forall in Hps |- *; intros p Hp; destruct (Hps p Hp) as [Hok Ht]; split; [done|].
    rewrite C4; intros [|Hu]; [done|]; apply NoDup_app in Hn as (_ & Hn & _); set_solver.
  - exists u; split; [|done]; rewrite C3, !app_assoc; f_equiv; apply Permutation_app_comm.
  - eapply frame_mono; [|exact C6]; set_solver.
Qed.

Hypothesis kend_pos : 0 < kend.
#[local] Set Default Proof Using "kend_pos".

(** ** mappages *)

Lemma walk_slot s root tb fl va b :
  vm_inv kend s root tb fl -> 0 <= va < MAXVA -> tb !! (0%nat, va / 2 ^ 21) = Some b ->
  tb !! (0%nat, va / 4096 / 512) = Some b /\
  b + 8 * PX 0 va = b + 8 * (va / 4096 mod 512) /\
  (b + 8 * PX 0 va =? 0) = false /\
  load64 (pm_mem s) (b + 8 * PX 0 va) = leaf (pm_mem s) tb (va / 4096).
Proof.
  intros (_ & Hi & _) Hva Hb; destruct (vpn_split va Hva) as [Hq Hr].
  unfold leaf; rewrite Hr, Hq, Hb; split_and!; auto.
  eapply slot_pos; eauto; apply PX_range; lia.
Qed.

Lemma mappages_run (n : nat) root va pa perm c s :
  (0 < n)%nat -> va mod 4096 = 0 -> 0 <= va -> va + 4096 * Z.of_nat n <= MAXVA ->
  mappages root va (4096 * Z.of_nat n) pa perm c s =
  mappages_loop n root va (va + 4096 * Z.of_nat n - 4096) pa perm c s.
Proof using.
  rewrite MAXVA_eq; intros Hn Hal Hva Hmax.
  unfold mappages, PGSIZE; rewrite Hal, (Z.mul_comm 4096), Z.mod_mul, Z.div_mul, Nat2Z.id by lia.
  replace (Z.of_nat n * 4096 =? 0) with false by lia; cbn [Z.eqb negb].
  by rewrite u64_small by lia.
Qed.

(** One turn of the loop: the entry is written, or memory is exhausted. *)
Lemma mappages_turn s root tb fl f a last pa perm c :
  vm_inv kend s root tb fl -> 0 <= a < MAXVA -> O_kmem ∉ held c ->
  is_frame pa -> 0 <= perm < 2 ^ 10 ->
  has (leaf (pm_mem s) tb (a / 4096)) PTE_V = false ->
  exists s' tb' fl', new_keys (on_path a) tb tb' /\
   ((vm_change root s tb fl s' tb' fl'
       (fun v => if decide (v = a / 4096) then mkpte pa perm else leaf (pm_mem s) tb v) /\
     mappages_loop (S f) root a last pa perm c s =
     if a =? last then Ret 0 c s'
     else mappages_loop f root (u64 (a + PGSIZE)) last (u64 (pa + PGSIZE)) perm c s') \/
    (vm_change root s tb fl s' tb' fl' (leaf (pm_mem s) tb) /\ fl' = [] /\
     tb' !! (0%nat, a / 2 ^ 21) = None /\
     mappages_loop (S f) root a last pa perm c s = Ret (-1) c s')).
Proof.
  intros Hv Ha Hc Hpa Hperm Hno.
  destruct (walk_alloc kend kend_pos s root tb fl a c Hv Ha Hc)
    as (s1 & tb1 & fl1 & Hg & Hnk & [(b & Hb & Hw)|(-> & Hnone & Hw)]).
  - destruct (walk_slot s1 root tb1 fl1 a b (vg_inv _ _ _ _ _ _ _ _ Hg) Ha Hb)
      as (Hb' & Hslot & Hnz & Hld).
    rewrite (vg_leaf _ _ _ _ _ _ _ _ Hg) in Hld.
    destruct (set_leaf kend s1 root tb1 fl1 (a / 4096) b (mkpte pa perm)
                (vg_inv _ _ _ _ _ _ _ _ Hg) Hb' (mkpte_range pa perm Hpa Hperm))
      as (Hv2 & Hl2 & Hf2).
    eexists _, tb1, fl1; split; [done|]; left; split; cycle 1.
    + cbn [mappages_loop]; unfold kbind, peek; rewrite Hw, Hnz, Hld, Hno.
      unfold poke, kmod; rewrite Hslot; by destruct (a =? last).
    + destruct Hg as [G1 G2 (u & G3 & G3') G4 G5]; split; auto.
      * by exists u.
      * intros v; rewrite Hl2; case_decide; [done|apply G4].
      * eapply frame_trans; [exact G5|]; eapply frame_mono; [|exact Hf2].
        intros p ->; destruct (proj1 (G3' b)) as [Ht|Hu]; [by eexists|by right|].
        left; rewrite G3; set_solver.
  - exists s1, tb1, []; split; [done|]; right; split_and!; [by apply grow_change|done|done|].
    cbn [mappages_loop]; unfold kbind; by rewrite Hw.
Qed.

(** [n] pages from [va]: the first [k] entries are written, all of them unless
    memory runs out. *)
Lemma mappages_loop_spec (n : nat) s root tb fl va pa perm c :
  vm_inv kend s root tb fl -> O_kmem ∉ held c -> 0 <= perm < 2 ^ 10 ->
  (0 < n)%nat -> va mod 4096 = 0 -> 0 <= va -> va + 4096 * Z.of_nat n <= MAXVA ->
  is_frame pa -> pa + 4096 * Z.of_nat n <= 2 ^ 56 ->
  (forall v, va / 4096 <= v < va / 4096 + Z.of_nat n -> has (leaf (pm_mem s) tb v) PTE_V = false) ->
  exists s' tb' fl' (k : nat),
    vm_change root s tb fl s' tb' fl'
      (fun v => if decide (va / 4096 <= v < va / 4096 + Z.of_nat k)
                then mkpte (pa + 4096 * (v - va / 4096)) perm else leaf (pm_mem s) tb v) /\
    new_keys (fun x => exists a, va <= a < va + 4096 * Z.of_nat n /\ on_path a x) tb tb' /\
    ((k = n /\ mappages_loop n root va (va + 4096 * Z.of_nat n - 4096) pa perm c s = Ret 0 c s') \/
     ((k < n)%nat /\ fl' = [] /\ tb' !! (0%nat, (va + 4096 * Z.of_nat k) / 2 ^ 21) = None /\
      mappages_loop n root va (va + 4096 * Z.of_nat n - 4096) pa perm c s = Ret (-1) c s')).
Proof.
  revert s tb fl va pa; induction n as [|n IH]; intros s tb fl va pa Hv Hc Hperm Hn Hal Hva Hmax Hpa Hpm Hno;
    [lia|].
  rewrite MAXVA_eq in *.
  pose proof (Z.div_mod va 4096 ltac:(lia)) as Hdm.
  destruct (mappages_turn s root tb fl n va (va + 4096 * Z.of_nat (S n) - 4096) pa perm c)
    as (s1 & tb1 & fl1 & Hnk & [[Hch Hrun]|(Hch & -> & Hmiss & Hrun)]); auto; [rewrite MAXVA_eq; lia|apply Hno; lia| |];
    assert (Hnk' : new_keys (fun x => exists a, va <= a < va + 4096 * Z.of_nat (S n) /\ on_path a x) tb tb1)
      by (intros x [|]%Hnk; [by left|right; exists va; split; [lia|done]]).
  2: { exists s1, tb1, [], O; split_and!; [|done|right; split_and!; [lia|done|by rewrite Z.add_0_r|done]].
       eapply vm_change_ext; [|exact Hch]; intros v; simpl; rewrite decide_False by lia; done. }
  rewrite Hrun; destruct n as [|n].
  { replace (va =? va + 4096 * Z.of_nat 1 - 4096) with true by lia.
    exists s1, tb1, fl1, 1%nat; split_and!; [|done|by left].
    eapply vm_change_ext; [|exact Hch]; intros v; simpl; repeat case_decide; try lia.
    subst v; f_equal; lia. }
  replace (va =? va + 4096 * Z.of_nat (S (S n)) - 4096) with false by lia.
  unfold PGSIZE; rewrite !u64_small by (destruct Hpa; lia).
  assert (Hva' : (va + 4096) / 4096 = va / 4096 + 1) by (rewrite <- Z.div_add by lia; f_equal; lia).
  destruct (IH s1 tb1 fl1 (va + 4096) (pa + 4096)) as (s2 & tb2 & fl2 & k & Hch2 & Hnk2 & Hcase); auto;
    try lia.
  { apply (vc_inv _ _ _ _ _ _ _ _ Hch). }
  { rewrite <- (Z.mul_1_l 4096), Z.mod_add by lia; done. }
  { destruct Hpa as [Hr Hm]; split; [lia|]; rewrite <- (Z.mul_1_l 4096), Z.mod_add by lia; done. }
  { intros v Hvv; rewrite (vc_leaf _ _ _ _ _ _ _ _ Hch), decide_False by lia; apply Hno; lia. }
  replace (va + 4096 + 4096 * Z.of_nat (S n) - 4096) with
    (va + 4096 * Z.of_nat (S (S n)) - 4096) in Hcase by lia.
  exists s2, tb2, fl2, (S k); split_and!.
  2: { eapply new_keys_trans; [exact Hnk'|]; intros x [|(a & Ha & Hx)]%Hnk2; [by left|right; exists a; split; [lia|done]]. }
  2: { destruct Hcase as [[-> H]|(H & -> & H' & H'')]; [by left|right]; split_and!; auto with lia.
       by replace (va + 4096 * Z.of_nat (S k)) with (va + 4096 + 4096 * Z.of_nat k) by lia. }
  eapply vm_change_trans; [exact Hch|]; eapply vm_change_ext; [|exact Hch2].
  intros v; rewrite Hva', (vc_leaf _ _ _ _ _ _ _ _ Hch); repeat case_decide; try lia; try done.
  - f_equal; lia.
  - subst v; f_equal; lia.
Qed.

(** ** Steps of the allocator *)

(** A write to an owned page. *)
Lemma step_write root s tb fl ps p m' :
  vm_own s root tb fl ps -> p ∈ ps -> mem_ok m' -> frame (fun q => q = p) (pm_mem s) m' ->
  vm_step root s tb fl ps (PMem m' (freelist s)) tb fl ps (leaf (pm_mem s) tb).
Proof.
  intros ((Hk & Hi & Hd) & Hn & Hps) Hp Hm Hf.
  pose proof Hps as Hps'; rewrite Forall_forall in Hps'; destruct (Hps' p Hp) as [[Hpa _] Hpt].
  assert (HP : forall q, q = p -> q mod 4096 = 0 /\ ~ is_table tb q) by (by intros q ->).
  split.
  - split_and!; auto; split_and!; auto.
    + apply (kmem_inv_mem kend s m' fl); auto.
      intros q x Hq Hx; apply Hf; intros r -> Hx'.
      destruct Hk as (_ & _ & _ & Hok); rewrite Forall_forall in Hok; destruct (Hok q Hq) as [Hqa _].
      rewrite (in_page_inj q p x) in Hq by done; apply NoDup_app in Hn as (_ & Hn & _); set_solver.
    + by eapply pt_inv_frame.
  - done.
  - exists []; split; [done|set_solver].
  - intros v; by eapply leaf_frame.
  - eapply frame_mono; [|exact Hf]; intros q ->; left; set_solver.
Qed.

Lemma step_zero root s tb fl ps p :
  vm_own s root tb fl ps -> p ∈ ps ->
  vm_step root s tb fl ps (with_mem (fun m => memset m p 0 PGSIZE) s) tb fl ps (leaf (pm_mem s) tb).
Proof.
  intros Ho Hp; pose proof Ho as (((Hm & _) & _) & _).
  apply (step_write root s tb fl ps p); auto with cmem.
  intros x Hx; apply memset_out; specialize (Hx p eq_refl); unfold in_page in Hx; unfold PGSIZE; lia.
Qed.

Lemma step_kalloc root s tb fl ps p c :
  vm_own s root tb (p :: fl) ps -> O_kmem ∉ held c ->
  exists s', kalloc c s = Ret p c s' /\ (p =? 0) = false /\
    vm_step root s tb (p :: fl) ps s' tb fl (p :: ps) (leaf (pm_mem s) tb) /\
    frame (fun q => q = p) (pm_mem s) (pm_mem s').
Proof.
  intros ((Hk & Hi & Hd) & Hn & Hps) Hc.
  destruct (kalloc_spec kend kend_pos p fl c s Hk Hc) as (s' & Hrun & Hk' & Hp & Hpf & Hout).
  assert (Hpt : ~ is_table tb p) by (intros Ht; apply (Hd p Ht); left).
  assert (Hf : frame (fun q => q = p) (pm_mem s) (pm_mem s')) by (intros x Hx; apply Hout; auto).
  assert (HP : forall q, q = p -> q mod 4096 = 0 /\ ~ is_table tb q)
    by (intros q ->; by destruct Hp).
  exists s'; split_and!; [done|pose proof (page_pos kend kend_pos p Hp); lia| |done]; split.
  - split_and!; [split_and!| |]; auto.
    + by eapply pt_inv_frame.
    + intros q Hq Hqf; apply (Hd q Hq); by right.
    + by rewrite <- app_comm_cons, Permutation_middle.
  - done.
  - exists []; split; [|set_solver]; simpl; by rewrite Permutation_middle.
  - intros v; by eapply leaf_frame.
  - eapply frame_mono; [|exact Hf]; intros q ->; left; set_solver.
Qed.

Lemma step_kfree root s tb fl ps p c :
  vm_own s root tb fl (p :: ps) -> O_kmem ∉ held c ->
  exists s', kfree kend p c s = Ret tt c s' /\
    vm_step root s tb fl (p :: ps) s' tb (p :: fl) ps (leaf (pm_mem s) tb) /\
    frame (fun q => q = p) (pm_mem s) (pm_mem s').
Proof.
  intros ((Hk & Hi & Hd) & Hn & [[Hp Hpt] Hps]%Forall_cons) Hc.
  assert (Hpf : p ∉ fl) by (simpl in Hn; apply NoDup_cons in Hn; set_solver).
  destruct (kfree_spec kend kend_pos p c s fl Hk Hp Hpf Hc) as (s' & Hrun & Hk' & Hout).
  assert (Hf : frame (fun q => q = p) (pm_mem s) (pm_mem s')) by (intros x Hx; apply Hout; auto).
  assert (HP : forall q, q = p -> q mod 4096 = 0 /\ ~ is_table tb q)
    by (intros q ->; by destruct Hp).
  exists s'; split_and!; [done| |done]; split.
  - split_and!; [split_and!| |]; auto.
    + by eapply pt_inv_frame.
    + intros q Hq [->|Hqf]%elem_of_cons; [done|by apply (Hd q Hq)].
    + by rewrite <- Permutation_middle.
  - done.
  - exists []; split; [|set_solver]; simpl; by rewrite Permutation_middle.
  - intros v; by eapply leaf_frame.
  - eapply frame_mono; [|exact Hf]; intros q ->; left; set_solver.
Qed.

Lemma step_set_leaf root s tb fl ps v b pte :
  vm_own s root tb fl ps -> tb !! (0%nat, v / 512) = Some b -> 0 <= pte < 2 ^ 64 ->
  vm_step root s tb fl ps (with_mem (fun m => store64 m (b + 8 * (v mod 512)) pte) s) tb fl ps
    (fun v' => if decide (v' = v) then pte else leaf (pm_mem s) tb v') /\
  frame (is_table tb) (pm_mem s) (store64 (pm_mem s) (b + 8 * (v mod 512)) pte).
Proof.
  intros (Hv & Hn & Hps) Hb Hr.
  destruct (set_leaf kend s root tb fl v b pte Hv Hb Hr) as (Hv' & Hl & Hf).
  assert (Ht : is_table tb b) by (by eexists).
  split; [split; auto|].
  - done.
  - exists []; split; [done|set_solver].
  - eapply frame_mono; [|exact Hf]; intros q ->; by right.
  - eapply frame_mono; [|exact Hf]; by intros q ->.
Qed.
End map.
