(* ===== verification/VmUser.v ===== *)
(** * User address spaces

    Growing, shrinking and copying an address space: no page is leaked, no
    page is shared, and a failure leaves the old map. *)

From S2P Require Import Prelude CMem KString Riscv Kalloc Vm VmInv VmMap.

Lemma frame_end pa : is_frame pa -> pa + 4096 * Z.of_nat 1 <= 2 ^ 56.
Proof. intros [Hr Hm]; pose proof (Z.div_mod pa 4096 ltac:(lia)); lia. Qed.

(** The page frames of [n] entries of a map. *)
Fixpoint frames (L : Z -> Z) (v : Z) (n : nat) : list Z :=
  match n with
  | O => []
  | S n' => PTE2PA (L v) :: frames L (v + 1) n'
  end.

Lemma frames_ext L L' v n :
  (forall i, v <= i < v + Z.of_nat n -> L i = L' i) -> frames L v n = frames L' v n.
Proof.
  revert v; induction n as [|n IH]; intros v H; [done|]; cbn [frames].
  rewrite H by lia; f_equal; apply IH; intros; apply H; lia.
Qed.

Lemma elem_of_frames L v n p :
  p ∈ frames L v n <-> exists i, v <= i < v + Z.of_nat n /\ p = PTE2PA (L i).
Proof.
  revert v; induction n as [|n IH]; intros v; cbn [frames].
  - split; [intros H; inversion H|intros (i & Hi & _); lia].
  - rewrite elem_of_cons, IH; split.
    + intros [->|(i & Hi & ->)]; [exists v|exists i]; split; (lia || done).
    + intros (i & Hi & ->); destruct (decide (i = v)) as [->|]; [by left|right].
      exists i; split; [lia|done].
Qed.

Lemma frames_snoc L v n : frames L v (S n) = frames L v n ++ [PTE2PA (L (v + Z.of_nat n))].
Proof.
  revert v; induction n as [|n IH]; intros v; [cbn; by rewrite Z.add_0_r|].
  change (frames L v (S (S n))) with (PTE2PA (L v) :: frames L (v + 1) (S n)).
  rewrite IH; by replace (v + 1 + Z.of_nat n) with (v + Z.of_nat (S n)) by lia.
Qed.

(** An entry [uvmunmap] accepts. *)
Definition unmappable (pte : Z) : bool := has pte PTE_V && negb (PTE_FLAGS pte =? PTE_V).

Definition cleared (L : Z -> Z) (v : Z) (n : nat) : Z -> Z :=
  fun i => if decide (v <= i < v + Z.of_nat n) then 0 else L i.

Lemma leaf_some m tb v : leaf m tb v <> 0 -> exists b, tb !! (0%nat, v / 512) = Some b.
Proof. unfold leaf; destruct (tb !! _) as [b|]; [by exists b|done]. Qed.

(** Whole pages up to a size. *)
Definition npages (sz : Z) : Z := (sz + 4095) / 4096.

Lemma npages_mul v : npages (v * 4096) = v.
Proof. unfold npages; rewrite Z.div_add_l by lia; change (4095 / 4096) with 0; lia. Qed.

Section user.
Variable kend : Z.
Hypothesis kend_pos : 0 < kend.
#[local] Set Default Proof Using "kend_pos".
Local Notation "'step'" := (vm_step kend) (only parsing).

(** ** mappages, one page *)

Lemma mappages_page s root tb fl ps va pa perm c :
  vm_own kend s root tb fl ps -> O_kmem ∉ held c -> 0 <= perm < 2 ^ 10 ->
  va mod 4096 = 0 -> 0 <= va < MAXVA -> is_frame pa ->
  has (leaf (pm_mem s) tb (va / 4096)) PTE_V = false ->
  exists s' tb' fl',
    frame (fun p => p ∈ fl \/ is_table tb p) (pm_mem s) (pm_mem s') /\
    ((step root s tb fl ps s' tb' fl' ps
        (fun v => if decide (v = va / 4096) then mkpte pa perm else leaf (pm_mem s) tb v) /\
      mappages root va PGSIZE pa perm c s = Ret 0 c s') \/
     (step root s tb fl ps s' tb' fl' ps (leaf (pm_mem s) tb) /\ fl' = [] /\
      mappages root va PGSIZE pa perm c s = Ret (-1) c s')).
Proof.
  intros Ho Hc Hperm Hal Hva Hpa Hno; pose proof Ho as (Hv & _).
  pose proof (Z.div_mod va 4096 ltac:(lia)); rewrite MAXVA_eq in Hva.
  destruct (mappages_loop_spec kend kend_pos 1 s root tb fl va pa perm c)
    as (s' & tb' & fl' & k & Hch & _ & Hcase); auto; try lia; [rewrite MAXVA_eq; lia|by apply frame_end| |].
  { intros v Hv'; by replace v with (va / 4096) by lia. }
  exists s', tb', fl'; split; [apply (vc_frame _ _ _ _ _ _ _ _ _ Hch)|].
  apply (vm_change_step kend root s tb fl s' tb' fl' ps _ Ho) in Hch.
  change PGSIZE with (4096 * Z.of_nat 1); rewrite mappages_run by (rewrite ?MAXVA_eq; lia).
  destruct Hcase as [[-> Hr]|(Hk & -> & _ & Hr)]; [left|right]; (split; [|done]);
    (eapply vm_step_ext; [|exact Hch]); intros v; cbv beta.
  - repeat case_decide; try lia; subst; f_equal; lia.
  - rewrite decide_False by lia; done.
Qed.

(** ** uvmunmap *)

Lemma uvmunmap_turn root s tb fl ps f va lim c :
  let L := leaf (pm_mem s) tb in
  let p := PTE2PA (L (va / 4096)) in
  vm_own kend s root tb fl (p :: ps) -> O_kmem ∉ held c ->
  0 <= va < MAXVA -> va < lim -> unmappable (L (va / 4096)) = true ->
  exists s',
    uvmunmap_loop kend (S f) root va lim true c s =
      uvmunmap_loop kend f root (u64 (va + PGSIZE)) lim true c s' /\
    step root s tb fl (p :: ps) s' tb (p :: fl) ps
      (fun v => if decide (v = va / 4096) then 0 else L v) /\
    frame (fun q => q = p \/ is_table tb q) (pm_mem s) (pm_mem s').
Proof.
  intros L p Ho Hc Hva Hlim [HV HF]%andb_true_iff; pose proof Ho as ((_ & Hi & _) & _).
  destruct (leaf_some (pm_mem s) tb (va / 4096)) as [b Hb].
  { fold L; intros E; by rewrite E, has_0 in HV. }
  destruct (step_kfree kend kend_pos root s tb fl ps p c Ho Hc) as (s1 & Hfree & Hs1 & Hf1).
  destruct (step_set_leaf kend kend_pos root s1 tb (p :: fl) ps (va / 4096) b 0 (vs_own _ _ _ _ _ _ _ _ _ _ _ Hs1) Hb)
    as [Hs2 Hf2]; [lia|].
  eexists; split_and!.
  - cbn [uvmunmap_loop]; replace (va <? lim) with true by lia.
    rewrite (walk_read kend kend_pos s root tb va) by done.
    destruct (vpn_split va Hva) as [Hq Hr]; rewrite Hq in Hb; rewrite Hb; fold L p.
    rewrite HV; apply negb_true_iff in HF; rewrite HF; cbn [negb].
    unfold kbind at 1; rewrite Hfree; unfold kbind, poke, kmod; by rewrite <- Hr.
  - eapply vm_step_ext; [|eapply vm_step_trans; [exact Hs1|exact Hs2]].
    intros v; cbv beta; by rewrite (vs_leaf _ _ _ _ _ _ _ _ _ _ _ Hs1).
  - eapply frame_trans; (eapply frame_mono; [|eassumption]); cbv beta; auto.
Qed.

Lemma uvmunmap_loop_spec n f root s tb fl ps va c :
  let L := leaf (pm_mem s) tb in
  let qs := frames L (va / 4096) n in
  vm_own kend s root tb fl (qs ++ ps) -> O_kmem ∉ held c -> (n < f)%nat ->
  0 <= va -> va mod 4096 = 0 -> va + 4096 * Z.of_nat n <= MAXVA ->
  (forall v, va / 4096 <= v < va / 4096 + Z.of_nat n -> unmappable (L v) = true) ->
  exists s',
    uvmunmap_loop kend f root va (va + 4096 * Z.of_nat n) true c s = Ret tt c s' /\
    step root s tb fl (qs ++ ps) s' tb (rev qs ++ fl) ps (cleared L (va / 4096) n) /\
    frame (fun q => q ∈ qs \/ is_table tb q) (pm_mem s) (pm_mem s').
Proof.
  revert f s fl va; induction n as [|n IH]; intros f s fl va L qs Ho Hc Hf Hva Hal Hmax HL;
    (destruct f as [|f]; [lia|]).
  { exists s; split_and!; [|apply vm_step_ext with L|by apply frame_refl].
    - cbn [uvmunmap_loop]; by replace (va <? _) with false by lia.
    - intros v; unfold cleared; by rewrite decide_False by lia.
    - by apply vm_step_refl. }
  rewrite MAXVA_eq in Hmax; pose proof (Z.div_mod va 4096 ltac:(lia)).
  cbn [frames] in qs; set (p := PTE2PA (L (va / 4096))) in *.
  set (qs' := frames L (va / 4096 + 1) n) in *.
  destruct (uvmunmap_turn root s tb fl (qs' ++ ps) f va (va + 4096 * Z.of_nat (S n)) c)
    as (s1 & Hrun & Hs1 & Hf1); auto; [rewrite MAXVA_eq; lia|lia|apply HL; lia|].
  rewrite Hrun; unfold PGSIZE; rewrite u64_small by lia.
  assert (Hd : (va + 4096) / 4096 = va / 4096 + 1) by (rewrite <- Z.div_add by lia; f_equal; lia).
  pose proof (vs_leaf _ _ _ _ _ _ _ _ _ _ _ Hs1) as HL1.
  assert (Hqs : frames (leaf (pm_mem s1) tb) ((va + 4096) / 4096) n = qs').
  { rewrite Hd; apply frames_ext; intros i Hi; rewrite HL1; by rewrite decide_False by lia. }
  destruct (IH f s1 (p :: fl) (va + 4096)) as (s2 & Hrun2 & Hs2 & Hf2);
    rewrite ?Hqs; auto; try lia.
  { apply (vs_own _ _ _ _ _ _ _ _ _ _ _ Hs1). }
  { rewrite <- (Z.mul_1_l 4096), Z.mod_add by lia; done. }
  { rewrite MAXVA_eq; lia. }
  { intros v Hv; rewrite HL1, decide_False by lia; apply HL; lia. }
  rewrite Hqs in Hs2, Hf2; exists s2; split_and!.
  - rewrite <- Hrun2; f_equal; lia.
  - change (rev qs) with (rev qs' ++ [p]); rewrite <- app_assoc; cbn [app]; eapply vm_step_trans; [exact Hs1|].
    eapply vm_step_ext; [|exact Hs2]; intros v; unfold cleared; rewrite HL1, Hd.
    repeat case_decide; try lia; done.
  - change qs with (p :: qs').
    eapply frame_trans; (eapply frame_mono; [|eassumption]); cbv beta; set_solver.
Qed.

Lemma uvmunmap_spec root s tb fl ps va n c :
  let L := leaf (pm_mem s) tb in
  let qs := frames L (va / 4096) n in
  vm_own kend s root tb fl (qs ++ ps) -> O_kmem ∉ held c ->
  0 <= va -> va mod 4096 = 0 -> va + 4096 * Z.of_nat n <= MAXVA ->
  (forall v, va / 4096 <= v < va / 4096 + Z.of_nat n -> unmappable (L v) = true) ->
  exists s',
    uvmunmap kend root va (Z.of_nat n) true c s = Ret tt c s' /\
    step root s tb fl (qs ++ ps) s' tb (rev qs ++ fl) ps (cleared L (va / 4096) n) /\
    frame (fun q => q ∈ qs \/ is_table tb q) (pm_mem s) (pm_mem s').
Proof.
  intros L qs Ho Hc Hva Hal Hmax HL; unfold uvmunmap, PGSIZE; rewrite Hal; cbn [Z.eqb negb].
  rewrite MAXVA_eq in Hmax; rewrite u64_small by lia.
  replace (va + Z.of_nat n * 4096) with (va + 4096 * Z.of_nat n) by lia.
  apply uvmunmap_loop_spec; auto; rewrite ?MAXVA_eq; lia.
Qed.

(** ** uvmdealloc *)

Lemma uvmdealloc_spec root s tb fl ps oldsz newsz n c :
  let L := leaf (pm_mem s) tb in
  let qs := frames L (npages newsz) n in
  vm_own kend s root tb fl (qs ++ ps) -> O_kmem ∉ held c ->
  0 <= newsz <= oldsz -> oldsz <= MAXVA -> Z.of_nat n = npages oldsz - npages newsz ->
  (forall v, npages newsz <= v < npages oldsz -> unmappable (L v) = true) ->
  exists s',
    uvmdealloc kend root oldsz newsz c s = Ret newsz c s' /\
    step root s tb fl (qs ++ ps) s' tb (rev qs ++ fl) ps (cleared L (npages newsz) n) /\
    frame (fun q => q ∈ qs \/ is_table tb q) (pm_mem s) (pm_mem s').
Proof.
  intros L qs Ho Hc Hsz Hmax Hn HL; unfold uvmdealloc; rewrite MAXVA_eq in Hmax.
  rewrite !PGROUNDUP_eq by lia; fold (npages oldsz) (npages newsz).
  assert (Hle : npages oldsz * 4096 <= 2 ^ 38).
  { assert (npages oldsz < 2 ^ 26 + 1); [|lia].
    apply Z.div_lt_upper_bound; lia. }
  assert (H0 : 0 <= npages newsz) by (apply Z.div_pos; lia).
  assert (Hz : n = 0%nat -> step root s tb fl (qs ++ ps) s tb (rev qs ++ fl) ps (cleared L (npages newsz) n)).
  { intros ->; eapply vm_step_ext; [|by apply vm_step_refl].
    intros v; unfold cleared; by rewrite decide_False by lia. }
  destruct (oldsz <=? newsz) eqn:E.
  { assert (oldsz = newsz) as -> by lia; exists s; split_and!; [done| |apply frame_refl].
    apply Hz; lia. }
  destruct (npages newsz * 4096 <? npages oldsz * 4096) eqn:E'.
  - replace (npages oldsz * 4096 - npages newsz * 4096) with (Z.of_nat n * 4096) by lia.
    unfold PGSIZE; rewrite Z.div_mul by lia.
    rewrite i32_small, u64_small by lia.
    destruct (uvmunmap_spec root s tb fl ps (npages newsz * 4096) n c) as (s' & Hr & Hs & Hf);
      rewrite ?Z.div_mul by lia; auto; [lia|apply Z.mod_mul; lia|rewrite MAXVA_eq; lia| |].
    { intros v Hv; apply HL; lia. }
    rewrite Z.div_mul in Hs, Hf by lia; exists s'; split_and!; auto.
    unfold kbind; by rewrite Hr.
  - exists s; split_and!; [done|apply Hz; lia|apply frame_refl].
Qed.

(** ** uvmalloc *)

Lemma vm_step_perm root s tb fl ps s' tb' fl' ps' ps'' F :
  ps' ≡ₚ ps'' -> step root s tb fl ps s' tb' fl' ps' F -> step root s tb fl ps s' tb' fl' ps'' F.
Proof.
  intros Hp [H1 H2 (ts & H3 & H3') H4 H5]; split; auto; [by eapply vm_own_perm|].
  exists ts; split; [by rewrite <- Hp|done].
Qed.

(** Pages acquired by a step that keeps [ps] come from the free list. *)
Lemma vm_step_fresh root s tb fl ps s' tb' fl' qs F :
  step root s tb fl ps s' tb' fl' (qs ++ ps) F ->
  exists ts, fl ≡ₚ ts ++ qs ++ fl' /\ (forall p, is_table tb' p <-> is_table tb p \/ p ∈ ts).
Proof.
  intros [_ _ (ts & Hp & Ht) _ _]; exists ts; split; [|done].
  apply (Permutation_app_inv_l ps); rewrite Hp, <- app_assoc.
  rewrite (Permutation_app_swap_app ps ts); f_equiv; apply Permutation_app_swap_app.
Qed.

Lemma frame_fresh root s tb fl ps s' tb' fl' qs F P m :
  step root s tb fl ps s' tb' fl' (qs ++ ps) F ->
  frame (fun p => p ∈ fl \/ is_table tb p) (pm_mem s) (pm_mem s') ->
  frame P (pm_mem s') m -> (forall p, P p -> p ∈ qs \/ p ∈ fl' \/ is_table tb' p) ->
  frame (fun p => p ∈ fl \/ is_table tb p) (pm_mem s) m.
Proof.
  intros Hs Hf Hf' HP; destruct (vm_step_fresh _ _ _ _ _ _ _ _ _ _ Hs) as (ts & Hp & Ht).
  eapply frame_trans; [exact Hf|]; eapply frame_mono; [|exact Hf'].
  intros p Hpp; destruct (HP p Hpp) as [H|[H|H]]; [left|left|]; [rewrite Hp; set_solver..|].
  rewrite Ht in H; destruct H; [by right|left; rewrite Hp; set_solver].
Qed.

(** Writes to free pages and tables do not reach an owned page. *)
Lemma own_keep s root tb fl ps q x m' :
  vm_own kend s root tb fl ps -> q ∈ ps -> in_page q x ->
  frame (fun r => r ∈ fl \/ is_table tb r) (pm_mem s) m' -> m' x = pm_mem s x.
Proof.
  intros ((Hk & Hi & _) & Hnd & Hown) Hq Hxq Hf; apply Hf; intros r Hr Hxr.
  rewrite Forall_forall in Hown; destruct (Hown q Hq) as [[Hqa _] Hqt].
  assert (Hra : r mod 4096 = 0).
  { destruct Hr as [Hr|[k Hr]]; [|by destruct (pt_page _ _ _ _ Hi _ _ Hr)].
    destruct Hk as (_ & _ & _ & Hok); rewrite Forall_forall in Hok; by destruct (Hok r Hr). }
  rewrite (in_page_inj r q x Hra Hqa Hxr Hxq) in Hr; destruct Hr; [|done].
  apply NoDup_app in Hnd as (_ & Hnd & _); by apply (Hnd q).
Qed.

Section grow.
Variables (root : Z) (s0 : pmem) (tb0 : tables) (fl0 ps0 : list Z) (vb : Z) (c : kctx).
(** The flags and the bytes of the new page [v]. *)
Variables (perm : Z -> Z) (dat : Z -> Z -> Z).
Let L0 := leaf (pm_mem s0) tb0.

Hypothesis Hc : O_kmem ∉ held c.
Hypothesis Hvb : 0 <= vb.
Hypothesis Hperm : forall v, 0 <= perm v < 2 ^ 10.
Hypothesis Hleaf : forall v, Z.lor (perm v) PTE_V <> PTE_V.
#[local] Set Default Proof Using "kend_pos Hc Hvb Hperm Hleaf".

(** [k] new pages have been mapped from page [vb] on. *)
Record grown (k : nat) (s : pmem) (tb : tables) (fl : list Z) : Prop := Grown {
  g_step : step root s0 tb0 fl0 ps0 s tb fl (frames (leaf (pm_mem s) tb) vb k ++ ps0)
             (leaf (pm_mem s) tb);
  g_frame : frame (fun p => p ∈ fl0 \/ is_table tb0 p) (pm_mem s0) (pm_mem s);
  g_old : forall v, ~ (vb <= v < vb + Z.of_nat k) -> leaf (pm_mem s) tb v = L0 v;
  g_new : forall v, vb <= v < vb + Z.of_nat k -> exists p, page_ok kend p /\
    leaf (pm_mem s) tb v = mkpte p (perm v) /\
    (forall i, 0 <= i < 4096 -> pm_mem s (p + i) = dat v i)
}.

(** The address space is as it was; pages went to tables or back. *)
Record undone (s : pmem) (tb : tables) (fl : list Z) : Prop := Undone {
  u_step : step root s0 tb0 fl0 ps0 s tb fl ps0 L0;
  u_frame : frame (fun p => p ∈ fl0 \/ is_table tb0 p) (pm_mem s0) (pm_mem s)
}.

Lemma mkpte_unmappable p v : page_ok kend p -> unmappable (mkpte p (perm v)) = true.
Proof.
  intros Hp%(page_frame kend kend_pos); unfold unmappable.
  rewrite mkpte_V, mkpte_flags by done; apply negb_true_iff, Z.eqb_neq, Hleaf.
Qed.

Lemma grown_0 : vm_own kend s0 root tb0 fl0 ps0 -> grown 0 s0 tb0 fl0.
Proof.
  intros Ho; split; [by apply vm_step_refl|apply frame_refl|done|intros v Hv; lia].
Qed.

Lemma grown_own k s tb fl : grown k s tb fl -> vm_own kend s root tb fl (frames (leaf (pm_mem s) tb) vb k ++ ps0).
Proof. intros Hg; apply (vs_own _ _ _ _ _ _ _ _ _ _ _ (g_step _ _ _ _ Hg)). Qed.

Lemma grown_undo k s tb fl s' fl' :
  grown k s tb fl -> (forall v, vb <= v < vb + Z.of_nat k -> L0 v = 0) ->
  let qs := frames (leaf (pm_mem s) tb) vb k in
  step root s tb fl (qs ++ ps0) s' tb fl' ps0 (cleared (leaf (pm_mem s) tb) vb k) ->
  frame (fun q => q ∈ qs \/ is_table tb q) (pm_mem s) (pm_mem s') -> undone s' tb fl'.
Proof.
  intros Hg Hz qs Hs Hf; split.
  - eapply vm_step_ext; [|eapply vm_step_trans; [apply (g_step _ _ _ _ Hg)|exact Hs]].
    intros v; unfold cleared; case_decide as E; [symmetry; by apply Hz|by apply (g_old _ _ _ _ Hg)].
  - eapply frame_fresh; [apply (g_step _ _ _ _ Hg)|apply (g_frame _ _ _ _ Hg)|exact Hf|set_solver].
Qed.

Lemma grown_unmappable k s tb fl v :
  grown k s tb fl -> vb <= v < vb + Z.of_nat k -> unmappable (leaf (pm_mem s) tb v) = true.
Proof.
  intros Hg Hv; destruct (g_new _ _ _ _ Hg v Hv) as (p & Hp & -> & _); by apply mkpte_unmappable.
Qed.

Lemma rollback_unmap k s tb fl :
  grown k s tb fl -> vb * 4096 + 4096 * Z.of_nat k <= MAXVA ->
  (forall v, vb <= v < vb + Z.of_nat k -> L0 v = 0) ->
  exists s' fl', uvmunmap kend root (vb * 4096) (Z.of_nat k) true c s = Ret tt c s' /\
    undone s' tb fl'.
Proof.
  intros Hg Hmax Hz; pose proof (grown_own _ _ _ _ Hg) as Ho.
  destruct (uvmunmap_spec root s tb fl ps0 (vb * 4096) k c)
    as (s' & Hr & Hs & Hf); rewrite ?Z.div_mul by lia; auto; [lia|apply Z.mod_mul; lia| |].
  { intros v Hv; by apply (grown_unmappable k s tb fl). }
  rewrite Z.div_mul in Hs, Hf by lia; exists s'; eexists; split; [done|].
  by apply (grown_undo k s tb fl).
Qed.

Lemma rollback k s tb fl :
  grown k s tb fl -> vb * 4096 + 4096 * Z.of_nat k <= MAXVA ->
  (forall v, vb <= v < vb + Z.of_nat k -> L0 v = 0) ->
  exists s' fl', uvmdealloc kend root ((vb + Z.of_nat k) * 4096) (vb * 4096) c s
                   = Ret (vb * 4096) c s' /\ undone s' tb fl'.
Proof.
  intros Hg Hmax Hz; pose proof (grown_own _ _ _ _ Hg) as Ho.
  destruct (uvmdealloc_spec root s tb fl ps0 ((vb + Z.of_nat k) * 4096) (vb * 4096) k c)
    as (s' & Hr & Hs & Hf); rewrite ?npages_mul; auto; try lia.
  { intros v Hv; by apply (grown_unmappable k s tb fl). }
  rewrite npages_mul in Hs, Hf; exists s'; eexists; split; [done|].
  by apply (grown_undo k s tb fl).
Qed.

(** One page: [kalloc], then a write [w] of the whole page. *)
Lemma grab k s tb fl p (w : mem -> mem) v :
  grown k s tb (p :: fl) -> (forall m, mem_ok m -> mem_ok (w m)) ->
  (forall m, mem_ok m -> frame (fun q => q = p) m (w m)) ->
  (forall m, mem_ok m -> frame (fun q => q = p) (pm_mem s) m ->
     forall i, 0 <= i < 4096 -> w m (p + i) = dat v i) ->
  exists s1, let s2 := with_mem w s1 in
    kalloc c s = Ret p c s1 /\ (p =? 0) = false /\ page_ok kend p /\
    step root s tb (p :: fl) (frames (leaf (pm_mem s) tb) vb k ++ ps0) s2 tb fl
      (p :: frames (leaf (pm_mem s) tb) vb k ++ ps0) (leaf (pm_mem s) tb) /\
    (forall i, 0 <= i < 4096 -> pm_mem s2 (p + i) = dat v i) /\
    frame (fun q => q = p) (pm_mem s) (pm_mem s2).
Proof.
  intros Hg Hwok Hwf Hwd; pose proof (grown_own _ _ _ _ Hg) as Ho.
  destruct (step_kalloc kend kend_pos root s tb fl _ p c Ho Hc) as (s1 & Hr & Hp0 & Hs1 & Hf1).
  pose proof (vs_own _ _ _ _ _ _ _ _ _ _ _ Hs1) as Ho1; pose proof Ho1 as (((Hm1 & _) & _) & _).
  pose proof (step_write kend kend_pos root s1 tb fl _ p (w (pm_mem s1)) Ho1
                ltac:(left) (Hwok _ Hm1) (Hwf _ Hm1)) as Hs2.
  exists s1; cbv zeta; split_and!; auto.
  - destruct Ho1 as (_ & _ & [[Hp _] _]%Forall_cons); done.
  - eapply vm_step_ext; [|eapply vm_step_trans; [exact Hs1|exact Hs2]].
    intros v'; apply (vs_leaf _ _ _ _ _ _ _ _ _ _ _ Hs1).
  - by apply Hwd.
  - eapply frame_trans; [exact Hf1|by apply Hwf].
Qed.


(** A page mapped. *)
Lemma grown_S k s tb p fl s2 s3 tb3 fl3 :
  let L := leaf (pm_mem s) tb in
  grown k s tb (p :: fl) -> page_ok kend p ->
  step root s tb (p :: fl) (frames L vb k ++ ps0) s2 tb fl (p :: frames L vb k ++ ps0) L ->
  (forall i, 0 <= i < 4096 -> pm_mem s2 (p + i) = dat (vb + Z.of_nat k) i) ->
  frame (fun q => q = p) (pm_mem s) (pm_mem s2) ->
  step root s2 tb fl (p :: frames L vb k ++ ps0) s3 tb3 fl3 (p :: frames L vb k ++ ps0)
    (fun v => if decide (v = vb + Z.of_nat k) then mkpte p (perm v) else L v) ->
  frame (fun q => q ∈ fl \/ is_table tb q) (pm_mem s2) (pm_mem s3) ->
  grown (S k) s3 tb3 fl3.
Proof.
  intros L Hg Hp Hs2 Hz Hf2 Hs3 Hf3; pose proof (page_frame kend kend_pos p Hp) as Hfr.
  pose proof (vs_leaf _ _ _ _ _ _ _ _ _ _ _ Hs3) as HL.
  assert (Hfs : frames (leaf (pm_mem s3) tb3) vb (S k) = frames L vb k ++ [p]).
  { rewrite frames_snoc, HL, decide_True, mkpte_pa by done; f_equal.
    apply frames_ext; intros i Hi; by rewrite HL, decide_False by lia. }
  pose proof (vs_own _ _ _ _ _ _ _ _ _ _ _ Hs2) as Ho2.
  split.
  - rewrite Hfs; apply (vm_step_perm _ _ _ _ _ _ _ _ (p :: frames L vb k ++ ps0)).
    { rewrite <- app_assoc; simpl; by rewrite Permutation_middle. }
    eapply vm_step_ext; [|eapply vm_step_trans; [apply (g_step _ _ _ _ Hg)|eapply vm_step_trans; [exact Hs2|exact Hs3]]].
    intros v; by rewrite HL.
  - eapply frame_fresh; [apply (g_step _ _ _ _ Hg)|apply (g_frame _ _ _ _ Hg)| |].
    + apply (frame_trans (fun q => q ∈ p :: fl \/ is_table tb q) _ (pm_mem s2));
        (eapply frame_mono; [|eassumption]); cbv beta; set_solver.
    + cbv beta; tauto.
  - intros v Hv; rewrite HL, decide_False by lia; apply (g_old _ _ _ _ Hg); lia.
  - intros v Hv; rewrite HL; case_decide as E.
    + subst v; exists p; split_and!; auto; intros i Hi; rewrite <- (Hz i Hi).
      eapply (own_keep s2); [exact Ho2|left|unfold in_page; lia|done].
    + destruct (g_new _ _ _ _ Hg v) as (q & Hq & HLv & Hqz); [lia|].
      exists q; split_and!; auto; intros i Hi; assert (Hxq : in_page q (q + i)) by (unfold in_page; lia).
      assert (Hin : q ∈ frames L vb k).
      { apply elem_of_frames; exists v; split; [lia|]; unfold L; rewrite HLv.
        by rewrite mkpte_pa by (done || by apply (page_frame kend kend_pos)). }
      rewrite (own_keep s2 root tb fl _ q (q + i) (pm_mem s3) Ho2); [|set_solver|done|done].
      rewrite <- (Hqz i Hi); eapply (own_keep s _ _ _ _ q); [by apply grown_own|apply elem_of_app; by left|done|].
      eapply frame_mono; [|exact Hf2]; set_solver.
Qed.

(** No memory for a table: the page goes back. *)
Lemma undo_page k s tb p fl s2 s3 tb3 :
  let L := leaf (pm_mem s) tb in
  grown k s tb (p :: fl) -> frame (fun q => q = p) (pm_mem s) (pm_mem s2) ->
  frame (fun q => q ∈ fl \/ is_table tb q) (pm_mem s2) (pm_mem s3) ->
  step root s tb (p :: fl) (frames L vb k ++ ps0) s3 tb3 [] (p :: frames L vb k ++ ps0) L ->
  exists s4, kfree kend p c s3 = Ret tt c s4 /\ grown k s4 tb3 [p].
Proof.
  intros L Hg Hf2 Hf3 Hs3; pose proof (vs_own _ _ _ _ _ _ _ _ _ _ _ Hs3) as Ho3.
  destruct (step_kfree kend kend_pos root s3 tb3 [] _ p c Ho3 Hc) as (s4 & Hfree & Hs4 & Hf4).
  pose proof (vm_step_trans _ _ _ _ _ _ _ _ _ _ _ _ _ _ _ _ Hs3 Hs4) as Hs.
  assert (HL4 : forall v, leaf (pm_mem s4) tb3 v = L v).
  { intros v; rewrite (vs_leaf _ _ _ _ _ _ _ _ _ _ _ Hs4).
    apply (vs_leaf _ _ _ _ _ _ _ _ _ _ _ Hs3). }
  assert (Hfs : frames (leaf (pm_mem s4) tb3) vb k = frames L vb k) by (by apply frames_ext; intros; rewrite HL4).
  assert (Hf : frame (fun q => q ∈ p :: fl \/ is_table tb q) (pm_mem s) (pm_mem s4)).
  { apply (frame_trans _ _ (pm_mem s2)); [eapply frame_mono; [|exact Hf2]; set_solver|].
    apply (frame_trans _ _ (pm_mem s3)); (eapply frame_mono; [|eassumption]); cbv beta; set_solver. }
  exists s4; split; [done|]; split.
  - rewrite Hfs; eapply vm_step_ext; [|eapply vm_step_trans; [apply (g_step _ _ _ _ Hg)|exact Hs]].
    intros v; rewrite HL4; apply (vs_leaf _ _ _ _ _ _ _ _ _ _ _ Hs3).
  - eapply frame_fresh; [apply (g_step _ _ _ _ Hg)|apply (g_frame _ _ _ _ Hg)|exact Hf|].
    cbv beta; tauto.
  - intros v Hv; rewrite HL4; by apply (g_old _ _ _ _ Hg).
  - intros v Hv; rewrite HL4; destruct (g_new _ _ _ _ Hg v Hv) as (q & Hq & HLq & Hqz).
    exists q; split_and!; auto; intros i Hi; rewrite <- (Hqz i Hi).
    apply (own_keep s root tb (p :: fl) (frames L vb k ++ ps0) q); auto; [by apply grown_own| |unfold in_page; lia].
    apply elem_of_app; left; apply elem_of_frames; exists v; split; [lia|]; unfold L; rewrite HLq.
    by rewrite mkpte_pa by (done || by apply (page_frame kend kend_pos)).
Qed.

(** The body both loops share: [kalloc], a write of the page, [mappages], and
    [kfree] if that fails. *)
Lemma grow_one k s tb fl (w : Z -> mem -> mem) :
  let v := vb + Z.of_nat k in
  grown k s tb fl -> 0 <= v * 4096 < MAXVA -> L0 v = 0 ->
  (forall p m, mem_ok m -> mem_ok (w p m)) ->
  (forall p m, mem_ok m -> frame (fun q => q = p) m (w p m)) ->
  (forall p m, p ∈ fl -> mem_ok m -> frame (fun q => q = p) (pm_mem s) m ->
     forall i, 0 <= i < 4096 -> w p m (p + i) = dat v i) ->
  (fl = [] /\ kalloc c s = Ret 0 c s) \/
  exists p s1 s3 tb3 fl3, kalloc c s = Ret p c s1 /\ (p =? 0) = false /\
    ((mappages root (v * 4096) PGSIZE p (perm v) c (with_mem (w p) s1) = Ret 0 c s3 /\
      grown (S k) s3 tb3 fl3) \/
     (mappages root (v * 4096) PGSIZE p (perm v) c (with_mem (w p) s1) = Ret (-1) c s3 /\
      exists s4, kfree kend p c s3 = Ret tt c s4 /\ grown k s4 tb3 fl3)).
Proof.
  intros v Hg Hv HL0 Hwok Hwf Hwd; pose proof (grown_own _ _ _ _ Hg) as Ho.
  destruct fl as [|p fl].
  { left; split; [done|]; apply (kalloc_spec_nil kend); [by eapply vm_own_kmem|done]. }
  right; destruct (grab k s tb fl p (w p) v) as (s1 & Hka & Hp0 & Hp & Hs2 & Hz & Hf2); auto.
  { intros m; apply Hwd; left. }
  set (s2 := with_mem (w p) s1) in *; exists p, s1.
  pose proof (vs_leaf _ _ _ _ _ _ _ _ _ _ _ Hs2) as HL2.
  destruct (mappages_page s2 root tb fl _ (v * 4096) p (perm v) c (vs_own _ _ _ _ _ _ _ _ _ _ _ Hs2))
    as (s3 & tb3 & fl3 & Hf3 & [[Hs3 Hm]|(Hs3 & -> & Hm)]); auto.
  { apply Z.mod_mul; lia. }
  { by apply (page_frame kend kend_pos). }
  { rewrite HL2, Z.div_mul by lia; rewrite (g_old _ _ _ _ Hg), HL0 by lia; apply has_0. }
  - exists s3, tb3, fl3; split_and!; auto; left; split; [done|].
    eapply (grown_S k s tb p fl s2); eauto.
    eapply vm_step_ext; [|exact Hs3]; intros v'; cbv beta; rewrite Z.div_mul, HL2 by lia.
    repeat case_decide; subst; done.
  - assert (Hs3' : step root s tb (p :: fl) (frames (leaf (pm_mem s) tb) vb k ++ ps0) s3 tb3 []
               (p :: frames (leaf (pm_mem s) tb) vb k ++ ps0) (leaf (pm_mem s) tb)).
    { eapply vm_step_ext; [exact HL2|eapply vm_step_trans; [exact Hs2|exact Hs3]]. }
    destruct (undo_page k s tb p fl s2 s3 tb3 Hg Hf2 Hf3 Hs3') as (s4 & Hfree & Hg4).
    exists s3, tb3, [p]; split_and!; auto; right; split; [done|]; by exists s4.
Qed.
End grow.
End user.

(** ** A small concrete machine

    A parent page table with one user page, an empty child table and three
    free pages, on which the theorems on address spaces are instantiated. *)

Definition pg (i : Z) : Z := KERNBASE + 4096 * i.

Definition demo_flags : Z := Z.lor (Z.lor PTE_R PTE_W) PTE_U.

(** Tables in pages 0, 1 and 2, user page 3, child root 4, free 5, 6 and 7. *)
Definition demo_vmem : mem :=
  store64 (store64 (store64 (store64 (store64 (store1 (fun _ => 0) (pg 3) 42)
    (pg 0) (Z.lor (PA2PTE (pg 1)) PTE_V))
    (pg 1) (Z.lor (PA2PTE (pg 2)) PTE_V))
    (pg 2) (mkpte (pg 3) demo_flags))
    (pg 5) (pg 6)) (pg 6) (pg 7).
Definition demo_vm : pmem := PMem demo_vmem (pg 5).
Definition demo_fl : list Z := [pg 5; pg 6; pg 7].

Definition demo_tbo : tables :=
  <[(2%nat, 0) := pg 0]> (<[(1%nat, 0) := pg 1]> (<[(0%nat, 0) := pg 2]> ∅)).
Definition demo_tbn : tables := <[(2%nat, 0) := pg 4]> ∅.

Lemma demo_vmem_ok : mem_ok demo_vmem.
Proof. unfold demo_vmem; repeat (apply store64_ok || apply store1_ok); intros x; lia. Qed.

Lemma demo_vmem_zero x :
  Forall (fun i => ~ (pg i <= x < pg i + 8)) [0; 1; 2; 3; 5; 6] -> demo_vmem x = 0.
Proof.
  intros H; rewrite !Forall_cons in H; destruct H as (H0 & H1 & H2 & H3 & H5 & H6 & _).
  unfold demo_vmem; rewrite !store64_out by done; unfold store1; destruct (Z.eqb_spec x (pg 3)); [lia|done].
Qed.

Lemma demo_word i j :
  0 <= i -> 0 <= j < 512 -> j <> 0 -> load64 demo_vmem (pg i + 8 * j) = 0.
Proof.
  intros Hi Hj Hj0; apply load64_zero; intros x Hx; apply demo_vmem_zero.
  repeat (apply Forall_cons; split); [unfold pg in *..|done];
    intros [Ha Hb]; clear - Hi Hj Hj0 Hx Ha Hb; lia.
Qed.

Lemma demo_tbo_inv k b :
  demo_tbo !! k = Some b ->
  (k = (2%nat, 0) /\ b = pg 0) \/ (k = (1%nat, 0) /\ b = pg 1) \/ (k = (0%nat, 0) /\ b = pg 2).
Proof. unfold demo_tbo; rewrite !lookup_insert_Some, lookup_empty; naive_solver. Qed.

Lemma demo_tbn_inv k b : demo_tbn !! k = Some b -> k = (2%nat, 0) /\ b = pg 4.
Proof. unfold demo_tbn; rewrite lookup_insert_Some, lookup_empty; naive_solver. Qed.

Lemma pg_ok i : 0 <= i < 32768 -> page_ok KERNBASE (pg i).
Proof.
  unfold page_ok, pg, PHYSTOP, KERNBASE; intros Hi; split; [|lia].
  replace (2147483648 + 4096 * i) with ((524288 + i) * 4096) by lia; apply Z.mod_mul; lia.
Qed.

Lemma pg_inj i j : pg i = pg j -> i = j.
Proof. unfold pg; lia. Qed.

(** The parent's table. *)
Lemma demo_pt_old : pt_inv KERNBASE demo_vmem (pg 0) demo_tbo.
Proof.
  split.
  - reflexivity.
  - intros l i b [[[=] _]|[[[=] _]|[[=] _]]]%demo_tbo_inv; subst; lia.
  - intros k b [[_ ->]|[[_ ->]|[_ ->]]]%demo_tbo_inv; apply pg_ok; lia.
  - intros k k' b H1%demo_tbo_inv H2%demo_tbo_inv.
    destruct H1 as [[-> ->]|[[-> ->]|[-> ->]]], H2 as [[-> H]|[[-> H]|[-> H]]];
      try reflexivity; apply pg_inj in H; discriminate.
  - intros l i Hl [b [[[=] _]|[[[=] _]|[[=] _]]]%demo_tbo_inv]; subst; try lia; by eexists.
  - intros l i b j H Hj; apply demo_tbo_inv in H as [[[=] ->]|[[[=] ->]|[[=] _]]]; subst;
      (destruct (decide (j = 0)) as [->|Hj0]; [by vm_compute|]);
      (destruct (demo_tbo !! _) as [p|] eqn:E; [apply demo_tbo_inv in E as [[[=] _]|[[[=] _]|[[=] _]]]; lia|]);
      (rewrite demo_word by lia; apply has_0).
Qed.

(** The child's. *)
Lemma demo_pt_new : pt_inv KERNBASE demo_vmem (pg 4) demo_tbn.
Proof.
  split.
  - reflexivity.
  - intros l i b [[=] _]%demo_tbn_inv; subst; lia.
  - intros k b [_ ->]%demo_tbn_inv; apply pg_ok; lia.
  - intros k k' b [-> _]%demo_tbn_inv [-> _]%demo_tbn_inv; done.
  - intros l i Hl [b [[=] _]%demo_tbn_inv]; lia.
  - intros l i b j [[=] ->]%demo_tbn_inv Hj; subst.
    destruct (demo_tbn !! _) as [p|] eqn:E; [by apply demo_tbn_inv in E as [[=] _]|].
    destruct (decide (j = 0)) as [->|Hj0]; [by vm_compute|rewrite demo_word by lia; apply has_0].
Qed.

Lemma demo_kmem : kmem_inv KERNBASE demo_vm demo_fl.
Proof.
  split_and!; [apply demo_vmem_ok|vm_compute; by split_and!| |].
  - by apply (bool_decide_eq_true_1 _); vm_compute.
  - repeat constructor; apply pg_ok; lia.
Qed.

Lemma demo_apart (tb : tables) (ps : list Z) :
  (forall p, is_table tb p -> p ∈ ps) -> forall p, bool_decide (p ∈ ps) = false -> ~ is_table tb p.
Proof. intros H p Hp%bool_decide_eq_false Ht; auto. Qed.

Lemma demo_tbo_pages p : is_table demo_tbo p -> p ∈ [pg 0; pg 1; pg 2].
Proof. intros [k [[_ ->]|[[_ ->]|[_ ->]]]%demo_tbo_inv]; set_solver. Qed.

Lemma demo_tbn_pages p : is_table demo_tbn p -> p ∈ [pg 4].
Proof. intros [k [_ ->]%demo_tbn_inv]; set_solver. Qed.

Lemma demo_own_old : vm_own KERNBASE demo_vm (pg 0) demo_tbo demo_fl [pg 3; pg 4].
Proof.
  split_and!; [split_and!; [apply demo_kmem|apply demo_pt_old|]| |].
  - intros p Hp%demo_tbo_pages; revert p Hp; apply Forall_forall, (bool_decide_eq_true_1 _); by vm_compute.
  - by apply (bool_decide_eq_true_1 _); vm_compute.
  - repeat constructor; try (apply pg_ok; lia);
      apply (demo_apart demo_tbo _ demo_tbo_pages); by vm_compute.
Qed.

Lemma demo_own_new : vm_own KERNBASE demo_vm (pg 4) demo_tbn demo_fl [pg 0; pg 1; pg 2; pg 3].
Proof.
  split_and!; [split_and!; [apply demo_kmem|apply demo_pt_new|]| |].
  - intros p Hp%demo_tbn_pages; revert p Hp; apply Forall_forall, (bool_decide_eq_true_1 _); by vm_compute.
  - by apply (bool_decide_eq_true_1 _); vm_compute.
  - repeat constructor; try (apply pg_ok; lia);
      apply (demo_apart demo_tbn _ demo_tbn_pages); by vm_compute.
Qed.

(** Page 0 of the parent is mapped, all others are not. *)
Lemma demo_leaf v : leaf demo_vmem demo_tbo v = if decide (v = 0) then mkpte (pg 3) demo_flags else 0.
Proof.
  unfold leaf; case_decide as E; [subst; by vm_compute|].
  destruct (demo_tbo !! _) as [p|] eqn:Ek; [|done].
  apply demo_tbo_inv in Ek as [[[=] _]|[[[=] _]|[[=] ->]]].
  pose proof (Z.mod_pos_bound v 512 ltac:(lia)); pose proof (Z.div_mod v 512 ltac:(lia)).
  apply demo_word; lia.
Qed.

Lemma demo_leaf_new v : leaf demo_vmem demo_tbn v = 0.
Proof.
  unfold leaf; destruct (demo_tbn !! _) as [p|] eqn:E; [|done].
  by apply demo_tbn_inv in E as [[=] _].
Qed.

Lemma demo_free (o : kobj) : o ∉ held (Ctx [] []).
Proof. intros H; inversion H. Qed.
