(* ===== verification/VmBuild.v ===== *)
(** * Building a page table

    A page table filled by [mappages] from a fresh root.  The keys [ks] bound
    the tables the mapped addresses need, so that a free list with that many
    pages is enough. *)

From S2P Require Import Prelude CMem KString Riscv Kalloc Vm VmInv VmMap VmUser.

Lemma omap_le {A B} (f : A -> option B) (l : list A) : (length (omap f l) <= length l)%nat.
Proof. induction l as [|y l IH]; cbn; [lia|destruct (f y); cbn in *; lia]. Qed.

Lemma omap_lt {A B} (f : A -> option B) (l : list A) x :
  x ∈ l -> f x = None -> (length (omap f l) < length l)%nat.
Proof.
  induction l as [|y l IH]; intros Hx Hn; [by apply not_elem_of_nil in Hx|].
  pose proof (omap_le f l); cbn; destruct (f y) as [b|] eqn:E; cbn in *; [|lia].
  apply elem_of_cons in Hx as [->|Hx]; [congruence|]; specialize (IH Hx Hn); cbn in IH; lia.
Qed.

Lemma omap_all {A B} (f : A -> option B) (l : list A) :
  NoDup l -> (forall x, x ∈ l -> is_Some (f x)) -> (forall x y b, f x = Some b -> f y = Some b -> x = y) ->
  NoDup (omap f l) /\ length (omap f l) = length l.
Proof.
  intros Hn Hs Hi; induction l as [|y l IH]; [split; [constructor|done]|].
  apply NoDup_cons in Hn as [Hy Hn]; destruct IH as [IH1 IH2]; [done|intros; apply Hs; by right|].
  destruct (Hs y) as [b Hb]; [left|]; cbn; rewrite Hb; cbn; split; [|by f_equal].
  constructor; [|done]; intros (x & Hx & Hxb)%list_elem_of_omap; by rewrite (Hi y x b Hb Hxb) in Hy.
Qed.

(** [n] pages from page [v] mapped to those from page [q]. *)
Definition mapped (v q n perm : Z) (L : Z -> Z) (x : Z) : Z :=
  if decide (v <= x < v + n) then mkpte (4096 * (q + (x - v))) perm else L x.

Ltac fresh_region := intros ? ?; unfold mapped; by repeat rewrite decide_False by lia.

(** ** The table under construction *)

(** Keys closed under the path to the root. *)
Class Keys (ks : list (nat * Z)) : Prop := {
  keys_root : (2%nat, 0) ∈ ks;
  keys_up : forall i, (0%nat, i) ∈ ks -> (1%nat, i / 512) ∈ ks
}.

Lemma on_path_keys ks `{!Keys ks} a l :
  0 <= a < MAXVA -> (l <= 2)%nat -> (0%nat, a / 2 ^ 21) ∈ ks -> (l, tix l a) ∈ ks.
Proof.
  intros Ha Hl Hk; destruct l as [|[|[|l]]]; [by rewrite tix_0 by lia| | |lia].
  - rewrite <- tix_up, tix_0 by lia; by apply keys_up.
  - rewrite tix_2 by done; apply keys_root.
Qed.

Section build.
Variable kend : Z.
Hypothesis kend_pos : 0 < kend.
Variable ks : list (nat * Z).
Context {HK : Keys ks}.

(** The pages [fl0] have become tables, the pages [ps] and what is left free. *)
Record built (root : Z) (s0 : pmem) (fl0 : list Z) (s : pmem) (tb : tables) (fl ps : list Z) (L : Z -> Z) : Prop := Built {
  bt_own : vm_own kend s root tb fl ps;
  bt_leaf : forall v, leaf (pm_mem s) tb v = L v;
  bt_keys : forall k, is_Some (tb !! k) -> k ∈ ks;
  bt_pages : exists ts, fl0 ≡ₚ ts ++ ps ++ fl /\ (forall p, is_table tb p <-> p ∈ ts);
  bt_frame : frame (fun p => p ∈ fl0) (pm_mem s0) (pm_mem s)
}.

Lemma built_ext root s0 fl0 s tb fl ps L L' :
  (forall v, L v = L' v) -> built root s0 fl0 s tb fl ps L -> built root s0 fl0 s tb fl ps L'.
Proof using. intros HL [H1 H2 H3 H4 H5]; split; [done| |done|done|done]; intros v; by rewrite H2. Qed.

Lemma built_step root s0 fl0 s tb fl ps L s' tb' fl' ps' L' :
  built root s0 fl0 s tb fl ps L -> vm_step kend root s tb fl ps s' tb' fl' ps' L' ->
  new_keys (fun k => k ∈ ks) tb tb' -> built root s0 fl0 s' tb' fl' ps' L'.
Proof using.
  clear kend_pos HK.
  intros [H1 H2 H3 (ts & Hfl & Ht) H5] [S1 S2 (ts' & Hps & Ht') S4 S5] Hk; split; [done|done| | |].
  - by intros k [|]%Hk; [apply H3|].
  - exists (ts ++ ts'); split; [by rewrite Hfl, Hps, !app_assoc|].
    intros p; rewrite Ht', Ht, elem_of_app; done.
  - eapply frame_trans; [exact H5|]; eapply frame_mono; [|exact S5].
    intros p; rewrite Hfl, Ht; set_solver.
Qed.

(** A step that adds no table and changes no entry. *)
Lemma built_same root s0 fl0 s tb fl ps L s' fl' ps' :
  built root s0 fl0 s tb fl ps L -> vm_step kend root s tb fl ps s' tb fl' ps' (leaf (pm_mem s) tb) ->
  built root s0 fl0 s' tb fl' ps' L.
Proof using.
  intros Hb Hst; eapply built_ext; [|eapply built_step; [exact Hb|exact Hst|by left]].
  apply (bt_leaf _ _ _ _ _ _ _ _ Hb).
Qed.

Lemma built_count root s0 fl0 s tb fl ps L :
  built root s0 fl0 s tb fl ps L -> NoDup fl0 ->
  (length fl0 <= length (omap (fun k => tb !! k) ks) + length ps + length fl)%nat.
Proof using.
  clear kend_pos HK.
  intros [_ _ Hk (ts & Hfl & Ht) _] Hn.
  assert (length ts <= length (omap (fun k => tb !! k) ks))%nat.
  { apply submseteq_length, NoDup_submseteq.
    - rewrite Hfl in Hn; by apply NoDup_app in Hn as [? _].
    - intros p [k' Hk']%Ht; apply list_elem_of_omap; exists k'; split; [apply Hk; by eexists|done]. }
  rewrite Hfl, !length_app; lia.
Qed.

(** There are at most as many tables as keys, and fewer when one is missing. *)
Lemma built_full root s0 fl0 s tb fl ps L :
  built root s0 fl0 s tb fl ps L -> NoDup fl0 -> (length fl0 <= length ks + length ps + length fl)%nat.
Proof using.
  clear kend_pos HK.
  intros Hk Hn; pose proof (built_count _ _ _ _ _ _ _ _ Hk Hn); pose proof (omap_le (fun k => tb !! k) ks); lia.
Qed.

Lemma built_missing root s0 fl0 s tb fl ps L k :
  built root s0 fl0 s tb fl ps L -> NoDup fl0 -> k ∈ ks -> tb !! k = None ->
  (length fl0 < length ks + length ps + length fl)%nat.
Proof using.
  clear kend_pos HK.
  intros Hk Hn Hin Hnone; pose proof (built_count _ _ _ _ _ _ _ _ Hk Hn).
  pose proof (omap_lt (fun k => tb !! k) ks k Hin Hnone); lia.
Qed.

Lemma mappages_built n root s0 fl0 s tb fl ps L va pa perm c :
  built root s0 fl0 s tb fl ps L -> NoDup fl0 -> O_kmem ∉ held c -> (length ks + length ps <= length fl0)%nat ->
  0 <= perm < 2 ^ 10 -> 0 < n -> va mod 4096 = 0 -> 0 <= va -> va + 4096 * n <= MAXVA ->
  is_frame pa -> pa + 4096 * n <= 2 ^ 56 ->
  (forall a, va <= a < va + 4096 * n -> (0%nat, a / 2 ^ 21) ∈ ks) ->
  (forall v, va / 4096 <= v < va / 4096 + n -> L v = 0) ->
  exists s' tb' fl', mappages root va (4096 * n) pa perm c s = Ret 0 c s' /\
    frame (fun p => p ∈ fl \/ is_table tb p) (pm_mem s) (pm_mem s') /\
    built root s0 fl0 s' tb' fl' ps (mapped (va / 4096) (pa / 4096) n perm L).
Proof using kend_pos HK.
  intros Hk Hn Hc Hroom Hperm Hn0 Hal Hva Hmax Hpa Hpm Hkey Hno; pose proof (bt_own _ _ _ _ _ _ _ _ Hk) as Ho.
  rewrite <- (Z2Nat.id n) in * by lia; set (n' := Z.to_nat n) in *.
  destruct (mappages_loop_spec kend kend_pos n' s root tb fl va pa perm c)
    as (s' & tb' & fl' & k & Hch & Hnk & Hcase); auto; [apply Ho|lia| |].
  { intros v Hv; rewrite (bt_leaf _ _ _ _ _ _ _ _ Hk), Hno by done; apply has_0. }
  pose proof (vc_frame _ _ _ _ _ _ _ _ _ Hch) as Hf.
  apply (vm_change_step kend root s tb fl s' tb' fl' ps _ Ho) in Hch.
  pose proof Hch as [Hown _ _ _ _]; destruct Hown as ((_ & Hi & _) & _).
  assert (Hk' : built root s0 fl0 s' tb' fl' ps (mapped (va / 4096) (pa / 4096) (Z.of_nat k) perm L)).
  { eapply built_ext; [|eapply built_step; [exact Hk|exact Hch|]].
    - intros v; unfold mapped; case_decide; [f_equal|apply (bt_leaf _ _ _ _ _ _ _ _ Hk)].
      destruct Hpa as [_ Hpa]; pose proof (Z.div_mod pa 4096); lia.
    - intros x Hx; destruct (Hnk x Hx) as [|(a & Ha & l & ->)]; [by left|right]; destruct Hx as [b Hb].
      destruct (pt_level _ _ _ _ Hi _ _ _ Hb); apply (on_path_keys ks); [lia|done|by apply Hkey]. }
  exists s', tb', fl'; rewrite mappages_run by (done || lia).
  destruct Hcase as [[-> ->]|(Hlt & -> & Hnone & _)]; [done|].
  apply (built_missing _ _ _ _ _ _ _ _ _ Hk' Hn) in Hnone; [cbn in Hnone; lia|apply Hkey; lia].
Qed.

(** A region given by page numbers, its leaf tables from [i0] to [i1]. *)
Lemma mappages_region i0 i1 v q n root s0 fl0 s tb fl ps L perm c :
  built root s0 fl0 s tb fl ps L -> NoDup fl0 -> O_kmem ∉ held c -> (length ks + length ps <= length fl0)%nat ->
  0 <= perm < 2 ^ 10 -> (forall i, i0 <= i < i1 -> (0%nat, i) ∈ ks) ->
  (forall x, v <= x < v + n -> L x = 0) ->
  0 < n /\ 0 <= v /\ v + n <= 2 ^ 26 /\ 0 <= q /\ q + n <= 2 ^ 44 /\ i0 * 512 <= v /\ v + n <= i1 * 512 ->
  exists s' tb' fl', mappages root (4096 * v) (4096 * n) (4096 * q) perm c s = Ret 0 c s' /\
    frame (fun p => p ∈ fl \/ is_table tb p) (pm_mem s) (pm_mem s') /\
    built root s0 fl0 s' tb' fl' ps (mapped v q n perm L).
Proof using kend_pos HK.
  intros Hk Hn Hc Hroom Hperm Hkey Hno Hr.
  assert (Hv : forall v, 4096 * v / 4096 = v) by (intros; rewrite Z.mul_comm; apply Z.div_mul; lia).
  destruct (mappages_built n root s0 fl0 s tb fl ps L (4096 * v) (4096 * q) perm c) as (s' & tb' & fl' & H);
    auto; rewrite ?Hv, ?MAXVA_eq; try lia; auto; [| | |rewrite !Hv in H; eauto].
  - rewrite Z.mul_comm; apply Z.mod_mul; lia.
  - split; [lia|rewrite Z.mul_comm; apply Z.mod_mul; lia].
  - intros a Ha; apply Hkey; split; [apply Z.div_le_lower_bound|apply Z.div_lt_upper_bound]; lia.
Qed.

Lemma single_table p q : is_table {[(2%nat, 0) := p]} q <-> q ∈ [p].
Proof using.
  rewrite list_elem_of_singleton; split.
  - intros [k [_ ->]%lookup_singleton_Some]; done.
  - intros ->; exists (2%nat, 0); by rewrite lookup_singleton_eq.
Qed.

Lemma pt_inv_single m p :
  page_ok kend p -> (forall j, 0 <= j < 512 -> load64 m (p + 8 * j) = 0) -> pt_inv kend m p {[(2%nat, 0) := p]}.
Proof using.
  intros Hp Hz; split.
  - by rewrite lookup_singleton_eq.
  - intros l i b [[= <- <-] _]%lookup_singleton_Some; lia.
  - by intros k b [_ <-]%lookup_singleton_Some.
  - by intros k k' b [<- _]%lookup_singleton_Some [<- _]%lookup_singleton_Some.
  - intros l i Hl [b [[= <- _] _]%lookup_singleton_Some]; lia.
  - intros l i b j [[= <- <-] <-]%lookup_singleton_Some Hj.
    rewrite lookup_singleton_ne by (intros [=]); rewrite Hz by done; apply has_0.
Qed.

(** The table of a fresh root. *)
Lemma built_new p fl c s :
  kmem_inv kend s (p :: fl) -> O_kmem ∉ held c ->
  exists s1, kalloc c s = Ret p c s1 /\
    built p s (p :: fl) (with_mem (fun m => memset m p 0 PGSIZE) s1) {[(2%nat, 0) := p]} fl [] (fun _ => 0).
Proof using kend_pos HK.
  intros Hk Hc; destruct (kalloc_spec kend kend_pos p fl c s Hk Hc) as (s1 & Hrun & Hk1 & Hp & Hpf & Hout).
  exists s1; split; [done|].
  set (m1 := memset (pm_mem s1) p 0 PGSIZE).
  assert (Hz : forall x, in_page p x -> m1 x = 0) by (unfold in_page; intros; apply memset_in; unfold PGSIZE; lia).
  assert (Hm1 : forall x, ~ in_page p x -> m1 x = pm_mem s x).
  { intros x Hx; rewrite <- Hout by done; apply memset_out; unfold in_page in Hx; unfold PGSIZE; lia. }
  assert (Hw : forall j, 0 <= j < 512 -> load64 m1 (p + 8 * j) = 0).
  { intros j Hj; apply load64_zero; intros x Hx; apply Hz; unfold in_page; lia. }
  split.
  - split_and!; [split_and!| |constructor].
    + apply (kmem_inv_mem kend s1 m1 fl Hk1); [apply memset_ok, Hk1|].
      intros q x Hq Hx; rewrite Hm1, Hout; [done| |]; intros Hx';
        destruct Hk1 as (_ & _ & _ & Hok); rewrite Forall_forall in Hok; destruct (Hok q Hq) as [Hqa _], Hp as [Ha _];
        by rewrite (in_page_inj p q x Ha Hqa Hx' Hx) in Hpf.
    + by apply pt_inv_single.
    + intros q ->%single_table%list_elem_of_singleton; done.
    + cbn; by destruct Hk1 as (_ & _ & ? & _).
  - intros v; unfold leaf; by rewrite lookup_singleton_ne by (intros [=]).
  - intros k; rewrite lookup_singleton; case_decide; [subst; intros _; apply keys_root|by intros []].
  - exists [p]; split; [done|apply single_table].
  - intros x Hx; apply Hm1, Hx; left.
Qed.
End build.
Arguments bt_own {kend ks root s0 fl0 s tb fl ps L}.
Arguments bt_leaf {kend ks root s0 fl0 s tb fl ps L}.
Arguments bt_keys {kend ks root s0 fl0 s tb fl ps L}.
Arguments bt_pages {kend ks root s0 fl0 s tb fl ps L}.
Arguments bt_frame {kend ks root s0 fl0 s tb fl ps L}.
