(* ===== verification/KvmOk.v ===== *)
(** * The kernel page table

    What [kvmmake] builds: the device registers and the physical memory at
    their own addresses, the trampoline and one stack per process at the top
    of the address space, each stack above an unmapped page.  The tables and
    the stacks take 166 pages. *)

From S2P Require Import Prelude CMem KString Riscv Kalloc Vm VmInv VmMap VmUser VmBuild.

(** ** The tables of the kernel's address space *)

(** Root, three middle tables (devices, memory, top) and the leaf tables: one
    for the two devices, 32 for the interrupt controller, 64 for memory and
    the last one for trampoline and stacks. *)
Definition ktables : list (nat * Z) :=
  (2%nat, 0) :: (pair 1%nat <$> [0; 2; 255]) ++
  (pair 0%nat <$> 128 :: 131071 :: seqZ 96 32 ++ seqZ 1024 64).

Lemma ktables_up i : (0%nat, i) ∈ ktables -> (1%nat, i / 512) ∈ ktables.
Proof.
  intros Hi; assert (Hall : forallb (fun k => negb (fst k =? 0)%nat || bool_decide ((1%nat, snd k / 512) ∈ ktables)) ktables = true)
    by (vm_compute; reflexivity).
  rewrite forallb_forall in Hall; specialize (Hall (0%nat, i)); cbn [fst snd] in Hall.
  by apply list_elem_of_In, Hall, bool_decide_eq_true in Hi.
Qed.

#[export] Instance ktables_keys : Keys ktables.
Proof. split; [left|exact ktables_up]. Qed.

Lemma leaf_ktables i :
  i = 128 \/ i = 131071 \/ 96 <= i < 128 \/ 1024 <= i < 1088 -> (0%nat, i) ∈ ktables.
Proof.
  intros Hi; apply elem_of_cons; right; apply elem_of_app; right.
  apply list_elem_of_fmap; exists i; split; [done|].
  rewrite !elem_of_cons, elem_of_app, !elem_of_seqZ; lia.
Qed.

(** ** Specification *)

Definition RW : Z := Z.lor PTE_R PTE_W.
Definition RX : Z := Z.lor PTE_R PTE_X.

(** The stack whose page has number [v]. *)
Definition stack_at (stacks : list Z) (v : Z) : option Z :=
  let d := TRAMPOLINE / 4096 - v in
  if decide (0 < d /\ d mod 2 = 0) then stacks !! Z.to_nat (d / 2 - 1) else None.

Section spec.
Variables etext trampoline : Z.

Definition kmap (stacks : list Z) (v : Z) : Z :=
  let a := 4096 * v in
  if decide (a = UART0 \/ a = VIRTIO0 \/ PLIC <= a < PLIC + 0x4000000) then mkpte a RW
  else if decide (KERNBASE <= a < etext) then mkpte a RX
  else if decide (etext <= a < PHYSTOP) then mkpte a RW
  else if decide (a = TRAMPOLINE) then mkpte trampoline RX
  else match stack_at stacks v with
       | Some p => mkpte p RW
       | None => 0
       end.
End spec.

Section kvm.
Variable kend : Z.
Hypothesis kend_pos : 0 < kend.

#[local] Abbreviation kpt := (built kend ktables).

Lemma kvmmap_region i0 i1 v q n root s0 fl0 s tb fl ps L perm c :
  kpt root s0 fl0 s tb fl ps L -> NoDup fl0 -> O_kmem ∉ held c -> (102 + length ps <= length fl0)%nat ->
  0 <= perm < 2 ^ 10 -> (forall i, i0 <= i < i1 -> (0%nat, i) ∈ ktables) ->
  (forall x, v <= x < v + n -> L x = 0) ->
  0 < n /\ 0 <= v /\ v + n <= 2 ^ 26 /\ 0 <= q /\ q + n <= 2 ^ 44 /\ i0 * 512 <= v /\ v + n <= i1 * 512 ->
  exists s' tb' fl', kvmmap root (4096 * v) (4096 * q) (4096 * n) perm c s = Ret tt c s' /\
    kpt root s0 fl0 s' tb' fl' ps (mapped v q n perm L).
Proof using kend_pos.
  intros Hk Hn Hc Hroom Hperm Hkey Hno Hr.
  destruct (mappages_region kend kend_pos ktables i0 i1 v q n root s0 fl0 s tb fl ps L perm c) as (s' & tb' & fl' & H & _ & Hb); auto.
  exists s', tb', fl'; split; [|done]; unfold kvmmap, kbind; by rewrite H.
Qed.

(** ** Stacks *)

Section make.
Variables etext trampoline : Z.
Hypothesis Hetext : etext mod 4096 = 0 /\ KERNBASE < etext < PHYSTOP.
Hypothesis Htramp : trampoline mod 4096 = 0 /\ 0 <= trampoline < PHYSTOP.

Lemma KSTACK_page i : KSTACK i / 4096 = TRAMPOLINE / 4096 - 2 * (i + 1) /\ KSTACK i mod 4096 = 0.
Proof using.
  assert (KSTACK i = (67108863 - 2 * (i + 1)) * 4096) as -> by (unfold KSTACK, TRAMPOLINE, PGSIZE; rewrite MAXVA_eq; lia).
  rewrite Z.div_mul, Z.mod_mul by lia; done.
Qed.

(** Below the trampoline there are only stacks. *)
Lemma kmap_top stacks v :
  67108352 <= v < TRAMPOLINE / 4096 ->
  kmap etext trampoline stacks v = match stack_at stacks v with Some p => mkpte p RW | None => 0 end.
Proof using Hetext.
  change (TRAMPOLINE / 4096) with 67108863; intros Hv; unfold PHYSTOP, KERNBASE in Hetext.
  unfold kmap; change TRAMPOLINE with (67108863 * 4096); unfold UART0, VIRTIO0, PLIC, PHYSTOP, KERNBASE; cbv zeta.
  by do 4 rewrite decide_False by lia.
Qed.

Lemma stack_at_KSTACK stacks i : 0 <= i -> stack_at stacks (KSTACK i / 4096) = stacks !! Z.to_nat i.
Proof using.
  intros Hi; destruct (KSTACK_page i) as [-> _]; unfold stack_at; cbv zeta.
  replace (TRAMPOLINE / 4096 - (TRAMPOLINE / 4096 - 2 * (i + 1))) with ((i + 1) * 2) by lia.
  rewrite Z.mod_mul, Z.div_mul, decide_True by lia; f_equal; lia.
Qed.

Lemma stack_at_guard stacks i : stack_at stacks (KSTACK i / 4096 - 1) = None.
Proof using.
  destruct (KSTACK_page i) as [-> _]; unfold stack_at; cbv zeta; rewrite decide_False; [done|].
  replace (TRAMPOLINE / 4096 - (TRAMPOLINE / 4096 - 2 * (i + 1) - 1)) with (1 + (i + 1) * 2) by lia.
  rewrite Z.mod_add by lia; intros [_ H]; discriminate H.
Qed.

Lemma kstack_table i a :
  0 <= i < 64 -> KSTACK i - 4096 <= a < KSTACK i + 4096 -> a / 2 ^ 21 = 131071 /\ 67108352 <= a / 4096 < TRAMPOLINE / 4096.
Proof using.
  intros Hi; unfold KSTACK, TRAMPOLINE, PGSIZE; rewrite MAXVA_eq; change ((2 ^ 38 - 4096) / 4096) with 67108863; intros Ha.
  split; [|split; [apply Z.div_le_lower_bound|apply Z.div_lt_upper_bound]; lia].
  symmetry; apply (Z.div_unique_pos a (2 ^ 21) 131071 (a - 2 ^ 21 * 131071)); lia.
Qed.

Lemma kmap_stack stacks p v :
  (length stacks < 64)%nat ->
  p mod 4096 = 0 -> mapped (KSTACK (Z.of_nat (length stacks)) / 4096) (p / 4096) 1 RW (kmap etext trampoline stacks) v =
  kmap etext trampoline (stacks ++ [p]) v.
Proof using Hetext.
  intros Hl Hp; destruct (KSTACK_page (Z.of_nat (length stacks))) as [Hk _]; unfold mapped; rewrite Hk.
  case_decide as Hv.
  - replace v with (KSTACK (Z.of_nat (length stacks)) / 4096) by lia.
    destruct (kstack_table (Z.of_nat (length stacks)) (KSTACK (Z.of_nat (length stacks)))) as [_ Ht]; [lia|lia|].
    rewrite kmap_top, stack_at_KSTACK, Nat2Z.id, list_lookup_middle by (done || lia); f_equal; pose proof (Z.div_mod p 4096); lia.
  - unfold kmap; repeat (case_decide; [done|]); f_equal.
    unfold stack_at; change (TRAMPOLINE / 4096) with 67108863 in *; case_decide as Hd; [|done].
    pose proof (Z.div_mod (67108863 - v) 2 ltac:(lia)); destruct (decide (Z.to_nat ((67108863 - v) / 2 - 1) < length stacks)%nat).
    + by rewrite lookup_app_l.
    + rewrite (lookup_ge_None_2 stacks), (lookup_ge_None_2 (stacks ++ [p])); [done|rewrite length_app; cbn; lia|lia].
Qed.

Lemma mapstacks_kpt n root s0 fl0 s tb fl stacks c :
  kpt root s0 fl0 s tb fl (reverse stacks) (kmap etext trampoline stacks) -> NoDup fl0 -> O_kmem ∉ held c ->
  (166 <= length fl0)%nat -> (length stacks + n = 64)%nat ->
  exists s' tb' fl' stacks', proc_mapstacks_loop n (Z.of_nat (length stacks)) root c s = Ret tt c s' /\
    length stacks' = 64%nat /\ kpt root s0 fl0 s' tb' fl' (reverse stacks') (kmap etext trampoline stacks').
Proof using kend_pos Hetext.
  revert s tb fl stacks; induction n as [|n IH]; intros s tb fl stacks Hk Hn Hc Hroom Hlen.
  { exists s, tb, fl, stacks; split_and!; [done|lia|done]. }
  pose proof (built_full kend ktables _ _ _ _ _ _ _ _ Hk Hn) as Hfull; rewrite length_reverse in Hfull.
  change (length ktables) with 102%nat in Hfull.
  destruct fl as [|p fl]; [cbn in Hfull; lia|].
  destruct (step_kalloc kend kend_pos root s tb fl (reverse stacks) p c (bt_own Hk) Hc)
    as (s1 & Hka & Hp0 & Hst & _).
  pose proof (built_same _ _ _ _ _ _ _ _ _ _ _ _ _ Hk Hst) as Hk1.
  destruct (KSTACK_page (Z.of_nat (length stacks))) as [Hpg Hal].
  assert (Hp : page_ok kend p) by (pose proof (bt_own Hk1) as (_ & _ & [[? _] _]%Forall_cons); done).
  assert (Hi : 0 <= Z.of_nat (length stacks) < 64) by lia; set (i := Z.of_nat (length stacks)) in *.
  destruct (kstack_table i (KSTACK i)) as [_ Ht]; [done|lia|].
  destruct (kvmmap_region 131071 131072 (KSTACK i / 4096) (p / 4096) 1 root s0 fl0 s1 tb fl (p :: reverse stacks)
    (kmap etext trampoline stacks) RW c) as (s2 & tb2 & fl2 & Hrun & Hk2); auto.
  { cbn; rewrite length_reverse; lia. }
  { done. }
  { intros; apply leaf_ktables; lia. }
  { intros v Hv; replace v with (KSTACK i / 4096) by lia.
    by rewrite kmap_top, stack_at_KSTACK, lookup_ge_None_2 by (done || lia). }
  { pose proof (page_pos kend kend_pos p Hp); change (TRAMPOLINE / 4096) with 67108863 in Ht.
    assert (p / 4096 < 2 ^ 32) by (apply Z.div_lt_upper_bound; lia); assert (0 <= p / 4096) by (apply Z.div_pos; lia); lia. }
  replace (4096 * (KSTACK i / 4096)) with (KSTACK i) in Hrun by (pose proof (Z.div_mod (KSTACK i) 4096); lia).
  replace (4096 * (p / 4096)) with p in Hrun by (destruct Hp as [Hpa _]; pose proof (Z.div_mod p 4096); lia).
  destruct (IH s2 tb2 fl2 (stacks ++ [p])) as (s' & tb' & fl' & stacks' & Hrun' & Hl' & Hk'); auto.
  { rewrite reverse_snoc; eapply built_ext; [|exact Hk2]; intros v; apply kmap_stack; [lia|apply Hp]. }
  { rewrite length_app; cbn; lia. }
  exists s', tb', fl', stacks'; split_and!; auto.
  cbn [proc_mapstacks_loop]; unfold kbind at 1; rewrite Hka, Hp0; unfold kbind.
  change PGSIZE with (4096 * 1); unfold RW in Hrun; rewrite Hrun.
  rewrite length_app in Hrun'; cbn in Hrun'; by replace (i + 1) with (Z.of_nat (length stacks + 1)) by lia.
Qed.

Lemma kmap_regions e q v :
  etext = 4096 * e -> trampoline = 4096 * q ->
  mapped 67108863 q 1 RX (mapped e e (557056 - e) RW (mapped 524288 524288 (e - 524288) RX
    (mapped 49152 49152 16384 RW (mapped 65537 65537 1 RW (mapped 65536 65536 1 RW (fun _ => 0)))))) v =
  kmap etext trampoline [] v.
Proof using Hetext.
  intros He Ht; destruct Hetext as [_ Her]; unfold mapped, kmap, stack_at; rewrite lookup_nil.
  change UART0 with (4096 * 65536); change VIRTIO0 with (4096 * 65537); change PLIC with (4096 * 49152).
  change KERNBASE with (4096 * 524288) in *; change PHYSTOP with (4096 * 557056) in *.
  change TRAMPOLINE with (4096 * 67108863).
  repeat case_decide; lia || (f_equal; lia).
Qed.

Lemma kvmmake_kpt p fl c s :
  kmem_inv kend s (p :: fl) -> O_kmem ∉ held c -> (165 <= length fl)%nat ->
  exists s' tb fl' stacks, kvmmake etext trampoline c s = Ret p c s' /\ length stacks = 64%nat /\
    kpt p s (p :: fl) s' tb fl' (reverse stacks) (kmap etext trampoline stacks).
Proof using kend_pos Hetext Htramp.
  intros Hk Hc Hlen; destruct Hk as (? & ? & Hn & ?) eqn:E; clear E.
  destruct (built_new kend kend_pos ktables p fl c s) as (s1 & Hka & K0); [done|done|].
  assert (Hroom : (102 + length (@nil Z) <= length (p :: fl))%nat) by (cbn; lia).
  destruct Hetext as [Hea Her], Htramp as [Hta Htr]; unfold PHYSTOP, KERNBASE in Her, Htr.
  assert (He : etext = 4096 * (etext / 4096)) by (pose proof (Z.div_mod etext 4096); lia).
  assert (Ht : trampoline = 4096 * (trampoline / 4096)) by (pose proof (Z.div_mod trampoline 4096); lia).
  set (e := etext / 4096) in *; set (q := trampoline / 4096) in *.
  assert (Hp : 0 <= RW < 2 ^ 10) by done; assert (Hx : 0 <= RX < 2 ^ 10) by done.
  assert (Kd : forall i, 128 <= i < 129 -> (0%nat, i) ∈ ktables) by (intros; apply leaf_ktables; lia).
  assert (Kp : forall i, 96 <= i < 128 -> (0%nat, i) ∈ ktables) by (intros; apply leaf_ktables; lia).
  assert (Km : forall i, 1024 <= i < 1088 -> (0%nat, i) ∈ ktables) by (intros; apply leaf_ktables; lia).
  assert (Kt : forall i, 131071 <= i < 131072 -> (0%nat, i) ∈ ktables) by (intros; apply leaf_ktables; lia).
  destruct (kvmmap_region 128 129 65536 65536 1 p s (p :: fl) _ _ _ _ _ RW c K0 Hn Hc Hroom Hp Kd) as (s2 & tb2 & fl2 & R2 & K2);
    [done|lia|].
  destruct (kvmmap_region 128 129 65537 65537 1 p s (p :: fl) _ _ _ _ _ RW c K2 Hn Hc Hroom Hp Kd) as (s3 & tb3 & fl3 & R3 & K3);
    [fresh_region|lia|].
  destruct (kvmmap_region 96 128 49152 49152 16384 p s (p :: fl) _ _ _ _ _ RW c K3 Hn Hc Hroom Hp Kp) as (s4 & tb4 & fl4 & R4 & K4);
    [fresh_region|lia|].
  destruct (kvmmap_region 1024 1088 524288 524288 (e - 524288) p s (p :: fl) _ _ _ _ _ RX c K4 Hn Hc Hroom Hx Km)
    as (s5 & tb5 & fl5 & R5 & K5); [fresh_region|lia|].
  destruct (kvmmap_region 1024 1088 e e (557056 - e) p s (p :: fl) _ _ _ _ _ RW c K5 Hn Hc Hroom Hp Km)
    as (s6 & tb6 & fl6 & R6 & K6); [fresh_region|lia|].
  destruct (kvmmap_region 131071 131072 67108863 q 1 p s (p :: fl) _ _ _ _ _ RX c K6 Hn Hc Hroom Hx Kt)
    as (s7 & tb7 & fl7 & R7 & K7); [fresh_region|lia|].
  destruct (mapstacks_kpt 64 p s (p :: fl) s7 tb7 fl7 [] c) as (s8 & tb8 & fl8 & stacks & R8 & Hl8 & K8); auto.
  { eapply built_ext; [|exact K7]; intros v; by apply kmap_regions. }
  { cbn; lia. }
  exists s8, tb8, fl8, stacks; split_and!; auto.
  rewrite <- He in R6; rewrite <- Ht in R7; change (Z.of_nat (length [])) with 0 in R8.
  replace (4096 * (e - 524288)) with (etext - KERNBASE) in R5 by (unfold KERNBASE; lia).
  replace (4096 * (557056 - e)) with (PHYSTOP - etext) in R6 by (unfold PHYSTOP, KERNBASE; lia).
  unfold kvmmake, kbind; rewrite Hka; unfold zero_page, kmod; fold RW RX.
  change UART0 with (4096 * 65536); change VIRTIO0 with (4096 * 65537); change PLIC with (4096 * 49152).
  change (4096 * 1) with PGSIZE in R2, R3, R7; change 0x4000000 with (4096 * 16384); rewrite R2, R3, R4.
  change (4096 * 524288) with KERNBASE in R5; change (4096 * 67108863) with TRAMPOLINE in R7.
  rewrite R5, R6, R7; unfold proc_mapstacks; change (Z.to_nat NPROC) with 64%nat; by rewrite R8.
Qed.
(** ** Properties of the map *)

Lemma RAM_frame v : 0 <= v < 557056 -> is_frame (4096 * v).
Proof using. intros Hv; split; [lia|]; rewrite Z.mul_comm; apply Z.mod_mul; lia. Qed.

(** Every entry is 0 or an entry of a frame, readable, and either writable or
    executable. *)
Lemma kmap_cases stacks v :
  Forall (page_ok kend) stacks ->
  kmap etext trampoline stacks v = 0 \/
  exists pa perm, is_frame pa /\ (perm = RW \/ perm = RX) /\ kmap etext trampoline stacks v = mkpte pa perm.
Proof using kend_pos Hetext Htramp.
  intros Hs; destruct Hetext as [_ He], Htramp as [Hta Htr]; unfold kmap; cbv zeta.
  change UART0 with (4096 * 65536); change VIRTIO0 with (4096 * 65537); change PLIC with (4096 * 49152).
  change KERNBASE with (4096 * 524288) in *; change PHYSTOP with (4096 * 557056) in *.
  repeat case_decide; [right; exists (4096 * v), RW|right; exists (4096 * v), RX|right; exists (4096 * v), RW|right; exists trampoline, RX|];
    try (split_and!; [apply RAM_frame; lia|auto|done]).
  - split_and!; [split; [lia|done]|auto|done].
  - destruct (stack_at stacks v) as [p|] eqn:E; [right; exists p, RW; split_and!; [|auto|done]|by left].
    unfold stack_at in E; cbv zeta in E; case_decide; [|done].
    apply list_elem_of_lookup_2 in E; rewrite Forall_forall in Hs; by eapply page_frame, Hs.
Qed.

Lemma kmap_perms stacks v :
  Forall (page_ok kend) stacks ->
  let pte := kmap etext trampoline stacks v in
  has pte PTE_U = false /\ has pte PTE_W && has pte PTE_X = false.
Proof using kend_pos Hetext Htramp.
  intros Hs pte; unfold pte; destruct (kmap_cases stacks v Hs) as [->|(pa & perm & Hf & Hp & ->)]; [done|].
  assert (0 <= perm < 2 ^ 10) by (by destruct Hp as [-> | ->]).
  unfold PTE_U, PTE_W, PTE_X; rewrite !mkpte_bit by (done || lia); by destruct Hp as [-> | ->].
Qed.

Lemma mkpte_nonzero pa perm : is_frame pa -> 0 <= perm < 2 ^ 10 -> mkpte pa perm <> 0.
Proof using. intros Hf Hp E; pose proof (mkpte_V pa perm Hf Hp) as H; by rewrite E, has_0 in H. Qed.

(** Each leaf table holds a mapping, so all tables are there. *)
Lemma kmap_leaf_used stacks i :
  (0%nat, i) ∈ ktables -> exists j, 0 <= j < 512 /\ kmap etext trampoline stacks (i * 512 + j) <> 0.
Proof using Hetext Htramp.
  intros Hi; assert (Hc : i = 128 \/ i = 131071 \/ 96 <= i < 128 \/ 1024 <= i < 1088).
  { unfold ktables in Hi; rewrite elem_of_cons, elem_of_app in Hi.
    destruct Hi as [[=]|[Hi|Hi]]; apply list_elem_of_fmap in Hi as (x & [= ->] & Hx).
    rewrite !elem_of_cons, elem_of_app, !elem_of_seqZ in Hx; lia. }
  destruct Hetext as [_ He], Htramp as [Hta Htr]; change PHYSTOP with (4096 * 557056) in *; change KERNBASE with (4096 * 524288) in *.
  assert (HW : 0 <= RW < 2 ^ 10) by done; assert (HX : 0 <= RX < 2 ^ 10) by done.
  exists (if decide (i = 131071) then 511 else 0); split; [case_decide; lia|]; unfold kmap; cbv zeta.
  change UART0 with (4096 * 65536); change VIRTIO0 with (4096 * 65537); change PLIC with (4096 * 49152).
  change KERNBASE with (4096 * 524288); change PHYSTOP with (4096 * 557056); change TRAMPOLINE with (4096 * 67108863).
  repeat case_decide; try lia; apply mkpte_nonzero; auto; try (apply RAM_frame; lia).
  split; [lia|done].
Qed.

Lemma kpt_all root s0 fl0 s tb fl ps stacks k :
  kpt root s0 fl0 s tb fl ps (kmap etext trampoline stacks) -> k ∈ ktables -> is_Some (tb !! k).
Proof using Hetext Htramp.
  intros Hk Hin; pose proof (bt_own Hk) as ((_ & Hi & _) & _).
  assert (Hleaf : forall i, (0%nat, i) ∈ ktables -> is_Some (tb !! (0%nat, i))).
  { intros i Hi0; destruct (kmap_leaf_used stacks i Hi0) as (j & Hj & Hne).
    rewrite <- (bt_leaf Hk) in Hne; apply leaf_some in Hne as [b Hb].
    rewrite Z.div_add_l, (Z.div_small j), Z.add_0_r in Hb by lia; by eexists. }
  assert (Hup : forall i, (0%nat, i) ∈ ktables -> is_Some (tb !! (1%nat, i / 512))).
  { intros i Hi0; apply (pt_up _ _ _ _ Hi); [lia|by apply Hleaf]. }
  destruct k as [l i]; unfold ktables in Hin; rewrite elem_of_cons, elem_of_app in Hin.
  destruct Hin as [[= -> ->]|[Hin|Hin]]; [rewrite (pt_root _ _ _ _ Hi); by eexists| |];
    apply list_elem_of_fmap in Hin as (x & [= -> ->] & Hx).
  - rewrite !elem_of_cons, elem_of_nil in Hx; destruct Hx as [->|[->|[->|[]]]];
      [apply (Hup 128)|apply (Hup 1024)|apply (Hup 131071)]; apply leaf_ktables; lia.
  - apply Hleaf, leaf_ktables; rewrite !elem_of_cons, elem_of_app, !elem_of_seqZ in Hx; lia.
Qed.

Lemma ktables_NoDup : NoDup ktables.
Proof using. apply (bool_decide_eq_true_1 _); vm_compute; reflexivity. Qed.

Lemma kpt_exact root s0 fl0 s tb fl ps stacks :
  kpt root s0 fl0 s tb fl ps (kmap etext trampoline stacks) -> NoDup fl0 ->
  (length fl0 = 102 + length ps + length fl)%nat.
Proof using kend_pos Hetext Htramp.
  intros Hk Hn; pose proof (built_full kend ktables _ _ _ _ _ _ _ _ Hk Hn) as Hle.
  pose proof (bt_own Hk) as ((_ & Hi & _) & _).
  destruct (omap_all (fun k => tb !! k) ktables ktables_NoDup) as [Hnd Hlen].
  { intros k; by apply (kpt_all _ _ _ _ _ _ _ _ _ Hk). }
  { apply (pt_inj _ _ _ _ Hi). }
  change (length ktables) with 102%nat in Hlen, Hle; destruct (bt_pages Hk) as (ts & Hfl & Ht).
  assert (length (omap (fun k => tb !! k) ktables) <= length ts)%nat.
  { apply submseteq_length, NoDup_submseteq; [done|].
    intros p (k & _ & Hkp)%list_elem_of_omap; apply Ht; by exists k. }
  rewrite Hfl, !length_app in *; lia.
Qed.

Lemma kmap_stacks stacks i :
  length stacks = 64%nat -> 0 <= i < 64 ->
  exists p, stacks !! Z.to_nat i = Some p /\ kmap etext trampoline stacks (KSTACK i / 4096) = mkpte p RW /\
    kmap etext trampoline stacks (KSTACK i / 4096 - 1) = 0.
Proof using Hetext.
  intros Hl Hi; destruct (lookup_lt_is_Some_2 stacks (Z.to_nat i)) as [p Hp]; [lia|]; exists p; split; [done|].
  destruct (kstack_table i (KSTACK i)) as [_ H1]; [done|lia|].
  destruct (kstack_table i (KSTACK i - 4096)) as [_ H2]; [done|lia|].
  assert (E : (KSTACK i - 4096) / 4096 = KSTACK i / 4096 - 1)
    by (replace (KSTACK i - 4096) with (KSTACK i + (-1) * 4096) by lia; by rewrite Z.div_add by lia).
  rewrite E in H2; rewrite !kmap_top, stack_at_KSTACK, stack_at_guard, Hp by (done || lia); done.
Qed.

(** C25: with 166 free pages [kvmmake] cannot fail, and uses exactly these: the
    tables and 64 stacks.  The table maps the registers of the devices, the
    kernel's text and the rest of memory at their own addresses, the trampoline
    and one stack per process, each with an unmapped page below, and nothing
    else; no page is accessible to users, none is both writable and
    executable.  Only pages that were free are written. *)
Theorem kvmmake_correct (c : kctx) (s : pmem) (fl : list Z) :
  kmem_inv kend s fl -> O_kmem ∉ held c -> (166 <= length fl)%nat ->
  exists root s' tb fl' stacks,
    kvmmake etext trampoline c s = Ret root c s' /\
    vm_own kend s' root tb fl' stacks /\ length stacks = 64%nat /\
    (length fl = 166 + length fl')%nat /\
    (exists ts, fl ≡ₚ ts ++ stacks ++ fl' /\ forall p, is_table tb p <-> p ∈ ts) /\
    (forall v, leaf (pm_mem s') tb v = kmap etext trampoline stacks v) /\
    (forall v, has (leaf (pm_mem s') tb v) PTE_U = false /\
       has (leaf (pm_mem s') tb v) PTE_W && has (leaf (pm_mem s') tb v) PTE_X = false) /\
    (forall i, 0 <= i < NPROC -> exists p, stacks !! Z.to_nat i = Some p /\
       leaf (pm_mem s') tb (KSTACK i / 4096) = mkpte p RW /\ leaf (pm_mem s') tb (KSTACK i / 4096 - 1) = 0) /\
    frame (fun p => p ∈ fl) (pm_mem s) (pm_mem s').
Proof using kend_pos Hetext Htramp.
  intros Hk Hc Hlen; destruct fl as [|p fl]; [cbn in Hlen; lia|].
  destruct (kvmmake_kpt p fl c s Hk Hc) as (s' & tb & fl' & stacks & Hrun & Hl & Kp); [cbn in Hlen; lia|].
  assert (Hl' := Hl); rewrite <- length_reverse in Hl'; assert (Hn : NoDup (p :: fl)) by apply Hk.
  assert (Hst : Forall (page_ok kend) stacks).
  { destruct (bt_own Kp) as (_ & _ & Hps); rewrite reverse_Permutation in Hps.
    eapply Forall_impl; [exact Hps|]; by intros ? []. }
  exists p, s', tb, fl', stacks; split_and!; auto.
  - eapply vm_own_perm; [apply reverse_Permutation|apply (bt_own Kp)].
  - rewrite (kpt_exact _ _ _ _ _ _ _ _ Kp Hn); lia.
  - destruct (bt_pages Kp) as (ts & Hfl & Ht); exists ts; split; [|done].
    by rewrite Hfl, reverse_Permutation.
  - apply (bt_leaf Kp).
  - intros v; rewrite (bt_leaf Kp); by apply kmap_perms.
  - intros i Hi; rewrite !(bt_leaf Kp); by apply kmap_stacks.
  - apply (bt_frame Kp).
Qed.
End make.
End kvm.

(** A machine with 200 pages after a kernel that ends there. *)
Definition demo_end : Z := PHYSTOP - 200 * 4096.

Lemma kvmmake_correct_witness :
  exists s fl, kinit demo_end (Ctx [] []) (PMem (fun _ => 0) 0) = Ret tt (Ctx [] []) s /\
  exists root s' tb fl' stacks,
    kvmmake (KERNBASE + 8192) KERNBASE (Ctx [] []) s = Ret root (Ctx [] []) s' /\
    vm_own demo_end s' root tb fl' stacks /\ length stacks = 64%nat /\
    (length fl = 166 + length fl')%nat /\
    (exists ts, fl ≡ₚ ts ++ stacks ++ fl' /\ forall p, is_table tb p <-> p ∈ ts) /\
    (forall v, leaf (pm_mem s') tb v = kmap (KERNBASE + 8192) KERNBASE stacks v) /\
    (forall v, has (leaf (pm_mem s') tb v) PTE_U = false /\
       has (leaf (pm_mem s') tb v) PTE_W && has (leaf (pm_mem s') tb v) PTE_X = false) /\
    (forall i, 0 <= i < NPROC -> exists p, stacks !! Z.to_nat i = Some p /\
       leaf (pm_mem s') tb (KSTACK i / 4096) = mkpte p RW /\ leaf (pm_mem s') tb (KSTACK i / 4096 - 1) = 0) /\
    frame (fun p => p ∈ fl) (pm_mem s) (pm_mem s').
Proof.
  destruct (kinit_run demo_end eq_refl (Ctx [] []) (PMem (fun _ => 0) 0)) as (s & Hrun & Hk).
  - split_and!; cbn [pm_mem freelist]; [intros a; lia|reflexivity|constructor|constructor].
  - reflexivity.
  - apply demo_free.
  - exists s, (pages_rev (page_count demo_end) (first_page demo_end)); split; [exact Hrun|].
    assert (He : (KERNBASE + 8192) mod 4096 = 0 /\ KERNBASE < KERNBASE + 8192 < PHYSTOP) by (split; [reflexivity|split; reflexivity]).
    assert (Ht : KERNBASE mod 4096 = 0 /\ 0 <= KERNBASE < PHYSTOP) by (split; [reflexivity|split; [discriminate|reflexivity]]).
    assert (Hl : (166 <= length (pages_rev (page_count demo_end) (first_page demo_end)))%nat)
      by (rewrite length_pages_rev; change (page_count demo_end) with 200%nat; lia).
    exact (kvmmake_correct demo_end eq_refl _ _ He Ht _ s _ Hk (demo_free _) Hl).
Defined.
