(* ===== verification/VmGrow.v ===== *)
(** * uvmalloc, uvmdealloc and uvmcopy

    The theorems on growing, shrinking and duplicating an address space. *)

From S2P Require Import Prelude CMem KString Riscv Kalloc Vm VmInv VmMap VmUser.

Lemma npages_lt v sz : v * 4096 < sz <-> v < npages sz.
Proof.
  unfold npages; pose proof (Z.div_mod (sz + 4095) 4096 ltac:(lia)).
  pose proof (Z.mod_pos_bound (sz + 4095) 4096 ltac:(lia)); lia.
Qed.

Lemma npages_mono a b : a <= b -> npages a <= npages b.
Proof. intros; apply Z.div_le_mono; lia. Qed.

(** The flags of a page [uvmalloc] maps. *)
Definition heap_perm (xperm : Z) : Z := Z.lor (Z.lor PTE_R PTE_U) xperm.

Lemma heap_perm_leaf xperm : Z.lor (heap_perm xperm) PTE_V <> PTE_V.
Proof.
  intros H; apply (f_equal (fun z => Z.testbit z 1)) in H; revert H; unfold heap_perm.
  rewrite !Z.lor_spec; discriminate.
Qed.

Section grow.
Variable kend : Z.
Hypothesis kend_pos : 0 < kend.
#[local] Set Default Proof Using "kend_pos".

(** ** uvmalloc *)

Section alloc.
Variables (root : Z) (s0 : pmem) (tb0 : tables) (fl0 ps0 : list Z) (vb : Z) (c : kctx).
Variables (xperm newsz : Z).
Let L0 := leaf (pm_mem s0) tb0.
Hypothesis Hc : O_kmem ∉ held c.
Hypothesis Hvb : 0 <= vb.
Hypothesis Hperm : 0 <= heap_perm xperm < 2 ^ 10.
Hypothesis Hmax : newsz <= MAXVA.
Hypothesis Hfresh : forall v, vb <= v < npages newsz -> L0 v = 0.
#[local] Set Default Proof Using "kend_pos Hc Hvb Hperm Hmax Hfresh".

(** [k] zero pages mapped with [heap_perm xperm]. *)
Definition zgrown := grown kend root s0 tb0 fl0 ps0 vb (fun _ => heap_perm xperm) (fun _ _ => 0).

Lemma uvmalloc_loop_spec f k s tb fl :
  let n := Z.to_nat (npages newsz - vb) in
  zgrown k s tb fl -> (k <= n)%nat -> (n - k < f)%nat ->
  exists s' tb' fl',
    (uvmalloc_loop kend f root ((vb + Z.of_nat k) * 4096) (vb * 4096) newsz xperm c s = Ret newsz c s' /\
     zgrown n s' tb' fl') \/
    (uvmalloc_loop kend f root ((vb + Z.of_nat k) * 4096) (vb * 4096) newsz xperm c s = Ret 0 c s' /\
     undone kend root s0 tb0 fl0 ps0 s' tb' fl').
Proof.
  intros n; revert k s tb fl; induction f as [|f IH]; intros k s tb fl Hg Hk Hf; [lia|].
  cbn [uvmalloc_loop]; destruct (Z.ltb_spec ((vb + Z.of_nat k) * 4096) newsz) as [Hlt|Hge]; cycle 1.
  { exists s, tb, fl; left; split; [done|]; replace n with k; [done|].
    apply Z.nlt_ge in Hge; rewrite npages_lt in Hge; lia. }
  pose proof (proj1 (npages_lt _ _) Hlt) as Hlt'; rewrite MAXVA_eq in Hmax.
  assert (Hback : vb * 4096 + 4096 * Z.of_nat k <= MAXVA) by (rewrite MAXVA_eq; lia).
  assert (Hz : forall v, vb <= v < vb + Z.of_nat k -> L0 v = 0) by (intros; apply Hfresh; lia).
  destruct (grow_one kend kend_pos root s0 tb0 fl0 ps0 vb c (fun _ => heap_perm xperm) (fun _ _ => 0)
    Hc Hvb (fun _ => Hperm) (fun _ => heap_perm_leaf xperm) k s tb fl (fun p m => memset m p 0 PGSIZE) Hg)
    as [(-> & Hka)|(p & s1 & s3 & tb3 & fl3 & Hka & Hp0 & [[Hm Hg3]|(Hm & s4 & Hfr & Hg4)])].
  { rewrite MAXVA_eq; lia. }
  { apply Hfresh; lia. }
  { auto with cmem. }
  { intros p m _ x Hx; specialize (Hx p eq_refl); unfold in_page in Hx.
    rewrite memset_out by (unfold PGSIZE; lia); done. }
  { intros p m _ _ _ i Hi; rewrite memset_in by (unfold PGSIZE; lia); done. }
  - destruct (rollback kend kend_pos root s0 tb0 fl0 ps0 vb c _ _
      Hc Hvb (fun _ => Hperm) (fun _ => heap_perm_leaf xperm) k s tb [] Hg Hback Hz) as (s' & fl' & Hr & Hu).
    exists s', tb, fl'; right; split; [|done]; unfold kbind; by rewrite Hka; cbn [Z.eqb]; rewrite Hr.
  - destruct (IH (S k) s3 tb3 fl3 Hg3) as (s' & tb' & fl' & Hres); [lia|lia|].
    exists s', tb', fl'; unfold kbind, zero_page, kmod; rewrite Hka, Hp0.
    unfold heap_perm in Hm; cbv beta in Hm; rewrite Hm; cbn [Z.eqb negb].
    unfold PGSIZE; rewrite u64_small by lia.
    by replace ((vb + Z.of_nat k) * 4096 + 4096) with ((vb + Z.of_nat (S k)) * 4096) by lia.
  - destruct (rollback kend kend_pos root s0 tb0 fl0 ps0 vb c _ _
      Hc Hvb (fun _ => Hperm) (fun _ => heap_perm_leaf xperm) k s4 tb3 fl3 Hg4 Hback Hz) as (s' & fl' & Hr & Hu).
    exists s', tb3, fl'; right; split; [|done]; unfold kbind, zero_page, kmod; rewrite Hka, Hp0.
    unfold heap_perm in Hm; cbv beta in Hm; rewrite Hm; cbn [Z.eqb negb]; rewrite Hfr; by rewrite Hr.
Qed.
End alloc.

(** ** uvmcopy *)

Section copy.
Variables (old new : Z) (s0 : pmem) (tbo tb0 : tables) (fl0 ps0 : list Z) (c : kctx) (sz : Z).
(** The parent's map and the child's. *)
Let LO := leaf (pm_mem s0) tbo.
Let L0 := leaf (pm_mem s0) tb0.
Hypothesis Hc : O_kmem ∉ held c.
Hypothesis Hsz : 0 <= sz <= MAXVA.
Hypothesis Hold : pt_inv kend (pm_mem s0) old tbo.
Hypothesis Hnew : vm_own kend s0 new tb0 fl0 ps0.
(** The parent's tables and pages are held, apart from the child's. *)
Hypothesis Htbo : forall p, is_table tbo p -> p ∈ ps0.
Hypothesis Hpages : forall v, 0 <= v < npages sz ->
  unmappable (LO v) = true /\ PTE2PA (LO v) ∈ ps0.
Hypothesis Hfresh : forall v, 0 <= v < npages sz -> L0 v = 0.
#[local] Set Default Proof Using "kend_pos Hc Hsz Hold Hnew Htbo Hpages Hfresh".

Definition copy_perm (v : Z) : Z := if decide (0 <= v < npages sz) then PTE_FLAGS (LO v) else PTE_R.
Definition copy_dat (v i : Z) : Z := pm_mem s0 (PTE2PA (LO v) + i).

Lemma PTE_FLAGS_range pte : 0 <= PTE_FLAGS pte < 2 ^ 10.
Proof.
  unfold PTE_FLAGS; change 0x3FF with (Z.ones 10); rewrite Z.land_ones by lia.
  apply Z.mod_pos_bound; lia.
Qed.

Lemma copy_perm_range v : 0 <= copy_perm v < 2 ^ 10.
Proof. unfold copy_perm; case_decide; [apply PTE_FLAGS_range|split; [done|reflexivity]]. Qed.

Lemma flags_V pte : has pte PTE_V = true -> Z.lor (PTE_FLAGS pte) PTE_V = PTE_FLAGS pte.
Proof.
  unfold has, truth; intros HV; apply Z.bits_inj'; intros i Hi.
  rewrite Z.lor_spec; change PTE_V with (2 ^ 0) in *; rewrite Z.pow2_bits_eqb by lia.
  destruct (Z.eqb_spec 0 i) as [<-|]; [|by rewrite orb_false_r].
  unfold PTE_FLAGS; rewrite Z.land_spec, orb_true_r, andb_true_r.
  destruct (Z.testbit pte 0) eqn:E; [done|].
  apply negb_true_iff, Z.eqb_neq in HV; destruct HV; apply Z.bits_inj'; intros j Hj.
  rewrite Z.land_spec, Z.pow2_bits_eqb, Z.bits_0 by lia.
  destruct (Z.eqb_spec 0 j) as [<-|]; [by rewrite E|by rewrite andb_false_r].
Qed.

Lemma copy_perm_leaf v : Z.lor (copy_perm v) PTE_V <> PTE_V.
Proof.
  unfold copy_perm; case_decide as E; [|done].
  destruct (Hpages v E) as [[HV HF]%andb_true_iff _]; rewrite flags_V by done; lia.
Qed.

(** [k] pages of the child hold copies of the parent's. *)
Definition cgrown := grown kend new s0 tb0 fl0 ps0 0 copy_perm copy_dat.

Lemma ps0_keep q x m :
  q ∈ ps0 -> in_page q x -> frame (fun p => p ∈ fl0 \/ is_table tb0 p) (pm_mem s0) m ->
  m x = pm_mem s0 x.
Proof. intros; by eapply own_keep. Qed.

Lemma ps0_apart p : p ∈ fl0 \/ is_table tb0 p -> p mod 4096 = 0 /\ p ∉ ps0.
Proof.
  destruct Hnew as ((Hk & Hi & _) & Hnd & Hown); intros [Hp|[k Hp]].
  - destruct Hk as (_ & _ & _ & Hok); rewrite Forall_forall in Hok; split; [by destruct (Hok p Hp)|].
    intros Hp'; apply NoDup_app in Hnd as (_ & Hnd & _); by apply (Hnd p).
  - split; [by destruct (pt_page _ _ _ _ Hi _ _ Hp)|]; intros Hp'.
    rewrite Forall_forall in Hown; apply (Hown p Hp'); by exists k.
Qed.

(** The parent is untouched while the child grows. *)
Lemma parent_keep m :
  frame (fun p => p ∈ fl0 \/ is_table tb0 p) (pm_mem s0) m ->
  pt_inv kend m old tbo /\ forall v, leaf m tbo v = LO v.
Proof.
  assert (HP : forall p, p ∈ fl0 \/ is_table tb0 p -> p mod 4096 = 0 /\ ~ is_table tbo p).
  { intros p Hp; destruct (ps0_apart p Hp) as [Ha Hn]; split; [done|].
    intros Ht; by apply Hn, Htbo. }
  intros Hf; split; [by eapply pt_inv_frame|intros v; by eapply leaf_frame].
Qed.

Lemma PTE2PA_mod pte : PTE2PA pte mod 4096 = 0.
Proof.
  unfold PTE2PA, u64; rewrite Z.shiftl_mul_pow2 by lia.
  rewrite Z.mod_mod_divide by (by exists (2 ^ 52)).
  apply Z.mod_mul; lia.
Qed.

(** The page copied has the parent's bytes. *)
Lemma memmove_page p pa m :
  mem_ok m -> frame (fun q => q = p) m (memmove m p pa PGSIZE) /\
  forall i, 0 <= i < 4096 -> memmove m p pa PGSIZE (p + i) = m (pa + i).
Proof.
  intros Hm; split.
  - intros x Hx; specialize (Hx p eq_refl); unfold in_page in Hx.
    rewrite memmove_at by done; unfold PGSIZE.
    destruct (Z.leb_spec p x), (Z.ltb_spec x (p + 4096)); simpl; auto; lia.
  - intros i Hi; rewrite memmove_at by done; unfold PGSIZE.
    replace (p <=? p + i) with true by lia; replace (p + i <? p + 4096) with true by lia.
    cbn [andb]; f_equal; lia.
Qed.

Lemma copy_page_dat k s tb fl p m v :
  cgrown k s tb fl -> 0 <= v < npages sz -> p ∈ fl -> mem_ok m ->
  frame (fun q => q = p) (pm_mem s) m ->
  forall i, 0 <= i < 4096 -> memmove m p (PTE2PA (LO v)) PGSIZE (p + i) = copy_dat v i.
Proof.
  intros Hg Hv Hp Hm Hf i Hi; destruct (Hpages v Hv) as [_ Hq]; unfold copy_dat.
  destruct (memmove_page p (PTE2PA (LO v)) m Hm) as [_ ->]; [|done].
  assert (Hin : in_page (PTE2PA (LO v)) (PTE2PA (LO v) + i)) by (unfold in_page; lia).
  rewrite Hf; [eapply ps0_keep; [exact Hq|done|apply (g_frame _ _ _ _ _ _ _ _ _ _ _ _ _ Hg)]|].
  intros q -> Hpx.
  destruct (vm_step_fresh kend kend_pos _ _ _ _ _ _ _ _ _ _ (g_step _ _ _ _ _ _ _ _ _ _ _ _ _ Hg)) as (ts & Hfl & _).
  destruct (ps0_apart p) as [Hpa Hn]; [left; rewrite Hfl; set_solver|].
  by rewrite (in_page_inj p _ _ Hpa (PTE2PA_mod _) Hpx Hin) in Hn.
Qed.

Lemma uvmcopy_loop_spec f k s tb fl :
  let n := Z.to_nat (npages sz) in
  cgrown k s tb fl -> (k <= n)%nat -> (n - k < f)%nat ->
  exists s' tb' fl',
    (uvmcopy_loop kend f old new (Z.of_nat k * 4096) sz c s = Ret 0 c s' /\ cgrown n s' tb' fl') \/
    (uvmcopy_loop kend f old new (Z.of_nat k * 4096) sz c s = Ret (-1) c s' /\
     undone kend new s0 tb0 fl0 ps0 s' tb' fl').
Proof.
  intros n; revert k s tb fl; induction f as [|f IH]; intros k s tb fl Hg Hk Hf; [lia|].
  cbn [uvmcopy_loop]; destruct (Z.ltb_spec (Z.of_nat k * 4096) sz) as [Hlt|Hge]; cycle 1.
  { exists s, tb, fl; left; split; [done|]; replace n with k; [done|].
    apply Z.nlt_ge in Hge; rewrite npages_lt in Hge; lia. }
  pose proof (proj1 (npages_lt _ _) Hlt) as Hlt'; pose proof Hsz as Hsz'; rewrite MAXVA_eq in Hsz'.
  assert (Hva : 0 <= Z.of_nat k * 4096 < MAXVA) by (rewrite MAXVA_eq; lia).
  assert (Hz : forall v, 0 <= v < 0 + Z.of_nat k -> L0 v = 0) by (intros; apply Hfresh; lia).
  destruct (parent_keep _ (g_frame _ _ _ _ _ _ _ _ _ _ _ _ _ Hg)) as [Hio HLO].
  destruct (Hpages (Z.of_nat k)) as [[HV HF]%andb_true_iff Hq]; [lia|].
  rewrite (walk_read kend kend_pos s old tbo) by done.
  destruct (leaf_some (pm_mem s) tbo (Z.of_nat k)) as [b Hb].
  { rewrite HLO; intros E; by rewrite E, has_0 in HV. }
  destruct (vpn_split (Z.of_nat k * 4096) Hva) as [<- _].
  rewrite Z.div_mul, Hb, HLO, HV by lia; cbn [negb].
  assert (Hp : copy_perm (Z.of_nat k) = PTE_FLAGS (LO (Z.of_nat k)))
    by (unfold copy_perm; by rewrite decide_True by lia).
  replace (Z.of_nat k * 4096 / PGSIZE) with (Z.of_nat k) by (unfold PGSIZE; rewrite Z.div_mul; lia).
  destruct (grow_one kend kend_pos new s0 tb0 fl0 ps0 0 c copy_perm copy_dat Hc ltac:(lia)
    copy_perm_range copy_perm_leaf k s tb fl (fun p m => memmove m p (PTE2PA (LO (Z.of_nat k))) PGSIZE) Hg)
    as [(-> & Hka)|(p & s1 & s3 & tb3 & fl3 & Hka & Hp0 & [[Hm Hg3]|(Hm & s4 & Hfr & Hg4)])]; auto.
  { apply Hfresh; lia. }
  { intros p m Hm; by apply memmove_ok. }
  { intros p m Hm; by apply memmove_page. }
  { intros p m Hpf Hm Hfm; apply (copy_page_dat k s tb fl); auto; lia. }
  - destruct (rollback_unmap kend kend_pos new s0 tb0 fl0 ps0 0 c _ _ Hc ltac:(lia)
      copy_perm_range copy_perm_leaf k s tb [] Hg ltac:(lia) Hz) as (s' & fl' & Hr & Hu).
    change (0 * 4096) with 0 in Hr.
    exists s', tb, fl'; right; split; [|done]; unfold kbind; by rewrite Hka; cbn [Z.eqb]; rewrite Hr.
  - destruct (IH (S k) s3 tb3 fl3 Hg3) as (s' & tb' & fl' & Hres); [lia|lia|].
    exists s', tb', fl'; unfold kbind, kmod; rewrite Hka, Hp0.
    rewrite Z.add_0_l, Hp in Hm; rewrite Hm; cbn [Z.eqb negb].
    unfold PGSIZE; rewrite u64_small by lia.
    by replace (Z.of_nat k * 4096 + 4096) with (Z.of_nat (S k) * 4096) by lia.
  - destruct (rollback_unmap kend kend_pos new s0 tb0 fl0 ps0 0 c _ _ Hc ltac:(lia)
      copy_perm_range copy_perm_leaf k s4 tb3 fl3 Hg4 ltac:(lia) Hz) as (s' & fl' & Hr & Hu).
    change (0 * 4096) with 0 in Hr.
    exists s', tb3, fl'; right; split; [|done]; unfold kbind, kmod; rewrite Hka, Hp0.
    rewrite Z.add_0_l, Hp in Hm; rewrite Hm; cbn [Z.eqb negb]; rewrite Hfr; by rewrite Hr.
Qed.
End copy.

(** ** Properties *)

(** [mappages] of [n] unmapped pages writes the [n] entries and returns 0,
    or runs out of memory, returns -1 and has written a prefix of them; every
    other translation stays, and pages taken from the allocator are tables. *)
Theorem mappages_correct (n : nat) (root : Z) (s : pmem) (tb : tables) (fl : list Z)
    (va pa perm : Z) (c : kctx) :
  vm_inv kend s root tb fl -> O_kmem ∉ held c -> 0 <= perm < 2 ^ 10 ->
  (0 < n)%nat -> va mod 4096 = 0 -> 0 <= va -> va + 4096 * Z.of_nat n <= MAXVA ->
  is_frame pa -> pa + 4096 * Z.of_nat n <= 2 ^ 56 ->
  (forall v, va / 4096 <= v < va / 4096 + Z.of_nat n -> has (leaf (pm_mem s) tb v) PTE_V = false) ->
  exists r s' tb' fl' (k : nat),
    mappages root va (4096 * Z.of_nat n) pa perm c s = Ret r c s' /\
    ((r = 0 /\ k = n) \/ (r = -1 /\ (k < n)%nat /\ fl' = [])) /\
    vm_change kend root s tb fl s' tb' fl'
      (fun v => if decide (va / 4096 <= v < va / 4096 + Z.of_nat k)
                then mkpte (pa + 4096 * (v - va / 4096)) perm else leaf (pm_mem s) tb v).
Proof.
  intros Hv Hc Hperm Hn Hal Hva Hmax Hpa Hpm Hno; pose proof Hmax as Hm; rewrite MAXVA_eq in Hm.
  destruct (mappages_loop_spec kend kend_pos n s root tb fl va pa perm c)
    as (s' & tb' & fl' & k & Hch & _ & Hcase); auto.
  rewrite mappages_run by lia.
  destruct Hcase as [[-> Hr]|(Hk & -> & _ & Hr)]; rewrite Hr; [exists 0, s', tb', fl', n|exists (-1), s', tb', [], k];
    split_and!; auto.
Qed.

(** C26: [uvmalloc] either returns the new size with every page between the two
    sizes mapped to a fresh zero page, or returns 0 with the address space and
    the pages of the caller as they were; no page is lost in either case, and
    no memory is written but free pages and tables. *)
Theorem uvmalloc_correct (root : Z) (s : pmem) (tb : tables) (fl ps : list Z)
    (oldsz newsz xperm : Z) (c : kctx) :
  vm_own kend s root tb fl ps -> O_kmem ∉ held c ->
  0 <= oldsz <= newsz -> newsz <= MAXVA -> 0 <= heap_perm xperm < 2 ^ 10 ->
  (forall v, npages oldsz <= v < npages newsz -> leaf (pm_mem s) tb v = 0) ->
  exists s' tb' fl',
    (uvmalloc kend root oldsz newsz xperm c s = Ret newsz c s' /\
     grown kend root s tb fl ps (npages oldsz) (fun _ => heap_perm xperm) (fun _ _ => 0)
       (Z.to_nat (npages newsz - npages oldsz)) s' tb' fl') \/
    (uvmalloc kend root oldsz newsz xperm c s = Ret 0 c s' /\
     undone kend root s tb fl ps s' tb' fl').
Proof.
  intros Ho Hc Hsz Hmax Hperm Hfresh; pose proof Hmax as Hmax'; rewrite MAXVA_eq in Hmax'.
  assert (Hvb : 0 <= npages oldsz) by (apply Z.div_pos; lia).
  unfold uvmalloc; replace (newsz <? oldsz) with false by lia; rewrite PGROUNDUP_eq by lia.
  fold (npages oldsz); unfold PGSIZE.
  replace ((newsz - npages oldsz * 4096 + 4096 - 1) / 4096) with (npages newsz - npages oldsz).
  2: { replace (newsz - npages oldsz * 4096 + 4096 - 1) with (newsz + 4095 + - npages oldsz * 4096) by lia.
       rewrite Z.div_add by lia; fold (npages newsz); lia. }
  destruct (uvmalloc_loop_spec root s tb fl ps (npages oldsz) c xperm newsz Hc Hvb Hperm Hmax Hfresh
    (S (Z.to_nat (npages newsz - npages oldsz))) 0 s tb fl) as (s' & tb' & fl' & H);
    [|lia|lia|rewrite Z.add_0_r in H; by exists s', tb', fl'].
  apply (grown_0 kend kend_pos root s tb fl ps (npages oldsz) c); auto.
  intros _; apply heap_perm_leaf.
Qed.

(** [uvmdealloc] unmaps exactly the pages between the two sizes and gives
    them back to the allocator. *)
Theorem uvmdealloc_correct (root : Z) (s : pmem) (tb : tables) (fl ps : list Z)
    (oldsz newsz : Z) (c : kctx) :
  let n := Z.to_nat (npages oldsz - npages newsz) in
  let qs := frames (leaf (pm_mem s) tb) (npages newsz) n in
  vm_own kend s root tb fl (qs ++ ps) -> O_kmem ∉ held c ->
  0 <= newsz <= oldsz -> oldsz <= MAXVA ->
  (forall v, npages newsz <= v < npages oldsz -> unmappable (leaf (pm_mem s) tb v) = true) ->
  exists s', uvmdealloc kend root oldsz newsz c s = Ret newsz c s' /\
    vm_own kend s' root tb (rev qs ++ fl) ps /\
    (forall v, leaf (pm_mem s') tb v =
       if decide (npages newsz <= v < npages oldsz) then 0 else leaf (pm_mem s) tb v) /\
    frame (fun q => q ∈ qs \/ is_table tb q) (pm_mem s) (pm_mem s').
Proof.
  intros n qs Ho Hc Hsz Hmax HL.
  assert (Hle : npages newsz <= npages oldsz) by (apply npages_mono; lia).
  destruct (uvmdealloc_spec kend kend_pos root s tb fl ps oldsz newsz n c) as (s' & Hr & Hs & Hf); auto;
    [lia|].
  exists s'; split_and!; auto; [apply (vs_own _ _ _ _ _ _ _ _ _ _ _ Hs)|].
  intros v; rewrite (vs_leaf _ _ _ _ _ _ _ _ _ _ _ Hs); unfold cleared.
  repeat case_decide; (done || lia).
Qed.

(** C27: [uvmcopy] either returns 0 with the child's first pages mapped to fresh
    pages that carry the parent's bytes under the parent's flags, or returns -1
    with the child's map empty again and every page accounted for (pages the
    child's table itself grew by stay part of it); the parent is untouched. *)
Theorem uvmcopy_correct (old new : Z) (s : pmem) (tbo tb : tables) (fl ps : list Z)
    (c : kctx) (sz : Z) :
  O_kmem ∉ held c -> 0 <= sz <= MAXVA ->
  pt_inv kend (pm_mem s) old tbo -> vm_own kend s new tb fl ps ->
  (forall p, is_table tbo p -> p ∈ ps) ->
  (forall v, 0 <= v < npages sz ->
     unmappable (leaf (pm_mem s) tbo v) = true /\ PTE2PA (leaf (pm_mem s) tbo v) ∈ ps) ->
  (forall v, 0 <= v < npages sz -> leaf (pm_mem s) tb v = 0) ->
  exists s' tb' fl',
    ((uvmcopy kend old new sz c s = Ret 0 c s' /\
      grown kend new s tb fl ps 0 (copy_perm s tbo sz) (copy_dat s tbo)
        (Z.to_nat (npages sz)) s' tb' fl') \/
     (uvmcopy kend old new sz c s = Ret (-1) c s' /\ undone kend new s tb fl ps s' tb' fl')) /\
    (forall v, leaf (pm_mem s') tbo v = leaf (pm_mem s) tbo v) /\
    (forall q x, q ∈ ps -> in_page q x -> pm_mem s' x = pm_mem s x).
Proof.
  intros Hc Hsz Hold Hnew Htbo Hpages Hfresh; unfold uvmcopy, PGSIZE.
  replace (sz + 4096 - 1) with (sz + 4095) by lia; fold (npages sz).
  destruct (uvmcopy_loop_spec old new s tbo tb fl ps c sz Hc Hsz Hold Hnew Htbo Hpages Hfresh
    (S (Z.to_nat (npages sz))) 0 s tb fl) as (s' & tb' & fl' & H); [|lia|lia|].
  { apply (grown_0 kend kend_pos new s tb fl ps 0 c); auto; [lia|intros v; eapply copy_perm_range; eauto|].
    intros v; eapply copy_perm_leaf; eauto. }
  assert (Hf : frame (fun p => p ∈ fl \/ is_table tb p) (pm_mem s) (pm_mem s')).
  { destruct H as [[_ Hg]|[_ Hu]]; [apply (g_frame _ _ _ _ _ _ _ _ _ _ _ _ _ Hg)|].
    apply (u_frame _ _ _ _ _ _ _ _ _ Hu). }
  exists s', tb', fl'; split_and!; [done| |].
  - eapply parent_keep; eauto.
  - intros q x Hq Hx; by eapply ps0_keep; eauto.
Qed.
End grow.

(** ** Witnesses *)

Lemma KERNBASE_pos : 0 < KERNBASE.
Proof. reflexivity. Qed.

Lemma mappages_correct_witness :
  exists r s' tb' fl' (k : nat),
    mappages (pg 0) 4096 (4096 * Z.of_nat 2) (pg 10) PTE_R (Ctx [] []) demo_vm = Ret r (Ctx [] []) s' /\
    ((r = 0 /\ k = 2%nat) \/ (r = -1 /\ (k < 2)%nat /\ fl' = [])) /\
    vm_change KERNBASE (pg 0) demo_vm demo_tbo demo_fl s' tb' fl'
      (fun v => if decide (4096 / 4096 <= v < 4096 / 4096 + Z.of_nat k)
                then mkpte (pg 10 + 4096 * (v - 4096 / 4096)) PTE_R else leaf (pm_mem demo_vm) demo_tbo v).
Proof.
  apply (mappages_correct KERNBASE KERNBASE_pos 2 (pg 0) demo_vm demo_tbo demo_fl 4096 (pg 10) PTE_R).
  - apply demo_own_old.
  - apply demo_free.
  - split; [by vm_compute|reflexivity].
  - lia.
  - reflexivity.
  - lia.
  - rewrite MAXVA_eq; lia.
  - split; [split; [by vm_compute|reflexivity]|reflexivity].
  - by vm_compute.
  - intros v Hv; change (4096 / 4096) with 1 in Hv; cbn [demo_vm pm_mem]; rewrite demo_leaf.
    rewrite decide_False by lia; apply has_0.
Defined.

Lemma uvmalloc_correct_witness :
  exists s' tb' fl',
    (uvmalloc KERNBASE (pg 0) 4096 8200 PTE_W (Ctx [] []) demo_vm = Ret 8200 (Ctx [] []) s' /\
     grown KERNBASE (pg 0) demo_vm demo_tbo demo_fl [pg 3; pg 4] (npages 4096)
       (fun _ => heap_perm PTE_W) (fun _ _ => 0) (Z.to_nat (npages 8200 - npages 4096)) s' tb' fl') \/
    (uvmalloc KERNBASE (pg 0) 4096 8200 PTE_W (Ctx [] []) demo_vm = Ret 0 (Ctx [] []) s' /\
     undone KERNBASE (pg 0) demo_vm demo_tbo demo_fl [pg 3; pg 4] s' tb' fl').
Proof.
  apply (uvmalloc_correct KERNBASE KERNBASE_pos (pg 0) demo_vm demo_tbo demo_fl [pg 3; pg 4] 4096 8200).
  - apply demo_own_old.
  - apply demo_free.
  - lia.
  - rewrite MAXVA_eq; lia.
  - split; [by vm_compute|reflexivity].
  - intros v Hv; change (npages 4096) with 1 in Hv; cbn [demo_vm pm_mem]; rewrite demo_leaf.
    by rewrite decide_False by lia.
Defined.

Lemma uvmdealloc_correct_witness :
  let qs := frames (leaf (pm_mem demo_vm) demo_tbo) (npages 0) 1 in
  exists s', uvmdealloc KERNBASE (pg 0) 4096 0 (Ctx [] []) demo_vm = Ret 0 (Ctx [] []) s' /\
    vm_own KERNBASE s' (pg 0) demo_tbo (rev qs ++ demo_fl) [pg 4] /\
    (forall v, leaf (pm_mem s') demo_tbo v =
       if decide (npages 0 <= v < npages 4096) then 0 else leaf (pm_mem demo_vm) demo_tbo v) /\
    frame (fun q => q ∈ qs \/ is_table demo_tbo q) (pm_mem demo_vm) (pm_mem s').
Proof.
  apply (uvmdealloc_correct KERNBASE KERNBASE_pos (pg 0) demo_vm demo_tbo demo_fl [pg 4] 4096 0 (Ctx [] [])).
  - change (vm_own KERNBASE demo_vm (pg 0) demo_tbo demo_fl
      ([PTE2PA (leaf demo_vmem demo_tbo 0)] ++ [pg 4])).
    rewrite demo_leaf, decide_True, mkpte_pa by done; apply demo_own_old.
  - apply demo_free.
  - lia.
  - rewrite MAXVA_eq; lia.
  - intros v Hv; change (npages 0) with 0 in Hv; change (npages 4096) with 1 in Hv.
    assert (v = 0) as -> by lia; cbn [demo_vm pm_mem]; rewrite demo_leaf; by vm_compute.
Defined.

Lemma uvmcopy_correct_witness :
  let ps := [pg 0; pg 1; pg 2; pg 3] in
  exists s' tb' fl',
    ((uvmcopy KERNBASE (pg 0) (pg 4) 100 (Ctx [] []) demo_vm = Ret 0 (Ctx [] []) s' /\
      grown KERNBASE (pg 4) demo_vm demo_tbn demo_fl ps 0 (copy_perm demo_vm demo_tbo 100)
        (copy_dat demo_vm demo_tbo) (Z.to_nat (npages 100)) s' tb' fl') \/
     (uvmcopy KERNBASE (pg 0) (pg 4) 100 (Ctx [] []) demo_vm = Ret (-1) (Ctx [] []) s' /\
      undone KERNBASE (pg 4) demo_vm demo_tbn demo_fl ps s' tb' fl')) /\
    (forall v, leaf (pm_mem s') demo_tbo v = leaf (pm_mem demo_vm) demo_tbo v) /\
    (forall q x, q ∈ ps -> in_page q x -> pm_mem s' x = pm_mem demo_vm x).
Proof.
  apply (uvmcopy_correct KERNBASE KERNBASE_pos).
  - apply demo_free.
  - rewrite MAXVA_eq; lia.
  - apply demo_pt_old.
  - apply demo_own_new.
  - intros p Hp%demo_tbo_pages; set_solver.
  - intros v Hv; change (npages 100) with 1 in Hv; assert (v = 0) as -> by lia.
    cbn [demo_vm pm_mem]; rewrite demo_leaf, decide_True by done; split; [by vm_compute|].
    rewrite mkpte_pa by done; set_solver.
  - intros v _; apply demo_leaf_new.
Defined.
