(* ===== verification/VmCopy.v ===== *)
(** * copyout, copyin and copyinstr

    The copies between the kernel and a user address space, which work page
    by page, agree with references that work byte by byte. *)

From S2P Require Import Prelude CMem KString Riscv Kalloc Vm VmInv VmMap VmUser.

(** ** Byte-wise references

    [L] is the map from virtual pages to entries. *)
Definition writable (pte : Z) : bool := has pte PTE_V && has pte PTE_U && has pte PTE_W.
Definition readable (pte : Z) : bool := has pte PTE_V && has pte PTE_U.
Definition uaddr (L : Z -> Z) (va : Z) : Z := PTE2PA (L (va / 4096)) + va mod 4096.

Fixpoint copyout_ref (L : Z -> Z) (m : mem) (va : Z) (src : list Z) : Z * mem :=
  match src with
  | [] => (0, m)
  | b :: src' =>
      if (va <? MAXVA) && writable (L (va / 4096))
      then copyout_ref L (store_bytes m (uaddr L va) [b]) (va + 1) src'
      else (-1, m)
  end.

(** The bytes read before the end or a fault. *)
Fixpoint copyin_ref (L : Z -> Z) (m : mem) (va : Z) (n : nat) : Z * list Z :=
  match n with
  | O => (0, [])
  | S n' =>
      if (va <? MAXVA) && readable (L (va / 4096)) then
        let '(r, l) := copyin_ref L m (va + 1) n' in (r, m (uaddr L va) :: l)
      else (-1, [])
  end.

Fixpoint copyinstr_ref (L : Z -> Z) (m : mem) (va : Z) (n : nat) : Z * list Z :=
  match n with
  | O => (-1, [])
  | S n' =>
      if (va <? MAXVA) && readable (L (va / 4096)) then
        if m (uaddr L va) =? 0 then (0, [0])
        else let '(r, l) := copyinstr_ref L m (va + 1) n' in (r, m (uaddr L va) :: l)
      else (-1, [])
  end.

(** ** A run of bytes within one page *)

Lemma in_page_div va i : 0 <= i -> va mod 4096 + i < 4096 ->
  (va + i) / 4096 = va / 4096 /\ (va + i) mod 4096 = va mod 4096 + i.
Proof.
  intros Hi Hr; pose proof (Z.mod_pos_bound va 4096 ltac:(lia)).
  pose proof (Z.div_mod va 4096 ltac:(lia)); split; symmetry.
  - apply (Z.div_unique _ _ _ (va mod 4096 + i)); lia.
  - apply (Z.mod_unique _ _ (va / 4096)); lia.
Qed.

Lemma MAXVA_page va i : va < MAXVA -> va mod 4096 + i < 4096 -> va + i < MAXVA.
Proof.
  rewrite MAXVA_eq; intros; pose proof (Z.div_mod va 4096 ltac:(lia)).
  pose proof (Z.mod_pos_bound va 4096 ltac:(lia)); lia.
Qed.

Lemma copyout_ref_proper L m m' va src :
  m ≡ m' -> (copyout_ref L m va src).1 = (copyout_ref L m' va src).1 /\
            (copyout_ref L m va src).2 ≡ (copyout_ref L m' va src).2.
Proof.
  revert m m' va; induction src as [|b src IH]; intros m m' va H; cbn [copyout_ref]; [done|].
  destruct (_ && _); [|done]; apply IH; by rewrite H.
Qed.

Lemma copyin_ref_proper L m m' va n : m ≡ m' -> copyin_ref L m va n = copyin_ref L m' va n.
Proof.
  intros H; revert va; induction n as [|n IH]; intros va; cbn [copyin_ref]; [done|].
  by rewrite IH, (H (uaddr L va)).
Qed.

Lemma copyout_ref_page L m va bs rest :
  0 <= va < MAXVA -> va mod 4096 + Z.of_nat (length bs) <= 4096 ->
  writable (L (va / 4096)) = true ->
  let a := copyout_ref L m va (bs ++ rest) in
  let b := copyout_ref L (store_bytes m (uaddr L va) bs) (va + Z.of_nat (length bs)) rest in
  a.1 = b.1 /\ a.2 ≡ b.2.
Proof.
  revert m va; induction bs as [|b bs IH]; intros m va Hva Hp Hw; cbn [app length].
  - rewrite Z.add_0_r; apply copyout_ref_proper; by rewrite store_bytes_nil.
  - cbn [copyout_ref length] in *; replace (va <? MAXVA) with true by lia; rewrite Hw; cbn [andb].
    destruct bs as [|b' bs].
    { simpl; replace (va + Z.of_nat 1) with (va + 1) by lia; done. }
    destruct (in_page_div va 1 ltac:(lia) ltac:(cbn [length] in Hp; lia)) as [Hd Hm].
    pose proof (MAXVA_page va 1 ltac:(lia) ltac:(cbn [length] in Hp; lia)).
    destruct (IH (store_bytes m (uaddr L va) [b]) (va + 1)) as [H1 H2];
      [lia|rewrite Hm; cbn [length] in *; lia|by rewrite Hd|].
    assert (Hu : uaddr L (va + 1) = uaddr L va + 1) by (unfold uaddr; rewrite Hd, Hm; lia).
    destruct (copyout_ref_proper L
      (store_bytes (store_bytes m (uaddr L va) [b]) (uaddr L (va + 1)) (b' :: bs))
      (store_bytes m (uaddr L va) (b :: b' :: bs)) (va + 1 + Z.of_nat (length (b' :: bs))) rest) as [P1 P2].
    { rewrite Hu; symmetry; apply store_bytes_cons. }
    replace (va + Z.of_nat (S (length (b' :: bs)))) with (va + 1 + Z.of_nat (length (b' :: bs))) by lia.
    split; [by rewrite H1|by rewrite H2].
Qed.

Lemma copyin_ref_page L m va (k n : nat) :
  0 <= va < MAXVA -> va mod 4096 + Z.of_nat k <= 4096 -> readable (L (va / 4096)) = true ->
  copyin_ref L m va (k + n) =
  let '(r, l) := copyin_ref L m (va + Z.of_nat k) n in (r, load_bytes m (uaddr L va) k ++ l).
Proof.
  revert va; induction k as [|k IH]; intros va Hva Hp Hr; cbn [Nat.add].
  - rewrite Z.add_0_r; by destruct (copyin_ref L m va n).
  - cbn [copyin_ref]; replace (va <? MAXVA) with true by lia; rewrite Hr; cbn [andb].
    rewrite load_bytes_S; destruct k as [|k].
    { replace (va + Z.of_nat 1) with (va + 1) by lia; simpl; by destruct (copyin_ref L m (va + 1) n). }
    destruct (in_page_div va 1 ltac:(lia) ltac:(lia)) as [Hd Hm].
    pose proof (MAXVA_page va 1 ltac:(lia) ltac:(lia)).
    rewrite IH by (rewrite ?Hd, ?Hm; auto; lia).
    assert (Hu : uaddr L (va + 1) = uaddr L va + 1) by (unfold uaddr; rewrite Hd, Hm; lia).
    rewrite Hu; replace (va + 1 + Z.of_nat (S k)) with (va + Z.of_nat (S (S k))) by lia.
    by destruct (copyin_ref L m (va + Z.of_nat (S (S k))) n).
Qed.

Lemma MAXVA_round va : (MAXVA <=? va - va mod 4096) = (MAXVA <=? va).
Proof.
  rewrite MAXVA_eq; pose proof (Z.div_mod va 4096 ltac:(lia)).
  pose proof (Z.mod_pos_bound va 4096 ltac:(lia)).
  destruct (Z.leb_spec (2 ^ 38) va); lia.
Qed.

Lemma round_div va : (va - va mod 4096) / 4096 = va / 4096.
Proof.
  replace (va - va mod 4096) with (va / 4096 * 4096)
    by (pose proof (Z.div_mod va 4096 ltac:(lia)); lia).
  apply Z.div_mul; lia.
Qed.

Section copies.
Variable kend : Z.
Hypothesis kend_pos : 0 < kend.
Variables (root : Z) (tb : tables) (L : Z -> Z) (c : kctx).

(** No table is reachable by the user. *)
Hypothesis Hsep : forall v, writable (L v) = true -> ~ is_table tb (PTE2PA (L v)).

(** A state whose page table is [tb] and represents [L]. *)
Definition maps (s : pmem) : Prop :=
  pt_inv kend (pm_mem s) root tb /\ forall v, leaf (pm_mem s) tb v = L v.

Lemma PTE2PA_aligned pte : PTE2PA pte mod 4096 = 0.
Proof.
  unfold PTE2PA, u64; rewrite Z.shiftl_mul_pow2 by lia.
  rewrite Z.mod_mod_divide by (by exists (2 ^ 52)).
  apply Z.mod_mul; lia.
Qed.

Lemma maps_write s v off bs :
  maps s -> writable (L v) = true -> 0 <= off -> off + Z.of_nat (length bs) <= 4096 ->
  maps (with_mem (fun m => store_bytes m (PTE2PA (L v) + off) bs) s).
Proof using Hsep.
  intros [Hi HL] Hw Ho Hl; cbn [with_mem pm_mem].
  assert (Hf : frame (fun p => p = PTE2PA (L v)) (pm_mem s)
             (store_bytes (pm_mem s) (PTE2PA (L v) + off) bs)).
  { intros x Hx; apply store_bytes_out; specialize (Hx _ eq_refl); unfold in_page in Hx; lia. }
  assert (HP : forall p, p = PTE2PA (L v) -> p mod 4096 = 0 /\ ~ is_table tb p).
  { intros p ->; split; [apply PTE2PA_aligned|by apply Hsep]. }
  split; [by eapply pt_inv_frame|intros v'; rewrite <- (HL v'); by eapply leaf_frame].
Qed.

(** The bytes a turn handles. *)
Definition chunk (va len : Z) : Z := if len <? 4096 - va mod 4096 then len else 4096 - va mod 4096.

Lemma chunk_range va len : 0 < len -> 0 < chunk va len <= len /\ chunk va len <= 4096 - va mod 4096.
Proof. pose proof (Z.mod_pos_bound va 4096 ltac:(lia)); unfold chunk; case_match; lia. Qed.

Lemma chunk_next va len : 0 < len -> chunk va len <> len -> va - va mod 4096 + 4096 = va + chunk va len.
Proof. unfold chunk; case_match; lia. Qed.

(** One turn of [copyout]. *)
Lemma copyout_turn fuel s va l :
  maps s -> 0 <= va -> l <> [] ->
  copyout_loop (S fuel) root va l c s =
  if (va <? MAXVA) && writable (L (va / 4096)) then
    let n := Z.to_nat (chunk va (Z.of_nat (length l))) in
    copyout_loop fuel root (u64 (va - va mod 4096 + 4096)) (drop n l) c
      (with_mem (fun m => store_bytes m (uaddr L va) (take n l)) s)
  else Ret (-1) c s.
Proof using kend_pos.
  intros [Hi HL] Hva Hl; destruct l as [|b l]; [done|]; set (l' := b :: l); cbn [copyout_loop].
  change (match l' with [] => kret 0 | _ => ?k end) with k.
  pose proof (Z.mod_pos_bound va 4096 ltac:(lia)) as Hmod.
  rewrite PGROUNDDOWN_eq, MAXVA_round; replace (va - (va - va mod 4096)) with (va mod 4096) by lia.
  destruct (Z.leb_spec MAXVA va) as [Hm|Hm]; [by replace (va <? MAXVA) with false by lia|].
  replace (va <? MAXVA) with true by lia; cbn [andb]; rewrite MAXVA_eq in Hm.
  rewrite (walk_read kend kend_pos s root tb) by (done || (rewrite MAXVA_eq; pose proof (Z.div_mod va 4096 ltac:(lia)); pose proof (Z.div_pos va 4096); lia)).
  replace ((va - va mod 4096) / 2 ^ 21) with (va / 4096 / 512)
    by (rewrite <- (round_div va), Z.div_div by lia; done).
  rewrite round_div, <- HL; destruct (tb !! (0%nat, va / 4096 / 512)) as [p|] eqn:Ep; cycle 1.
  { unfold leaf, writable; by rewrite Ep, has_0. }
  rewrite HL; unfold writable, uaddr; fold (chunk va (Z.of_nat (length l'))).
  destruct (has _ PTE_V), (has _ PTE_U), (has _ PTE_W); done.
Qed.

Lemma copyout_loop_spec fuel s va src :
  maps s -> 0 <= va < 2 ^ 64 -> (length src <= fuel)%nat ->
  exists s', copyout_loop fuel root va src c s = Ret (copyout_ref L (pm_mem s) va src).1 c s' /\
    pm_mem s' ≡ (copyout_ref L (pm_mem s) va src).2 /\ freelist s' = freelist s /\ maps s'.
Proof using kend_pos Hsep.
  revert s va src; induction fuel as [|fuel IH]; intros s va src Hs Hva Hlen;
    (destruct src as [|b src]; [by exists s|]); [simpl in Hlen; lia|].
  set (l := b :: src) in *; rewrite copyout_turn by (done || lia).
  destruct (_ && _) eqn:E; [|cbn [l copyout_ref]; rewrite E; by exists s].
  apply andb_true_iff in E as [Hm Hw].
  set (n := chunk va (Z.of_nat (length l))); destruct (chunk_range va (Z.of_nat (length l))) as [Hn Hn'];
    [simpl; lia|]; fold n in Hn, Hn'; cbv zeta.
  assert (Htk : length (take (Z.to_nat n) l) = Z.to_nat n) by (rewrite length_take; lia).
  destruct (copyout_ref_page L (pm_mem s) va (take (Z.to_nat n) l) (drop (Z.to_nat n) l))
    as [R1 R2]; [lia|lia|done|]; rewrite take_drop in R1, R2.
  set (s1 := with_mem (fun m => store_bytes m (uaddr L va) (take (Z.to_nat n) l)) s).
  assert (Hs1 : maps s1)
    by (apply maps_write; auto; pose proof (Z.mod_pos_bound va 4096 ltac:(lia)); lia).
  destruct (decide (n = Z.of_nat (length l))) as [En|En].
  { rewrite drop_ge in * by lia; exists s1; rewrite R1.
    destruct fuel; (split_and!; [done|by rewrite R2|done..]). }
  rewrite (chunk_next va (Z.of_nat (length l))) by (fold n; lia); fold n.
  apply Z.ltb_lt in Hm; rewrite MAXVA_eq in Hm; pose proof (Z.mod_pos_bound va 4096 ltac:(lia)).
  rewrite u64_small by lia.
  destruct (IH s1 (va + n) (drop (Z.to_nat n) l)) as (s2 & H1 & H2 & H3 & H4); auto;
    [lia|rewrite length_drop; lia|].
  rewrite Htk, Z2Nat.id in R1, R2 by lia.
  exists s2; split_and!; [by rewrite H1, R1|by rewrite H2, R2|by rewrite H3|done..].
Qed.

Lemma copyin_turn fuel s va len acc :
  maps s -> 0 <= va -> 0 < len -> (forall v, readable (L v) = true -> PTE2PA (L v) <> 0) ->
  copyin_loop (S fuel) root va len acc c s =
  if (va <? MAXVA) && readable (L (va / 4096)) then
    let n := chunk va len in
    copyin_loop fuel root (u64 (va - va mod 4096 + 4096)) (len - n)
      (acc ++ load_bytes (pm_mem s) (uaddr L va) (Z.to_nat n)) c s
  else Ret (-1, acc) c s.
Proof using kend_pos.
  intros [Hi HL] Hva Hlen Hnz; cbn [copyin_loop]; replace (len <=? 0) with false by lia.
  pose proof (Z.mod_pos_bound va 4096 ltac:(lia)) as Hmod.
  rewrite PGROUNDDOWN_eq; replace (va - (va - va mod 4096)) with (va mod 4096) by lia.
  unfold kbind, kget; pose proof (MAXVA_round va) as Hr.
  destruct (Z.ltb_spec va MAXVA) as [Hm|Hm]; cbn [andb].
  - rewrite (walkaddr_run kend kend_pos s root tb)
      by (done || (rewrite MAXVA_eq in *; pose proof (Z.div_mod va 4096 ltac:(lia)); pose proof (Z.div_pos va 4096); lia)).
    cbv zeta; rewrite round_div, HL; fold (readable (L (va / 4096))).
    destruct (readable _) eqn:E; [|done]; specialize (Hnz _ E).
    by replace (PTE2PA (L (va / 4096)) =? 0) with false by lia.
  - unfold walkaddr; rewrite Hr; by replace (MAXVA <=? va) with true by lia.
Qed.

Lemma copyin_loop_spec fuel s va len acc :
  maps s -> (forall v, readable (L v) = true -> PTE2PA (L v) <> 0) ->
  0 <= va < 2 ^ 64 -> 0 <= len -> (Z.to_nat len <= fuel)%nat ->
  copyin_loop fuel root va len acc c s =
  Ret (let '(r, l) := copyin_ref L (pm_mem s) va (Z.to_nat len) in (r, acc ++ l)) c s.
Proof using kend_pos.
  revert va len acc; induction fuel as [|fuel IH]; intros va len acc Hs Hnz Hva Hlen Hf;
    (destruct (decide (len = 0)) as [->|Hl0]; [simpl; by rewrite app_nil_r|]); [lia|].
  rewrite copyin_turn by (done || lia).
  destruct (_ && _) eqn:E; cycle 1.
  { replace (Z.to_nat len) with (S (Z.to_nat (len - 1))) by lia; cbn [copyin_ref].
    by rewrite E, app_nil_r. }
  apply andb_true_iff in E as [Hm Hw]; apply Z.ltb_lt in Hm.
  destruct (chunk_range va len) as [Hn Hn']; [lia|]; set (n := chunk va len) in *; cbv zeta.
  replace (Z.to_nat len) with (Z.to_nat n + Z.to_nat (len - n))%nat by lia.
  rewrite copyin_ref_page by (done || lia); rewrite Z2Nat.id by lia.
  destruct (decide (n = len)) as [En|En].
  { rewrite En, Z.sub_diag; destruct fuel; simpl; by rewrite app_nil_r. }
  rewrite (chunk_next va len) by (fold n; lia); fold n; rewrite MAXVA_eq in Hm.
  pose proof (Z.mod_pos_bound va 4096 ltac:(lia)); rewrite u64_small by lia.
  rewrite IH by (done || lia).
  destruct (copyin_ref L (pm_mem s) (va + n) (Z.to_nat (len - n))); by rewrite app_assoc.
Qed.

(** ** copyinstr *)

Lemma copyinstr_page_spec m (k n : nat) va acc :
  0 <= va < MAXVA -> va mod 4096 + Z.of_nat k <= 4096 -> readable (L (va / 4096)) = true ->
  let '(acc', got) := copyinstr_page k m (uaddr L va) acc in
  (let '(r, l) := copyinstr_ref L m va (k + n) in (r, acc ++ l)) =
  if got then (0, acc') else let '(r, l) := copyinstr_ref L m (va + Z.of_nat k) n in (r, acc' ++ l).
Proof.
  revert va acc; induction k as [|k IH]; intros va acc Hva Hp Hr; cbn [copyinstr_page Nat.add].
  - by rewrite Z.add_0_r.
  - cbn [copyinstr_ref]; replace (va <? MAXVA) with true by lia; rewrite Hr; cbn [andb].
    destruct (m (uaddr L va) =? 0); [done|].
    destruct k as [|k].
    { cbn [copyinstr_page Nat.add]; replace (va + Z.of_nat 1) with (va + 1) by lia.
      destruct (copyinstr_ref L m (va + 1) n); by rewrite <- app_assoc. }
    destruct (in_page_div va 1 ltac:(lia) ltac:(lia)) as [Hd Hm].
    pose proof (MAXVA_page va 1 ltac:(lia) ltac:(lia)).
    assert (Hu : uaddr L (va + 1) = uaddr L va + 1) by (unfold uaddr; rewrite Hd, Hm; lia).
    specialize (IH (va + 1) (acc ++ [m (uaddr L va)]) ltac:(lia) ltac:(rewrite Hm; lia) ltac:(by rewrite Hd)).
    rewrite Hu in IH; destruct (copyinstr_page (S k) m (uaddr L va + 1) _) as [acc' got].
    replace (va + Z.of_nat (S (S k))) with (va + 1 + Z.of_nat (S k)) by lia; rewrite <- IH.
    destruct (copyinstr_ref L m (va + 1) (S k + n)); by rewrite <- app_assoc.
Qed.

Lemma copyinstr_loop_spec fuel s va max acc :
  maps s -> (forall v, readable (L v) = true -> PTE2PA (L v) <> 0) ->
  0 <= va < 2 ^ 64 -> 0 <= max -> (Z.to_nat max <= fuel)%nat ->
  copyinstr_loop fuel root va max acc c s =
  Ret (let '(r, l) := copyinstr_ref L (pm_mem s) va (Z.to_nat max) in (r, acc ++ l)) c s.
Proof using kend_pos.
  revert va max acc; induction fuel as [|fuel IH]; intros va max acc Hs Hnz Hva Hmax Hf;
    (destruct (decide (max = 0)) as [->|Hl0]; [simpl; by rewrite app_nil_r|]); [lia|].
  cbn [copyinstr_loop]; replace (max <=? 0) with false by lia; pose proof Hs as [Hi HL].
  pose proof (Z.mod_pos_bound va 4096 ltac:(lia)) as Hmod.
  rewrite PGROUNDDOWN_eq; replace (va - (va - va mod 4096)) with (va mod 4096) by lia.
  unfold kbind, kget; pose proof (MAXVA_round va) as Hr.
  assert (Hfail : (va <? MAXVA) && readable (L (va / 4096)) = false ->
    copyinstr_ref L (pm_mem s) va (Z.to_nat max) = (-1, [])).
  { intros E; replace (Z.to_nat max) with (S (Z.to_nat (max - 1))) by lia; cbn [copyinstr_ref]; by rewrite E. }
  destruct (Z.ltb_spec va MAXVA) as [Hm|Hm]; cbn [andb] in Hfail; cycle 1.
  { unfold walkaddr; rewrite Hr; replace (MAXVA <=? va) with true by lia; cbn.
    by rewrite Hfail, app_nil_r. }
  rewrite (walkaddr_run kend kend_pos s root tb)
    by (done || (rewrite MAXVA_eq in *; pose proof (Z.div_mod va 4096 ltac:(lia)); pose proof (Z.div_pos va 4096); lia)).
  cbv zeta; rewrite round_div, HL; fold (readable (L (va / 4096))).
  destruct (readable _) eqn:E; [|cbn; by rewrite Hfail, app_nil_r]; pose proof (Hnz _ E).
  replace (PTE2PA (L (va / 4096)) =? 0) with false by lia.
  change PGSIZE with 4096; fold (chunk va max); destruct (chunk_range va max) as [Hn Hn']; [lia|]; set (n := chunk va max) in *.
  fold (uaddr L va).
  pose proof (copyinstr_page_spec (pm_mem s) (Z.to_nat n) (Z.to_nat (max - n)) va acc
    ltac:(lia) ltac:(lia) E) as Hpage.
  destruct (copyinstr_page (Z.to_nat n) (pm_mem s) (uaddr L va) acc) as [acc' got].
  replace (Z.to_nat max) with (Z.to_nat n + Z.to_nat (max - n))%nat by lia; rewrite Hpage.
  destruct got; [done|]; rewrite Z2Nat.id by lia.
  destruct (decide (n = max)) as [En|En].
  { rewrite En, Z.sub_diag; destruct fuel; simpl; by rewrite app_nil_r. }
  rewrite (chunk_next va max) by (fold n; lia); fold n; rewrite MAXVA_eq in Hm.
  rewrite u64_small by lia; apply IH; (done || lia).
Qed.
End copies.

(** ** Round trip *)

Section roundtrip.
Variable L : Z -> Z.

(** The bytes [va .. va+n) can be written by the user. *)
Definition user_range (va : Z) (n : nat) : Prop :=
  forall i, 0 <= i < Z.of_nat n -> va + i < MAXVA /\ writable (L ((va + i) / 4096)) = true.

(** No two of their pages share a frame. *)
Definition no_alias (va : Z) (n : nat) : Prop :=
  forall i j, 0 <= i < Z.of_nat n -> 0 <= j < Z.of_nat n ->
    PTE2PA (L ((va + i) / 4096)) = PTE2PA (L ((va + j) / 4096)) -> (va + i) / 4096 = (va + j) / 4096.

Lemma user_range_S va n : user_range va (S n) -> user_range (va + 1) n.
Proof. intros H i Hi; replace (va + 1 + i) with (va + (1 + i)) by lia; apply H; lia. Qed.

Lemma no_alias_S va n : no_alias va (S n) -> no_alias (va + 1) n.
Proof.
  intros H i j Hi Hj; replace (va + 1 + i) with (va + (1 + i)) by lia.
  replace (va + 1 + j) with (va + (1 + j)) by lia; apply H; lia.
Qed.

Lemma uaddr_inj va n i j :
  no_alias va n -> 0 <= i < Z.of_nat n -> 0 <= j < Z.of_nat n ->
  uaddr L (va + i) = uaddr L (va + j) -> i = j.
Proof.
  unfold uaddr; intros H Hi Hj E.
  pose proof (Z.mod_pos_bound (va + i) 4096 ltac:(lia)); pose proof (Z.mod_pos_bound (va + j) 4096 ltac:(lia)).
  assert (PTE2PA (L ((va + i) / 4096)) = PTE2PA (L ((va + j) / 4096))) as Ep.
  { eapply (in_page_inj _ _ (PTE2PA (L ((va + i) / 4096)) + (va + i) mod 4096));
      rewrite ?PTE2PA_aligned; auto; unfold in_page; lia. }
  specialize (H i j Hi Hj Ep); pose proof (Z.div_mod (va + i) 4096 ltac:(lia)).
  pose proof (Z.div_mod (va + j) 4096 ltac:(lia)); lia.
Qed.

Lemma copyout_ref_out m va src x :
  (forall i, 0 <= i < Z.of_nat (length src) -> x <> uaddr L (va + i)) ->
  (copyout_ref L m va src).2 x = m x.
Proof.
  revert m va; induction src as [|b src IH]; intros m va Hx; cbn [copyout_ref]; [done|].
  destruct (_ && _); [|done]; rewrite IH.
  - apply store_bytes_out; specialize (Hx 0 ltac:(simpl; lia)); rewrite Z.add_0_r in Hx; simpl; lia.
  - intros i Hi; replace (va + 1 + i) with (va + (1 + i)) by lia; apply Hx; simpl; lia.
Qed.

Lemma copy_roundtrip_ref m va src :
  user_range va (length src) -> no_alias va (length src) ->
  (copyout_ref L m va src).1 = 0 /\
  copyin_ref L (copyout_ref L m va src).2 va (length src) = (0, src).
Proof.
  revert m va; induction src as [|b src IH]; intros m va Hu Ha; [done|]; cbn [length] in *.
  destruct (Hu 0 ltac:(lia)) as [Hm Hw]; rewrite Z.add_0_r in Hm, Hw.
  cbn [copyout_ref copyin_ref]; replace (va <? MAXVA) with true by lia; rewrite Hw; cbn [andb].
  unfold readable, writable in *; apply andb_true_iff in Hw as [-> _].
  destruct (IH (store_bytes m (uaddr L va) [b]) (va + 1)) as [H1 H2];
    [by apply user_range_S|by apply no_alias_S|]; split; [done|].
  rewrite H2; do 2 f_equal; rewrite copyout_ref_out.
  - rewrite store_bytes_in by (simpl; lia); by rewrite Z.sub_diag.
  - intros i Hi E; replace (va + 1 + i) with (va + (1 + i)) in E by lia.
    rewrite <- (Z.add_0_r va) in E at 1; apply (uaddr_inj va (S (length src))) in E; auto; lia.
Qed.

(** What [copyout] changes is in user-writable pages. *)
Lemma copyout_ref_isolated m va src x :
  (copyout_ref L m va src).2 x <> m x ->
  exists v, writable (L v) = true /\ in_page (PTE2PA (L v)) x.
Proof.
  revert m va; induction src as [|b src IH]; intros m va; cbn [copyout_ref]; [done|].
  destruct (_ && _) eqn:E; [|done]; apply andb_true_iff in E as [_ Hw]; intros Hx.
  destruct (decide (x = uaddr L va)) as [->|Hne].
  - exists (va / 4096); split; [done|]; unfold in_page, uaddr.
    pose proof (Z.mod_pos_bound va 4096 ltac:(lia)); lia.
  - apply (IH (store_bytes m (uaddr L va) [b]) (va + 1)).
    rewrite store_bytes_out by (simpl; lia); done.
Qed.
End roundtrip.

(** ** Properties *)

Section props.
Variable kend : Z.
Hypothesis kend_pos : 0 < kend.

(** C28: [copyout] does what copying byte by byte through the page table does,
    faults included, and only bytes of pages mapped valid, user and writable
    change. *)
Theorem copyout_correct (root : Z) (tb : tables) (L : Z -> Z) (c : kctx) (s : pmem) (va : Z) (src : list Z) :
  maps kend root tb L s -> (forall v, writable (L v) = true -> ~ is_table tb (PTE2PA (L v))) ->
  0 <= va < 2 ^ 64 ->
  exists s', copyout root va src c s = Ret (copyout_ref L (pm_mem s) va src).1 c s' /\
    pm_mem s' ≡ (copyout_ref L (pm_mem s) va src).2 /\ freelist s' = freelist s /\
    (forall x, pm_mem s' x <> pm_mem s x ->
       exists v, writable (L v) = true /\ in_page (PTE2PA (L v)) x).
Proof using kend_pos.
  intros Hs Hsep Hva.
  destruct (copyout_loop_spec kend kend_pos root tb L c Hsep (length src) s va src Hs Hva ltac:(lia))
    as (s' & H1 & H2 & H3 & _).
  exists s'; split_and!; auto; intros x Hx; rewrite (H2 x) in Hx; by eapply copyout_ref_isolated.
Qed.

(** [copyin] returns the bytes a byte-by-byte read of the user's readable
    pages gives, and fails where that fails; memory is unchanged. *)
Theorem copyin_correct (root : Z) (tb : tables) (L : Z -> Z) (c : kctx) (s : pmem) (va len : Z) :
  maps kend root tb L s -> (forall v, readable (L v) = true -> PTE2PA (L v) <> 0) ->
  0 <= va < 2 ^ 64 -> 0 <= len ->
  copyin root va len c s = Ret (copyin_ref L (pm_mem s) va (Z.to_nat len)) c s.
Proof using kend_pos.
  intros Hs Hnz Hva Hlen; unfold copyin; rewrite (copyin_loop_spec kend kend_pos root tb L) by (done || lia).
  by destruct (copyin_ref L (pm_mem s) va (Z.to_nat len)).
Qed.

(** [copyinstr] returns the user's string up to and including its NUL, or
    fails at [max] bytes or the first page the user cannot read. *)
Theorem copyinstr_correct (root : Z) (tb : tables) (L : Z -> Z) (c : kctx) (s : pmem) (va max : Z) :
  maps kend root tb L s -> (forall v, readable (L v) = true -> PTE2PA (L v) <> 0) ->
  0 <= va < 2 ^ 64 -> 0 <= max ->
  copyinstr root va max c s = Ret (copyinstr_ref L (pm_mem s) va (Z.to_nat max)) c s.
Proof using kend_pos.
  intros Hs Hnz Hva Hlen; unfold copyinstr; rewrite (copyinstr_loop_spec kend kend_pos root tb L) by (done || lia).
  by destruct (copyinstr_ref L (pm_mem s) va (Z.to_nat max)).
Qed.

(** What the kernel copies out to a writable user range without aliased
    pages, it reads back with [copyin]. *)
Theorem copy_roundtrip (root : Z) (tb : tables) (L : Z -> Z) (c : kctx) (s : pmem) (va : Z) (src : list Z) :
  maps kend root tb L s -> (forall v, writable (L v) = true -> ~ is_table tb (PTE2PA (L v))) ->
  (forall v, readable (L v) = true -> PTE2PA (L v) <> 0) -> 0 <= va < 2 ^ 64 ->
  user_range L va (length src) -> no_alias L va (length src) ->
  exists s', copyout root va src c s = Ret 0 c s' /\
    copyin root va (Z.of_nat (length src)) c s' = Ret (0, src) c s'.
Proof using kend_pos.
  intros Hs Hsep Hnz Hva Hu Ha.
  destruct (copyout_loop_spec kend kend_pos root tb L c Hsep (length src) s va src Hs Hva ltac:(lia))
    as (s' & H1 & H2 & _ & H4).
  destruct (copy_roundtrip_ref L (pm_mem s) va src Hu Ha) as [R1 R2].
  exists s'; split; [unfold copyout; by rewrite H1, R1|]; unfold copyin.
  rewrite (copyin_loop_spec kend kend_pos root tb L) by (done || lia).
  by rewrite Nat2Z.id, (copyin_ref_proper L _ _ va (length src) H2), R2.
Qed.
End props.

(** ** Witnesses *)

Definition demo_map (v : Z) : Z := if decide (v = 0) then mkpte (pg 3) demo_flags else 0.

Lemma demo_maps : maps KERNBASE (pg 0) demo_tbo demo_map demo_vm.
Proof. split; [apply demo_pt_old|apply demo_leaf]. Qed.

Lemma demo_sep v : writable (demo_map v) = true -> ~ is_table demo_tbo (PTE2PA (demo_map v)).
Proof.
  unfold demo_map; case_decide; [|by vm_compute]; intros _; rewrite mkpte_pa by done.
  apply (demo_apart demo_tbo _ demo_tbo_pages); by vm_compute.
Qed.

Lemma demo_nz v : readable (demo_map v) = true -> PTE2PA (demo_map v) <> 0.
Proof. unfold demo_map; case_decide; by vm_compute. Qed.

Lemma copyout_correct_witness :
  exists s', copyout (pg 0) 4094 [1; 2; 3] (Ctx [] []) demo_vm
      = Ret (copyout_ref demo_map demo_vmem 4094 [1; 2; 3]).1 (Ctx [] []) s' /\
    pm_mem s' ≡ (copyout_ref demo_map demo_vmem 4094 [1; 2; 3]).2 /\ freelist s' = freelist demo_vm /\
    (forall x, pm_mem s' x <> pm_mem demo_vm x ->
       exists v, writable (demo_map v) = true /\ in_page (PTE2PA (demo_map v)) x).
Proof.
  apply (copyout_correct KERNBASE eq_refl (pg 0) demo_tbo demo_map (Ctx [] []) demo_vm 4094 [1; 2; 3]).
  - apply demo_maps.
  - apply demo_sep.
  - lia.
Defined.

Lemma copyin_correct_witness :
  copyin (pg 0) 0 3 (Ctx [] []) demo_vm = Ret (0, [42; 0; 0]) (Ctx [] []) demo_vm.
Proof.
  rewrite (copyin_correct KERNBASE eq_refl (pg 0) demo_tbo demo_map (Ctx [] []) demo_vm 0 3).
  - f_equal; by vm_compute.
  - apply demo_maps.
  - apply demo_nz.
  - lia.
  - lia.
Defined.

Lemma copyinstr_correct_witness :
  copyinstr (pg 0) 0 10 (Ctx [] []) demo_vm = Ret (0, [42; 0]) (Ctx [] []) demo_vm.
Proof.
  rewrite (copyinstr_correct KERNBASE eq_refl (pg 0) demo_tbo demo_map (Ctx [] []) demo_vm 0 10).
  - f_equal; by vm_compute.
  - apply demo_maps.
  - apply demo_nz.
  - lia.
  - lia.
Defined.

Lemma copy_roundtrip_witness :
  exists s', copyout (pg 0) 100 [7; 8; 9] (Ctx [] []) demo_vm = Ret 0 (Ctx [] []) s' /\
    copyin (pg 0) 100 (Z.of_nat (length [7; 8; 9])) (Ctx [] []) s' = Ret (0, [7; 8; 9]) (Ctx [] []) s'.
Proof.
  assert (Hd : forall i, 0 <= i < 3 -> (100 + i) / 4096 = 0) by (intros; apply Z.div_small; lia).
  apply (copy_roundtrip KERNBASE eq_refl (pg 0) demo_tbo demo_map (Ctx [] []) demo_vm 100 [7; 8; 9]).
  - apply demo_maps.
  - apply demo_sep.
  - apply demo_nz.
  - lia.
  - intros i Hi; cbn [length] in Hi; rewrite Hd by lia; split; [rewrite MAXVA_eq; lia|by vm_compute].
  - intros i j Hi Hj _; cbn [length] in *; by rewrite !Hd by lia.
Defined.
