(* ===== verification/Pipe.v ===== *)
(** * kernel/pipe.c

    A pipe is a ring of 512 bytes between two 32-bit counters.  The readers
    and writers run in segments: from [acquire] of the pipe's lock to the
    [release] or [sleep] that gives it up.  A segment that sleeps returns the
    loop variable with which it goes on when it is woken. *)

From S2P Require Import Prelude Ring CMem KString Riscv Kalloc Vm VmInv VmMap VmUser VmCopy.

Definition PIPESIZE : Z := 512.

Record pipe : Type := Pipe {
  data : list Z;
  nread : Z;
  nwrite : Z;
  readopen : Z;
  writeopen : Z
}.

(** The pipe at one address and physical memory. *)
Record pipest : Type := PipeSt {
  pi : pipe;
  pst_mem : pmem
}.
Definition pmem_of : lens pipest pmem := Lens pst_mem (fun m s => PipeSt (pi s) m).
Definition set_pi (f : pipe -> pipe) (s : pipest) : pipest := PipeSt (f (pi s)) (pst_mem s).

Definition push_byte (b : Z) (p : pipe) : pipe :=
  Pipe (<[Z.to_nat (nwrite p mod PIPESIZE) := b]> (data p)) (nread p) (u32 (nwrite p + 1))
    (readopen p) (writeopen p).
Definition skip_byte (p : pipe) : pipe :=
  Pipe (data p) (u32 (nread p + 1)) (nwrite p) (readopen p) (writeopen p).

(** [pi->...] of [pipealloc]; the bytes of [data] are those of the page. *)
Definition pipe_init (d : list Z) : pipe := Pipe d 0 0 1 1.

Section pipe.
Variable kend : Z.
Variable pa : Z.          (* the address of the struct pipe *)
Variable pagetable : Z.   (* myproc()->pagetable *)

Definition pipeclose (writable : bool) : M pipest unit :=
  acquire (O_pipe pa) ;;;
  (if writable then
     kmod (set_pi (fun p => Pipe (data p) (nread p) (nwrite p) (readopen p) 0)) ;;;
     wakeup (O_nread pa)
   else
     kmod (set_pi (fun p => Pipe (data p) (nread p) (nwrite p) 0 (writeopen p))) ;;;
     wakeup (O_nwrite pa)) ;;;
  let* s := kget in
  if (readopen (pi s) =? 0) && (writeopen (pi s) =? 0) then
    release (O_pipe pa) ;;;
    zoom pmem_of (kfree kend pa)
  else release (O_pipe pa).

(** The loop of [pipewrite] with the lock held; [killed] is what killed(pr)
    finds while the segment runs.  A turn writes a byte or leaves the loop. *)
Fixpoint pipewrite_loop (fuel : nat) (killed : bool) (addr n i : Z) : M pipest (seg Z Z) :=
  let finish i := wakeup (O_nread pa) ;;; release (O_pipe pa) ;;; kret (Done i) in
  if i <? n then
    match fuel with
    | O => stuck
    | S f =>
        let* s := kget in
        if (readopen (pi s) =? 0) || killed then
          release (O_pipe pa) ;;; kret (Done (-1))
        else if nwrite (pi s) =? u32 (nread (pi s) + PIPESIZE) then
          wakeup (O_nread pa) ;;;
          sleep_at (O_nwrite pa) (O_pipe pa) i
        else
          let* (r, ch) := zoom pmem_of (copyin pagetable (u64 (addr + i)) 1) in
          if r =? -1 then finish i
          else
            kmod (set_pi (push_byte (default 0 (head ch)))) ;;;
            pipewrite_loop f killed addr n (i + 1)
    end
  else finish i.

(** A segment of [pipewrite(pi, addr, n)] that starts with [i] bytes written. *)
Definition pipewrite_seg (killed : bool) (addr n i : Z) : M pipest (seg Z Z) :=
  acquire (O_pipe pa) ;;; pipewrite_loop (Z.to_nat (n - i)) killed addr n i.

(** [for(i = 0; i < n; i++)] of [piperead]. *)
Fixpoint piperead_loop (fuel : nat) (addr n i : Z) : M pipest Z :=
  if i <? n then
    match fuel with
    | O => stuck
    | S f =>
        let* s := kget in
        if nread (pi s) =? nwrite (pi s) then kret i
        else
          let ch := default 0 (data (pi s) !! Z.to_nat (nread (pi s) mod PIPESIZE)) in
          kmod (set_pi skip_byte) ;;;
          let* r := zoom pmem_of (copyout pagetable (u64 (addr + i)) [ch]) in
          if r =? -1 then kret i else piperead_loop f addr n (i + 1)
    end
  else kret i.

Definition piperead_seg (killed : bool) (addr n : Z) : M pipest (seg Z unit) :=
  acquire (O_pipe pa) ;;;
  let* s := kget in
  if (nread (pi s) =? nwrite (pi s)) && negb (writeopen (pi s) =? 0) then
    if killed then release (O_pipe pa) ;;; kret (Done (-1))
    else sleep_at (O_nread pa) (O_pipe pa) tt
  else
    let* i := piperead_loop (Z.to_nat n) addr n 0 in
    wakeup (O_nwrite pa) ;;;
    release (O_pipe pa) ;;;
    kret (Done i).

(** The whole calls, which sleep where their first segment blocks. *)
Definition pipewrite (killed : bool) (addr n : Z) : M pipest Z :=
  whole (O_pipe pa) (pipewrite_seg killed addr n 0).
Definition piperead (killed : bool) (addr n : Z) : M pipest Z :=
  whole (O_pipe pa) (piperead_seg killed addr n).
End pipe.

(** ** The ring as a queue *)

Definition pending (p : pipe) : list Z := contents PIPESIZE (2 ^ 32) (data p) (nread p) (nwrite p).
Definition pipe_inv (p : pipe) : Prop := ring_inv PIPESIZE (2 ^ 32) (data p) (nread p) (nwrite p).

Lemma PIPESIZE_pos : 0 < PIPESIZE < 2 ^ 32.
Proof. done. Qed.
Lemma PIPESIZE_div : (PIPESIZE | 2 ^ 32).
Proof. by exists (2 ^ 23). Qed.
#[local] Hint Resolve PIPESIZE_pos PIPESIZE_div : core.

Section queue.
Variable p : pipe.
Hypothesis Hp : pipe_inv p.

Lemma pending_length : Z.of_nat (length (pending p)) = u32 (nwrite p - nread p).
Proof using. by apply length_contents. Qed.

Lemma pending_le : (length (pending p) <= 512)%nat.
Proof using Hp.
  pose proof pending_length as Hl; destruct Hp as [_ _ _ Hf]; unfold fill, PIPESIZE, u32 in *; lia.
Qed.

Lemma empty_test : (nread p =? nwrite p) = bool_decide (pending p = []).
Proof using Hp. by apply empty_iff. Qed.

Lemma full_test : (nwrite p =? u32 (nread p + PIPESIZE)) = bool_decide (length (pending p) = 512%nat).
Proof using Hp.
  unfold u32; rewrite (full_iff _ _ PIPESIZE_pos PIPESIZE_div (data p)) by done; fold (pending p).
  apply bool_decide_ext; unfold PIPESIZE; lia.
Qed.

Lemma push_ok b :
  length (pending p) <> 512%nat -> pipe_inv (push_byte b p) /\ pending (push_byte b p) = pending p ++ [b].
Proof using Hp. intros Hn; apply push; auto; change (Z.of_nat (length (pending p)) <> 512); lia. Qed.

Lemma skip_ok b q :
  pending p = b :: q ->
  default 0 (data p !! Z.to_nat (nread p mod PIPESIZE)) = b /\
  pipe_inv (skip_byte p) /\ pending (skip_byte p) = q.
Proof using Hp. intros Hq; by apply skip. Qed.
End queue.

(** ** User bytes one at a time *)

Lemma walk_loop_pure l b va s : exists x, forall c, walk_loop l b va false c s = Ret x c s.
Proof.
  revert b; induction l as [|l IH]; intros b; cbn [walk_loop]; [by eexists|].
  unfold kbind, peek; destruct (has _ _); [apply IH|by eexists].
Qed.

Lemma walkaddr_pure pt va s : exists x, forall c, walkaddr pt va c s = Ret x c s.
Proof.
  unfold walkaddr, walk; destruct (MAXVA <=? va); [by eexists|].
  destruct (walk_loop_pure 2 pt va s) as [x Hx].
  destruct (x =? 0) eqn:E0; [exists 0; intros c; unfold kbind; by rewrite Hx, E0|].
  destruct (has (load64 (pm_mem s) x) PTE_V) eqn:E1, (has (load64 (pm_mem s) x) PTE_U) eqn:E2;
    eexists; intros c; unfold kbind, peek; rewrite Hx, E0, E1; cbn [negb]; by rewrite ?E2.
Qed.

Lemma copyin1 pt va s :
  exists r l, (forall c, copyin pt va 1 c s = Ret (r, l) c s) /\ ((r = 0 /\ exists b, l = [b]) \/ r = -1).
Proof.
  unfold copyin; change (Z.to_nat 1) with 1%nat; cbn [copyin_loop].
  change (1 <=? 0) with false; cbn iota.
  destruct (walkaddr_pure pt (PGROUNDDOWN va) s) as [x Hx].
  destruct (x =? 0) eqn:E.
  { exists (-1), []; split; [|by right]; intros c; unfold kbind; by rewrite Hx, E. }
  rewrite PGROUNDDOWN_eq in *; pose proof (Z.mod_pos_bound va 4096 ltac:(lia)).
  set (n := if 1 <? PGSIZE - (va - (va - va mod 4096)) then 1 else PGSIZE - (va - (va - va mod 4096))).
  assert (Hn : n = 1) by (unfold n, PGSIZE; case_match; lia).
  eexists 0, _; split; [|left; split; [done|]].
  - intros c; unfold kbind, kget; rewrite Hx, E; fold n; rewrite Hn; cbn [Z.sub Z.leb]. done.
  - eexists; reflexivity.
Qed.

(** The byte a process sees at an address. *)
Definition ubyte (pt : Z) (m : pmem) (va : Z) : option Z :=
  match copyin pt va 1 (Ctx [] []) m with
  | Ret (r, [b]) _ _ => if r =? 0 then Some b else None
  | _ => None
  end.

Lemma copyin_ubyte pt va s :
  (exists b, ubyte pt s va = Some b /\ forall c, copyin pt va 1 c s = Ret (0, [b]) c s) \/
  (ubyte pt s va = None /\ exists l, forall c, copyin pt va 1 c s = Ret (-1, l) c s).
Proof.
  destruct (copyin1 pt va s) as (r & l & Hr & [[-> [b ->]]| ->]); [left|right].
  - exists b; split; [unfold ubyte; by rewrite Hr|done].
  - split; [unfold ubyte; rewrite Hr; by destruct l as [|? []]|by exists l].
Qed.

Lemma copyout1 pt va b s :
  exists r s', (forall c, copyout pt va [b] c s = Ret r c s') /\ (r = 0 \/ r = -1).
Proof.
  unfold copyout; cbn [length copyout_loop].
  destruct (MAXVA <=? PGROUNDDOWN va) eqn:E; [exists (-1), s; auto|].
  unfold walk; rewrite E; destruct (walk_loop_pure 2 pt (PGROUNDDOWN va) s) as [x Hx].
  destruct (x =? 0) eqn:E0; [exists (-1), s; split; [intros c; unfold kbind; by rewrite Hx, E0|auto]|].
  set (v := load64 (pm_mem s) x).
  destruct (negb (has v PTE_V) || negb (has v PTE_U) || negb (has v PTE_W)) eqn:E1.
  { exists (-1), s; split; [intros c; unfold kbind, peek; rewrite Hx, E0; fold v; by rewrite E1|auto]. }
  exists 0; eexists; split; [intros c; unfold kbind, peek, kmod; rewrite Hx, E0; fold v; rewrite E1|auto].
  rewrite PGROUNDDOWN_eq; pose proof (Z.mod_pos_bound va 4096 ltac:(lia)).
  replace (va - (va - va mod 4096)) with (va mod 4096) by lia.
  assert (Hn : (if Z.of_nat 1 <? PGSIZE - va mod 4096 then Z.of_nat 1 else PGSIZE - va mod 4096) = 1)
    by (unfold PGSIZE; case_match; lia).
  rewrite Hn; reflexivity.
Qed.

(** ** Segments *)

Section segments.
Variables pa pt : Z.

(** What a segment of [pipewrite] that began with [i] bytes written did:
    [ws] entered the queue. *)
Definition write_post (killed : bool) (addr n i : Z) (s : pipest) (r : seg Z Z) (c' : kctx)
    (s' : pipest) (ws : list Z) : Prop :=
  pipe_inv (pi s') /\ pending (pi s') = pending (pi s) ++ ws /\ pst_mem s' = pst_mem s /\
  readopen (pi s') = readopen (pi s) /\ writeopen (pi s') = writeopen (pi s) /\ held c' = [] /\
  (forall k b, ws !! k = Some b -> ubyte pt (pst_mem s) (u64 (addr + (i + Z.of_nat k))) = Some b) /\
  match r with
  | Done j =>
      (j = -1 /\ ws = [] /\ i < n /\ (readopen (pi s) = 0 \/ killed = true)) \/
      (j = i + Z.of_nat (length ws) /\ O_nread pa ∈ woken c' /\
       (j < n -> ubyte pt (pst_mem s) (u64 (addr + j)) = None))
  | Blocked ch j =>
      ch = O_nwrite pa /\ j = i + Z.of_nat (length ws) /\ j < n /\
      length (pending (pi s')) = 512%nat /\ O_nread pa ∈ woken c' /\
      readopen (pi s) <> 0 /\ killed = false
  end.

Lemma zoom_same {A} (m : M pmem A) c s x :
  m c (pst_mem s) = Ret x c (pst_mem s) -> zoom pmem_of m c s = Ret x c s.
Proof. intros H; unfold zoom; cbn [lget pmem_of]; rewrite H; by destruct s. Qed.

Lemma write_post_cons killed addr n i b s r c' s' ws :
  (readopen (pi s) =? 0) || killed = false -> i < n ->
  ubyte pt (pst_mem s) (u64 (addr + i)) = Some b -> length (pending (pi s)) <> 512%nat ->
  pipe_inv (pi s) ->
  write_post killed addr n (i + 1) (set_pi (push_byte b) s) r c' s' ws ->
  write_post killed addr n i s r c' s' (b :: ws).
Proof.
  intros Ho Hi Hb Hf Hinv (H1 & H2 & H3 & H4 & H5 & H6 & H7 & H8).
  cbn [set_pi pi pst_mem push_byte readopen writeopen] in *.
  destruct (push_ok (pi s) Hinv b Hf) as [_ Hpush].
  split_and!; auto.
  - by rewrite H2, Hpush, <- app_assoc.
  - intros [|k] b' Hk; simpl in Hk; [injection Hk as <-; by rewrite Z.add_0_r|].
    specialize (H7 k b' Hk); rewrite <- H7; do 2 f_equal; lia.
  - destruct r as [j|ch j].
    + destruct H8 as [(_ & _ & _ & [Hr|Hk])|(-> & Hw & Hj)].
      * by rewrite Hr in Ho.
      * rewrite Hk, orb_true_r in Ho; done.
      * right; split_and!; [simpl; lia|done|done].
    + destruct H8 as (? & -> & ? & ? & ? & ? & ?); split_and!; auto; simpl; lia.
Qed.

Lemma pipewrite_loop_spec fuel killed addr n i c s :
  pipe_inv (pi s) -> held c = [] -> (Z.to_nat (n - i) <= fuel)%nat ->
  exists r c' s' ws,
    pipewrite_loop pa pt fuel killed addr n i (push_lock (O_pipe pa) c) s = Ret r c' s' /\
    write_post killed addr n i s r c' s' ws.
Proof.
  revert i s; induction fuel as [|fuel IH]; intros i s Hinv Hc Hf; cbn [pipewrite_loop].
  { replace (i <? n) with false by lia; krun; eexists _, _, s, []; split; [done|].
    split_and!; rewrite ?app_nil_r; auto; [done|].
    right; simpl; split_and!; [lia|set_solver|lia]. }
  destruct (Z.ltb_spec i n) as [Hi|Hi]; cycle 1.
  { krun; eexists _, _, s, []; split; [done|]; split_and!; rewrite ?app_nil_r; auto; [done|].
    right; simpl; split_and!; [lia|set_solver|lia]. }
  unfold kbind at 1, kget; destruct (_ || killed) eqn:Ho.
  { krun; eexists _, _, s, []; split; [done|]; split_and!; rewrite ?app_nil_r; auto; [done|].
    left; split_and!; auto; apply orb_true_iff in Ho as [Ho|Ho]; [left; lia|by right]. }
  rewrite full_test by done; case_bool_decide as Hfull.
  { unfold kbind, wakeup; rewrite sleep_at_run_woken by done.
    apply orb_false_iff in Ho as [Ho ->].
    eexists _, _, s, []; split; [done|].
    split_and!; rewrite ?app_nil_r; simpl; try done; try lia; set_solver. }
  destruct (copyin_ubyte pt (u64 (addr + i)) (pst_mem s)) as [(b & Hb & Hcp)|(Hb & l & Hcp)].
  - destruct (push_ok (pi s) Hinv b Hfull) as [Hinv' Hpush].
    destruct (IH (i + 1) (set_pi (push_byte b) s)) as (r & c' & s' & ws & Hrun & Hpost); auto; [lia|].
    exists r, c', s', (b :: ws); split; [|by apply write_post_cons].
    unfold kbind; rewrite (zoom_same _ _ s (0, [b])) by apply Hcp.
    exact Hrun.
  - unfold kbind at 1; rewrite (zoom_same _ _ s (-1, l)) by apply Hcp; change (-1 =? -1) with true; cbn iota; krun.
    eexists _, _, s, []; split; [done|]; split_and!; rewrite ?app_nil_r; auto; [done|].
    right; simpl; split_and!; [lia|set_solver|done].
Qed.

Lemma pipewrite_seg_spec killed addr n i c s :
  pipe_inv (pi s) -> held c = [] ->
  exists r c' s' ws,
    pipewrite_seg pa pt killed addr n i c s = Ret r c' s' /\ write_post killed addr n i s r c' s' ws.
Proof.
  intros Hinv Hc; unfold pipewrite_seg, kbind; rewrite acquire_run by (rewrite Hc; set_solver).
  by apply pipewrite_loop_spec.
Qed.

(** [rs] was stored byte by byte at [addr + i] on, up to a fault: [j] is the
    index after the last byte stored. *)
Inductive delivered (addr : Z) : Z -> list Z -> pmem -> pmem -> Z -> Prop :=
| dl_nil i m : delivered addr i [] m m i
| dl_fault i b m m' :
    (forall c, copyout pt (u64 (addr + i)) [b] c m = Ret (-1) c m') -> delivered addr i [b] m m' i
| dl_cons i b rs m m1 m2 j :
    (forall c, copyout pt (u64 (addr + i)) [b] c m = Ret 0 c m1) ->
    delivered addr (i + 1) rs m1 m2 j -> delivered addr i (b :: rs) m m2 j.

(** What a segment of [piperead] did: [rs] left the queue. *)
Definition read_post (killed : bool) (addr n : Z) (s : pipest) (r : seg Z unit) (c' : kctx)
    (s' : pipest) (rs : list Z) : Prop :=
  pipe_inv (pi s') /\ pending (pi s) = rs ++ pending (pi s') /\ (length rs <= Z.to_nat n)%nat /\
  readopen (pi s') = readopen (pi s) /\ writeopen (pi s') = writeopen (pi s) /\ held c' = [] /\
  match r with
  | Done j =>
      (j = -1 /\ s' = s /\ killed = true /\ pending (pi s) = [] /\ writeopen (pi s) <> 0) \/
      ((pending (pi s) = [] -> writeopen (pi s) = 0) /\ O_nwrite pa ∈ woken c' /\
       delivered addr 0 rs (pst_mem s) (pst_mem s') j)
  | Blocked ch _ =>
      ch = O_nread pa /\ s' = s /\ killed = false /\ pending (pi s) = [] /\ writeopen (pi s) <> 0
  end.

Lemma piperead_loop_spec fuel addr n i c s :
  pipe_inv (pi s) -> (Z.to_nat (n - i) <= fuel)%nat ->
  exists j s' rs, piperead_loop pt fuel addr n i c s = Ret j c s' /\
    pipe_inv (pi s') /\ pending (pi s) = rs ++ pending (pi s') /\ (length rs <= Z.to_nat (n - i))%nat /\
    readopen (pi s') = readopen (pi s) /\ writeopen (pi s') = writeopen (pi s) /\
    delivered addr i rs (pst_mem s) (pst_mem s') j.
Proof.
  revert i s; induction fuel as [|fuel IH]; intros i s Hinv Hf; cbn [piperead_loop].
  { replace (i <? n) with false by lia; exists i, s, []; split_and!; auto; [simpl; lia|constructor]. }
  destruct (Z.ltb_spec i n) as [Hi|Hi];
    [|exists i, s, []; split_and!; auto; [simpl; lia|constructor]].
  unfold kbind, kget; rewrite empty_test by done; case_bool_decide as He;
    [exists i, s, []; split_and!; auto; [simpl; lia|constructor]|].
  destruct (pending (pi s)) as [|b q] eqn:Eq; [done|].
  destruct (skip_ok (pi s) Hinv b q Eq) as (Hb & Hinv' & Hq); rewrite Hb; unfold kmod.
  destruct (copyout1 pt (u64 (addr + i)) b (pst_mem s)) as (r & m' & Hcp & Hr).
  unfold zoom; cbn [lget lset pmem_of set_pi pst_mem pi]; rewrite Hcp.
  destruct Hr as [->| ->].
  - destruct (IH (i + 1) (PipeSt (skip_byte (pi s)) m')) as (j & s' & rs & Hrun & H1 & H2 & H6 & H3 & H4 & H5);
      [done|lia|].
    exists j, s', (b :: rs); split_and!; [exact Hrun|done|by rewrite <- Hq; simpl in *; rewrite H2|simpl; lia|done..|].
    by eapply dl_cons.
  - exists i, (PipeSt (skip_byte (pi s)) m'), [b]; split_and!; auto; [simpl; by rewrite Hq|simpl; lia|].
    by apply dl_fault.
Qed.

Lemma piperead_seg_spec killed addr n c s :
  pipe_inv (pi s) -> held c = [] ->
  exists r c' s' rs,
    piperead_seg pa pt killed addr n c s = Ret r c' s' /\ read_post killed addr n s r c' s' rs.
Proof.
  intros Hinv Hc; unfold piperead_seg; unfold kbind at 1.
  rewrite acquire_run by (rewrite Hc; set_solver); unfold kbind at 1, kget.
  rewrite empty_test by done; case_bool_decide as He; cbn [andb].
  - destruct (writeopen (pi s) =? 0) eqn:Ew; cbn [negb]; cycle 1.
    { destruct killed; [krun|rewrite sleep_at_run by done];
        (eexists _, _, s, []; split; [done|]); unfold read_post; cbn match;
        split_and!; auto; try (simpl; lia); try (left; split_and!); auto; lia. }
    destruct (piperead_loop_spec (Z.to_nat n) addr n 0 (push_lock (O_pipe pa) c) s)
      as (j & s' & rs & Hrun & H1 & H2 & H6 & H3 & H4 & H5); [done|lia|]; rewrite Z.sub_0_r in H6.
    unfold kbind at 1; rewrite Hrun; krun; eexists _, _, s', rs; split; [done|].
    split_and!; auto; right; split_and!; [intros; lia|set_solver|done].
  - destruct (piperead_loop_spec (Z.to_nat n) addr n 0 (push_lock (O_pipe pa) c) s)
      as (j & s' & rs & Hrun & H1 & H2 & H6 & H3 & H4 & H5); [done|lia|]; rewrite Z.sub_0_r in H6.
    unfold kbind at 1; rewrite Hrun; krun; eexists _, _, s', rs; split; [done|].
    split_and!; auto; right; split_and!; [done|set_solver|done].
Qed.
End segments.

(** ** Any interleaving of readers and writers *)

(** A segment of some process, or a change of user memory by the rest of the
    system. *)
Inductive pipe_op : Type :=
| PWrite (pt : Z) (killed : bool) (addr n i : Z)
| PRead (pt : Z) (killed : bool) (addr n : Z)
| PEnv (m : pmem).

(** The user bytes a writer took, by the index at which its segment ended. *)
Definition taken (pt addr i : Z) (m : pmem) (r : seg Z Z) : list Z :=
  let j := match r with Done j => j | Blocked _ j => j end in
  (fun k => default 0 (ubyte pt m (u64 (addr + (i + Z.of_nat k))))) <$> seq 0 (Z.to_nat (j - i)).

(** The bytes a reader finds in its buffer, as many as its call returned. *)
Definition seen (pt addr : Z) (m : pmem) (r : seg Z unit) : list Z :=
  match r with
  | Done j => (fun k => default 0 (ubyte pt m (u64 (addr + Z.of_nat k)))) <$> seq 0 (Z.to_nat j)
  | Blocked _ _ => []
  end.

(** Run the segments in order: the final state, the bytes taken from the memory
    of writers and the bytes that readers find in theirs. *)
Fixpoint pipe_run (pa : Z) (ops : list pipe_op) (s : pipest) : option (pipest * list Z * list Z) :=
  match ops with
  | [] => Some (s, [], [])
  | PWrite pt killed addr n i :: ops' =>
      match pipewrite_seg pa pt killed addr n i (Ctx [] []) s with
      | Ret r _ s' => '(s'', w, g) ← pipe_run pa ops' s'; Some (s'', taken pt addr i (pst_mem s) r ++ w, g)
      | _ => None
      end
  | PRead pt killed addr n :: ops' =>
      match piperead_seg pa pt killed addr n (Ctx [] []) s with
      | Ret r _ s' => '(s'', w, g) ← pipe_run pa ops' s'; Some (s'', w, seen pt addr (pst_mem s') r ++ g)
      | _ => None
      end
  | PEnv m :: ops' => pipe_run pa ops' (PipeSt (pi s) m)
  end.

Lemma taken_ws pa pt killed addr n i s r c' s' ws :
  0 <= i -> write_post pa pt killed addr n i s r c' s' ws -> taken pt addr i (pst_mem s) r = ws.
Proof.
  intros Hi (_ & _ & _ & _ & _ & _ & Hb & Hr); unfold taken.
  assert (Hj : Z.to_nat (match r with Done j => j | Blocked _ j => j end - i) = length ws).
  { destruct r as [j|ch j]; [destruct Hr as [(-> & -> & _)|(-> & _)]; simpl; lia|].
    destruct Hr as (_ & -> & _); lia. }
  rewrite Hj; apply list_eq; intros k; rewrite list_lookup_fmap.
  destruct (ws !! k) as [b|] eqn:E.
  - rewrite lookup_seq_lt by (by eapply lookup_lt_Some); simpl; by rewrite (Hb k b E).
  - apply lookup_ge_None in E; by rewrite lookup_seq_ge.
Qed.

(** ** What a reader finds *)

Section buffer.
Variable kend : Z.
Hypothesis kend_pos : 0 < kend.
Variables (pt : Z) (tb : tables) (L : Z -> Z).

(** A page table that maps the [n] bytes at [addr] to writable memory, no two
    pages to the same frame and none to a page of the table. *)
Record buffer_at (addr : Z) (n : nat) (m : pmem) : Prop := BufferAt {
  bf_maps : maps kend pt tb L m;
  bf_sep : forall v, writable (L v) = true -> ~ is_table tb (PTE2PA (L v));
  bf_nz : forall v, readable (L v) = true -> PTE2PA (L v) <> 0;
  bf_addr : 0 <= addr;
  bf_range : user_range L addr n;
  bf_alias : no_alias L addr n
}.

Lemma copyout_byte addr n m k b r m' :
  buffer_at addr n m -> (k < n)%nat -> (forall c, copyout pt (u64 (addr + Z.of_nat k)) [b] c m = Ret r c m') ->
  r = 0 /\ buffer_at addr n m' /\ pm_mem m' (uaddr L (addr + Z.of_nat k)) = b /\
  forall j, (j < n)%nat -> j <> k -> pm_mem m' (uaddr L (addr + Z.of_nat j)) = pm_mem m (uaddr L (addr + Z.of_nat j)).
Proof using kend_pos.
  intros [Hm Hs Hz Ha Hr Hl] Hk Hc; destruct (Hr (Z.of_nat k) ltac:(lia)) as [Hv Hw]; rewrite MAXVA_eq in Hv.
  specialize (Hc (Ctx [] [])); rewrite u64_small in Hc by lia.
  destruct (copyout_loop_spec kend kend_pos pt tb L (Ctx [] []) Hs 1 m (addr + Z.of_nat k) [b] Hm ltac:(lia) ltac:(simpl; lia))
    as (m1 & Hrun & Hmem & _ & Hm1).
  unfold copyout in Hc; cbn [length] in Hc; rewrite Hrun in Hc; cbn [copyout_ref] in Hc, Hmem.
  replace (addr + Z.of_nat k <? MAXVA) with true in * by (rewrite MAXVA_eq; lia); rewrite Hw in *; cbn in Hc, Hmem.
  injection Hc as <- <-; split_and!; [done|by split| |].
  - rewrite (Hmem _), store_bytes_in, Z.sub_diag by (simpl; lia); done.
  - intros j Hj Hjk; rewrite (Hmem _), store_bytes_out; [done|]; simpl; intros H.
    assert (Z.of_nat j = Z.of_nat k) by (apply (uaddr_inj L addr n); [done|lia|lia|lia]); lia.
Qed.

(** The bytes stored by [delivered] are in the buffer, and nothing faulted. *)
Lemma delivered_mem addr n i rs m m' j :
  delivered pt addr i rs m m' j -> 0 <= i -> (Z.to_nat i + length rs <= n)%nat -> buffer_at addr n m ->
  j = i + Z.of_nat (length rs) /\ buffer_at addr n m' /\
  (forall k b, rs !! k = Some b -> pm_mem m' (uaddr L (addr + (i + Z.of_nat k))) = b) /\
  (forall k, (k < Z.to_nat i)%nat -> pm_mem m' (uaddr L (addr + Z.of_nat k)) = pm_mem m (uaddr L (addr + Z.of_nat k))).
Proof using kend_pos.
  induction 1 as [i m|i b m m' Hc|i b rs m m1 m2 j Hc Hd IH]; intros Hi Hn Hb.
  - split_and!; auto; [simpl; lia|intros k b Hk; by rewrite lookup_nil in Hk].
  - simpl in Hn; replace i with (Z.of_nat (Z.to_nat i)) in Hc by lia.
    destruct (copyout_byte addr n m (Z.to_nat i) b _ _ Hb ltac:(lia) Hc) as [? _]; done.
  - simpl in Hn; replace (addr + i) with (addr + Z.of_nat (Z.to_nat i)) in Hc by lia.
    destruct (copyout_byte addr n m (Z.to_nat i) b _ _ Hb ltac:(lia) Hc) as (_ & Hb1 & Hv & Ho).
    destruct (IH ltac:(lia) ltac:(lia) Hb1) as (-> & Hb2 & Hrs & Hlow); split_and!; [simpl; lia|done| |].
    + intros [|k] b' Hk; simpl in Hk; [injection Hk as <-|].
      * replace (addr + (i + Z.of_nat 0)) with (addr + Z.of_nat (Z.to_nat i)) by lia; rewrite Hlow by lia; exact Hv.
      * rewrite <- (Hrs k b' Hk); do 2 f_equal; lia.
    + intros k Hk; rewrite Hlow, Ho by lia; done.
Qed.

Lemma ubyte_at addr n m k :
  buffer_at addr n m -> (k < n)%nat -> ubyte pt m (u64 (addr + Z.of_nat k)) = Some (pm_mem m (uaddr L (addr + Z.of_nat k))).
Proof using kend_pos.
  intros [Hm _ Hz Ha Hr _] Hk; destruct (Hr (Z.of_nat k) ltac:(lia)) as [Hv Hw]; rewrite MAXVA_eq in Hv.
  unfold ubyte, copyin; rewrite u64_small, (copyin_loop_spec kend kend_pos pt tb L) by (done || lia).
  change (Z.to_nat 1) with 1%nat; cbn [copyin_ref]; unfold readable, writable in *; apply andb_true_iff in Hw as [Hw _].
  replace (addr + Z.of_nat k <? MAXVA) with true by (rewrite MAXVA_eq; lia); by rewrite Hw.
Qed.

Lemma seen_rs addr n m m' rs j :
  delivered pt addr 0 rs m m' j -> (length rs <= n)%nat -> buffer_at addr n m -> seen pt addr m' (Done j) = rs.
Proof using kend_pos.
  intros Hd Hn Hb; destruct (delivered_mem addr n 0 rs m m' j Hd ltac:(lia) ltac:(lia) Hb) as (-> & Hb' & Hrs & _).
  unfold seen; rewrite Z.add_0_l, Nat2Z.id; apply list_eq; intros k; rewrite list_lookup_fmap.
  destruct (rs !! k) as [b|] eqn:E.
  - pose proof (lookup_lt_Some _ _ _ E); rewrite lookup_seq_lt by done; simpl.
    rewrite (ubyte_at addr n) by (done || lia); simpl; rewrite <- (Hrs k b E); by rewrite Z.add_0_l.
  - apply lookup_ge_None in E; by rewrite lookup_seq_ge.
Qed.
End buffer.

(** The calls of a run: a writer has written no negative number of bytes, and a
    reader has a buffer to read into when it runs. *)
Fixpoint calls_ok (kend pa : Z) (ops : list pipe_op) (s : pipest) : Prop :=
  match ops with
  | [] => True
  | PWrite pt killed addr n i :: ops' =>
      0 <= i /\ forall r c' s', pipewrite_seg pa pt killed addr n i (Ctx [] []) s = Ret r c' s' -> calls_ok kend pa ops' s'
  | PRead pt killed addr n :: ops' =>
      (exists tb L, buffer_at kend pt tb L addr (Z.to_nat n) (pst_mem s)) /\
      forall r c' s', piperead_seg pa pt killed addr n (Ctx [] []) s = Ret r c' s' -> calls_ok kend pa ops' s'
  | PEnv m :: ops' => calls_ok kend pa ops' (PipeSt (pi s) m)
  end.

Lemma read_seen kend pa pt tb L killed addr n s r c' s' rs :
  0 < kend -> buffer_at kend pt tb L addr (Z.to_nat n) (pst_mem s) -> read_post pa pt killed addr n s r c' s' rs ->
  seen pt addr (pst_mem s') r = rs.
Proof.
  intros Hk Hb (_ & Hq & Hn & _ & _ & _ & Hr); destruct r as [j|ch []].
  - destruct Hr as [(-> & -> & _ & He & _)|(_ & _ & Hd)]; [|by eapply seen_rs].
    rewrite He in Hq; symmetry in Hq; apply app_eq_nil in Hq as [-> _]; done.
  - destruct Hr as (_ & -> & _ & He & _); rewrite He in Hq; symmetry in Hq; by apply app_eq_nil in Hq as [-> _].
Qed.

(** C5: whatever segments of readers and writers run in whatever order, with
    user memory changing between them, none of them fails, and the bytes that
    readers find in their buffers when their calls return, followed by those
    still in the ring, are the bytes that writers had in theirs, in order.  The
    buffers of readers are mapped and writable when they read. *)
Theorem pipe_fifo (kend pa : Z) (ops : list pipe_op) (s : pipest) :
  0 < kend -> pipe_inv (pi s) -> calls_ok kend pa ops s ->
  exists s' w g, pipe_run pa ops s = Some (s', w, g) /\ pipe_inv (pi s') /\
    pending (pi s) ++ w = g ++ pending (pi s') /\ (length (pending (pi s')) <= 512)%nat.
Proof.
  intros Hk; revert s; induction ops as [|o ops IH]; intros s Hinv Hok.
  { exists s, [], []; split_and!; auto; [by rewrite app_nil_r|].
    pose proof (pending_le (pi s) Hinv); lia. }
  cbn [pipe_run]; destruct o as [pt killed addr n i|pt killed addr n|m]; cbn [calls_ok] in Hok.
  - destruct Hok as [Hi Hok].
    destruct (pipewrite_seg_spec pa pt killed addr n i (Ctx [] []) s Hinv eq_refl) as (r & c' & s1 & ws & Hrun & Hp); rewrite Hrun.
    pose proof (taken_ws _ _ _ _ _ _ _ _ _ _ _ Hi Hp) as ->; destruct Hp as (Hinv1 & Hq & _).
    destruct (IH s1 Hinv1 (Hok _ _ _ Hrun)) as (s' & w & g & -> & Hinv' & Hw & Hl); simpl.
    exists s', (ws ++ w), g; split_and!; auto; by rewrite app_assoc, <- Hq.
  - destruct Hok as [(tb & L & Hb) Hok].
    destruct (piperead_seg_spec pa pt killed addr n (Ctx [] []) s Hinv eq_refl) as (r & c' & s1 & rs & Hrun & Hp); rewrite Hrun.
    rewrite (read_seen kend pa pt tb L killed addr n s r c' s1 rs Hk Hb Hp); destruct Hp as (Hinv1 & Hq & _).
    destruct (IH s1 Hinv1 (Hok _ _ _ Hrun)) as (s' & w & g & -> & Hinv' & Hw & Hl); simpl.
    exists s', w, (rs ++ g); split_and!; auto; by rewrite Hq, <- !app_assoc, Hw.
  - apply (IH (PipeSt (pi s) m)); auto.
Qed.

(** A writer sleeps only on a full ring with a live reader, having woken the
    readers; a reader sleeps only on an empty ring with a live writer; and a
    reader that returns bytes has woken the writers.  So neither side sleeps
    on work the other has done. *)
Theorem pipe_blocking (pa pt : Z) (killed : bool) (addr n i : Z) (s : pipest) :
  pipe_inv (pi s) ->
  (exists r c' s', pipewrite_seg pa pt killed addr n i (Ctx [] []) s = Ret r c' s' /\
     match r with
     | Blocked ch j => ch = O_nwrite pa /\ length (pending (pi s')) = 512%nat /\ i <= j < n /\
         readopen (pi s') <> 0 /\ O_nread pa ∈ woken c'
     | Done j => j = -1 \/ (i <= j /\ O_nread pa ∈ woken c')
     end) /\
  (exists r c' s', piperead_seg pa pt killed addr n (Ctx [] []) s = Ret r c' s' /\
     match r with
     | Blocked ch _ => ch = O_nread pa /\ pending (pi s') = [] /\ writeopen (pi s') <> 0
     | Done j => j = -1 \/ (O_nwrite pa ∈ woken c' /\ (pending (pi s) = [] -> writeopen (pi s) = 0))
     end).
Proof.
  intros Hinv; split.
  - destruct (pipewrite_seg_spec pa pt killed addr n i (Ctx [] []) s Hinv eq_refl) as (r & c' & s' & ws & -> & Hp).
    exists r, c', s'; split; [done|]; destruct Hp as (_ & _ & _ & Hro & _ & _ & _ & Hp); destruct r as [j|ch j].
    + destruct Hp as [(-> & _)|(-> & Hw & _)]; [by left|right; split; [lia|done]].
    + destruct Hp as (? & -> & ? & ? & ? & ? & _); rewrite Hro; split_and!; auto; lia.
  - destruct (piperead_seg_spec pa pt killed addr n (Ctx [] []) s Hinv eq_refl) as (r & c' & s' & rs & -> & Hp).
    exists r, c', s'; split; [done|]; destruct Hp as (_ & _ & _ & _ & _ & _ & Hp); destruct r as [j|ch j].
    + destruct Hp as [(-> & _)|(? & ? & _)]; [by left|by right].
    + destruct Hp as (-> & -> & _ & ? & ?); done.
Qed.

(** ** Witnesses *)

Definition demo_pipe : pipest := PipeSt (pipe_init (replicate 512 0)) demo_vm.

Lemma demo_pipe_inv : pipe_inv (pi demo_pipe).
Proof. split; [reflexivity|simpl; lia..|vm_compute; discriminate]. Qed.

Lemma demo_buffer : buffer_at KERNBASE (pg 0) demo_tbo demo_map 100 2 demo_vm.
Proof.
  assert (Hd : forall i, 0 <= i < 2 -> (100 + i) / 4096 = 0) by (intros; apply Z.div_small; lia).
  split; [apply demo_maps|apply demo_sep|apply demo_nz|lia| |].
  - intros i Hi; rewrite Hd by lia; split; [rewrite MAXVA_eq; lia|by vm_compute].
  - intros i j Hi Hj _; by rewrite !Hd by lia.
Qed.

(** Three bytes written, two of them read: the reader finds the first two. *)
Lemma pipe_fifo_witness :
  exists s', pipe_run (pg 9) [PWrite (pg 0) false 0 3 0; PRead (pg 0) false 100 2] demo_pipe = Some (s', [42; 0; 0], [42; 0]) /\
    pipe_inv (pi s') /\ [42; 0; 0] = [42; 0] ++ pending (pi s').
Proof.
  destruct (pipe_fifo KERNBASE (pg 9) [PWrite (pg 0) false 0 3 0; PRead (pg 0) false 100 2] demo_pipe) as (s' & w & g & Hrun & Hi & Hq & _).
  - done.
  - apply demo_pipe_inv.
  - cbn [calls_ok]; split; [lia|]; intros r c' s1 Hrun; split; [|done]; exists demo_tbo, demo_map.
    destruct (pipewrite_seg_spec (pg 9) (pg 0) false 0 3 0 (Ctx [] []) demo_pipe demo_pipe_inv eq_refl) as (r' & c'' & s2 & ws & Hrun' & Hp).
    rewrite Hrun in Hrun'; injection Hrun' as _ _ <-; destruct Hp as (_ & _ & -> & _); apply demo_buffer.
  - assert (Hw : w = [42; 0; 0] /\ g = [42; 0]).
    { apply (f_equal (fun o => match o with Some (_, w, g) => (w, g) | None => ([], []) end)) in Hrun.
      vm_compute in Hrun; by injection Hrun as <- <-. }
    destruct Hw as [-> ->]; exists s'; by split_and!.
Defined.

Lemma pipe_blocking_witness :
  (exists r c' s', pipewrite_seg (pg 9) (pg 0) false 0 3 0 (Ctx [] []) demo_pipe = Ret r c' s' /\
     match r with
     | Blocked ch j => ch = O_nwrite (pg 9) /\ length (pending (pi s')) = 512%nat /\ 0 <= j < 3 /\
         readopen (pi s') <> 0 /\ O_nread (pg 9) ∈ woken c'
     | Done j => j = -1 \/ (0 <= j /\ O_nread (pg 9) ∈ woken c')
     end) /\
  (exists r c' s', piperead_seg (pg 9) (pg 0) false 0 3 (Ctx [] []) demo_pipe = Ret r c' s' /\
     match r with
     | Blocked ch _ => ch = O_nread (pg 9) /\ pending (pi s') = [] /\ writeopen (pi s') <> 0
     | Done j => j = -1 \/ (O_nwrite (pg 9) ∈ woken c' /\
                            (pending (pi demo_pipe) = [] -> writeopen (pi demo_pipe) = 0))
     end).
Proof. apply (pipe_blocking (pg 9) (pg 0) false 0 3 0 demo_pipe); apply demo_pipe_inv. Defined.
