(* ===== verification/Block.v ===== *)
(** * Disk blocks

    A block is a list of bytes.  C structures laid over it are read and
    written at byte offsets, little-endian. *)

From S2P Require Import Prelude CMem.

(** Overwrite [length bs] bytes from offset [off]. *)
Definition splice (d : list Z) (off : nat) (bs : list Z) : list Z :=
  take off d ++ bs ++ drop (off + length bs) d.
Definition slice (d : list Z) (off n : nat) : list Z := take n (drop off d).

Definition get8 (d : list Z) (off : nat) : Z := default 0 (d !! off).
Definition get16 (d : list Z) (off : nat) : Z := le_decode (slice d off 2).
Definition get32 (d : list Z) (off : nat) : Z := le_decode (slice d off 4).
Definition put8 (d : list Z) (off : nat) (v : Z) : list Z := splice d off [u8 v].
Definition put16 (d : list Z) (off : nat) (v : Z) : list Z := splice d off (le_encode 2 v).
Definition put32 (d : list Z) (off : nat) (v : Z) : list Z := splice d off (le_encode 4 v).

(** ** Lemmas *)

Lemma length_splice d off bs : (off + length bs <= length d)%nat -> length (splice d off bs) = length d.
Proof. intros H; unfold splice; rewrite !length_app, length_take, length_drop; lia. Qed.

Lemma length_slice d off n : (off + n <= length d)%nat -> length (slice d off n) = n.
Proof. intros H; unfold slice; rewrite length_take, length_drop; lia. Qed.

Lemma lookup_splice d off bs i :
  (off + length bs <= length d)%nat ->
  splice d off bs !! i = if decide (off <= i < off + length bs)%nat then bs !! (i - off)%nat else d !! i.
Proof.
  intros H; unfold splice; case_decide as E.
  - rewrite lookup_app_r by (rewrite length_take; lia); rewrite length_take.
    replace (off `min` length d)%nat with off by lia.
    by rewrite lookup_app_l by lia.
  - destruct (decide (i < off)%nat).
    + rewrite lookup_app_l by (rewrite length_take; lia); by rewrite lookup_take_lt.
    + rewrite lookup_app_r by (rewrite length_take; lia); rewrite length_take.
      replace (off `min` length d)%nat with off by lia.
      rewrite lookup_app_r by lia; rewrite lookup_drop; f_equal; lia.
Qed.

Lemma lookup_slice d off n i :
  slice d off n !! i = if decide (i < n)%nat then d !! (off + i)%nat else None.
Proof.
  unfold slice; case_decide; [by rewrite lookup_take_lt, lookup_drop|].
  rewrite lookup_take_ge by lia; done.
Qed.

Lemma slice_splice_same d off bs n :
  n = length bs -> (off + n <= length d)%nat -> slice (splice d off bs) off n = bs.
Proof.
  intros -> H; apply list_eq; intros i; rewrite lookup_slice, lookup_splice by done.
  case_decide; [rewrite decide_True by lia; f_equal; lia|].
  symmetry; apply lookup_ge_None; lia.
Qed.

Lemma slice_splice_disj d off bs off' n :
  (off + length bs <= length d)%nat -> (off' + n <= off \/ off + length bs <= off')%nat ->
  slice (splice d off bs) off' n = slice d off' n.
Proof.
  intros H Hd; apply list_eq; intros i; rewrite !lookup_slice; case_decide; [|done].
  rewrite lookup_splice by done; by rewrite decide_False by lia.
Qed.

Lemma splice_splice d off bs bs' :
  length bs = length bs' -> (off + length bs <= length d)%nat ->
  splice (splice d off bs) off bs' = splice d off bs'.
Proof.
  intros Hl H; apply list_eq; intros i.
  rewrite !lookup_splice by (rewrite ?length_splice; lia); repeat case_decide; (done || lia).
Qed.

Lemma splice_all d bs : length bs = length d -> splice d 0 bs = bs.
Proof. intros H; unfold splice; rewrite drop_ge by lia; by rewrite app_nil_r. Qed.

Lemma splice_slice d off n : (off + n <= length d)%nat -> splice d off (slice d off n) = d.
Proof.
  intros H; apply list_eq; intros i; rewrite lookup_splice by (rewrite length_slice; lia).
  rewrite length_slice by lia; case_decide; [|done].
  rewrite lookup_slice, decide_True by lia; f_equal; lia.
Qed.

Lemma get32_put32_same d off v : (off + 4 <= length d)%nat -> get32 (put32 d off v) off = u32 v.
Proof.
  intros H; unfold get32, put32; rewrite slice_splice_same by (rewrite ?length_le_encode; lia).
  by rewrite le_decode_encode.
Qed.

Lemma get32_put32_disj d off off' v :
  (off + 4 <= length d)%nat -> (off' + 4 <= off \/ off + 4 <= off')%nat ->
  get32 (put32 d off v) off' = get32 d off'.
Proof. intros H Hd; unfold get32, put32; by rewrite slice_splice_disj by (rewrite ?length_le_encode; lia). Qed.

Lemma length_put32 d off v : (off + 4 <= length d)%nat -> length (put32 d off v) = length d.
Proof. intros H; apply length_splice; rewrite length_le_encode; lia. Qed.

Lemma get16_put16_same d off v : (off + 2 <= length d)%nat -> get16 (put16 d off v) off = u16 v.
Proof.
  intros H; unfold get16, put16; rewrite slice_splice_same by (rewrite ?length_le_encode; lia).
  by rewrite le_decode_encode.
Qed.

Lemma get16_put16_disj d off off' v :
  (off + 2 <= length d)%nat -> (off' + 2 <= off \/ off + 2 <= off')%nat ->
  get16 (put16 d off v) off' = get16 d off'.
Proof. intros H Hd; unfold get16, put16; by rewrite slice_splice_disj by (rewrite ?length_le_encode; lia). Qed.

Lemma length_put16 d off v : (off + 2 <= length d)%nat -> length (put16 d off v) = length d.
Proof. intros H; apply length_splice; rewrite length_le_encode; lia. Qed.

