(* ===== verification/Bio.v ===== *)
(** * kernel/bio.c

    The buffer cache: [NBUF] buffers, an LRU list, and the disk below.  The
    list through [prev]/[next] is the list of buffer indices from [head.next],
    the most recently used, to [head.prev].  The disk is an initial content
    and the sequence of block writes made since. *)

From S2P Require Import Prelude CMem Riscv Locks Block.
Export SleepLock.

Definition BSIZE : Z := 1024.

Record buf : Type := Buf {
  bvalid : Z;
  bdev : Z;
  bblockno : Z;
  block : sleeplock;
  brefcnt : Z;
  bdata : list Z
}.

(** Block contents after a sequence of writes. *)
Fixpoint disk_after (d : Z -> list Z) (ws : list (Z * list Z)) : Z -> list Z :=
  match ws with
  | [] => d
  | (b, v) :: ws' => disk_after (fun x => if x =? b then v else d x) ws'
  end.

Record bcache : Type := BCache {
  bufs : list buf;
  lru : list nat;
  disk0 : Z -> list Z;
  writes : list (Z * list Z)
}.
Definition disk (s : bcache) : Z -> list Z := disk_after (disk0 s) (writes s).

Definition buf0 : buf := Buf 0 0 0 initsleeplock 0 (replicate 1024 0).
Definition get_buf (i : nat) (s : bcache) : buf := default buf0 (bufs s !! i).
Definition upd_buf (i : nat) (f : buf -> buf) (s : bcache) : bcache :=
  BCache (alter f i (bufs s)) (lru s) (disk0 s) (writes s).
Definition set_lru (f : list nat -> list nat) (s : bcache) : bcache :=
  BCache (bufs s) (f (lru s)) (disk0 s) (writes s).

(** The sleep lock of a buffer within the cache. *)
Definition buf_lock (i : nat) : lens bcache sleeplock :=
  Lens (fun s => block (get_buf i s))
       (fun l => upd_buf i (fun b => Buf (bvalid b) (bdev b) (bblockno b) l (brefcnt b) (bdata b))).

Definition set_refcnt (r : Z) (b : buf) : buf :=
  Buf (bvalid b) (bdev b) (bblockno b) (block b) r (bdata b).
Definition set_data (d : list Z) (b : buf) : buf :=
  Buf (bvalid b) (bdev b) (bblockno b) (block b) (brefcnt b) d.
Definition set_valid (v : Z) (b : buf) : buf :=
  Buf v (bdev b) (bblockno b) (block b) (brefcnt b) (bdata b).

(** The loop of [binit]: each buffer goes to the front of the list. *)
Definition binit (d : Z -> list Z) : bcache :=
  BCache (replicate (Z.to_nat NBUF) buf0) (rev (seq 0 (Z.to_nat NBUF))) d [].

(** The first buffer along a list of indices that satisfies a test. *)
Fixpoint find_buf (test : buf -> bool) (l : list nat) (s : bcache) : option nat :=
  match l with
  | [] => None
  | i :: l' => if test (get_buf i s) then Some i else find_buf test l' s
  end.

Section bio.
Variable mypid : Z.   (* myproc()->pid *)

Definition bget (dev blockno : Z) : M bcache nat :=
  acquire O_bcache ;;;
  let* s := kget in
  match find_buf (fun b => (bdev b =? dev) && (bblockno b =? blockno)) (lru s) s with
  | Some i =>
      kmod (upd_buf i (fun b => set_refcnt (u32 (brefcnt b + 1)) b)) ;;;
      release O_bcache ;;;
      acquiresleep (buf_lock i) (O_buflk i) mypid ;;;
      kret i
  | None =>
      match find_buf (fun b => brefcnt b =? 0) (rev (lru s)) s with
      | Some i =>
          kmod (upd_buf i (fun b => Buf 0 dev blockno (block b) 1 (bdata b))) ;;;
          release O_bcache ;;;
          acquiresleep (buf_lock i) (O_buflk i) mypid ;;;
          kret i
      | None => panic "bget: no buffers"
      end
  end.

(** [virtio_disk_rw] on a locked buffer: the transfer of one block. *)
Definition virtio_disk_rw (i : nat) (write : bool) : M bcache unit :=
  kmod (fun s =>
    if write then
      BCache (bufs s) (lru s) (disk0 s) (writes s ++ [(bblockno (get_buf i s), bdata (get_buf i s))])
    else upd_buf i (set_data (disk s (bblockno (get_buf i s)))) s).

Definition bread (dev blockno : Z) : M bcache nat :=
  let* i := bget dev blockno in
  let* s := kget in
  (if truth (bvalid (get_buf i s)) then kret tt
   else virtio_disk_rw i false ;;; kmod (upd_buf i (set_valid 1))) ;;;
  kret i.

Definition bwrite (i : nat) : M bcache unit :=
  let* h := holdingsleep (buf_lock i) (O_buflk i) mypid in
  if negb h then panic "bwrite" else virtio_disk_rw i true.

Definition brelse (i : nat) : M bcache unit :=
  let* h := holdingsleep (buf_lock i) (O_buflk i) mypid in
  if negb h then panic "brelse"
  else
    releasesleep (buf_lock i) (O_buflk i) ;;;
    acquire O_bcache ;;;
    kmod (upd_buf i (fun b => set_refcnt (u32 (brefcnt b - 1)) b)) ;;;
    let* s := kget in
    (if brefcnt (get_buf i s) =? 0 then
       kmod (set_lru (fun l => i :: filter (fun j => j <> i) l))
     else kret tt) ;;;
    release O_bcache.

Definition bpin (i : nat) : M bcache unit :=
  acquire O_bcache ;;;
  kmod (upd_buf i (fun b => set_refcnt (u32 (brefcnt b + 1)) b)) ;;;
  release O_bcache.

Definition bunpin (i : nat) : M bcache unit :=
  acquire O_bcache ;;;
  kmod (upd_buf i (fun b => set_refcnt (u32 (brefcnt b - 1)) b)) ;;;
  release O_bcache.
End bio.
