(* ===== verification/BioInv.v ===== *)
(** * Invariant of the buffer cache

    The cache as one process sees it that holds the locks of the buffers [L]
    while the blocks [D] are pinned by the log.  [view] is the content of the
    disk as seen through the cache. *)

From S2P Require Import Prelude CMem Riscv Locks Block Bio.

Definition caches (b : Z) (x : buf) : bool := (bdev x =? ROOTDEV) && (bblockno x =? b).
Definition cached (s : bcache) (b : Z) : option nat := find_buf (caches b) (seq 0 30) s.
Definition view (s : bcache) (b : Z) : list Z :=
  match cached s b with
  | Some i => if truth (bvalid (get_buf i s)) then bdata (get_buf i s) else disk s b
  | None => disk s b
  end.

Definition in_list (i : nat) (L : list nat) : Z := if decide (i ∈ L) then 1 else 0.
Definition pinned (D : list Z) (x : buf) : Z :=
  if decide (bdev x = ROOTDEV /\ bblockno x ∈ D) then 1 else 0.

Section inv.
Variable mypid : Z.

Record bio_inv (s : bcache) (L : list nat) (D : list Z) : Prop := BioInv {
  bi_len : length (bufs s) = 30%nat;
  bi_lru : lru s ≡ₚ seq 0 30;
  bi_size : forall i, length (bdata (get_buf i s)) = 1024%nat;
  bi_disk : forall b, length (disk s b) = 1024%nat;
  bi_uniq : forall b i j, (i < 30)%nat -> (j < 30)%nat ->
    caches b (get_buf i s) = true -> caches b (get_buf j s) = true -> i = j;
  bi_mine : forall i, i ∈ L -> (i < 30)%nat /\ block (get_buf i s) = SL 1 mypid /\
    bdev (get_buf i s) = ROOTDEV /\ truth (bvalid (get_buf i s)) = true;
  bi_free : forall i, (i < 30)%nat -> i ∉ L -> locked (block (get_buf i s)) = 0;
  bi_ref : forall i, (i < 30)%nat -> brefcnt (get_buf i s) = in_list i L + pinned D (get_buf i s);
  bi_pin : forall b, b ∈ D -> exists i, (i < 30)%nat /\ caches b (get_buf i s) = true /\
    truth (bvalid (get_buf i s)) = true;
  bi_clean : forall i, (i < 30)%nat -> i ∉ L -> bdev (get_buf i s) = ROOTDEV ->
    truth (bvalid (get_buf i s)) = true -> bblockno (get_buf i s) ∉ D ->
    bdata (get_buf i s) = disk s (bblockno (get_buf i s))
}.

(** ** Buffers and their updates *)

Lemma get_upd s i j f : (i < length (bufs s))%nat ->
  get_buf j (upd_buf i f s) = if decide (j = i) then f (get_buf i s) else get_buf j s.
Proof.
  intros Hi; unfold get_buf, upd_buf; cbn [bufs]; case_decide as E.
  - subst; rewrite list_lookup_alter_eq; by destruct (lookup_lt_is_Some_2 _ _ Hi) as [x ->].
  - by rewrite list_lookup_alter_ne.
Qed.

Lemma find_buf_Some t l s i : find_buf t l s = Some i -> i ∈ l /\ t (get_buf i s) = true.
Proof.
  induction l as [|j l IH]; simpl; [done|].
  destruct (t (get_buf j s)) eqn:E; [intros [=<-]; set_solver|intros H%IH; set_solver].
Qed.

Lemma find_buf_None t l s i : find_buf t l s = None -> i ∈ l -> t (get_buf i s) = false.
Proof.
  induction l as [|j l IH]; simpl; [set_solver|].
  destruct (t (get_buf j s)) eqn:E; [done|].
  intros H [->|Hi]%elem_of_cons; auto.
Qed.

Lemma find_buf_ext t t' l s s' :
  (forall i, i ∈ l -> t (get_buf i s) = t' (get_buf i s')) -> find_buf t l s = find_buf t' l s'.
Proof.
  induction l as [|j l IH]; intros H; simpl; [done|].
  rewrite (H j) by left; destruct (t' _); [done|]; apply IH; intros; apply H; by right.
Qed.

Lemma elem_of_range i : i ∈ seq 0 30 <-> (i < 30)%nat.
Proof. rewrite elem_of_seq; lia. Qed.

Section lookup.
Variables (s : bcache) (L : list nat) (D : list Z).
Hypothesis Hinv : bio_inv s L D.

Lemma cached_eq b i : (i < 30)%nat -> caches b (get_buf i s) = true -> cached s b = Some i.
Proof using Hinv.
  intros Hi Hc; destruct (cached s b) as [j|] eqn:E.
  - apply find_buf_Some in E as [Hj Ht]; f_equal.
    apply (bi_uniq _ _ _ Hinv b); auto; by apply elem_of_range.
  - apply (find_buf_None _ _ _ i) in E; [congruence|by apply elem_of_range].
Qed.

Lemma cached_Some b i : cached s b = Some i -> (i < 30)%nat /\ caches b (get_buf i s) = true.
Proof using. intros H%find_buf_Some; by rewrite elem_of_range in H. Qed.

Lemma cached_None b i : cached s b = None -> (i < 30)%nat -> caches b (get_buf i s) = false.
Proof using. intros H Hi; apply (find_buf_None _ _ _ i H); by apply elem_of_range. Qed.

(** The search of [bget] along the LRU list finds the same buffer. *)
Lemma lru_cached b : find_buf (caches b) (lru s) s = cached s b.
Proof using Hinv.
  destruct (find_buf _ (lru s) s) as [i|] eqn:E.
  - apply find_buf_Some in E as [Hi Ht]; rewrite (bi_lru _ _ _ Hinv), elem_of_range in Hi.
    symmetry; by apply cached_eq.
  - destruct (cached s b) as [i|] eqn:E'; [|done]; apply cached_Some in E' as [Hi Ht].
    apply (find_buf_None _ _ _ i) in E; [congruence|].
    by rewrite (bi_lru _ _ _ Hinv), elem_of_range.
Qed.

Lemma view_buf b i :
  (i < 30)%nat -> caches b (get_buf i s) = true ->
  view s b = if truth (bvalid (get_buf i s)) then bdata (get_buf i s) else disk s b.
Proof using Hinv. intros Hi Hc; unfold view; by rewrite (cached_eq b i). Qed.

Lemma mine_caches i : i ∈ L -> caches (bblockno (get_buf i s)) (get_buf i s) = true.
Proof using Hinv.
  intros Hi; destruct (bi_mine _ _ _ Hinv i Hi) as (_ & _ & Hd & _); unfold caches; lia.
Qed.

Lemma view_mine i : i ∈ L -> view s (bblockno (get_buf i s)) = bdata (get_buf i s).
Proof using Hinv.
  intros Hi; destruct (bi_mine _ _ _ Hinv i Hi) as (Hl & _ & _ & Hv).
  rewrite (view_buf _ i) by (auto using mine_caches); by rewrite Hv.
Qed.
End lookup.

Lemma caches_inv b x : caches b x = true <-> bdev x = ROOTDEV /\ bblockno x = b.
Proof. unfold caches; lia. Qed.

(** ** Changing one buffer *)

Record bupd (s : bcache) (i : nat) (x : buf) (s' : bcache) : Prop := BUpd {
  bu_get : forall j, get_buf j s' = if decide (j = i) then x else get_buf j s;
  bu_len : length (bufs s') = length (bufs s);
  bu_lru : lru s' ≡ₚ lru s;
  bu_disk0 : disk0 s' = disk0 s;
  bu_writes : writes s' = writes s
}.

Lemma bupd_upd s i f : (i < length (bufs s))%nat -> bupd s i (f (get_buf i s)) (upd_buf i f s).
Proof. intros Hi; split; auto; [intros j; by apply get_upd|apply length_alter]. Qed.

Lemma bupd_same s i x s' : bupd s i x s' -> get_buf i s' = x.
Proof. intros H; rewrite (bu_get _ _ _ _ H); by rewrite decide_True. Qed.

Lemma bupd_trans s i x s1 x' s2 : bupd s i x s1 -> bupd s1 i x' s2 -> bupd s i x' s2.
Proof.
  intros [G1 N1 R1 K1 W1] [G2 N2 R2 K2 W2]; split; try congruence.
  - intros j; rewrite G2, G1; repeat case_decide; done.
  - by rewrite R2.
Qed.

Lemma bupd_then s i x s1 f :
  (i < length (bufs s))%nat -> bupd s i x s1 -> bupd s i (f x) (upd_buf i f s1).
Proof.
  intros Hi H; eapply bupd_trans; [exact H|]; rewrite <- (bupd_same _ _ _ _ H) at 1.
  apply bupd_upd; by rewrite (bu_len _ _ _ _ H).
Qed.

Lemma bupd_disk s i x s' : bupd s i x s' -> disk s' = disk s.
Proof. intros [_ _ _ K W]; unfold disk; by rewrite K, W. Qed.

(** The invariant after a change of one buffer, with the locks and the pinned
    blocks it comes with. *)
Lemma bio_inv_upd s L D i x s' L' D' :
  bio_inv s L D -> bupd s i x s' -> (i < 30)%nat ->
  length (bdata x) = 1024%nat ->
  (forall b j, (j < 30)%nat -> j <> i -> caches b x = true -> caches b (get_buf j s) = false) ->
  (forall j, j <> i -> j ∈ L' <-> j ∈ L) ->
  (forall j, (j < 30)%nat -> j <> i -> pinned D' (get_buf j s) = pinned D (get_buf j s)) ->
  (i ∈ L' -> block x = SL 1 mypid /\ bdev x = ROOTDEV /\ truth (bvalid x) = true) ->
  (i ∉ L' -> locked (block x) = 0) ->
  brefcnt x = in_list i L' + pinned D' x ->
  (forall b, b ∈ D' -> (caches b x = true /\ truth (bvalid x) = true) \/
     (b ∈ D /\ caches b (get_buf i s) = false)) ->
  (i ∉ L' -> bdev x = ROOTDEV -> truth (bvalid x) = true -> bblockno x ∉ D' ->
     bdata x = disk s (bblockno x)) ->
  bio_inv s' L' D'.
Proof.
  intros Hinv Hu Hi Hsz Huq HL HD Hm Hf Hr Hp Hc; pose proof (bupd_disk _ _ _ _ Hu) as Hdk.
  pose proof (bu_get _ _ _ _ Hu) as G; split.
  - rewrite (bu_len _ _ _ _ Hu); apply (bi_len _ _ _ Hinv).
  - rewrite (bu_lru _ _ _ _ Hu); apply (bi_lru _ _ _ Hinv).
  - intros j; rewrite G; case_decide; [done|apply (bi_size _ _ _ Hinv)].
  - intros b; rewrite Hdk; apply (bi_disk _ _ _ Hinv).
  - intros b j k Hj Hk; rewrite !G; repeat case_decide; subst; auto.
    + intros H1 H2; rewrite (Huq b k) in H2; done.
    + intros H1 H2; rewrite (Huq b j) in H1; done.
    + apply (bi_uniq _ _ _ Hinv); auto.
  - intros j Hj; rewrite G; case_decide as E; [subst; auto|].
    apply HL in Hj; [|done]; by apply (bi_mine _ _ _ Hinv).
  - intros j Hj Hn; rewrite G; case_decide as E; [subst; auto|].
    apply (bi_free _ _ _ Hinv); [done|by rewrite <- HL].
  - intros j Hj; rewrite G; case_decide as E; [subst; auto|].
    rewrite HD, (bi_ref _ _ _ Hinv) by done; unfold in_list; repeat case_decide; naive_solver.
  - intros b Hb; destruct (Hp b Hb) as [[H1 H2]|[H1 H2]].
    { exists i; rewrite G, decide_True by done; auto. }
    destruct (bi_pin _ _ _ Hinv b H1) as (j & Hj & H3 & H4).
    exists j; rewrite G, decide_False by (intros ->; congruence); auto.
  - intros j Hj Hn; rewrite G; rewrite Hdk; case_decide as E; [subst; auto|].
    intros H1 H2 H3; apply (bi_clean _ _ _ Hinv); auto; [by rewrite <- HL|].
    intros H4; specialize (HD j Hj E); unfold pinned in HD; repeat case_decide; naive_solver.
Qed.

Lemma bio_inv_pins s L D D' : (forall b, b ∈ D <-> b ∈ D') -> bio_inv s L D -> bio_inv s L D'.
Proof.
  intros HD [H1 H2 H3 H4 H5 H6 H7 H8 H9 H10]; split; auto.
  - intros i Hi; rewrite H8 by done; f_equal; unfold pinned; repeat case_decide; naive_solver.
  - intros b Hb; apply H9; by apply HD.
  - intros i Hi Hn Hd Hv Hb; apply H10; auto; by rewrite HD.
Qed.

(** The view after a change of one buffer. *)
Lemma view_upd s L D i x s' b :
  bio_inv s L D -> bupd s i x s' -> (i < 30)%nat ->
  (forall j, (j < 30)%nat -> j <> i -> caches b x = true -> caches b (get_buf j s) = false) ->
  view s' b =
  if caches b x then (if truth (bvalid x) then bdata x else disk s b)
  else if caches b (get_buf i s) then disk s b else view s b.
Proof.
  intros Hinv Hu Hi Huq; pose proof (bu_get _ _ _ _ Hu) as G; unfold view.
  rewrite (bupd_disk _ _ _ _ Hu).
  destruct (cached s' b) as [j|] eqn:E.
  - apply cached_Some in E as [Hj Hc]; rewrite G in *; case_decide as Ej; [by subst; rewrite Hc|].
    destruct (caches b x) eqn:Ex; [rewrite Huq in Hc; done|].
    rewrite (cached_eq s L D Hinv b j) by done.
    destruct (caches b (get_buf i s)) eqn:Ei; [|done].
    destruct Ej; by apply (bi_uniq _ _ _ Hinv b).
  - pose proof (cached_None _ _ i E Hi) as Hx; rewrite G, decide_True in Hx by done; rewrite Hx.
    destruct (caches b (get_buf i s)) eqn:Ei; [done|].
    destruct (cached s b) as [j|] eqn:E'; [|done]; apply cached_Some in E' as [Hj Hc].
    pose proof (cached_None _ _ j E Hj) as Hx'; rewrite G in Hx'; case_decide; congruence.
Qed.
End inv.
