(* ===== verification/BioSpec.v ===== *)
(** * Specifications of the buffer cache operations *)

From S2P Require Import Prelude CMem Riscv Locks Block Bio BioInv.

Definition bctx (c : kctx) : Prop := (O_bcache ∉ held c) /\ forall i, O_buflk i ∉ held c.

Lemma bctx_woken o c : bctx c -> bctx (add_woken o c).
Proof. done. Qed.

(** [s'] differs from [s] only in buffers outside [L] and in cached data. *)
Record bsame (s s' : bcache) (L : list nat) : Prop := BSame {
  bs_view : forall b, view s' b = view s b;
  bs_disk0 : disk0 s' = disk0 s;
  bs_writes : writes s' = writes s;
  bs_mine : forall j, j ∈ L -> get_buf j s' = get_buf j s
}.

Lemma bsame_disk s s' L : bsame s s' L -> disk s' = disk s.
Proof. intros [_ H1 H2 _]; unfold disk; by rewrite H1, H2. Qed.

Lemma bsame_refl s L : bsame s s L.
Proof. by split. Qed.

Lemma bsame_trans s1 s2 s3 L : bsame s1 s2 L -> bsame s2 s3 L -> bsame s1 s3 L.
Proof.
  intros [V1 K1 W1 M1] [V2 K2 W2 M2]; split; [|congruence..|].
  - intros b; by rewrite V2.
  - intros j Hj; by rewrite M2, M1.
Qed.

Lemma length_omap_le {A B} (f : A -> option B) (l : list A) : (length (omap f l) <= length l)%nat.
Proof. induction l as [|x l IH]; csimpl; [lia|]; destruct (f x); cbn [length]; lia. Qed.

Lemma move_front (i : nat) (l : list nat) :
  i ∈ l -> NoDup l -> i :: filter (fun j => j <> i) l ≡ₚ l.
Proof.
  induction l as [|j l IH]; intros Hi Hn; [by inversion Hi|].
  apply NoDup_cons in Hn as [Hj Hn]; rewrite filter_cons; case_decide as E.
  - apply elem_of_cons in Hi as [->|Hi]; [done|].
    rewrite <- (IH Hi Hn) at 2; apply Permutation_swap.
  - subst j; f_equiv; clear IH Hi Hn; induction l as [|k l IH]; [done|].
    rewrite filter_cons, decide_True by set_solver; f_equiv; apply IH; set_solver.
Qed.

Section spec.
Variable mypid : Z.

(** A buffer is free as long as fewer than [NBUF] are locked or pinned. *)
Lemma free_buffer s L D :
  bio_inv mypid s L D -> (length L + length D < 30)%nat ->
  exists i, (i < 30)%nat /\ brefcnt (get_buf i s) = 0.
Proof.
  intros Hinv Hlt.
  destruct (decide (Exists (fun i => brefcnt (get_buf i s) = 0) (seq 0 30))) as [He|Hn].
  { apply Exists_exists in He as (i & Hi & He); exists i; by rewrite elem_of_range in Hi. }
  exfalso; apply not_Exists_Forall in Hn; [|apply _]; rewrite Forall_forall in Hn.
  assert (Hsub : seq 0 30 ⊆+ L ++ omap (cached s) D).
  { apply NoDup_submseteq; [apply NoDup_seq|]; intros i Hi.
    specialize (Hn i Hi); unfold compose in Hn; rewrite elem_of_range in Hi.
    rewrite (bi_ref _ _ _ _ Hinv i Hi) in Hn; unfold in_list, pinned in Hn.
    rewrite elem_of_app; case_decide as E1; [by left|].
    case_decide as E2; [|done]; destruct E2 as [Hd Hb]; right.
    apply list_elem_of_omap; exists (bblockno (get_buf i s)); split; [done|].
    apply (cached_eq mypid s L D Hinv); [done|by apply caches_inv]. }
  apply submseteq_length in Hsub; rewrite length_seq, length_app in Hsub.
  pose proof (length_omap_le (cached s) D); lia.
Qed.

Lemma in_list_cons i L : i ∉ L -> in_list i (i :: L) = in_list i L + 1.
Proof. intros H; unfold in_list; rewrite decide_True by left; by rewrite decide_False. Qed.

(** The buffer [bread] returns, already cached or recycled. *)
Definition locked_buf (v r b : Z) (d : list Z) : buf := Buf v ROOTDEV b (SL 1 mypid) r d.

Lemma bread_inv s L D i v b d s' :
  bio_inv mypid s L D -> (i < 30)%nat -> i ∉ L -> length d = 1024%nat ->
  truth v = true -> d = view s b ->
  (caches b (get_buf i s) = true \/ (cached s b = None /\ brefcnt (get_buf i s) = 0)) ->
  bupd s i (locked_buf v (1 + pinned D (locked_buf 0 0 b d)) b d) s' ->
  bio_inv mypid s' (i :: L) D /\ bsame s s' L.
Proof.
  intros Hinv Hi Hn Hd Htv Hv Hcase Hu; set (x := locked_buf v _ b d) in Hu.
  assert (Hx : forall b', caches b' x = true <-> b' = b) by (intros b'; unfold caches; simpl; lia).
  assert (Huq : forall b' j, (j < 30)%nat -> j <> i -> caches b' x = true -> caches b' (get_buf j s) = false).
  { intros b' j Hj Hji ->%Hx; destruct Hcase as [Hc|[Hc _]]; [|by apply cached_None].
    destruct (caches b (get_buf j s)) eqn:E; [|done].
    destruct Hji; by apply (bi_uniq _ _ _ _ Hinv b). }
  assert (Hzero : brefcnt (get_buf i s) = 0 -> forall b', b' ∈ D -> caches b' (get_buf i s) = false).
  { intros Hr b' Hb'; destruct (caches b' (get_buf i s)) eqn:E; [|done]; apply caches_inv in E as [E1 E2].
    rewrite (bi_ref _ _ _ _ Hinv i Hi) in Hr; unfold in_list, pinned in Hr.
    rewrite decide_False, decide_True in Hr by (try rewrite E2; auto); lia. }
  split.
  - apply (bio_inv_upd mypid s L D i x); auto.
    + intros j Hji; rewrite elem_of_cons; naive_solver.
    + intros H; set_solver.
    + unfold in_list; rewrite decide_True by left; done.
    + intros b' Hb'; destruct (decide (b' = b)) as [->|Hne]; [left; split; [by apply Hx|done]|right].
      split; [done|]; destruct Hcase as [Hc|[_ Hr]]; [|by apply Hzero].
      apply caches_inv in Hc as [_ Hc]; unfold caches; lia.
    + intros H; set_solver.
  - split; [|apply (bu_disk0 _ _ _ _ Hu)|apply (bu_writes _ _ _ _ Hu)|].
    + intros b'; rewrite (view_upd mypid s L D i x s' b' Hinv Hu Hi (Huq b')).
      destruct (caches b' x) eqn:E; [apply Hx in E; subst; cbn [x locked_buf bvalid bdata]; by rewrite Htv|].
      destruct (caches b' (get_buf i s)) eqn:E2; [|done].
      destruct Hcase as [Hc|[Hc Hr]].
      * apply caches_inv in Hc as [_ Hc], E2 as [_ E2]; subst.
        assert (caches (bblockno (get_buf i s)) x = true) by (by apply Hx); congruence.
      * rewrite (view_buf mypid s L D Hinv b' i) by done.
        destruct (truth (bvalid (get_buf i s))) eqn:Et; [|done].
        apply caches_inv in E2 as [E2 E3]; subst b'; symmetry; apply (bi_clean _ _ _ _ Hinv); auto.
        intros Hin; assert (caches (bblockno (get_buf i s)) (get_buf i s) = false) by (by apply Hzero).
        unfold caches in *; lia.
    + intros j Hj; rewrite (bu_get _ _ _ _ Hu); case_decide; [by subst|done].
Qed.

Lemma lock_run i c s :
  bctx c -> locked (block (get_buf i s)) = 0 ->
  acquiresleep (buf_lock i) (O_buflk i) mypid c s = Ret tt c (lset (buf_lock i) (SL 1 mypid) s).
Proof. intros [_ Hc] Hl; by apply acquiresleep_free. Qed.

Lemma in_list_no i L : i ∉ L -> in_list i L = 0.
Proof. intros H; unfold in_list; by rewrite decide_False. Qed.

Lemma u32_pin D x n : 0 <= n <= 2 -> u32 (n + pinned D x) = n + pinned D x.
Proof. intros; unfold pinned; case_decide; apply u32_small; lia. Qed.

(** The lock is taken and an invalid buffer is read. *)
Definition lock_fill (s : bcache) (x : buf) : buf :=
  Buf (if truth (bvalid x) then bvalid x else 1) (bdev x) (bblockno x) (SL 1 mypid) (brefcnt x)
    (if truth (bvalid x) then bdata x else disk s (bblockno x)).

Lemma lock_fill_run s i x s1 c :
  (i < length (bufs s))%nat -> bupd s i x s1 -> locked (block x) = 0 -> bctx c ->
  exists s', (let* i := (acquiresleep (buf_lock i) (O_buflk i) mypid ;;; kret i) in
     let* s := kget in
     (if truth (bvalid (get_buf i s)) then kret tt
      else virtio_disk_rw i false ;;; kmod (upd_buf i (set_valid 1))) ;;;
     kret i) c s1 = Ret i c s' /\ bupd s i (lock_fill s x) s'.
Proof.
  intros Hi U1 Hl Hc; unfold kbind at 1 2; rewrite lock_run by (rewrite ?(bupd_same _ _ _ _ U1); done).
  pose proof (bupd_then s i _ s1 (fun b => Buf (bvalid b) (bdev b) (bblockno b) (SL 1 mypid) (brefcnt b) (bdata b)) Hi U1) as U2.
  set (s2 := upd_buf i _ s1) in U2; change (lset (buf_lock i) (SL 1 mypid) s1) with s2.
  krun; rewrite (bupd_same _ _ _ _ U2); cbn [bvalid]; unfold lock_fill.
  destruct (truth (bvalid x)) eqn:Et; [by exists s2|].
  eexists; split; [reflexivity|]; unfold virtio_disk_rw.
  pose proof (bupd_then s i _ s2 (set_data (disk s2 (bblockno (get_buf i s2)))) Hi U2) as U3.
  pose proof (bupd_then s i _ _ (set_valid 1) Hi U3) as U4.
  cbn [set_data set_valid bvalid bblockno bdev block brefcnt bdata] in U4.
  rewrite (bupd_disk _ _ _ _ U2), (bupd_same _ _ _ _ U2) in U4 |- *; exact U4.
Qed.

Lemma bget_run s b c (k : nat -> M bcache nat) :
  bctx c ->
  kbind (bget mypid ROOTDEV b) k c s =
  match find_buf (caches b) (lru s) s with
  | Some i =>
      kbind (acquiresleep (buf_lock i) (O_buflk i) mypid ;;; kret i) k c
        (upd_buf i (fun b => set_refcnt (u32 (brefcnt b + 1)) b) s)
  | None =>
      match find_buf (fun b => brefcnt b =? 0) (rev (lru s)) s with
      | Some i =>
          kbind (acquiresleep (buf_lock i) (O_buflk i) mypid ;;; kret i) k c
            (upd_buf i (fun x => Buf 0 ROOTDEV b (block x) 1 (bdata x)) s)
      | None => Panic "bget: no buffers"
      end
  end.
Proof.
  intros [Hc _]; unfold bget; change (fun b0 => (bdev b0 =? ROOTDEV) && (bblockno b0 =? b)) with (caches b).
  unfold kbind at 1 2; rewrite acquire_run by done; unfold kbind at 1, kget.
  destruct (find_buf (caches b) (lru s) s) as [i|].
  - unfold kbind at 1 2, kmod; rewrite release_run; reflexivity.
  - destruct (find_buf _ (rev (lru s)) s) as [i|]; [|done].
    unfold kbind at 1 2, kmod; rewrite release_run; reflexivity.
Qed.

(** [bget] followed by the read of an invalid buffer. *)
Lemma bread_run s L D b c :
  bio_inv mypid s L D -> bctx c -> (forall i, i ∈ L -> bblockno (get_buf i s) <> b) ->
  (b ∈ D \/ (length L + length D < 30)%nat) ->
  exists i v s', bread mypid ROOTDEV b c s = Ret i c s' /\ (i < 30)%nat /\ (i ∉ L) /\ truth v = true /\
    (caches b (get_buf i s) = true \/ (cached s b = None /\ brefcnt (get_buf i s) = 0)) /\
    bupd s i (locked_buf v (1 + pinned D (locked_buf 0 0 b (view s b))) b (view s b)) s'.
Proof.
  intros Hinv Hc Hb Hroom; unfold bread; rewrite bget_run by done.
  rewrite (lru_cached mypid s L D Hinv); pose proof (bi_len _ _ _ _ Hinv) as Hlen.
  destruct (cached s b) as [i|] eqn:Ec.
  - apply cached_Some in Ec as [Hi Hcb]; pose proof Hcb as [Hdv Hbn]%caches_inv.
    assert (Hn : i ∉ L) by (intros Hin; by apply (Hb i Hin)).
    destruct (lock_fill_run s i _ _ c ltac:(lia)
      (bupd_upd s i (fun b => set_refcnt (u32 (brefcnt b + 1)) b) ltac:(lia))) as (s' & Hr & U); auto.
    { by apply (bi_free _ _ _ _ Hinv). }
    eexists i, _, s'; split_and!; [exact Hr|done|done| |by left|].
    2: { unfold lock_fill in U; cbn [set_refcnt bvalid bdev bblockno brefcnt bdata] in U.
         unfold locked_buf; rewrite (view_buf mypid s L D Hinv b i Hi Hcb) at 2.
         rewrite (bi_ref _ _ _ _ Hinv i Hi), in_list_no, Z.add_0_l, Z.add_comm, u32_pin in U by (done || lia).
         unfold pinned in *; cbn [bdev bblockno] in *; rewrite Hdv, Hbn in *; exact U. }
    destruct (truth (bvalid (get_buf i s))) eqn:E; [exact E|done].
  - assert (Hb' : b ∉ D).
    { intros Hin; destruct (bi_pin _ _ _ _ Hinv b Hin) as (j & Hj & Hcj & _).
      by rewrite (cached_None _ _ j Ec Hj) in Hcj. }
    destruct Hroom as [?|Hroom]; [done|].
    destruct (free_buffer s L D Hinv Hroom) as (i0 & Hi0 & Hz0).
    destruct (find_buf (fun x => brefcnt x =? 0) (rev (lru s)) s) as [i|] eqn:Ef; cycle 1.
    { apply (find_buf_None _ _ _ i0) in Ef; [lia|].
      rewrite <- Permutation_rev, (bi_lru _ _ _ _ Hinv); by apply elem_of_range. }
    apply find_buf_Some in Ef as [Hi Hz]; rewrite <- Permutation_rev, (bi_lru _ _ _ _ Hinv), elem_of_range in Hi.
    assert (Hn : i ∉ L).
    { intros Hin; pose proof (bi_ref _ _ _ _ Hinv i Hi) as Hr; unfold in_list, pinned in Hr.
      rewrite decide_True in Hr by done; case_decide; lia. }
    destruct (lock_fill_run s i _ _ c ltac:(lia)
      (bupd_upd s i (fun x => Buf 0 ROOTDEV b (block x) 1 (bdata x)) ltac:(lia))) as (s' & Hr & U); auto.
    { by apply (bi_free _ _ _ _ Hinv). }
    exists i, 1, s'; split_and!; auto; [right; split; [done|lia]|].
    unfold view; rewrite Ec; unfold lock_fill in U; cbn in U; unfold locked_buf.
    unfold pinned; cbn [bdev bblockno]; rewrite decide_False by (by intros [_ ?]); exact U.
Qed.

Lemma length_view s L D b : bio_inv mypid s L D -> length (view s b) = 1024%nat.
Proof.
  intros Hinv; unfold view; destruct (cached s b) as [j|]; [|apply (bi_disk _ _ _ _ Hinv)].
  destruct (truth _); [apply (bi_size _ _ _ _ Hinv)|apply (bi_disk _ _ _ _ Hinv)].
Qed.

(** [bread] of a block this process has not locked. *)
Lemma bread_spec s L D b c :
  bio_inv mypid s L D -> bctx c -> (forall i, i ∈ L -> bblockno (get_buf i s) <> b) ->
  (b ∈ D \/ (length L + length D < 30)%nat) ->
  exists i s', bread mypid ROOTDEV b c s = Ret i c s' /\ (i ∉ L) /\
    bio_inv mypid s' (i :: L) D /\ bsame s s' L /\
    bblockno (get_buf i s') = b /\ bdata (get_buf i s') = view s b.
Proof.
  intros Hinv Hc Hb Hroom; destruct (bread_run s L D b c Hinv Hc Hb Hroom) as (i & v & s' & Hr & Hi & Hn & Hv & Hcase & U).
  pose proof (length_view s L D b Hinv) as Hlen.
  destruct (bread_inv s L D i v b (view s b) s' Hinv Hi Hn Hlen Hv eq_refl Hcase U) as [Hinv' Hsame].
  exists i, s'; rewrite (bupd_same _ _ _ _ U); split_and!; auto.
Qed.

Lemma holding_run s L D i c :
  bio_inv mypid s L D -> bctx c -> i ∈ L ->
  holdingsleep (buf_lock i) (O_buflk i) mypid c s = Ret true c s.
Proof.
  intros Hinv [_ Hc] Hi; rewrite holdingsleep_run by done; cbn [lget buf_lock].
  destruct (bi_mine _ _ _ _ Hinv i Hi) as (_ & -> & _); cbn [locked pid]; by rewrite Z.eqb_refl.
Qed.

(** A locked buffer keeps its key; only its other fields change. *)
Lemma same_key_uniq s L D i x b j :
  bio_inv mypid s L D -> (i < 30)%nat -> bdev x = bdev (get_buf i s) -> bblockno x = bblockno (get_buf i s) ->
  (j < 30)%nat -> j <> i -> caches b x = true -> caches b (get_buf j s) = false.
Proof.
  intros Hinv Hi Hd Hb Hj Hji Hx; destruct (caches b (get_buf j s)) eqn:E; [|done].
  destruct Hji; apply (bi_uniq _ _ _ _ Hinv b); auto; unfold caches in *; by rewrite <- Hd, <- Hb.
Qed.

Lemma pinned_key D x y : bdev x = bdev y -> bblockno x = bblockno y -> pinned D x = pinned D y.
Proof. intros H1 H2; unfold pinned; by rewrite H1, H2. Qed.

(** [brelse] of a buffer whose content is logged or on disk. *)
Lemma brelse_spec s L D i c :
  bio_inv mypid s (i :: L) D -> i ∉ L -> bctx c ->
  (bblockno (get_buf i s) ∈ D \/ bdata (get_buf i s) = disk s (bblockno (get_buf i s))) ->
  exists c' s', brelse mypid i c s = Ret tt c' s' /\ held c' = held c /\
    bio_inv mypid s' L D /\ bsame s s' L.
Proof.
  intros Hinv Hn Hc Hcl; pose proof Hc as [Hc1 Hc2].
  destruct (bi_mine _ _ _ _ Hinv i ltac:(left)) as (Hi & Hlk & Hdv & Hvl).
  assert (Hlen : (i < length (bufs s))%nat) by (by rewrite (bi_len _ _ _ _ Hinv)).
  pose proof (bupd_upd s i (fun b => Buf (bvalid b) (bdev b) (bblockno b) (SL 0 0) (brefcnt b) (bdata b)) Hlen) as U1.
  pose proof (bupd_then s i _ _ (fun b => set_refcnt (u32 (brefcnt b - 1)) b) Hlen U1) as U2.
  set (s2 := upd_buf i (fun b => set_refcnt _ b) _) in U2.
  set (x := Buf (bvalid (get_buf i s)) (bdev (get_buf i s)) (bblockno (get_buf i s)) (SL 0 0)
              (u32 (brefcnt (get_buf i s) - 1)) (bdata (get_buf i s))).
  change (bupd s i x s2) in U2.
  assert (Href : brefcnt x = pinned D (get_buf i s)).
  { cbn [x brefcnt]; rewrite (bi_ref _ _ _ _ Hinv i Hi); unfold in_list; rewrite decide_True by left.
    replace (1 + pinned D (get_buf i s) - 1) with (0 + pinned D (get_buf i s)) by lia; by rewrite u32_pin by lia. }
  set (s3 := if brefcnt x =? 0 then set_lru (fun l => i :: filter (fun j => j <> i) l) s2 else s2).
  assert (U3 : bupd s i x s3).
  { unfold s3; case_match; [|done]; destruct U2 as [G N R K W]; split; auto; cbn [set_lru lru].
    rewrite <- R; apply move_front; [rewrite R, (bi_lru _ _ _ _ Hinv); by apply elem_of_range|].
    rewrite R, (bi_lru _ _ _ _ Hinv); apply NoDup_seq. }
  exists (add_woken (O_buflk i) c), s3; split_and!; [|done| |].
  - unfold brelse, kbind at 1; rewrite (holding_run s (i :: L) D) by (done || left); cbn [negb].
    unfold kbind at 1; rewrite releasesleep_run by done.
    unfold kbind at 1; rewrite acquire_run by done; unfold kbind at 1, kmod at 1.
    change (upd_buf i (fun b => set_refcnt (u32 (brefcnt b - 1)) b) (lset (buf_lock i) (SL 0 0) s)) with s2.
    unfold kbind, kget; rewrite (bupd_same _ _ _ _ U2); unfold s3.
    destruct (brefcnt x =? 0); unfold kmod, kret; by rewrite release_run.
  - apply (bio_inv_upd mypid s (i :: L) D i x); auto.
    + apply (bi_size _ _ _ _ Hinv).
    + intros b j; by apply same_key_uniq with (i :: L) D.
    + intros j Hji; rewrite elem_of_cons; naive_solver.
    + done.
    + rewrite Href, in_list_no by done; apply pinned_key; done.
    + intros b Hb; destruct (decide (caches b (get_buf i s) = true)) as [E|E]; [left; done|right].
      split; [done|by apply not_true_is_false].
    + intros _ _ _ Hnd; destruct Hcl; [done|done].
  - split; [|apply (bu_disk0 _ _ _ _ U3)|apply (bu_writes _ _ _ _ U3)|].
    + intros b; rewrite (view_upd mypid s (i :: L) D i x s3 b Hinv U3 Hi);
        [|intros j; by apply same_key_uniq with (i :: L) D].
      change (caches b x) with (caches b (get_buf i s)); cbn [x bvalid bdata].
      destruct (caches b (get_buf i s)) eqn:E; [|done].
      symmetry; by apply (view_buf mypid s (i :: L) D).
    + intros j Hj; rewrite (bu_get _ _ _ _ U3); case_decide; [by subst|done].
Qed.

(** A new content for a locked buffer. *)
Lemma set_data_spec s L D i d :
  bio_inv mypid s L D -> i ∈ L -> length d = 1024%nat ->
  let s' := upd_buf i (set_data d) s in
  bio_inv mypid s' L D /\ bupd s i (set_data d (get_buf i s)) s' /\
  (forall b, view s' b = if decide (b = bblockno (get_buf i s)) then d else view s b).
Proof.
  intros Hinv Hi Hd s'; destruct (bi_mine _ _ _ _ Hinv i Hi) as (Hl & Hlk & Hdv & Hvl).
  pose proof (bupd_upd s i (set_data d) ltac:(by rewrite (bi_len _ _ _ _ Hinv))) as U.
  split_and!; [|done|].
  - apply (bio_inv_upd mypid s L D i (set_data d (get_buf i s))); auto; try done.
    + intros b j; by apply same_key_uniq with L D.
    + cbn [set_data brefcnt]; rewrite (bi_ref _ _ _ _ Hinv i Hl); done.
    + intros b Hb; destruct (caches b (get_buf i s)) eqn:E; [left; done|by right].
  - intros b; rewrite (view_upd mypid s L D i _ s' b Hinv U Hl);
      [|intros j; by apply same_key_uniq with L D].
    change (caches b (set_data d (get_buf i s))) with (caches b (get_buf i s)); cbn [set_data bvalid bdata].
    rewrite Hvl; unfold caches; rewrite Hdv; case_decide as E.
    + subst; by rewrite !Z.eqb_refl.
    + replace (bblockno (get_buf i s) =? b) with false by lia; by rewrite andb_false_r.
Qed.

Lemma disk_after_app d ws ws' x : disk_after d (ws ++ ws') x = disk_after (disk_after d ws) ws' x.
Proof. revert d; induction ws as [|[b v] ws IH]; intros d; simpl; [done|apply IH]. Qed.

Lemma bwrite_spec s L D i c :
  bio_inv mypid s L D -> i ∈ L -> bctx c ->
  exists s', bwrite mypid i c s = Ret tt c s' /\ bio_inv mypid s' L D /\
    (forall b, view s' b = view s b) /\ (forall j, get_buf j s' = get_buf j s) /\
    disk0 s' = disk0 s /\ writes s' = writes s ++ [(bblockno (get_buf i s), bdata (get_buf i s))].
Proof.
  intros Hinv Hi Hc; destruct (bi_mine _ _ _ _ Hinv i Hi) as (Hl & Hlk & Hdv & Hvl).
  set (b0 := bblockno (get_buf i s)); set (d := bdata (get_buf i s)).
  set (s' := BCache (bufs s) (lru s) (disk0 s) (writes s ++ [(b0, d)])).
  assert (Hdisk : forall b, disk s' b = if b =? b0 then d else disk s b).
  { intros b; unfold disk; cbn [s' disk0 writes]; by rewrite disk_after_app. }
  assert (Hother : forall b j, (j < 30)%nat -> caches b (get_buf j s) = true -> j <> i -> b <> b0).
  { intros b j Hj Hc1 Hji ->; apply Hji, (bi_uniq _ _ _ _ Hinv b0); auto.
    apply caches_inv; done. }
  exists s'; split_and!; auto.
  - unfold bwrite, kbind; rewrite (holding_run s L D) by done; reflexivity.
  - destruct Hinv as [H1 H2 H3 H4 H5 H6 H7 H8 H9 H10]; split; auto.
    + intros b; rewrite Hdisk; destruct (_ =? _); [apply H3|apply H4].
    + intros j Hj Hn Hd Hv Hp; change (get_buf j s') with (get_buf j s) in *; rewrite Hdisk.
      replace (bblockno (get_buf j s) =? b0) with false; [by apply H10|].
      symmetry; apply Z.eqb_neq, (Hother _ j); auto; [by apply caches_inv|congruence].
  - intros b; unfold view; change (cached s' b) with (cached s b); rewrite Hdisk.
    destruct (cached s b) as [j|] eqn:E.
    + change (get_buf j s') with (get_buf j s); apply cached_Some in E as [Hj Hcj].
      destruct (truth (bvalid (get_buf j s))) eqn:Ev; [done|].
      replace (b =? b0) with false; [done|]; symmetry; apply Z.eqb_neq, (Hother _ j); auto; congruence.
    + pose proof (cached_None _ _ i E Hl) as Hx; unfold caches in Hx; rewrite Hdv in Hx; fold b0 in Hx.
      by replace (b =? b0) with false by lia.
Qed.

Lemma in_list_yes i L : i ∈ L -> in_list i L = 1.
Proof. intros H; unfold in_list; by rewrite decide_True. Qed.

Lemma pin_here b D x : bdev x = ROOTDEV -> bblockno x = b -> pinned (b :: D) x = 1.
Proof. intros; unfold pinned; rewrite decide_True; [done|set_solver]. Qed.

Lemma pin_not b D x : bblockno x = b -> b ∉ D -> pinned D x = 0.
Proof. intros; unfold pinned; rewrite decide_False; [done|set_solver]. Qed.

(** An unpinned block nobody has locked is the same in the cache and on disk. *)
Lemma view_clean s L D b :
  bio_inv mypid s L D -> b ∉ D -> (forall i, i ∈ L -> bblockno (get_buf i s) <> b) -> view s b = disk s b.
Proof.
  intros Hinv Hb HL; unfold view; destruct (cached s b) as [i|] eqn:E; [|done].
  apply cached_Some in E as [Hi [Hd Hn]%caches_inv].
  destruct (truth (bvalid (get_buf i s))) eqn:Ev; [|done].
  rewrite (bi_clean _ _ _ _ Hinv i) by (rewrite ?Hn; auto; intros Hin; by apply (HL i)); by rewrite Hn.
Qed.

Section pin.
Variables (s : bcache) (L : list nat) (D : list Z) (i : nat) (c : kctx).
Hypothesis Hi : i ∈ L.
Hypothesis Hc : bctx c.

Lemma pin_other D' b j :
  bio_inv mypid s L D' -> bblockno (get_buf i s) = b -> (j < 30)%nat -> j <> i -> forall D1,
  pinned (b :: D1) (get_buf j s) = pinned D1 (get_buf j s).
Proof using Hi Hc.
  intros Hinv Hb Hj Hji D1; destruct (bi_mine _ _ _ _ Hinv i Hi) as (Hl & _ & Hdv & _).
  unfold pinned; repeat case_decide; auto; [|naive_solver set_solver].
  destruct H as [H1 [H2|H2]%elem_of_cons]; [|naive_solver].
  destruct Hji; apply (bi_uniq _ _ _ _ Hinv b); auto; apply caches_inv; auto.
Qed.

Lemma bpin_spec b :
  bio_inv mypid s L D -> bblockno (get_buf i s) = b -> b ∉ D ->
  exists s', bpin i c s = Ret tt c s' /\ bio_inv mypid s' L (b :: D) /\
    bupd s i (set_refcnt (u32 (brefcnt (get_buf i s) + 1)) (get_buf i s)) s' /\
    (forall b, view s' b = view s b).
Proof using Hi Hc.
  intros Hinv Hb Hnd; destruct (bi_mine _ _ _ _ Hinv i Hi) as (Hl & Hlk & Hdv & Hvl).
  set (f := fun b => set_refcnt (u32 (brefcnt b + 1)) b).
  pose proof (bupd_upd s i f ltac:(by rewrite (bi_len _ _ _ _ Hinv))) as U.
  exists (upd_buf i f s); split_and!; [destruct Hc; unfold bpin; by krun| |exact U|].
  - apply (bio_inv_upd mypid s L D i (f (get_buf i s))); auto; try done.
    + apply (bi_size _ _ _ _ Hinv).
    + intros b' j; by apply same_key_uniq with L D.
    + intros j Hj Hji; by eapply pin_other.
    + cbn [f set_refcnt brefcnt]; rewrite (bi_ref _ _ _ _ Hinv i Hl).
      rewrite (pinned_key _ (f (get_buf i s)) (get_buf i s)), pin_here, (pin_not b), in_list_yes by done; done.
    + intros b' Hb'; destruct (caches b' (get_buf i s)) eqn:E; [by left|right; split; [|done]].
      apply elem_of_cons in Hb' as [->|]; [|done]; unfold caches in E; lia.
  - intros b'; rewrite (view_upd mypid s L D i _ _ b' Hinv U Hl);
      [|intros j; by apply same_key_uniq with L D].
    change (caches b' (f (get_buf i s))) with (caches b' (get_buf i s)); cbn [f set_refcnt bvalid bdata].
    destruct (caches b' (get_buf i s)) eqn:E; [|done]; symmetry; by apply (view_buf mypid s L D).
Qed.

Lemma bunpin_spec b :
  bio_inv mypid s L (b :: D) -> bblockno (get_buf i s) = b -> b ∉ D ->
  exists s', bunpin i c s = Ret tt c s' /\ bio_inv mypid s' L D /\
    bupd s i (set_refcnt (u32 (brefcnt (get_buf i s) - 1)) (get_buf i s)) s' /\
    (forall b, view s' b = view s b).
Proof using Hi Hc.
  intros Hinv Hb Hnd; destruct (bi_mine _ _ _ _ Hinv i Hi) as (Hl & Hlk & Hdv & Hvl).
  set (f := fun b => set_refcnt (u32 (brefcnt b - 1)) b).
  pose proof (bupd_upd s i f ltac:(by rewrite (bi_len _ _ _ _ Hinv))) as U.
  exists (upd_buf i f s); split_and!; [destruct Hc; unfold bunpin; by krun| |exact U|].
  - apply (bio_inv_upd mypid s L (b :: D) i (f (get_buf i s))); auto; try done.
    + apply (bi_size _ _ _ _ Hinv).
    + intros b' j; by apply same_key_uniq with L (b :: D).
    + intros j Hj Hji; symmetry; by eapply pin_other.
    + cbn [f set_refcnt brefcnt]; rewrite (bi_ref _ _ _ _ Hinv i Hl).
      rewrite (pinned_key _ (f (get_buf i s)) (get_buf i s)), pin_here, (pin_not b), in_list_yes by done; done.
    + intros b' Hb'; destruct (caches b' (get_buf i s)) eqn:E; [by left|right; split; [by right|done]].
  - intros b'; rewrite (view_upd mypid s L (b :: D) i _ _ b' Hinv U Hl);
      [|intros j; by apply same_key_uniq with L (b :: D)].
    change (caches b' (f (get_buf i s))) with (caches b' (get_buf i s)); cbn [f set_refcnt bvalid bdata].
    destruct (caches b' (get_buf i s)) eqn:E; [|done]; symmetry; by apply (view_buf mypid s L (b :: D)).
Qed.
End pin.
End spec.
