(* ===== verification/Log.v ===== *)
(** * kernel/log.c

    The redo log.  The state is struct log and the buffer cache below it. *)

From S2P Require Import Prelude CMem Riscv Locks Block Bio BioInv.

(** struct log with its logheader [lh]. *)
Record log : Type := Log {
  start : Z;
  size : Z;
  outstanding : Z;
  committing : Z;
  dev : Z;
  lh_n : Z;
  lh_block : list Z
}.

Record logst : Type := LogSt {
  lg : log;
  bc : bcache
}.
Definition bc_of : lens logst bcache := Lens bc (fun b s => LogSt (lg s) b).
Definition set_lg (f : log -> log) (s : logst) : logst := LogSt (f (lg s)) (bc s).

Definition set_n (n : Z) (l : log) : log :=
  Log (start l) (size l) (outstanding l) (committing l) (dev l) n (lh_block l).
Definition set_block (i : nat) (b : Z) (l : log) : log :=
  Log (start l) (size l) (outstanding l) (committing l) (dev l) (lh_n l) (<[i := b]> (lh_block l)).
Definition set_outstanding (o : Z) (l : log) : log :=
  Log (start l) (size l) o (committing l) (dev l) (lh_n l) (lh_block l).
Definition set_committing (c : Z) (l : log) : log :=
  Log (start l) (size l) (outstanding l) c (dev l) (lh_n l) (lh_block l).

(** [log.lh.block[i]]. *)
Definition lblock (i : Z) (l : log) : Z := default 0 (lh_block l !! Z.to_nat i).

Section log.
Variable mypid : Z.

(** [bread(log.dev, blockno)], int arguments converted to uint. *)
Definition lbread (blockno : Z) : M logst nat :=
  let* s := kget in zoom bc_of (bread mypid (u32 (dev (lg s))) (u32 blockno)).
Definition buf_data (i : nat) : M logst (list Z) :=
  let* s := kget in kret (bdata (get_buf i (bc s))).
Definition set_buf_data (i : nat) (d : list Z) : M logst unit :=
  zoom bc_of (kmod (upd_buf i (set_data d))).

(** [for (tail = 0; tail < log.lh.n; tail++)] *)
Fixpoint install_loop (fuel : nat) (recovering : bool) (tail : Z) : M logst unit :=
  let* s := kget in
  if tail <? lh_n (lg s) then
    match fuel with
    | O => stuck
    | S f =>
        let* lbuf := lbread (start (lg s) + tail + 1) in
        let* dbuf := lbread (lblock tail (lg s)) in
        let* d := buf_data lbuf in
        set_buf_data dbuf d ;;;
        zoom bc_of (bwrite mypid dbuf) ;;;
        (if recovering then kret tt else zoom bc_of (bunpin dbuf)) ;;;
        zoom bc_of (brelse mypid lbuf) ;;;
        zoom bc_of (brelse mypid dbuf) ;;;
        install_loop f recovering (tail + 1)
    end
  else kret tt.
Definition install_trans (recovering : bool) : M logst unit :=
  let* s := kget in install_loop (Z.to_nat (lh_n (lg s))) recovering 0.

(** [log.lh.block[i] = lh->block[i]]; an index past the array is undefined. *)
Fixpoint read_entries (fuel : nat) (d : list Z) (i : Z) : M logst unit :=
  let* s := kget in
  if i <? lh_n (lg s) then
    match fuel with
    | O => stuck
    | S f =>
        if LOGSIZE <=? i then stuck
        else
          kmod (set_lg (set_block (Z.to_nat i) (i32 (get32 d (Z.to_nat (4 + 4 * i)))))) ;;;
          read_entries f d (i + 1)
    end
  else kret tt.
Definition read_head : M logst unit :=
  let* s := kget in
  let* buf := lbread (start (lg s)) in
  let* d := buf_data buf in
  kmod (set_lg (set_n (i32 (get32 d 0)))) ;;;
  read_entries (Z.to_nat (i32 (get32 d 0))) d 0 ;;;
  zoom bc_of (brelse mypid buf).

(** The header block with the in-memory header copied over it. *)
Fixpoint put_entries (n : nat) (i : nat) (l : log) (d : list Z) : list Z :=
  match n with
  | O => d
  | S n' => put_entries n' (S i) l (put32 d (4 + 4 * i) (lblock (Z.of_nat i) l))
  end.
Definition write_head : M logst unit :=
  let* s := kget in
  let* buf := lbread (start (lg s)) in
  let* d := buf_data buf in
  let* s := kget in
  set_buf_data buf (put_entries (Z.to_nat (lh_n (lg s))) 0 (lg s) (put32 d 0 (lh_n (lg s)))) ;;;
  zoom bc_of (bwrite mypid buf) ;;;
  zoom bc_of (brelse mypid buf).

Definition recover_from_log : M logst unit :=
  read_head ;;;
  install_trans true ;;;
  kmod (set_lg (set_n 0)) ;;;
  write_head.

(** [sizeof(struct logheader)] is 4 + 4*LOGSIZE; [logstart] and [nlog] are the
    superblock's. *)
Definition initlog (d logstart nlog : Z) : M logst unit :=
  if BSIZE <=? 4 + 4 * LOGSIZE then panic "initlog: too big logheader"
  else
    kmod (set_lg (fun l => Log logstart nlog (outstanding l) (committing l) d (lh_n l) (lh_block l))) ;;;
    recover_from_log.

(** A turn of the [while(1)]; woken up, the process starts over. *)
Definition begin_op_seg : M logst (seg unit unit) :=
  acquire O_log ;;;
  let* s := kget in
  if truth (committing (lg s)) then sleep_at O_log O_log tt
  else if LOGSIZE <? lh_n (lg s) + (outstanding (lg s) + 1) * MAXOPBLOCKS then sleep_at O_log O_log tt
  else
    kmod (set_lg (set_outstanding (outstanding (lg s) + 1))) ;;;
    release O_log ;;;
    kret (Done tt).
Definition begin_op : M logst unit := whole O_log begin_op_seg.

Fixpoint write_log_loop (fuel : nat) (tail : Z) : M logst unit :=
  let* s := kget in
  if tail <? lh_n (lg s) then
    match fuel with
    | O => stuck
    | S f =>
        let* to := lbread (start (lg s) + tail + 1) in
        let* from := lbread (lblock tail (lg s)) in
        let* d := buf_data from in
        set_buf_data to d ;;;
        zoom bc_of (bwrite mypid to) ;;;
        zoom bc_of (brelse mypid from) ;;;
        zoom bc_of (brelse mypid to) ;;;
        write_log_loop f (tail + 1)
    end
  else kret tt.
Definition write_log : M logst unit :=
  let* s := kget in write_log_loop (Z.to_nat (lh_n (lg s))) 0.

Definition commit : M logst unit :=
  let* s := kget in
  if 0 <? lh_n (lg s) then
    write_log ;;;
    write_head ;;;
    install_trans false ;;;
    kmod (set_lg (set_n 0)) ;;;
    write_head
  else kret tt.

Definition end_op : M logst unit :=
  acquire O_log ;;;
  kmod (set_lg (fun l => set_outstanding (outstanding l - 1) l)) ;;;
  let* s := kget in
  if truth (committing (lg s)) then panic "log.committing"
  else
    (if outstanding (lg s) =? 0 then kmod (set_lg (set_committing 1)) else wakeup O_log) ;;;
    release O_log ;;;
    if outstanding (lg s) =? 0 then
      commit ;;;
      acquire O_log ;;;
      kmod (set_lg (set_committing 0)) ;;;
      wakeup O_log ;;;
      release O_log
    else kret tt.

(** The index of a block in the log, or [n]. *)
Fixpoint find_block (n : nat) (i : nat) (b : Z) (l : log) : nat :=
  match n with
  | O => i
  | S n' => if u32 (lblock (Z.of_nat i) l) =? b then i else find_block n' (S i) b l
  end.

Definition log_write (b : nat) : M logst unit :=
  acquire O_log ;;;
  let* s := kget in
  if (LOGSIZE <=? lh_n (lg s)) || (size (lg s) - 1 <=? lh_n (lg s)) then panic "too big a transaction"
  else if outstanding (lg s) <? 1 then panic "log_write outside of trans"
  else
    let blockno := bblockno (get_buf b (bc s)) in
    let i := find_block (Z.to_nat (lh_n (lg s))) 0 blockno (lg s) in
    kmod (set_lg (set_block i (i32 blockno))) ;;;
    (if Z.of_nat i =? lh_n (lg s) then
       zoom bc_of (bpin b) ;;;
       kmod (set_lg (fun l => set_n (lh_n l + 1) l))
     else kret tt) ;;;
    release O_log.
End log.
