(* ===== verification/LogSpec.v ===== *)
(** * Specifications of the log

    What [write_log], [install_trans], [read_head] and [write_head] write to
    the disk, in terms of the content of the cache. *)

From S2P Require Import Prelude CMem Riscv Locks Block Bio BioInv BioSpec Log.

(** Blocks the log may name: above 0 and within int. *)
Definition blkno (b : Z) : Prop := 0 <= b < 2 ^ 31.

Section spec.
Variable mypid : Z.

Definition lctx (c : kctx) : Prop := bctx c /\ (O_log ∉ held c).

Lemma bctx_held c c' : held c' = held c -> bctx c -> bctx c'.
Proof. unfold bctx; by intros ->. Qed.

(** The logged blocks, in order. *)
Definition logged (l : log) : list Z := take (Z.to_nat (lh_n l)) (lh_block l).

Lemma lbread_spec s L D b c :
  bio_inv mypid (bc s) L D -> bctx c -> dev (lg s) = ROOTDEV -> blkno b ->
  (forall i, i ∈ L -> bblockno (get_buf i (bc s)) <> b) ->
  (b ∈ D \/ (length L + length D < 30)%nat) ->
  exists i s', lbread mypid b c s = Ret i c s' /\ (i ∉ L) /\ lg s' = lg s /\
    bio_inv mypid (bc s') (i :: L) D /\ bsame (bc s) (bc s') L /\
    bblockno (get_buf i (bc s')) = b /\ bdata (get_buf i (bc s')) = view (bc s) b.
Proof.
  intros Hinv Hc Hd Hb HL Hr.
  destruct (bread_spec mypid (bc s) L D b c Hinv Hc HL Hr) as (i & s' & Hrun & H).
  exists i, (LogSt (lg s) s'); split_and!; try apply H; try done.
  unfold lbread, kbind, kget, zoom; cbn [lget lset bc_of]; rewrite Hd.
  unfold blkno in Hb; rewrite (u32_small b) by lia; change (u32 ROOTDEV) with ROOTDEV; by rewrite Hrun.
Qed.

(** A zoomed run. *)
Lemma zbc_run {A} (m : M bcache A) c s x c' b :
  m c (bc s) = Ret x c' b -> zoom bc_of m c s = Ret x c' (LogSt (lg s) b).
Proof. intros H; unfold zoom; cbn [lget lset bc_of]; by rewrite H. Qed.

(** What a step of the log did to the disk. *)
Record wrote (s s' : logst) (W : list (Z * list Z)) : Prop := Wrote {
  wr_lg : lg s' = lg s;
  wr_disk0 : disk0 (bc s') = disk0 (bc s);
  wr_writes : writes (bc s') = writes (bc s) ++ W
}.

Lemma wrote_refl s : wrote s s [].
Proof. split; auto; by rewrite app_nil_r. Qed.

Lemma wrote_trans s1 s2 s3 W1 W2 : wrote s1 s2 W1 -> wrote s2 s3 W2 -> wrote s1 s3 (W1 ++ W2).
Proof. intros [L1 K1 H1] [L2 K2 H2]; split; try congruence; by rewrite H2, H1, app_assoc. Qed.

Lemma wrote_disk s s' W : wrote s s' W -> forall b, disk (bc s') b = disk_after (disk (bc s)) W b.
Proof. intros [_ K H] b; unfold disk; by rewrite K, H, disk_after_app. Qed.

(** The body shared by both copying loops: [dst] and [src] are locked, the
    content of [src] goes to [dst] and to the disk. *)
Lemma copy_write s L D dst src c a b :
  bio_inv mypid (bc s) L D -> dst ∈ L -> src ∈ L -> dst <> src -> bctx c ->
  bblockno (get_buf dst (bc s)) = a -> bblockno (get_buf src (bc s)) = b -> a <> b ->
  exists s', (let* d := buf_data src in set_buf_data dst d ;;; zoom bc_of (bwrite mypid dst)) c s = Ret tt c s' /\
    bio_inv mypid (bc s') L D /\ wrote s s' [(a, view (bc s) b)] /\
    (forall x, view (bc s') x = if decide (x = a) then view (bc s) b else view (bc s) x) /\
    bblockno (get_buf dst (bc s')) = a /\ bdata (get_buf dst (bc s')) = view (bc s) b /\
    (forall j, j <> dst -> get_buf j (bc s') = get_buf j (bc s)).
Proof.
  intros Hinv Hd Hs Hne Hc Ha Hb Hab.
  set (v := bdata (get_buf src (bc s))).
  assert (Hv : v = view (bc s) b) by (symmetry; subst b; by apply (view_mine mypid _ L D)).
  destruct (set_data_spec mypid (bc s) L D dst v Hinv Hd (bi_size _ _ _ _ Hinv src)) as (Hinv1 & U1 & V1).
  set (b1 := upd_buf dst (set_data v) (bc s)) in *.
  destruct (bwrite_spec mypid b1 L D dst c Hinv1 Hd Hc) as (b2 & Hw & Hinv2 & V2 & G2 & K2 & W2).
  assert (Hg : get_buf dst b1 = set_data v (get_buf dst (bc s))) by (by apply (bupd_same _ _ _ _ U1)).
  exists (LogSt (lg s) b2); split_and!; cbn [bc]; auto.
  - unfold buf_data, set_buf_data, kbind, kget, kret, kmod.
    erewrite zbc_run by reflexivity; fold v; fold b1; by rewrite (zbc_run _ _ (LogSt (lg s) b1) tt c b2).
  - split; cbn [lg bc]; [done| |]; rewrite ?K2, ?W2; [apply (bu_disk0 _ _ _ _ U1)|].
    rewrite (bu_writes _ _ _ _ U1), Hg; cbn [set_data bblockno bdata]; by rewrite Ha, Hv.
  - intros x; rewrite V2, V1, Ha, Hv; done.
  - by rewrite G2, Hg.
  - by rewrite G2, Hg.
  - intros j Hj; rewrite G2, (bu_get _ _ _ _ U1); by rewrite decide_False.
Qed.

Lemma bio_inv_ext s L L' D : (forall i, i ∈ L <-> i ∈ L') -> bio_inv mypid s L D -> bio_inv mypid s L' D.
Proof.
  intros HL [H1 H2 H3 H4 H5 H6 H7 H8 H9 H10]; split; auto.
  - intros i Hi; apply H6; by apply HL.
  - intros i Hi Hn; apply H7; [done|by rewrite HL].
  - intros i Hi; rewrite H8 by done; f_equal; unfold in_list; repeat case_decide; naive_solver.
  - intros i Hi Hn; apply H10; [done|by rewrite HL].
Qed.

Lemma lbrelse_spec s L D i c :
  bio_inv mypid (bc s) (i :: L) D -> i ∉ L -> bctx c ->
  (bblockno (get_buf i (bc s)) ∈ D \/
   bdata (get_buf i (bc s)) = disk (bc s) (bblockno (get_buf i (bc s)))) ->
  exists c' s', zoom bc_of (brelse mypid i) c s = Ret tt c' s' /\ held c' = held c /\ lg s' = lg s /\
    bio_inv mypid (bc s') L D /\ bsame (bc s) (bc s') L.
Proof.
  intros Hinv Hi Hc Hd; destruct (brelse_spec mypid (bc s) L D i c Hinv Hi Hc Hd) as (c' & b' & Hr & H).
  exists c', (LogSt (lg s) b'); split_and!; try apply H; [by apply zbc_run|done].
Qed.

Lemma wrote_same s s1 s2 W L : wrote s s1 W -> lg s2 = lg s1 -> bsame (bc s1) (bc s2) L -> wrote s s2 W.
Proof. intros [H1 H2 H3] Hl [_ K2 W2 _]; split; congruence. Qed.

Lemma same_wrote s s1 s2 W L : lg s1 = lg s -> bsame (bc s) (bc s1) L -> wrote s1 s2 W -> wrote s s2 W.
Proof. intros Hl [_ K2 W2 _] [H1 H2 H3]; split; congruence. Qed.

Section step.
Variables (s : logst) (D : list Z) (c : kctx) (a b : Z).
Hypothesis Hinv : bio_inv mypid (bc s) [] D.
Hypothesis Hc : bctx c.
Hypothesis Hdev : dev (lg s) = ROOTDEV.
Hypothesis Ha : blkno a.
Hypothesis Hb : blkno b.
Hypothesis Hab : a <> b.
Hypothesis HaD : a ∉ D.

(** Blocks [a], of the log, and [b] locked together. *)
Lemma lock_two :
  (b ∈ D /\ (length D < 30)%nat) \/ (1 + length D < 30)%nat ->
  exists i j s1 s2, lbread mypid a c s = Ret i c s1 /\ lbread mypid b c s1 = Ret j c s2 /\ i <> j /\
    lg s2 = lg s /\ bio_inv mypid (bc s2) [j; i] D /\ bsame (bc s) (bc s2) [] /\
    bblockno (get_buf i (bc s2)) = a /\ bblockno (get_buf j (bc s2)) = b.
Proof using Hinv Hc Hdev Ha Hb Hab HaD.
  intros Hr; destruct (lbread_spec s [] D a c) as (i & s1 & R1 & _ & L1 & I1 & S1 & B1 & E1);
    [done..|by intros ? []%not_elem_of_nil|right; simpl; destruct Hr; lia|].
  destruct (lbread_spec s1 [i] D b c) as (j & s2 & R2 & N2 & L2 & I2 & S2 & B2 & E2); auto.
  { by rewrite L1. }
  { intros k ->%list_elem_of_singleton; congruence. }
  { simpl; destruct Hr as [[? _]|]; [by left|right; lia]. }
  assert (Hg : get_buf i (bc s2) = get_buf i (bc s1)) by (apply (bs_mine _ _ _ S2); left).
  exists i, j, s1, s2; split_and!; auto; [set_solver|congruence| |by rewrite Hg].
  destruct S1 as [V1 K1 W1 M1], S2 as [V2 K2 W2 M2]; split; [intros x; by rewrite V2|congruence..|].
  intros k Hk; by apply not_elem_of_nil in Hk.
Qed.

Lemma view_log : view (bc s) a = disk (bc s) a.
Proof using Hinv HaD. eapply view_clean; [exact Hinv|done|by intros ? []%not_elem_of_nil]. Qed.

(** A turn of [write_log]. *)
Lemma write_log_turn :
  b ∈ D -> (length D < 30)%nat ->
  exists c' s',
    (forall k : M logst unit,
      (let* to := lbread mypid a in
       let* from := lbread mypid b in
       let* d := buf_data from in
       set_buf_data to d ;;;
       zoom bc_of (bwrite mypid to) ;;;
       zoom bc_of (brelse mypid from) ;;;
       zoom bc_of (brelse mypid to) ;;; k) c s = k c' s') /\
    held c' = held c /\ bio_inv mypid (bc s') [] D /\ wrote s s' [(a, view (bc s) b)] /\
    (forall x, view (bc s') x = if decide (x = a) then view (bc s) b else view (bc s) x).
Proof using Hinv Hc Hdev Ha Hb Hab HaD.
  intros HbD Hlen; destruct lock_two as (i & j & s1 & s2 & R1 & R2 & Hij & L2 & I2 & S2 & Bi & Bj); [by left|].
  destruct (copy_write s2 [j; i] D i j c a b) as (s3 & R3 & I3 & W3 & V3 & Bi3 & Di3 & G3); auto; try set_solver.
  destruct (lbrelse_spec s3 [i] D j c) as (c4 & s4 & R4 & Hc4 & L4 & I4 & S4); auto; [set_solver| |].
  { left; rewrite G3 by congruence; by rewrite Bj. }
  assert (Gi : get_buf i (bc s4) = get_buf i (bc s3)) by (apply (bs_mine _ _ _ S4); left).
  destruct (lbrelse_spec s4 [] D i c4) as (c5 & s5 & R5 & Hc5 & L5 & I5 & S5);
    [done|apply not_elem_of_nil|by eapply bctx_held| |].
  { right; rewrite Gi, Bi3, Di3, (bsame_disk _ _ _ S4), (wrote_disk _ _ _ W3).
    cbn [disk_after]; by rewrite Z.eqb_refl, (bs_view _ _ _ S2). }
  exists c5, s5; split_and!; [|congruence|done| |].
  - intros k; unfold kbind at 1; rewrite R1; unfold kbind at 1; rewrite R2.
    unfold kbind in R3; unfold kbind; destruct (buf_data j c s2) as [d c' s'| | |]; try done.
    destruct (set_buf_data i d c' s') as [[] c'' s''| | |]; try done; rewrite R3, R4, R5; done.
  - rewrite <- (bs_view _ _ _ S2 b).
    eapply same_wrote; [exact L2|exact S2|]; eapply wrote_same; [|exact L5|exact S5].
    eapply wrote_same; [exact W3|exact L4|exact S4].
  - intros x; rewrite (bs_view _ _ _ S5), (bs_view _ _ _ S4), V3, !(bs_view _ _ _ S2); done.
Qed.

(** A turn of [install_trans]: a committed block goes home. *)
Lemma install_turn (recovering : bool) D' :
  (if recovering then D' = D /\ (b ∉ D) /\ (1 + length D < 30)%nat
   else D = b :: D' /\ (b ∉ D') /\ (length D < 30)%nat) ->
  exists c' s',
    (forall k : M logst unit,
      (let* lbuf := lbread mypid a in
       let* dbuf := lbread mypid b in
       let* d := buf_data lbuf in
       set_buf_data dbuf d ;;;
       zoom bc_of (bwrite mypid dbuf) ;;;
       (if recovering then kret tt else zoom bc_of (bunpin dbuf)) ;;;
       zoom bc_of (brelse mypid lbuf) ;;;
       zoom bc_of (brelse mypid dbuf) ;;; k) c s = k c' s') /\
    held c' = held c /\ bio_inv mypid (bc s') [] D' /\ wrote s s' [(b, view (bc s) a)] /\
    (forall x, view (bc s') x = if decide (x = b) then view (bc s) a else view (bc s) x).
Proof using Hinv Hc Hdev Ha Hb Hab HaD.
  intros Hrec; destruct lock_two as (i & j & s1 & s2 & R1 & R2 & Hij & L2 & I2 & S2 & Bi & Bj).
  { destruct recovering; [right|left]; naive_solver (set_solver || lia). }
  destruct (copy_write s2 [j; i] D j i c b a) as (s3 & R3 & I3 & W3 & V3 & Bj3 & Dj3 & G3); auto; try set_solver.
  assert (Hpin : exists s4, (if recovering then kret tt else zoom bc_of (bunpin j)) c s3 = Ret tt c s4 /\
    lg s4 = lg s3 /\ bio_inv mypid (bc s4) [j; i] D' /\ (forall x, view (bc s4) x = view (bc s3) x) /\
    disk0 (bc s4) = disk0 (bc s3) /\ writes (bc s4) = writes (bc s3) /\
    (forall k, bblockno (get_buf k (bc s4)) = bblockno (get_buf k (bc s3)) /\
               bdata (get_buf k (bc s4)) = bdata (get_buf k (bc s3)))).
  { destruct recovering; [destruct Hrec as (-> & _); by exists s3|destruct Hrec as (-> & Hn & _)].
    destruct (bunpin_spec mypid (bc s3) [j; i] D' j c ltac:(left) Hc b I3 Bj3 Hn) as (b4 & R4 & I4 & U4 & V4).
    exists (LogSt (lg s3) b4); split_and!; auto; [by apply zbc_run|apply (bu_disk0 _ _ _ _ U4)|apply (bu_writes _ _ _ _ U4)|].
    intros k; rewrite (bu_get _ _ _ _ U4); case_decide; by subst. }
  destruct Hpin as (s4 & R4 & L4 & I4 & V4 & K4 & W4 & G4).
  assert (HaD' : a ∉ D') by (destruct recovering; [naive_solver|destruct Hrec as (-> & _); set_solver]).
  assert (Hdisk4 : disk (bc s4) = disk (bc s3)) by (unfold disk; by rewrite K4, W4).
  destruct (lbrelse_spec s4 [j] D' i c) as (c5 & s5 & R5 & Hc5 & L5 & I5 & S5).
  { eapply bio_inv_ext; [|exact I4]; set_solver. }
  { set_solver. }
  { done. }
  { right; destruct (G4 i) as [-> ->]; rewrite G3, Bi, Hdisk4, (wrote_disk _ _ _ W3) by done.
    cbn [disk_after]; replace (a =? b) with false by lia.
    rewrite <- (view_mine mypid (bc s2) [j; i] D I2 i) by set_solver; rewrite Bi, (bs_view _ _ _ S2).
    rewrite (bsame_disk _ _ _ S2); apply view_log. }
  assert (Gj : get_buf j (bc s5) = get_buf j (bc s4)) by (apply (bs_mine _ _ _ S5); left).
  destruct (lbrelse_spec s5 [] D' j c5) as (c6 & s6 & R6 & Hc6 & L6 & I6 & S6);
    [done|apply not_elem_of_nil|by eapply bctx_held| |].
  { right; rewrite Gj; destruct (G4 j) as [-> ->]; rewrite Bj3, Dj3, (bsame_disk _ _ _ S5), Hdisk4.
    rewrite (wrote_disk _ _ _ W3); cbn [disk_after]; by rewrite Z.eqb_refl. }
  exists c6, s6; split_and!; [|congruence|done| |].
  - intros k; unfold kbind at 1; rewrite R1; unfold kbind at 1; rewrite R2.
    unfold kbind in R3; unfold kbind; destruct (buf_data i c s2) as [d c' s'| | |]; try done.
    destruct (set_buf_data j d c' s') as [[] c'' s''| | |]; try done; rewrite R3, R4, R5, R6; done.
  - rewrite <- (bs_view _ _ _ S2 a); eapply same_wrote; [exact L2|exact S2|].
    eapply wrote_same; [|exact L6|exact S6]; eapply wrote_same; [|exact L5|exact S5].
    destruct W3 as [X1 X2 X3]; split; congruence.
  - intros x; rewrite (bs_view _ _ _ S6), (bs_view _ _ _ S5), V4, V3, !(bs_view _ _ _ S2); done.
Qed.
End step.

(** ** The loops *)

Record log_ok (l : log) : Prop := LogOk {
  lo_dev : dev l = ROOTDEV;
  lo_len : length (lh_block l) = 30%nat;
  lo_n : 0 <= lh_n l < 30;
  lo_size : lh_n l < size l;
  lo_start : 0 <= start l /\ start l + size l < 2 ^ 31;
  lo_nodup : NoDup (logged l);
  lo_blk : forall b, b ∈ logged l -> blkno b /\ ~ (start l <= b < start l + size l)
}.

(** Log blocks [t] on, and home blocks [t] on, given the content [V] of what
    is copied. *)
Definition log_writes (l : log) (V : Z -> list Z) (t : Z) : list (Z * list Z) :=
  (fun i => (start l + i + 1, V (lblock i l))) <$> seqZ t (lh_n l - t).
Definition home_writes (l : log) (V : Z -> list Z) (t : Z) : list (Z * list Z) :=
  (fun i => (lblock i l, V (start l + i + 1))) <$> seqZ t (lh_n l - t).

Lemma logged_length l : log_ok l -> length (logged l) = Z.to_nat (lh_n l).
Proof. intros [_ H1 H2 _ _ _ _]; unfold logged; rewrite length_take; lia. Qed.

Lemma logged_lookup l i : 0 <= i < lh_n l -> log_ok l -> logged l !! Z.to_nat i = Some (lblock i l).
Proof.
  intros Hi [_ H1 H2 _ _ _ _]; unfold logged, lblock; rewrite lookup_take_lt by lia.
  destruct (lookup_lt_is_Some_2 (lh_block l) (Z.to_nat i)) as [x ->]; [lia|done].
Qed.

Lemma logged_drop l t :
  0 <= t < lh_n l -> log_ok l ->
  drop (Z.to_nat t) (logged l) = lblock t l :: drop (Z.to_nat (t + 1)) (logged l).
Proof.
  intros Ht Hl; rewrite (drop_S _ (lblock t l)) by (by apply logged_lookup).
  by replace (S (Z.to_nat t)) with (Z.to_nat (t + 1)) by lia.
Qed.

Lemma lblock_logged l i : 0 <= i < lh_n l -> log_ok l -> lblock i l ∈ logged l.
Proof. intros Hi Hl; by eapply list_elem_of_lookup_2, logged_lookup. Qed.

Lemma lblock_inj l i j :
  log_ok l -> 0 <= i < lh_n l -> 0 <= j < lh_n l -> lblock i l = lblock j l -> i = j.
Proof.
  intros Hl Hi Hj E; pose proof (logged_lookup l i Hi Hl) as H1; pose proof (logged_lookup l j Hj Hl) as H2.
  rewrite E in H1; pose proof (NoDup_lookup _ _ _ _ (lo_nodup _ Hl) H1 H2); lia.
Qed.

Lemma log_writes_S l V t : t < lh_n l ->
  log_writes l V t = (start l + t + 1, V (lblock t l)) :: log_writes l V (t + 1).
Proof.
  intros Ht; unfold log_writes; rewrite seqZ_cons by lia; rewrite fmap_cons.
  by replace (Z.pred (lh_n l - t)) with (lh_n l - (t + 1)) by lia.
Qed.

Lemma home_writes_S l V t : t < lh_n l ->
  home_writes l V t = (lblock t l, V (start l + t + 1)) :: home_writes l V (t + 1).
Proof.
  intros Ht; unfold home_writes; rewrite seqZ_cons by lia; rewrite fmap_cons.
  by replace (Z.pred (lh_n l - t)) with (lh_n l - (t + 1)) by lia.
Qed.

Section loops.
Variable l : log.
Hypothesis Hl : log_ok l.

Lemma log_block i : 0 <= i < lh_n l -> blkno (start l + i + 1) /\ start l + i + 1 ∉ logged l.
Proof using Hl.
  intros Hi; destruct Hl as [_ _ _ H4 H5 _ H7]; split; [unfold blkno; lia|].
  intros Hin; destruct (H7 _ Hin) as [_ Hn]; lia.
Qed.

Lemma log_block_ne i j : 0 <= i < lh_n l -> 0 <= j < lh_n l -> start l + i + 1 <> lblock j l.
Proof using Hl.
  intros Hi Hj E; destruct (log_block i Hi) as [_ Hn]; rewrite E in Hn; by apply Hn, lblock_logged.
Qed.

Lemma write_log_loop_spec fuel V t s c :
  lg s = l -> bio_inv mypid (bc s) [] (logged l) -> bctx c -> 0 <= t <= lh_n l ->
  fuel = Z.to_nat (lh_n l - t) -> (forall b, b ∈ logged l -> view (bc s) b = V b) ->
  exists c' s', write_log_loop mypid fuel t c s = Ret tt c' s' /\ held c' = held c /\
    bio_inv mypid (bc s') [] (logged l) /\ wrote s s' (log_writes l V t) /\
    (forall x, view (bc s') x =
       if decide (start l + t < x <= start l + lh_n l) then V (lblock (x - start l - 1) l)
       else view (bc s) x).
Proof using Hl.
  revert t s c; induction fuel as [|fuel IH]; intros t s c Hs Hinv Hc Ht Hf HV.
  { exists c, s; cbn [write_log_loop]; unfold kbind, kget; rewrite Hs.
    replace (t <? lh_n l) with false by lia; split_and!; auto.
    - assert (t = lh_n l) as -> by lia; unfold log_writes; rewrite Z.sub_diag; apply wrote_refl.
    - intros x; by rewrite decide_False by lia. }
  destruct (log_block t ltac:(lia)) as [Hb1 Hb2].
  pose proof (lblock_logged l t ltac:(lia) Hl) as Hin; destruct (lo_blk _ Hl _ Hin) as [Hb3 _].
  destruct (write_log_turn s (logged l) c (start l + t + 1) (lblock t l))
    as (c1 & s1 & R1 & Hc1 & I1 & W1 & V1); auto.
  { rewrite Hs; apply (lo_dev _ Hl). }
  { by apply log_block_ne; lia. }
  { rewrite logged_length by done; destruct (lo_n _ Hl); lia. }
  destruct (IH (t + 1) s1 c1) as (c2 & s2 & R2 & Hc2 & I2 & W2 & V2); auto; try lia.
  { by rewrite (wr_lg _ _ _ W1). }
  { by eapply bctx_held. }
  { intros b Hb; rewrite V1, decide_False; [auto|]; intros ->; done. }
  exists c2, s2; split_and!; auto; [|congruence| |].
  - cbn [write_log_loop]; unfold kbind at 1, kget; rewrite Hs.
    replace (t <? lh_n l) with true by lia; by rewrite R1, R2.
  - rewrite log_writes_S by lia; rewrite <- (HV _ Hin); by eapply (wrote_trans _ _ _ [_]).
  - intros x; rewrite V2, V1; repeat case_decide; try lia; auto.
    subst x; rewrite (HV _ Hin); f_equal; f_equal; lia.
Qed.

(** The blocks still pinned when [t] are installed. *)
Definition pins (recovering : bool) (t : Z) : list Z :=
  if recovering then [] else drop (Z.to_nat t) (logged l).

Lemma install_loop_spec fuel (recovering : bool) V t s c :
  lg s = l -> bio_inv mypid (bc s) [] (pins recovering t) -> bctx c -> 0 <= t <= lh_n l ->
  fuel = Z.to_nat (lh_n l - t) ->
  (forall i, 0 <= i < lh_n l -> view (bc s) (start l + i + 1) = V (start l + i + 1)) ->
  exists c' s', install_loop mypid fuel recovering t c s = Ret tt c' s' /\ held c' = held c /\
    bio_inv mypid (bc s') [] [] /\ wrote s s' (home_writes l V t) /\
    (forall i, t <= i < lh_n l -> view (bc s') (lblock i l) = V (start l + i + 1)) /\
    (forall x, (forall i, t <= i < lh_n l -> x <> lblock i l) -> view (bc s') x = view (bc s) x).
Proof using Hl.
  revert t s c; induction fuel as [|fuel IH]; intros t s c Hs Hinv Hc Ht Hf HV.
  { exists c, s; cbn [install_loop]; unfold kbind, kget; rewrite Hs.
    replace (t <? lh_n l) with false by lia; split_and!; auto.
    - replace (pins recovering t) with ([] : list Z) in Hinv; [done|]; unfold pins; destruct recovering; [done|].
      rewrite drop_ge; [done|]; rewrite logged_length by done; lia.
    - assert (t = lh_n l) as -> by lia; unfold home_writes; rewrite Z.sub_diag; apply wrote_refl.
    - intros i Hi; lia. }
  destruct (log_block t ltac:(lia)) as [Hb1 Hb2].
  pose proof (lblock_logged l t ltac:(lia) Hl) as Hin; destruct (lo_blk _ Hl _ Hin) as [Hb3 _].
  assert (Hsub : forall t' b, b ∈ pins recovering t' -> b ∈ logged l).
  { intros t' b; unfold pins; destruct recovering; [by intros ?%not_elem_of_nil|]; intros H.
    rewrite <- (take_drop (Z.to_nat t') (logged l)); set_solver. }
  destruct (install_turn s (pins recovering t) c (start l + t + 1) (lblock t l)) with recovering (pins recovering (t + 1))
    as (c1 & s1 & R1 & Hc1 & I1 & W1 & V1); auto.
  { rewrite Hs; apply (lo_dev _ Hl). }
  { by apply log_block_ne; lia. }
  { intros H; by apply Hb2, (Hsub t). }
  { unfold pins; destruct recovering; [split_and!; [done|apply not_elem_of_nil|simpl; lia]|].
    pose proof (lo_nodup _ Hl) as Hnd; rewrite <- (take_drop (Z.to_nat t) (logged l)) in Hnd.
    apply NoDup_app in Hnd as (_ & _ & Hnd); rewrite logged_drop in Hnd by (done || lia).
    rewrite logged_drop by (done || lia); apply NoDup_cons in Hnd as [Hnd _]; split_and!; auto.
    rewrite <- logged_drop by (done || lia); rewrite length_drop, logged_length by done; destruct (lo_n _ Hl); lia. }
  destruct (IH (t + 1) s1 c1) as (c2 & s2 & R2 & Hc2 & I2 & W2 & V2 & V2'); auto; try lia.
  { by rewrite (wr_lg _ _ _ W1). }
  { by eapply bctx_held. }
  { intros i Hi; rewrite V1, decide_False; [auto|]; by apply log_block_ne; lia. }
  exists c2, s2; split_and!; auto; [|congruence| | |].
  - cbn [install_loop]; unfold kbind at 1, kget; rewrite Hs.
    replace (t <? lh_n l) with true by lia; by rewrite R1, R2.
  - rewrite home_writes_S by lia; rewrite <- (HV t) by lia; by eapply (wrote_trans _ _ _ [_]).
  - intros i Hi; destruct (decide (i = t)) as [->|]; [|apply V2; lia].
    rewrite V2', V1, decide_True; [apply HV; lia|done|].
    intros j Hj E; apply lblock_inj in E; auto; lia.
  - intros x Hx; rewrite V2', V1, decide_False; [done|apply Hx; lia|intros; apply Hx; lia].
Qed.
End loops.
End spec.

(** ** The log header, commit and recovery *)

(** ** Encoding of the header block *)

Definition hdr_n (d : list Z) : Z := i32 (get32 d 0).
Definition hdr_blk (d : list Z) (i : Z) : Z := i32 (get32 d (Z.to_nat (4 + 4 * i))).
Definition hdr_block (l : log) (d : list Z) : list Z :=
  put_entries (Z.to_nat (lh_n l)) 0 l (put32 d 0 (lh_n l)).

Lemma put_entries_spec n i l d :
  length d = 1024%nat -> (i + n <= 30)%nat ->
  length (put_entries n i l d) = 1024%nat /\
  (forall off, (off + 4 <= 4 + 4 * i)%nat -> get32 (put_entries n i l d) off = get32 d off) /\
  (forall j, (i <= j < i + n)%nat -> get32 (put_entries n i l d) (4 + 4 * j) = u32 (lblock (Z.of_nat j) l)).
Proof.
  revert i d; induction n as [|n IH]; intros i d Hd Hi; cbn [put_entries].
  { split_and!; auto; intros j Hj; lia. }
  destruct (IH (S i) (put32 d (4 + 4 * i) (lblock (Z.of_nat i) l))) as (H1 & H2 & H3).
  { rewrite length_put32; lia. }
  { lia. }
  split_and!; auto.
  - intros off Ho; rewrite H2 by lia; apply get32_put32_disj; lia.
  - intros j Hj; destruct (decide (j = i)) as [->|]; [|apply H3; lia].
    rewrite H2 by lia; apply get32_put32_same; lia.
Qed.

Lemma i32_u32 x : - 2 ^ 31 <= x < 2 ^ 31 -> i32 (u32 x) = x.
Proof.
  intros Hx; unfold i32, u32; rewrite Z.add_mod_idemp_l by lia; rewrite Z.mod_small; lia.
Qed.

Lemma length_hdr l d : length d = 1024%nat -> 0 <= lh_n l <= 30 -> length (hdr_block l d) = 1024%nat.
Proof. intros; apply put_entries_spec; [rewrite length_put32; lia|lia]. Qed.

Lemma hdr_n_block l d : length d = 1024%nat -> 0 <= lh_n l <= 30 -> hdr_n (hdr_block l d) = lh_n l.
Proof.
  intros Hd Hn; unfold hdr_n, hdr_block.
  destruct (put_entries_spec (Z.to_nat (lh_n l)) 0 l (put32 d 0 (lh_n l))) as (_ & H & _);
    [rewrite length_put32; lia|lia|].
  rewrite H by lia; rewrite get32_put32_same by lia; apply i32_u32; lia.
Qed.

Lemma hdr_blk_block l d i :
  length d = 1024%nat -> 0 <= lh_n l <= 30 -> 0 <= i < lh_n l -> blkno (lblock i l) ->
  hdr_blk (hdr_block l d) i = lblock i l.
Proof.
  intros Hd Hn Hi Hb; unfold hdr_blk, hdr_block.
  destruct (put_entries_spec (Z.to_nat (lh_n l)) 0 l (put32 d 0 (lh_n l))) as (_ & _ & H);
    [rewrite length_put32; lia|lia|].
  replace (Z.to_nat (4 + 4 * i)) with (4 + 4 * Z.to_nat i)%nat by lia.
  rewrite H, Z2Nat.id by lia; apply i32_u32; unfold blkno in Hb; lia.
Qed.

(** ** write_head and read_head *)

Section head.
Variable mypid : Z.

Lemma write_head_spec s D c :
  bio_inv mypid (bc s) [] D -> bctx c -> dev (lg s) = ROOTDEV -> blkno (start (lg s)) ->
  start (lg s) ∉ D -> (length D < 30)%nat -> 0 <= lh_n (lg s) <= 30 ->
  let h := hdr_block (lg s) (view (bc s) (start (lg s))) in
  exists c' s', write_head mypid c s = Ret tt c' s' /\ held c' = held c /\
    bio_inv mypid (bc s') [] D /\ wrote s s' [(start (lg s), h)] /\
    (forall x, view (bc s') x = if decide (x = start (lg s)) then h else view (bc s) x).
Proof.
  intros Hinv Hc Hd Hb Hn Hlen Hln h; set (a := start (lg s)) in *.
  destruct (lbread_spec mypid s [] D a c) as (i & s1 & R1 & _ & L1 & I1 & S1 & B1 & E1);
    [done..|by intros ? []%not_elem_of_nil|right; simpl; lia|].
  pose proof (length_view mypid (bc s) [] D a Hinv) as Hlv.
  destruct (set_data_spec mypid (bc s1) [i] D i h I1 ltac:(left)) as (I2 & U2 & V2);
    [by apply length_hdr|].
  set (b2 := upd_buf i (set_data h) (bc s1)) in *.
  destruct (bwrite_spec mypid b2 [i] D i c I2 ltac:(left) Hc) as (b3 & R3 & I3 & V3 & G3 & K3 & W3).
  assert (Hg : get_buf i b3 = set_data h (get_buf i (bc s1))) by (rewrite G3; by apply (bupd_same _ _ _ _ U2)).
  assert (Hg2 : get_buf i b2 = set_data h (get_buf i (bc s1))) by (by apply (bupd_same _ _ _ _ U2)).
  assert (Hw : wrote s (LogSt (lg s) b3) [(a, h)]).
  { split; cbn [lg bc]; [done| |]; rewrite ?K3, ?W3.
    - unfold b2; cbn [upd_buf disk0]; apply (bs_disk0 _ _ _ S1).
    - rewrite Hg2; cbn [set_data bblockno bdata]; rewrite B1.
      unfold b2; cbn [upd_buf writes]; by rewrite (bs_writes _ _ _ S1). }
  destruct (lbrelse_spec mypid (LogSt (lg s) b3) [] D i c) as (c4 & s4 & R4 & Hc4 & L4 & I4 & S4);
    [done|apply not_elem_of_nil|done| |].
  { right; cbn [bc]; rewrite Hg; cbn [set_data bblockno bdata]; rewrite B1, (wrote_disk _ _ _ Hw).
    cbn [disk_after]; by rewrite Z.eqb_refl. }
  exists c4, s4; split_and!; auto.
  - unfold write_head; unfold kbind at 1, kget at 1; fold a; unfold kbind at 1; rewrite R1.
    unfold buf_data, set_buf_data, kbind, kget, kret; rewrite L1, E1.
    rewrite (zbc_run _ _ s1 tt c b2) by reflexivity.
    rewrite (zbc_run (bwrite mypid i) c (LogSt (lg s1) b2) tt c b3) by exact R3.
    cbn [lg]; rewrite L1; by rewrite R4.
  - eapply wrote_same; [exact Hw|exact L4|exact S4].
  - intros x; rewrite (bs_view _ _ _ S4); cbn [bc]; rewrite V3, V2, B1; case_decide; [done|].
    apply (bs_view _ _ _ S1).
Qed.

(** The entries [read_head] copies into the array. *)
Fixpoint read_list (n : nat) (i : Z) (d : list Z) (bl : list Z) : list Z :=
  match n with
  | O => bl
  | S n' => read_list n' (i + 1) d (<[Z.to_nat i := hdr_blk d i]> bl)
  end.

Lemma read_list_spec n i d bl :
  0 <= i -> length bl = 30%nat -> i + Z.of_nat n <= 30 ->
  length (read_list n i d bl) = 30%nat /\
  (forall j, 0 <= j < i -> read_list n i d bl !! Z.to_nat j = bl !! Z.to_nat j) /\
  (forall j, i <= j < i + Z.of_nat n -> read_list n i d bl !! Z.to_nat j = Some (hdr_blk d j)).
Proof.
  revert i bl; induction n as [|n IH]; intros i bl Hi Hl Hn; cbn [read_list].
  { split_and!; auto; intros j Hj; lia. }
  destruct (IH (i + 1) (<[Z.to_nat i := hdr_blk d i]> bl)) as (H1 & H2 & H3);
    [lia|by rewrite length_insert|lia|].
  split_and!; auto.
  - intros j Hj; rewrite H2, list_lookup_insert_ne by lia; done.
  - intros j Hj; destruct (decide (j = i)) as [->|]; [|apply H3; lia].
    rewrite H2 by lia; apply list_lookup_insert_eq; lia.
Qed.

Definition with_head (d : list Z) (l : log) : log :=
  Log (start l) (size l) (outstanding l) (committing l) (dev l) (hdr_n d)
    (read_list (Z.to_nat (hdr_n d)) 0 d (lh_block l)).

Lemma read_entries_run fuel d i c s :
  0 <= i <= lh_n (lg s) -> lh_n (lg s) <= 30 -> fuel = Z.to_nat (lh_n (lg s) - i) ->
  read_entries fuel d i c s =
  Ret tt c (LogSt (Log (start (lg s)) (size (lg s)) (outstanding (lg s)) (committing (lg s)) (dev (lg s))
    (lh_n (lg s)) (read_list fuel i d (lh_block (lg s)))) (bc s)).
Proof.
  revert i s; induction fuel as [|fuel IH]; intros i s Hi Hn Hf; cbn [read_entries read_list];
    unfold kbind, kget.
  - replace (i <? lh_n (lg s)) with false by lia; by destruct s as [[] ?].
  - replace (i <? lh_n (lg s)) with true by lia; replace (LOGSIZE <=? i) with false by (unfold LOGSIZE, MAXOPBLOCKS in *; lia).
    unfold kmod; rewrite IH by (cbn [set_lg set_block lg lh_n] in *; lia); done.
Qed.

Lemma read_head_spec s c :
  bio_inv mypid (bc s) [] [] -> bctx c -> dev (lg s) = ROOTDEV -> blkno (start (lg s)) ->
  let h := view (bc s) (start (lg s)) in
  0 <= hdr_n h <= 30 ->
  exists c' s', read_head mypid c s = Ret tt c' s' /\ held c' = held c /\
    lg s' = with_head h (lg s) /\ bio_inv mypid (bc s') [] [] /\ bsame (bc s) (bc s') [].
Proof.
  intros Hinv Hc Hd Hb h Hn; set (a := start (lg s)) in *.
  destruct (lbread_spec mypid s [] [] a c) as (i & s1 & R1 & _ & L1 & I1 & S1 & B1 & E1);
    [done..|by intros ? []%not_elem_of_nil|right; simpl; lia|].
  set (s2 := LogSt (with_head h (lg s)) (bc s1)).
  destruct (lbrelse_spec mypid s2 [] [] i c) as (c3 & s3 & R3 & Hc3 & L3 & I3 & S3);
    [done|apply not_elem_of_nil|done| |].
  { right; cbn [s2 bc]; rewrite B1, E1, (bsame_disk _ _ _ S1).
    eapply view_clean; [exact Hinv|apply not_elem_of_nil|by intros ? []%not_elem_of_nil]. }
  exists c3, s3; split_and!; auto.
  - unfold read_head; unfold kbind at 1, kget at 1; fold a; unfold kbind at 1; rewrite R1.
    unfold buf_data, kbind, kget, kret, kmod; rewrite E1; fold h (hdr_n h).
    rewrite read_entries_run by (cbn [set_lg set_n lg lh_n]; lia).
    cbn [set_lg set_n lg lh_n start size outstanding committing dev lh_block bc]; rewrite L1; exact R3.
  - eapply bsame_trans; [exact S1|exact S3].
Qed.
End head.
