(* ===== verification/LogCrash.v ===== *)
(** * Crash atomicity of the log

    [commit] makes a sequence of block writes.  A crash leaves the disk after
    some prefix of it; the next boot runs [initlog] with an empty cache.  The
    blocks outside the log are then all old or all new. *)

From S2P Require Import Prelude CMem Riscv Locks Block Bio BioInv BioSpec Log LogSpec.

(** ** Sequences of block writes *)

Lemma disk_after_out d W b : b ∉ W.*1 -> disk_after d W b = d b.
Proof.
  revert d; induction W as [|[x v] W IH]; intros d Hb; cbn [disk_after fmap list_fmap fst] in *; [done|].
  rewrite IH by set_solver; destruct (Z.eqb_spec b x); [set_solver|done].
Qed.

Lemma disk_after_in d W b v : NoDup W.*1 -> (b, v) ∈ W -> disk_after d W b = v.
Proof.
  revert d; induction W as [|[x w] W IH]; intros d Hn Hin; [by apply not_elem_of_nil in Hin|].
  rewrite fmap_cons in Hn; apply NoDup_cons in Hn as [Hx Hn]; cbn [disk_after].
  apply elem_of_cons in Hin as [[= -> ->]|Hin]; [|by apply IH].
  rewrite disk_after_out by done; by rewrite Z.eqb_refl.
Qed.

Lemma disk_after_len d W :
  (forall b, length (d b) = 1024%nat) -> Forall (fun w => length w.2 = 1024%nat) W ->
  forall b, length (disk_after d W b) = 1024%nat.
Proof.
  revert d; induction W as [|[x v] W IH]; intros d Hd HW b; cbn [disk_after]; [done|].
  apply Forall_cons in HW as [Hv HW]; apply IH; auto; intros y; by destruct (y =? x).
Qed.

(** Home blocks with their new content. *)
Definition new_writes (l : log) (V : Z -> list Z) : list (Z * list Z) :=
  (fun i => (lblock i l, V (lblock i l))) <$> seqZ 0 (lh_n l).

Lemma new_writes_keys l V b : log_ok l -> b ∈ (new_writes l V).*1 <-> b ∈ logged l.
Proof.
  intros Hl; unfold new_writes; rewrite <- list_fmap_compose, list_elem_of_fmap; split.
  - intros (i & -> & Hi); apply elem_of_seqZ in Hi; apply lblock_logged; [lia|done].
  - intros [k Hk]%list_elem_of_lookup_1; exists (Z.of_nat k).
    pose proof (lookup_lt_Some _ _ _ Hk) as Hlt; rewrite logged_length in Hlt by done.
    pose proof (logged_lookup l (Z.of_nat k) ltac:(destruct (lo_n _ Hl); lia) Hl) as H2; rewrite Nat2Z.id in H2.
    split; [simpl; congruence|apply elem_of_seqZ; destruct (lo_n _ Hl); lia].
Qed.

Lemma lblock_keys_nodup l (f : Z -> list Z) :
  log_ok l -> NoDup ((fun i => (lblock i l, f i)) <$> seqZ 0 (lh_n l)).*1.
Proof.
  intros Hl; rewrite <- list_fmap_compose; apply NoDup_fmap_2_strong; [|apply NoDup_seqZ].
  intros i j Hi%elem_of_seqZ Hj%elem_of_seqZ E; simpl in E; eapply lblock_inj in E; [done|done|lia..].
Qed.

Lemma new_writes_after l V d b :
  log_ok l -> disk_after d (new_writes l V) b = if decide (b ∈ logged l) then V b else d b.
Proof.
  intros Hl; case_decide as E; [|apply disk_after_out; by rewrite new_writes_keys].
  apply disk_after_in; [by apply (lblock_keys_nodup l (fun i => V (lblock i l)))|].
  apply (new_writes_keys l V b Hl), list_elem_of_fmap in E as ([b' v] & -> & Hin); cbn [fst].
  unfold new_writes in *; apply list_elem_of_fmap in Hin as (i & [= -> ->] & Hi).
  apply list_elem_of_fmap; by exists i.
Qed.

(** ** commit *)

Section commit.
Variable mypid : Z.

Definition commit_writes (l : log) (V : Z -> list Z) : list (Z * list Z) :=
  log_writes l V 0 ++ [(start l, hdr_block l (V (start l)))] ++ new_writes l V ++
  [(start l, hdr_block (set_n 0 l) (hdr_block l (V (start l))))].

Lemma start_blk l : log_ok l -> blkno (start l) /\ start l ∉ logged l.
Proof.
  intros Hl; destruct (lo_start _ Hl), (lo_n _ Hl); pose proof (lo_size _ Hl); split; [unfold blkno; lia|].
  intros Hin; destruct (lo_blk _ Hl _ Hin) as [_ H']; lia.
Qed.

Lemma commit_spec s c :
  let l := lg s in let V := view (bc s) in
  log_ok l -> 0 < lh_n l -> bio_inv mypid (bc s) [] (logged l) -> bctx c ->
  exists c' s', commit mypid c s = Ret tt c' s' /\ held c' = held c /\
    lg s' = set_n 0 l /\ bio_inv mypid (bc s') [] [] /\
    disk0 (bc s') = disk0 (bc s) /\ writes (bc s') = writes (bc s) ++ commit_writes l V.
Proof.
  intros l V Hl Hn Hinv Hc; destruct (start_blk l Hl) as [Hsb Hsn].
  pose proof (lo_dev _ Hl) as Hdev; pose proof (lo_n _ Hl) as Hln.
  destruct (write_log_loop_spec mypid l Hl (Z.to_nat (lh_n l)) V 0 s c) as (c1 & s1 & R1 & C1 & I1 & W1 & V1);
    auto; try lia.
  pose proof (wr_lg _ _ _ W1) as L1; change (lg s) with l in L1.
  destruct (write_head_spec mypid s1 (logged l) c1) as (c2 & s2 & R2 & C2 & I2 & W2 & V2);
    rewrite ?L1; auto; [by eapply bctx_held|rewrite logged_length by done; lia|lia|].
  rewrite L1 in *; pose proof (wr_lg _ _ _ W2) as L2; rewrite L1 in L2.
  assert (Hst : view (bc s1) (start l) = V (start l)) by (rewrite V1, decide_False by lia; done).
  rewrite Hst in *.
  destruct (install_loop_spec mypid l Hl (Z.to_nat (lh_n l)) false (view (bc s2)) 0 s2 c2)
    as (c3 & s3 & R3 & C3 & I3 & W3 & _ & V3); auto; try lia.
  { by eapply bctx_held; [|eapply bctx_held]; eauto. }
  pose proof (wr_lg _ _ _ W3) as L3; rewrite L2 in L3.
  destruct (write_head_spec mypid (set_lg (set_n 0) s3) [] c3) as (c4 & s4 & R4 & C4 & I4 & W4 & V4);
    cbn [set_lg lg bc set_n dev start lh_n]; rewrite ?L3; auto; try (simpl; lia).
  { by eapply bctx_held; [|eapply bctx_held; [|eapply bctx_held]]; eauto. }
  { apply not_elem_of_nil. }
  exists c4, s4; split_and!; [|congruence|rewrite (wr_lg _ _ _ W4); cbn; by rewrite L3|done| |].
  - unfold commit; unfold kbind at 1, kget; change (lg s) with l; replace (0 <? lh_n l) with true by lia.
    unfold write_log, install_trans, kbind, kget; change (lg s) with l; rewrite R1, R2, L2, R3.
    unfold kmod; exact R4.
  - rewrite (wr_disk0 _ _ _ W4); cbn; rewrite (wr_disk0 _ _ _ W3), (wr_disk0 _ _ _ W2); apply (wr_disk0 _ _ _ W1).
  - rewrite (wr_writes _ _ _ W4); cbn [set_lg bc lg set_n start].
    rewrite (wr_writes _ _ _ W3), (wr_writes _ _ _ W2), (wr_writes _ _ _ W1), L3.
    unfold commit_writes; rewrite <- !app_assoc; do 3 f_equal; cbn [app].
    assert (Hh : view (bc s3) (start l) = hdr_block l (V (start l))).
    { rewrite V3, V2, decide_True; [done|done|].
      intros i Hi E; apply Hsn; rewrite E; apply lblock_logged; [lia|done]. }
    rewrite Hh; do 2 f_equal; unfold home_writes, new_writes; rewrite Z.sub_0_r.
    apply list_fmap_ext; intros k i Hi; apply list_elem_of_lookup_2, elem_of_seqZ in Hi.
    rewrite V2, decide_False, V1, decide_True by lia; do 3 f_equal; lia.
Qed.

(** ** Recovery *)

Lemma get_binit d i : get_buf i (binit d) = buf0.
Proof.
  unfold get_buf, binit; cbn [bufs]; destruct (replicate _ _ !! i) as [x|] eqn:E; [|done].
  by apply lookup_replicate in E as [-> _].
Qed.

Lemma binit_inv d : (forall b, length (d b) = 1024%nat) -> bio_inv mypid (binit d) [] [].
Proof.
  intros Hd; split.
  - reflexivity.
  - symmetry; apply Permutation_rev.
  - intros i; rewrite get_binit; reflexivity.
  - exact Hd.
  - intros b i j _ _; by rewrite get_binit.
  - intros i Hi; by apply not_elem_of_nil in Hi.
  - intros i _ _; by rewrite get_binit.
  - intros i _; rewrite get_binit; reflexivity.
  - intros b Hb; by apply not_elem_of_nil in Hb.
  - intros i _ _; by rewrite get_binit.
Qed.

Lemma view_binit d b : view (binit d) b = d b.
Proof.
  unfold view; destruct (cached (binit d) b) as [i|] eqn:E; [|done].
  apply cached_Some in E as [_ E]; rewrite get_binit in E; unfold caches, ROOTDEV in E; simpl in E; done.
Qed.

(** The log after the header of disk [d] has been read. *)
Definition boot_log (l0 : log) (st sz : Z) (h : list Z) : log :=
  with_head h (Log st sz (outstanding l0) (committing l0) ROOTDEV (lh_n l0) (lh_block l0)).

Lemma recover_spec d l0 st sz c :
  let l := boot_log l0 st sz (d st) in
  (forall b, length (d b) = 1024%nat) -> log_ok l -> bctx c ->
  exists c' s', initlog mypid ROOTDEV st sz c (LogSt l0 (binit d)) = Ret tt c' s' /\ held c' = held c /\
    lg s' = set_n 0 l /\ bio_inv mypid (bc s') [] [] /\ disk0 (bc s') = d /\
    writes (bc s') = home_writes l d 0 ++ [(st, hdr_block (set_n 0 l) (d st))].
Proof.
  intros l Hd Hl Hc; destruct (start_blk l Hl) as [Hsb Hsn].
  pose proof (lo_n _ Hl) as Hln; set (l1 := Log st sz (outstanding l0) (committing l0) ROOTDEV (lh_n l0) (lh_block l0)).
  set (s1 := LogSt l1 (binit d)).
  assert (Hh : view (bc s1) (start (lg s1)) = d st) by apply view_binit.
  destruct (read_head_spec mypid s1 c) as (c2 & s2 & R2 & C2 & L2 & I2 & S2); auto.
  { by apply binit_inv. }
  { rewrite Hh; change (hdr_n (d st)) with (lh_n l); lia. }
  rewrite Hh in L2; change (with_head (d st) (lg s1)) with l in L2.
  destruct (install_loop_spec mypid l Hl (Z.to_nat (lh_n l)) true d 0 s2 c2)
    as (c3 & s3 & R3 & C3 & I3 & W3 & _ & V3); auto; try lia.
  { by eapply bctx_held. }
  { intros i Hi; rewrite (bs_view _ _ _ S2); apply view_binit. }
  pose proof (wr_lg _ _ _ W3) as L3; rewrite L2 in L3.
  destruct (write_head_spec mypid (set_lg (set_n 0) s3) [] c3) as (c4 & s4 & R4 & C4 & I4 & W4 & V4);
    cbn [set_lg lg bc set_n dev start lh_n]; rewrite ?L3; auto; try (simpl; lia).
  { by eapply bctx_held; [|eapply bctx_held]; eauto. }
  { apply not_elem_of_nil. }
  exists c4, s4; split_and!; [|congruence|rewrite (wr_lg _ _ _ W4); cbn; by rewrite L3|done| |].
  - unfold initlog; change (BSIZE <=? 4 + 4 * LOGSIZE) with false; cbn iota.
    unfold kbind at 1, kmod; unfold recover_from_log, install_trans, kbind, kget.
    change (set_lg _ (LogSt l0 (binit d))) with s1; rewrite R2, L2, R3; exact R4.
  - rewrite (wr_disk0 _ _ _ W4); cbn; rewrite (wr_disk0 _ _ _ W3); apply (bs_disk0 _ _ _ S2).
  - assert (Hst : view (bc s3) st = d st).
    { rewrite V3, (bs_view _ _ _ S2); [apply view_binit|].
      intros i Hi E; apply Hsn; change (start l) with st; rewrite E; apply lblock_logged; [lia|done]. }
    rewrite (wr_writes _ _ _ W4); cbn [set_lg bc lg set_n start]; rewrite L3, (wr_writes _ _ _ W3).
    change (start l) with st; rewrite Hst, (bs_writes _ _ _ S2); done.
Qed.

(** The header of [l] read back gives [l]'s blocks. *)
Lemma boot_log_same l l0 st sz h :
  log_ok l -> start l = st -> size l = sz -> length (lh_block l0) = 30%nat ->
  hdr_n h = lh_n l -> (forall i, 0 <= i < lh_n l -> hdr_blk h i = lblock i l) ->
  let l' := boot_log l0 st sz h in
  log_ok l' /\ lh_n l' = lh_n l /\ (forall i, 0 <= i < lh_n l -> lblock i l' = lblock i l).
Proof.
  intros Hl Hst Hsz Hlen Hn Hb l'; pose proof (lo_n _ Hl) as Hln.
  destruct (read_list_spec (Z.to_nat (hdr_n h)) 0 h (lh_block l0)) as (H1 & _ & H3); [lia|done|lia|].
  assert (Hbl : forall i, 0 <= i < lh_n l -> lblock i l' = lblock i l).
  { intros i Hi; unfold lblock at 1; cbn [l' boot_log with_head lh_block]; rewrite H3 by lia; simpl; auto. }
  assert (Hlg : logged l' = logged l).
  { apply list_eq_same_length with (Z.to_nat (lh_n l)).
    - rewrite logged_length by done; done.
    - unfold logged; cbn [l' boot_log with_head lh_block lh_n]; rewrite length_take; lia.
    - intros i x y Hi Hx Hy; unfold logged in Hx; cbn [l' boot_log with_head lh_block lh_n] in Hx.
      rewrite lookup_take_lt in Hx by lia; specialize (H3 (Z.of_nat i) ltac:(lia)); rewrite Nat2Z.id in H3.
      rewrite H3 in Hx; injection Hx as <-; rewrite Hb by lia.
      pose proof (logged_lookup l (Z.of_nat i) ltac:(lia) Hl) as Hz; rewrite Nat2Z.id in Hz; congruence. }
  split_and!; auto; destruct Hl as [A1 A2 A3 A4 A5 A6 A7]; split; cbn [l' boot_log with_head dev lh_block lh_n size start];
    rewrite ?Hn, ?Hst, ?Hsz in *; auto; fold l'; rewrite ?Hlg; auto.
Qed.

(** A block outside the log. *)
Definition home (l : log) (b : Z) : Prop := ~ (start l <= b < start l + size l).

(** The next boot turns the home blocks of disk [d] into [V]. *)
Definition recovers_to (l : log) (d V : Z -> list Z) : Prop :=
  forall l0, length (lh_block l0) = 30%nat ->
  exists c' s', initlog mypid ROOTDEV (start l) (size l) (Ctx [] []) (LogSt l0 (binit d)) = Ret tt c' s' /\
    hdr_n (disk (bc s') (start l)) = 0 /\ forall b, home l b -> disk (bc s') b = V b.

Lemma bctx0 : bctx (Ctx [] []).
Proof. split; [|intros i]; apply not_elem_of_nil. Qed.

Lemma recover_old l d :
  log_ok l -> (forall b, length (d b) = 1024%nat) -> hdr_n (d (start l)) = 0 -> recovers_to l d d.
Proof.
  intros Hl Hd H0 l0 Hl0; destruct (start_blk l Hl) as [Hsb _]; pose proof (lo_size _ Hl); pose proof (lo_n _ Hl).
  assert (Hok : log_ok (boot_log l0 (start l) (size l) (d (start l)))).
  { destruct Hl as [A1 A2 A3 A4 A5 A6 A7]; split; cbn [boot_log with_head dev lh_block lh_n size start];
      rewrite ?H0; auto; try lia; unfold logged; cbn [boot_log with_head lh_n]; rewrite H0; simpl.
    - constructor.
    - intros b Hb; by apply not_elem_of_nil in Hb. }
  destruct (recover_spec d l0 (start l) (size l) (Ctx [] []) Hd Hok bctx0) as (c' & s' & Hr & _ & _ & _ & Hk0 & Hwr).
  assert (Hdk : forall b, disk (bc s') b = disk_after d (home_writes (boot_log l0 (start l) (size l) (d (start l))) d 0 ++
    [(start l, hdr_block (set_n 0 (boot_log l0 (start l) (size l) (d (start l)))) (d (start l)))]) b)
    by (intros b; unfold disk; by rewrite Hk0, Hwr).
  set (l' := boot_log l0 (start l) (size l) (d (start l))) in *.
  assert (Hw : home_writes l' d 0 = []) by (unfold home_writes; cbn [l' boot_log with_head lh_n]; by rewrite H0).
  exists c', s'; split_and!; auto.
  - rewrite Hdk, Hw; cbn [app disk_after]; rewrite Z.eqb_refl; by apply hdr_n_block.
  - intros b Hb; rewrite Hdk, Hw; cbn [app disk_after]; unfold home in Hb.
    by replace (b =? start l) with false by lia.
Qed.

Lemma recover_new l d V :
  log_ok l -> (forall b, length (d b) = 1024%nat) ->
  hdr_n (d (start l)) = lh_n l -> (forall i, 0 <= i < lh_n l -> hdr_blk (d (start l)) i = lblock i l) ->
  (forall i, 0 <= i < lh_n l -> d (start l + i + 1) = V (lblock i l)) ->
  (forall b, home l b -> b ∉ logged l -> d b = V b) -> recovers_to l d V.
Proof.
  intros Hl Hd Hn Hb Hlog Hother l0 Hl0.
  destruct (boot_log_same l l0 (start l) (size l) (d (start l)) Hl eq_refl eq_refl Hl0 Hn Hb) as (Hok & Hn' & Hb').
  destruct (recover_spec d l0 (start l) (size l) (Ctx [] []) Hd Hok bctx0) as (c' & s' & Hr & _ & _ & _ & Hk0 & Hwr).
  assert (Hdk : forall b, disk (bc s') b = disk_after d (home_writes (boot_log l0 (start l) (size l) (d (start l))) d 0 ++
    [(start l, hdr_block (set_n 0 (boot_log l0 (start l) (size l) (d (start l)))) (d (start l)))]) b)
    by (intros b; unfold disk; by rewrite Hk0, Hwr).
  set (l' := boot_log l0 (start l) (size l) (d (start l))) in *.
  assert (Hw : home_writes l' d 0 = new_writes l V).
  { unfold home_writes, new_writes; rewrite Hn', Z.sub_0_r; apply list_fmap_ext.
    intros k i Hi; apply list_elem_of_lookup_2, elem_of_seqZ in Hi; rewrite Hb', <- Hlog by lia; done. }
  exists c', s'; split_and!; auto.
  - rewrite Hdk, disk_after_app; cbn [disk_after]; rewrite Z.eqb_refl; by apply hdr_n_block.
  - intros b Hh; rewrite Hdk, Hw, disk_after_app; cbn [disk_after]; unfold home in Hh.
    pose proof (lo_size _ Hl); pose proof (lo_n _ Hl); replace (b =? start l) with false by lia.
    rewrite new_writes_after by done; case_decide; auto.
Qed.

(** ** Every crash point of a commit *)

Section crash.
Variables (l : log) (d V : Z -> list Z).
Hypothesis Hl : log_ok l.
Hypothesis Hd : forall b, length (d b) = 1024%nat.
Hypothesis HV : forall b, length (V b) = 1024%nat.
Hypothesis Hclean : hdr_n (d (start l)) = 0.
Hypothesis Hsame : forall b, b ∉ logged l -> d b = V b.
#[local] Set Default Proof Using "Hl Hd HV Hclean Hsame".

Lemma log_keys b : b ∈ (log_writes l V 0).*1 -> start l < b <= start l + lh_n l.
Proof.
  unfold log_writes; rewrite <- list_fmap_compose, list_elem_of_fmap.
  intros (i & -> & Hi%elem_of_seqZ); simpl; lia.
Qed.

Lemma log_after d0 i : 0 <= i < lh_n l -> disk_after d0 (log_writes l V 0) (start l + i + 1) = V (lblock i l).
Proof.
  intros Hi; apply disk_after_in.
  - unfold log_writes; rewrite <- list_fmap_compose; apply NoDup_fmap_2_strong; [|apply NoDup_seqZ].
    intros x y _ _ E; simpl in E; lia.
  - unfold log_writes; apply list_elem_of_fmap; exists i; split; [done|apply elem_of_seqZ; lia].
Qed.

Lemma commit_writes_len : Forall (fun w => length w.2 = 1024%nat) (commit_writes l V).
Proof.
  pose proof (lo_n _ Hl); unfold commit_writes, log_writes, new_writes.
  rewrite !Forall_app, !Forall_fmap, !Forall_singleton; cbn [snd]; split_and!.
  - apply Forall_forall; intros; apply HV.
  - apply length_hdr; [done|lia].
  - apply Forall_forall; intros; apply HV.
  - apply length_hdr; [apply length_hdr; [done|lia]|simpl; lia].
Qed.

Lemma prefix_len k b : length (disk_after d (take k (commit_writes l V)) b) = 1024%nat.
Proof.
  apply disk_after_len; [done|]; apply Forall_forall; intros w Hw.
  pose proof commit_writes_len as HW; rewrite Forall_forall in HW; apply HW.
  rewrite <- (take_drop k (commit_writes l V)); set_solver.
Qed.

(** The crash comes before the header is written. *)
Lemma crash_before k :
  (k <= Z.to_nat (lh_n l))%nat ->
  recovers_to l (disk_after d (take k (commit_writes l V))) d.
Proof.
  intros Hk; set (P := take k (commit_writes l V)).
  assert (HP : forall b, b ∈ P.*1 -> start l < b <= start l + lh_n l).
  { intros b; unfold P, commit_writes; rewrite take_app_le by (unfold log_writes; rewrite length_fmap, length_seqZ; lia).
    intros Hb; apply log_keys; rewrite <- (take_drop k (log_writes l V 0)), fmap_app; set_solver. }
  assert (Hout : forall b, ~ (start l < b <= start l + lh_n l) -> disk_after d P b = d b).
  { intros b Hb; apply disk_after_out; intros Hin; by apply Hb, HP. }
  intros l0 Hl0; destruct (recover_old l (disk_after d P) Hl (prefix_len k)) with l0 as (c' & s' & Hr & H0 & Hb); auto.
  { rewrite Hout by lia; done. }
  exists c', s'; split_and!; auto; intros b Hh; rewrite Hb by done; apply Hout; unfold home in Hh.
  pose proof (lo_size _ Hl); lia.
Qed.

(** ... after it, with [j] home blocks written. *)
Lemma crash_between j :
  recovers_to l (disk_after d (log_writes l V 0 ++ [(start l, hdr_block l (V (start l)))] ++
                               take j (new_writes l V))) V.
Proof.
  set (H := hdr_block l (V (start l))); set (NW := take j (new_writes l V)); pose proof (lo_n _ Hl) as Hn.
  assert (HNW : forall b, b ∈ NW.*1 -> b ∈ logged l).
  { intros b Hb; apply (new_writes_keys l V); [done|].
    rewrite <- (take_drop j (new_writes l V)), fmap_app; set_solver. }
  destruct (start_blk l Hl) as [_ Hsn].
  assert (Hst : disk_after d (log_writes l V 0 ++ [(start l, H)] ++ NW) (start l) = H).
  { rewrite !disk_after_app, disk_after_out by auto; cbn [disk_after]; by rewrite Z.eqb_refl. }
  apply recover_new; auto.
  - apply disk_after_len; [done|]; pose proof commit_writes_len as HW; unfold commit_writes in HW.
    rewrite !Forall_app in HW; destruct HW as (W1 & W2 & W3 & _); rewrite !Forall_app; split_and!; auto.
    apply Forall_forall; intros w Hw; rewrite Forall_forall in W3; apply W3.
    rewrite <- (take_drop j (new_writes l V)); set_solver.
  - rewrite Hst; apply hdr_n_block; [done|lia].
  - intros i Hi; rewrite Hst; apply hdr_blk_block; auto; [lia|].
    by apply (lo_blk _ Hl), lblock_logged.
  - intros i Hi; rewrite !disk_after_app, disk_after_out.
    + cbn [disk_after]; replace (start l + i + 1 =? start l) with false by lia; by apply log_after.
    + intros Hin; destruct (log_block l Hl i Hi) as [_ Hx]; by apply Hx, HNW.
  - intros b Hh Hb; rewrite <- Hsame by done; unfold home in Hh; pose proof (lo_size _ Hl).
    rewrite !disk_after_app, disk_after_out by auto; cbn [disk_after].
    replace (b =? start l) with false by lia; apply disk_after_out; intros Hin%log_keys; lia.
Qed.

(** The disk after the commit: the header is clear, the rest is [V]. *)
Lemma commit_done :
  let D := disk_after d (commit_writes l V) in hdr_n (D (start l)) = 0 /\ forall b, home l b -> D b = V b.
Proof.
  pose proof (lo_n _ Hl); pose proof (lo_size _ Hl); intros D; split.
  - unfold D, commit_writes; rewrite !disk_after_app; cbn [disk_after]; rewrite Z.eqb_refl.
    apply (hdr_n_block (set_n 0 l)); [apply length_hdr; [done|lia]|simpl; lia].
  - intros b Hb; unfold home in Hb; unfold D, commit_writes; rewrite !disk_after_app; cbn [disk_after].
    replace (b =? start l) with false by lia; rewrite new_writes_after by done; case_decide; [done|].
    replace (b =? start l) with false by lia; rewrite <- Hsame by done.
    apply disk_after_out; intros Hin%log_keys; lia.
Qed.

(** ... after the header is cleared. *)
Lemma crash_after : recovers_to l (disk_after d (commit_writes l V)) V.
Proof.
  destruct commit_done as [Hz0 Hh]; intros l0 Hl0.
  destruct (recover_old l (disk_after d (commit_writes l V)) Hl) with l0 as (c' & s' & Hr & Hz & Hb); auto.
  { intros b; rewrite <- (firstn_all (commit_writes l V)); apply prefix_len. }
  exists c', s'; split_and!; auto; intros b Hb'; rewrite Hb by done; auto.
Qed.

Lemma crash_anywhere k :
  recovers_to l (disk_after d (take k (commit_writes l V))) d \/
  recovers_to l (disk_after d (take k (commit_writes l V))) V.
Proof.
  destruct (decide (k <= Z.to_nat (lh_n l))%nat) as [Hk|Hk]; [left; by apply crash_before|right].
  set (n := Z.to_nat (lh_n l)) in *.
  assert (Hll : length (log_writes l V 0) = n) by (unfold log_writes; rewrite length_fmap, length_seqZ; f_equal; lia).
  assert (Hlw : length (new_writes l V) = n) by (unfold new_writes; by rewrite length_fmap, length_seqZ).
  destruct (decide (k <= 2 * n + 1)%nat) as [Hk2|Hk2].
  - replace (take k (commit_writes l V)) with
      (log_writes l V 0 ++ [(start l, hdr_block l (V (start l)))] ++ take (k - n - 1) (new_writes l V));
      [apply crash_between|].
    unfold commit_writes; rewrite (take_app_ge _ _ k), Hll by lia; f_equal.
    rewrite (take_app_ge [_]) by (simpl; lia); f_equal; simpl length.
    rewrite take_app_le by lia; done.
  - rewrite take_ge; [apply crash_after|]; unfold commit_writes.
    rewrite !length_app, Hll, Hlw; simpl; lia.
Qed.
End crash.

(** ** Every crash point of a recovery *)

(** The content after recovery: logged blocks come from the log. *)
Definition redo (l : log) (d : Z -> list Z) (b : Z) : list Z :=
  disk_after d (home_writes l d 0) b.

Lemma home_keys l d b : log_ok l -> b ∈ (home_writes l d 0).*1 -> b ∈ logged l.
Proof.
  intros Hl; unfold home_writes; rewrite <- list_fmap_compose, list_elem_of_fmap.
  intros (i & -> & Hi%elem_of_seqZ); apply lblock_logged; [lia|done].
Qed.

Lemma redo_logged l d i : log_ok l -> 0 <= i < lh_n l -> redo l d (lblock i l) = d (start l + i + 1).
Proof.
  intros Hl Hi; apply disk_after_in; unfold home_writes; rewrite Z.sub_0_r.
  - by apply (lblock_keys_nodup l (fun i => d (start l + i + 1))).
  - apply list_elem_of_fmap; exists i; split; [done|apply elem_of_seqZ; lia].
Qed.

Lemma recover_crash l d j :
  log_ok l -> (forall b, length (d b) = 1024%nat) ->
  hdr_n (d (start l)) = lh_n l -> (forall i, 0 <= i < lh_n l -> hdr_blk (d (start l)) i = lblock i l) ->
  recovers_to l (disk_after d (take j (home_writes l d 0))) (redo l d).
Proof.
  intros Hl Hd Hn Hb; set (P := take j (home_writes l d 0)); destruct (start_blk l Hl) as [_ Hsn].
  assert (HP : forall b, b ∉ logged l -> disk_after d P b = d b).
  { intros b Hnb; apply disk_after_out; intros Hin; apply Hnb, (home_keys l d b Hl).
    rewrite <- (take_drop j (home_writes l d 0)), fmap_app; set_solver. }
  apply recover_new; auto.
  - apply disk_after_len; [done|]; apply Forall_forall; intros w Hw.
    assert (Hw' : w ∈ home_writes l d 0) by (rewrite <- (take_drop j (home_writes l d 0)); set_solver).
    unfold home_writes in Hw'; apply list_elem_of_fmap in Hw' as (i & -> & _); apply Hd.
  - by rewrite HP.
  - intros i Hi; rewrite HP by done; auto.
  - intros i Hi; destruct (log_block l Hl i Hi) as [_ Hx]; rewrite HP by done.
    symmetry; by apply redo_logged.
  - intros b _ Hnb; rewrite HP by done; symmetry; apply disk_after_out.
    intros Hin; by apply Hnb, (home_keys l d b Hl).
Qed.

(** ** Properties *)

(** C1: [commit] is atomic: it writes a sequence of blocks such that a crash
    after any number of these writes leaves a disk from which the next boot's
    [initlog] restores either all the old or all the new contents of the blocks
    outside the log; with all writes done it restores the new ones. *)
Theorem commit_atomic (s : logst) (c : kctx) :
  log_ok (lg s) -> 0 < lh_n (lg s) -> bio_inv mypid (bc s) [] (logged (lg s)) -> bctx c ->
  hdr_n (disk (bc s) (start (lg s))) = 0 ->
  exists c' s' W, commit mypid c s = Ret tt c' s' /\ lh_n (lg s') = 0 /\
    writes (bc s') = writes (bc s) ++ W /\
    (forall k, recovers_to (lg s) (disk_after (disk (bc s)) (take k W)) (disk (bc s)) \/
               recovers_to (lg s) (disk_after (disk (bc s)) (take k W)) (view (bc s))) /\
    recovers_to (lg s) (disk_after (disk (bc s)) W) (view (bc s)).
Proof.
  intros Hl Hn Hinv Hc Hcl.
  destruct (commit_spec s c Hl Hn Hinv Hc) as (c' & s' & Hr & _ & Hlg & _ & _ & Hw).
  assert (HV : forall b, length (view (bc s) b) = 1024%nat) by (intros b; by eapply length_view).
  assert (Hsame : forall b, b ∉ logged (lg s) -> disk (bc s) b = view (bc s) b).
  { intros b Hb; symmetry; eapply view_clean; [exact Hinv|done|by intros ? ?%not_elem_of_nil]. }
  exists c', s', (commit_writes (lg s) (view (bc s))); split_and!; auto; [by rewrite Hlg| |].
  - intros k; apply crash_anywhere; auto; apply (bi_disk _ _ _ _ Hinv).
  - apply crash_after; auto; apply (bi_disk _ _ _ _ Hinv).
Qed.

(** C31: recovery can itself be interrupted: after a crash at any of its writes,
    the next boot restores the same contents as a recovery that was not
    interrupted. *)
Theorem recovery_idempotent (l l0 : log) (d : Z -> list Z) (k : nat) :
  log_ok l -> length (lh_block l0) = 30%nat -> (forall b, length (d b) = 1024%nat) ->
  hdr_n (d (start l)) = lh_n l -> (forall i, 0 <= i < lh_n l -> hdr_blk (d (start l)) i = lblock i l) ->
  exists c' s', initlog mypid ROOTDEV (start l) (size l) (Ctx [] []) (LogSt l0 (binit d)) = Ret tt c' s' /\
    (forall b, home l b -> disk (bc s') b = redo l d b) /\
    recovers_to l (disk_after d (take k (writes (bc s')))) (redo l d).
Proof.
  intros Hl Hl0 Hd Hn Hb.
  destruct (boot_log_same l l0 (start l) (size l) (d (start l)) Hl eq_refl eq_refl Hl0 Hn Hb) as (Hok & Hn' & Hb').
  destruct (recover_spec d l0 (start l) (size l) (Ctx [] []) Hd Hok bctx0) as (c' & s' & Hr & _ & _ & _ & Hk0 & Hwr).
  set (l' := boot_log l0 (start l) (size l) (d (start l))) in *.
  assert (Hw : home_writes l' d 0 = home_writes l d 0).
  { unfold home_writes; rewrite Hn'; apply list_fmap_ext.
    intros j i Hi; apply list_elem_of_lookup_2, elem_of_seqZ in Hi; by rewrite Hb' by lia. }
  rewrite Hw in Hwr; pose proof (lo_size _ Hl); pose proof (lo_n _ Hl).
  assert (Hfin : forall b, home l b -> disk (bc s') b = redo l d b).
  { intros b Hh; unfold disk; rewrite Hk0, Hwr, disk_after_app; cbn [disk_after]; unfold home in Hh.
    by replace (b =? start l) with false by lia. }
  exists c', s'; split_and!; auto.
  destruct (decide (k <= length (home_writes l d 0))%nat) as [Hk|Hk].
  - rewrite Hwr, take_app_le by done; by apply recover_crash.
  - rewrite Hwr, take_ge by (rewrite length_app; simpl; lia); intros l1 Hl1.
    destruct (recover_old l (disk_after d (home_writes l d 0 ++ [(start l, hdr_block (set_n 0 l') (d (start l)))]))
      Hl) with l1 as (c2 & s2 & Hr2 & Hz & Hb2); auto.
    { apply disk_after_len; [done|]; rewrite Forall_app, Forall_singleton; split.
      - unfold home_writes; rewrite Forall_fmap; apply Forall_forall; intros; apply Hd.
      - apply length_hdr; [done|simpl; lia]. }
    { rewrite disk_after_app; cbn [disk_after]; rewrite Z.eqb_refl; by apply hdr_n_block. }
    exists c2, s2; split_and!; auto; intros b Hh; rewrite Hb2, disk_after_app by done; cbn [disk_after].
    unfold home in Hh; by replace (b =? start l) with false by lia.
Qed.
End commit.

(** ** Witnesses *)

(** One dirty block, 100, in an otherwise empty cache. *)
Definition demo_disk : Z -> list Z := fun _ => replicate 1024 0.
Definition demo_buf : buf := Buf 1 ROOTDEV 100 (SL 0 0) 1 (replicate 1024 7).
Definition demo_bc : bcache := upd_buf 0 (fun _ => demo_buf) (binit demo_disk).
Definition demo_log : log := Log 2 30 1 0 ROOTDEV 1 (100 :: replicate 29 0).

Lemma demo_disk_len b : length (demo_disk b) = 1024%nat.
Proof. reflexivity. Qed.

Lemma demo_log_ok : log_ok demo_log.
Proof.
  split; try (cbn; lia); try reflexivity.
  - change (logged demo_log) with [100]; repeat constructor; apply not_elem_of_nil.
  - intros b; change (logged demo_log) with [100]; intros ->%list_elem_of_singleton; split; [split|]; cbn; lia.
Qed.

Lemma demo_bc_inv : bio_inv 1 demo_bc [] [100].
Proof.
  assert (Hu : bupd (binit demo_disk) 0 demo_buf demo_bc)
    by (apply (bupd_upd _ 0 (fun _ => demo_buf)); vm_compute; lia).
  apply (bio_inv_upd 1 (binit demo_disk) [] [] 0 demo_buf); auto; try done.
  - by apply binit_inv.
  - lia.
  - intros b j _ _ _; by rewrite get_binit.
  - intros j _ _; rewrite get_binit; reflexivity.
  - intros H; by apply not_elem_of_nil in H.
  - intros b ->%list_elem_of_singleton; left; done.
  - intros _ _ _ Hn; destruct Hn; left.
Qed.

Lemma commit_atomic_witness :
  let s := LogSt demo_log demo_bc in
  exists c' s' W, commit 1 (Ctx [] []) s = Ret tt c' s' /\ lh_n (lg s') = 0 /\
    writes (bc s') = writes (bc s) ++ W /\
    (forall k, recovers_to 1 demo_log (disk_after (disk (bc s)) (take k W)) (disk (bc s)) \/
               recovers_to 1 demo_log (disk_after (disk (bc s)) (take k W)) (view (bc s))) /\
    recovers_to 1 demo_log (disk_after (disk (bc s)) W) (view (bc s)).
Proof.
  intros s; apply (commit_atomic 1 s (Ctx [] [])).
  - apply demo_log_ok.
  - cbn; lia.
  - apply demo_bc_inv.
  - apply bctx0.
  - reflexivity.
Defined.

Definition demo_crash : Z -> list Z := fun b =>
  if b =? 2 then hdr_block demo_log (replicate 1024 0) else if b =? 3 then replicate 1024 7 else replicate 1024 0.

Lemma recovery_idempotent_witness :
  exists c' s', initlog 1 ROOTDEV 2 30 (Ctx [] []) (LogSt demo_log (binit demo_crash)) = Ret tt c' s' /\
    (forall b, home demo_log b -> disk (bc s') b = redo demo_log demo_crash b) /\
    recovers_to 1 demo_log (disk_after demo_crash (take 1 (writes (bc s')))) (redo demo_log demo_crash).
Proof.
  apply (recovery_idempotent 1 demo_log demo_log demo_crash 1).
  - apply demo_log_ok.
  - reflexivity.
  - intros b; unfold demo_crash; destruct (b =? 2); [apply length_hdr; [reflexivity|cbn; lia]|].
    destruct (b =? 3); reflexivity.
  - apply (hdr_n_block demo_log (replicate 1024 0)); [reflexivity|cbn; lia].
  - intros i Hi; apply (hdr_blk_block demo_log (replicate 1024 0)); [reflexivity|cbn; lia|exact Hi|].
    cbn in Hi; assert (i = 0) as -> by lia; split; [by vm_compute|reflexivity].
Defined.

(** ** Transactions: begin_op, log_write, end_op *)

Section ops.
Variable mypid : Z.

(** A log in use: an operation is running, and there is room. *)
Record log_live (l : log) : Prop := LogLive {
  ll_ok : log_ok l;
  ll_out : 1 <= outstanding l;
  ll_size : size l <= 30
}.

Lemma find_block_spec (n i : nat) b l :
  (i <= find_block n i b l <= i + n)%nat /\
  (forall j, (i <= j < find_block n i b l)%nat -> u32 (lblock (Z.of_nat j) l) <> b) /\
  ((find_block n i b l < i + n)%nat -> u32 (lblock (Z.of_nat (find_block n i b l)) l) = b).
Proof.
  revert i; induction n as [|n IH]; intros i; cbn [find_block].
  { split_and!; (lia || (intros; lia)). }
  destruct (Z.eqb_spec (u32 (lblock (Z.of_nat i) l)) b) as [E|E].
  { split_and!; [lia..| |done]; intros; lia. }
  destruct (IH (S i)) as (H1 & H2 & H3); split_and!; [lia..| |intros; apply H3; lia].
  intros j Hj; destruct (decide (j = i)) as [->|]; [done|apply H2; lia].
Qed.

Lemma find_logged l b :
  log_ok l -> blkno b ->
  let i := find_block (Z.to_nat (lh_n l)) 0 b l in
  (b ∈ logged l /\ (i < Z.to_nat (lh_n l))%nat /\ lblock (Z.of_nat i) l = b) \/
  ((b ∉ logged l) /\ i = Z.to_nat (lh_n l)).
Proof.
  intros Hl Hb i; destruct (find_block_spec (Z.to_nat (lh_n l)) 0 b l) as (H1 & H2 & H3); fold i in H1, H2, H3.
  pose proof (lo_n _ Hl) as Hn.
  assert (Hsmall : forall j, 0 <= j < lh_n l -> u32 (lblock j l) = lblock j l).
  { intros j Hj; destruct (lo_blk _ Hl (lblock j l) (lblock_logged l j Hj Hl)) as [[? ?] _].
    apply u32_small; lia. }
  destruct (decide (i < Z.to_nat (lh_n l))%nat) as [Hi|Hi].
  - left; specialize (H3 ltac:(lia)); rewrite Hsmall in H3 by lia; split_and!; auto.
    rewrite <- H3; apply lblock_logged; [lia|done].
  - right; split; [|lia]; intros [k Hk]%list_elem_of_lookup_1.
    pose proof (lookup_lt_Some _ _ _ Hk) as Hlt; rewrite logged_length in Hlt by done.
    pose proof (logged_lookup l (Z.of_nat k) ltac:(lia) Hl) as Hx; rewrite Nat2Z.id, Hk in Hx; injection Hx as Hx.
    apply (H2 k ltac:(lia)); rewrite Hsmall by lia; done.
Qed.

(** The header with one more block. *)
Definition add_block (b : Z) (l : log) : log :=
  set_n (lh_n l + 1) (set_block (Z.to_nat (lh_n l)) b l).

Lemma logged_add b l : log_ok l -> lh_n l < 30 -> logged (add_block b l) = logged l ++ [b].
Proof.
  intros Hl Hn; pose proof (lo_n _ Hl); pose proof (lo_len _ Hl) as Hlen.
  unfold logged, add_block; cbn [set_n set_block lh_n lh_block].
  replace (Z.to_nat (lh_n l + 1)) with (S (Z.to_nat (lh_n l))) by lia.
  rewrite (take_S_r _ _ b) by (apply list_lookup_insert_eq; lia).
  f_equal; rewrite take_insert_ge by lia; done.
Qed.

Lemma set_block_same i b l : lblock i l = b -> 0 <= i < lh_n l -> log_ok l -> set_block (Z.to_nat i) b l = l.
Proof.
  intros Hb Hi Hl; destruct l as [st sz o cm dv n bl]; unfold set_block, lblock in *; cbn in *.
  f_equal; apply list_insert_id; pose proof (lo_len _ Hl) as Hlen; pose proof (lo_n _ Hl); cbn in *.
  destruct (lookup_lt_is_Some_2 bl (Z.to_nat i)) as [x Hx]; [lia|]; rewrite Hx in Hb; simpl in Hb; congruence.
Qed.

(** [log_write] of a locked buffer: absorbed if the block is logged, appended
    and pinned otherwise. *)
Lemma log_write_spec s L i c :
  let b := bblockno (get_buf i (bc s)) in
  log_live (lg s) -> lh_n (lg s) + 1 < size (lg s) ->
  bio_inv mypid (bc s) L (logged (lg s)) -> i ∈ L -> bctx c -> O_log ∉ held c ->
  blkno b -> home (lg s) b ->
  exists s', log_write i c s = Ret tt c s' /\ bio_inv mypid (bc s') L (logged (lg s')) /\
    log_live (lg s') /\ b ∈ logged (lg s') /\
    lg s' = (if decide (b ∈ logged (lg s)) then lg s else add_block b (lg s)) /\
    (forall x, view (bc s') x = view (bc s) x) /\ disk0 (bc s') = disk0 (bc s) /\ writes (bc s') = writes (bc s) /\
    (forall j, bblockno (get_buf j (bc s')) = bblockno (get_buf j (bc s)) /\
               bdata (get_buf j (bc s')) = bdata (get_buf j (bc s))).
Proof.
  intros b [Hl Ho Hs] Hroom Hinv Hi Hc Hlk Hb Hh; pose proof (lo_n _ Hl) as Hn.
  unfold log_write; unfold kbind at 1; rewrite acquire_run by done; unfold kbind at 1, kget.
  replace (_ || _) with false by (change LOGSIZE with 30; lia); replace (outstanding (lg s) <? 1) with false by lia.
  assert (Hbi : i32 b = b) by (unfold blkno in Hb; rewrite i32_small by lia; done).
  cbv zeta; fold b; rewrite Hbi; destruct (find_logged (lg s) b Hl Hb) as [(Hin & Hlt & Hbl)|(Hnin & ->)].
  - set (j := find_block _ 0 b (lg s)) in *; unfold kbind at 1, kmod at 1.
    replace (set_lg (set_block j b) s) with s.
    2: { unfold set_lg; pose proof (set_block_same (Z.of_nat j) b (lg s) Hbl ltac:(lia) Hl) as E.
         rewrite Nat2Z.id in E; rewrite E; by destruct s. }
    replace (Z.of_nat j =? lh_n (lg s)) with false by lia.
    unfold kbind, kret; rewrite release_run; exists s; rewrite decide_True by done; done.
  - unfold kbind at 1, kmod at 1; rewrite Z2Nat.id, Z.eqb_refl by lia.
    set (s1 := set_lg _ s).
    destruct (bpin_spec mypid (bc s) L (logged (lg s)) i (push_lock O_log c) Hi) with b as (b2 & R2 & I2 & U2 & V2); auto.
    { destruct Hc as [H1 H2]; split; [by apply not_elem_push|intros k; by apply not_elem_push]. }
    unfold kbind at 1; unfold kbind at 1; rewrite (zbc_run _ _ s1 tt _ b2) by exact R2.
    unfold kmod, kbind; rewrite release_run; rewrite decide_False by done.
    set (s3 := set_lg _ _); assert (Hlg : lg s3 = add_block b (lg s)) by done.
    assert (Hbc : bc s3 = b2) by done.
    exists s3; rewrite Hlg, Hbc, logged_add by (done || lia); split_and!; auto.
    + eapply bio_inv_pins; [|exact I2]; intros x; rewrite elem_of_app, elem_of_cons; set_solver.
    + pose proof (logged_add b (lg s) Hl ltac:(lia)) as Hadd; split; [|done..]; destruct Hl as [A1 A2 A3 A4 A5 A6 A7]; split; cbn [add_block set_n set_block dev lh_block lh_n size start] in *;
        rewrite ?length_insert; auto; try lia.
      * fold (add_block b (lg s)); rewrite Hadd.
        apply NoDup_app; split_and!; auto; [set_solver|apply NoDup_singleton].
      * fold (add_block b (lg s)); rewrite Hadd; intros x.
        rewrite elem_of_app, list_elem_of_singleton; intros [Hx| ->]; [by apply A7|done].
    + set_solver.
    + apply (bu_disk0 _ _ _ _ U2).
    + apply (bu_writes _ _ _ _ U2).
    + intros j; rewrite (bu_get _ _ _ _ U2); case_decide as E; [by rewrite E|done].
Qed.
End ops.
