(* ===== verification/Fs.v ===== *)
(** * kernel/fs.c

    Blocks, inodes, file content, directories and paths, over the log and the
    buffer cache.  An inode pointer is an index into the inode table; a copy
    to or from the user goes through the page table of the process, a copy to
    or from a kernel object is a list of bytes. *)

From S2P Require Import Prelude CMem KString Riscv Kalloc Vm Locks Block Bio Log.

Definition ROOTINO : Z := 1.
Definition FSMAGIC : Z := 0x10203040.
Definition NDIRECT : Z := 12.
Definition NINDIRECT : Z := BSIZE / 4.
Definition MAXFILE : Z := NDIRECT + NINDIRECT.
Definition IPB : Z := BSIZE / 64.
Definition BPB : Z := BSIZE * 8.
Definition DIRSIZ : Z := 14.
Definition T_DIR : Z := 1.
Definition T_FILE : Z := 2.
Definition T_DEVICE : Z := 3.

Record superblock : Type := Superblock {
  sb_magic : Z;
  sb_size : Z;
  sb_nblocks : Z;
  sb_ninodes : Z;
  sb_nlog : Z;
  sb_logstart : Z;
  sb_inodestart : Z;
  sb_bmapstart : Z
}.

Record inode : Type := Inode {
  i_dev : Z;
  i_inum : Z;
  i_ref : Z;
  i_lock : sleeplock;
  i_valid : Z;
  i_type : Z;
  i_major : Z;
  i_minor : Z;
  i_nlink : Z;
  i_size : Z;
  i_addrs : list Z
}.

(** The globals of fs.c, the log below, and physical memory. *)
Record fsst : Type := FsSt {
  sb : superblock;
  itable : list inode;
  lgs : logst;
  um : pmem
}.

Definition lgs_of : lens fsst logst := Lens lgs (fun l s => FsSt (sb s) (itable s) l (um s)).
Definition um_of : lens fsst pmem := Lens um (fun m s => FsSt (sb s) (itable s) (lgs s) m).
Definition bcs_of : lens fsst bcache :=
  Lens (fun s => bc (lgs s)) (fun b s => FsSt (sb s) (itable s) (LogSt (lg (lgs s)) b) (um s)).

Definition inode0 : inode := Inode 0 0 0 initsleeplock 0 0 0 0 0 0 (replicate 13 0).
Definition get_inode (i : nat) (s : fsst) : inode := default inode0 (itable s !! i).
Definition upd_inode (i : nat) (f : inode -> inode) (s : fsst) : fsst :=
  FsSt (sb s) (alter f i (itable s)) (lgs s) (um s).

Definition set_ref (r : Z) (x : inode) : inode :=
  Inode (i_dev x) (i_inum x) r (i_lock x) (i_valid x) (i_type x) (i_major x) (i_minor x) (i_nlink x) (i_size x) (i_addrs x).
Definition set_ivalid (v : Z) (x : inode) : inode :=
  Inode (i_dev x) (i_inum x) (i_ref x) (i_lock x) v (i_type x) (i_major x) (i_minor x) (i_nlink x) (i_size x) (i_addrs x).
Definition set_type (t : Z) (x : inode) : inode :=
  Inode (i_dev x) (i_inum x) (i_ref x) (i_lock x) (i_valid x) t (i_major x) (i_minor x) (i_nlink x) (i_size x) (i_addrs x).
Definition set_nlink (n : Z) (x : inode) : inode :=
  Inode (i_dev x) (i_inum x) (i_ref x) (i_lock x) (i_valid x) (i_type x) (i_major x) (i_minor x) n (i_size x) (i_addrs x).
Definition set_size (z : Z) (x : inode) : inode :=
  Inode (i_dev x) (i_inum x) (i_ref x) (i_lock x) (i_valid x) (i_type x) (i_major x) (i_minor x) (i_nlink x) z (i_addrs x).
Definition set_addr (k : nat) (a : Z) (x : inode) : inode :=
  Inode (i_dev x) (i_inum x) (i_ref x) (i_lock x) (i_valid x) (i_type x) (i_major x) (i_minor x) (i_nlink x) (i_size x)
    (<[k := a]> (i_addrs x)).
Definition addr_of (k : Z) (x : inode) : Z := default 0 (i_addrs x !! Z.to_nat k).

Definition inode_lock (i : nat) : lens fsst sleeplock :=
  Lens (fun s => i_lock (get_inode i s))
       (fun l => upd_inode i (fun x => Inode (i_dev x) (i_inum x) (i_ref x) l (i_valid x) (i_type x)
                                (i_major x) (i_minor x) (i_nlink x) (i_size x) (i_addrs x))).

Definition IBLOCK (i : Z) (s : superblock) : Z := i / IPB + sb_inodestart s.
Definition BBLOCK (b : Z) (s : superblock) : Z := b / BPB + sb_bmapstart s.

(** struct dinode over a block, at byte offset [o]. *)
Definition dinode_off (inum : Z) : nat := Z.to_nat (inum mod IPB * 64).
Fixpoint get_addrs (n : nat) (d : list Z) (o : nat) : list Z :=
  match n with
  | O => []
  | S n' => get32 d o :: get_addrs n' d (o + 4)
  end.
Fixpoint put_addrs (l : list Z) (d : list Z) (o : nat) : list Z :=
  match l with
  | [] => d
  | a :: l' => put_addrs l' (put32 d o a) (o + 4)
  end.
Definition read_dinode (d : list Z) (o : nat) (x : inode) : inode :=
  Inode (i_dev x) (i_inum x) (i_ref x) (i_lock x) (i_valid x)
    (i16 (get16 d o)) (i16 (get16 d (o + 2))) (i16 (get16 d (o + 4))) (i16 (get16 d (o + 6)))
    (get32 d (o + 8)) (get_addrs 13 d (o + 12)).
Definition write_dinode (d : list Z) (o : nat) (x : inode) : list Z :=
  put_addrs (i_addrs x)
    (put32 (put16 (put16 (put16 (put16 d o (i_type x)) (o + 2) (i_major x)) (o + 4) (i_minor x)) (o + 6) (i_nlink x))
       (o + 8) (i_size x)) (o + 12).

(** struct stat. *)
Record stat : Type := Stat {
  st_dev : Z;
  st_ino : Z;
  st_type : Z;
  st_nlink : Z;
  st_size : Z
}.

(** struct dirent, 16 bytes: the inode number and the name. *)
Definition de_inum (de : list Z) : Z := get16 de 0.
Definition de_name (de : list Z) : list Z := slice de 2 14.
Definition DESIZE : Z := 16.

(** Two character arrays in one memory, at 0 and at 4096; a byte past the end
    is NUL. *)
Definition two_strings (s t : list Z) : mem :=
  fun x => if x <? 4096 then default 0 (s !! Z.to_nat x) else default 0 (t !! Z.to_nat (x - 4096)).

Definition namecmp (s t : list Z) : Z := strncmp (two_strings s t) 0 4096 DIRSIZ.

(** ** Paths

    A path is the list of its bytes before the terminating NUL. *)
Definition slash : Z := 47.
Fixpoint skip_slashes (path : list Z) : list Z :=
  match path with
  | c :: path' => if c =? slash then skip_slashes path' else path
  | [] => []
  end.
Fixpoint elem_end (path : list Z) : list Z * list Z :=
  match path with
  | c :: path' => if c =? slash then ([], path) else let '(s, r) := elem_end path' in (c :: s, r)
  | [] => ([], [])
  end.

(** The rest of the path and the [name] array after the call; [name] is the
    array before it. *)
Definition skipelem (path name : list Z) : option (list Z * list Z) :=
  let path := skip_slashes path in
  match path with
  | [] => None
  | _ =>
      let '(s, rest) := elem_end path in
      let len := Z.of_nat (length s) in
      let name := if DIRSIZ <=? len then splice name 0 (take 14 s) else splice name 0 (s ++ [0]) in
      Some (skip_slashes rest, name)
  end.

(** Destinations and sources of [either_copyout] and [either_copyin]. *)
Inductive dest : Type :=
| UserDst (addr : Z)
| KernDst.
Inductive src : Type :=
| UserSrc (addr : Z)
| KernSrc (bytes : list Z).

Section fs.
Variable mypid : Z.       (* myproc()->pid *)
Variable pagetable : Z.   (* myproc()->pagetable *)

(** [myproc()->...] of the copies; a kernel destination receives the bytes as
    the result. *)
Definition either_copyout (d : dest) (skip : Z) (bytes : list Z) : M fsst Z :=
  match d with
  | UserDst addr => zoom um_of (copyout pagetable (u64 (addr + skip)) bytes)
  | KernDst => kret 0
  end.
Definition either_copyin (s : src) (skip len : Z) : M fsst (Z * list Z) :=
  match s with
  | UserSrc addr => zoom um_of (copyin pagetable (u64 (addr + skip)) len)
  | KernSrc bytes => kret (0, slice bytes (Z.to_nat skip) (Z.to_nat len))
  end.

Definition fbread (dev blockno : Z) : M fsst nat := zoom bcs_of (bread mypid (u32 dev) (u32 blockno)).
Definition fbrelse (b : nat) : M fsst unit := zoom bcs_of (brelse mypid b).
Definition flog_write (b : nat) : M fsst unit := zoom lgs_of (log_write b).
Definition fdata (b : nat) : M fsst (list Z) :=
  let* s := kget in kret (bdata (get_buf b (bc (lgs s)))).
Definition fset_data (b : nat) (d : list Z) : M fsst unit := zoom bcs_of (kmod (upd_buf b (set_data d))).

Definition readsb (dev : Z) : M fsst unit :=
  let* bp := fbread dev 1 in
  let* d := fdata bp in
  kmod (fun s => FsSt (Superblock (get32 d 0) (get32 d 4) (get32 d 8) (get32 d 12) (get32 d 16)
                         (get32 d 20) (get32 d 24) (get32 d 28)) (itable s) (lgs s) (um s)) ;;;
  fbrelse bp.

Definition fsinit (dev : Z) : M fsst unit :=
  readsb dev ;;;
  let* s := kget in
  if negb (sb_magic (sb s) =? FSMAGIC) then panic "invalid file system"
  else zoom lgs_of (initlog mypid dev (i32 (sb_logstart (sb s))) (i32 (sb_nlog (sb s)))).

Definition bzero (dev bno : Z) : M fsst unit :=
  let* bp := fbread dev bno in
  fset_data bp (replicate 1024 0) ;;;
  flog_write bp ;;;
  fbrelse bp.

(** ** Blocks *)

Definition bit_of (d : list Z) (bi : Z) : bool :=
  negb (Z.land (get8 d (Z.to_nat (bi / 8))) (Z.shiftl 1 (bi mod 8)) =? 0).

(** The inner loop of [balloc]: the first clear bit. *)
Fixpoint find_bit (n : nat) (bi b size : Z) (d : list Z) : option Z :=
  match n with
  | O => None
  | S n' =>
      if (bi <? BPB) && (b + bi <? size) then
        if bit_of d bi then find_bit n' (bi + 1) b size d else Some bi
      else None
  end.

Definition set_bit (d : list Z) (bi : Z) : list Z :=
  put8 d (Z.to_nat (bi / 8)) (Z.lor (get8 d (Z.to_nat (bi / 8))) (Z.shiftl 1 (bi mod 8))).
Definition clear_bit (d : list Z) (bi : Z) : list Z :=
  put8 d (Z.to_nat (bi / 8)) (Z.land (get8 d (Z.to_nat (bi / 8))) (Z.lnot (Z.shiftl 1 (bi mod 8)))).

Fixpoint balloc_loop (fuel : nat) (dev b : Z) : M fsst Z :=
  let* s := kget in
  if b <? sb_size (sb s) then
    match fuel with
    | O => stuck
    | S f =>
        let* bp := fbread dev (BBLOCK b (sb s)) in
        let* d := fdata bp in
        match find_bit (Z.to_nat BPB) 0 b (sb_size (sb s)) d with
        | Some bi =>
            fset_data bp (set_bit d bi) ;;;
            flog_write bp ;;;
            fbrelse bp ;;;
            bzero dev (b + bi) ;;;
            kret (b + bi)
        | None =>
            fbrelse bp ;;;
            balloc_loop f dev (b + BPB)
        end
    end
  else kret 0.
Definition balloc (dev : Z) : M fsst Z :=
  let* s := kget in balloc_loop (Z.to_nat ((sb_size (sb s) + BPB - 1) / BPB)) dev 0.

Definition bfree (dev b : Z) : M fsst unit :=
  let* s := kget in
  let* bp := fbread dev (BBLOCK b (sb s)) in
  let* d := fdata bp in
  let bi := b mod BPB in
  if negb (bit_of d bi) then panic "freeing free block"
  else
    fset_data bp (clear_bit d bi) ;;;
    flog_write bp ;;;
    fbrelse bp.

(** ** Inodes *)

Fixpoint ialloc_loop (fuel : nat) (dev type inum : Z) : M fsst (option Z) :=
  let* s := kget in
  if inum <? sb_ninodes (sb s) then
    match fuel with
    | O => stuck
    | S f =>
        let* bp := fbread dev (IBLOCK inum (sb s)) in
        let* d := fdata bp in
        if get16 d (dinode_off inum) =? 0 then
          fset_data bp (put16 (splice d (dinode_off inum) (replicate 64 0)) (dinode_off inum) type) ;;;
          flog_write bp ;;;
          fbrelse bp ;;;
          kret (Some inum)
        else
          fbrelse bp ;;;
          ialloc_loop f dev type (inum + 1)
    end
  else kret None.

Definition iupdate (ip : nat) : M fsst unit :=
  let* s := kget in
  let inum := i_inum (get_inode ip s) in
  let* bp := fbread (i_dev (get_inode ip s)) (IBLOCK inum (sb s)) in
  let* d := fdata bp in
  let* s := kget in
  fset_data bp (write_dinode d (dinode_off inum) (get_inode ip s)) ;;;
  flog_write bp ;;;
  fbrelse bp.

(** The scan of [iget]: the entry that holds the inode, and the first empty
    entry before it. *)
Fixpoint iget_scan (l : list inode) (i : nat) (empty : option nat) (dev inum : Z) : nat + option nat :=
  match l with
  | [] => inr empty
  | x :: l' =>
      if (0 <? i_ref x) && (i_dev x =? dev) && (i_inum x =? inum) then inl i
      else iget_scan l' (S i)
             (match empty with None => if i_ref x =? 0 then Some i else None | Some _ => empty end) dev inum
  end.

Definition iget (dev inum : Z) : M fsst nat :=
  acquire O_itable ;;;
  let* s := kget in
  match iget_scan (itable s) 0 None dev inum with
  | inl ip =>
      kmod (upd_inode ip (fun x => set_ref (i32 (i_ref x + 1)) x)) ;;;
      release O_itable ;;;
      kret ip
  | inr None => panic "iget: no inodes"
  | inr (Some ip) =>
      kmod (upd_inode ip (fun x => Inode dev inum 1 (i_lock x) 0 (i_type x) (i_major x) (i_minor x)
                                     (i_nlink x) (i_size x) (i_addrs x))) ;;;
      release O_itable ;;;
      kret ip
  end.

Definition ialloc (dev type : Z) : M fsst (option nat) :=
  let* s := kget in
  let* r := ialloc_loop (Z.to_nat (sb_ninodes (sb s))) dev type 1 in
  match r with
  | Some inum => let* ip := iget dev inum in kret (Some ip)
  | None => kret None
  end.

Definition idup (ip : nat) : M fsst nat :=
  acquire O_itable ;;;
  kmod (upd_inode ip (fun x => set_ref (i32 (i_ref x + 1)) x)) ;;;
  release O_itable ;;;
  kret ip.

Definition ilock (ip : nat) : M fsst unit :=
  let* s := kget in
  if i_ref (get_inode ip s) <? 1 then panic "ilock"
  else
    acquiresleep (inode_lock ip) (O_inodelk ip) mypid ;;;
    let* s := kget in
    if i_valid (get_inode ip s) =? 0 then
      let inum := i_inum (get_inode ip s) in
      let* bp := fbread (i_dev (get_inode ip s)) (IBLOCK inum (sb s)) in
      let* d := fdata bp in
      kmod (upd_inode ip (read_dinode d (dinode_off inum))) ;;;
      fbrelse bp ;;;
      kmod (upd_inode ip (set_ivalid 1)) ;;;
      let* s := kget in
      if i_type (get_inode ip s) =? 0 then panic "ilock: no type" else kret tt
    else kret tt.

Definition iunlock (ip : nat) : M fsst unit :=
  let* h := holdingsleep (inode_lock ip) (O_inodelk ip) mypid in
  let* s := kget in
  if negb h || (i_ref (get_inode ip s) <? 1) then panic "iunlock"
  else releasesleep (inode_lock ip) (O_inodelk ip).

(** ** Inode content *)

Definition bmap (ip : nat) (bn : Z) : M fsst Z :=
  let* s := kget in
  let x := get_inode ip s in
  if bn <? NDIRECT then
    if addr_of bn x =? 0 then
      let* addr := balloc (i_dev x) in
      if addr =? 0 then kret 0
      else kmod (upd_inode ip (set_addr (Z.to_nat bn) addr)) ;;; kret addr
    else kret (addr_of bn x)
  else
    let bn := bn - NDIRECT in
    if bn <? NINDIRECT then
      let* addr :=
        (if addr_of NDIRECT x =? 0 then
           let* addr := balloc (i_dev x) in
           if addr =? 0 then kret 0
           else kmod (upd_inode ip (set_addr (Z.to_nat NDIRECT) addr)) ;;; kret addr
         else kret (addr_of NDIRECT x)) in
      if addr =? 0 then kret 0
      else
        let* bp := fbread (i_dev x) addr in
        let* d := fdata bp in
        let* addr :=
          (if get32 d (Z.to_nat (4 * bn)) =? 0 then
             let* addr := balloc (i_dev x) in
             (if negb (addr =? 0) then
                fset_data bp (put32 d (Z.to_nat (4 * bn)) addr) ;;;
                flog_write bp
              else kret tt) ;;;
             kret addr
           else kret (get32 d (Z.to_nat (4 * bn)))) in
        fbrelse bp ;;;
        kret addr
    else panic "bmap: out of range".

(** The two loops of [itrunc], from index [i] on. *)
Fixpoint trunc_direct (k : nat) (ip i : nat) : M fsst unit :=
  match k with
  | O => kret tt
  | S k' =>
      let* s := kget in
      let x := get_inode ip s in
      (if negb (addr_of (Z.of_nat i) x =? 0) then
         bfree (i_dev x) (addr_of (Z.of_nat i) x) ;;;
         kmod (upd_inode ip (set_addr i 0))
       else kret tt) ;;;
      trunc_direct k' ip (S i)
  end.
Fixpoint trunc_indirect (k : nat) (dev : Z) (d : list Z) (j : nat) : M fsst unit :=
  match k with
  | O => kret tt
  | S k' =>
      (if negb (get32 d (4 * j) =? 0) then bfree dev (get32 d (4 * j)) else kret tt) ;;;
      trunc_indirect k' dev d (S j)
  end.

Definition itrunc (ip : nat) : M fsst unit :=
  trunc_direct (Z.to_nat NDIRECT) ip 0 ;;;
  let* s := kget in
  let x := get_inode ip s in
  (if negb (addr_of NDIRECT x =? 0) then
     let* bp := fbread (i_dev x) (addr_of NDIRECT x) in
     let* d := fdata bp in
     trunc_indirect (Z.to_nat NINDIRECT) (i_dev x) d 0 ;;;
     fbrelse bp ;;;
     bfree (i_dev x) (addr_of NDIRECT x) ;;;
     kmod (upd_inode ip (set_addr (Z.to_nat NDIRECT) 0))
   else kret tt) ;;;
  kmod (upd_inode ip (set_size 0)) ;;;
  iupdate ip.

Definition iput (ip : nat) : M fsst unit :=
  acquire O_itable ;;;
  let* s := kget in
  let x := get_inode ip s in
  (if (i_ref x =? 1) && truth (i_valid x) && (i_nlink x =? 0) then
     acquiresleep (inode_lock ip) (O_inodelk ip) mypid ;;;
     release O_itable ;;;
     itrunc ip ;;;
     kmod (upd_inode ip (set_type 0)) ;;;
     iupdate ip ;;;
     kmod (upd_inode ip (set_ivalid 0)) ;;;
     releasesleep (inode_lock ip) (O_inodelk ip) ;;;
     acquire O_itable
   else kret tt) ;;;
  kmod (upd_inode ip (fun x => set_ref (i32 (i_ref x - 1)) x)) ;;;
  release O_itable.

Definition iunlockput (ip : nat) : M fsst unit :=
  iunlock ip ;;;
  iput ip.

Definition stati (ip : nat) : M fsst stat :=
  let* s := kget in
  let x := get_inode ip s in
  kret (Stat (i32 (i_dev x)) (i_inum x) (i_type x) (i_nlink x) (i_size x)).

(** The loop of [readi]; [acc] is what a kernel destination has received. *)
Fixpoint readi_loop (fuel : nat) (ip : nat) (dst : dest) (off n tot : Z) (acc : list Z) : M fsst (Z * list Z) :=
  if tot <? n then
    match fuel with
    | O => stuck
    | S f =>
        let* addr := bmap ip (off / BSIZE) in
        if addr =? 0 then kret (tot, acc)
        else
          let* s := kget in
          let* bp := fbread (i_dev (get_inode ip s)) addr in
          let m := Z.min (n - tot) (BSIZE - off mod BSIZE) in
          let* d := fdata bp in
          let bytes := slice d (Z.to_nat (off mod BSIZE)) (Z.to_nat m) in
          let* r := either_copyout dst tot bytes in
          fbrelse bp ;;;
          if r =? -1 then kret (-1, acc)
          else readi_loop f ip dst (off + m) n (tot + m) (acc ++ bytes)
    end
  else kret (tot, acc).

Definition readi (ip : nat) (dst : dest) (off n : Z) : M fsst (Z * list Z) :=
  let* s := kget in
  let size := i_size (get_inode ip s) in
  if (size <? off) || (u32 (off + n) <? off) then kret (0, [])
  else
    let n := if size <? u32 (off + n) then size - off else n in
    readi_loop (Z.to_nat (n / BSIZE + 2)) ip dst off n 0 [].

(** The loop of [writei] returns [tot] and [off]; a copy that fails has stored
    the pages it could read in the buffer. *)
Fixpoint writei_loop (fuel : nat) (ip : nat) (src : src) (off n tot : Z) : M fsst (Z * Z) :=
  if tot <? n then
    match fuel with
    | O => stuck
    | S f =>
        let* addr := bmap ip (off / BSIZE) in
        if addr =? 0 then kret (tot, off)
        else
          let* s := kget in
          let* bp := fbread (i_dev (get_inode ip s)) addr in
          let m := Z.min (n - tot) (BSIZE - off mod BSIZE) in
          let* (r, bytes) := either_copyin src tot m in
          let* d := fdata bp in
          fset_data bp (splice d (Z.to_nat (off mod BSIZE)) bytes) ;;;
          if r =? -1 then
            fbrelse bp ;;;
            kret (tot, off)
          else
            flog_write bp ;;;
            fbrelse bp ;;;
            writei_loop f ip src (off + m) n (tot + m)
    end
  else kret (tot, off).

Definition writei (ip : nat) (src : src) (off n : Z) : M fsst Z :=
  let* s := kget in
  if (i_size (get_inode ip s) <? off) || (u32 (off + n) <? off) then kret (-1)
  else if MAXFILE * BSIZE <? u32 (off + n) then kret (-1)
  else
    let* (tot, off) := writei_loop (Z.to_nat (n / BSIZE + 2)) ip src off n 0 in
    let* s := kget in
    (if i_size (get_inode ip s) <? off then kmod (upd_inode ip (set_size off)) else kret tt) ;;;
    iupdate ip ;;;
    kret tot.

(** ** Directories *)

(** Returns the inode and [*poff]. *)
Fixpoint dirlookup_loop (fuel : nat) (dp : nat) (name : list Z) (off : Z) : M fsst (option (nat * Z)) :=
  let* s := kget in
  if off <? i_size (get_inode dp s) then
    match fuel with
    | O => stuck
    | S f =>
        let* (r, de) := readi dp KernDst off DESIZE in
        if negb (r =? DESIZE) then panic "dirlookup read"
        else if de_inum de =? 0 then dirlookup_loop f dp name (off + DESIZE)
        else if namecmp name (de_name de) =? 0 then
          let* s := kget in
          let* ip := iget (i_dev (get_inode dp s)) (de_inum de) in
          kret (Some (ip, off))
        else dirlookup_loop f dp name (off + DESIZE)
    end
  else kret None.

Definition dirlookup (dp : nat) (name : list Z) : M fsst (option (nat * Z)) :=
  let* s := kget in
  if negb (i_type (get_inode dp s) =? T_DIR) then panic "dirlookup not DIR"
  else dirlookup_loop (Z.to_nat (i_size (get_inode dp s) / DESIZE + 1)) dp name 0.

(** The scan of [dirlink] for an empty entry: its offset, or the size. *)
Fixpoint dirlink_scan (fuel : nat) (dp : nat) (off : Z) : M fsst Z :=
  let* s := kget in
  if off <? i_size (get_inode dp s) then
    match fuel with
    | O => stuck
    | S f =>
        let* (r, de) := readi dp KernDst off DESIZE in
        if negb (r =? DESIZE) then panic "dirlink read"
        else if de_inum de =? 0 then kret off
        else dirlink_scan f dp (off + DESIZE)
    end
  else kret off.

(** [strncpy(de.name, name, DIRSIZ); de.inum = inum;] *)
Definition dirent_bytes (name : list Z) (inum : Z) : list Z :=
  put16 (replicate 2 0) 0 inum ++
  load_bytes (strncpy (two_strings [] name) 0 4096 DIRSIZ) 0 14.

Definition dirlink (dp : nat) (name : list Z) (inum : Z) : M fsst Z :=
  let* r := dirlookup dp name in
  match r with
  | Some (ip, _) => iput ip ;;; kret (-1)
  | None =>
      let* s := kget in
      let* off := dirlink_scan (Z.to_nat (i_size (get_inode dp s) / DESIZE + 1)) dp 0 in
      let* r := writei dp (KernSrc (dirent_bytes name inum)) off DESIZE in
      kret (if negb (r =? DESIZE) then -1 else 0)
  end.

Variable cwd : nat.   (* myproc()->cwd *)

(** The loop of [namex]; the result is the inode and the final [name]. *)
Fixpoint namex_loop (fuel : nat) (nameiparent : bool) (ip : nat) (path name : list Z) : M fsst (option nat * list Z) :=
  match skipelem path name with
  | None =>
      if nameiparent then iput ip ;;; kret (None, name)
      else kret (Some ip, name)
  | Some (path, name) =>
      match fuel with
      | O => stuck
      | S f =>
          ilock ip ;;;
          let* s := kget in
          if negb (i_type (get_inode ip s) =? T_DIR) then iunlockput ip ;;; kret (None, name)
          else if nameiparent && (match path with [] => true | _ => false end) then
            iunlock ip ;;; kret (Some ip, name)
          else
            let* r := dirlookup ip name in
            match r with
            | None => iunlockput ip ;;; kret (None, name)
            | Some (next, _) =>
                iunlockput ip ;;;
                namex_loop f nameiparent next path name
            end
      end
  end.

Definition namex (path : list Z) (nameiparent : bool) (name : list Z) : M fsst (option nat * list Z) :=
  let* ip := (if default 0 (path !! 0%nat) =? slash then iget ROOTDEV ROOTINO else idup cwd) in
  namex_loop (length path) nameiparent ip path name.

Definition namei (path : list Z) : M fsst (option nat) :=
  let* (r, _) := namex path false (replicate 14 0) in kret r.

Definition nameiparent (path name : list Z) : M fsst (option nat * list Z) :=
  namex path true name.
End fs.

(** [iinit], with the table zeroed as the kernel's data segment is. *)
Definition iinit : list inode := replicate (Z.to_nat NINODE) inode0.
