(* ===== verification/FsBase.v ===== *)
(** * Blocks as the file system sees them

    The content of a block through the cache ([fview]), and the rules that
    read, change and release one; the rest of the proofs about fs.c speak of
    [fview] only. *)

From S2P Require Import Prelude CMem KString Riscv Kalloc Vm Locks Block Bio BioInv BioSpec Log LogSpec LogCrash Fs.

Definition fview (s : fsst) (b : Z) : list Z := view (bc (lgs s)) b.
Definition flog (s : fsst) : log := lg (lgs s).
Definition fbuf (i : nat) (s : fsst) : buf := get_buf i (bc (lgs s)).

(** The spin locks below fs.c are free. *)
Definition fctx (c : kctx) : Prop := bctx c /\ O_log ∉ held c.

Lemma fctx_held c c' : held c' = held c -> fctx c -> fctx c'.
Proof. unfold fctx, bctx; by intros ->. Qed.

Section base.
Variable mypid : Z.

(** A running transaction in which this process has the buffers [L] locked,
    each of them ready to be released. *)
Record fs_ok (s : fsst) (L : list nat) : Prop := FsOk {
  fo_bio : bio_inv mypid (bc (lgs s)) L (logged (flog s));
  fo_log : log_live (flog s);
  fo_clean : forall i, i ∈ L -> bblockno (fbuf i s) ∈ logged (flog s) \/
    bdata (fbuf i s) = disk (bc (lgs s)) (bblockno (fbuf i s))
}.

(** What the operations on blocks leave alone; [W] are the blocks logged. *)
Record fkeep (s s' : fsst) (L : list nat) (W : list Z) : Prop := FKeep {
  fk_sb : sb s' = sb s;
  fk_itable : itable s' = itable s;
  fk_um : um s' = um s;
  fk_mine : forall j, j ∈ L -> bblockno (fbuf j s') = bblockno (fbuf j s) /\ bdata (fbuf j s') = bdata (fbuf j s);
  fk_start : start (flog s') = start (flog s);
  fk_size : Log.size (flog s') = Log.size (flog s);
  fk_out : outstanding (flog s') = outstanding (flog s);
  fk_com : committing (flog s') = committing (flog s);
  fk_disk0 : disk0 (bc (lgs s')) = disk0 (bc (lgs s));
  fk_writes : writes (bc (lgs s')) = writes (bc (lgs s));
  fk_logged : forall b, b ∈ logged (flog s') -> b ∈ logged (flog s) \/ b ∈ W
}.

Lemma fkeep_refl s L : fkeep s s L [].
Proof. split; auto. Qed.

Lemma fkeep_trans s s1 s2 L W1 W2 : fkeep s s1 L W1 -> fkeep s1 s2 L W2 -> fkeep s s2 L (W1 ++ W2).
Proof.
  intros [A1 A2 A3 A4 A5 A6 A8 A9 A10 A11 A7] [B1 B2 B3 B4 B5 B6 B8 B9 B10 B11 B7]; split; try congruence.
  - intros j Hj; destruct (A4 j Hj) as [<- <-]; by apply B4.
  - intros b [?|?]%B7; rewrite elem_of_app; [apply A7 in H as []|]; auto.
Qed.

Lemma fkeep_weaken s s' L L' W W' :
  fkeep s s' L W -> (forall j, j ∈ L' -> j ∈ L) -> (forall b, b ∈ W -> b ∈ W') -> fkeep s s' L' W'.
Proof. intros [A1 A2 A3 A4 A5 A6 A8 A9 A10 A11 A7] HL HW; split; auto; intros b [?|?]%A7; auto. Qed.

(** The log grows by at most the blocks written. *)
Lemma fkeep_n s s' L W :
  fs_ok s L -> log_ok (flog s') -> fkeep s s' L W -> lh_n (flog s') <= lh_n (flog s) + Z.of_nat (length W).
Proof.
  intros [_ [Hl _ _] _] Hl' [_ _ _ _ _ _ _ _ _ _ HW].
  pose proof (lo_n _ Hl); pose proof (lo_n _ Hl').
  assert (Hs : logged (flog s') ⊆ logged (flog s) ++ W) by (intros b Hb; rewrite elem_of_app; auto).
  pose proof (submseteq_length _ _ (NoDup_submseteq _ _ (lo_nodup _ Hl') Hs)) as Hle.
  rewrite length_app, !logged_length in Hle by done; lia.
Qed.

Lemma length_fview s L b : fs_ok s L -> length (fview s b) = 1024%nat.
Proof. intros Hok; eapply length_view, fo_bio, Hok. Qed.

(** ** Reading a block *)
Lemma fbread_spec s L b c :
  fs_ok s L -> fctx c -> blkno b -> (forall i, i ∈ L -> bblockno (fbuf i s) <> b) ->
  lh_n (flog s) + Z.of_nat (length L) < 30 ->
  exists i s', fbread mypid ROOTDEV b c s = Ret i c s' /\ (i ∉ L) /\ fs_ok s' (i :: L) /\ fkeep s s' L [] /\
    flog s' = flog s /\ (forall x, fview s' x = fview s x) /\
    bblockno (fbuf i s') = b /\ bdata (fbuf i s') = fview s b.
Proof.
  intros [Hb Hlg Hcl] [Hc _] Hbk HL Hroom; pose proof (lo_n _ (ll_ok _ Hlg)) as Hn.
  destruct (bread_spec mypid (bc (lgs s)) L (logged (flog s)) b c Hb Hc HL) as (i & b' & Hr & Hi & Hinv & Hs & Hbn & Hd).
  { right; rewrite logged_length by apply Hlg; lia. }
  pose proof Hs as [Hv Hd0 Hw Hm]; pose proof (bsame_disk _ _ _ Hs) as Hdk.
  exists i, (FsSt (sb s) (itable s) (LogSt (flog s) b') (um s)); split_and!; auto.
  - unfold fbread, blkno in *; rewrite (u32_small b) by lia; change (u32 ROOTDEV) with ROOTDEV.
    unfold zoom; cbn [lget lset bcs_of]; by rewrite Hr.
  - split; [done|done|]; intros j; unfold fbuf, flog in *; cbn [lgs bc lg]; rewrite elem_of_cons, Hdk.
    intros [-> |Hj]; [|rewrite Hm by done; by apply Hcl].
    rewrite Hbn, Hd; destruct (decide (b ∈ logged (lg (lgs s)))) as [|Hb']; [by left|right].
    eapply view_clean; [exact Hb|done|exact HL].
  - split; auto; intros j Hj; unfold fbuf; cbn [lgs bc]; by rewrite Hm.
Qed.

(** ** Changing and logging a locked block *)
Lemma fwrite_spec s L i d c :
  fs_ok s L -> fctx c -> i ∈ L -> length d = 1024%nat ->
  blkno (bblockno (fbuf i s)) -> home (flog s) (bblockno (fbuf i s)) ->
  lh_n (flog s) + 1 < Log.size (flog s) ->
  exists s', (fset_data i d ;;; flog_write i) c s = Ret tt c s' /\ fs_ok s' L /\
    fkeep s s' (filter (fun j => j <> i) L) [bblockno (fbuf i s)] /\
    (forall x, fview s' x = if decide (x = bblockno (fbuf i s)) then d else fview s x) /\
    bblockno (fbuf i s') = bblockno (fbuf i s) /\ bdata (fbuf i s') = d /\
    flog s' = if decide (bblockno (fbuf i s) ∈ logged (flog s)) then flog s else add_block (bblockno (fbuf i s)) (flog s).
Proof.
  intros [Hb Hlg Hcl] [Hc Hlk] Hi Hd Hbk Hh Hroom.
  destruct (set_data_spec mypid (bc (lgs s)) L (logged (flog s)) i d Hb Hi Hd) as (I1 & U1 & V1).
  set (b1 := upd_buf i (set_data d) (bc (lgs s))) in *.
  assert (Hg : get_buf i b1 = set_data d (fbuf i s)) by (rewrite (bu_get _ _ _ _ U1), decide_True by done; done).
  destruct (log_write_spec mypid (LogSt (flog s) b1) L i c) as (l2 & R2 & I2 & Lv & Hin & Hlg2 & V2 & D2 & W2 & G2);
    cbn [bc lg]; rewrite ?Hg; auto.
  cbn [bc lg] in *; rewrite Hg in *; cbn [set_data bblockno] in *; fold (fbuf i s) in *.
  assert (Hlog : forall b, b ∈ logged (lg l2) <-> b ∈ logged (flog s) \/ b = bblockno (fbuf i s)).
  { intros b; rewrite Hlg2; case_decide as E; [naive_solver|].
    rewrite logged_add by (apply Hlg || (pose proof (ll_size _ Hlg); lia)); rewrite elem_of_app, list_elem_of_singleton; done. }
  exists (FsSt (sb s) (itable s) l2 (um s)); split_and!.
  - unfold fset_data, flog_write, kbind, zoom, kmod; cbn [lget lset bcs_of lgs_of lgs]; fold b1; fold (flog s); by rewrite R2.
  - split; [done|done|]; unfold fbuf, flog; cbn [lgs]; intros j Hj; destruct (G2 j) as [-> ->].
    unfold disk at 1; rewrite D2, W2; fold (disk b1); rewrite (bupd_disk _ _ _ _ U1), (bu_get _ _ _ _ U1); destruct (decide (j = i)) as [E|E]; [left; apply (proj2 (Hlog _)); by right|].
    destruct (Hcl j Hj); [left; apply Hlog; by left|by right].
  - split; unfold fbuf, flog; cbn [lgs sb itable um]; auto.
    + intros j [Hj Hjl]%list_elem_of_filter.
      destruct (G2 j) as [-> ->]; rewrite (bu_get _ _ _ _ U1), decide_False by done; done.
    + rewrite Hlg2; case_decide; done.
    + rewrite Hlg2; case_decide; done.
    + rewrite Hlg2; case_decide; done.
    + rewrite Hlg2; case_decide; done.
    + intros b [?|?]%Hlog; [by left|right; set_solver].
  - intros x; unfold fview; cbn [lgs]; rewrite V2, V1; done.
  - unfold fbuf; cbn [lgs]; destruct (G2 i) as [-> _]; rewrite Hg; done.
  - unfold fbuf; cbn [lgs]; destruct (G2 i) as [_ ->]; rewrite Hg; done.
  - unfold flog; cbn [lgs]; done.
Qed.

(** ** Releasing a block *)
Lemma fbrelse_spec s L i c :
  fs_ok s (i :: L) -> i ∉ L -> fctx c ->
  exists c' s', fbrelse mypid i c s = Ret tt c' s' /\ held c' = held c /\ fs_ok s' L /\ fkeep s s' L [] /\
    flog s' = flog s /\ (forall x, fview s' x = fview s x).
Proof.
  intros [Hb Hlg Hcl] Hi [Hc _].
  destruct (brelse_spec mypid (bc (lgs s)) L (logged (flog s)) i c Hb Hi Hc) as (c' & b' & Hr & Hh & Hinv & Hs).
  { apply Hcl; left. }
  pose proof Hs as [Hv Hd0 Hw Hm]; pose proof (bsame_disk _ _ _ Hs) as Hdk.
  exists c', (FsSt (sb s) (itable s) (LogSt (flog s) b') (um s)); split_and!; auto.
  - unfold fbrelse, zoom; cbn [lget lset bcs_of]; by rewrite Hr.
  - split; [done|done|]; intros j Hj; unfold fbuf, flog in *; cbn [lgs bc lg]; rewrite Hdk, Hm by done.
    apply Hcl; by right.
  - split; auto; intros j Hj; unfold fbuf; cbn [lgs bc]; by rewrite Hm.
Qed.

(** ** Rules *)

(** Room in the log for [k] more blocks. *)
Definition room (s : fsst) (k : nat) : Prop := lh_n (flog s) + Z.of_nat k < Log.size (flog s).

Definition upd (V : Z -> list Z) (b : Z) (d : list Z) : Z -> list Z := fun x => if decide (x = b) then d else V x.

(** After the run: [L'] is locked, [L] was not touched, the blocks [W] were
    logged and the content of the blocks is [V]. *)
Record fpost (c : kctx) (s : fsst) (L L' : list nat) (W : list Z) (V : Z -> list Z) (c' : kctx) (s' : fsst) : Prop := FPost {
  fp_held : held c' = held c;
  fp_ok : fs_ok s' L';
  fp_keep : fkeep s s' L W;
  fp_view : forall x, fview s' x = V x
}.

Lemma fpost_room c s L L0 L' W V c' s' k :
  fs_ok s L0 -> fpost c s L L' W V c' s' -> room s (length W + k) -> room s' k.
Proof.
  intros H0 [_ Hok Hk _] Hr; unfold room in *; rewrite (fk_size _ _ _ _ Hk).
  assert (fs_ok s L0) as H1 by done; destruct Hok as [_ [Hl _ _] _], H0 as [_ [Hl0 _ _] _].
  assert (lh_n (flog s') <= lh_n (flog s) + Z.of_nat (length W)); [|lia].
  pose proof (lo_n _ Hl); pose proof (lo_n _ Hl0).
  assert (Hs : logged (flog s') ⊆ logged (flog s) ++ W).
  { intros b Hb; rewrite elem_of_app; by apply (fk_logged _ _ _ _ Hk). }
  pose proof (submseteq_length _ _ (NoDup_submseteq _ _ (lo_nodup _ Hl) Hs)) as Hle.
  rewrite length_app, !logged_length in Hle by done; lia.
Qed.

Lemma fpost_ctx c s L L' W V c' s' : fpost c s L L' W V c' s' -> fctx c -> fctx c'.
Proof. intros [H _ _ _]; by apply fctx_held. Qed.

Lemma fpost_trans c s L L1 L1' W1 V1 c1 s1 L2 W2 V2 c2 s2 :
  fpost c s L L1 W1 V1 c1 s1 -> fpost c1 s1 L1' L2 W2 V2 c2 s2 -> (forall j, j ∈ L -> j ∈ L1') ->
  fpost c s L L2 (W1 ++ W2) V2 c2 s2.
Proof.
  intros [A1 A2 A3 A4] [B1 B2 B3 B4] HL; split; [congruence|done| |done].
  eapply fkeep_trans; [exact A3|]; by eapply fkeep_weaken; [exact B3| |].
Qed.

(** Add blocks to those that may have been logged, or restate the content. *)
Lemma fpost_weaken c s L L' W W' V V' c' s' :
  fpost c s L L' W V c' s' -> (forall b, b ∈ W -> b ∈ W') -> (forall x, V x = V' x) ->
  fpost c s L L' W' V' c' s'.
Proof.
  intros [A1 A2 A3 A4] HW HV; split; auto; [by eapply fkeep_weaken; [exact A3| |]|].
  intros x; by rewrite A4.
Qed.

Lemma wp_fbread s L b (Q : nat -> kctx -> fsst -> Prop) c k :
  fs_ok s L -> fctx c -> blkno b -> (forall i, i ∈ L -> bblockno (fbuf i s) <> b) ->
  room s k -> (length L <= k)%nat ->
  (forall i s', i ∉ L -> fpost c s L (i :: L) [] (fview s) c s' -> flog s' = flog s ->
     bblockno (fbuf i s') = b -> bdata (fbuf i s') = fview s b -> Q i c s') ->
  wp (fbread mypid ROOTDEV b) Q c s.
Proof.
  intros Hok Hc Hb HL Hr Hk HQ.
  destruct (fbread_spec s L b c Hok Hc Hb HL) as (i & s' & Hrun & Hi & Hok' & Hkp & Hf & Hv & Hbn & Hd).
  { unfold room in Hr; pose proof (ll_size _ (fo_log _ _ Hok)); lia. }
  unfold wp; rewrite Hrun; by apply HQ.
Qed.

Lemma wp_fdata i (Q : list Z -> kctx -> fsst -> Prop) c s :
  Q (bdata (fbuf i s)) c s -> wp (fdata i) Q c s.
Proof. done. Qed.

Lemma wp_fbrelse s L i (Q : unit -> kctx -> fsst -> Prop) c :
  fs_ok s (i :: L) -> i ∉ L -> fctx c ->
  (forall c' s', fpost c s L L [] (fview s) c' s' -> Q tt c' s') ->
  wp (fbrelse mypid i) Q c s.
Proof.
  intros Hok Hi Hc HQ; destruct (fbrelse_spec s L i c Hok Hi Hc) as (c' & s' & Hrun & Hh & Hok' & Hk & _ & Hv).
  unfold wp; rewrite Hrun; by apply HQ.
Qed.

(** Change and log. *)
Lemma wp_fwrite s L i d (Q : unit -> kctx -> fsst -> Prop) c :
  fs_ok s L -> i ∈ L -> fctx c -> length d = 1024%nat ->
  blkno (bblockno (fbuf i s)) -> home (flog s) (bblockno (fbuf i s)) -> room s 1 ->
  (forall s', fpost c s (filter (fun j => j <> i) L) L [bblockno (fbuf i s)] (upd (fview s) (bblockno (fbuf i s)) d) c s' ->
     Q tt c s') ->
  wp (fset_data i d ;;; flog_write i) Q c s.
Proof.
  intros Hok Hi Hc Hd Hb Hh Hr HQ.
  destruct (fwrite_spec s L i d c Hok Hc) as (s1 & R1 & Hok1 & Hk1 & Hv1 & _ & _ & _); auto.
  unfold wp; rewrite R1; apply HQ; by split.
Qed.

(** Change, log and release. *)
Lemma wp_fcommit s L i d (Q : unit -> kctx -> fsst -> Prop) c :
  fs_ok s (i :: L) -> i ∉ L -> fctx c -> length d = 1024%nat ->
  blkno (bblockno (fbuf i s)) -> home (flog s) (bblockno (fbuf i s)) -> room s 1 ->
  (forall c' s', fpost c s L L [bblockno (fbuf i s)] (upd (fview s) (bblockno (fbuf i s)) d) c' s' -> Q tt c' s') ->
  wp (fset_data i d ;;; flog_write i ;;; fbrelse mypid i) Q c s.
Proof.
  intros Hok Hi Hc Hd Hb Hh Hr HQ.
  destruct (fwrite_spec s (i :: L) i d c Hok Hc) as (s1 & R1 & Hok1 & Hk1 & Hv1 & _ & _ & Hin); auto; [left|].
  destruct (fbrelse_spec s1 L i c Hok1 Hi Hc) as (c2 & s2 & R2 & Hh2 & Hok2 & Hk2 & Hf2 & Hv2).
  unfold wp; unfold kbind in R1; unfold kbind.
  destruct (fset_data i d c s) as [[] c1 s1'| | |]; try done; rewrite R1, R2.
  apply HQ; split; auto.
  - eapply fkeep_weaken; [eapply fkeep_trans; [|exact Hk2]| |]; [|done|].
    + eapply fkeep_weaken; [exact Hk1| |done]; intros j Hj; apply list_elem_of_filter; split; [by intros ->|by right].
    + intros b; rewrite app_nil_r; done.
  - intros x; by rewrite Hv2, Hv1.
Qed.

Lemma wp_fcommit_then {A} s L i d (k : M fsst A) (Q : A -> kctx -> fsst -> Prop) c :
  fs_ok s (i :: L) -> i ∉ L -> fctx c -> length d = 1024%nat ->
  blkno (bblockno (fbuf i s)) -> home (flog s) (bblockno (fbuf i s)) -> room s 1 ->
  (forall c' s', fpost c s L L [bblockno (fbuf i s)] (upd (fview s) (bblockno (fbuf i s)) d) c' s' -> wp k Q c' s') ->
  wp (fset_data i d ;;; flog_write i ;;; fbrelse mypid i ;;; k) Q c s.
Proof.
  intros Hok Hi Hc Hd Hb Hh Hr HQ.
  assert (H : wp ((fset_data i d ;;; flog_write i ;;; fbrelse mypid i) ;;; k) Q c s).
  { apply wp_bind, (wp_fcommit s L); auto. }
  unfold wp in *; rewrite kbind_assoc in H; unfold kbind in *.
  destruct (fset_data i d c s) as [? c1 s1| | |]; try done; by destruct (flog_write i c1 s1).
Qed.

(** A read-only use of a block. *)
Lemma fpost_read c s L L' V c' s' L2 c2 s2 W V2 :
  fpost c s L L' [] V c' s' -> fpost c' s' L L2 W V2 c2 s2 -> fpost c s L L2 W V2 c2 s2.
Proof. intros P1 P2; by apply (fpost_trans c s L L' L [] V c' s'). Qed.

(** Forget that the locked buffers were not touched. *)
Lemma fpost_none c s L L' W V c' s' : fpost c s L L' W V c' s' -> fpost c s [] L' W V c' s'.
Proof.
  intros [A1 A2 A3 A4]; split; auto; eapply fkeep_weaken; [exact A3| |done]; by intros j Hj%not_elem_of_nil.
Qed.

Lemma fpost_refl c s L : fs_ok s L -> fpost c s L L [] (fview s) c s.
Proof. split; auto using fkeep_refl. Qed.
End base.
Arguments fp_held {mypid c s L L' W V c' s'}.
Arguments fp_ok {mypid c s L L' W V c' s'}.
Arguments fp_keep {mypid c s L L' W V c' s'}.
Arguments fp_view {mypid c s L L' W V c' s'}.
Arguments fpost_trans {mypid c s L L1 L1' W1 V1 c1 s1 L2 W2 V2 c2 s2}.
Arguments fpost_weaken {mypid c s L L' W W' V V' c' s'}.
Arguments fpost_none {mypid c s L L' W V c' s'}.
Arguments fpost_read {mypid c s L L' V c' s' L2 c2 s2 W V2}.
Arguments fpost_room {mypid c s L L0 L' W V c' s' k}.
Arguments fpost_ctx {mypid c s L L' W V c' s'}.
Arguments fk_sb {s s' L W}.
Arguments fk_itable {s s' L W}.
Arguments fk_um {s s' L W}.
Arguments fk_mine {s s' L W}.
Arguments fk_start {s s' L W}.
Arguments fk_size {s s' L W}.
Arguments fk_out {s s' L W}.
Arguments fk_com {s s' L W}.
Arguments fk_disk0 {s s' L W}.
Arguments fk_writes {s s' L W}.
