(* ===== verification/FsAlloc.v ===== *)
(** * The block allocator of fs.c: bzero, balloc, bfree

    With what begin_op reserves in the log for operations that use them. *)

From S2P Require Import Prelude CMem KString Riscv Kalloc Vm Locks Block Bio BioInv BioSpec Log LogSpec LogCrash Fs FsBase.

(** ** Bits of the bitmap *)

Lemma bit_of_testbit d bi : bit_of d bi = Z.testbit (get8 d (Z.to_nat (bi / 8))) (bi mod 8).
Proof.
  unfold bit_of; set (v := get8 _ _); pose proof (Z.mod_pos_bound bi 8 ltac:(lia)) as Hm.
  destruct (Z.testbit v (bi mod 8)) eqn:E.
  - destruct (Z.eqb_spec (Z.land v (Z.shiftl 1 (bi mod 8))) 0) as [H0|]; [|done].
    exfalso; assert (Z.testbit (Z.land v (Z.shiftl 1 (bi mod 8))) (bi mod 8) = true) as H1.
    { rewrite Z.land_spec, E, Z.shiftl_spec, Z.sub_diag by lia; done. }
    by rewrite H0, Z.bits_0 in H1.
  - replace (Z.land _ _) with 0; [done|]; apply Z.bits_inj'; intros n Hn.
    rewrite Z.bits_0, Z.land_spec, Z.shiftl_spec by lia; destruct (decide (n = bi mod 8)) as [->|Hne].
    + by rewrite E.
    + destruct (Z.testbit 1 (n - bi mod 8)) eqn:E1; [|by rewrite andb_false_r].
      destruct (decide (n < bi mod 8)); [by rewrite Z.testbit_neg_r in E1 by lia|].
      rewrite Z.bits_above_log2 in E1; simpl; lia.
Qed.

Lemma get8_put8 d o v o' :
  (o < length d)%nat -> get8 (put8 d o v) o' = if decide (o' = o) then u8 v else get8 d o'.
Proof.
  intros H; unfold get8, put8; rewrite lookup_splice by (simpl; lia); simpl length.
  destruct (decide (o' = o)) as [->|E].
  - rewrite decide_True by lia; by rewrite Nat.sub_diag.
  - by rewrite decide_False by lia.
Qed.

Lemma u8_testbit v n : 0 <= n < 8 -> Z.testbit (u8 v) n = Z.testbit v n.
Proof. intros; unfold u8; by rewrite Z.mod_pow2_bits_low by lia. Qed.

Lemma div8_lt bi : 0 <= bi < BPB -> (Z.to_nat (bi / 8) < 1024)%nat.
Proof. unfold BPB, BSIZE; intros; pose proof (Z.div_lt_upper_bound bi 8 1024); pose proof (Z.div_pos bi 8); lia. Qed.

Lemma same_bit bi bj : 0 <= bi -> 0 <= bj -> Z.to_nat (bi / 8) = Z.to_nat (bj / 8) -> bi mod 8 = bj mod 8 -> bi = bj.
Proof.
  intros Hi Hj Hd Hm; pose proof (Z.div_pos bi 8); pose proof (Z.div_pos bj 8).
  rewrite (Z.div_mod bi 8), (Z.div_mod bj 8) by lia; lia.
Qed.

Lemma shift_bit m n : 0 <= m -> 0 <= n -> Z.testbit (Z.shiftl 1 m) n = bool_decide (n = m).
Proof.
  intros Hm Hn; rewrite Z.shiftl_spec by lia; case_bool_decide as E; [subst; by rewrite Z.sub_diag|].
  destruct (decide (n < m)); [by rewrite Z.testbit_neg_r by lia|].
  rewrite Z.bits_above_log2; simpl; lia || done.
Qed.

Lemma bit_of_set d bi bj :
  length d = 1024%nat -> 0 <= bi < BPB -> 0 <= bj < BPB ->
  bit_of (set_bit d bi) bj = bool_decide (bj = bi) || bit_of d bj.
Proof.
  intros Hd Hi Hj; rewrite !bit_of_testbit; unfold set_bit; pose proof (div8_lt bi Hi).
  pose proof (Z.mod_pos_bound bi 8); pose proof (Z.mod_pos_bound bj 8).
  rewrite get8_put8 by lia; case_decide as E.
  - rewrite u8_testbit, Z.lor_spec, shift_bit, E, orb_comm by lia; f_equal.
    apply bool_decide_ext; split; [intros Hm; apply same_bit; lia|by intros ->].
  - rewrite bool_decide_eq_false_2; [done|by intros ->].
Qed.

Lemma bit_of_clear d bi bj :
  length d = 1024%nat -> 0 <= bi < BPB -> 0 <= bj < BPB ->
  bit_of (clear_bit d bi) bj = negb (bool_decide (bj = bi)) && bit_of d bj.
Proof.
  intros Hd Hi Hj; rewrite !bit_of_testbit; unfold clear_bit; pose proof (div8_lt bi Hi).
  pose proof (Z.mod_pos_bound bi 8); pose proof (Z.mod_pos_bound bj 8).
  rewrite get8_put8 by lia; case_decide as E.
  - rewrite u8_testbit, Z.land_spec, Z.lnot_spec, shift_bit, E, andb_comm by lia; do 2 f_equal.
    apply bool_decide_ext; split; [intros Hm; apply same_bit; lia|by intros ->].
  - rewrite bool_decide_eq_false_2; [done|by intros ->].
Qed.

Lemma length_set_bit d bi : length d = 1024%nat -> 0 <= bi < BPB -> length (set_bit d bi) = 1024%nat.
Proof. intros Hd Hi; pose proof (div8_lt bi Hi); unfold set_bit, put8; rewrite length_splice; simpl; lia. Qed.

Lemma length_clear_bit d bi : length d = 1024%nat -> 0 <= bi < BPB -> length (clear_bit d bi) = 1024%nat.
Proof. intros Hd Hi; pose proof (div8_lt bi Hi); unfold clear_bit, put8; rewrite length_splice; simpl; lia. Qed.

(** The inner loop of [balloc] is a first-fit search. *)
Lemma find_bit_spec n bi b size d :
  0 <= bi ->
  match find_bit n bi b size d with
  | Some r => bi <= r < BPB /\ b + r < size /\ bit_of d r = false /\ (forall j, bi <= j < r -> bit_of d j = true)
  | None => forall j, bi <= j < bi + Z.of_nat n -> j < BPB -> b + j < size -> bit_of d j = true
  end.
Proof.
  revert bi; induction n as [|n IH]; intros bi Hbi; cbn [find_bit]; [intros; lia|].
  destruct (_ && _) eqn:E; [|intros; lia].
  destruct (bit_of d bi) eqn:Eb; [|split_and!; [lia..|done|intros; lia]].
  specialize (IH (bi + 1) ltac:(lia)); destruct (find_bit n _ b size d).
  - destruct IH as (H1 & H2 & H3 & H4); split_and!; [lia..|done|].
    intros j Hj; destruct (decide (j = bi)) as [->|]; [done|apply H4; lia].
  - intros j Hj; destruct (decide (j = bi)) as [->|]; [done|apply IH; lia].
Qed.

(** ** The layout of the disk *)

Definition bmap_end (sb : superblock) : Z := sb_bmapstart sb + sb_size sb / BPB + 1.

(** boot block, superblock, log, inodes, bitmap, data. *)
Record layout (sb : superblock) (l : log) : Prop := Layout {
  la_start : 1 < start l;
  la_lsize : 0 < Log.size l;
  la_log : start l + Log.size l <= sb_inodestart sb;
  la_ninodes : 0 <= sb_ninodes sb < 2 ^ 31;
  la_inodes : sb_inodestart sb + sb_ninodes sb / IPB + 1 <= sb_bmapstart sb;
  la_end : bmap_end sb <= sb_size sb;
  la_size : sb_size sb < 2 ^ 31 - BPB
}.

Definition used (V : Z -> list Z) (sb : superblock) (b : Z) : bool := bit_of (V (BBLOCK b sb)) (b mod BPB).

(** The blocks before the data blocks are marked in the bitmap. *)
Definition meta_used (V : Z -> list Z) (sb : superblock) : Prop :=
  forall b, 0 <= b < bmap_end sb -> used V sb b = true.

Lemma bblock_range sb l b :
  layout sb l -> 0 <= b < sb_size sb -> sb_bmapstart sb <= BBLOCK b sb < bmap_end sb.
Proof.
  intros [A1 A0 A2 A3 A4 A5 A6] Hb; unfold BBLOCK, bmap_end in *; unfold BPB, BSIZE, IPB in *.
  pose proof (Z.div_pos b (1024 * 8)); pose proof (Z.div_le_mono b (sb_size sb) (1024 * 8)); lia.
Qed.

Lemma layout_order sb l :
  layout sb l -> start l + Log.size l <= sb_inodestart sb < sb_bmapstart sb /\ sb_bmapstart sb < bmap_end sb <= sb_size sb.
Proof.
  intros [A1 A0 A2 A3 A4 A5 A6]; unfold bmap_end in *; change IPB with 16 in *; change BPB with 8192 in *.
  pose proof (Z.div_pos (sb_ninodes sb) 16); pose proof (Z.div_pos (sb_size sb) 8192).
  destruct (decide (0 <= sb_size sb)); [lia|].
  pose proof (Z.div_lt_upper_bound (sb_size sb) 8192 0); pose proof (Z.div_le_lower_bound (sb_size sb) 8192 (sb_size sb)); lia.
Qed.

(** A block past the log can be logged. *)
Lemma layout_block sb l b :
  layout sb l -> sb_inodestart sb <= b < sb_size sb -> blkno b /\ home l b.
Proof.
  intros Hla Hb; pose proof (layout_order _ _ Hla); destruct Hla as [A1 A0 A2 A3 A4 A5 A6].
  change BPB with 8192 in *; unfold blkno, home; lia.
Qed.

Lemma bblock_block sb l b :
  layout sb l -> 0 <= b < sb_size sb -> blkno (BBLOCK b sb) /\ home l (BBLOCK b sb).
Proof.
  intros Hla Hb; pose proof (bblock_range _ _ _ Hla Hb); pose proof (layout_order _ _ Hla).
  apply (layout_block sb); [done|lia].
Qed.

Lemma free_block V sb l b :
  layout sb l -> meta_used V sb -> 0 <= b < sb_size sb -> used V sb b = false -> bmap_end sb <= b.
Proof.
  intros Hla Hm Hb Hu; destruct (decide (b < bmap_end sb)); [|lia].
  rewrite Hm in Hu by lia; done.
Qed.

Lemma layout_keep sb l l' :
  start l' = start l -> Log.size l' = Log.size l -> layout sb l -> layout sb l'.
Proof. intros E1 E2 [A1 A0 A2 A3 A4 A5 A6]; split; rewrite ?E1, ?E2; done. Qed.

Section alloc.
Variable mypid : Z.
#[local] Abbreviation fs_ok := (fs_ok mypid).
#[local] Abbreviation fpost := (fpost mypid).

Lemma room_le s k k' : room s k -> (k' <= k)%nat -> room s k'.
Proof. unfold room; lia. Qed.

Lemma bzero_spec s L b c k :
  fs_ok s L -> fctx c -> blkno b -> home (flog s) b -> (forall i, i ∈ L -> bblockno (fbuf i s) <> b) ->
  room s k -> (1 <= k)%nat -> (length L <= k)%nat ->
  wp (bzero mypid ROOTDEV b) (fun _ => fpost c s L L [b] (upd (fview s) b (replicate 1024 0))) c s.
Proof.
  intros Hok Hc Hb Hh HL Hr Hk Hk'; unfold bzero; apply wp_bind; eapply wp_fbread; eauto.
  intros i s1 Hi P1 Hf Hbn Hd; eapply (wp_fcommit _ _ L); rewrite ?Hbn, ?Hf; auto; try apply P1.
  - eapply (fpost_room Hok P1), room_le; eauto.
  - intros c2 s2 P2; eapply fpost_weaken; [exact (fpost_read P1 P2)|done|].
    intros x; unfold upd; by rewrite (fp_view P1).
Qed.

(** The buffers locked around a call of the allocator hold data blocks in use. *)
Definition data_locked (s : fsst) (L : list nat) : Prop :=
  forall i, i ∈ L -> bmap_end (sb s) <= bblockno (fbuf i s) < sb_size (sb s) /\ used (fview s) (sb s) (bblockno (fbuf i s)) = true.

Definition balloc_post (c : kctx) (s : fsst) (L : list nat) (r : Z) (c' : kctx) (s' : fsst) : Prop :=
  (r = 0 /\ (forall b, 0 <= b < sb_size (sb s) -> used (fview s) (sb s) b = true) /\ fpost c s L L [] (fview s) c' s') \/
  (bmap_end (sb s) <= r < sb_size (sb s) /\ used (fview s) (sb s) r = false /\
   (forall b, 0 <= b < r -> used (fview s) (sb s) b = true) /\
   fpost c s L L [BBLOCK r (sb s); r]
     (upd (upd (fview s) (BBLOCK r (sb s)) (set_bit (fview s (BBLOCK r (sb s))) (r mod BPB))) r (replicate 1024 0)) c' s').

Lemma bblock_add k j sb : 0 <= j < BPB -> BBLOCK (k * BPB + j) sb = BBLOCK (k * BPB) sb /\ (k * BPB + j) mod BPB = j.
Proof.
  change BPB with 8192; intros Hj; unfold BBLOCK; change BPB with 8192; split.
  - rewrite (Z.add_comm (k * 8192)), Z.div_add, (Z.div_small j), Z.div_mul by lia; lia.
  - rewrite (Z.add_comm (k * 8192)), Z_mod_plus_full; by apply Z.mod_small.
Qed.

Lemma used_ext V V' sb b : (forall x, V x = V' x) -> used V sb b = used V' sb b.
Proof. intros H; unfold used; by rewrite H. Qed.

Lemma data_locked_keep {c s L c' s'} : fpost c s L L [] (fview s) c' s' -> data_locked s L -> data_locked s' L.
Proof.
  intros P HL i Hi; pose proof (fp_keep P) as K; rewrite (fk_sb K); destruct (fk_mine K i Hi) as [-> _].
  rewrite (used_ext _ (fview s)) by apply P; by apply HL.
Qed.

(** The bitmap alone decides which blocks are used. *)
Lemma data_locked_post {c s L W V c' s'} :
  layout (sb s) (flog s) -> fpost c s L L W V c' s' ->
  (forall b, sb_bmapstart (sb s) <= b < bmap_end (sb s) -> V b = fview s b) -> data_locked s L -> data_locked s' L.
Proof.
  intros Hla P HV HL i Hi; pose proof (fp_keep P) as K; rewrite (fk_sb K); destruct (fk_mine K i Hi) as [-> _].
  destruct (HL i Hi) as [Hr Hu]; split; [done|]; pose proof (layout_order _ _ Hla); pose proof (la_start _ _ Hla).
  pose proof (la_lsize _ _ Hla); unfold used in *.
  rewrite (fp_view P), HV; [done|]; apply (bblock_range _ (flog s)); [done|lia].
Qed.

Lemma balloc_post_read {c s L r c1 s1 c' s'} :
  fpost c s L L [] (fview s) c1 s1 -> balloc_post c1 s1 L r c' s' -> balloc_post c s L r c' s'.
Proof.
  intros P1; pose proof (fp_keep P1) as K; pose proof (fp_view P1) as HV; unfold balloc_post.
  rewrite (fk_sb K); intros [(E & Hall & P2)|(Hr & Hu & Hbelow & P2)]; [left|right].
  - split_and!; [done| |].
    + intros b Hb; rewrite <- (used_ext (fview s1)) by done; auto.
    + eapply fpost_weaken; [exact (fpost_read P1 P2)|done|done].
  - rewrite (used_ext _ (fview s)) in Hu by done; split_and!; [lia..|done| |].
    + intros b Hb; rewrite <- (used_ext (fview s1)) by done; auto.
    + eapply fpost_weaken; [exact (fpost_read P1 P2)|done|]; intros x; unfold upd; by rewrite !HV.
Qed.

Lemma balloc_loop_spec f s L k c r0 :
  fs_ok s L -> fctx c -> layout (sb s) (flog s) -> meta_used (fview s) (sb s) -> data_locked s L ->
  room s r0 -> (2 <= r0)%nat -> (S (length L) <= r0)%nat -> 0 <= k ->
  sb_size (sb s) <= (k + Z.of_nat f) * BPB ->
  (forall b, 0 <= b < k * BPB -> b < sb_size (sb s) -> used (fview s) (sb s) b = true) ->
  wp (balloc_loop mypid f ROOTDEV (k * BPB)) (balloc_post c s L) c s.
Proof.
  revert s c k; induction f as [|f IH]; intros s c k Hok Hc Hla Hm HL Hr Hr2 HrL Hk Hfuel Hbelow;
    cbn [balloc_loop]; apply wp_bind, wp_get; destruct (Z.ltb_spec (k * BPB) (sb_size (sb s))) as [Hlt|Hge].
  1: lia.
  1, 3: apply wp_ret; left; split_and!; [done| |by apply fpost_refl]; intros b Hb; apply Hbelow; lia.
  pose proof (layout_order _ _ Hla) as Hord.
  destruct (bblock_block _ _ (k * BPB) Hla) as [Hbk Hbh]; [unfold BPB, BSIZE in *; lia|].
  pose proof (bblock_range _ _ (k * BPB) Hla) as Hbr.
  apply wp_bind; eapply wp_fbread; eauto.
  { intros i Hi; specialize (HL i Hi); unfold BPB, BSIZE in *; lia. }
  { lia. }
  intros i s1 Hi P1 Hf Hbn Hd; apply wp_bind, wp_fdata; rewrite Hd.
  pose proof (find_bit_spec (Z.to_nat BPB) 0 (k * BPB) (sb_size (sb s)) (fview s (BBLOCK (k * BPB) (sb s))) ltac:(lia)) as Hfb.
  destruct (find_bit _ _ _ _ _) as [bi|].
  - destruct Hfb as (Hbi & Hsz & Hclr & Hset); destruct (bblock_add k bi (sb s)) as [E1 E2]; [lia|].
    assert (Hu : used (fview s) (sb s) (k * BPB + bi) = false) by (unfold used; by rewrite E1, E2).
    assert (Hlo : bmap_end (sb s) <= k * BPB + bi).
    { eapply free_block; eauto; unfold BPB, BSIZE in *; lia. }
    eapply (wp_fcommit_then _ _ L); rewrite ?Hbn, ?Hf; auto; try apply P1.
    { apply length_set_bit; [by eapply length_fview|lia]. }
    { eapply (fpost_room Hok P1), room_le; eauto; simpl; lia. }
    intros c2 s2 P2; pose proof (fpost_read P1 P2) as P12; apply wp_bind.
    assert (R2 : room s2 (r0 - 1)) by (eapply (fpost_room Hok P12), room_le; eauto; simpl; lia).
    destruct (layout_block (sb s) (flog s) (k * BPB + bi) Hla) as [Hrk Hrh]; [lia|].
    pose proof (fp_keep P12) as K12.
    eapply wp_mono; [eapply (bzero_spec s2 L _ _ (r0 - 1)); [apply P12|by eapply (fpost_ctx P12)|done| | |done|lia| ]|].
    + unfold home in *; by rewrite (fk_start K12), (fk_size K12).
    + intros j Hj; destruct (fk_mine K12 j Hj) as [-> _]; destruct (HL j Hj) as [_ Hju]; congruence.
    + lia.
    + intros [] c3 s3 P3; apply wp_ret; right; split_and!; [lia..|done| |].
      * intros b Hb; destruct (decide (b < k * BPB)); [apply Hbelow; lia|].
        replace b with (k * BPB + (b - k * BPB)) by lia; unfold used.
        destruct (bblock_add k (b - k * BPB) (sb s)) as [-> ->]; [lia|apply Hset; lia].
      * rewrite E1, E2; eapply fpost_weaken; [exact (fpost_trans P12 P3 (fun j H => H))|done|].
        intros x; unfold upd; rewrite (fp_view P2); unfold upd; by rewrite (fp_view P1).
  - apply wp_bind; eapply wp_fbrelse; [apply P1|done|done|]; intros c2 s2 P2.
    pose proof (fpost_read P1 P2) as P12; pose proof (fp_keep P12) as K12.
    assert (HV : forall x, fview s2 x = fview s x) by (intros x; by rewrite (fp_view P2), (fp_view P1)).
    assert (P12' : fpost c s L L [] (fview s) c2 s2) by (eapply fpost_weaken; [exact P12|done|apply (fp_view P1)]).
    eapply wp_mono; [|intros r c3 s3; exact (balloc_post_read P12')].
    replace (k * BPB + BPB) with ((k + 1) * BPB) by (unfold BPB, BSIZE; lia).
    apply IH; auto; rewrite ?(fk_sb K12); try lia.
    + apply P12'.
    + by eapply (fpost_ctx P12').
    + eapply layout_keep; [apply (fk_start K12)|apply (fk_size K12)|done].
    + intros b Hb; rewrite (used_ext _ (fview s)) by done; by apply Hm.
    + by apply (data_locked_keep P12').
    + by eapply (fpost_room Hok P12').
    + intros b Hb Hbs; rewrite (used_ext _ (fview s)) by done.
      destruct (decide (b < k * BPB)); [apply Hbelow; lia|].
      replace b with (k * BPB + (b - k * BPB)) by lia; unfold used.
      unfold BPB, BSIZE in Hb; change (1024 * 8) with 8192 in *; change BPB with 8192 in *.
      destruct (bblock_add k (b - k * 8192) (sb s)) as [E1 E2]; change BPB with 8192 in *; [lia|rewrite E1, E2; apply Hfb; lia].
Qed.

Lemma balloc_spec s L c k :
  fs_ok s L -> fctx c -> layout (sb s) (flog s) -> meta_used (fview s) (sb s) -> data_locked s L ->
  room s k -> (2 <= k)%nat -> (S (length L) <= k)%nat ->
  wp (balloc mypid ROOTDEV) (balloc_post c s L) c s.
Proof.
  intros Hok Hc Hla Hm HL Hr Hk HkL; unfold balloc; apply wp_bind, wp_get.
  pose proof (layout_order _ _ Hla) as Hord; pose proof (la_start _ _ Hla); pose proof (la_lsize _ _ Hla).
  apply (balloc_loop_spec _ _ _ 0 _ k); auto; [lia| |intros; lia].
  change BPB with 8192; pose proof (Z.div_mod (sb_size (sb s) + 8192 - 1) 8192).
  pose proof (Z.mod_pos_bound (sb_size (sb s) + 8192 - 1) 8192).
  pose proof (Z.div_pos (sb_size (sb s) + 8192 - 1) 8192); lia.
Qed.

(** ** bfree *)

Lemma bfree_spec s L c b k :
  fs_ok s L -> fctx c -> layout (sb s) (flog s) -> 0 <= b < sb_size (sb s) -> data_locked s L ->
  used (fview s) (sb s) b = true -> room s k -> (1 <= k)%nat -> (length L <= k)%nat ->
  wp (bfree mypid ROOTDEV b)
     (fun _ => fpost c s L L [BBLOCK b (sb s)]
        (upd (fview s) (BBLOCK b (sb s)) (clear_bit (fview s (BBLOCK b (sb s))) (b mod BPB)))) c s.
Proof.
  intros Hok Hc Hla Hb HL Hu Hr Hk HkL; unfold bfree; apply wp_bind, wp_get.
  destruct (bblock_block _ _ b Hla Hb) as [Hbk Hbh]; pose proof (bblock_range _ _ b Hla Hb) as Hbr.
  apply wp_bind; eapply wp_fbread; eauto.
  { intros i Hi; destruct (HL i Hi); lia. }
  intros i s1 Hi P1 Hf Hbn Hd; apply wp_bind, wp_fdata; rewrite Hd; cbv zeta.
  unfold used in Hu; rewrite Hu; cbn [negb].
  eapply (wp_fcommit _ _ L); rewrite ?Hbn, ?Hf; auto; try apply P1.
  - apply length_clear_bit; [by eapply length_fview|by apply Z.mod_pos_bound].
  - eapply (fpost_room Hok P1), room_le; eauto.
  - intros c2 s2 P2; eapply fpost_weaken; [exact (fpost_read P1 P2)|done|].
    intros x; unfold upd; by rewrite (fp_view P1).
Qed.

(** ** The reservation of begin_op *)

Lemma begin_admits s c :
  O_log ∉ held c -> committing (lg s) = 0 -> lh_n (lg s) + (outstanding (lg s) + 1) * MAXOPBLOCKS <= LOGSIZE ->
  begin_op c s = Ret tt c (set_lg (set_outstanding (outstanding (lg s) + 1)) s).
Proof.
  intros Hc Hcm Hn; unfold begin_op, whole, begin_op_seg; krun; rewrite Hcm, (proj2 (Z.ltb_ge _ _)) by done.
  change (truth 0) with false; by krun.
Qed.

Lemma begin_blocks s c :
  held c = [] -> committing (lg s) = 0 -> LOGSIZE < lh_n (lg s) + (outstanding (lg s) + 1) * MAXOPBLOCKS ->
  begin_op c s = Sleep O_log (push_lock O_log c) s.
Proof.
  intros Hc Hcm Hn; assert (O_log ∉ held c) by (rewrite Hc; apply not_elem_of_nil).
  unfold begin_op, whole, begin_op_seg; krun; rewrite Hcm, (proj2 (Z.ltb_lt _ _)) by done.
  change (truth 0) with false; unfold sleep_at, sleep; cbn [held push_lock]; rewrite decide_True by left.
  rewrite decide_True by (by rewrite Hc); by krun.
Qed.

(** Three operations fit an empty log, as begin_op counts. *)
Lemma begin_three s c :
  O_log ∉ held c -> committing (lg s) = 0 -> outstanding (lg s) = 0 -> lh_n (lg s) = 0 ->
  (begin_op ;;; begin_op ;;; begin_op) c s = Ret tt c (set_lg (set_outstanding 3) s).
Proof.
  intros Hc Hcm Ho Hn; destruct s as [l b]; cbn [lg] in *; unfold kbind.
  do 3 (rewrite begin_admits; cbn [lg set_lg set_outstanding outstanding committing lh_n]; rewrite ?Hn, ?Ho, ?Hcm; [|done|done|by vm_compute]).
  done.
Qed.

(** Blocks cleared one after the other. *)
Definition bzero_all (bs : list Z) : M fsst unit := foldr (fun b m => bzero mypid ROOTDEV b ;;; m) (kret tt) bs.

Lemma bzero_logs s b c :
  fs_ok s [] -> fctx c -> blkno b -> home (flog s) b -> (b ∉ logged (flog s)) -> room s 1 ->
  exists c' s', bzero mypid ROOTDEV b c s = Ret tt c' s' /\ held c' = held c /\ fs_ok s' [] /\ flog s' = add_block b (flog s).
Proof.
  intros Hok Hc Hb Hh Hn Hr; unfold room in Hr; pose proof (ll_size _ (fo_log _ _ _ Hok)).
  destruct (fbread_spec mypid s [] b c Hok Hc Hb) as (i & s1 & R1 & _ & Hok1 & _ & Hf1 & _ & Hbn & _); [by intros ? ?%not_elem_of_nil|simpl; lia|].
  destruct (fwrite_spec mypid s1 [i] i (replicate 1024 0) c Hok1 Hc) as (s2 & R2 & Hok2 & _ & _ & _ & _ & Hf2);
    rewrite ?Hbn, ?Hf1 in *; auto; [left|].
  destruct (fbrelse_spec mypid s2 [] i c Hok2 (not_elem_of_nil i) Hc) as (c3 & s3 & R3 & Hh3 & Hok3 & _ & Hf3 & _).
  exists c3, s3; rewrite Hf3, Hf2, decide_False by done; split_and!; auto.
  unfold bzero; unfold kbind in R2 |- *; rewrite R1; destruct (fset_data i _ c s1) as [? c1 s1'| | |]; try done; by rewrite R2, R3.
Qed.

Lemma bzero_all_logs bs s c :
  fs_ok s [] -> fctx c -> Forall (fun b => blkno b /\ home (flog s) b) bs -> NoDup (logged (flog s) ++ bs) ->
  room s (length bs) ->
  exists c' s', bzero_all bs c s = Ret tt c' s' /\ held c' = held c /\ fs_ok s' [] /\
    start (flog s') = start (flog s) /\ Log.size (flog s') = Log.size (flog s) /\
    lh_n (flog s') = lh_n (flog s) + Z.of_nat (length bs).
Proof.
  revert s c; induction bs as [|b bs IH]; intros s c Hok Hc Hb Hnd Hr; [exists c, s; split_and!; auto; simpl; lia|].
  apply Forall_cons in Hb as [[Hb1 Hb2] Hb]; unfold room in *; cbn [length] in *; pose proof (fo_log _ _ _ Hok) as Hl.
  assert (Hnl : b ∉ logged (flog s)) by (apply NoDup_app in Hnd as (_ & Hd & _); intros Hin; apply (Hd _ Hin); left).
  destruct (bzero_logs s b c) as (c1 & s1 & R1 & Hh1 & Hok1 & Hf1); auto; [unfold room; lia|].
  pose proof (ll_size _ Hl); destruct (IH s1 c1) as (c2 & s2 & R2 & Hh2 & Hok2 & E1 & E2 & E3); auto.
  - by eapply fctx_held.
  - rewrite Hf1; exact Hb.
  - rewrite Hf1, logged_add, <- app_assoc by (apply Hl || lia); exact Hnd.
  - rewrite Hf1; cbn [add_block set_n set_block lh_n Log.size]; lia.
  - exists c2, s2; unfold bzero_all; cbn [foldr]; unfold kbind at 1; rewrite R1; split_and!; auto; [congruence| | |];
      rewrite ?E1, ?E2, ?E3, Hf1; cbn [add_block set_n set_block start lh_n Log.size]; auto; lia.
Qed.

(** The block after the last one that fits. *)
Lemma bzero_full s b c :
  fs_ok s [] -> fctx c -> blkno b -> lh_n (flog s) = Log.size (flog s) - 1 ->
  bzero mypid ROOTDEV b c s = Panic "too big a transaction".
Proof.
  intros Hok Hc Hb Hn; pose proof (ll_size _ (fo_log _ _ _ Hok)).
  destruct (fbread_spec mypid s [] b c Hok Hc Hb) as (i & s1 & R1 & _ & _ & _ & Hf1 & _); [by intros ? ?%not_elem_of_nil|simpl; lia|].
  unfold bzero; unfold kbind at 1; rewrite R1; unfold fset_data, flog_write, kbind, zoom, kmod; cbn [lget lset bcs_of lgs_of lgs].
  unfold log_write, kbind; rewrite acquire_run by apply Hc; unfold kget; cbn [lg]; unfold flog in *; rewrite Hf1, Hn.
  by rewrite (proj2 (Z.leb_le (Log.size _ - 1) _)), orb_true_r by lia.
Qed.

Lemma bzero_all_app bs b c s c' s' :
  bzero_all bs c s = Ret tt c' s' -> bzero_all (bs ++ [b]) c s = (bzero mypid ROOTDEV b ;;; kret tt) c' s'.
Proof.
  unfold bzero_all; revert c s; induction bs as [|a bs IH]; intros c s; cbn [foldr app]; [by intros [= -> ->]|].
  unfold kbind at 1 3; destruct (bzero mypid ROOTDEV a c s); try done; apply IH.
Qed.
End alloc.

(** ** A file system to run the theorems on

    The layout mkfs gives a disk of 2000 blocks: log at 2, inodes at 32,
    bitmap at 45, data from 46.  Block 46 is the root directory. *)

Definition demo_sb : superblock := Superblock FSMAGIC 2000 1954 200 30 2 32 45.

(** Bits 0 to 46 are set. *)
Definition demo_bitmap : list Z := [255; 255; 255; 255; 255; 127] ++ replicate 1018 0.

(** Inode 1: a directory of 32 bytes in block 46. *)
Definition demo_root : inode := Inode ROOTDEV ROOTINO 1 initsleeplock 1 T_DIR 0 0 1 32 (46 :: replicate 12 0).
Definition demo_inodes : list Z := write_dinode (replicate 1024 0) (dinode_off ROOTINO) demo_root.

(** Its entries [.] and [..]. *)
Definition demo_dir : list Z := dirent_bytes [46] 1 ++ dirent_bytes [46; 46] 1 ++ replicate 992 0.

Definition demo_fdisk (b : Z) : list Z :=
  if b =? 45 then demo_bitmap else if b =? 32 then demo_inodes else if b =? 46 then demo_dir else replicate 1024 0.

Definition demo_flog : log := Log 2 30 1 0 ROOTDEV 0 (replicate 30 0).
Definition demo_fs : fsst := FsSt demo_sb (demo_root :: replicate 49 inode0) (LogSt demo_flog (binit demo_fdisk))
  (PMem (fun _ => 0) 0).

Lemma demo_fdisk_len b : length (demo_fdisk b) = 1024%nat.
Proof. unfold demo_fdisk; repeat case_match; vm_compute; reflexivity. Qed.

Lemma demo_fview b : fview demo_fs b = demo_fdisk b.
Proof. unfold fview; change (bc (lgs demo_fs)) with (binit demo_fdisk); by rewrite view_binit. Qed.

Lemma demo_fs_ok : fs_ok 1 demo_fs [].
Proof.
  split.
  - apply binit_inv, demo_fdisk_len.
  - change (flog demo_fs) with demo_flog; split; [split|done|done]; [done|done|cbn; lia|cbn; lia|cbn; lia| |].
    + constructor.
    + intros b Hb; by apply not_elem_of_nil in Hb.
  - intros i Hi; by apply not_elem_of_nil in Hi.
Qed.

Lemma fctx0 : fctx (Ctx [] []).
Proof. split; [apply bctx0|apply not_elem_of_nil]. Qed.

Lemma demo_layout : layout demo_sb demo_flog.
Proof. split; vm_compute; (split; congruence) || congruence || reflexivity. Qed.

Lemma demo_meta : meta_used (fview demo_fs) demo_sb.
Proof.
  intros b Hb; unfold used; rewrite demo_fview.
  assert (Hc : forallb (fun x => bit_of (demo_fdisk (BBLOCK x demo_sb)) (x mod BPB)) (seqZ 0 46) = true) by (vm_compute; reflexivity).
  rewrite forallb_forall in Hc; specialize (Hc b); cbv beta in Hc; rewrite Hc; [done|].
  apply list_elem_of_In, elem_of_seqZ; change (bmap_end demo_sb) with 46 in Hb; lia.
Qed.

(** ** Correctness of the block allocator *)

Lemma same_place b b' sb : BBLOCK b sb = BBLOCK b' sb -> b mod BPB = b' mod BPB -> b = b'.
Proof.
  unfold BBLOCK; change BPB with 8192; intros H1 H2.
  rewrite (Z.div_mod b 8192), (Z.div_mod b' 8192) by lia; lia.
Qed.

Lemma used_alloc V sb l r b :
  layout sb l -> (forall x, length (V x) = 1024%nat) -> bmap_end sb <= r < sb_size sb -> 0 <= b < sb_size sb ->
  used (upd (upd V (BBLOCK r sb) (set_bit (V (BBLOCK r sb)) (r mod BPB))) r (replicate 1024 0)) sb b
  = bool_decide (b = r) || used V sb b.
Proof.
  intros Hla HV Hr Hb; pose proof (layout_order _ _ Hla); pose proof (bblock_range _ _ b Hla Hb).
  pose proof (Z.mod_pos_bound b BPB eq_refl); pose proof (Z.mod_pos_bound r BPB eq_refl).
  unfold used, upd; rewrite decide_False by lia; case_decide as E.
  - rewrite E, bit_of_set by done; f_equal; apply bool_decide_ext; split; [|by intros ->].
    by apply same_place with sb.
  - rewrite bool_decide_eq_false_2; [done|by intros ->].
Qed.

Lemma used_free V sb l r b :
  layout sb l -> (forall x, length (V x) = 1024%nat) -> 0 <= r < sb_size sb -> 0 <= b < sb_size sb ->
  used (upd V (BBLOCK r sb) (clear_bit (V (BBLOCK r sb)) (r mod BPB))) sb b
  = negb (bool_decide (b = r)) && used V sb b.
Proof.
  intros Hla HV Hr Hb; pose proof (Z.mod_pos_bound b BPB eq_refl); pose proof (Z.mod_pos_bound r BPB eq_refl).
  unfold used, upd; case_decide as E.
  - rewrite E, bit_of_clear by done; do 2 f_equal; apply bool_decide_ext; split; [|by intros ->].
    by apply same_place with sb.
  - rewrite bool_decide_eq_false_2; [done|by intros ->].
Qed.

(** C29: [balloc] is a first-fit allocator over the bitmap: it returns 0 only
    when every block is in use; otherwise it returns the lowest free block,
    a data block, which becomes the only newly used one and reads as zeros,
    and no block other than it and its bitmap block changes.  Only these two
    are logged. *)
Theorem balloc_correct (mypid : Z) (s : fsst) (L : list nat) (c : kctx) (k : nat) :
  fs_ok mypid s L -> fctx c -> layout (sb s) (flog s) -> meta_used (fview s) (sb s) -> data_locked s L ->
  room s k -> (2 <= k)%nat -> (S (length L) <= k)%nat ->
  exists r c' s', balloc mypid ROOTDEV c s = Ret r c' s' /\ held c' = held c /\ fs_ok mypid s' L /\ sb s' = sb s /\
    ((r = 0 /\ (forall b, 0 <= b < sb_size (sb s) -> used (fview s) (sb s) b = true) /\
      forall x, fview s' x = fview s x) \/
     (bmap_end (sb s) <= r < sb_size (sb s) /\ used (fview s) (sb s) r = false /\
      (forall b, 0 <= b < r -> used (fview s) (sb s) b = true) /\
      (forall b, 0 <= b < sb_size (sb s) -> used (fview s') (sb s) b = bool_decide (b = r) || used (fview s) (sb s) b) /\
      fview s' r = replicate 1024 0 /\
      (forall x, x <> r -> x <> BBLOCK r (sb s) -> fview s' x = fview s x) /\
      (forall b, b ∈ logged (flog s') -> b ∈ logged (flog s) \/ b = r \/ b = BBLOCK r (sb s)))).
Proof.
  intros Hok Hc Hla Hm HL Hr Hk HkL.
  destruct (proj1 (wp_elim _ _ _ _) (balloc_spec mypid s L c k Hok Hc Hla Hm HL Hr Hk HkL)) as (r & c' & s' & Hrun & Hpost).
  exists r, c', s'; assert (HV : forall x, length (fview s x) = 1024%nat) by (intros; by eapply length_fview).
  destruct Hpost as [(-> & Hall & P)|(Hr' & Hu & Hbelow & P)]; pose proof (fp_view P) as V'; pose proof (fp_keep P) as K;
    (split; [done|split; [apply P|split; [apply P|split; [apply K|]]]]).
  - left; split_and!; auto.
  - right; split_and!; [lia..|done|done| | | |].
    + intros b Hb; rewrite (used_ext _ _ _ _ V'); by eapply used_alloc.
    + rewrite V'; unfold upd; by rewrite decide_True.
    + intros x Hx1 Hx2; rewrite V'; unfold upd; by rewrite !decide_False.
    + intros b Hb; apply (fk_logged _ _ _ _ K) in Hb; rewrite !elem_of_cons, elem_of_nil in Hb; naive_solver.
Qed.

(** [bfree] of a used block returns it to the allocator: exactly its bit
    is cleared and only its bitmap block changes; of a free block it panics. *)
Theorem bfree_correct (mypid : Z) (s : fsst) (L : list nat) (c : kctx) (b : Z) (k : nat) :
  fs_ok mypid s L -> fctx c -> layout (sb s) (flog s) -> 0 <= b < sb_size (sb s) -> data_locked s L ->
  room s k -> (1 <= k)%nat -> (length L <= k)%nat ->
  if used (fview s) (sb s) b then
    exists c' s', bfree mypid ROOTDEV b c s = Ret tt c' s' /\ held c' = held c /\ fs_ok mypid s' L /\
      (forall x, 0 <= x < sb_size (sb s) ->
         used (fview s') (sb s) x = negb (bool_decide (x = b)) && used (fview s) (sb s) x) /\
      (forall x, x <> BBLOCK b (sb s) -> fview s' x = fview s x)
  else bfree mypid ROOTDEV b c s = Panic "freeing free block".
Proof.
  intros Hok Hc Hla Hb HL Hr Hk HkL; destruct (used (fview s) (sb s) b) eqn:Hu.
  - destruct (proj1 (wp_elim _ _ _ _) (bfree_spec mypid s L c b k Hok Hc Hla Hb HL Hu Hr Hk HkL)) as ([] & c' & s' & Hrun & P).
    exists c', s'; pose proof (fp_view P) as V'; split_and!; auto; try apply P.
    + intros x Hx; rewrite (used_ext _ _ _ _ V'); eapply used_free; eauto; intros; by eapply length_fview.
    + intros x Hx; rewrite V'; unfold upd; by rewrite decide_False.
  - destruct (bblock_block _ _ b Hla Hb) as [Hbk Hbh]; pose proof (bblock_range _ _ b Hla Hb) as Hbr.
    destruct (fbread_spec mypid s L (BBLOCK b (sb s)) c Hok Hc Hbk) as (i & s1 & R1 & _ & _ & _ & _ & _ & _ & D1).
    { intros i Hi; destruct (HL i Hi); lia. }
    { unfold room in Hr; pose proof (ll_size _ (fo_log _ _ _ Hok)); lia. }
    unfold bfree, kbind, kget; rewrite R1; cbn [fdata kbind kget kret]; unfold fdata, kbind, kget, kret.
    unfold fbuf in D1; rewrite D1; unfold used in Hu; by rewrite Hu.
Qed.

Lemma balloc_correct_witness :
  exists r c' s', balloc 1 ROOTDEV (Ctx [] []) demo_fs = Ret r c' s' /\ held c' = [] /\ fs_ok 1 s' [] /\ sb s' = demo_sb /\
    ((r = 0 /\ (forall b, 0 <= b < 2000 -> used (fview demo_fs) demo_sb b = true) /\
      forall x, fview s' x = fview demo_fs x) \/
     (46 <= r < 2000 /\ used (fview demo_fs) demo_sb r = false /\
      (forall b, 0 <= b < r -> used (fview demo_fs) demo_sb b = true) /\
      (forall b, 0 <= b < 2000 -> used (fview s') demo_sb b = bool_decide (b = r) || used (fview demo_fs) demo_sb b) /\
      fview s' r = replicate 1024 0 /\
      (forall x, x <> r -> x <> BBLOCK r demo_sb -> fview s' x = fview demo_fs x) /\
      (forall b, b ∈ logged (flog s') -> b ∈ logged (flog demo_fs) \/ b = r \/ b = BBLOCK r demo_sb))).
Proof.
  apply (balloc_correct 1 demo_fs [] (Ctx [] []) 20);
    [apply demo_fs_ok|apply fctx0|apply demo_layout|apply demo_meta|by intros i Hi%not_elem_of_nil|done|lia|simpl; lia].
Defined.

Lemma bfree_correct_witness :
  if used (fview demo_fs) demo_sb 46 then
    exists c' s', bfree 1 ROOTDEV 46 (Ctx [] []) demo_fs = Ret tt c' s' /\ held c' = [] /\ fs_ok 1 s' [] /\
      (forall x, 0 <= x < 2000 ->
         used (fview s') demo_sb x = negb (bool_decide (x = 46)) && used (fview demo_fs) demo_sb x) /\
      (forall x, x <> BBLOCK 46 demo_sb -> fview s' x = fview demo_fs x)
  else bfree 1 ROOTDEV 46 (Ctx [] []) demo_fs = Panic "freeing free block".
Proof.
  apply (bfree_correct 1 demo_fs [] (Ctx [] []) 46 20);
    [apply demo_fs_ok|apply fctx0|apply demo_layout|vm_compute; split; congruence|by intros i Hi%not_elem_of_nil|done|lia|simpl; lia].
Defined.

(** C35: the space [begin_op] reserves is not enough.  From any state with no
    operation under way and a log of LOGSIZE = 30 blocks (the size mkfs
    gives it) begin_op admits three operations and no fourth.  Let them log
    any 30 = 3 * MAXOPBLOCKS different blocks, in any order, as their
    reservations allow: the first 29 calls of [bzero] succeed and the last
    one panics in log_write. *)
Theorem log_reservation_insufficient mypid s c bs :
  bio_inv mypid (bc (lgs s)) [] [] -> log_ok (flog s) -> lh_n (flog s) = 0 -> outstanding (flog s) = 0 ->
  committing (flog s) = 0 -> Log.size (flog s) = LOGSIZE -> held c = [] ->
  Z.of_nat (length bs) = 3 * MAXOPBLOCKS -> NoDup bs -> Forall (fun b => blkno b /\ home (flog s) b) bs ->
  exists s3,
    zoom lgs_of (begin_op ;;; begin_op ;;; begin_op) c s = Ret tt c s3 /\ outstanding (flog s3) = 3 /\
    zoom lgs_of begin_op c s3 = Sleep O_log (push_lock O_log c) s3 /\
    (forall k, (k <= 29)%nat -> exists c' s', bzero_all mypid (take k bs) c s3 = Ret tt c' s' /\ lh_n (flog s') = Z.of_nat k) /\
    bzero_all mypid bs c s3 = Panic "too big a transaction".
Proof.
  intros Hbio Hl Hn Ho Hcm Hsz Hc0 Hlen Hnd Hbs; change MAXOPBLOCKS with 10 in *; change LOGSIZE with 30 in Hsz.
  assert (Hc : fctx c) by (eapply fctx_held; [|apply fctx0]; done).
  assert (Hnil : logged (flog s) = []) by (unfold logged; by rewrite Hn).
  set (s3 := FsSt (sb s) (itable s) (LogSt (set_outstanding 3 (flog s)) (bc (lgs s))) (um s)); exists s3.
  assert (Hok : fs_ok mypid s3 []).
  { split; [unfold s3, flog; cbn; rewrite <- Hnil in Hbio; exact Hbio| |by intros ? ?%not_elem_of_nil].
    split; [destruct Hl; by split|done|by rewrite <- Hsz]. }
  assert (Hall : forall k, (k <= 29)%nat -> exists c' s', bzero_all mypid (take k bs) c s3 = Ret tt c' s' /\ held c' = held c /\
    fs_ok mypid s' [] /\ Log.size (flog s') = 30 /\ lh_n (flog s') = Z.of_nat k).
  { intros k Hk; destruct (bzero_all_logs mypid (take k bs) s3 c) as (c' & s' & R & Hh & Hok' & _ & E2 & E3); auto.
    - by apply Forall_take.
    - change (logged (flog s3)) with (logged (flog s)); rewrite Hnil; eapply sublist_NoDup; [exact Hnd|apply sublist_take].
    - unfold room; change (lh_n (flog s3)) with (lh_n (flog s)); change (Log.size (flog s3)) with (Log.size (flog s)).
      rewrite length_take; lia.
    - exists c', s'; split_and!; auto; [by rewrite E2|rewrite E3]; change (lh_n (flog s3)) with (lh_n (flog s)); rewrite length_take; lia. }
  destruct s as [sb0 it [l b] u]; unfold flog in *; cbn [lgs lg] in *; split_and!; [|done| | |].
  - etransitivity; [apply zoom_run, begin_three; [apply Hc|done..]|done].
  - unfold zoom; cbn [lget lgs_of lgs s3]; rewrite begin_blocks; [done|done|done|]; cbn; by rewrite Hn.
  - intros k Hk; destruct (Hall k Hk) as (c' & s' & R & _ & _ & _ & E); eauto.
  - destruct (Hall 29%nat ltac:(lia)) as (c' & s' & R & Hh & Hok' & E1 & E2).
    destruct (lookup_lt_is_Some_2 bs 29) as [x Hx]; [lia|].
    rewrite <- (take_drop 29 bs), (drop_S _ x) by done; rewrite drop_ge by lia.
    rewrite (bzero_all_app _ _ _ _ _ _ _ R); unfold kbind; rewrite bzero_full; auto; [by eapply fctx_held|apply (Forall_lookup_1 _ _ _ _ Hbs Hx)|].
    unfold flog in *; lia.
Qed.

(** The file system above with no operation under way. *)
Definition demo_quiet : fsst := FsSt demo_sb [] (LogSt (Log 2 30 0 0 ROOTDEV 0 (replicate 30 0)) (binit demo_fdisk)) (PMem (fun _ => 0) 0).

Lemma log_reservation_insufficient_witness :
  exists s3,
    zoom lgs_of (begin_op ;;; begin_op ;;; begin_op) (Ctx [] []) demo_quiet = Ret tt (Ctx [] []) s3 /\ outstanding (flog s3) = 3 /\
    zoom lgs_of begin_op (Ctx [] []) s3 = Sleep O_log (Ctx [O_log] []) s3 /\
    (forall k, (k <= 29)%nat ->
       exists c' s', bzero_all 1 (take k (seqZ 100 30)) (Ctx [] []) s3 = Ret tt c' s' /\ lh_n (flog s') = Z.of_nat k) /\
    bzero_all 1 (seqZ 100 30) (Ctx [] []) s3 = Panic "too big a transaction".
Proof.
  apply (log_reservation_insufficient 1 demo_quiet (Ctx [] []) (seqZ 100 30)); try reflexivity.
  - apply binit_inv, demo_fdisk_len.
  - split; [done|done|cbn; lia|cbn; lia|cbn; lia|constructor|by intros b Hb%not_elem_of_nil].
  - apply NoDup_seqZ.
  - apply Forall_forall; intros b Hb%elem_of_seqZ; unfold blkno, home; cbn; lia.
Defined.
