(* ===== verification/FsInode.v ===== *)
(** * Inodes of fs.c: the on-disk form, iupdate and ilock, iget *)

From S2P Require Import Prelude CMem KString Riscv Kalloc Vm Locks Block Bio BioInv BioSpec Log LogSpec LogCrash Fs FsBase FsAlloc.

(** ** struct dinode *)

Lemma length_put_addrs l d o : (o + 4 * length l <= length d)%nat -> length (put_addrs l d o) = length d.
Proof.
  revert d o; induction l as [|a l IH]; intros d o H; simpl in *; [done|].
  rewrite IH; rewrite length_put32; lia.
Qed.

Lemma slice_put_addrs l d o o' n :
  (o + 4 * length l <= length d)%nat -> (o' + n <= o \/ o + 4 * length l <= o')%nat ->
  slice (put_addrs l d o) o' n = slice d o' n.
Proof.
  revert d o; induction l as [|a l IH]; intros d o H Hd; simpl in *; [done|].
  rewrite IH by (rewrite ?length_put32; lia); unfold put32.
  apply slice_splice_disj; rewrite length_le_encode; lia.
Qed.

Lemma get_addrs_put l d o :
  (o + 4 * length l <= length d)%nat -> get_addrs (length l) (put_addrs l d o) o = u32 <$> l.
Proof.
  revert d o; induction l as [|a l IH]; intros d o H; simpl in *; [done|].
  rewrite IH by (rewrite length_put32; lia); f_equal; unfold get32.
  rewrite slice_put_addrs by (rewrite ?length_put32; lia).
  fold (get32 (put32 d o a) o); apply get32_put32_same; lia.
Qed.

Lemma get_addrs_ext n d d' o : (forall i, (i < 4 * n)%nat -> d !! (o + i)%nat = d' !! (o + i)%nat) -> get_addrs n d o = get_addrs n d' o.
Proof.
  revert o; induction n as [|n IH]; intros o H; simpl; [done|]; f_equal.
  - unfold get32; f_equal; apply list_eq; intros i; rewrite !lookup_slice; case_decide; [apply H; lia|done].
  - apply IH; intros i Hi; specialize (H (4 + i)%nat ltac:(lia)).
    by replace (o + 4 + i)%nat with (o + (4 + i))%nat by lia.
Qed.

(** An in-memory inode whose fields have the range of their C types. *)
Record inode_ok (x : inode) : Prop := InodeOk {
  io_type : - 2 ^ 15 <= i_type x < 2 ^ 15;
  io_major : - 2 ^ 15 <= i_major x < 2 ^ 15;
  io_minor : - 2 ^ 15 <= i_minor x < 2 ^ 15;
  io_nlink : - 2 ^ 15 <= i_nlink x < 2 ^ 15;
  io_size : 0 <= i_size x < 2 ^ 32;
  io_len : length (i_addrs x) = 13%nat;
  io_addrs : Forall (fun a => 0 <= a < 2 ^ 32) (i_addrs x)
}.

(** The fields of [x] that are on disk, in [y]. *)
Definition with_dinode (x y : inode) : inode :=
  Inode (i_dev y) (i_inum y) (i_ref y) (i_lock y) (i_valid y) (i_type x) (i_major x) (i_minor x) (i_nlink x)
    (i_size x) (i_addrs x).

Lemma length_write_dinode d o x : (o + 64 <= length d)%nat -> length (i_addrs x) = 13%nat -> length (write_dinode d o x) = length d.
Proof.
  intros H Hl; unfold write_dinode.
  rewrite length_put_addrs; rewrite length_put32; rewrite ?length_put16; rewrite ?length_put16; rewrite ?length_put16; rewrite ?length_put16; lia.
Qed.

Lemma i16_u16 x : - 2 ^ 15 <= x < 2 ^ 15 -> i16 (u16 x) = x.
Proof.
  intros H; unfold i16, u16; rewrite Z.add_mod_idemp_l by lia; rewrite Z.mod_small by lia; lia.
Qed.

(** Lengths, and reads past writes elsewhere in a block. *)
Lemma get16_put32_disj d o v o' :
  (o + 4 <= length d)%nat -> (o' + 2 <= o \/ o + 4 <= o')%nat -> get16 (put32 d o v) o' = get16 d o'.
Proof. intros; unfold get16, put32; by rewrite slice_splice_disj by (rewrite ?length_le_encode; lia). Qed.

Lemma get16_put_addrs l d o o' :
  (o + 4 * length l <= length d)%nat -> (o' + 2 <= o)%nat -> get16 (put_addrs l d o) o' = get16 d o'.
Proof. intros; unfold get16; by rewrite slice_put_addrs by lia. Qed.

Lemma get32_put_addrs l d o o' :
  (o + 4 * length l <= length d)%nat -> (o' + 4 <= o)%nat -> get32 (put_addrs l d o) o' = get32 d o'.
Proof. intros; unfold get32; by rewrite slice_put_addrs by lia. Qed.

Ltac len := repeat first [rewrite length_put_addrs | rewrite length_put32 | rewrite length_put16]; lia.

Lemma read_write_dinode d o x y :
  inode_ok x -> (o + 64 <= length d)%nat -> read_dinode (write_dinode d o x) o y = with_dinode x y.
Proof.
  intros Hx Ho; pose proof (io_len _ Hx) as Hl; unfold read_dinode, write_dinode, with_dinode; f_equal.
  - rewrite get16_put_addrs, get16_put32_disj, !get16_put16_disj, get16_put16_same by len.
    apply i16_u16, Hx.
  - rewrite get16_put_addrs, get16_put32_disj, !get16_put16_disj, get16_put16_same by len.
    apply i16_u16, Hx.
  - rewrite get16_put_addrs, get16_put32_disj, !get16_put16_disj, get16_put16_same by len.
    apply i16_u16, Hx.
  - rewrite get16_put_addrs, get16_put32_disj, get16_put16_same by len; apply i16_u16, Hx.
  - rewrite get32_put_addrs, get32_put32_same by len; apply u32_small, Hx.
  - rewrite <- Hl, get_addrs_put by len; destruct Hx as [_ _ _ _ _ _ Ha].
    rewrite <- list_fmap_id; apply list_fmap_ext; intros i a Hi.
    rewrite Forall_lookup in Ha; by apply u32_small, (Ha i).
Qed.

(** Writing one inode leaves the others of the block alone. *)
Lemma lookup_write_dinode d o x i :
  (o + 64 <= length d)%nat -> length (i_addrs x) = 13%nat -> (i < o \/ o + 64 <= i)%nat ->
  write_dinode d o x !! i = d !! i.
Proof.
  intros Ho Hl Hi; pose proof (length_write_dinode d o x Ho Hl) as Hlen.
  destruct (decide (i < length d)%nat) as [Hlt|]; [|rewrite !lookup_ge_None_2 by lia; done].
  assert (Hsl : slice (write_dinode d o x) i 1 = slice d i 1).
  { unfold write_dinode; rewrite slice_put_addrs by len; unfold put32 at 1.
    rewrite slice_splice_disj by (rewrite ?length_le_encode; len); unfold put16 at 1.
    rewrite slice_splice_disj by (rewrite ?length_le_encode; len); unfold put16 at 1.
    rewrite slice_splice_disj by (rewrite ?length_le_encode; len); unfold put16 at 1.
    rewrite slice_splice_disj by (rewrite ?length_le_encode; len); unfold put16 at 1.
    by rewrite slice_splice_disj by (rewrite ?length_le_encode; len). }
  pose proof (f_equal (fun l => l !! 0%nat) Hsl) as H0; cbv beta in H0; rewrite !lookup_slice in H0.
  rewrite !decide_True in H0 by lia; by rewrite Nat.add_0_r in H0.
Qed.

Lemma read_dinode_ext d d' o y :
  (forall i, (i < 64)%nat -> d !! (o + i)%nat = d' !! (o + i)%nat) -> read_dinode d o y = read_dinode d' o y.
Proof.
  intros H; assert (Hs : forall p n, (p + n <= 64)%nat -> slice d (o + p) n = slice d' (o + p) n).
  { intros p n Hp; apply list_eq; intros i; rewrite !lookup_slice; case_decide; [|done].
    rewrite <- !Nat.add_assoc; apply H; lia. }
  unfold read_dinode, get16, get32.
  pose proof (Hs 0 2 ltac:(lia))%nat as H0; rewrite Nat.add_0_r in H0.
  rewrite H0, (Hs 2 2)%nat, (Hs 4 2)%nat, (Hs 6 2)%nat, (Hs 8 4)%nat by lia; f_equal.
  apply get_addrs_ext; intros i Hi; rewrite <- !Nat.add_assoc; apply H; lia.
Qed.

Lemma dinode_off_range inum : (dinode_off inum + 64 <= 1024)%nat.
Proof. unfold dinode_off; change IPB with 16; pose proof (Z.mod_pos_bound inum 16); lia. Qed.

Lemma dinode_off_disj i j :
  i / IPB = j / IPB -> i <> j -> (dinode_off i + 64 <= dinode_off j \/ dinode_off j + 64 <= dinode_off i)%nat.
Proof.
  unfold dinode_off; change IPB with 16; intros Hd Hne.
  pose proof (Z.div_mod i 16); pose proof (Z.div_mod j 16); pose proof (Z.mod_pos_bound i 16); pose proof (Z.mod_pos_bound j 16).
  assert (i mod 16 <> j mod 16) by lia; lia.
Qed.

Lemma iblock_range sb l i :
  layout sb l -> 0 <= i < sb_ninodes sb -> sb_inodestart sb <= IBLOCK i sb < sb_bmapstart sb.
Proof.
  intros [A1 A0 A2 A3 A4 A5 A6] Hi; unfold IBLOCK; change IPB with 16 in *.
  pose proof (Z.div_pos i 16); pose proof (Z.div_le_mono i (sb_ninodes sb) 16); lia.
Qed.

Lemma iblock_block sb l i :
  layout sb l -> 0 <= i < sb_ninodes sb -> blkno (IBLOCK i sb) /\ home l (IBLOCK i sb).
Proof.
  intros Hla Hi; pose proof (iblock_range _ _ _ Hla Hi); pose proof (layout_order _ _ Hla).
  apply (layout_block sb); [done|lia].
Qed.

Lemma get_upd_inode ip f s : (ip < length (itable s))%nat -> get_inode ip (upd_inode ip f s) = f (get_inode ip s).
Proof.
  intros Hi; unfold get_inode, upd_inode; cbn [itable]; rewrite list_lookup_alter_eq.
  by destruct (lookup_lt_is_Some_2 _ _ Hi) as [x ->].
Qed.

Lemma get_inode_itable ip s s' : itable s' = itable s -> get_inode ip s' = get_inode ip s.
Proof. unfold get_inode; by intros ->. Qed.

Lemma alter_alter {A} (f g : A -> A) i (l : list A) : alter f i (alter g i l) = alter (fun x => f (g x)) i l.
Proof.
  apply list_eq; intros j; destruct (decide (i = j)) as [<-|]; [|by rewrite !list_lookup_alter_ne].
  rewrite !list_lookup_alter_eq; by destruct (l !! i).
Qed.

Section inode.
Variable mypid : Z.
#[local] Abbreviation fs_ok := (fs_ok mypid).
#[local] Abbreviation fpost := (fpost mypid).

Lemma fs_ok_upd ip f s L : fs_ok s L -> fs_ok (upd_inode ip f s) L.
Proof. intros [H1 H2 H3]; by split. Qed.

Lemma iupdate_spec s L ip c k :
  let x := get_inode ip s in
  fs_ok s L -> fctx c -> layout (sb s) (flog s) -> data_locked s L ->
  i_dev x = ROOTDEV -> 0 <= i_inum x < sb_ninodes (sb s) -> length (i_addrs x) = 13%nat ->
  room s k -> (1 <= k)%nat -> (length L <= k)%nat ->
  wp (iupdate mypid ip)
     (fun _ => fpost c s L L [IBLOCK (i_inum x) (sb s)]
        (upd (fview s) (IBLOCK (i_inum x) (sb s))
           (write_dinode (fview s (IBLOCK (i_inum x) (sb s))) (dinode_off (i_inum x)) x))) c s.
Proof.
  intros x Hok Hc Hla HL Hdev Hin Hlen Hr Hk HkL; unfold iupdate; apply wp_bind, wp_get; fold x; cbv zeta; rewrite Hdev.
  destruct (iblock_block _ _ _ Hla Hin) as [Hbk Hbh]; pose proof (iblock_range _ _ _ Hla Hin) as Hbr.
  pose proof (layout_order _ _ Hla); apply wp_bind; eapply wp_fbread; eauto.
  { intros i Hi; destruct (HL i Hi); lia. }
  intros i s1 Hi P1 Hf Hbn Hd; apply wp_bind, wp_fdata; rewrite Hd; apply wp_bind, wp_get.
  rewrite (get_inode_itable ip s s1) by (apply (fk_itable (fp_keep P1))); fold x.
  eapply (wp_fcommit _ _ L); rewrite ?Hbn, ?Hf; auto; try apply P1.
  - pose proof (length_fview mypid s L (IBLOCK (i_inum x) (sb s)) Hok) as Hfl.
    rewrite length_write_dinode; [done| |done]; rewrite Hfl; apply dinode_off_range.
  - eapply (fpost_room Hok P1), room_le; eauto.
  - intros c2 s2 P2; eapply fpost_weaken; [exact (fpost_read P1 P2)|done|].
    intros y; unfold upd; by rewrite (fp_view P1).
Qed.

(** The entry after [ilock] has read the inode from disk. *)
Definition loaded (d : list Z) (x : inode) : inode :=
  let x := Inode (i_dev x) (i_inum x) (i_ref x) (SL 1 mypid) (i_valid x) (i_type x) (i_major x) (i_minor x)
             (i_nlink x) (i_size x) (i_addrs x) in
  set_ivalid 1 (read_dinode d (dinode_off (i_inum x)) x).

Lemma ilock_load_spec s L ip c k :
  let x := get_inode ip s in
  let d := fview s (IBLOCK (i_inum x) (sb s)) in
  fs_ok s L -> fctx c -> O_inodelk ip ∉ held c -> layout (sb s) (flog s) -> data_locked s L ->
  (ip < length (itable s))%nat ->
  i_dev x = ROOTDEV -> 0 <= i_inum x < sb_ninodes (sb s) -> 1 <= i_ref x -> locked (i_lock x) = 0 -> i_valid x = 0 ->
  room s k -> (length L <= k)%nat -> i_type (loaded d x) <> 0 ->
  wp (ilock mypid ip) (fun _ c' s' => held c' = held c /\ fs_ok s' L /\ itable s' = alter (loaded d) ip (itable s) /\
    sb s' = sb s /\ start (flog s') = start (flog s) /\ Log.size (flog s') = Log.size (flog s) /\
    (forall k, room s k -> room s' k) /\ forall b, fview s' b = fview s b) c s.
Proof.
  intros x d Hok Hc Hlk Hla HL Hip Hdev Hin Href Hfree Hval Hr HkL Hty.
  unfold ilock; apply wp_bind, wp_get; fold x; replace (i_ref x <? 1) with false by lia.
  set (s1 := lset (inode_lock ip) (SL 1 mypid) s).
  assert (Hx1 : get_inode ip s1 = Inode (i_dev x) (i_inum x) (i_ref x) (SL 1 mypid) (i_valid x) (i_type x) (i_major x)
    (i_minor x) (i_nlink x) (i_size x) (i_addrs x)) by (unfold s1; cbn [lset inode_lock]; by rewrite get_upd_inode).
  apply wp_bind; unfold wp at 1; rewrite acquiresleep_free by done; fold s1.
  apply wp_bind, wp_get; rewrite Hx1; cbn [i_valid i_inum i_dev]; rewrite Hval, Z.eqb_refl, Hdev; cbv zeta.
  destruct (iblock_block _ _ _ Hla Hin) as [Hbk _]; pose proof (iblock_range _ _ _ Hla Hin) as Hbr.
  pose proof (layout_order _ _ Hla); change (sb s1) with (sb s).
  apply wp_bind; eapply (wp_fbread _ s1 L); [by apply fs_ok_upd|done|done| |exact Hr|done|].
  { intros i Hi; destruct (HL i Hi); change (fbuf i s1) with (fbuf i s); lia. }
  intros i s2 Hi P2 Hf Hbn Hd; apply wp_bind, wp_fdata; rewrite Hd; change (fview s1) with (fview s); fold d.
  apply wp_bind, wp_mod; set (s3 := upd_inode ip _ s2); apply wp_bind.
  eapply (wp_fbrelse _ s3 L); [by apply fs_ok_upd, P2|done|done|].
  intros c4 s4 P4; apply wp_bind, wp_mod, wp_bind, wp_get.
  pose proof (fk_itable (fp_keep P2)) as T2; pose proof (fk_itable (fp_keep P4)) as T4.
  set (s5 := upd_inode ip (set_ivalid 1) s4).
  assert (HT : itable s5 = alter (loaded d) ip (itable s)).
  { unfold s5, upd_inode; cbn [itable]; rewrite T4; unfold s3, upd_inode; cbn [itable]; rewrite T2.
    unfold s1; cbn [lset inode_lock]; unfold upd_inode; cbn [itable].
    rewrite !alter_alter; apply list_eq; intros j.
    destruct (decide (ip = j)) as [<-|]; [rewrite !list_lookup_alter_eq|by rewrite !list_lookup_alter_ne].
    destruct (itable s !! ip) as [y|] eqn:Hy; cbn [fmap option_fmap option_map]; [|done].
    unfold loaded; cbn [i_inum]; do 3 f_equal; unfold x, get_inode; by rewrite Hy. }
  assert (Hg5 : get_inode ip s5 = loaded d x).
  { unfold get_inode; rewrite HT, list_lookup_alter_eq; unfold x, get_inode.
    by destruct (lookup_lt_is_Some_2 _ _ Hip) as [y ->]. }
  rewrite Hg5; replace (i_type (loaded d x) =? 0) with false by lia; apply wp_ret; split_and!.
  - apply P4.
  - apply fs_ok_upd, P4.
  - done.
  - rewrite <- (fk_sb (fp_keep P2) : sb s2 = sb s); apply (fk_sb (fp_keep P4)).
  - rewrite <- (fk_start (fp_keep P2) : start (flog s2) = start (flog s)); apply (fk_start (fp_keep P4)).
  - rewrite <- (fk_size (fp_keep P2) : Log.size (flog s2) = Log.size (flog s)); apply (fk_size (fp_keep P4)).
  - intros k' Hk'; change (room s4 k'); eapply (fpost_room (fs_ok_upd _ _ _ _ (fp_ok P2)) P4).
    change (room s2 k'); by eapply (fpost_room (fs_ok_upd _ _ _ _ Hok) P2).
  - intros b; change (fview s5 b) with (fview s4 b); rewrite (fp_view P4); apply (fp_view P2).
Qed.
End inode.

(** ** The inode table *)

(** No inode has two entries in use. *)
Record itable_ok (T : list inode) : Prop := ItableOk {
  it_len : length T = 50%nat;
  it_ref : forall i x, T !! i = Some x -> 0 <= i_ref x < 2 ^ 31 - 1;
  it_uniq : forall i j x y, T !! i = Some x -> T !! j = Some y -> 0 < i_ref x -> 0 < i_ref y ->
    i_dev x = i_dev y -> i_inum x = i_inum y -> i = j
}.

Definition in_use (T : list inode) (dev inum : Z) (i : nat) : Prop :=
  exists x, T !! i = Some x /\ 0 < i_ref x /\ i_dev x = dev /\ i_inum x = inum.

Lemma iget_scan_spec l i e dev inum :
  (forall k x, l !! k = Some x -> 0 <= i_ref x) ->
  match iget_scan l i e dev inum with
  | inl ip => exists k x, (ip = i + k)%nat /\ l !! k = Some x /\ 0 < i_ref x /\ i_dev x = dev /\ i_inum x = inum
  | inr r => (forall k x, l !! k = Some x -> ~ (0 < i_ref x /\ i_dev x = dev /\ i_inum x = inum)) /\
      match r with
      | None => e = None /\ forall k x, l !! k = Some x -> 0 < i_ref x
      | Some ip => e = Some ip \/ exists k x, (ip = i + k)%nat /\ l !! k = Some x /\ i_ref x = 0
      end
  end.
Proof.
  revert i e; induction l as [|x l IH]; intros i e Href; cbn [iget_scan].
  { split; [done|]; destruct e; [by left|done]. }
  destruct (_ && _ && _) eqn:E.
  { exists 0%nat, x; split_and!; [lia|done|lia..]. }
  pose proof (Href 0%nat x eq_refl) as Hx0.
  specialize (IH (S i) (match e with None => if i_ref x =? 0 then Some i else None | Some _ => e end)).
  destruct (iget_scan l (S i) _ dev inum) as [ip|r].
  - destruct IH as (k & y & -> & Hk & Hy); [intros k y; apply (Href (S k))|]; exists (S k), y; split_and!; [lia|done|apply Hy..].
  - destruct IH as [Hno Hr]; [intros k y; apply (Href (S k))|]; split.
    { intros [|k] y Hk; [injection Hk as <-; lia|by apply (Hno k)]. }
    destruct r as [ip|].
    + destruct Hr as [He|(k & y & -> & Hk & Hy)]; [|right; exists (S k), y; split_and!; [lia|done..]].
      destruct e as [e|]; [by left|]; destruct (Z.eqb_spec (i_ref x) 0); [|done]; injection He as <-.
      right; exists 0%nat, x; split_and!; [lia|done..].
    + destruct Hr as [He Hk]; destruct e as [e|]; [done|]; split; [done|].
      destruct (Z.eqb_spec (i_ref x) 0); [done|]; intros [|k] y Hy; [injection Hy as <-; lia|by eapply Hk].
Qed.

Lemma itable_ok_alter T ip f x :
  itable_ok T -> T !! ip = Some x -> 0 < i_ref (f x) < 2 ^ 31 - 1 ->
  (forall j, in_use T (i_dev (f x)) (i_inum (f x)) j -> j = ip) -> itable_ok (alter f ip T).
Proof.
  intros [H1 H2 H3] Hx Hr Hu; split.
  - by rewrite length_alter.
  - intros i y; destruct (decide (ip = i)) as [<-|]; [rewrite list_lookup_alter_eq, Hx; intros [= <-]; lia|].
    rewrite list_lookup_alter_ne by done; apply H2.
  - intros i j y z; destruct (decide (ip = i)) as [<-|Hi], (decide (ip = j)) as [<-|Hj];
      rewrite ?list_lookup_alter_eq, ?list_lookup_alter_ne, ?Hx by done; auto.
    + intros [= <-] Hz _ Hz0 E1 E2; symmetry; apply Hu; exists z; auto.
    + intros Hy [= <-] Hy0 _ E1 E2; apply Hu; exists y; auto.
    + apply H3.
Qed.

(** [iget] keeps at most one table entry per inode: an inode in the table
    is shared with one more reference, any other takes a free entry that is
    marked not yet read; no other entry changes.  It panics exactly when the
    inode has no entry and all fifty are in use. *)
Theorem iget_correct (s : fsst) (c : kctx) (dev inum : Z) :
  itable_ok (itable s) -> O_itable ∉ held c ->
  (forall i x, itable s !! i = Some x -> i_ref x < 2 ^ 31 - 2) ->
  match iget dev inum c s with
  | Ret ip c' s' =>
      c' = c /\ itable_ok (itable s') /\ in_use (itable s') dev inum ip /\
      sb s' = sb s /\ lgs s' = lgs s /\ um s' = um s /\
      (forall j, j <> ip -> itable s' !! j = itable s !! j) /\
      exists x, itable s !! ip = Some x /\
        ((in_use (itable s) dev inum ip /\ get_inode ip s' = set_ref (i_ref x + 1) x) \/
         (i_ref x = 0 /\ i_valid (get_inode ip s') = 0 /\ i_ref (get_inode ip s') = 1 /\
          forall j, ~ in_use (itable s) dev inum j))
  | Panic msg => msg = "iget: no inodes" /\ forall j x, itable s !! j = Some x ->
      0 < i_ref x /\ ~ (i_dev x = dev /\ i_inum x = inum)
  | _ => False
  end.
Proof.
  intros Hok Hlk Href; unfold iget, kbind; rewrite acquire_run by done; unfold kget.
  pose proof (iget_scan_spec (itable s) 0 None dev inum (fun k x H => proj1 (it_ref _ Hok k x H))) as Hscan.
  destruct (iget_scan _ _ _ _ _) as [ip|[ip|]].
  - destruct Hscan as (k & x & -> & Hx & Hr & Hd & Hi); unfold kmod, kret; rewrite release_run; change (0 + k)%nat with k.
    specialize (Href k x Hx); assert (Hi32 : i32 (i_ref x + 1) = i_ref x + 1) by (apply i32_small; lia).
    assert (Hg : itable (upd_inode k (fun x => set_ref (i32 (i_ref x + 1)) x) s) !! k = Some (set_ref (i_ref x + 1) x)).
    { unfold upd_inode; cbn [itable]; rewrite list_lookup_alter_eq, Hx; cbn; by rewrite Hi32. }
    split_and!; auto.
    + apply (itable_ok_alter _ k _ x Hok Hx); cbn [set_ref i_ref i_dev i_inum]; [lia|].
      intros j (y & Hy & Hy0 & E1 & E2); apply (it_uniq _ Hok j k y x); auto; congruence.
    + exists (set_ref (i_ref x + 1) x); cbn [set_ref i_ref i_dev i_inum]; split_and!; auto; lia.
    + intros j Hj; unfold upd_inode; cbn [itable]; by rewrite list_lookup_alter_ne.
    + exists x; split; [done|left]; split; [by exists x|]; unfold get_inode; by rewrite Hg.
  - destruct Hscan as [Hno [?|(k & x & -> & Hx & Hr)]]; [done|]; unfold kmod, kret; rewrite release_run; change (0 + k)%nat with k.
    set (f := fun x => Inode dev inum 1 _ 0 _ _ _ _ _ _).
    assert (Hg : itable (upd_inode k f s) !! k = Some (f x)) by (unfold upd_inode; cbn [itable]; by rewrite list_lookup_alter_eq, Hx).
    split_and!; auto.
    + apply (itable_ok_alter _ k _ x Hok Hx); cbn [f i_ref i_dev i_inum]; [lia|].
      intros j (y & Hy & Hy0 & E1 & E2); by destruct (Hno j y Hy).
    + exists (f x); split_and!; auto; cbn; lia.
    + intros j Hj; unfold upd_inode; cbn [itable]; by rewrite list_lookup_alter_ne.
    + exists x; split; [done|right]; unfold get_inode; rewrite Hg; split_and!; auto.
      intros j (y & Hy & Hy0); by destruct (Hno j y Hy).
  - destruct Hscan as [Hno [_ Hall]]; split; [done|]; intros j x Hx; specialize (Hall j x Hx); split; [done|].
    intros [E1 E2]; by apply (Hno j x Hx).
Qed.

Lemma demo_itable_ok : itable_ok (itable demo_fs).
Proof.
  assert (Hl : forall i x, itable demo_fs !! i = Some x -> (i = 0%nat /\ x = demo_root) \/ x = inode0).
  { intros [|i] x; [intros [= <-]; by left|]; intros Hx; right; change (replicate 49 inode0 !! i = Some x) in Hx.
    by apply lookup_replicate in Hx as [-> _]. }
  split; [done| |].
  - intros i x [(_ & ->)| ->]%Hl; cbn; lia.
  - intros i j x y [(-> & ->)| ->]%Hl [(-> & ->)| ->]%Hl; cbn; done || lia.
Qed.

Lemma iget_correct_witness :
  match iget ROOTDEV 7 (Ctx [] []) demo_fs with
  | Ret ip c' s' =>
      c' = Ctx [] [] /\ itable_ok (itable s') /\ in_use (itable s') ROOTDEV 7 ip /\
      sb s' = sb demo_fs /\ lgs s' = lgs demo_fs /\ um s' = um demo_fs /\
      (forall j, j <> ip -> itable s' !! j = itable demo_fs !! j) /\
      exists x, itable demo_fs !! ip = Some x /\
        ((in_use (itable demo_fs) ROOTDEV 7 ip /\ get_inode ip s' = set_ref (i_ref x + 1) x) \/
         (i_ref x = 0 /\ i_valid (get_inode ip s') = 0 /\ i_ref (get_inode ip s') = 1 /\
          forall j, ~ in_use (itable demo_fs) ROOTDEV 7 j))
  | Panic msg => msg = "iget: no inodes" /\ forall j x, itable demo_fs !! j = Some x ->
      0 < i_ref x /\ ~ (i_dev x = ROOTDEV /\ i_inum x = 7)
  | _ => False
  end.
Proof.
  apply (iget_correct demo_fs (Ctx [] []) ROOTDEV 7); [apply demo_itable_ok|apply not_elem_of_nil|].
  intros [|i] x; [intros [= <-]; cbn; lia|]; intros Hx; change (replicate 49 inode0 !! i = Some x) in Hx.
  apply lookup_replicate in Hx as [-> _]; cbn; lia.
Defined.

(** C33: [iupdate] followed, after any reuse of the inode table, by the
    [ilock] of an entry for the same inode gives back every field that lives
    on disk, and the on-disk form of every other inode is untouched. *)
Theorem inode_roundtrip (mypid : Z) (s : fsst) (L : list nat) (ip : nat) (c : kctx) (k : nat) :
  let x := get_inode ip s in
  fs_ok mypid s L -> fctx c -> layout (sb s) (flog s) -> data_locked s L ->
  i_dev x = ROOTDEV -> 0 <= i_inum x < sb_ninodes (sb s) -> inode_ok x -> i_type x <> 0 ->
  room s (S k) -> (length L <= k)%nat ->
  exists c1 s1, iupdate mypid ip c s = Ret tt c1 s1 /\ held c1 = held c /\ fs_ok mypid s1 L /\
    (forall inum y, 0 <= inum < sb_ninodes (sb s) -> inum <> i_inum x ->
       read_dinode (fview s1 (IBLOCK inum (sb s))) (dinode_off inum) y =
       read_dinode (fview s (IBLOCK inum (sb s))) (dinode_off inum) y) /\
    forall T j y, T !! j = Some y -> i_dev y = ROOTDEV -> i_inum y = i_inum x -> 1 <= i_ref y ->
      locked (i_lock y) = 0 -> i_valid y = 0 -> O_inodelk j ∉ held c ->
      exists c2 s2, ilock mypid j c1 (FsSt (sb s1) T (lgs s1) (um s1)) = Ret tt c2 s2 /\
        i_valid (get_inode j s2) = 1 /\ i_inum (get_inode j s2) = i_inum x /\
        i_type (get_inode j s2) = i_type x /\ i_major (get_inode j s2) = i_major x /\
        i_minor (get_inode j s2) = i_minor x /\ i_nlink (get_inode j s2) = i_nlink x /\
        i_size (get_inode j s2) = i_size x /\ i_addrs (get_inode j s2) = i_addrs x.
Proof.
  intros x Hok Hc Hla HL Hdev Hin Hx Hty Hr HkL; pose proof (io_len _ Hx) as Hlen.
  destruct (proj1 (wp_elim _ _ _ _) (iupdate_spec mypid s L ip c (S k) Hok Hc Hla HL Hdev Hin Hlen Hr ltac:(lia) ltac:(lia)))
    as ([] & c1 & s1 & R1 & P1); fold x in P1.
  pose proof (fp_view P1) as V1; pose proof (fp_keep P1) as K1; exists c1, s1; split_and!; [done|apply P1|apply P1| |].
  - intros inum y Hi Hne; rewrite V1; unfold upd; case_decide as E; [|done]; rewrite E.
    apply read_dinode_ext; intros i Hlt; pose proof (dinode_off_range inum); pose proof (dinode_off_range (i_inum x)).
    apply lookup_write_dinode; [by rewrite (length_fview mypid s L) by done|done|].
    destruct (dinode_off_disj inum (i_inum x)) as [?|?]; [unfold IBLOCK in E; lia|done|lia|lia].
  - intros T j y Hy Hyd Hyi Hyr Hyl Hyv Hlk; set (s1' := FsSt (sb s1) T (lgs s1) (um s1)).
    assert (Hgy : get_inode j s1' = y) by (unfold get_inode, s1'; cbn [itable]; by rewrite Hy).
    assert (Hd : fview s1' (IBLOCK (i_inum (get_inode j s1')) (sb s1')) =
      write_dinode (fview s (IBLOCK (i_inum x) (sb s))) (dinode_off (i_inum x)) x).
    { rewrite Hgy, Hyi; change (sb s1') with (sb s1); rewrite (fk_sb K1).
      change (fview s1') with (fview s1); rewrite V1; unfold upd; by rewrite decide_True. }
    assert (Hld : loaded mypid (fview s1' (IBLOCK (i_inum (get_inode j s1')) (sb s1'))) y =
      set_ivalid 1 (with_dinode x (Inode (i_dev y) (i_inum y) (i_ref y) (SL 1 mypid) (i_valid y) (i_type y) (i_major y)
        (i_minor y) (i_nlink y) (i_size y) (i_addrs y)))).
    { rewrite Hd; unfold loaded; cbv zeta; cbn [i_inum]; rewrite Hyi, read_write_dinode; [done|done|].
      rewrite (length_fview mypid s L) by done; apply dinode_off_range. }
    opose proof* (ilock_load_spec mypid s1' L j c1 k) as W2; rewrite ?Hgy; auto.
    + destruct (fp_ok P1) as [? ? ?]; by split.
    + by eapply (fpost_ctx P1).
    + by rewrite (fp_held P1).
    + change (flog s1') with (flog s1); change (sb s1') with (sb s1); rewrite (fk_sb K1).
      by eapply layout_keep; [apply (fk_start K1)|apply (fk_size K1)|].
    + apply (data_locked_post mypid Hla P1); [|done]; intros b Hb; unfold upd.
      pose proof (iblock_range _ _ _ Hla Hin); rewrite decide_False by lia; done.
    + by eapply lookup_lt_Some.
    + rewrite Hyi; change (sb s1') with (sb s1); by rewrite (fk_sb K1).
    + change (room s1 k); eapply (fpost_room Hok P1); exact Hr.
    + rewrite Hgy in Hld; by rewrite Hld.
    + apply wp_elim in W2 as ([] & c2 & s2 & R2 & _ & _ & HT & _); exists c2, s2; split; [done|]; rewrite Hgy in HT, Hld.
      assert (Hg2 : get_inode j s2 = loaded mypid (fview s1' (IBLOCK (i_inum y) (sb s1'))) y).
      { unfold get_inode; rewrite HT, list_lookup_alter_eq; cbn [itable s1']; by rewrite Hy. }
      rewrite Hg2, Hld; by split_and!.
Qed.

(** A recycled entry for the root directory. *)
Definition stale_root : inode := Inode ROOTDEV ROOTINO 1 initsleeplock 0 T_FILE 5 5 5 999 (replicate 13 7).

Lemma inode_roundtrip_witness :
  exists c1 s1, iupdate 1 0 (Ctx [] []) demo_fs = Ret tt c1 s1 /\
    exists c2 s2, ilock 1 1 c1 (FsSt (sb s1) [inode0; stale_root] (lgs s1) (um s1)) = Ret tt c2 s2 /\
      i_type (get_inode 1 s2) = T_DIR /\ i_nlink (get_inode 1 s2) = 1 /\
      i_size (get_inode 1 s2) = 32 /\ i_addrs (get_inode 1 s2) = 46 :: replicate 12 0.
Proof.
  destruct (inode_roundtrip 1 demo_fs [] 0 (Ctx [] []) 20) as (c1 & s1 & R1 & Hh & _ & _ & Hj);
    [apply demo_fs_ok|apply fctx0|apply demo_layout|by intros i Hi%not_elem_of_nil|done|vm_compute; split; congruence| |done|done|simpl; lia|].
  { change (get_inode 0 demo_fs) with demo_root; split; [by vm_compute|by vm_compute|by vm_compute|by vm_compute|by vm_compute|done|].
    cbn; repeat (apply Forall_cons; split; [lia|]); by apply Forall_nil. }
  exists c1, s1; split; [exact R1|].
  destruct (Hj [inode0; stale_root] 1%nat stale_root) as (c2 & s2 & R2 & _ & _ & H1 & _ & _ & H2 & H3 & H4);
    [done|done|done|cbn; lia|done|done|apply not_elem_of_nil|].
  exists c2, s2; split; [exact R2|]; split; [exact H1|]; split; [exact H2|]; split; [exact H3|exact H4].
Defined.
