(* ===== verification/FsFile.v ===== *)
(** * The blocks of a file

    [fblk V x bn] is the disk block of block [bn] of the file with inode [x],
    when the disk blocks have content [V]; [file_ok] is the invariant of a
    file, and [ext] is what an allocation for it may do to the disk. *)

From S2P Require Import Prelude CMem KString Riscv Kalloc Vm Locks Block Bio BioInv BioSpec Log LogSpec LogCrash Fs FsBase FsAlloc FsInode.

Definition NBLK : Z := 268.

Definition fblk (V : Z -> list Z) (x : inode) (bn : Z) : Z :=
  if bn <? NDIRECT then addr_of bn x
  else if addr_of NDIRECT x =? 0 then 0
  else get32 (V (addr_of NDIRECT x)) (Z.to_nat (4 * (bn - NDIRECT))).

(** The disk blocks a file owns: its content and its indirect block. *)
Definition owned (V : Z -> list Z) (x : inode) (b : Z) : Prop :=
  b <> 0 /\ (b = addr_of NDIRECT x \/ exists bn, 0 <= bn < NBLK /\ fblk V x bn = b).

Record file_ok (V : Z -> list Z) (sb : superblock) (x : inode) : Prop := FileOk {
  fl_len : length (i_addrs x) = 13%nat;
  fl_data : forall b, owned V x b -> bmap_end sb <= b < sb_size sb /\ used V sb b = true;
  fl_inj : forall bn bn', 0 <= bn < NBLK -> 0 <= bn' < NBLK -> fblk V x bn <> 0 -> fblk V x bn = fblk V x bn' -> bn = bn';
  fl_ind : forall bn, 0 <= bn < NBLK -> fblk V x bn <> 0 -> fblk V x bn <> addr_of NDIRECT x;
  fl_size : 0 <= i_size x <= NBLK * BSIZE;
  fl_mapped : forall bn, 0 <= bn -> bn * BSIZE < i_size x -> fblk V x bn <> 0
}.

(** Everything but the block addresses. *)
Definition same_meta (x x' : inode) : Prop :=
  i_dev x' = i_dev x /\ i_inum x' = i_inum x /\ i_ref x' = i_ref x /\ i_lock x' = i_lock x /\ i_valid x' = i_valid x /\
  i_type x' = i_type x /\ i_major x' = i_major x /\ i_minor x' = i_minor x /\ i_nlink x' = i_nlink x /\ i_size x' = i_size x.

Definition is_bmap (sb : superblock) (b : Z) : Prop := sb_bmapstart sb <= b < bmap_end sb.

(** Blocks may have been allocated for the file; what it had and what others
    have is as before, and a new block reads as zeros. *)
Record ext (sb : superblock) (V : Z -> list Z) (x : inode) (V' : Z -> list Z) (x' : inode) : Prop := Ext {
  ex_meta : same_meta x x';
  ex_old : forall bn, 0 <= bn < NBLK -> fblk V x bn <> 0 ->
    fblk V' x' bn = fblk V x bn /\ V' (fblk V x bn) = V (fblk V x bn);
  ex_new : forall bn, 0 <= bn < NBLK -> fblk V x bn = 0 -> fblk V' x' bn <> 0 ->
    V' (fblk V' x' bn) = replicate 1024 0;
  ex_ind : addr_of NDIRECT x <> 0 -> addr_of NDIRECT x' = addr_of NDIRECT x;
  ex_used : forall b, 0 <= b < sb_size sb -> used V sb b = true -> used V' sb b = true;
  ex_own : forall b, owned V' x' b -> owned V x b \/ (bmap_end sb <= b < sb_size sb /\ used V sb b = false);
  ex_frame : forall b, ~ is_bmap sb b -> ~ owned V x b -> (b < bmap_end sb \/ sb_size sb <= b \/ used V sb b = true) -> V' b = V b
}.

(** The part of this that a write of content keeps as well. *)
Record chg (sb : superblock) (V : Z -> list Z) (x : inode) (V' : Z -> list Z) (x' : inode) : Prop := Chg {
  ch_meta : same_meta x x';
  ch_map : forall bn, 0 <= bn < NBLK -> fblk V x bn <> 0 -> fblk V' x' bn = fblk V x bn;
  ch_used : forall b, 0 <= b < sb_size sb -> used V sb b = true -> used V' sb b = true;
  ch_own : forall b, owned V' x' b -> owned V x b \/ (bmap_end sb <= b < sb_size sb /\ used V sb b = false);
  ch_frame : forall b, ~ is_bmap sb b -> ~ owned V x b -> (b < bmap_end sb \/ sb_size sb <= b \/ used V sb b = true) -> V' b = V b
}.

Lemma ext_chg sb V x V' x' : ext sb V x V' x' -> chg sb V x V' x'.
Proof. intros [A1 A2 A3 A4 A5 A6 A7]; split; auto; intros bn Hb H0; by destruct (A2 bn Hb H0). Qed.

Lemma same_meta_refl x : same_meta x x.
Proof. done. Qed.

Lemma ext_refl sb V x : ext sb V x V x.
Proof. split; auto; done. Qed.

(** A range of block numbers and the addresses in it. *)
Lemma fblk_direct V x bn : bn < 12 -> fblk V x bn = addr_of bn x.
Proof. intros H; unfold fblk, NDIRECT; by replace (bn <? 12) with true by lia. Qed.

Lemma fblk_indirect V x bn : 12 <= bn -> addr_of 12 x <> 0 -> fblk V x bn = get32 (V (addr_of 12 x)) (Z.to_nat (4 * (bn - 12))).
Proof.
  intros H Ha; unfold fblk, NDIRECT; replace (bn <? 12) with false by lia; by replace (addr_of 12 x =? 0) with false by lia.
Qed.

Lemma fblk_none V x bn : 12 <= bn -> addr_of 12 x = 0 -> fblk V x bn = 0.
Proof. intros H Ha; unfold fblk, NDIRECT; rewrite Ha; by replace (bn <? 12) with false by lia. Qed.

(** The mapping depends on the addresses and the indirect block only. *)
Lemma fblk_ext V V' x x' bn :
  i_addrs x' = i_addrs x -> (addr_of 12 x <> 0 -> V' (addr_of 12 x) = V (addr_of 12 x)) -> fblk V' x' bn = fblk V x bn.
Proof.
  intros Ha HV; unfold fblk, addr_of, NDIRECT in *; rewrite Ha; case_match; [done|].
  destruct (Z.eqb_spec (default 0 (i_addrs x !! Z.to_nat 12)) 0); [done|by rewrite HV].
Qed.

Lemma owned_blk V x bn : 0 <= bn < NBLK -> fblk V x bn <> 0 -> owned V x (fblk V x bn).
Proof. intros Hb H0; split; [done|right; eauto]. Qed.

Lemma owned_ind V x : addr_of NDIRECT x <> 0 -> owned V x (addr_of NDIRECT x).
Proof. intros H0; split; [done|by left]. Qed.

Lemma ext_trans sb l V x V1 x1 V2 x2 :
  layout sb l -> file_ok V sb x -> file_ok V1 sb x1 -> ext sb V x V1 x1 -> ext sb V1 x1 V2 x2 -> ext sb V x V2 x2.
Proof.
  intros Hla Hx Hx1 [A1 A2 A3 A4 A5 A6 A7] [B1 B2 B3 B4 B5 B6 B7].
  assert (H0e : 0 <= bmap_end sb).
  { pose proof (layout_order _ _ Hla); pose proof (la_start _ _ Hla); pose proof (la_lsize _ _ Hla); lia. }
  split.
  - unfold same_meta in *; naive_solver congruence.
  - intros bn Hb H0; destruct (A2 bn Hb H0) as [E1 E2]; rewrite <- E1 in H0.
    destruct (B2 bn Hb H0) as [F1 F2]; rewrite E1 in *; split; congruence.
  - intros bn Hb H0 H2; destruct (decide (fblk V1 x1 bn = 0)) as [E|E].
    + by apply B3.
    + destruct (B2 bn Hb E) as [-> ->]; by apply A3.
  - intros H0; rewrite <- (A4 H0) in H0 |- *; auto.
  - auto.
  - intros b Hb; destruct (B6 b Hb) as [|[Hr Hu]]; [auto|right; split; [done|]].
    destruct (used V sb b) eqn:E; [|done]; rewrite A5 in Hu by (done || lia); done.
  - intros b Hm Ho Hr; destruct (decide (bmap_end sb <= b < sb_size sb)) as [Hd|Hd].
    + assert (Hu : used V sb b = true) by (destruct Hr as [|[|]]; lia || done).
      rewrite B7, A7; auto; [intros [?|[_ ?]]%A6; [done|congruence]|right; right; apply A5; [lia|done]].
    + rewrite B7, A7; auto; [|lia]; intros Ho1; destruct (fl_data _ _ _ Hx1 b Ho1); lia.
Qed.

Lemma chg_trans sb l V x V1 x1 V2 x2 :
  layout sb l -> file_ok V sb x -> file_ok V1 sb x1 -> chg sb V x V1 x1 -> chg sb V1 x1 V2 x2 -> chg sb V x V2 x2.
Proof.
  intros Hla Hx Hx1 [A1 A2 A5 A6 A7] [B1 B2 B5 B6 B7].
  assert (H0e : 0 <= bmap_end sb).
  { pose proof (layout_order _ _ Hla); pose proof (la_start _ _ Hla); pose proof (la_lsize _ _ Hla); lia. }
  split; auto.
  - unfold same_meta in *; naive_solver congruence.
  - intros bn Hb H0; rewrite B2, A2; auto; by rewrite A2.
  - intros b Hb; destruct (B6 b Hb) as [|[Hr Hu]]; [auto|right; split; [done|]].
    destruct (used V sb b) eqn:E; [|done]; rewrite A5 in Hu by (done || lia); done.
  - intros b Hm Ho Hr; destruct (decide (bmap_end sb <= b < sb_size sb)) as [Hd|Hd].
    + assert (Hu : used V sb b = true) by (destruct Hr as [|[|]]; lia || done).
      rewrite B7, A7; auto; [intros [?|[_ ?]]%A6; [done|congruence]|right; right; apply A5; [lia|done]].
    + rewrite B7, A7; auto; [|lia]; intros Ho1; destruct (fl_data _ _ _ Hx1 b Ho1); lia.
Qed.

Lemma chg_meta_used sb l V x V' x' : layout sb l -> chg sb V x V' x' -> meta_used V sb -> meta_used V' sb.
Proof.
  intros Hla He Hm b Hb; pose proof (layout_order _ _ Hla); apply (ch_used _ _ _ _ _ He); [lia|by apply Hm].
Qed.

(** ** Allocating a block for a file *)

Lemma addr_of_set k j a x :
  length (i_addrs x) = 13%nat -> (j < 13)%nat -> 0 <= k ->
  addr_of k (set_addr j a x) = if decide (k = Z.of_nat j) then a else addr_of k x.
Proof.
  intros Hl Hj Hk; unfold addr_of, set_addr; cbn [i_addrs]; case_decide as E.
  - subst; by rewrite Nat2Z.id, list_lookup_insert_eq by lia.
  - by rewrite list_lookup_insert_ne by lia.
Qed.

Definition alloc_view (V : Z -> list Z) (sb : superblock) (r : Z) : Z -> list Z :=
  upd (upd V (BBLOCK r sb) (set_bit (V (BBLOCK r sb)) (r mod BPB))) r (replicate 1024 0).

Section alloc.
Variables (sb : superblock) (l : log) (V : Z -> list Z) (x : inode) (r : Z).
Hypothesis Hla : layout sb l.
Hypothesis HV : forall b, length (V b) = 1024%nat.
Hypothesis Hx : file_ok V sb x.
Hypothesis Hr : bmap_end sb <= r < sb_size sb.
Hypothesis Hfree : used V sb r = false.
#[local] Set Default Proof Using "Hla HV Hx Hr Hfree".

Lemma r_pos : r <> 0 /\ 0 <= bmap_end sb /\ 0 <= r.
Proof using Hla Hr. clear Hfree; pose proof (layout_order _ _ Hla); pose proof (la_start _ _ Hla); pose proof (la_lsize _ _ Hla); lia. Qed.

Lemma r_not_owned : ~ owned V x r.
Proof. intros Ho; destruct (fl_data _ _ _ Hx r Ho); congruence. Qed.

Lemma owned_not_bmap b : owned V x b -> ~ is_bmap sb b.
Proof. intros Ho; destruct (fl_data _ _ _ Hx b Ho); unfold is_bmap; lia. Qed.

Lemma alloc_same b : b <> r -> ~ is_bmap sb b -> alloc_view V sb r b = V b.
Proof.
  intros Hb Hm; unfold alloc_view, upd; rewrite !decide_False; auto.
  intros ->; apply Hm, (bblock_range _ l); [done|pose proof r_pos; lia].
Qed.

Lemma alloc_owned b : owned V x b -> alloc_view V sb r b = V b.
Proof. intros Ho; apply alloc_same; [intros ->; by apply r_not_owned|by apply owned_not_bmap]. Qed.

Lemma alloc_new : alloc_view V sb r r = replicate 1024 0.
Proof using. unfold alloc_view, upd; by rewrite decide_True. Qed.

(** One block number of the file comes to be mapped to [r]. *)
Lemma map_block V' x' bn :
  0 <= bn < NBLK -> fblk V x bn = 0 ->
  (forall k, 0 <= k < NBLK -> fblk V' x' k = if decide (k = bn) then r else fblk V x k) ->
  addr_of NDIRECT x' = addr_of NDIRECT x -> length (i_addrs x') = 13%nat -> same_meta x x' ->
  (forall b, b <> r -> ~ is_bmap sb b -> (b = addr_of NDIRECT x -> b = 0) -> V' b = V b) -> V' r = replicate 1024 0 ->
  (forall b, 0 <= b < sb_size sb -> used V' sb b = bool_decide (b = r) || used V sb b) ->
  file_ok V' sb x' /\ ext sb V x V' x'.
Proof.
  intros Hbn H0 Hmap Hind Hlen Hsm HV' HVr Hu; pose proof r_pos as Hr0; pose proof r_not_owned as Hrn.
  assert (Hown : forall b, owned V' x' b -> owned V x b \/ b = r).
  { intros b [Hb0 [-> |(k & Hk & <-)]]; [left; rewrite Hind in *; by apply owned_ind|].
    rewrite Hmap in * by done; case_decide; [by right|left; by apply owned_blk]. }
  assert (Hne : forall k, 0 <= k < NBLK -> fblk V x k <> r).
  { intros k Hk E; apply Hrn; rewrite <- E; apply owned_blk; [done|lia]. }
  assert (Hnz : forall k, 0 <= k < NBLK -> fblk V x k <> 0 -> fblk V' x' k = fblk V x k).
  { intros k Hk Hz; rewrite Hmap by done; case_decide; [congruence|done]. }
  split; split; auto.
  - intros b [Ho| ->]%Hown.
    + destruct (fl_data _ _ _ Hx b Ho) as [Hb Hub]; split; [done|]; rewrite Hu, Hub by lia; apply orb_true_r.
    + split; [done|]; by rewrite Hu, bool_decide_eq_true_2 by lia.
  - intros k k' Hk Hk'; rewrite !Hmap by done; repeat case_decide; subst; auto; try congruence.
    + intros _ E; by destruct (Hne k' Hk').
    + intros _ E; by destruct (Hne k Hk).
    + by apply (fl_inj _ _ _ Hx).
  - intros k Hk; rewrite Hind, Hmap by done; case_decide; [|by apply (fl_ind _ _ _ Hx)].
    intros _ E; destruct (decide (addr_of NDIRECT x = 0)); [lia|]; apply Hrn; rewrite E; by apply owned_ind.
  - destruct Hsm as (_&_&_&_&_&_&_&_&_& ->); apply Hx.
  - intros k Hk Hs; destruct Hsm as (_&_&_&_&_&_&_&_&_& Esz); rewrite Esz in Hs.
    pose proof (fl_mapped _ _ _ Hx k Hk Hs) as Hz; pose proof (fl_size _ _ _ Hx); unfold NBLK, BSIZE in *.
    rewrite Hnz by (done || lia); done.
  - intros k Hk Hz; split; [by apply Hnz|]; pose proof (owned_blk _ _ _ Hk Hz) as Ho.
    apply HV'; [by apply Hne|by apply owned_not_bmap|]; intros E; by destruct (fl_ind _ _ _ Hx k).
  - intros k Hk Hz; rewrite Hmap by done; case_decide; [done|congruence].
  - intros b Hb Hub; rewrite Hu, Hub by done; apply orb_true_r.
  - intros b [?| ->]%Hown; [by left|by right].
  - intros b Hm Ho Hb; apply HV'; auto.
    + intros ->; destruct Hb as [|[|]]; [lia..|congruence].
    + intros ->; destruct (decide (addr_of NDIRECT x = 0)) as [E|E]; [done|by destruct Ho; apply owned_ind].
Qed.

(** [ip->addrs[bn] = r] *)
Lemma map_direct bn :
  0 <= bn < 12 -> addr_of bn x = 0 ->
  let V' := alloc_view V sb r in let x' := set_addr (Z.to_nat bn) r x in
  file_ok V' sb x' /\ ext sb V x V' x' /\ fblk V' x' bn = r.
Proof.
  intros Hbn H0 V' x'; pose proof (fl_len _ _ _ Hx) as Hl; pose proof r_pos as Hr0.
  assert (Ha : forall k, 0 <= k -> addr_of k x' = if decide (k = bn) then r else addr_of k x).
  { intros k Hk; unfold x'; rewrite addr_of_set by lia; rewrite Z2Nat.id by lia; done. }
  assert (Hmap : forall k, 0 <= k < NBLK -> fblk V' x' k = if decide (k = bn) then r else fblk V x k).
  { intros k Hk; destruct (decide (k < 12)) as [Hk12|Hk12].
    - rewrite !fblk_direct, Ha by lia; done.
    - rewrite (decide_False (P := k = bn)) by lia; unfold fblk, NDIRECT.
      replace (k <? 12) with false by lia; rewrite Ha, decide_False by lia.
      destruct (Z.eqb_spec (addr_of 12 x) 0); [done|].
      pose proof (alloc_owned _ (owned_ind V x ltac:(done))) as E; unfold NDIRECT in E; unfold V'; by rewrite E. }
  destruct (map_block V' x' bn) as [A B]; auto.
  - unfold NBLK; lia.
  - by rewrite fblk_direct by lia.
  - unfold NDIRECT; rewrite Ha, decide_False by lia; done.
  - unfold x', set_addr; cbn [i_addrs]; by rewrite length_insert.
  - done.
  - intros b Hb Hm _; by apply alloc_same.
  - apply alloc_new.
  - intros b Hb; unfold V', alloc_view; by eapply used_alloc.
  - split_and!; auto; rewrite Hmap, decide_True by (unfold NBLK; lia || done); done.
Qed.

(** [a[bn] = r] in the indirect block *)
Lemma map_indirect bn :
  12 <= bn < NBLK -> addr_of 12 x <> 0 -> fblk V x bn = 0 ->
  let ind := addr_of 12 x in
  let V' := upd (alloc_view V sb r) ind (put32 (alloc_view V sb r ind) (Z.to_nat (4 * (bn - 12))) r) in
  file_ok V' sb x /\ ext sb V x V' x /\ fblk V' x bn = r.
Proof.
  intros Hbn Hi H0 ind V'; pose proof r_pos as Hr0; unfold NBLK in *; fold ind in Hi.
  pose proof (owned_ind V x Hi) as Hoi; fold ind in Hoi; pose proof (owned_not_bmap _ Hoi) as Hnb.
  assert (Hri : r <> ind) by (intros E; apply r_not_owned; by rewrite E).
  assert (HVi : V' ind = put32 (V ind) (Z.to_nat (4 * (bn - 12))) r).
  { unfold V', upd; rewrite decide_True by done; by rewrite alloc_owned. }
  assert (Hr32 : u32 r = r).
  { pose proof (la_size _ _ Hla); change BPB with 8192 in *; apply u32_small; lia. }
  assert (Hmap : forall k, 0 <= k < NBLK -> fblk V' x k = if decide (k = bn) then r else fblk V x k).
  { intros k Hk; unfold NBLK in Hk; destruct (decide (k < 12)) as [Hk12|Hk12].
    - rewrite !fblk_direct, decide_False by lia; done.
    - rewrite !fblk_indirect by (done || lia); fold ind; rewrite HVi; case_decide as E.
      + subst; rewrite get32_put32_same; [done|rewrite HV; lia].
      + rewrite get32_put32_disj; [done|rewrite HV; lia|lia]. }
  destruct (map_block V' x bn) as [A B]; auto; try done; try (unfold NBLK; lia).
  - apply Hx.
  - intros b Hb Hm Hi'; unfold V', upd; rewrite decide_False; [by apply alloc_same|].
    intros ->; by apply Hi, Hi'.
  - unfold V', upd; rewrite decide_False by done; apply alloc_new.
  - intros b Hb; rewrite <- (used_alloc V sb l r b Hla HV Hr Hb); unfold used, V', upd.
    rewrite (decide_False (P := BBLOCK b sb = ind)); [done|].
    intros E; apply Hnb; unfold is_bmap; pose proof (bblock_range _ _ b Hla Hb); change (addr_of NDIRECT x) with ind; lia.
  - split_and!; auto; rewrite Hmap, decide_True by (unfold NBLK; lia || done); done.
Qed.

(** [ip->addrs[NDIRECT] = r] *)
Lemma map_table :
  addr_of 12 x = 0 ->
  let V' := alloc_view V sb r in let x' := set_addr 12 r x in
  file_ok V' sb x' /\ ext sb V x V' x' /\ addr_of 12 x' = r /\ forall k, 0 <= k < NBLK -> fblk V' x' k = fblk V x k.
Proof.
  intros H0 V' x'; pose proof (fl_len _ _ _ Hx) as Hl; pose proof r_pos as Hr0; pose proof r_not_owned as Hrn.
  assert (Ha : forall k, 0 <= k -> addr_of k x' = if decide (k = 12) then r else addr_of k x).
  { intros k Hk; unfold x'; rewrite addr_of_set by lia; done. }
  assert (Hr12 : addr_of 12 x' = r) by (rewrite Ha, decide_True by (lia || done); done).
  assert (Hz : forall o, (o + 4 <= 1024)%nat -> get32 (replicate 1024 0) o = 0).
  { intros o Ho; unfold get32, slice; rewrite drop_replicate, take_replicate.
    replace (4 `min` (1024 - o))%nat with 4%nat by lia; done. }
  assert (Hmap : forall k, 0 <= k < NBLK -> fblk V' x' k = fblk V x k).
  { intros k Hk; unfold NBLK in Hk; destruct (decide (k < 12)) as [Hk12|Hk12].
    - rewrite !fblk_direct, Ha, decide_False by lia; done.
    - rewrite (fblk_none V x), fblk_indirect by (done || lia); rewrite Hr12; unfold V'; rewrite alloc_new; apply Hz; lia. }
  assert (Hu : forall b, 0 <= b < sb_size sb -> used V' sb b = bool_decide (b = r) || used V sb b).
  { intros b Hb; unfold V', alloc_view; by eapply used_alloc. }
  assert (Hown : forall b, owned V' x' b -> owned V x b \/ b = r).
  { intros b [Hb0 [-> |(k & Hk & <-)]]; [right; done|left]; rewrite Hmap in * by done; by apply owned_blk. }
  assert (Hne : forall k, 0 <= k < NBLK -> fblk V x k <> r).
  { intros k Hk E; apply Hrn; rewrite <- E; apply owned_blk; [done|lia]. }
  split_and!; auto; split; auto.
  - unfold x', set_addr; cbn [i_addrs]; by rewrite length_insert.
  - intros b [Ho| ->]%Hown.
    + destruct (fl_data _ _ _ Hx b Ho) as [Hb Hub]; split; [done|]; rewrite Hu, Hub by lia; apply orb_true_r.
    + split; [done|]; by rewrite Hu, bool_decide_eq_true_2 by lia.
  - intros k k' Hk Hk'; rewrite !Hmap by done; by apply (fl_inj _ _ _ Hx).
  - intros k Hk; unfold NDIRECT; rewrite Hr12, Hmap by done; intros _; by apply Hne.
  - apply Hx.
  - intros k Hk Hs; pose proof (fl_mapped _ _ _ Hx k Hk Hs); pose proof (fl_size _ _ _ Hx); unfold NBLK, BSIZE in *.
    cbn [x' set_addr i_size] in Hs; rewrite Hmap by lia; done.
  - done.
  - intros k Hk Hzk; split; [by apply Hmap|]; by apply alloc_owned, owned_blk.
  - intros k Hk Hzk; rewrite Hmap by done; congruence.
  - done.
  - intros b Hb Hub; rewrite Hu, Hub by done; apply orb_true_r.
  - intros b [?| ->]%Hown; [by left|by right].
  - intros b Hm Ho Hb; apply alloc_same; [|done]; intros ->; destruct Hb as [|[|]]; [lia..|congruence].
Qed.
End alloc.
