(* ===== verification/FsBmap.v ===== *)
(** * bmap *)

From S2P Require Import Prelude CMem KString Riscv Kalloc Vm Locks Block Bio BioInv BioSpec Log LogSpec LogCrash Fs FsBase FsAlloc FsInode FsFile.

(** A state with one entry of the inode table replaced. *)
Definition put_inode (ip : nat) (x : inode) (s : fsst) : fsst := FsSt (sb s) (<[ip := x]> (itable s)) (lgs s) (um s).

Lemma get_put_inode ip x s : (ip < length (itable s))%nat -> get_inode ip (put_inode ip x s) = x.
Proof. intros H; unfold get_inode, put_inode; cbn [itable]; by rewrite list_lookup_insert_eq. Qed.

Lemma get_put_inode_ne ip j x s : j <> ip -> get_inode j (put_inode ip x s) = get_inode j s.
Proof. intros H; unfold get_inode, put_inode; cbn [itable]; by rewrite list_lookup_insert_ne. Qed.

Lemma put_put_inode ip x y s : put_inode ip y (put_inode ip x s) = put_inode ip y s.
Proof. unfold put_inode; cbn [itable sb lgs um]; by rewrite list_insert_insert_eq. Qed.

Lemma put_get_inode ip s : put_inode ip (get_inode ip s) s = s.
Proof.
  unfold put_inode, get_inode; destruct s as [a T b d]; cbn [itable sb lgs um]; f_equal.
  destruct (T !! ip) as [x|] eqn:E; [by apply list_insert_id|by rewrite list_insert_ge by (by apply lookup_ge_None)].
Qed.

Lemma upd_put_inode ip f s : (ip < length (itable s))%nat -> upd_inode ip f s = put_inode ip (f (get_inode ip s)) s.
Proof.
  intros H; unfold upd_inode, put_inode, get_inode; f_equal.
  destruct (lookup_lt_is_Some_2 _ _ H) as [x Hx]; rewrite Hx; cbn [default].
  apply list_eq; intros j; destruct (decide (ip = j)) as [<-|].
  - by rewrite list_lookup_alter_eq, list_lookup_insert_eq, Hx by done.
  - by rewrite list_lookup_alter_ne, list_lookup_insert_ne by done.
Qed.

Section bmap.
Variable mypid : Z.
#[local] Abbreviation fs_ok := (fs_ok mypid).
#[local] Abbreviation fpost := (fpost mypid).

Lemma fs_ok_put ip x s L : fs_ok s L -> fs_ok (put_inode ip x s) L.
Proof. intros [H1 H2 H3]; by split. Qed.

Lemma fpost_put ip x c s L L' W V c' s' :
  fpost c s L L' W V c' s' -> fpost c (put_inode ip x s) L L' W V c' (put_inode ip x s').
Proof.
  intros [H1 H2 [K1 K2 K3 K4 K5 K6 K7] H4]; split; [done|by apply fs_ok_put| |done].
  split; auto; cbn [put_inode itable]; by rewrite K2.
Qed.

(** What a call needs of the file system and of the inode [x] at [ip]. *)
Record ready (s : fsst) (ip : nat) (x : inode) : Prop := Ready {
  rd_ok : fs_ok s [];
  rd_layout : layout (sb s) (flog s);
  rd_meta : meta_used (fview s) (sb s);
  rd_ip : (ip < length (itable s))%nat;
  rd_x : get_inode ip s = x;
  rd_dev : i_dev x = ROOTDEV;
  rd_file : file_ok (fview s) (sb s) x
}.

(** [x'] and [V'] are the inode and the blocks after the call, which logged
    at most [n] of them. *)
Record grown (n : nat) (c : kctx) (s : fsst) (ip : nat) (x x' : inode) (V' : Z -> list Z) (c' : kctx) (s' : fsst) : Prop := Grown {
  gr_post : exists W, (length W <= n)%nat /\ fpost c (put_inode ip x' s) [] [] W V' c' s';
  gr_file : file_ok V' (sb s) x';
  gr_chg : chg (sb s) (fview s) x V' x'
}.

Lemma grown_refl n c s ip x : ready s ip x -> grown n c s ip x x (fview s) c s.
Proof.
  intros [H1 H2 H3 H4 H5 H6 H7]; split; [|done|apply ext_chg, ext_refl].
  exists []; split; [simpl; lia|]; rewrite <- H5, put_get_inode; by apply fpost_refl.
Qed.

Lemma grown_view n c s ip x x' V' c' s' : grown n c s ip x x' V' c' s' -> forall b, fview s' b = V' b.
Proof. intros [(W & _ & P) _ _]; apply (fp_view P). Qed.

Lemma grown_held n c s ip x x' V' c' s' : grown n c s ip x x' V' c' s' -> held c' = held c.
Proof. intros [(W & _ & P) _ _]; apply (fp_held P). Qed.

Lemma grown_sb n c s ip x x' V' c' s' : grown n c s ip x x' V' c' s' -> sb s' = sb s.
Proof. intros [(W & _ & P) _ _]; apply (fk_sb (fp_keep P)). Qed.

(** Another inode of the table is untouched. *)
Lemma grown_other n c s ip x x' V' c' s' j :
  grown n c s ip x x' V' c' s' -> j <> ip -> get_inode j s' = get_inode j s.
Proof.
  intros [(W & _ & P) _ _] Hj; rewrite <- (get_put_inode_ne ip j x' s) by done.
  apply get_inode_itable, (fk_itable (fp_keep P)).
Qed.

(** [file_ok] and the like only look at the content of blocks. *)
Lemma fblk_ext_V V V' x bn : (forall b, V' b = V b) -> fblk V' x bn = fblk V x bn.
Proof. intros H; by apply fblk_ext. Qed.

Lemma owned_ext_V V V' x b : (forall b, V' b = V b) -> owned V' x b <-> owned V x b.
Proof. intros H; unfold owned; by setoid_rewrite (fblk_ext_V V V' x _ H). Qed.

Lemma file_ok_V V V' sb x : (forall b, V' b = V b) -> file_ok V sb x -> file_ok V' sb x.
Proof.
  intros H [F1 F2 F3 F4 F5 F6]; split; auto.
  - intros b Hb; rewrite (used_ext V' V) by done; apply F2; by apply (owned_ext_V V V').
  - intros bn bn'; rewrite !(fblk_ext_V V V') by done; apply F3.
  - intros bn; rewrite !(fblk_ext_V V V') by done; apply F4.
  - intros bn; rewrite !(fblk_ext_V V V') by done; apply F6.
Qed.

Lemma ext_V_l sb V V0 x V' x' : (forall b, V b = V0 b) -> ext sb V x V' x' -> ext sb V0 x V' x'.
Proof.
  intros H [E1 E2 E3 E4 E5 E6 E7]; split; auto.
  - intros bn Hb; rewrite <- (fblk_ext_V V0 V) by done; intros H0; destruct (E2 bn Hb H0) as [-> ->]; by rewrite H.
  - intros bn Hb; rewrite <- (fblk_ext_V V0 V) by done; by apply E3.
  - intros b Hb; rewrite <- (used_ext V V0) by done; by apply E5.
  - intros b Hb; rewrite <- (used_ext V V0), <- (owned_ext_V V0 V) by done; by apply E6.
  - intros b; rewrite <- (used_ext V V0), <- (owned_ext_V V0 V), <- H by done; apply E7.
Qed.

Lemma chg_V_l sb V V0 x V' x' : (forall b, V b = V0 b) -> chg sb V x V' x' -> chg sb V0 x V' x'.
Proof.
  intros H [E1 E2 E5 E6 E7]; split; auto.
  - intros bn Hb; rewrite <- (fblk_ext_V V0 V) by done; by apply E2.
  - intros b Hb; rewrite <- (used_ext V V0) by done; by apply E5.
  - intros b Hb; rewrite <- (used_ext V V0), <- (owned_ext_V V0 V) by done; by apply E6.
  - intros b; rewrite <- (used_ext V V0), <- (owned_ext_V V0 V), <- H by done; apply E7.
Qed.

Lemma grown_ready n c s ip x x' V' c' s' : ready s ip x -> grown n c s ip x x' V' c' s' -> ready s' ip x'.
Proof.
  intros [H1 H2 H3 H4 H5 H6 H7] G; pose proof (grown_sb _ _ _ _ _ _ _ _ _ G) as Hsb; pose proof (grown_view _ _ _ _ _ _ _ _ _ G) as HV.
  destruct G as [(W & Hn & P) Hf He]; pose proof (fp_keep P) as K; split; rewrite ?Hsb.
  - apply (fp_ok P).
  - eapply layout_keep; [apply (fk_start K)|apply (fk_size K)|done].
  - intros b Hb; rewrite (used_ext _ V') by done; by apply (chg_meta_used _ _ _ _ _ _ H2 He).
  - rewrite (fk_itable K); unfold put_inode; cbn [itable]; by rewrite length_insert.
  - rewrite (get_inode_itable ip (put_inode ip x' s)) by apply (fk_itable K); by apply get_put_inode.
  - by destruct (ch_meta _ _ _ _ _ He) as (-> & _).
  - by apply (file_ok_V V').
Qed.

Lemma grown_trans n m c s ip x x1 V1 c1 s1 x2 V2 c2 s2 :
  ready s ip x -> grown n c s ip x x1 V1 c1 s1 -> grown m c1 s1 ip x1 x2 V2 c2 s2 ->
  grown (n + m) c s ip x x2 V2 c2 s2.
Proof.
  intros Hs G1 G2; pose proof (grown_ready _ _ _ _ _ _ _ _ _ Hs G1) as H1; pose proof (grown_sb _ _ _ _ _ _ _ _ _ G1) as Hsb.
  pose proof (grown_view _ _ _ _ _ _ _ _ _ G1) as HV1.
  destruct G1 as [(W1 & Hn1 & P1) F1 E1], G2 as [(W2 & Hn2 & P2) F2 E2]; rewrite Hsb in *; split; [|done|].
  - exists (W1 ++ W2); split; [rewrite length_app; lia|].
    apply (fpost_put ip x2) in P1; rewrite put_put_inode in P1.
    exact (fpost_trans P1 P2 (fun j H => H)).
  - eapply chg_trans; [apply (rd_layout _ _ _ Hs)|apply (rd_file _ _ _ Hs)|exact F1|exact E1|].
    by apply (chg_V_l _ (fview s1)).
Qed.
End bmap.
Arguments grown_view {mypid n c s ip x x' V' c' s'}.
Arguments grown_held {mypid n c s ip x x' V' c' s'}.
Arguments grown_sb {mypid n c s ip x x' V' c' s'}.
Arguments grown_other {mypid n c s ip x x' V' c' s' j}.
Arguments grown_ready {mypid n c s ip x x' V' c' s'}.
Arguments grown_trans {mypid n m c s ip x x1 V1 c1 s1 x2 V2 c2 s2}.

Section spec.
Variable mypid : Z.
#[local] Abbreviation ready := (ready mypid).
#[local] Abbreviation grown := (grown mypid).

Definition full (V : Z -> list Z) (sb : superblock) : Prop := forall b, 0 <= b < sb_size sb -> used V sb b = true.

(** The outcome of a call that looks up block [bn] of a file. *)
Definition bmap_post (n : nat) (c : kctx) (s : fsst) (ip : nat) (x : inode) (bn : Z) (r : Z) (c' : kctx) (s' : fsst) : Prop :=
  exists x' V', grown n c s ip x x' V' c' s' /\ ext (sb s) (fview s) x V' x' /\ (r <> 0 -> fblk V' x' bn = r) /\ (r = 0 -> full V' (sb s)).

Lemma put_ready s ip x : ready s ip x -> put_inode ip x s = s.
Proof. intros Hs; rewrite <- (rd_x _ _ _ _ Hs); apply put_get_inode. Qed.

Lemma no_lock s : data_locked s [].
Proof. by intros i Hi%not_elem_of_nil. Qed.

(** [balloc], then the store of the address in the inode. *)
Lemma wp_balloc_store s ip x c (j : nat) (Q : Z -> kctx -> fsst -> Prop) :
  ready s ip x -> fctx c -> room s 5 ->
  (forall c' s', full (fview s) (sb s) -> grown 0 c s ip x x (fview s) c' s' -> Q 0 c' s') ->
  (forall r c' s' W, bmap_end (sb s) <= r < sb_size (sb s) -> used (fview s) (sb s) r = false ->
     (length W <= 2)%nat -> fpost mypid c (put_inode ip (set_addr j r x) s) [] [] W (alloc_view (fview s) (sb s) r) c' s' ->
     Q r c' s') ->
  wp (let* addr := balloc mypid ROOTDEV in
      if addr =? 0 then kret 0 else kmod (upd_inode ip (set_addr j addr)) ;;; kret addr) Q c s.
Proof.
  intros Hs Hc Hr HQ0 HQ; pose proof (rd_layout _ _ _ _ Hs) as Hla; apply wp_bind.
  eapply wp_mono; [apply (balloc_spec mypid s [] c 5 (rd_ok _ _ _ _ Hs) Hc Hla (rd_meta _ _ _ _ Hs) (no_lock s) Hr); simpl; lia|].
  intros r c1 s1 [(-> & Hall & P)|(Hrr & Hu & _ & P)].
  - apply HQ0; [done|]; split; [|apply Hs|apply ext_chg, ext_refl]; exists []; split; [simpl; lia|].
    rewrite <- (rd_x _ _ _ _ Hs), put_get_inode; exact P.
  - pose proof (layout_order _ _ Hla); pose proof (la_start _ _ Hla); pose proof (la_lsize _ _ Hla).
    replace (r =? 0) with false by lia; apply wp_bind, wp_mod, wp_ret.
    pose proof (fk_itable (fp_keep P)) as HT.
    rewrite upd_put_inode by (rewrite HT; apply Hs); rewrite (get_inode_itable ip s s1), (rd_x _ _ _ _ Hs) by done.
    eapply (HQ r c1 _ [BBLOCK r (sb s); r]); [done|done|simpl; lia|]; apply fpost_put, P.
Qed.

Lemma ready_len s ip x b : ready s ip x -> length (fview s b) = 1024%nat.
Proof. intros Hs; eapply length_fview, Hs. Qed.

Lemma bmap_direct_spec s ip x bn c :
  ready s ip x -> fctx c -> room s 5 -> 0 <= bn < 12 ->
  wp (bmap mypid ip bn) (bmap_post 2 c s ip x bn) c s.
Proof.
  intros Hs Hc Hr Hbn; unfold bmap; apply wp_bind, wp_get; rewrite (rd_x _ _ _ _ Hs); cbv zeta; unfold NDIRECT.
  replace (bn <? 12) with true by lia; destruct (Z.eqb_spec (addr_of bn x) 0) as [E|E].
  - rewrite (rd_dev _ _ _ _ Hs); apply wp_balloc_store with x; auto.
    + intros c1 s1 Hfull G; exists x, (fview s); split_and!; [|apply ext_refl|done|done].
      destruct G as [(W & Hn & P) F X]; split; auto; exists W; split; [lia|done].
    + intros r c1 s1 W Hrr Hu HW P.
      destruct (map_direct (sb s) (flog s) (fview s) x r (rd_layout _ _ _ _ Hs) (fun b => ready_len s ip x b Hs)
        (rd_file _ _ _ _ Hs) Hrr Hu bn Hbn E) as (F & X & Hm).
      eexists _, _; split_and!; [split; [eexists; split; [exact HW|exact P]|exact F|apply ext_chg, X]|exact X|done|].
      pose proof (r_pos (sb s) (flog s) r (rd_layout _ _ _ _ Hs) Hrr); lia.
  - apply wp_ret; exists x, (fview s); split_and!; [by apply grown_refl|apply ext_refl|by rewrite fblk_direct by lia|done].
Qed.

(** The first half of the indirect case: the indirect block, allocated if
    there is none. *)
Lemma bmap_table_spec s ip x bn c (Q : Z -> kctx -> fsst -> Prop) :
  ready s ip x -> fctx c -> room s 5 -> 12 <= bn < NBLK ->
  (forall x1 V1 c1 s1, grown 2 c s ip x x1 V1 c1 s1 -> ext (sb s) (fview s) x V1 x1 -> fblk V1 x1 bn = fblk (fview s) x bn ->
     (addr_of 12 x1 = 0 -> full V1 (sb s)) -> Q (addr_of 12 x1) c1 s1) ->
  wp (if addr_of 12 x =? 0 then
        let* addr := balloc mypid ROOTDEV in
        if addr =? 0 then kret 0 else kmod (upd_inode ip (set_addr 12 addr)) ;;; kret addr
      else kret (addr_of 12 x)) Q c s.
Proof.
  intros Hs Hc Hr Hbn HQ; destruct (Z.eqb_spec (addr_of 12 x) 0) as [E|E].
  - apply wp_balloc_store with x; auto.
    + intros c1 s1 Hfull [(W & Hn & P) F X]; rewrite <- E; eapply (HQ x (fview s)); auto using ext_refl.
      split; auto; exists W; split; [lia|done].
    + intros r c1 s1 W Hrr Hu HW P.
      destruct (map_table (sb s) (flog s) (fview s) x r (rd_layout _ _ _ _ Hs) (fun b => ready_len s ip x b Hs)
        (rd_file _ _ _ _ Hs) Hrr Hu E) as (F & X & Hm & Hk).
      rewrite <- Hm at 1; eapply HQ; [split; [eexists; split; [exact HW|exact P]|exact F|apply ext_chg, X]|exact X|apply Hk; unfold NBLK in *; lia|].
      rewrite Hm; pose proof (r_pos (sb s) (flog s) r (rd_layout _ _ _ _ Hs) Hrr); lia.
  - apply wp_ret; eapply (HQ x (fview s)); [by apply grown_refl|apply ext_refl|done|done].
Qed.

(** The second half: the entry of the indirect block. *)
Lemma bmap_entry_spec s ip x bn c :
  ready s ip x -> fctx c -> room s 3 -> 12 <= bn < NBLK -> addr_of 12 x <> 0 ->
  wp (let* bp := fbread mypid ROOTDEV (addr_of 12 x) in
      let* d := fdata bp in
      let* addr :=
        (if get32 d (Z.to_nat (4 * (bn - 12))) =? 0 then
           let* addr := balloc mypid ROOTDEV in
           (if negb (addr =? 0) then
              fset_data bp (put32 d (Z.to_nat (4 * (bn - 12))) addr) ;;;
              flog_write bp
            else kret tt) ;;;
           kret addr
         else kret (get32 d (Z.to_nat (4 * (bn - 12))))) in
      fbrelse mypid bp ;;;
      kret addr) (bmap_post 3 c s ip x bn) c s.
Proof.
  intros Hs Hc Hr Hbn Hi; pose proof (rd_layout _ _ _ _ Hs) as Hla; set (ind := addr_of 12 x).
  pose proof (owned_ind (fview s) x Hi) as Hoi; destruct (fl_data _ _ _ (rd_file _ _ _ _ Hs) _ Hoi) as [Hir Hiu].
  change (addr_of NDIRECT x) with ind in Hir, Hiu, Hoi; pose proof (layout_order _ _ Hla) as Hord.
  destruct (layout_block _ _ ind Hla) as [Hib Hih]; [lia|].
  apply wp_bind; eapply wp_fbread; [apply Hs|done|done|by intros i Hi'%not_elem_of_nil|exact Hr|simpl; lia|].
  intros i s1 _ P1 Hf Hbn1 Hd1; apply wp_bind, wp_fdata; rewrite Hd1.
  pose proof (fp_keep P1) as K1; pose proof (fp_view P1) as V1; apply wp_bind.
  assert (Hblk : fblk (fview s) x bn = get32 (fview s ind) (Z.to_nat (4 * (bn - 12)))) by (apply fblk_indirect; lia || done).
  destruct (Z.eqb_spec (get32 (fview s ind) (Z.to_nat (4 * (bn - 12)))) 0) as [E|E].
  - apply wp_bind.
    assert (HL1 : data_locked s1 [i]).
    { intros j ->%list_elem_of_singleton; rewrite (fk_sb K1), Hbn1, (used_ext _ _ _ _ V1); done. }
    assert (Hla1 : layout (sb s1) (flog s1)).
    { rewrite (fk_sb K1), Hf; done. }
    assert (Hm1 : meta_used (fview s1) (sb s1)).
    { intros b; rewrite (fk_sb K1), (used_ext _ _ _ _ V1); apply (rd_meta _ _ _ _ Hs). }
    assert (Hr1 : room s1 3) by (unfold room; rewrite Hf; exact Hr).
    eapply wp_mono; [apply (balloc_spec mypid s1 [i] c 3 (fp_ok P1) Hc Hla1 Hm1 HL1 Hr1); simpl; lia|].
    intros r c2 s2 [(-> & Hall & P2)|(Hrr & Hu & _ & P2)]; cbn [negb].
    + apply wp_bind, wp_ret, wp_ret, wp_bind.
      eapply wp_fbrelse; [apply P2|apply not_elem_of_nil|by eapply (fpost_ctx P2)|].
      intros c3 s3 P3; apply wp_ret; exists x, (fview s); split_and!; [|apply ext_refl|done|].
      * split; [|apply Hs|apply ext_chg, ext_refl]; exists []; split; [simpl; lia|].
        rewrite <- (rd_x _ _ _ _ Hs), put_get_inode.
        eapply fpost_weaken; [exact (fpost_read P1 (fpost_read (fpost_none P2) P3))|done|].
        intros b; by rewrite (fp_view P2), V1.
      * intros _ b Hb; rewrite (fk_sb K1) in Hall; rewrite <- (used_ext _ _ _ _ V1); by apply Hall.
    + rewrite (fk_sb K1) in Hrr, Hu, P2; rewrite (used_ext _ _ _ _ V1) in Hu.
      destruct (r_pos (sb s) (flog s) r Hla Hrr) as (Hr0 & _ & Hrp).
      replace (r =? 0) with false by lia; cbn [negb]; apply wp_bind.
      pose proof (fp_keep P2) as K2; destruct (fk_mine K2 i ltac:(left)) as [Hbn2 _]; rewrite Hbn1 in Hbn2.
      pose proof (map_indirect (sb s) (flog s) (fview s) x r Hla (fun b => ready_len s ip x b Hs) (rd_file _ _ _ _ Hs) Hrr Hu
        bn Hbn Hi ltac:(by rewrite Hblk)) as (F & X & Hm).
      assert (HVi : alloc_view (fview s) (sb s) r ind = fview s ind).
      { by apply (alloc_owned (sb s) (flog s) (fview s) x r Hla (fun b => ready_len s ip x b Hs) (rd_file _ _ _ _ Hs) Hrr Hu). }
      assert (HV2 : forall b, fview s2 b = alloc_view (fview s) (sb s) r b).
      { intros b; rewrite (fp_view P2); unfold alloc_view, upd; by rewrite !V1. }
      eapply wp_fwrite; rewrite ?Hbn2; [apply P2|left|by eapply (fpost_ctx P2)| |done| | |].
      * rewrite length_put32; [by apply (ready_len s ip x)|].
        rewrite (ready_len s ip x) by done; unfold NBLK in Hbn; lia.
      * unfold home in *; by rewrite (fk_start K2), (fk_size K2), Hf.
      * eapply (fpost_room (fp_ok P1) P2); exact Hr1.
      * intros s3 P3; apply wp_ret, wp_bind.
        eapply wp_fbrelse; [apply P3|apply not_elem_of_nil|by eapply (fpost_ctx P2)|].
        intros c4 s4 P4; apply wp_ret; eexists x, _; split_and!; [|exact X|intros _; exact Hm|done].
        split; [|exact F|apply ext_chg, X]; eexists; split; [|rewrite (put_ready s ip x Hs)].
        2: { eapply fpost_weaken; [exact (fpost_read P1 (fpost_trans (fpost_none P2) (fpost_trans (fpost_none P3) P4
               (fun j H => H)) (fun j H => H)))|exact (fun b H => H)|].
             intros b; rewrite (fp_view P3); unfold upd; fold ind; rewrite HVi; case_decide; [done|apply HV2]. }
        simpl; lia.
  - apply wp_ret, wp_bind; eapply wp_fbrelse; [apply P1|apply not_elem_of_nil|done|].
    intros c2 s2 P2; apply wp_ret; exists x, (fview s); split_and!; [|apply ext_refl|done|done].
    split; [|apply Hs|apply ext_chg, ext_refl]; exists []; split; [simpl; lia|].
    rewrite <- (rd_x _ _ _ _ Hs), put_get_inode; eapply fpost_weaken; [exact (fpost_read P1 P2)|done|done].
Qed.

Lemma bmap_spec s ip x bn c :
  ready s ip x -> fctx c -> room s 5 -> 0 <= bn < NBLK ->
  wp (bmap mypid ip bn) (bmap_post 5 c s ip x bn) c s.
Proof.
  intros Hs Hc Hr Hbn; destruct (decide (bn < 12)) as [Hd|Hd].
  { eapply wp_mono; [apply (bmap_direct_spec s ip x bn c Hs Hc Hr); lia|]; intros r c' s' (x' & V' & [(W & Hn & P) F X] & H).
    exists x', V'; split; [split; auto; exists W; split; [lia|done]|done]. }
  unfold bmap; apply wp_bind, wp_get; rewrite (rd_x _ _ _ _ Hs); cbv zeta; rewrite (rd_dev _ _ _ _ Hs).
  change NDIRECT with 12; change NINDIRECT with 256; change (Z.to_nat 12) with 12%nat; unfold NBLK in Hbn.
  replace (bn <? 12) with false by lia; replace (bn - 12 <? 256) with true by lia.
  apply wp_bind, (bmap_table_spec s ip x bn); auto; [unfold NBLK; lia|]; intros x1 V1 c1 s1 G1 X1 Hk Hfull.
  pose proof (grown_ready Hs G1) as Hs1; destruct (Z.eqb_spec (addr_of 12 x1) 0) as [E|E].
  - apply wp_ret; exists x1, V1; split_and!; [|done|done|intros _; by apply Hfull].
    destruct G1 as [(W & Hn & P) F X]; split; auto; exists W; split; [lia|done].
  - eapply wp_mono; [apply (bmap_entry_spec s1 ip x1 bn c1 Hs1); [| |unfold NBLK; lia|done]|].
    + eapply fctx_held; [|exact Hc]; apply (grown_held G1).
    + destruct G1 as [(W & Hn & P) _ _]; eapply (fpost_room (fs_ok_put mypid ip x1 s [] (rd_ok _ _ _ _ Hs)) P).
      unfold room in *; cbn [flog put_inode lgs] in *; change (flog (put_inode ip x1 s)) with (flog s); lia.
    + intros r c2 s2 (x2 & V2 & G2 & X2 & H1 & H2); exists x2, V2; rewrite (grown_sb G1) in *; split_and!; auto.
      * exact (grown_trans Hs G1 G2).
      * eapply ext_trans; [apply (rd_layout _ _ _ _ Hs)|apply (rd_file _ _ _ _ Hs)|apply (gr_file _ _ _ _ _ _ _ _ _ _ G1)|exact X1|].
        apply (ext_V_l _ (fview s1)); [apply (grown_view G1)|done].
Qed.
End spec.
