(* ===== verification/FsRead.v ===== *)
(** * The content of a file: readi *)

From S2P Require Import Prelude CMem KString Riscv Kalloc Vm Locks Block Bio BioInv BioSpec Log LogSpec LogCrash Fs FsBase FsAlloc FsInode FsFile FsBmap.

(** Byte [off] of a file, and [n] bytes from [off] on. *)
Definition fbyte (V : Z -> list Z) (x : inode) (off : Z) : Z :=
  get8 (V (fblk V x (off / BSIZE))) (Z.to_nat (off mod BSIZE)).
Definition fbytes (V : Z -> list Z) (x : inode) (off n : Z) : list Z :=
  (fun i => fbyte V x (off + i)) <$> seqZ 0 n.

Lemma length_fbytes V x off n : 0 <= n -> length (fbytes V x off n) = Z.to_nat n.
Proof. intros; unfold fbytes; by rewrite length_fmap, length_seqZ. Qed.

Lemma fbytes_app V x off n m : 0 <= n -> 0 <= m -> fbytes V x off (n + m) = fbytes V x off n ++ fbytes V x (off + n) m.
Proof.
  intros Hn Hm; unfold fbytes; rewrite seqZ_app, fmap_app by done; f_equal.
  replace (0 + n) with (n + 0) by lia; rewrite <- (fmap_add_seqZ n 0 m), <- list_fmap_compose.
  apply list_fmap_ext; intros i z _; simpl; f_equal; lia.
Qed.

Lemma fbyte_ext V V' x off : (forall b, V' b = V b) -> fbyte V' x off = fbyte V x off.
Proof. intros H; unfold fbyte; by rewrite (fblk_ext_V V V'), H. Qed.

Lemma fbytes_ext V V' x off n : (forall b, V' b = V b) -> fbytes V' x off n = fbytes V x off n.
Proof. intros H; unfold fbytes; apply list_fmap_ext; intros i z _; by apply fbyte_ext. Qed.

(** The bytes within one block are a slice of it. *)
Lemma fbytes_block V x off m :
  (forall b, length (V b) = 1024%nat) -> 0 <= off -> 0 <= m -> off mod BSIZE + m <= BSIZE ->
  fbytes V x off m = slice (V (fblk V x (off / BSIZE))) (Z.to_nat (off mod BSIZE)) (Z.to_nat m).
Proof.
  intros HV Ho Hm Hb; unfold BSIZE in *; pose proof (Z.mod_pos_bound off 1024 ltac:(lia)) as Hmod.
  pose proof (Z.div_mod off 1024 ltac:(lia)) as Hdm.
  apply list_eq_same_length with (Z.to_nat m).
  - rewrite length_slice; [done|rewrite HV; lia].
  - by rewrite length_fbytes.
  - intros i a b Hi Ha Hb'; unfold fbytes in Ha; rewrite list_lookup_fmap in Ha.
    rewrite lookup_seqZ_lt in Ha by lia; simpl in Ha; injection Ha as <-.
    rewrite lookup_slice, decide_True in Hb' by done; unfold fbyte, BSIZE, get8.
    replace ((off + (0 + Z.of_nat i)) / 1024) with (off / 1024)
      by (apply (Z.div_unique _ _ _ (off mod 1024 + Z.of_nat i)); lia).
    replace ((off + (0 + Z.of_nat i)) mod 1024) with (off mod 1024 + Z.of_nat i)
      by (apply (Z.mod_unique _ _ (off / 1024)); lia).
    replace (Z.to_nat (off mod 1024 + Z.of_nat i)) with (Z.to_nat (off mod 1024) + i)%nat by lia; by rewrite Hb'.
Qed.

Section read.
Variables mypid pagetable : Z.
#[local] Abbreviation ready := (ready mypid).

(** Nothing but the cache has changed. *)
Definition same_fs (c : kctx) (s : fsst) (c' : kctx) (s' : fsst) : Prop :=
  FsBase.fpost mypid c s [] [] [] (fview s) c' s'.

Lemma same_fs_refl c s : fs_ok mypid s [] -> same_fs c s c s.
Proof. intros; by apply fpost_refl. Qed.

Lemma same_fs_trans c s c1 s1 c2 s2 : same_fs c s c1 s1 -> same_fs c1 s1 c2 s2 -> same_fs c s c2 s2.
Proof.
  intros P1 P2; eapply fpost_weaken; [exact (fpost_read P1 P2)|done|]; apply (fp_view P1).
Qed.

Lemma same_fs_ready c s c' s' ip x : same_fs c s c' s' -> ready s ip x -> ready s' ip x.
Proof.
  intros P [H1 H2 H3 H4 H5 H6 H7]; pose proof (fp_keep P) as K; pose proof (fp_view P) as HV; split; rewrite ?(fk_sb K); auto.
  - apply P.
  - eapply layout_keep; [apply (fk_start K)|apply (fk_size K)|done].
  - intros b Hb; rewrite (used_ext _ _ _ _ HV); by apply H3.
  - by rewrite (fk_itable K).
  - by rewrite (get_inode_itable ip s) by apply (fk_itable K).
  - by apply (file_ok_V (fview s)).
Qed.

Lemma same_fs_room c s c' s' k : fs_ok mypid s [] -> same_fs c s c' s' -> room s k -> room s' k.
Proof. intros Hok P Hr; by eapply (fpost_room Hok P). Qed.

(** [bmap] of a block the file has. *)
Lemma bmap_mapped_spec s ip x bn c :
  ready s ip x -> fctx c -> room s 0 -> 0 <= bn < NBLK -> fblk (fview s) x bn <> 0 ->
  wp (bmap mypid ip bn) (fun r c' s' => r = fblk (fview s) x bn /\ same_fs c s c' s') c s.
Proof.
  intros Hs Hc Hr Hbn H0; pose proof (rd_layout _ _ _ _ Hs) as Hla; unfold NBLK in Hbn.
  unfold bmap; apply wp_bind, wp_get; rewrite (rd_x _ _ _ _ Hs); cbv zeta; rewrite (rd_dev _ _ _ _ Hs).
  change NDIRECT with 12; change NINDIRECT with 256; destruct (Z.ltb_spec bn 12) as [Hd|Hd].
  - rewrite fblk_direct in * by lia; replace (addr_of bn x =? 0) with false by lia.
    apply wp_ret; split; [done|]; apply same_fs_refl, Hs.
  - replace (bn - 12 <? 256) with true by lia.
    assert (Hi : addr_of 12 x <> 0) by (intros E; rewrite fblk_none in H0 by lia; done).
    replace (addr_of 12 x =? 0) with false by lia; apply wp_bind, wp_ret; replace (addr_of 12 x =? 0) with false by lia.
    destruct (fl_data _ _ _ (rd_file _ _ _ _ Hs) _ (owned_ind (fview s) x Hi)) as [Hir _].
    change (addr_of NDIRECT x) with (addr_of 12 x) in Hir; pose proof (layout_order _ _ Hla).
    destruct (layout_block _ _ (addr_of 12 x) Hla) as [Hib _]; [lia|].
    apply wp_bind; eapply wp_fbread; [apply Hs|done|done|by intros i Hi'%not_elem_of_nil|exact Hr|simpl; lia|].
    intros i s1 _ P1 Hf _ Hd1; apply wp_bind, wp_fdata; rewrite Hd1.
    rewrite fblk_indirect in * by (done || lia); replace (get32 _ _ =? 0) with false by lia.
    apply wp_bind, wp_ret, wp_bind; eapply wp_fbrelse; [apply P1|apply not_elem_of_nil|done|].
    intros c2 s2 P2; apply wp_ret; split; [done|].
    eapply fpost_weaken; [exact (fpost_read P1 P2)|done|]; apply (fp_view P1).
Qed.

(** One turn of a loop over the blocks of a file. *)
Lemma turn_arith off rem f :
  0 <= off -> 0 < rem -> rem <= BSIZE * Z.of_nat (S f) - off mod BSIZE ->
  let m := Z.min rem (BSIZE - off mod BSIZE) in
  0 < m <= rem /\ off mod BSIZE + m <= BSIZE /\
  (rem - m <= 0 \/ rem - m <= BSIZE * Z.of_nat f - (off + m) mod BSIZE).
Proof.
  intros Ho Hr Hf m; unfold BSIZE in *; pose proof (Z.mod_pos_bound off 1024 ltac:(lia)) as Hm.
  split_and!; [lia..|]; destruct (decide (rem <= 1024 - off mod 1024)); [left; lia|right].
  assert (Hm' : m = 1024 - off mod 1024) by lia.
  assert (E : (off + m) mod 1024 = 0).
  { pose proof (Z.div_mod off 1024 ltac:(lia)); symmetry; apply (Z.mod_unique _ _ (off / 1024 + 1)); lia. }
  rewrite E; lia.
Qed.

Lemma readi_loop_spec f s ip x c off n tot acc :
  ready s ip x -> fctx c -> room s 0 -> 0 <= off -> 0 <= tot <= n -> off + (n - tot) <= i_size x ->
  (n - tot <= 0 \/ n - tot <= BSIZE * Z.of_nat f - off mod BSIZE) ->
  wp (readi_loop mypid pagetable f ip KernDst off n tot acc)
     (fun r c' s' => r = (n, acc ++ fbytes (fview s) x off (n - tot)) /\ same_fs c s c' s') c s.
Proof.
  revert s c off tot acc; induction f as [|f IH]; intros s c off tot acc Hs Hc Hr Ho Ht Hsz Hf;
    cbn [readi_loop]; pose proof (Z.mod_pos_bound off BSIZE eq_refl) as Hmod; destruct (Z.ltb_spec tot n) as [Hlt|Hge].
  1: lia.
  1, 3: apply wp_ret; replace (n - tot) with 0 by lia; rewrite app_nil_r; split; [f_equal; lia|apply same_fs_refl, Hs].
  destruct (turn_arith off (n - tot) f Ho ltac:(lia) ltac:(lia)) as (Hm & Hmb & Hnext).
  set (m := Z.min _ _) in *.
  assert (Hmap : fblk (fview s) x (off / BSIZE) <> 0).
  { apply (fl_mapped _ _ _ (rd_file _ _ _ _ Hs)); [apply Z.div_pos; unfold BSIZE; lia|].
    pose proof (Z.div_mod off BSIZE); unfold BSIZE in *; lia. }
  assert (Hbn : 0 <= off / BSIZE < NBLK).
  { pose proof (fl_size _ _ _ (rd_file _ _ _ _ Hs)); unfold NBLK, BSIZE in *; split; [apply Z.div_pos; lia|].
    apply Z.div_lt_upper_bound; lia. }
  apply wp_bind; eapply wp_mono; [apply (bmap_mapped_spec s ip x (off / BSIZE) c Hs Hc Hr Hbn Hmap)|].
  intros r c1 s1 [-> P1]; replace (fblk _ _ _ =? 0) with false by lia.
  pose proof (same_fs_ready _ _ _ _ _ _ P1 Hs) as Hs1; pose proof (fp_view P1) as HV1.
  apply wp_bind, wp_get, wp_bind; rewrite (rd_x _ _ _ _ Hs1), (rd_dev _ _ _ _ Hs1).
  destruct (fl_data _ _ _ (rd_file _ _ _ _ Hs) _ (owned_blk _ _ _ Hbn Hmap)) as [Hbr _].
  pose proof (layout_order _ _ (rd_layout _ _ _ _ Hs)).
  destruct (layout_block _ _ (fblk (fview s) x (off / BSIZE)) (rd_layout _ _ _ _ Hs)) as [Hbk _]; [lia|].
  assert (Hc1 : fctx c1) by by eapply (fpost_ctx P1).
  eapply wp_fbread; [apply Hs1|done|done|by intros i Hi'%not_elem_of_nil|by eapply same_fs_room; [apply Hs|exact P1|]|simpl; lia|].
  intros i s2 _ P2 Hf2 _ Hd2; apply wp_bind, wp_fdata; rewrite Hd2, HV1; apply wp_bind, wp_ret.
  apply wp_bind; eapply wp_fbrelse; [apply P2|apply not_elem_of_nil|done|]; intros c3 s3 P3; cbn [Z.eqb].
  assert (P13 : same_fs c s c3 s3).
  { eapply same_fs_trans; [exact P1|]; eapply fpost_weaken; [exact (fpost_read P2 P3)|done|apply (fp_view P2)]. }
  eapply wp_mono; [apply IH|].
  - by eapply same_fs_ready.
  - by eapply (fpost_ctx P13).
  - by eapply same_fs_room; [apply Hs| |].
  - lia.
  - lia.
  - lia.
  - replace (n - (tot + m)) with (n - tot - m) by lia; done.
  - intros r c4 s4 [-> P4]; split; [|by eapply same_fs_trans].
    rewrite <- app_assoc; do 2 f_equal; rewrite (fbytes_ext (fview s)) by apply (fp_view P13).
    rewrite <- (fbytes_block (fview s) x off m) by (lia || (intros; by eapply ready_len)).
    rewrite <- fbytes_app by lia; f_equal; lia.
Qed.
End read.

(** How many bytes [readi] returns. *)
Definition read_len (size off n : Z) : Z := if (size <? off) || (2 ^ 32 <=? off + n) then 0 else Z.min n (size - off).

Lemma readi_spec mypid pagetable s ip x c off n :
  ready mypid s ip x -> fctx c -> room s 0 -> 0 <= off < 2 ^ 32 -> 0 <= n < 2 ^ 32 ->
  let m := read_len (i_size x) off n in
  wp (readi mypid pagetable ip KernDst off n) (fun r c' s' => r = (m, fbytes (fview s) x off m) /\ same_fs mypid c s c' s') c s.
Proof.
  intros Hs Hc Hr Ho Hn m; pose proof (fl_size _ _ _ (rd_file _ _ _ _ Hs)) as Hsz; unfold NBLK, BSIZE in Hsz.
  unfold readi; apply wp_bind, wp_get; rewrite (rd_x _ _ _ _ Hs); cbv zeta.
    destruct (decide (off + n < 2 ^ 32)) as [Hlt|Hge].
    - rewrite u32_small by lia; unfold m, read_len; replace (2 ^ 32 <=? off + n) with false by lia; replace (off + n <? off) with false by lia.
      rewrite !orb_false_r; destruct (Z.ltb_spec (i_size x) off) as [H1|H1]; [apply wp_ret; split; [done|apply same_fs_refl, Hs]|].
      set (n' := if i_size x <? off + n then i_size x - off else n).
      assert (En : n' = Z.min n (i_size x - off)) by (unfold n'; case_match; lia).
      rewrite <- En; eapply wp_mono; [apply (readi_loop_spec mypid pagetable _ s ip x c off n' 0 []); auto; try lia|].
      + right; pose proof (Z.mod_pos_bound off BSIZE eq_refl); pose proof (Z.div_mod n' BSIZE); pose proof (Z.mod_pos_bound n' BSIZE eq_refl).
        unfold BSIZE in *; rewrite Z2Nat.id by (pose proof (Z.div_pos n' 1024); lia); lia.
      + intros r c' s'; rewrite Z.sub_0_r; done.
    - assert (E : u32 (off + n) = off + n - 2 ^ 32).
      { unfold u32; symmetry; apply (Z.mod_unique _ _ 1); lia. }
      rewrite E; unfold m, read_len; replace (2 ^ 32 <=? off + n) with true by lia; replace (off + n - 2 ^ 32 <? off) with true by lia.
      rewrite !orb_true_r; apply wp_ret; split; [done|apply same_fs_refl, Hs].
Qed.

(** [readi] into a kernel buffer returns exactly the bytes of the file
    from [off] on, [n] of them or as many as the file has, without changing
    the content of any block; past the end, or when [off + n] wraps around,
    it returns nothing. *)
Theorem readi_correct (mypid pagetable : Z) (s : fsst) (ip : nat) (x : inode) (c : kctx) (off n : Z) :
  ready mypid s ip x -> fctx c -> room s 0 -> 0 <= off < 2 ^ 32 -> 0 <= n < 2 ^ 32 ->
  let m := read_len (i_size x) off n in
  exists c' s', readi mypid pagetable ip KernDst off n c s = Ret (m, fbytes (fview s) x off m) c' s' /\
    held c' = held c /\ ready mypid s' ip x /\ forall b, fview s' b = fview s b.
Proof.
  intros Hs Hc Hr Ho Hn m; pose proof (readi_spec mypid pagetable s ip x c off n Hs Hc Hr Ho Hn) as W.
  apply wp_elim in W as (r & c' & s' & Hrun & -> & P); exists c', s'; split_and!; [done|apply P|by eapply same_fs_ready|apply P].
Qed.

(** ** The root directory of the example *)

Lemma demo_fblk bn : 0 <= bn < NBLK -> fblk (fview demo_fs) demo_root bn = if decide (bn = 0) then 46 else 0.
Proof.
  intros Hb; destruct (decide (bn < 12)) as [H|H]; [|by rewrite fblk_none, decide_False by (lia || done)].
  rewrite fblk_direct by done; unfold addr_of, demo_root; cbn [i_addrs]; case_decide as E; [by subst|].
  replace (Z.to_nat bn) with (S (Z.to_nat (bn - 1))) by lia; cbn [lookup list_lookup].
  change (default 0 (replicate 12 0 !! Z.to_nat (bn - 1)) = 0); by rewrite lookup_replicate_2 by lia.
Qed.

Lemma demo_owned b : owned (fview demo_fs) demo_root b -> b = 46.
Proof.
  intros [H0 [E|(bn & Hb & E)]]; [by vm_compute in E|]; rewrite demo_fblk in E by done; case_decide; congruence.
Qed.

Lemma demo_file_ok : file_ok (fview demo_fs) demo_sb demo_root.
Proof.
  split.
  - done.
  - intros b ->%demo_owned; split; [by vm_compute|]; unfold used; rewrite demo_fview; by vm_compute.
  - intros bn bn' H1 H2; rewrite !demo_fblk by done; repeat case_decide; congruence.
  - intros bn H1; rewrite !demo_fblk by done; case_decide; [by vm_compute|done].
  - by vm_compute.
  - intros bn H1; change (i_size demo_root) with 32; unfold BSIZE; intros H2; rewrite demo_fblk by (unfold NBLK; lia).
    by rewrite decide_True by lia.
Qed.

Lemma demo_ready : ready 1 demo_fs 0 demo_root.
Proof.
  split; [apply demo_fs_ok|apply demo_layout|apply demo_meta|cbn; lia|done|done|apply demo_file_ok].
Qed.

Lemma readi_correct_witness :
  exists c' s', readi 1 0 0 KernDst 16 100 (Ctx [] []) demo_fs = Ret (16, fbytes (fview demo_fs) demo_root 16 16) c' s' /\
    held c' = [] /\ ready 1 s' 0 demo_root /\ forall b, fview s' b = fview demo_fs b.
Proof.
  apply (readi_correct 1 0 demo_fs 0 demo_root (Ctx [] []) 16 100); [apply demo_ready|apply fctx0|done|lia|lia].
Defined.
