(* ===== verification/FsWrite.v ===== *)
(** * writei *)

From S2P Require Import Prelude CMem KString Riscv Kalloc Vm Locks Block Bio BioInv BioSpec Log LogSpec LogCrash Fs FsBase FsAlloc FsInode FsFile FsBmap FsRead.

(** The content of one mapped block is replaced. *)
Lemma write_block sb l V x bn d :
  layout sb l -> file_ok V sb x -> 0 <= bn < NBLK -> fblk V x bn <> 0 ->
  let V' := upd V (fblk V x bn) d in
  file_ok V' sb x /\ chg sb V x V' x /\ (forall k, 0 <= k < NBLK -> fblk V' x k = fblk V x k) /\
  forall o, 0 <= o < NBLK * BSIZE ->
    fbyte V' x o = if decide (o / BSIZE = bn) then get8 d (Z.to_nat (o mod BSIZE)) else fbyte V x o.
Proof.
  intros Hla Hx Hbn H0 V'; pose proof (owned_blk _ _ _ Hbn H0) as Ho; destruct (fl_data _ _ _ Hx _ Ho) as [Hr Hu].
  assert (Hmap : forall k, fblk V' x k = fblk V x k).
  { intros k; apply fblk_ext; [done|]; intros Hi; unfold V', upd; rewrite decide_False; [done|].
    intros E; by apply (fl_ind _ _ _ Hx bn Hbn H0). }
  assert (Hused : forall b, 0 <= b < sb_size sb -> used V' sb b = used V sb b).
  { intros b Hb; pose proof (bblock_range _ _ b Hla Hb); unfold used, V', upd; rewrite decide_False by lia; done. }
  assert (Hown : forall b, owned V' x b <-> owned V x b) by (intros b; unfold owned; by setoid_rewrite Hmap).
  pose proof (layout_order _ _ Hla); pose proof (la_start _ _ Hla); pose proof (la_lsize _ _ Hla).
  split_and!; auto.
  - destruct Hx as [F1 F2 F3 F4 F5 F6]; split; auto; try (intros *; rewrite !Hmap; auto).
    intros b Hb; apply Hown in Hb; destruct (F2 b Hb); rewrite Hused by lia; done.
  - split; auto; try done.
    + intros b Hb; by rewrite Hused.
    + intros b Hb; left; by apply Hown.
    + intros b _ Hn _; unfold V', upd; rewrite decide_False; [done|by intros ->].
  - intros o Hoo; unfold fbyte; rewrite Hmap; assert (0 <= o / BSIZE < NBLK).
    { unfold NBLK, BSIZE in *; split; [apply Z.div_pos; lia|apply Z.div_lt_upper_bound; lia]. }
    case_decide as E; [rewrite E; unfold V', upd; by rewrite decide_True|].
    unfold V', upd; rewrite decide_False; [done|]; intros E'.
    apply E; apply (fl_inj _ _ _ Hx); auto; congruence.
Qed.

Lemma get8_splice d o bs i :
  (o + length bs <= length d)%nat ->
  get8 (splice d o bs) i = if decide (o <= i < o + length bs)%nat then get8 bs (i - o) else get8 d i.
Proof. intros H; unfold get8; rewrite lookup_splice by done; by case_decide. Qed.

Lemma get8_slice l o n i : (i < n)%nat -> get8 (slice l o n) i = get8 l (o + i).
Proof. intros H; unfold get8; by rewrite lookup_slice, decide_True. Qed.

Lemma get8_app_l c d o : (o < length c)%nat -> get8 (c ++ d) o = get8 c o.
Proof. intros H; unfold get8; by rewrite lookup_app_l. Qed.
Lemma get8_app_r c d o : (length c <= o)%nat -> get8 (c ++ d) o = get8 d (o - length c).
Proof. intros H; unfold get8; by rewrite lookup_app_r. Qed.

(** The bytes that [either_copyin] gets from a source while memory is [u]. *)
Definition reads (pagetable : Z) (u : pmem) (sr : src) (l : list Z) : Prop :=
  forall tot m c s, um s = u -> 0 <= tot -> 0 < m -> tot + m <= Z.of_nat (length l) ->
    either_copyin pagetable sr tot m c s = Ret (0, slice l (Z.to_nat tot) (Z.to_nat m)) c s.

Lemma reads_kern pagetable u l : reads pagetable u (KernSrc l) l.
Proof. done. Qed.

Section write.
Variables (mypid pagetable : Z) (sr : src).
#[local] Abbreviation ready := (ready mypid).
#[local] Abbreviation grown := (grown mypid).

(** What the loop has written: [dn] bytes at [off], taken from [src]. *)
Definition wrote_bytes (V V' : Z -> list Z) (x x' : inode) (off dn : Z) (src : list Z) (tot : Z) : Prop :=
  (forall o, off <= o < off + dn -> fblk V' x' (o / BSIZE) <> 0 /\ fbyte V' x' o = get8 src (Z.to_nat (tot + (o - off)))) /\
  (forall o, 0 <= o < NBLK * BSIZE -> ~ (off <= o < off + dn) -> fblk V x (o / BSIZE) <> 0 -> fbyte V' x' o = fbyte V x o).

Lemma blk_range o : 0 <= o < NBLK * BSIZE -> 0 <= o / BSIZE < NBLK.
Proof. unfold NBLK, BSIZE; intros; split; [apply Z.div_pos; lia|apply Z.div_lt_upper_bound; lia]. Qed.

(** A run of the file system that ends with the write of one block. *)
Lemma ext_fbyte sb V x V' x' o :
  ext sb V x V' x' -> 0 <= o < NBLK * BSIZE -> fblk V x (o / BSIZE) <> 0 -> fbyte V' x' o = fbyte V x o.
Proof. intros He Ho H0; unfold fbyte; destruct (ex_old _ _ _ _ _ He _ (blk_range o Ho) H0) as [-> ->]; done. Qed.

(** Offsets in the same block as [off]. *)
Lemma same_block o off m :
  0 <= off -> 0 <= m -> off mod BSIZE + m <= BSIZE -> off <= o < off + m ->
  o / BSIZE = off / BSIZE /\ o mod BSIZE = off mod BSIZE + (o - off).
Proof.
  unfold BSIZE; intros Ho Hm Hb Hr; pose proof (Z.mod_pos_bound off 1024 ltac:(lia)); pose proof (Z.div_mod off 1024 ltac:(lia)).
  split; symmetry; [apply (Z.div_unique _ _ _ (off mod 1024 + (o - off)))|apply (Z.mod_unique _ _ (off / 1024))]; lia.
Qed.

Lemma block_written sb l V x V1 x1 off m tot src :
  layout sb l -> file_ok V1 sb x1 -> ext sb V x V1 x1 -> (forall b, length (V1 b) = 1024%nat) ->
  0 <= off -> 0 < m -> off + m <= NBLK * BSIZE -> off mod BSIZE + m <= BSIZE -> fblk V1 x1 (off / BSIZE) <> 0 ->
  0 <= tot -> tot + m <= Z.of_nat (length src) ->
  let r := fblk V1 x1 (off / BSIZE) in
  let V2 := upd V1 r (splice (V1 r) (Z.to_nat (off mod BSIZE)) (slice src (Z.to_nat tot) (Z.to_nat m))) in
  file_ok V2 sb x1 /\ chg sb V1 x1 V2 x1 /\ wrote_bytes V V2 x x1 off m src tot.
Proof.
  intros Hla F1 X1 Hlen Ho Hm Hsz Hmb H0 Ht Hsrc r V2; pose proof (blk_range off ltac:(lia)) as Hbn.
  set (d := splice _ _ _) in *; destruct (write_block sb l V1 x1 (off / BSIZE) d Hla F1 Hbn H0) as (F2 & C2 & Hmap & Hbyte).
  pose proof (Z.mod_pos_bound off BSIZE eq_refl) as Hmod; fold r in F2, C2, Hmap, Hbyte; fold V2 in F2, C2, Hmap, Hbyte.
  assert (Hls : length (slice src (Z.to_nat tot) (Z.to_nat m)) = Z.to_nat m) by (apply length_slice; lia).
  assert (Hd : forall i, get8 d i = if decide (Z.to_nat (off mod BSIZE) <= i < Z.to_nat (off mod BSIZE) + Z.to_nat m)%nat
    then get8 (slice src (Z.to_nat tot) (Z.to_nat m)) (i - Z.to_nat (off mod BSIZE)) else get8 (V1 r) i).
  { intros i; unfold d; rewrite get8_splice; rewrite Hls; [done|]; rewrite Hlen; unfold BSIZE in *; lia. }
  split_and!; auto; split.
  - intros o Hoo; destruct (same_block o off m) as [E1 E2]; try lia; rewrite E1; split.
    + rewrite Hmap by done; done.
    + rewrite Hbyte, decide_True by (done || lia); rewrite E2, Hd, decide_True by lia.
      rewrite get8_slice by lia; f_equal; lia.
  - intros o Hoo Hn Hz; rewrite Hbyte by done; rewrite <- (ext_fbyte _ _ _ _ _ o X1 Hoo Hz).
    case_decide as E; [|done]; unfold fbyte; rewrite E; fold r; rewrite Hd, decide_False; [done|].
    pose proof (Z.div_mod o BSIZE); pose proof (Z.div_mod off BSIZE); pose proof (Z.mod_pos_bound o BSIZE eq_refl).
    unfold BSIZE in *; rewrite E in *; lia.
Qed.

Lemma wrote_bytes_trans V V1 V2 x x1 x2 sb off m dn tot src :
  chg sb V x V1 x1 -> chg sb V1 x1 V2 x2 -> 0 <= off -> 0 <= m -> 0 <= dn -> off + m + dn <= NBLK * BSIZE ->
  wrote_bytes V V1 x x1 off m src tot -> wrote_bytes V1 V2 x1 x2 (off + m) dn src (tot + m) ->
  wrote_bytes V V2 x x2 off (m + dn) src tot.
Proof.
  intros C1 C2 Ho Hm Hd Hsz [A1 A2] [B1 B2]; split.
  - intros o Hoo; destruct (decide (o < off + m)) as [Hlt|Hge].
    + destruct (A1 o ltac:(lia)) as [Hz Hb]; rewrite (ch_map _ _ _ _ _ C2) by (done || (apply blk_range; lia)); split; [done|].
      rewrite B2 by (done || lia); done.
    + destruct (B1 o ltac:(lia)) as [Hz ->]; split; [done|]; f_equal; lia.
  - intros o Hoo Hn Hz; rewrite B2; auto; [apply A2; (done || lia)|lia|].
    rewrite (ch_map _ _ _ _ _ C1); [done|by apply blk_range|done].
Qed.

Definition write_post (k : nat) (c : kctx) (s : fsst) (ip : nat) (x : inode) (src : list Z) (off n tot : Z)
    (r : Z * Z) (c' : kctx) (s' : fsst) : Prop :=
  exists x' V' dn, r = (tot + dn, off + dn) /\ 0 <= dn <= n - tot /\ grown (6 * k) c s ip x x' V' c' s' /\
    wrote_bytes (fview s) V' x x' off dn src tot /\
    (dn < n - tot -> full V' (sb s) /\ (dn = 0 \/ (off + dn) mod BSIZE = 0)).

Lemma write_post_done k c s ip x src off n tot :
  ready s ip x -> tot <= n -> (tot < n -> full (fview s) (sb s)) -> write_post k c s ip x src off n tot (tot, off) c s.
Proof.
  intros Hs Ht Hfull; exists x, (fview s), 0; split_and!; [f_equal; lia|lia|lia|by apply grown_refl| |intros; split; [apply Hfull; lia|by left]].
  split; [intros; lia|done].
Qed.

Lemma grown_um n c s ip x x' V' c' s' : grown n c s ip x x' V' c' s' -> um s' = um s.
Proof. intros [(W & _ & P) _ _]; apply (fk_um (fp_keep P)). Qed.

(** The turn: look up, read, splice, log, release. *)
Lemma write_turn s ip x c off m tot src (Q : Z * Z -> kctx -> fsst -> Prop) (rest : M fsst (Z * Z)) :
  reads pagetable (um s) sr src -> ready s ip x -> fctx c -> room s 6 -> 0 <= off -> 0 < m -> off + m <= NBLK * BSIZE -> off mod BSIZE + m <= BSIZE ->
  0 <= tot -> tot + m <= Z.of_nat (length src) ->
  (forall x1 V1 c1 s1, grown 5 c s ip x x1 V1 c1 s1 -> ext (sb s) (fview s) x V1 x1 -> full V1 (sb s) -> Q (tot, off) c1 s1) ->
  (forall x1 V2 c2 s2, grown 6 c s ip x x1 V2 c2 s2 -> wrote_bytes (fview s) V2 x x1 off m src tot -> wp rest Q c2 s2) ->
  wp (let* addr := bmap mypid ip (off / BSIZE) in
      if addr =? 0 then kret (tot, off)
      else
        let* s := kget in
        let* bp := fbread mypid (i_dev (get_inode ip s)) addr in
        let* (r, bytes) := either_copyin pagetable sr tot m in
        let* d := fdata bp in
        fset_data bp (splice d (Z.to_nat (off mod BSIZE)) bytes) ;;;
        if r =? -1 then
          fbrelse mypid bp ;;;
          kret (tot, off)
        else
          flog_write bp ;;;
          fbrelse mypid bp ;;;
          rest) Q c s.
Proof.
  intros HS Hs Hc Hr Ho Hm Hsz Hmb Ht Hsrc HQ0 HQ; pose proof (rd_layout _ _ _ _ Hs) as Hla.
  apply wp_bind; eapply wp_mono; [apply (bmap_spec mypid s ip x (off / BSIZE) c Hs Hc)|].
  { eapply room_le; [exact Hr|lia]. }
  { apply blk_range; lia. }
  intros r c1 s1 (x1 & V1 & G1 & X1 & Hm1 & Hf1); destruct (Z.eqb_spec r 0) as [E|E]; [apply wp_ret; eapply HQ0; eauto|].
  specialize (Hm1 E); pose proof (grown_ready Hs G1) as Hs1; pose proof (grown_view G1) as HV1.
  pose proof (gr_file _ _ _ _ _ _ _ _ _ _ G1) as F1.
  assert (Hc1 : fctx c1) by (eapply fctx_held; [|exact Hc]; apply (grown_held G1)).
  assert (Hr1 : room s1 1).
  { destruct G1 as [(W & Hn & P) _ _]; eapply (fpost_room (fs_ok_put mypid ip x1 s [] (rd_ok _ _ _ _ Hs)) P).
    unfold room in *; change (flog (put_inode ip x1 s)) with (flog s); lia. }
  assert (Hlen : forall b, length (V1 b) = 1024%nat) by (intros b; rewrite <- HV1; by eapply ready_len).
  apply wp_bind, wp_get, wp_bind; rewrite (rd_x _ _ _ _ Hs1), (rd_dev _ _ _ _ Hs1).
  destruct (fl_data _ _ _ F1 r) as [Hbr _]; [rewrite <- Hm1; apply owned_blk; [apply blk_range; lia|congruence]|].
  pose proof (layout_order _ _ Hla); destruct (layout_block _ _ r Hla) as [Hbk Hbh]; [lia|].
  eapply wp_fbread; [apply Hs1|done|done|by intros i Hi'%not_elem_of_nil|exact Hr1|simpl; lia|].
  intros i s2 _ P2 Hf2 Hb2 Hd2; apply wp_bind; unfold wp at 1; rewrite HS; cbv beta iota; try lia.
  2:{ rewrite (fk_um (fp_keep P2)); apply (grown_um _ _ _ _ _ _ _ _ _ G1). }
  apply wp_bind, wp_fdata; rewrite Hd2, HV1; cbn [Z.eqb].
  set (d := splice _ _ _).
  assert (Hld : length d = 1024%nat).
  { unfold d; rewrite length_splice; [done|]; rewrite Hlen, length_slice by lia; pose proof (Z.mod_pos_bound off BSIZE eq_refl); unfold BSIZE in *; lia. }
  eapply (wp_fcommit_then mypid s2 []); rewrite ?Hb2; [apply P2|apply not_elem_of_nil|done|done|done| | |].
  { destruct G1 as [(W & _ & P) _ _]; unfold home in *; rewrite Hf2, (fk_start (fp_keep P)), (fk_size (fp_keep P)); done. }
  { unfold room; rewrite Hf2; exact Hr1. }
  intros c3 s3 P3.
  destruct (block_written (sb s) (flog s) (fview s) x V1 x1 off m tot src) as (F3 & C3 & HW); auto; [congruence|].
  rewrite Hm1 in F3, C3, HW; fold d in F3, C3, HW.
  refine (HQ x1 _ c3 s3 (grown_trans Hs G1 (_ : grown 1 c1 s1 ip x1 x1 _ c3 s3)) HW).
  pose proof (grown_sb G1) as Hsb; split; rewrite ?Hsb; [|exact F3|].
  - exists [r]; split; [simpl; lia|]; rewrite (put_ready mypid s1 ip x1 Hs1).
    eapply fpost_weaken; [exact (fpost_read P2 P3)|done|]; intros b; unfold upd.
    case_decide; [done|]; by rewrite (fp_view P2), HV1.
  - by apply (chg_V_l _ V1).
Qed.

Lemma grown_weaken n m c s ip x x' V' c' s' : (n <= m)%nat -> grown n c s ip x x' V' c' s' -> grown m c s ip x x' V' c' s'.
Proof. intros Hnm [(W & Hn & P) F X]; split; auto; exists W; split; [lia|done]. Qed.

Lemma writei_loop_spec k f s ip x c off n tot src :
  reads pagetable (um s) sr src -> ready s ip x -> fctx c -> room s (6 * k) -> 0 <= off -> 0 <= tot <= n -> n <= Z.of_nat (length src) ->
  off + (n - tot) <= NBLK * BSIZE -> (n - tot <= 0 \/ n - tot <= BSIZE * Z.of_nat k - off mod BSIZE) -> (k <= f)%nat ->
  wp (writei_loop mypid pagetable f ip sr off n tot) (write_post k c s ip x src off n tot) c s.
Proof.
  revert f s x c off tot; induction k as [|k IH]; intros f s x c off tot HS Hs Hc Hr Ho Ht Hsrc Hsz Hk Hf.
  { pose proof (Z.mod_pos_bound off BSIZE eq_refl).
    destruct f; cbn [writei_loop]; replace (tot <? n) with false by lia; apply wp_ret, write_post_done; auto; lia. }
  destruct f as [|f]; [lia|]; cbn [writei_loop]; destruct (Z.ltb_spec tot n) as [Hlt|Hge];
    [|apply wp_ret, write_post_done; auto; lia].
  pose proof (Z.mod_pos_bound off BSIZE eq_refl) as Hmod.
  destruct (turn_arith off (n - tot) k Ho ltac:(lia) ltac:(lia)) as (Hm & Hmb & Hnext); set (m := Z.min _ _) in *; cbv zeta.
  eapply (write_turn s ip x c off m tot src); eauto; try lia.
  { eapply room_le; [exact Hr|lia]. }
  - intros x1 V1 c1 s1 G1 X1 Hfull; exists x1, V1, 0; split_and!; [f_equal; lia|lia|lia| | |intros _; split; [done|by left]].
    + eapply grown_weaken; [|exact G1]; lia.
    + split; [intros; lia|]; intros o Hoo _ Hz; by apply (ext_fbyte (sb s)).
  - intros x1 V2 c2 s2 G2 HW; pose proof (grown_ready Hs G2) as Hs2; pose proof (grown_view G2) as HV2.
    eapply wp_mono; [apply (IH f s2 x1 c2 (off + m) (tot + m)); auto; try lia|].
    + by rewrite (grown_um _ _ _ _ _ _ _ _ _ G2).
    + eapply fctx_held; [|exact Hc]; apply (grown_held G2).
    + destruct G2 as [(W & Hn & P) _ _]; eapply (fpost_room (fs_ok_put mypid ip x1 s [] (rd_ok _ _ _ _ Hs)) P).
      unfold room in *; change (flog (put_inode ip x1 s)) with (flog s); lia.
    + intros r c3 s3 (x3 & V3 & dn & -> & Hdn & G3 & HW3 & Hfull); exists x3, V3, (m + dn); split_and!.
      * f_equal; lia.
      * lia.
      * lia.
      * eapply grown_weaken; [|exact (grown_trans Hs G2 G3)]; lia.
      * pose proof (gr_chg _ _ _ _ _ _ _ _ _ _ G3) as C3; rewrite (grown_sb G2) in C3.
        eapply (wrote_bytes_trans _ V2); [apply (gr_chg _ _ _ _ _ _ _ _ _ _ G2)|by apply (chg_V_l _ (fview s2)); [|exact C3]|lia..|exact HW|].
        destruct HW3 as [B1 B2]; split; [done|]; intros o; rewrite <- (fblk_ext_V V2 (fview s2)), <- (fbyte_ext V2 (fview s2)) by done; apply B2.
      * intros Hlt'; rewrite <- (grown_sb G2); destruct (Hfull ltac:(lia)) as [Hfl Hst]; split; [done|right].
        destruct Hst as [-> |Hst]; [|by replace (off + (m + dn)) with (off + m + dn) by lia].
        assert (Em : m = BSIZE - off mod BSIZE) by lia; rewrite Z.add_0_r.
        pose proof (Z.div_mod off BSIZE ltac:(done)); symmetry; apply (Z.mod_unique _ _ (off / BSIZE + 1)); unfold BSIZE in *; lia.
Qed.
End write.
