(* ===== verification/FsWriteOk.v ===== *)
(** * Correctness of writei, and isolation between files *)

From S2P Require Import Prelude CMem KString Riscv Kalloc Vm Locks Block Bio BioInv BioSpec Log LogSpec LogCrash Fs FsBase FsAlloc FsInode FsFile FsBmap FsRead FsWrite.

(** Two files that share no block. *)
Definition disjoint_files (V : Z -> list Z) (x y : inode) : Prop := forall b, owned V y b -> ~ owned V x b.

(** The blocks of a file decide its mapping and its content. *)
Lemma file_same V V' sb y :
  file_ok V sb y -> (forall b, owned V y b -> V' b = V b) ->
  (forall bn, fblk V' y bn = fblk V y bn) /\ (forall b, owned V' y b <-> owned V y b) /\
  (forall o, 0 <= o < i_size y -> fbyte V' y o = fbyte V y o).
Proof.
  intros Hy HV; assert (Hm : forall bn, fblk V' y bn = fblk V y bn).
  { intros bn; apply fblk_ext; [done|]; intros Hi; apply HV; by apply (owned_ind V y). }
  split_and!; auto.
  - intros b; unfold owned; by setoid_rewrite Hm.
  - intros o Ho; unfold fbyte; rewrite Hm, HV; [done|]; pose proof (fl_size _ _ _ Hy).
    apply owned_blk; [apply blk_range; lia|]; apply (fl_mapped _ _ _ Hy); unfold BSIZE in *; [apply Z.div_pos; lia|].
    pose proof (Z.mul_div_le o 1024); lia.
Qed.

Lemma file_ok_same V V' sb y :
  file_ok V sb y -> (forall b, owned V y b -> V' b = V b) ->
  (forall b, bmap_end sb <= b < sb_size sb -> used V sb b = true -> used V' sb b = true) -> file_ok V' sb y.
Proof.
  intros Hy HV Hu; destruct (file_same _ _ _ _ Hy HV) as (Hm & Ho & _); destruct Hy as [F1 F2 F3 F4 F5 F6].
  split; auto; try (intros *; rewrite !Hm; auto).
  intros b Hb; apply Ho, F2 in Hb as [? ?]; auto.
Qed.

(** A change for one file does not touch another. *)
Lemma chg_other sb l V x V' x' y :
  layout sb l -> chg sb V x V' x' -> file_ok V sb y -> disjoint_files V x y ->
  file_ok V' sb y /\ disjoint_files V' x' y /\ (forall o, 0 <= o < i_size y -> fbyte V' y o = fbyte V y o).
Proof.
  intros Hla Hc Hy Hd; assert (HV : forall b, owned V y b -> V' b = V b).
  { intros b Hb; destruct (fl_data _ _ _ Hy b Hb) as [Hr Hu]; apply (ch_frame _ _ _ _ _ Hc).
    - unfold is_bmap; lia.
    - by apply Hd.
    - auto. }
  destruct (file_same _ _ _ _ Hy HV) as (Hm & Ho & Hb); split_and!; auto.
  - apply (file_ok_same V); auto; intros b Hbr; pose proof (layout_order _ _ Hla); pose proof (la_start _ _ Hla);
      pose proof (la_lsize _ _ Hla); apply (ch_used _ _ _ _ _ Hc); lia.
  - intros b Hby Hbx; apply Ho in Hby; destruct (ch_own _ _ _ _ _ Hc b Hbx) as [?|[_ Hu]]; [by apply (Hd b)|].
    destruct (fl_data _ _ _ Hy b Hby); congruence.
Qed.

(** The inode blocks are not part of any file. *)
Lemma file_ok_meta V V' sb l x :
  layout sb l -> (forall b, sb_bmapstart sb <= b < sb_size sb -> V' b = V b) -> file_ok V sb x ->
  file_ok V' sb x /\ (forall b, owned V' x b <-> owned V x b) /\ (forall o, 0 <= o < NBLK * BSIZE -> fblk V x (o / BSIZE) <> 0 -> fbyte V' x o = fbyte V x o) /\
  (forall bn, fblk V' x bn = fblk V x bn).
Proof.
  intros Hla HV Hx; pose proof (layout_order _ _ Hla) as Hord; pose proof (la_start _ _ Hla); pose proof (la_lsize _ _ Hla).
  assert (HV' : forall b, owned V x b -> V' b = V b) by (intros b Hb; apply HV; destruct (fl_data _ _ _ Hx b Hb); lia).
  destruct (file_same _ _ _ _ Hx HV') as (Hm & Ho & _); split_and!; auto.
  - apply (file_ok_same V); auto; intros b Hb Hu; rewrite <- Hu; unfold used; f_equal; apply HV.
    pose proof (bblock_range _ _ b Hla); lia.
  - intros o Hoo Hz; unfold fbyte; rewrite Hm, HV'; [done|]; apply owned_blk; [by apply blk_range|done].
Qed.

Lemma file_ok_size V sb x z :
  file_ok V sb x -> 0 <= z <= NBLK * BSIZE -> (forall bn, 0 <= bn -> bn * BSIZE < z -> fblk V x bn <> 0) ->
  file_ok V sb (set_size z x).
Proof. intros [F1 F2 F3 F4 F5 F6] Hz Hm; by split. Qed.

(** The number of blocks [n] bytes at [off] reach into. *)
Definition nblks (off n : Z) : nat := Z.to_nat ((off mod BSIZE + n + 1023) / BSIZE).

Lemma nblks_enough off n : 0 <= off -> 0 <= n -> n <= BSIZE * Z.of_nat (nblks off n) - off mod BSIZE.
Proof.
  intros Ho Hn; unfold nblks; pose proof (Z.mod_pos_bound off BSIZE eq_refl); unfold BSIZE in *.
  pose proof (Z.div_mod (off mod 1024 + n + 1023) 1024); pose proof (Z.mod_pos_bound (off mod 1024 + n + 1023) 1024).
  pose proof (Z.div_pos (off mod 1024 + n + 1023) 1024); lia.
Qed.

Lemma nblks_fuel off n : 0 <= off -> 0 <= n -> (nblks off n <= Z.to_nat (n / BSIZE + 2))%nat.
Proof.
  intros Ho Hn; unfold nblks; pose proof (Z.mod_pos_bound off BSIZE eq_refl); unfold BSIZE in *.
  apply Z2Nat.inj_le; [apply Z.div_pos; lia|pose proof (Z.div_pos n 1024); lia|].
  transitivity ((n + 2 * 1024) / 1024); [apply Z.div_le_mono; lia|]; rewrite Z.div_add by lia; lia.
Qed.

Section writei.
Variables (mypid pagetable : Z) (s : fsst) (ip : nat) (x : inode) (c : kctx) (off : Z) (src : list Z).
#[local] Abbreviation n := (Z.of_nat (length src)).

(** The end of [writei]: the size, and the inode on disk. *)
Lemma writei_tail s1 c1 x1 dn k :
  ready mypid s1 ip x1 -> fctx c1 -> room s1 (S k) -> 0 <= i_inum x1 < sb_ninodes (sb s1) ->
  let x2 := set_size (Z.max (i_size x1) (off + dn)) x1 in
  let ib := IBLOCK (i_inum x1) (sb s1) in
  let V2 := upd (fview s1) ib (write_dinode (fview s1 ib) (dinode_off (i_inum x1)) x2) in
  wp (let* s := kget in
      (if i_size (get_inode ip s) <? off + dn then kmod (upd_inode ip (set_size (off + dn))) else kret tt) ;;;
      iupdate mypid ip ;;;
      kret dn)
     (fun r c2 s2 => r = dn /\ FsBase.fpost mypid c1 (put_inode ip x2 s1) [] [] [ib] V2 c2 s2) c1 s1.
Proof.
  intros Hs1 Hc1 Hr1 Hin x2 ib V2; apply wp_bind, wp_get; rewrite (rd_x _ _ _ _ Hs1); apply wp_bind.
  assert (Hx2 : forall Q : unit -> kctx -> fsst -> Prop, Q tt c1 (put_inode ip x2 s1) ->
    wp (if i_size x1 <? off + dn then kmod (upd_inode ip (set_size (off + dn))) else kret tt) Q c1 s1).
  { intros Q HQ; destruct (Z.ltb_spec (i_size x1) (off + dn)) as [Hlt|Hge].
    - apply wp_mod; rewrite upd_put_inode, (rd_x _ _ _ _ Hs1) by apply Hs1.
      unfold x2 in HQ; rewrite Z.max_r in HQ by lia; exact HQ.
    - apply wp_ret; unfold x2 in HQ; rewrite Z.max_l in HQ by lia.
      replace (set_size (i_size x1) x1) with x1 in HQ by by destruct x1.
      by rewrite (put_ready mypid) in HQ. }
  apply Hx2, wp_bind; pose proof (get_put_inode ip x2 s1 (rd_ip _ _ _ _ Hs1)) as Hg.
  opose proof* (iupdate_spec mypid (put_inode ip x2 s1) [] ip c1 1) as W; rewrite ?Hg.
  - apply fs_ok_put, Hs1.
  - done.
  - apply Hs1.
  - apply no_lock.
  - apply (rd_dev _ _ _ _ Hs1).
  - done.
  - apply (fl_len _ _ _ (rd_file _ _ _ _ Hs1)).
  - unfold room in *; change (flog (put_inode ip x2 s1)) with (flog s1); lia.
  - lia.
  - simpl; lia.
  - eapply wp_mono; [exact W|]; intros [] c2 s2 P2; apply wp_ret; split; [done|]; rewrite Hg in P2; exact P2.
Qed.

(** What a write of [dn] bytes at [off] has done to the file, to the rest of
    the disk and to the on-disk inode. *)
Record file_written (dn : Z) (c' : kctx) (s' : fsst) (x' : inode) : Prop := FileWritten {
  fw_held : held c' = held c;
  fw_ready : ready mypid s' ip x';
  fw_room : room s' 0;
  fw_um : um s' = um s;
  fw_log : start (flog s') = start (flog s) /\ Log.size (flog s') = Log.size (flog s) /\
    outstanding (flog s') = outstanding (flog s) /\ committing (flog s') = committing (flog s);
  fw_disk0 : disk0 (bc (lgs s')) = disk0 (bc (lgs s));
  fw_writes : writes (bc (lgs s')) = writes (bc (lgs s));
  fw_sb : sb s' = sb s;
  fw_itable : itable s' = <[ip := x']> (itable s);
  fw_meta : same_meta (set_size (i_size x') x) x';
  fw_size : i_size x' = Z.max (i_size x) (off + dn);
  fw_new : forall o, off <= o < off + dn -> fbyte (fview s') x' o = get8 src (Z.to_nat (o - off));
  fw_old : forall o, 0 <= o < i_size x -> ~ (off <= o < off + dn) -> fbyte (fview s') x' o = fbyte (fview s) x o;
  fw_full : dn < n -> full (fview s') (sb s') /\ (dn = 0 \/ (off + dn) mod BSIZE = 0);
  fw_others : forall y, file_ok (fview s) (sb s) y -> disjoint_files (fview s) x y ->
    file_ok (fview s') (sb s') y /\ disjoint_files (fview s') x' y /\
    forall o, 0 <= o < i_size y -> fbyte (fview s') y o = fbyte (fview s) y o;
  fw_disk : inode_ok x' -> forall y, read_dinode (fview s' (IBLOCK (i_inum x) (sb s))) (dinode_off (i_inum x)) y = with_dinode x' y
}.
End writei.

Section written.
Variables (mypid : Z) (s s1 s2 : fsst) (ip : nat) (x x1 : inode) (c c1 c2 : kctx) (off dn : Z) (src : list Z) (k : nat) (V1 : Z -> list Z).
#[local] Abbreviation n := (Z.of_nat (length src)).
#[local] Abbreviation ib := (IBLOCK (i_inum x) (sb s)).
#[local] Abbreviation x2 := (set_size (Z.max (i_size x1) (off + dn)) x1).
Hypothesis Hs : ready mypid s ip x.
Hypothesis G1 : grown mypid k c s ip x x1 V1 c1 s1.
Hypothesis HW : wrote_bytes (fview s) V1 x x1 off dn src 0.
Hypothesis Hoff : 0 <= off <= i_size x.
Hypothesis Hdn : 0 <= dn <= n.
Hypothesis Hmax : off + n <= NBLK * BSIZE.
Hypothesis Hin : 0 <= i_inum x < sb_ninodes (sb s).
Hypothesis P2 : FsBase.fpost mypid c1 (put_inode ip x2 s1) [] [] [ib]
  (upd (fview s1) ib (write_dinode (fview s1 ib) (dinode_off (i_inum x)) x2)) c2 s2.
#[local] Set Default Proof Using "Hs G1 HW Hoff Hdn Hmax Hin P2".

Lemma meta1 : i_size x1 = i_size x /\ i_inum x1 = i_inum x /\ i_dev x1 = i_dev x.
Proof. destruct (ch_meta _ _ _ _ _ (gr_chg _ _ _ _ _ _ _ _ _ _ G1)) as (?&?&_&_&_&_&_&_&_&?); auto. Qed.

Lemma sb2 : sb s2 = sb s.
Proof. rewrite (fk_sb (fp_keep P2)); apply (grown_sb G1). Qed.

Lemma view2 b : sb_bmapstart (sb s) <= b < sb_size (sb s) -> fview s2 b = V1 b.
Proof.
  intros Hb; pose proof (iblock_range _ _ _ (rd_layout _ _ _ _ Hs) Hin); rewrite (fp_view P2); unfold upd.
  rewrite decide_False by lia; apply (grown_view G1).
Qed.

(** The new size is covered by mapped blocks. *)
Lemma mapped1 bn : 0 <= bn -> bn * BSIZE < Z.max (i_size x1) (off + dn) -> fblk V1 x1 bn <> 0.
Proof.
  intros Hb Hlt; pose proof meta1 as (Es & _); destruct HW as [A1 _].
  destruct (decide (bn * BSIZE < i_size x1)) as [H1|H1]; [by apply (fl_mapped _ _ _ (gr_file _ _ _ _ _ _ _ _ _ _ G1))|].
  destruct (A1 (bn * BSIZE)) as [Hz _]; [lia|]; by rewrite Z.div_mul in Hz by (unfold BSIZE; lia).
Qed.

Lemma file2 : file_ok (fview s2) (sb s) x2 /\ (forall b, owned (fview s2) x2 b <-> owned V1 x1 b) /\
  (forall o, 0 <= o < NBLK * BSIZE -> fblk V1 x1 (o / BSIZE) <> 0 -> fbyte (fview s2) x2 o = fbyte V1 x1 o).
Proof.
  pose proof meta1 as (Es & _); pose proof (fl_size _ _ _ (gr_file _ _ _ _ _ _ _ _ _ _ G1)) as Hsz.
  destruct (file_ok_meta V1 (fview s2) (sb s) (flog s) x1 (rd_layout _ _ _ _ Hs) view2 (gr_file _ _ _ _ _ _ _ _ _ _ G1)) as (F & Ho & Hb & Hm).
  split_and!; auto; apply file_ok_size; [done|lia|].
  intros bn Hbn Hlt; rewrite Hm; by apply mapped1.
Qed.

Lemma used2 b : 0 <= b < sb_size (sb s) -> used (fview s2) (sb s) b = used V1 (sb s) b.
Proof.
  intros Hb; unfold used; rewrite view2; [done|]; pose proof (bblock_range _ _ _ (rd_layout _ _ _ _ Hs) Hb).
  pose proof (layout_order _ _ (rd_layout _ _ _ _ Hs)); lia.
Qed.

Lemma others2 y : file_ok (fview s) (sb s) y -> disjoint_files (fview s) x y ->
  file_ok (fview s2) (sb s2) y /\ disjoint_files (fview s2) x2 y /\
  forall o, 0 <= o < i_size y -> fbyte (fview s2) y o = fbyte (fview s) y o.
Proof.
  intros Hy Hd; pose proof (rd_layout _ _ _ _ Hs) as Hla; destruct file2 as (_ & Hown & _); rewrite sb2.
  destruct (chg_other _ _ _ _ _ _ y Hla (gr_chg _ _ _ _ _ _ _ _ _ _ G1) Hy Hd) as (F & D & B).
  destruct (file_ok_meta V1 (fview s2) (sb s) (flog s) y Hla view2 F) as (F2 & Ho2 & Hb2 & Hm2).
  split_and!; auto.
  - intros b Hb Hbx; apply (D b); [by apply Ho2|by apply Hown].
  - intros o Hoo; pose proof (fl_size _ _ _ F); rewrite Hb2, B; auto; [lia|].
    apply (fl_mapped _ _ _ F); unfold BSIZE in *; [apply Z.div_pos; lia|pose proof (Z.mul_div_le o 1024); lia].
Qed.

Lemma written_file : room s2 0 -> (dn < n -> full V1 (sb s) /\ (dn = 0 \/ (off + dn) mod BSIZE = 0)) -> file_written mypid s ip x c off src dn c2 s2 x2.
Proof.
  intros Hroom Hfull; pose proof (rd_layout _ _ _ _ Hs) as Hla; pose proof meta1 as (Es & Ei & Ed); pose proof file2 as (F2 & Hown & Hbyte).
  pose proof (fp_keep P2) as K2; pose proof (grown_ready Hs G1) as Hs1; destruct HW as [A1 A2].
  assert (Hmapped : forall o, 0 <= o < i_size x -> fblk (fview s) x (o / BSIZE) <> 0 /\ o < NBLK * BSIZE).
  { intros o Ho; pose proof (fl_size _ _ _ (rd_file _ _ _ _ Hs)); split; [|lia].
    apply (fl_mapped _ _ _ (rd_file _ _ _ _ Hs)); unfold BSIZE in *; [apply Z.div_pos; lia|pose proof (Z.mul_div_le o 1024); lia]. }
  split.
  - rewrite (fp_held P2); apply (grown_held G1).
  - split; rewrite ?sb2; auto.
    + apply P2.
    + eapply layout_keep; [apply (fk_start K2)|apply (fk_size K2)|]; pose proof (rd_layout _ _ _ _ Hs1) as H1.
      rewrite (grown_sb G1) in H1; exact H1.
    + intros b Hb; pose proof (layout_order _ _ Hla); rewrite used2 by lia.
      by apply (chg_meta_used _ _ _ _ _ _ Hla (gr_chg _ _ _ _ _ _ _ _ _ _ G1) (rd_meta _ _ _ _ Hs)).
    + rewrite (fk_itable K2); unfold put_inode; cbn [itable]; rewrite length_insert; apply Hs1.
    + rewrite (get_inode_itable ip (put_inode ip x2 s1)) by apply (fk_itable K2); apply get_put_inode, Hs1.
    + cbn [set_size i_dev]; rewrite Ed; apply (rd_dev _ _ _ _ Hs).
  - done.
  - rewrite (fk_um K2); apply (grown_um _ _ _ _ _ _ _ _ _ _ G1).
  - destruct G1 as [(W & _ & P) _ _]; rewrite (fk_start K2), (fk_size K2), (fk_out K2), (fk_com K2).
    split_and!; [apply (fk_start (fp_keep P))|apply (fk_size (fp_keep P))|apply (fk_out (fp_keep P))|apply (fk_com (fp_keep P))].
  - rewrite (fk_disk0 K2); destruct G1 as [(W & _ & P) _ _]; apply (fk_disk0 (fp_keep P)).
  - rewrite (fk_writes K2); destruct G1 as [(W & _ & P) _ _]; apply (fk_writes (fp_keep P)).
  - apply sb2.
  - rewrite (fk_itable K2); unfold put_inode; cbn [itable]; destruct G1 as [(W & _ & P) _ _].
    rewrite (fk_itable (fp_keep P)); unfold put_inode; cbn [itable]; apply list_insert_insert_eq.
  - destruct (ch_meta _ _ _ _ _ (gr_chg _ _ _ _ _ _ _ _ _ _ G1)) as (?&?&?&?&?&?&?&?&?&?); by split_and!.
  - cbn [set_size i_size]; by rewrite Es.
  - intros o Ho; destruct (A1 o Ho) as [Hz Hb]; rewrite Hbyte by (done || lia); rewrite Hb; f_equal; lia.
  - intros o Ho Hn; destruct (Hmapped o Ho) as [Hz Hlt]; rewrite Hbyte; [apply A2; [lia|done|done]|lia|].
    rewrite (ch_map _ _ _ _ _ (gr_chg _ _ _ _ _ _ _ _ _ _ G1)); [done|apply blk_range; lia|done].
  - intros Hlt; destruct (Hfull Hlt) as [Hfl Hst]; split; [|done]; intros b Hb; rewrite sb2 in *; rewrite used2 by done; by apply Hfl.
  - apply others2.
  - intros Hok y; rewrite (fp_view P2); unfold upd; rewrite decide_True by done.
    apply read_write_dinode; [done|]; rewrite (ready_len mypid s1 ip x1) by done; apply dinode_off_range.
Qed.
End written.

Lemma writei_spec (mypid pagetable : Z) (s : fsst) (ip : nat) (x : inode) (c : kctx) (off : Z) (sr : Fs.src) (src : list Z) :
  let n := Z.of_nat (length src) in
  reads pagetable (um s) sr src -> ready mypid s ip x -> fctx c -> 0 <= i_inum x < sb_ninodes (sb s) -> 0 <= off < 2 ^ 32 -> n < 2 ^ 32 ->
  room s (6 * nblks off n + 1) ->
  if (i_size x <? off) || (MAXFILE * BSIZE <? off + n) then writei mypid pagetable ip sr off n c s = Ret (-1) c s
  else exists dn c' s' x', writei mypid pagetable ip sr off n c s = Ret dn c' s' /\ 0 <= dn <= n /\
    file_written mypid s ip x c off src dn c' s' x'.
Proof.
  intros n HS Hs Hc Hin Ho Hn Hr; pose proof (fl_size _ _ _ (rd_file _ _ _ _ Hs)) as Hsz; unfold NBLK, BSIZE in Hsz.
  unfold writei, kbind at 1, kget at 1; rewrite (rd_x _ _ _ _ Hs).
  destruct (Z.ltb_spec (i_size x) off) as [H1|H1]; [done|]; cbn [orb].
  destruct (Z.ltb_spec (MAXFILE * BSIZE) (off + n)) as [H2|H2]; change (MAXFILE * BSIZE) with (268 * 1024) in *.
  { destruct (decide (off + n < 2 ^ 32)) as [H3|H3].
    - rewrite (u32_small (off + n)) by lia; replace (off + n <? off) with false by lia; by replace (268 * 1024 <? off + n) with true by lia.
    - assert (E : u32 (off + n) = off + n - 2 ^ 32) by (unfold u32; symmetry; apply (Z.mod_unique _ _ 1); lia).
      rewrite E; by replace (off + n - 2 ^ 32 <? off) with true by lia. }
  rewrite (u32_small (off + n)) by lia; replace (off + n <? off) with false by lia; replace (268 * 1024 <? off + n) with false by lia.
  opose proof* (writei_loop_spec mypid pagetable sr (nblks off n) (Z.to_nat (n / BSIZE + 2)) s ip x c off n 0 src) as Wl; auto; try lia.
  { eapply room_le; [exact Hr|lia]. }
  { unfold NBLK, BSIZE; lia. }
  { right; pose proof (nblks_enough off n ltac:(lia) ltac:(lia)); lia. }
  { apply nblks_fuel; lia. }
  apply wp_elim in Wl as (r1 & c1 & s1 & R1 & x1 & V1 & dn & -> & Hdn & G1 & HW & Hfull).
  rewrite !Z.add_0_l in *; rewrite Z.sub_0_r in *; unfold kbind at 1, kget at 1; rewrite (rd_x _ _ _ _ Hs).
  replace (i_size x <? off) with false by lia; cbn [orb]; unfold kbind at 1; rewrite R1; cbv beta iota.
  pose proof (grown_ready Hs G1) as Hs1; destruct (ch_meta _ _ _ _ _ (gr_chg _ _ _ _ _ _ _ _ _ _ G1)) as (_ & Ei & _).
  opose proof* (writei_tail mypid ip off s1 c1 x1 dn 0) as Wt; rewrite ?Ei, ?(grown_sb G1); auto.
  { eapply fctx_held; [|exact Hc]; apply (grown_held G1). }
  { destruct G1 as [(W & Hn1 & P) _ _]; eapply (fpost_room (fs_ok_put mypid ip x1 s [] (rd_ok _ _ _ _ Hs)) P).
    unfold room in *; change (flog (put_inode ip x1 s)) with (flog s); lia. }
  apply wp_elim in Wt as (r2 & c2 & s2 & R2 & -> & P2); rewrite Ei, (grown_sb G1) in P2; rewrite R2.
  exists dn, c2, s2, (set_size (Z.max (i_size x1) (off + dn)) x1); split_and!; [done|lia|lia|].
  eapply (written_file mypid s s1 s2 ip x x1 c c1 c2 off dn src (6 * nblks off n) V1); auto; try lia.
  eapply (fpost_room (fs_ok_put mypid ip _ s1 [] (rd_ok _ _ _ _ Hs1)) P2); simpl.
  change (room s1 1); destruct G1 as [(W & Hn1 & P) _ _]; eapply (fpost_room (fs_ok_put mypid ip x1 s [] (rd_ok _ _ _ _ Hs)) P).
  unfold room in *; change (flog (put_inode ip x1 s)) with (flog s); lia.
Qed.

(** C3: [writei] from a kernel buffer, in a transaction with room in the log
    for the blocks it may change: a write that starts past the end of
    the file, wraps around or exceeds the largest file changes nothing and
    returns -1.  Any other stores the first [dn] bytes at [off] and returns
    [dn], all of them unless the disk is full; the rest of the file keeps its
    bytes, the size grows to cover them, the inode on disk is brought up to
    date, and every other file that shares no block with this one keeps its
    content and still shares none.  A [readi] at [off] then returns the bytes
    written. *)
Theorem writei_correct (mypid pagetable : Z) (s : fsst) (ip : nat) (x : inode) (c : kctx) (off : Z) (src : list Z) :
  let n := Z.of_nat (length src) in
  ready mypid s ip x -> fctx c -> 0 <= i_inum x < sb_ninodes (sb s) -> 0 <= off < 2 ^ 32 -> n < 2 ^ 32 ->
  room s (6 * nblks off n + 1) ->
  if (i_size x <? off) || (MAXFILE * BSIZE <? off + n) then writei mypid pagetable ip (KernSrc src) off n c s = Ret (-1) c s
  else exists dn c' s' x', writei mypid pagetable ip (KernSrc src) off n c s = Ret dn c' s' /\ 0 <= dn <= n /\
    file_written mypid s ip x c off src dn c' s' x' /\
    exists c2 s2, readi mypid pagetable ip KernDst off dn c' s' = Ret (dn, take (Z.to_nat dn) src) c2 s2.
Proof.
  intros n Hs Hc Hin Ho Hn Hr; pose proof (writei_spec mypid pagetable s ip x c off (KernSrc src) src (reads_kern _ _ _) Hs Hc Hin Ho Hn Hr) as Hw.
  cbv zeta in Hw; fold n in Hw; destruct (_ || _) eqn:E; [done|]; destruct Hw as (dn & c' & s' & x' & Hrun & Hdn & HF).
  exists dn, c', s', x'; split_and!; try (done || lia); pose proof HF as [Hh Hs' Hroom _ _ _ _ _ _ _ Hsize Hnew _ _ _ _].
  change (MAXFILE * BSIZE) with (268 * 1024) in E; assert (Hc' : fctx c') by by eapply fctx_held.
  pose proof (readi_spec mypid pagetable s' ip x' c' off dn Hs' Hc' Hroom Ho ltac:(lia)) as W.
  apply wp_elim in W as (r & c2 & s2 & R2 & -> & _); exists c2, s2; rewrite R2; unfold read_len.
  replace (i_size x' <? off) with false by lia; replace (2 ^ 32 <=? off + dn) with false by lia; cbn [orb].
  rewrite Z.min_l by lia; do 2 f_equal; apply list_eq_same_length with (Z.to_nat dn).
  - rewrite length_take; lia.
  - rewrite length_fbytes; lia.
  - intros i a b Hi Ha Hb; unfold fbytes in Ha; rewrite list_lookup_fmap, lookup_seqZ_lt in Ha by lia; simpl in Ha.
    injection Ha as <-; rewrite Hnew by lia; rewrite lookup_take_lt in Hb by lia; unfold get8.
    replace (Z.to_nat (_ - off)) with i by lia; by rewrite Hb.
Qed.

Lemma writei_correct_witness :
  exists dn c' s' x', writei 1 0 0 (KernSrc [1; 2; 3]) 32 3 (Ctx [] []) demo_fs = Ret dn c' s' /\ 0 <= dn <= 3 /\
    file_written 1 demo_fs 0 demo_root (Ctx [] []) 32 [1; 2; 3] dn c' s' x' /\
    exists c2 s2, readi 1 0 0 KernDst 32 dn c' s' = Ret (dn, take (Z.to_nat dn) [1; 2; 3]) c2 s2.
Proof.
  apply (writei_correct 1 0 demo_fs 0 demo_root (Ctx [] []) 32 [1; 2; 3]);
    [apply demo_ready|apply fctx0|by vm_compute|lia|simpl; lia|by vm_compute].
Defined.
