(* ===== verification/FsDir.v ===== *)
(** * Directories: names, dirlookup and dirlink *)

From S2P Require Import Prelude CMem KString Riscv Kalloc Vm Locks Block Bio BioInv BioSpec Log LogSpec LogCrash Fs FsBase FsAlloc FsInode FsFile FsBmap FsRead FsWrite FsWriteOk.

(** ** Names *)

(** The string of at most [DIRSIZ] characters a name array holds. *)
Definition pad14 (l : list Z) : list Z := (fun i => default 0 (l !! i)) <$> seq 0 14.
Definition str14 (l : list Z) : list Z := until_nul (pad14 l).

Definition bytes_ok (l : list Z) : Prop := Forall (fun b => 0 <= b < 256) l.

Lemma bytes_get l i : bytes_ok l -> 0 <= default 0 (l !! i) < 256.
Proof. intros H; destruct (l !! i) eqn:E; simpl; [|lia]; unfold bytes_ok in H; rewrite Forall_lookup in H; by apply (H i). Qed.

Lemma two_strings_ok s t : bytes_ok s -> bytes_ok t -> mem_ok (two_strings s t).
Proof. intros Hs Ht a; unfold two_strings; case_match; by apply bytes_get. Qed.

Lemma load_first s t : load_bytes (two_strings s t) 0 14 = pad14 s.
Proof.
  apply list_eq_same_length with 14%nat; [done|by rewrite length_load_bytes|].
  intros i a b Hi; rewrite lookup_load_bytes by done; unfold pad14; rewrite list_lookup_fmap, lookup_seq_lt by done.
  unfold two_strings; replace (0 + Z.of_nat i <? 4096) with true by lia.
  replace (Z.to_nat (0 + Z.of_nat i)) with (0 + i)%nat by lia; simpl; congruence.
Qed.

Lemma load_second s t : load_bytes (two_strings s t) 4096 14 = pad14 t.
Proof.
  apply list_eq_same_length with 14%nat; [done|by rewrite length_load_bytes|].
  intros i a b Hi; rewrite lookup_load_bytes by done; unfold pad14; rewrite list_lookup_fmap, lookup_seq_lt by done.
  unfold two_strings; replace (4096 + Z.of_nat i <? 4096) with false by lia.
  replace (Z.to_nat (4096 + Z.of_nat i - 4096)) with (0 + i)%nat by lia; simpl; congruence.
Qed.

Lemma namecmp_zero s t : namecmp s t = 0 <-> str14 s = str14 t.
Proof.
  unfold namecmp, strncmp; change (Z.to_nat DIRSIZ) with 14%nat; rewrite strncmp_loop_zero.
  unfold cstr; by rewrite load_first, load_second.
Qed.

(** ** Entries *)

Lemma length_dirent name inum : length (dirent_bytes name inum) = 16%nat.
Proof. unfold dirent_bytes; rewrite length_app, length_put16, length_load_bytes by (simpl; lia); done. Qed.

Lemma dirent_inum name inum : de_inum (dirent_bytes name inum) = u16 inum.
Proof.
  unfold de_inum, dirent_bytes, get16, slice; rewrite drop_0, take_app_le by (rewrite length_put16; simpl; lia).
  change (get16 (put16 (replicate 2 0) 0 inum) 0 = u16 inum); apply get16_put16_same; simpl; lia.
Qed.

Lemma pad14_full l : length l = 14%nat -> pad14 l = l.
Proof.
  intros Hl; apply list_eq_same_length with 14%nat; [done|done|]; intros i a b Hi; unfold pad14.
  rewrite list_lookup_fmap, lookup_seq_lt by done; simpl; intros [= <-] Hb; by rewrite Hb.
Qed.

Lemma dirent_name name inum : bytes_ok name -> str14 (de_name (dirent_bytes name inum)) = str14 name.
Proof.
  intros Hn; pose proof (two_strings_ok [] name ltac:(constructor) Hn) as Hm.
  assert (Hd : de_name (dirent_bytes name inum) = load_bytes (strncpy (two_strings [] name) 0 4096 DIRSIZ) 0 14).
  { unfold de_name, dirent_bytes, slice; rewrite drop_app_length' by (rewrite length_put16; simpl; lia).
    apply take_ge; rewrite length_load_bytes; lia. }
  pose proof (strncpy_cstr (two_strings [] name) 0 4096 DIRSIZ Hm ltac:(unfold DIRSIZ; lia)) as Hc.
  unfold cstr in Hc; change (Z.to_nat DIRSIZ) with 14%nat in Hc; rewrite load_second in Hc.
  unfold str14 at 1; rewrite Hd, pad14_full by apply length_load_bytes.
  rewrite Hc; [done|]; left; unfold DIRSIZ; lia.
Qed.

(** A directory as a list of entries, and the first one in use with a name. *)
Definition entry (V : Z -> list Z) (x : inode) (j : Z) : list Z := fbytes V x (DESIZE * j) DESIZE.
Definition matches (name de : list Z) : bool := negb (de_inum de =? 0) && (namecmp name (de_name de) =? 0).

Fixpoint first_entry (n : nat) (j : Z) (test : list Z -> bool) (V : Z -> list Z) (x : inode) : option Z :=
  match n with
  | O => None
  | S n' => if test (entry V x j) then Some j else first_entry n' (j + 1) test V x
  end.
Definition nentries (x : inode) : Z := i_size x / DESIZE.
Definition dir_find (V : Z -> list Z) (x : inode) (name : list Z) : option Z :=
  first_entry (Z.to_nat (nentries x)) 0 (matches name) V x.
Definition dir_free (V : Z -> list Z) (x : inode) : option Z :=
  first_entry (Z.to_nat (nentries x)) 0 (fun de => de_inum de =? 0) V x.

Lemma first_entry_ext n j test V V' x x' :
  (forall k, j <= k < j + Z.of_nat n -> test (entry V' x' k) = test (entry V x k)) ->
  first_entry n j test V' x' = first_entry n j test V x.
Proof.
  revert j; induction n as [|n IH]; intros j H; simpl; [done|]; rewrite H by lia; case_match; [done|].
  apply IH; intros k Hk; apply H; lia.
Qed.

Lemma first_entry_spec n j test V x :
  match first_entry n j test V x with
  | Some k => j <= k < j + Z.of_nat n /\ test (entry V x k) = true /\ forall i, j <= i < k -> test (entry V x i) = false
  | None => forall i, j <= i < j + Z.of_nat n -> test (entry V x i) = false
  end.
Proof.
  revert j; induction n as [|n IH]; intros j; simpl; [intros; lia|]; destruct (test (entry V x j)) eqn:E.
  { split_and!; [lia|lia|done|intros; lia]. }
  specialize (IH (j + 1)); destruct (first_entry n (j + 1) test V x).
  - destruct IH as (H1 & H2 & H3); split_and!; [lia|lia|done|]; intros i Hi.
    destruct (decide (i = j)) as [->|]; [done|apply H3; lia].
  - intros i Hi; destruct (decide (i = j)) as [->|]; [done|apply IH; lia].
Qed.

(** ** dirlookup *)

Record dir_ok (x : inode) : Prop := DirOk {
  do_type : i_type x = T_DIR;
  do_size : i_size x = DESIZE * nentries x
}.

Section dir.
Variables mypid pagetable : Z.
#[local] Abbreviation ready := (ready mypid).

(** The scan of a directory reads one entry after the other. *)
Lemma read_entry s dp x c j :
  ready s dp x -> dir_ok x -> fctx c -> room s 0 -> 0 <= j < nentries x ->
  wp (readi mypid pagetable dp KernDst (DESIZE * j) DESIZE)
     (fun r c' s' => r = (DESIZE, entry (fview s) x j) /\ same_fs mypid c s c' s') c s.
Proof.
  intros Hs Hd Hc Hr Hj; pose proof (do_size _ Hd) as Hsz; pose proof (fl_size _ _ _ (rd_file _ _ _ _ Hs)) as Hmax.
  unfold DESIZE, NBLK, BSIZE in *.
  eapply wp_mono; [apply (readi_spec mypid pagetable s dp x c (16 * j) 16 Hs Hc Hr); lia|].
  intros r c' s' [-> P]; split; [|done]; unfold read_len, entry, DESIZE.
  replace (i_size x <? 16 * j) with false by lia; replace (2 ^ 32 <=? 16 * j + 16) with false by lia; cbn [orb].
  by rewrite Z.min_l by lia.
Qed.

(** The entries from [j] on. *)
Definition rest (x : inode) (j : Z) : nat := Z.to_nat (nentries x - j).

Lemma rest_S x j : j < nentries x -> rest x j = S (rest x (j + 1)).
Proof. unfold rest; lia. Qed.

Lemma entry_ext V V' x j : (forall b, V' b = V b) -> entry V' x j = entry V x j.
Proof. intros H; by apply fbytes_ext. Qed.

Lemma dirlookup_loop_spec f s dp x c j name :
  ready s dp x -> dir_ok x -> fctx c -> room s 0 -> 0 <= j <= nentries x -> (rest x j <= f)%nat ->
  exists c1 s1, same_fs mypid c s c1 s1 /\
    dirlookup_loop mypid pagetable f dp name (DESIZE * j) c s =
    match first_entry (rest x j) j (matches name) (fview s) x with
    | Some k => (let* ip := iget ROOTDEV (de_inum (entry (fview s) x k)) in kret (Some (ip, DESIZE * k))) c1 s1
    | None => Ret None c1 s1
    end.
Proof.
  revert s c j; induction f as [|f IH]; intros s c j Hs Hd Hc Hr Hj Hf; pose proof (do_size _ Hd) as Hsz;
    cbn [dirlookup_loop]; unfold kbind at 1, kget at 1; rewrite (rd_x _ _ _ _ Hs);
    destruct (decide (j = nentries x)) as [E|E].
  1, 3: replace (DESIZE * j <? i_size x) with false by lia; exists c, s;
    unfold rest; rewrite E, Z.sub_diag; split; [apply same_fs_refl, Hs|done].
  { unfold rest in Hf; lia. }
  replace (DESIZE * j <? i_size x) with true by (unfold DESIZE in *; lia).
  pose proof (read_entry s dp x c j Hs Hd Hc Hr ltac:(lia)) as W; apply wp_elim in W as (r & c1 & s1 & R1 & -> & P1).
  pose proof (same_fs_ready _ _ _ _ _ _ _ P1 Hs) as Hs1; pose proof (fp_view P1) as HV1.
  unfold kbind at 1; rewrite R1; cbv beta iota; rewrite Z.eqb_refl; cbn [negb].
  rewrite rest_S by lia; cbn [first_entry]; unfold matches at 1.
  assert (Hnext : exists c2 s2, same_fs mypid c s c2 s2 /\
    dirlookup_loop mypid pagetable f dp name (DESIZE * j + DESIZE) c1 s1 =
    match first_entry (rest x (j + 1)) (j + 1) (matches name) (fview s) x with
    | Some k => (let* ip := iget ROOTDEV (de_inum (entry (fview s) x k)) in kret (Some (ip, DESIZE * k))) c2 s2
    | None => Ret None c2 s2
    end).
  { destruct (IH s1 c1 (j + 1)) as (c2 & s2 & P2 & R2); auto; [by eapply (fpost_ctx P1)|by eapply same_fs_room; [apply Hs| |]|lia|unfold rest in *; lia|].
    exists c2, s2; split; [by eapply same_fs_trans|]; replace (DESIZE * j + DESIZE) with (DESIZE * (j + 1)) by lia; rewrite R2.
    rewrite (first_entry_ext _ _ _ (fview s) (fview s1) x x) by (intros k _; by rewrite (entry_ext (fview s))).
    destruct (first_entry (rest x (j + 1)) (j + 1) (matches name) (fview s) x) as [k|]; [by rewrite (entry_ext (fview s))|done]. }
  destruct (de_inum _ =? 0); cbn [negb andb]; [done|]; destruct (namecmp _ _ =? 0); [|done].
  exists c1, s1; split; [done|]; unfold kbind at 1, kget at 1; by rewrite (rd_x _ _ _ _ Hs1), (rd_dev _ _ _ _ Hs1).
Qed.

Lemma dirlookup_spec s dp x c name :
  ready s dp x -> dir_ok x -> fctx c -> room s 0 ->
  exists c1 s1, same_fs mypid c s c1 s1 /\
    dirlookup mypid pagetable dp name c s =
    match dir_find (fview s) x name with
    | Some k => (let* ip := iget ROOTDEV (de_inum (entry (fview s) x k)) in kret (Some (ip, DESIZE * k))) c1 s1
    | None => Ret None c1 s1
    end.
Proof.
  intros Hs Hd Hc Hr; pose proof (fl_size _ _ _ (rd_file _ _ _ _ Hs)) as Hmax; pose proof (do_size _ Hd) as Hsz.
  destruct (dirlookup_loop_spec (Z.to_nat (i_size x / DESIZE + 1)) s dp x c 0 name) as (c1 & s1 & P1 & R1); auto.
  { unfold DESIZE in *; lia. }
  { unfold rest, nentries; lia. }
  exists c1, s1; split; [done|]; unfold dirlookup, kbind at 1, kget at 1; rewrite (rd_x _ _ _ _ Hs), (do_type _ Hd).
  change (T_DIR =? T_DIR) with true; cbn [negb].
  rewrite Z.mul_0_r in R1; rewrite R1; unfold dir_find, rest; by rewrite Z.sub_0_r.
Qed.

(** ** dirlink *)

(** The offset of the first free entry, or the end of the directory. *)
Definition slot (V : Z -> list Z) (x : inode) (n : nat) (j : Z) : Z :=
  match first_entry n j (fun de => de_inum de =? 0) V x with Some k => k | None => nentries x end.

Lemma dirlink_scan_spec f s dp x c j :
  ready s dp x -> dir_ok x -> fctx c -> room s 0 -> 0 <= j <= nentries x -> (rest x j <= f)%nat ->
  wp (dirlink_scan mypid pagetable f dp (DESIZE * j))
     (fun r c' s' => r = DESIZE * slot (fview s) x (rest x j) j /\ same_fs mypid c s c' s') c s.
Proof.
  revert s c j; induction f as [|f IH]; intros s c j Hs Hd Hc Hr Hj Hf; pose proof (do_size _ Hd) as Hsz;
    cbn [dirlink_scan]; apply wp_bind, wp_get; rewrite (rd_x _ _ _ _ Hs); destruct (decide (j = nentries x)) as [E|E].
  1, 3: replace (DESIZE * j <? i_size x) with false by lia; apply wp_ret; unfold slot, rest; rewrite E, Z.sub_diag;
    split; [done|apply same_fs_refl, Hs].
  { unfold rest in Hf; lia. }
  replace (DESIZE * j <? i_size x) with true by (unfold DESIZE in *; lia); apply wp_bind.
  eapply wp_mono; [apply (read_entry s dp x c j Hs Hd Hc Hr); lia|]; intros r c1 s1 [-> P1]; cbv beta iota; rewrite Z.eqb_refl; cbn [negb].
  unfold slot; rewrite rest_S by lia; cbn [first_entry].
  destruct (Z.eqb_spec (de_inum (entry (fview s) x j)) 0) as [E0|E0]; [by apply wp_ret|].
  replace (DESIZE * j + DESIZE) with (DESIZE * (j + 1)) by lia.
  eapply wp_mono; [apply IH; [by eapply same_fs_ready|done|by eapply (fpost_ctx P1)|by eapply same_fs_room; [apply Hs| |]|lia|unfold rest in *; lia]|].
  intros r c2 s2 [-> P2]; split; [|by eapply same_fs_trans]; unfold slot; f_equal.
  rewrite (first_entry_ext _ _ _ (fview s) (fview s1) x x); [done|]; intros k _; by rewrite (entry_ext (fview s)) by apply (fp_view P1).
Qed.
End dir.
