(* ===== verification/FsDirOk.v ===== *)
(** * Correctness of dirlookup and dirlink *)

From S2P Require Import Prelude CMem KString Riscv Kalloc Vm Locks Block Bio BioInv BioSpec Log LogSpec LogCrash Fs FsBase FsAlloc FsInode FsFile FsBmap FsRead FsWrite FsWriteOk FsDir.

Lemma first_entry_Some n j test V x k :
  j <= k < j + Z.of_nat n -> test (entry V x k) = true -> (forall i, j <= i < k -> test (entry V x i) = false) ->
  first_entry n j test V x = Some k.
Proof.
  intros Hk Ht Hb; pose proof (first_entry_spec n j test V x) as H; destruct (first_entry n j test V x) as [i|].
  - destruct H as (H1 & H2 & H3); f_equal; destruct (Z.lt_total i k) as [Hl|[->|Hl]]; [rewrite Hb in H2 by lia; done|done|].
    rewrite H3 in Ht by lia; done.
  - rewrite H in Ht by lia; done.
Qed.

Lemma first_entry_None n j test V x :
  (forall i, j <= i < j + Z.of_nat n -> test (entry V x i) = false) -> first_entry n j test V x = None.
Proof.
  intros Hb; pose proof (first_entry_spec n j test V x) as H; destruct (first_entry n j test V x) as [i|]; [|done].
  destruct H as (H1 & H2 & _); rewrite Hb in H2 by lia; done.
Qed.

Lemma slot_spec V x :
  0 <= nentries x ->
  let k := slot V x (rest x 0) 0 in
  0 <= k <= nentries x /\ (k < nentries x -> de_inum (entry V x k) = 0).
Proof.
  intros Hn k; unfold k, slot; pose proof (first_entry_spec (rest x 0) 0 (fun de => de_inum de =? 0) V x) as H.
  destruct (first_entry _ _ _ V x) as [i|]; [|lia]; destruct H as (H1 & H2 & _); unfold rest in H1; split; [lia|intros; lia].
Qed.

Section link.
Variables (V V' : Z -> list Z) (x x' : inode) (k : Z) (name : list Z) (inum : Z).
Hypothesis Hn : 0 <= nentries x.
Hypothesis Hk : 0 <= k <= nentries x.
Hypothesis Hfree : k < nentries x -> de_inum (entry V x k) = 0.
Hypothesis Hsize : nentries x' = Z.max (nentries x) (k + 1).
Hypothesis Hnew : entry V' x' k = dirent_bytes name inum.
Hypothesis Hold : forall j, 0 <= j < nentries x -> j <> k -> entry V' x' j = entry V x j.
Hypothesis Hname : bytes_ok name.
Hypothesis Hinum : 0 < inum < 2 ^ 16.
#[local] Set Default Proof Using "Hn Hk Hfree Hsize Hnew Hold Hname Hinum".

Lemma new_matches name' : matches name' (entry V' x' k) = bool_decide (str14 name' = str14 name).
Proof.
  rewrite Hnew; unfold matches; rewrite dirent_inum, u16_small by lia; replace (inum =? 0) with false by lia; cbn [negb andb].
  pose proof (namecmp_zero name' (de_name (dirent_bytes name inum))) as H; rewrite dirent_name in H by done.
  case_bool_decide as E; destruct (Z.eqb_spec (namecmp name' (de_name (dirent_bytes name inum))) 0); naive_solver.
Qed.

Lemma old_free name' : k < nentries x -> matches name' (entry V x k) = false.
Proof. intros H; unfold matches; rewrite Hfree by done; done. Qed.

(** The new name is found at [k]... *)
Lemma find_new : dir_find V x name = None -> dir_find V' x' name = Some k.
Proof.
  intros H0; unfold dir_find in *; pose proof (first_entry_spec (Z.to_nat (nentries x)) 0 (matches name) V x) as H.
  rewrite H0 in H; apply first_entry_Some; [lia|by rewrite new_matches, bool_decide_eq_true_2|].
  intros i Hi; rewrite Hold by lia; apply H; lia.
Qed.

(** ... and any other name where it was. *)
Lemma find_old name' : str14 name' <> str14 name -> dir_find V' x' name' = dir_find V x name'.
Proof.
  intros Hne; unfold dir_find; pose proof (first_entry_spec (Z.to_nat (nentries x)) 0 (matches name') V x) as H.
  assert (Hkf : matches name' (entry V' x' k) = false) by by rewrite new_matches, bool_decide_eq_false_2.
  destruct (first_entry (Z.to_nat (nentries x)) 0 (matches name') V x) as [i|].
  - destruct H as (H1 & H2 & H3); assert (i <> k) by (intros ->; rewrite old_free in H2 by lia; done).
    apply first_entry_Some; [lia|by rewrite Hold by lia|]; intros a Ha.
    destruct (decide (a = k)) as [E|]; [by rewrite E|rewrite Hold by lia; apply H3; lia].
  - apply first_entry_None; intros a Ha; destruct (decide (a = k)) as [E|]; [by rewrite E|rewrite Hold by lia; apply H; lia].
Qed.
End link.

Lemma entry_bytes V V' x x' j :
  (forall o, DESIZE * j <= o < DESIZE * j + DESIZE -> fbyte V' x' o = fbyte V x o) -> entry V' x' j = entry V x j.
Proof.
  intros H; unfold entry, fbytes; apply list_fmap_ext; intros i z Hz; apply lookup_seqZ in Hz; apply H; lia.
Qed.

(** The entry [dirlink] has written. *)
Lemma entry_new V' x' k name inum :
  0 <= k -> (forall o, DESIZE * k <= o < DESIZE * k + DESIZE ->
    fbyte V' x' o = get8 (dirent_bytes name inum) (Z.to_nat (o - DESIZE * k))) ->
  entry V' x' k = dirent_bytes name inum.
Proof.
  intros Hk H; apply list_eq_same_length with 16%nat; [apply length_dirent|unfold entry; by rewrite length_fbytes by done|].
  intros i a b Hi Ha Hb; unfold entry, fbytes in Ha; rewrite list_lookup_fmap, lookup_seqZ_lt in Ha by (unfold DESIZE; lia).
  simpl in Ha; injection Ha as <-; rewrite H by (unfold DESIZE; lia).
  unfold get8; replace (Z.to_nat (_ - DESIZE * k)) with i by lia; by rewrite Hb.
Qed.

Lemma nblks_entry k : 0 <= k -> nblks (DESIZE * k) 16 = 1%nat.
Proof.
  intros Hk; unfold nblks, DESIZE, BSIZE.
  assert (E : (16 * k) mod 1024 = 16 * (k mod 64)) by (rewrite <- Z.mul_mod_distr_l by lia; done).
  pose proof (Z.mod_pos_bound k 64); rewrite E; replace ((16 * (k mod 64) + 16 + 1023) / 1024) with 1; [done|].
  apply (Z.div_unique _ _ _ (16 * (k mod 64) + 16 + 1023 - 1024)); lia.
Qed.

(** A write of one entry is not split. *)
Lemma entry_whole k dn : 0 <= k -> 0 <= dn < 16 -> dn = 0 \/ (DESIZE * k + dn) mod BSIZE = 0 -> dn = 0.
Proof.
  unfold DESIZE, BSIZE; intros Hk Hd [|H]; [done|].
  assert (E : (16 * k + dn) mod 1024 = 16 * (k mod 64) + dn).
  { symmetry; apply (Z.mod_unique _ _ (k / 64)); pose proof (Z.div_mod k 64); pose proof (Z.mod_pos_bound k 64); lia. }
  pose proof (Z.mod_pos_bound k 64); lia.
Qed.

(** [dirlookup] finds the first entry in use whose name agrees with the
    given one in its first [DIRSIZ] characters, and returns [iget] of its
    inode number with its offset; it returns nothing when there is none.  No
    block of the disk changes. *)
Theorem dirlookup_correct (mypid pagetable : Z) (s : fsst) (dp : nat) (x : inode) (c : kctx) (name : list Z) :
  ready mypid s dp x -> dir_ok x -> fctx c -> room s 0 ->
  exists c1 s1, ready mypid s1 dp x /\ held c1 = held c /\ (forall b, fview s1 b = fview s b) /\
    ((exists k, 0 <= k < nentries x /\ de_inum (entry (fview s) x k) <> 0 /\
        str14 name = str14 (de_name (entry (fview s) x k)) /\
        (forall j, 0 <= j < k -> de_inum (entry (fview s) x j) = 0 \/ str14 name <> str14 (de_name (entry (fview s) x j))) /\
        dirlookup mypid pagetable dp name c s =
          (let* ip := iget ROOTDEV (de_inum (entry (fview s) x k)) in kret (Some (ip, DESIZE * k))) c1 s1) \/
     ((forall j, 0 <= j < nentries x -> de_inum (entry (fview s) x j) = 0 \/ str14 name <> str14 (de_name (entry (fview s) x j))) /\
      dirlookup mypid pagetable dp name c s = Ret None c1 s1)).
Proof.
  intros Hs Hd Hc Hr; destruct (dirlookup_spec mypid pagetable s dp x c name Hs Hd Hc Hr) as (c1 & s1 & P1 & R1).
  exists c1, s1; split_and!; [by eapply same_fs_ready|apply P1|apply P1|].
  assert (Hm : forall j, matches name (entry (fview s) x j) = false ->
    de_inum (entry (fview s) x j) = 0 \/ str14 name <> str14 (de_name (entry (fview s) x j))).
  { intros j; unfold matches; destruct (Z.eqb_spec (de_inum (entry (fview s) x j)) 0); [by left|]; cbn [negb andb]; right.
    intros E; apply namecmp_zero in E; rewrite E in *; done. }
  unfold dir_find in R1; pose proof (first_entry_spec (Z.to_nat (nentries x)) 0 (matches name) (fview s) x) as H.
  destruct (first_entry _ _ _ _ _) as [k|]; [left|right].
  - destruct H as (H1 & H2 & H3); exists k; unfold matches in H2; apply andb_true_iff in H2 as [H2a H2b].
    split_and!; [lia|lia|lia|apply namecmp_zero; lia| |done]; intros j Hj; apply Hm, H3; lia.
  - split; [|done]; intros j Hj; apply Hm, H; lia.
Qed.

(** The run of [dirlink]: two scans, and the write of an entry at the slot. *)
Lemma dirlink_run (mypid pagetable : Z) (s : fsst) (dp : nat) (x : inode) (c : kctx) (name : list Z) (inum : Z) :
  ready mypid s dp x -> dir_ok x -> fctx c -> room s 7 -> 0 <= i_inum x < sb_ninodes (sb s) ->
  i_size x + DESIZE <= MAXFILE * BSIZE -> dir_find (fview s) x name = None ->
  exists dn c2 s2 c' s' x', dirlink mypid pagetable dp name inum c s = Ret (if negb (dn =? DESIZE) then -1 else 0) c' s' /\
    held c2 = held c /\ 0 <= dn <= DESIZE /\ (forall b, fview s2 b = fview s b) /\
    file_written mypid s2 dp x c2 (DESIZE * slot (fview s) x (rest x 0) 0) (dirent_bytes name inum) dn c' s' x'.
Proof.
  intros Hs Hd Hc Hr Hin Hmax H0; pose proof (do_size _ Hd) as Hsz; pose proof (fl_size _ _ _ (rd_file _ _ _ _ Hs)) as Hfs.
  destruct (dirlookup_spec mypid pagetable s dp x c name Hs Hd Hc (room_le s 7 0 Hr ltac:(lia))) as (c1 & s1 & P1 & R1); rewrite H0 in R1.
  pose proof (same_fs_ready _ _ _ _ _ _ _ P1 Hs) as Hs1; pose proof (fp_view P1) as HV1.
  assert (Hc1 : fctx c1) by by eapply (fpost_ctx P1).
  assert (Hr1 : room s1 7) by (eapply same_fs_room; [apply Hs|exact P1|done]).
  assert (Hn0 : 0 <= nentries x) by (unfold DESIZE in *; lia).
  opose proof* (dirlink_scan_spec mypid pagetable (Z.to_nat (i_size x / DESIZE + 1)) s1 dp x c1 0) as W; auto; try lia.
  { eapply room_le; [exact Hr1|lia]. }
  { unfold rest, nentries; lia. }
  apply wp_elim in W as (r2 & c2 & s2 & R2 & -> & P2); rewrite Z.mul_0_r in R2.
  pose proof (same_fs_ready _ _ _ _ _ _ _ P2 Hs1) as Hs2; assert (HV2 : forall b, fview s2 b = fview s b) by (intros b; by rewrite (fp_view P2)).
  assert (Hslot : slot (fview s1) x (rest x 0) 0 = slot (fview s) x (rest x 0) 0).
  { unfold slot; rewrite (first_entry_ext _ _ _ (fview s) (fview s1) x x); [done|]; intros j _; by rewrite (entry_ext (fview s)). }
  rewrite Hslot in R2; set (k := slot (fview s) x (rest x 0) 0) in *; destruct (slot_spec (fview s) x Hn0) as [Hk Hfree]; fold k in Hk, Hfree.
  assert (Hc2 : fctx c2) by by eapply (fpost_ctx P2).
  assert (Hr2 : room s2 7) by (eapply same_fs_room; [apply Hs1|exact P2|done]).
  pose proof (fk_sb (fp_keep P1)) as Hsb1; pose proof (fk_sb (fp_keep P2)) as Hsb2; rewrite Hsb1 in Hsb2.
  assert (Hlen : Z.of_nat (length (dirent_bytes name inum)) = 16) by (by rewrite length_dirent).
  change (MAXFILE * BSIZE) with (268 * 1024) in *; unfold NBLK, BSIZE in Hfs.
  opose proof* (writei_spec mypid pagetable s2 dp x c2 (DESIZE * k) (KernSrc (dirent_bytes name inum)) (dirent_bytes name inum)) as Hw; rewrite ?Hlen, ?Hsb2; auto using reads_kern.
  { unfold DESIZE in *; lia. }
  { lia. }
  { rewrite nblks_entry by lia; exact Hr2. }
  rewrite Hlen in Hw; change (MAXFILE * BSIZE) with (268 * 1024) in Hw.
  replace (i_size x <? DESIZE * k) with false in Hw by (unfold DESIZE in *; lia).
  replace (268 * 1024 <? DESIZE * k + 16) with false in Hw by (unfold DESIZE in *; lia); cbn [orb] in Hw.
  destruct Hw as (dn & c' & s' & x' & R3 & Hdn & HF).
  exists dn, c2, s2, c', s', x'; split_and!; auto; [|by rewrite (fp_held P2), (fp_held P1)|lia|unfold DESIZE; lia].
  unfold dirlink, kbind; rewrite R1; unfold kget; rewrite (rd_x _ _ _ _ Hs1), R2; change DESIZE with 16 in *; rewrite R3; done.
Qed.

(** C30: [dirlink] of a name that is not in the directory, which has not the
    maximal size: unless the disk is
    full, it returns 0, the name is then found with the given inode number,
    and every other name is found exactly where it was; on a full disk it
    returns -1 and no name has moved. *)
Theorem dirlink_correct (mypid pagetable : Z) (s : fsst) (dp : nat) (x : inode) (c : kctx) (name : list Z) (inum : Z) :
  ready mypid s dp x -> dir_ok x -> fctx c -> room s 7 -> 0 <= i_inum x < sb_ninodes (sb s) ->
  bytes_ok name -> 0 < inum < 2 ^ 16 -> i_size x + DESIZE <= MAXFILE * BSIZE -> dir_find (fview s) x name = None ->
  exists r c' s' x', dirlink mypid pagetable dp name inum c s = Ret r c' s' /\ held c' = held c /\
    ready mypid s' dp x' /\ dir_ok x' /\
    ((r = 0 /\ (exists k, dir_find (fview s') x' name = Some k /\ de_inum (entry (fview s') x' k) = inum) /\
      (forall name', str14 name' <> str14 name -> dir_find (fview s') x' name' = dir_find (fview s) x name' /\
         forall k, dir_find (fview s) x name' = Some k -> entry (fview s') x' k = entry (fview s) x k)) \/
     (r = -1 /\ full (fview s') (sb s') /\ forall name', dir_find (fview s') x' name' = dir_find (fview s) x name')).
Proof.
  intros Hs Hd Hc Hr Hin Hnm Hinum Hmax H0; pose proof (do_size _ Hd) as Hsz; pose proof (fl_size _ _ _ (rd_file _ _ _ _ Hs)) as Hfs.
  destruct (dirlink_run mypid pagetable s dp x c name inum Hs Hd Hc Hr Hin Hmax H0)
    as (dn & c2 & s2 & c' & s' & x' & Hrun & Hh2 & Hdn & HV2 & [Fh Fr _ _ _ _ _ _ _ Fm Fsz Fnew Fold Ffull _ _]).
  assert (Hn0 : 0 <= nentries x) by (unfold DESIZE in *; lia).
  destruct (slot_spec (fview s) x Hn0) as [Hk Hfree]; set (k := slot (fview s) x (rest x 0) 0) in *.
  rewrite length_dirent in Ffull; destruct Fm as (_ & _ & _ & _ & _ & Ft & _); cbn [set_size i_type] in Ft.
  assert (Hold : forall j, 0 <= j < nentries x -> j <> k \/ dn = 0 -> entry (fview s') x' j = entry (fview s) x j).
  { intros j Hj Hjk; apply entry_bytes; intros o Ho; rewrite Fold by (unfold DESIZE in *; lia).
    by apply fbyte_ext. }
  assert (Hdn' : dn = DESIZE \/ dn = 0).
  { destruct (decide (dn = DESIZE)); [by left|right]; unfold DESIZE in *; destruct (Ffull ltac:(lia)) as [_ Hst].
    apply (entry_whole k); [lia|lia|exact Hst]. }
  exists (if negb (dn =? DESIZE) then -1 else 0), c', s', x'; destruct Hdn' as [-> | ->].
  - assert (Hn' : nentries x' = Z.max (nentries x) (k + 1)).
    { unfold nentries at 1; rewrite Fsz, Hsz; unfold DESIZE in *.
      replace (Z.max (16 * nentries x) (16 * k + 16)) with (Z.max (nentries x) (k + 1) * 16) by lia; by rewrite Z.div_mul. }
    assert (Hnew : entry (fview s') x' k = dirent_bytes name inum).
    { apply entry_new; [lia|]; intros o Ho; by apply Fnew. }
    assert (Hold' : forall j, 0 <= j < nentries x -> j <> k -> entry (fview s') x' j = entry (fview s) x j) by auto.
    split_and!; [done|congruence|done| |left]; [split; [rewrite Ft; apply Hd|unfold DESIZE in *; lia]|].
    change (negb (DESIZE =? DESIZE)) with false; split_and!; [done| |].
    + exists k; split; [by eapply find_new|]; rewrite Hnew, dirent_inum; apply u16_small; lia.
    + intros name' Hne; split; [by eapply find_old|]; intros i Hi; apply Hold'.
      * unfold dir_find in Hi; pose proof (first_entry_spec (Z.to_nat (nentries x)) 0 (matches name') (fview s) x) as H; rewrite Hi in H; lia.
      * intros ->; unfold dir_find in Hi; pose proof (first_entry_spec (Z.to_nat (nentries x)) 0 (matches name') (fview s) x) as H.
        rewrite Hi in H; destruct H as (H1 & H2 & _); unfold matches in H2; rewrite Hfree in H2 by lia; done.
  - assert (Hn' : nentries x' = nentries x).
    { unfold nentries; rewrite Fsz, Z.max_l by (unfold DESIZE in *; lia); done. }
    split_and!; [done|congruence|done| |right]; [split; [rewrite Ft; apply Hd|rewrite Hn'; unfold DESIZE in *; lia]|].
    change (negb (0 =? DESIZE)) with true; split_and!; [done|apply Ffull; lia|].
    intros name'; unfold dir_find; rewrite Hn'; apply first_entry_ext; intros j Hj; rewrite Hold by lia; done.
Qed.

Lemma demo_dir_ok : dir_ok demo_root.
Proof. by split. Qed.

Lemma dirlookup_correct_witness :
  exists c1 s1, ready 1 s1 0 demo_root /\ held c1 = [] /\ (forall b, fview s1 b = fview demo_fs b) /\
    ((exists k, 0 <= k < nentries demo_root /\ de_inum (entry (fview demo_fs) demo_root k) <> 0 /\
        str14 [46; 46] = str14 (de_name (entry (fview demo_fs) demo_root k)) /\
        (forall j, 0 <= j < k -> de_inum (entry (fview demo_fs) demo_root j) = 0 \/
           str14 [46; 46] <> str14 (de_name (entry (fview demo_fs) demo_root j))) /\
        dirlookup 1 0 0 [46; 46] (Ctx [] []) demo_fs =
          (let* ip := iget ROOTDEV (de_inum (entry (fview demo_fs) demo_root k)) in kret (Some (ip, DESIZE * k))) c1 s1) \/
     ((forall j, 0 <= j < nentries demo_root -> de_inum (entry (fview demo_fs) demo_root j) = 0 \/
         str14 [46; 46] <> str14 (de_name (entry (fview demo_fs) demo_root j))) /\
      dirlookup 1 0 0 [46; 46] (Ctx [] []) demo_fs = Ret None c1 s1)).
Proof.
  apply (dirlookup_correct 1 0 demo_fs 0 demo_root (Ctx [] []) [46; 46]);
    [apply demo_ready|apply demo_dir_ok|apply fctx0|done].
Defined.

(** The bytes of the example's root directory, and a search in it. *)
Lemma demo_entry j : 0 <= j < 2 -> entry (fview demo_fs) demo_root j = slice demo_dir (Z.to_nat (16 * j)) 16.
Proof.
  intros Hj; unfold entry, DESIZE; rewrite fbytes_block.
  - assert (E : 16 * j / BSIZE = 0) by (unfold BSIZE; apply Z.div_small; lia); rewrite E, demo_fblk, decide_True by (done || (unfold NBLK; lia)).
    rewrite demo_fview; f_equal; unfold BSIZE; rewrite Z.mod_small by lia; done.
  - intros b; rewrite demo_fview; apply demo_fdisk_len.
  - lia.
  - lia.
  - unfold BSIZE; rewrite Z.mod_small; lia.
Qed.

Lemma demo_not_found : dir_find (fview demo_fs) demo_root [97] = None.
Proof.
  apply first_entry_None; intros i Hi; change (Z.of_nat (Z.to_nat (nentries demo_root))) with 2 in Hi.
  rewrite demo_entry by lia; assert (i = 0 \/ i = 1) as [-> | ->] by lia; by vm_compute.
Qed.

Lemma dirlink_correct_witness :
  exists r c' s' x', dirlink 1 0 0 [97] 7 (Ctx [] []) demo_fs = Ret r c' s' /\ held c' = [] /\
    ready 1 s' 0 x' /\ dir_ok x' /\
    ((r = 0 /\ (exists k, dir_find (fview s') x' [97] = Some k /\ de_inum (entry (fview s') x' k) = 7) /\
      (forall name', str14 name' <> str14 [97] -> dir_find (fview s') x' name' = dir_find (fview demo_fs) demo_root name' /\
         forall k, dir_find (fview demo_fs) demo_root name' = Some k -> entry (fview s') x' k = entry (fview demo_fs) demo_root k)) \/
     (r = -1 /\ full (fview s') (sb s') /\ forall name', dir_find (fview s') x' name' = dir_find (fview demo_fs) demo_root name')).
Proof.
  apply (dirlink_correct 1 0 demo_fs 0 demo_root (Ctx [] []) [97] 7);
    [apply demo_ready|apply demo_dir_ok|apply fctx0|done|by vm_compute| |lia|by vm_compute|apply demo_not_found].
  apply Forall_singleton; lia.
Defined.

(** ** Path names: skipelem *)

(** The reference: a path is split at its slashes, and the empty pieces are
    dropped. *)
Fixpoint split (path : list Z) : list (list Z) :=
  match path with
  | [] => [[]]
  | c :: p =>
      if c =? slash then [] :: split p
      else match split p with
           | h :: t => (c :: h) :: t
           | [] => [[c]]
           end
  end.
Definition components (path : list Z) : list (list Z) := filter (fun s => s <> []) (split path).

(** The names [namex] works through, one [skipelem] after the other. *)
Fixpoint names (fuel : nat) (path name : list Z) : option (list (list Z)) :=
  match skipelem path name with
  | None => Some []
  | Some (path', name') =>
      match fuel with
      | O => None
      | S f => cons name' <$> names f path' name'
      end
  end.

Lemma components_slashes path : components (skip_slashes path) = components path.
Proof.
  induction path as [|c p IH]; simpl; [done|]; destruct (Z.eqb_spec c slash) as [->|]; [|done].
  rewrite IH; unfold components; cbn [split]; by rewrite Z.eqb_refl, filter_cons_False by naive_solver.
Qed.

Lemma skip_slashes_head path : match skip_slashes path with c :: _ => c <> slash | [] => True end.
Proof. induction path as [|c p IH]; simpl; [done|]; by destruct (Z.eqb_spec c slash). Qed.

Lemma skip_slashes_length path : (length (skip_slashes path) <= length path)%nat.
Proof. induction path as [|c p IH]; simpl; [done|]; case_match; simpl; lia. Qed.

Lemma elem_end_spec path :
  let '(s, r) := elem_end path in
  path = s ++ r /\ Forall (fun c => c <> slash) s /\ match r with c :: _ => c = slash | [] => True end.
Proof.
  induction path as [|c p IH]; simpl; [done|]; destruct (Z.eqb_spec c slash) as [->|Hc]; [by split_and!|].
  destruct (elem_end p) as [s r]; destruct IH as (-> & Hs & Hr); split_and!; [done|by constructor|done].
Qed.

Lemma split_cons_ne path : exists h t, split path = h :: t.
Proof. destruct path as [|c p]; simpl; [by do 2 eexists|]; repeat case_match; by do 2 eexists. Qed.

Lemma split_elem s r :
  Forall (fun c => c <> slash) s -> match r with c :: _ => c = slash | [] => True end ->
  split (s ++ r) = s :: match r with [] => [] | _ :: r' => split r' end.
Proof.
  intros Hs Hr; induction Hs as [|c s Hc Hs IH]; simpl.
  - destruct r as [|c r]; [done|]; by subst.
  - replace (c =? slash) with false by lia; by rewrite IH.
Qed.

Lemma components_elem s r :
  s <> [] -> Forall (fun c => c <> slash) s -> match r with c :: _ => c = slash | [] => True end ->
  components (s ++ r) = s :: components r.
Proof.
  intros Hn Hs Hr; unfold components; rewrite split_elem, filter_cons_True by done; f_equal.
  destruct r as [|c r]; [done|]; subst; cbn [split]; by rewrite Z.eqb_refl, filter_cons_False by naive_solver.
Qed.

(** The name array after [skipelem] holds the element, cut at [DIRSIZ]. *)
Lemma until_nul_app s r : Forall (fun c => c <> 0) s -> until_nul (s ++ 0 :: r) = s.
Proof. induction 1 as [|c s Hc Hs IH]; simpl; [done|]; replace (c =? 0) with false by lia; by rewrite IH. Qed.

Lemma until_nul_all s : Forall (fun c => c <> 0) s -> until_nul s = s.
Proof. induction 1 as [|c s Hc Hs IH]; simpl; [done|]; replace (c =? 0) with false by lia; by rewrite IH. Qed.

Lemma name_elem s name :
  length name = 14%nat -> Forall (fun c => c <> 0) s ->
  let name' := if DIRSIZ <=? Z.of_nat (length s) then splice name 0 (take 14 s) else splice name 0 (s ++ [0]) in
  length name' = 14%nat /\ str14 name' = take 14 s.
Proof.
  intros Hl Hs name'; unfold DIRSIZ in *; unfold name'; destruct (Z.leb_spec 14 (Z.of_nat (length s))) as [H|H].
  - rewrite splice_all by (rewrite length_take; lia); split; [rewrite length_take; lia|].
    unfold str14; rewrite pad14_full by (rewrite length_take; lia); by apply until_nul_all, Forall_take.
  - assert (Hle : length (splice name 0 (s ++ [0])) = 14%nat) by (rewrite length_splice; rewrite ?length_app; simpl; lia).
    split; [done|]; unfold str14; rewrite pad14_full by done; unfold splice; simpl.
    rewrite <- app_assoc, (take_ge s 14) by lia; by apply until_nul_app.
Qed.

Lemma skipelem_spec path name :
  length name = 14%nat -> Forall (fun c => c <> 0) path ->
  match skipelem path name with
  | None => components path = []
  | Some (path', name') => exists s, components path = s :: components path' /\ length name' = 14%nat /\
      str14 name' = take 14 s /\ Forall (fun c => c <> 0) path' /\ (length path' < length path)%nat
  end.
Proof.
  intros Hl Hp; unfold skipelem; rewrite <- (components_slashes path).
  pose proof (skip_slashes_head path) as Hh; pose proof (skip_slashes_length path) as Hlen.
  assert (Hp' : Forall (fun c => c <> 0) (skip_slashes path)).
  { clear -Hp; induction Hp as [|c p Hc Hp IH]; simpl; [done|]; case_match; [done|by constructor]. }
  destruct (skip_slashes path) as [|c p]; [done|]; pose proof (elem_end_spec (c :: p)) as He.
  destruct (elem_end (c :: p)) as [s r]; destruct He as (E & Hs & Hr).
  assert (Hs0 : s <> []) by (intros ->; simpl in E; rewrite <- E in Hr; done).
  rewrite E in Hp', Hlen |- *; apply Forall_app in Hp' as [Hsn Hrn]; destruct (name_elem s name Hl Hsn) as [N1 N2].
  exists s; rewrite components_slashes; split_and!; auto.
  - by apply components_elem.
  - clear -Hrn; induction Hrn as [|c p Hc Hp IH]; simpl; [done|]; case_match; [done|by constructor].
  - pose proof (skip_slashes_length r); destruct s; [done|]; rewrite length_app in Hlen; simpl in *; lia.
Qed.

(** Repeated [skipelem] over a path gives exactly the non-empty pieces
    between its slashes, in order, each cut to [DIRSIZ] characters, and ends
    after at most as many steps as the path has characters. *)
Theorem skipelem_correct (path name : list Z) :
  length name = 14%nat -> Forall (fun c => c <> 0) path ->
  exists l, names (length path) path name = Some l /\ str14 <$> l = take 14 <$> components path.
Proof.
  remember (length path) as n eqn:En; assert (Hn : (length path <= n)%nat) by lia; clear En.
  revert path name Hn; induction n as [|n IH]; intros path name Hn Hl Hp; cbn [names]; pose proof (skipelem_spec path name Hl Hp) as H;
    destruct (skipelem path name) as [[path' name']|].
  - destruct H as (s & _ & _ & _ & _ & Hlt); lia.
  - exists []; by rewrite H.
  - destruct H as (s & -> & Hl' & Hs & Hp' & Hlt); destruct (IH path' name') as (l & -> & El); [lia|done|done|].
    exists (name' :: l); split; [done|]; cbn [fmap list_fmap]; by rewrite Hs, El.
  - exists []; by rewrite H.
Qed.

(** [//usr/a] *)
Lemma skipelem_correct_witness :
  exists l, names 7 [47; 47; 117; 115; 114; 47; 97] (replicate 14 0) = Some l /\ str14 <$> l = [[117; 115; 114]; [97]].
Proof.
  apply (skipelem_correct [47; 47; 117; 115; 114; 47; 97] (replicate 14 0)); [done|].
  repeat (apply Forall_cons; split; [lia|]); by apply Forall_nil.
Defined.
