(* ===== verification/File.v ===== *)
(** * kernel/file.c, and pipealloc of kernel/pipe.c

    The table of open files over the file system, the pipes and physical
    memory.  A [struct file *] is an index into the table; a pipe is known by
    the address of its page. *)

From S2P Require Import Prelude CMem KString Riscv Kalloc Vm Locks Pipe Block Bio Log Fs.

Inductive ftype : Type := FD_NONE | FD_PIPE | FD_INODE | FD_DEVICE.
#[export] Instance ftype_eq_dec : EqDecision ftype.
Proof. solve_decision. Defined.

Record file : Type := File {
  f_type : ftype;
  f_ref : Z;
  f_readable : Z;
  f_writable : Z;
  f_pipe : Z;
  f_ip : nat;
  f_off : Z;
  f_major : Z
}.
Definition file0 : file := File FD_NONE 0 0 0 0 0 0 0.

Record filest : Type := FileSt {
  ftab : list file;
  pipes : Z -> pipe;
  fss : fsst
}.

Definition fss_of : lens filest fsst := Lens fss (fun f s => FileSt (ftab s) (pipes s) f).
Definition mem_of : lens filest pmem :=
  Lens (fun s => um (fss s)) (fun m s => FileSt (ftab s) (pipes s) (FsSt (sb (fss s)) (itable (fss s)) (lgs (fss s)) m)).
Definition log_of : lens filest logst :=
  Lens (fun s => lgs (fss s)) (fun l s => FileSt (ftab s) (pipes s) (FsSt (sb (fss s)) (itable (fss s)) l (um (fss s)))).

(** The pipe at [pa] together with physical memory. *)
Definition pipe_of (pa : Z) : lens filest pipest :=
  Lens (fun s => PipeSt (pipes s pa) (um (fss s)))
       (fun p s => FileSt (ftab s) (fun a => if a =? pa then pi p else pipes s a)
                     (FsSt (sb (fss s)) (itable (fss s)) (lgs (fss s)) (pst_mem p))).

Definition get_file (f : nat) (s : filest) : file := default file0 (ftab s !! f).
Definition upd_file (f : nat) (g : file -> file) (s : filest) : filest :=
  FileSt (alter g f (ftab s)) (pipes s) (fss s).

Definition set_fref (r : Z) (x : file) : file :=
  File (f_type x) r (f_readable x) (f_writable x) (f_pipe x) (f_ip x) (f_off x) (f_major x).
Definition set_ftype (t : ftype) (x : file) : file :=
  File t (f_ref x) (f_readable x) (f_writable x) (f_pipe x) (f_ip x) (f_off x) (f_major x).
Definition set_off (o : Z) (x : file) : file :=
  File (f_type x) (f_ref x) (f_readable x) (f_writable x) (f_pipe x) (f_ip x) o (f_major x).

(** [fileinit]: the table is zero. *)
Definition fileinit : list file := replicate (Z.to_nat NFILE) file0.

(** The scan of [filealloc]. *)
Fixpoint find_free (l : list file) (i : nat) : option nat :=
  match l with
  | [] => None
  | x :: l' => if f_ref x =? 0 then Some i else find_free l' (S i)
  end.

Definition filealloc : M filest (option nat) :=
  acquire O_ftable ;;;
  let* s := kget in
  match find_free (ftab s) 0 with
  | Some f =>
      kmod (upd_file f (set_fref 1)) ;;;
      release O_ftable ;;;
      kret (Some f)
  | None =>
      release O_ftable ;;;
      kret None
  end.

Definition filedup (f : nat) : M filest nat :=
  acquire O_ftable ;;;
  let* s := kget in
  if f_ref (get_file f s) <? 1 then panic "filedup"
  else
    kmod (upd_file f (fun x => set_fref (i32 (f_ref x + 1)) x)) ;;;
    release O_ftable ;;;
    kret f.

Definition stat_bytes (st : stat) (pad : list Z) : list Z :=
  le_encode 4 (st_dev st) ++ le_encode 4 (st_ino st) ++ le_encode 2 (st_type st) ++ le_encode 2 (st_nlink st) ++
  pad ++ le_encode 8 (st_size st).

Section file.
Variable kend : Z.
Variable mypid : Z.            (* myproc()->pid *)
Variable pagetable : Z.        (* myproc()->pagetable *)
Variable killed : bool.        (* killed(myproc()) *)
Variable stat_pad : list Z.    (* the four padding bytes of struct stat *)
Variable devread : Z -> option (Z -> Z -> M filest Z).    (* devsw[major].read(1, addr, n) *)
Variable devwrite : Z -> option (Z -> Z -> M filest Z).   (* devsw[major].write(1, addr, n) *)

Definition fileclose (f : nat) : M filest unit :=
  acquire O_ftable ;;;
  let* s := kget in
  if f_ref (get_file f s) <? 1 then panic "fileclose"
  else
    kmod (upd_file f (fun x => set_fref (i32 (f_ref x - 1)) x)) ;;;
    let* s := kget in
    if 0 <? f_ref (get_file f s) then release O_ftable
    else
      let ff := get_file f s in
      kmod (upd_file f (fun x => set_ftype FD_NONE (set_fref 0 x))) ;;;
      release O_ftable ;;;
      match f_type ff with
      | FD_PIPE => zoom (pipe_of (f_pipe ff)) (pipeclose kend (f_pipe ff) (truth (f_writable ff)))
      | FD_INODE | FD_DEVICE =>
          zoom log_of begin_op ;;;
          zoom fss_of (iput mypid (f_ip ff)) ;;;
          zoom log_of (end_op mypid)
      | FD_NONE => kret tt
      end.

Definition filestat (f : nat) (addr : Z) : M filest Z :=
  let* s := kget in
  let x := get_file f s in
  match f_type x with
  | FD_INODE | FD_DEVICE =>
      zoom fss_of (ilock mypid (f_ip x)) ;;;
      let* st := zoom fss_of (stati (f_ip x)) in
      zoom fss_of (iunlock mypid (f_ip x)) ;;;
      let* r := zoom mem_of (copyout pagetable addr (stat_bytes st stat_pad)) in
      kret (if r <? 0 then -1 else 0)
  | _ => kret (-1)
  end.

Definition dev_call (tab : Z -> option (Z -> Z -> M filest Z)) (major addr n : Z) : M filest Z :=
  if (major <? 0) || (NDEV <=? major) then kret (-1)
  else match tab major with
       | None => kret (-1)
       | Some call => call addr n
       end.

Definition fileread (f : nat) (addr n : Z) : M filest Z :=
  let* s := kget in
  let x := get_file f s in
  if f_readable x =? 0 then kret (-1)
  else
    match f_type x with
    | FD_PIPE => zoom (pipe_of (f_pipe x)) (piperead (f_pipe x) pagetable killed addr n)
    | FD_DEVICE => dev_call devread (f_major x) addr n
    | FD_INODE =>
        zoom fss_of (ilock mypid (f_ip x)) ;;;
        let* (r, _) := zoom fss_of (readi mypid pagetable (f_ip x) (UserDst addr) (f_off x) (u32 n)) in
        (if 0 <? r then kmod (upd_file f (fun y => set_off (u32 (f_off y + r)) y)) else kret tt) ;;;
        zoom fss_of (iunlock mypid (f_ip x)) ;;;
        kret r
    | FD_NONE => panic "fileread"
    end.

(** [((MAXOPBLOCKS-1-1-2) / 2) * BSIZE] *)
Definition write_max : Z := (MAXOPBLOCKS - 1 - 1 - 2) / 2 * BSIZE.

(** The [while] of [filewrite]; the result is [i]. *)
Fixpoint filewrite_loop (fuel : nat) (f : nat) (addr n i : Z) : M filest Z :=
  if i <? n then
    match fuel with
    | O => stuck
    | S fu =>
        let n1 := Z.min (n - i) write_max in
        zoom log_of begin_op ;;;
        let* s := kget in
        let ip := f_ip (get_file f s) in
        zoom fss_of (ilock mypid ip) ;;;
        let* s := kget in
        let* r := zoom fss_of (writei mypid pagetable ip (UserSrc (u64 (addr + i))) (f_off (get_file f s)) n1) in
        (if 0 <? r then kmod (upd_file f (fun y => set_off (u32 (f_off y + r)) y)) else kret tt) ;;;
        zoom fss_of (iunlock mypid ip) ;;;
        zoom log_of (end_op mypid) ;;;
        if negb (r =? n1) then kret i
        else filewrite_loop fu f addr n (i + r)
    end
  else kret i.

Definition filewrite (f : nat) (addr n : Z) : M filest Z :=
  let* s := kget in
  let x := get_file f s in
  if f_writable x =? 0 then kret (-1)
  else
    match f_type x with
    | FD_PIPE => zoom (pipe_of (f_pipe x)) (pipewrite (f_pipe x) pagetable killed addr n)
    | FD_DEVICE => dev_call devwrite (f_major x) addr n
    | FD_INODE =>
        let* i := filewrite_loop (Z.to_nat (n / write_max + 1)) f addr n 0 in
        kret (if i =? n then n else -1)
    | FD_NONE => panic "filewrite"
    end.

(** ** pipealloc *)

(** The label [bad]; [pi] is 0 when there is no page. *)
Definition pipealloc_bad (pi : Z) (f0 f1 : option nat) : M filest (option (nat * nat)) :=
  (if truth pi then zoom mem_of (kfree kend pi) else kret tt) ;;;
  (match f0 with Some f => fileclose f | None => kret tt end) ;;;
  (match f1 with Some f => fileclose f | None => kret tt end) ;;;
  kret None.

(** Returns the two files, or nothing for -1. *)
Definition pipealloc : M filest (option (nat * nat)) :=
  let* f0 := filealloc in
  match f0 with
  | None => pipealloc_bad 0 None None
  | Some i0 =>
      let* f1 := filealloc in
      match f1 with
      | None => pipealloc_bad 0 (Some i0) None
      | Some i1 =>
          let* pi := zoom mem_of kalloc in
          if pi =? 0 then pipealloc_bad 0 (Some i0) (Some i1)
          else
            kmod (fun s => FileSt (ftab s)
              (fun a => if a =? pi then pipe_init (load_bytes (pm_mem (um (fss s))) (pi + 24) 512) else pipes s a) (fss s)) ;;;
            kmod (upd_file i0 (fun x => File FD_PIPE (f_ref x) 1 0 pi (f_ip x) (f_off x) (f_major x))) ;;;
            kmod (upd_file i1 (fun x => File FD_PIPE (f_ref x) 0 1 pi (f_ip x) (f_off x) (f_major x))) ;;;
            kret (Some (i0, i1))
      end
  end.
End file.
