(* ===== verification/FileOk.v ===== *)
(** * The file table: allocation, and pipes made of two files *)

From S2P Require Import Prelude CMem KString Riscv Kalloc Vm Locks Pipe Block Bio BioInv Log Fs FsAlloc File.

Lemma find_free_spec l i :
  match find_free l i with
  | Some f => exists k x, (f = i + k)%nat /\ l !! k = Some x /\ f_ref x = 0 /\ (forall j y, (j < k)%nat -> l !! j = Some y -> f_ref y <> 0)
  | None => forall j y, l !! j = Some y -> f_ref y <> 0
  end.
Proof.
  revert i; induction l as [|x l IH]; intros i; cbn [find_free]; [done|].
  destruct (Z.eqb_spec (f_ref x) 0) as [E|E]; [exists 0%nat, x; split_and!; [lia|done|done|intros; lia]|].
  specialize (IH (S i)); destruct (find_free l (S i)).
  - destruct IH as (k & y & -> & H1 & H2 & H3); exists (S k), y; split_and!; [lia|done|done|].
    intros [|j] z Hj Hz; [by injection Hz as <-|apply (H3 j z); [lia|done]].
  - intros [|j] z Hz; [by injection Hz as <-|by apply (IH j)].
Qed.

(** A file that is not in use has no type. *)
Record ftab_ok (s : filest) : Prop := FtabOk {
  ft_len : length (ftab s) = 100%nat;
  ft_free : forall f x, ftab s !! f = Some x -> f_ref x = 0 -> f_type x = FD_NONE
}.

Definition unused (f : nat) (s : filest) : Prop := exists x, ftab s !! f = Some x /\ f_ref x = 0.

Lemma filealloc_spec s c :
  O_ftable ∉ held c ->
  match filealloc c s with
  | Ret (Some f) c' s' => c' = c /\ unused f s /\ (forall j, (j < f)%nat -> ~ unused j s) /\ s' = upd_file f (set_fref 1) s
  | Ret None c' s' => c' = c /\ s' = s /\ forall f, ~ unused f s
  | _ => False
  end.
Proof.
  intros Hl; unfold filealloc, kbind; rewrite acquire_run by done; unfold kget.
  pose proof (find_free_spec (ftab s) 0) as H; destruct (find_free (ftab s) 0) as [f|]; unfold kmod, kret; rewrite release_run.
  - destruct H as (k & x & -> & H1 & H2 & H3); split_and!; [done|by exists x| |done].
    intros j Hj (y & Hy & Hy0); by apply (H3 j y).
  - split_and!; [done|done|]; intros f (y & Hy & Hy0); by apply (H f y).
Qed.

Lemma kalloc_result m c :
  O_kmem ∉ held c ->
  kalloc c m = Ret (freelist m) c (if freelist m =? 0 then m
    else PMem (memset (pm_mem m) (freelist m) 5 PGSIZE) (load64 (pm_mem m) (freelist m))).
Proof.
  intros Hl; unfold kalloc, kbind; rewrite acquire_run by done; unfold kget; destruct (freelist m =? 0);
    unfold kret, kput, kmod; by rewrite release_run.
Qed.

Lemma upd_file_same f g s : (forall x, ftab s !! f = Some x -> g x = x) -> upd_file f g s = s.
Proof.
  intros H; destruct s as [T p fs]; unfold upd_file; cbn [ftab pipes fss]; f_equal; apply list_eq; intros i.
  destruct (decide (f = i)) as [<-|]; [|by rewrite list_lookup_alter_ne].
  rewrite list_lookup_alter_eq; cbn [ftab] in H; destruct (T !! f) eqn:E; simpl; [by rewrite H|done].
Qed.

Lemma upd_file_upd f g h s : upd_file f g (upd_file f h s) = upd_file f (fun x => g (h x)) s.
Proof.
  unfold upd_file; cbn [ftab pipes fss]; f_equal; apply list_eq; intros i.
  destruct (decide (f = i)) as [<-|]; [|by rewrite !list_lookup_alter_ne].
  rewrite !list_lookup_alter_eq; by destruct (ftab s !! f).
Qed.

Lemma upd_file_comm f f' g h s : f <> f' -> upd_file f g (upd_file f' h s) = upd_file f' h (upd_file f g s).
Proof.
  intros Hne; unfold upd_file; cbn [ftab pipes fss]; f_equal; apply list_eq; intros i.
  destruct (decide (i = f)) as [E|E], (decide (i = f')) as [E'|E']; try congruence; subst;
    repeat (rewrite list_lookup_alter_eq || rewrite list_lookup_alter_ne by done); done.
Qed.

Lemma get_upd_file f g s x : ftab s !! f = Some x -> get_file f (upd_file f g s) = g x.
Proof. intros H; unfold get_file, upd_file; cbn [ftab]; by rewrite list_lookup_alter_eq, H. Qed.

(** [fileclose] of a file just taken from the table. *)
Lemma close_fresh kend mypid f s c x :
  O_ftable ∉ held c -> ftab s !! f = Some x -> f_ref x = 0 -> f_type x = FD_NONE ->
  fileclose kend mypid f c (upd_file f (set_fref 1) s) = Ret tt c s.
Proof.
  intros Hl Hx Hr Ht; unfold fileclose, kbind, kmod, kget, kret; rewrite acquire_run by done.
  rewrite (get_upd_file f _ s x) by done; change (f_ref (set_fref 1 x) <? 1) with false; cbv beta iota.
  rewrite !upd_file_upd, (get_upd_file f _ s x) by done; cbn [set_fref f_ref f_type].
  change (0 <? i32 (1 - 1)) with false; cbv beta iota; rewrite release_run, Ht; f_equal.
  rewrite ?upd_file_upd; apply upd_file_same; intros y Hy; rewrite Hx in Hy; injection Hy as <-.
  destruct x; cbn in *; by subst.
Qed.

(** The files and the pipe that [pipealloc] makes. *)
Record new_pipe (s : filest) (i0 i1 : nat) (s' : filest) : Prop := NewPipe {
  np_ne : i0 <> i1;
  np_free : unused i0 s /\ unused i1 s;
  np_page : freelist (um (fss s)) <> 0;
  np_read : forall x, ftab s !! i0 = Some x -> get_file i0 s' = File FD_PIPE 1 1 0 (freelist (um (fss s))) (f_ip x) (f_off x) (f_major x);
  np_write : forall x, ftab s !! i1 = Some x -> get_file i1 s' = File FD_PIPE 1 0 1 (freelist (um (fss s))) (f_ip x) (f_off x) (f_major x);
  np_others : forall f, f <> i0 -> f <> i1 -> ftab s' !! f = ftab s !! f;
  np_pipe : let p := pipes s' (freelist (um (fss s))) in
    pipe_inv p /\ pending p = [] /\ readopen p = 1 /\ writeopen p = 1;
  np_pipes : forall a, a <> freelist (um (fss s)) -> pipes s' a = pipes s a;
  np_mem : um (fss s') = PMem (memset (pm_mem (um (fss s))) (freelist (um (fss s))) 5 PGSIZE)
    (load64 (pm_mem (um (fss s))) (freelist (um (fss s))))
}.

Lemma pipe_init_ok d : length d = 512%nat -> pipe_inv (pipe_init d) /\ pending (pipe_init d) = [].
Proof. intros Hd; split; [split; [cbn; unfold PIPESIZE; lia|done..]|done]. Qed.

(** C34: [pipealloc] is all or nothing: it returns two distinct unused files,
    the read end and the write end of an empty pipe on a fresh page, with
    every other file, pipe and page untouched; or, when fewer than two files
    or no page are free, it returns an error and the whole state is as it
    was, the files it had taken included. *)
Theorem pipealloc_correct (kend mypid : Z) (s : filest) (c : kctx) :
  ftab_ok s -> O_ftable ∉ held c -> O_kmem ∉ held c ->
  match pipealloc kend mypid c s with
  | Ret (Some (i0, i1)) c' s' => c' = c /\ new_pipe s i0 i1 s'
  | Ret None c' s' => c' = c /\ s' = s /\
      (freelist (um (fss s)) = 0 \/ exists i, forall f, unused f s -> f = i)
  | _ => False
  end.
Proof.
  intros [Hlen Hfr] Hl Hk; unfold pipealloc, kbind at 1; pose proof (filealloc_spec s c Hl) as H0.
  destruct (filealloc c s) as [[i0|] c0 s0| | |]; try done.
  2: { destruct H0 as (-> & -> & Hno); unfold pipealloc_bad, kbind, kret; change (truth 0) with false; cbv beta iota.
       split_and!; auto; right; exists 0%nat; intros f Hf; by destruct (Hno f). }
  destruct H0 as (-> & (x0 & Hx0 & Hr0) & _ & ->); pose proof (filealloc_spec (upd_file i0 (set_fref 1) s) c Hl) as H1.
  unfold kbind at 1; destruct (filealloc c (upd_file i0 (set_fref 1) s)) as [[i1|] c1 s1| | |]; try done.
  2: { destruct H1 as (-> & -> & Hno); unfold pipealloc_bad, kbind, kret; change (truth 0) with false; cbv beta iota.
       rewrite (close_fresh kend mypid i0 s c x0) by eauto; split_and!; auto; right; exists i0; intros f (y & Hy & Hy0).
       destruct (decide (f = i0)) as [|Hne]; [done|]; destruct (Hno f); exists y; split; [|done].
       unfold upd_file; cbn [ftab]; by rewrite list_lookup_alter_ne. }
  destruct H1 as (-> & (x1 & Hx1 & Hr1) & _ & ->).
  assert (Hne : i0 <> i1).
  { intros <-; unfold upd_file in Hx1; cbn [ftab] in Hx1; rewrite list_lookup_alter_eq, Hx0 in Hx1; injection Hx1 as <-; done. }
  unfold upd_file in Hx1; cbn [ftab] in Hx1; rewrite list_lookup_alter_ne in Hx1 by done.
  unfold kbind at 1, zoom at 1; cbn [lget lset mem_of fss upd_file]; rewrite kalloc_result by done.
  destruct (Z.eqb_spec (freelist (um (fss s))) 0) as [E|E].
  - unfold pipealloc_bad, kbind, kret; change (truth 0) with false; cbv beta iota.
    set (s2 := FileSt _ _ _); assert (E2 : s2 = upd_file i0 (set_fref 1) (upd_file i1 (set_fref 1) s)).
    { rewrite (upd_file_comm i0 i1) by done; unfold s2, upd_file; cbn [ftab pipes fss um sb itable lgs]; destruct s as [T p [? ? ? ?]]; done. }
    rewrite E2, (close_fresh kend mypid i0 (upd_file i1 (set_fref 1) s) c x0), (close_fresh kend mypid i1 s c x1); eauto.
    unfold upd_file; cbn [ftab]; by rewrite list_lookup_alter_ne by done.
  - unfold kbind, kmod, kret; split; [done|]; cbn [upd_file ftab pipes fss um sb itable lgs].
    split; cbn [ftab pipes fss um sb itable lgs]; auto.
    + split; [by exists x0|by exists x1].
    + intros x Hx; unfold get_file, upd_file; cbn [ftab]; rewrite list_lookup_alter_ne, list_lookup_alter_eq by done.
      rewrite list_lookup_alter_ne, list_lookup_alter_eq, Hx by done; done.
    + intros x Hx; unfold get_file, upd_file; cbn [ftab]; rewrite list_lookup_alter_eq, list_lookup_alter_ne, list_lookup_alter_eq by done.
      rewrite list_lookup_alter_ne, Hx by done; done.
    + intros f H0 H1; unfold upd_file; cbn [ftab]; by rewrite !list_lookup_alter_ne by done.
    + unfold upd_file; cbn [pipes pm_mem]; rewrite Z.eqb_refl; destruct (pipe_init_ok (load_bytes (memset (pm_mem (um (fss s))) (freelist (um (fss s))) 5 PGSIZE)
        (freelist (um (fss s)) + 24) 512)) as [A B]; [apply length_load_bytes|]; by split_and!.
    + intros a Ha; unfold upd_file; cbn [pipes]; by replace (a =? freelist (um (fss s))) with false by lia.
Qed.

(** An empty table over a memory with free pages. *)
Definition demo_files : filest :=
  FileSt fileinit (fun _ => pipe_init []) (FsSt demo_sb [] (lgs demo_fs) (PMem (fun _ => 0) 0x87000000)).

Lemma demo_ftab_ok : ftab_ok demo_files.
Proof.
  split; [done|]; intros f x Hx _; change (replicate 100 file0 !! f = Some x) in Hx.
  by apply lookup_replicate in Hx as [-> _].
Qed.

Lemma pipealloc_correct_witness :
  match pipealloc 0x80100000 1 (Ctx [] []) demo_files with
  | Ret (Some (i0, i1)) c' s' => c' = Ctx [] [] /\ new_pipe demo_files i0 i1 s'
  | Ret None c' s' => c' = Ctx [] [] /\ s' = demo_files /\
      (freelist (um (fss demo_files)) = 0 \/ exists i, forall f, unused f demo_files -> f = i)
  | _ => False
  end.
Proof.
  apply (pipealloc_correct 0x80100000 1 demo_files (Ctx [] [])); [apply demo_ftab_ok|apply not_elem_of_nil|apply not_elem_of_nil].
Defined.
