(* ===== verification/FileWrite.v ===== *)
(** * filewrite: writes to a file are transactions

    A write to a file runs as a sequence of transactions, one per chunk of
    three blocks.  The file gets the bytes in order, the disk holds them when
    the call returns, and a crash at any disk write leaves a prefix of them. *)

From S2P Require Import Prelude CMem KString Riscv Kalloc Vm VmInv VmMap VmUser VmCopy Locks Pipe Block Bio BioInv BioSpec Log LogSpec LogCrash Fs FsBase FsAlloc FsInode FsFile FsBmap FsRead FsWrite FsWriteOk File FileOk.

(** ** begin_op and end_op of the only operation *)

Lemma begin_run s c :
  O_log ∉ held c -> lh_n (lg s) = 0 -> outstanding (lg s) = 0 -> committing (lg s) = 0 ->
  begin_op c s = Ret tt c (set_lg (set_outstanding 1) s).
Proof.
  intros Hc Hn Ho Hcm; rewrite begin_admits by (done || rewrite Hn, Ho; done); by rewrite Ho.
Qed.

(** The log between operations. *)
Definition idle_log (l : log) : log := Log (start l) (Log.size l) 0 0 (dev l) 0 (lh_block l).

(** Recovery looks at where the log is. *)
Lemma recovers_log mypid l l' d V :
  start l' = start l -> Log.size l' = Log.size l -> recovers_to mypid l d V -> recovers_to mypid l' d V.
Proof. intros E1 E2; unfold recovers_to, home; by rewrite E1, E2. Qed.

Section ops.
Variable mypid : Z.

Lemma commit_any s c :
  log_ok (lg s) -> bio_inv mypid (bc s) [] (logged (lg s)) -> bctx c -> hdr_n (disk (bc s) (start (lg s))) = 0 ->
  exists c' s' W, commit mypid c s = Ret tt c' s' /\ held c' = held c /\ lg s' = set_n 0 (lg s) /\
    bio_inv mypid (bc s') [] [] /\ disk0 (bc s') = disk0 (bc s) /\ writes (bc s') = writes (bc s) ++ W /\
    (forall k, recovers_to mypid (lg s) (disk_after (disk (bc s)) (take k W)) (disk (bc s)) \/
               recovers_to mypid (lg s) (disk_after (disk (bc s)) (take k W)) (view (bc s))) /\
    hdr_n (disk (bc s') (start (lg s))) = 0 /\ forall b, home (lg s) b -> view (bc s') b = view (bc s) b.
Proof.
  intros Hl Hinv Hc Hh; pose proof (lo_n _ Hl) as Hn.
  assert (HV : forall b, length (view (bc s) b) = 1024%nat) by (intros b; by eapply length_view).
  assert (Hsame : forall b, b ∉ logged (lg s) -> disk (bc s) b = view (bc s) b).
  { intros b Hb; symmetry; eapply view_clean; [exact Hinv|done|by intros ? ?%not_elem_of_nil]. }
  destruct (decide (lh_n (lg s) = 0)) as [E|E].
  - assert (Hnil : logged (lg s) = []) by (unfold logged; by rewrite E).
    exists c, s, []; rewrite app_nil_r; rewrite Hnil in Hinv; split_and!; auto.
    + unfold commit, kbind, kget; by rewrite E.
    + rewrite <- E; by destruct (lg s).
    + intros k; left; rewrite take_nil; apply recover_old; auto; apply (bi_disk _ _ _ _ Hinv).
  - destruct (commit_spec mypid s c Hl ltac:(lia) Hinv Hc) as (c' & s' & Hr & Hh' & Hlg & Hi & Hd0 & Hw).
    assert (Hdk : disk (bc s') = disk_after (disk (bc s)) (commit_writes (lg s) (view (bc s)))).
    { unfold disk at 1; rewrite Hd0, Hw; unfold disk; generalize (disk0 (bc s)); generalize (writes (bc s)).
      intros ws; induction ws as [|[b v] ws IH]; intros d; simpl; [done|apply IH]. }
    destruct (commit_done (lg s) (disk (bc s)) (view (bc s))) as [Hz Hb]; auto; try apply (bi_disk _ _ _ _ Hinv).
    exists c', s', (commit_writes (lg s) (view (bc s))); split_and!; auto; rewrite ?Hdk; auto.
    + intros k; apply crash_anywhere; auto; apply (bi_disk _ _ _ _ Hinv).
    + intros b Hb'; rewrite <- (Hb b Hb'), <- Hdk; eapply view_clean; [exact Hi|apply not_elem_of_nil|by intros ? ?%not_elem_of_nil].
Qed.

Lemma end_op_spec s c :
  log_ok (lg s) -> outstanding (lg s) = 1 -> committing (lg s) = 0 -> bio_inv mypid (bc s) [] (logged (lg s)) ->
  fctx c -> hdr_n (disk (bc s) (start (lg s))) = 0 ->
  exists c' s' W, end_op mypid c s = Ret tt c' s' /\ held c' = held c /\ lg s' = idle_log (lg s) /\
    bio_inv mypid (bc s') [] [] /\ disk0 (bc s') = disk0 (bc s) /\ writes (bc s') = writes (bc s) ++ W /\
    (forall k, recovers_to mypid (lg s) (disk_after (disk (bc s)) (take k W)) (disk (bc s)) \/
               recovers_to mypid (lg s) (disk_after (disk (bc s)) (take k W)) (view (bc s))) /\
    hdr_n (disk (bc s') (start (lg s))) = 0 /\ forall b, home (lg s) b -> view (bc s') b = view (bc s) b.
Proof.
  intros Hl Ho Hcm Hi [Hb Hlk] Hh; set (s1 := set_lg (set_committing 1) (set_lg (fun l => set_outstanding (outstanding l - 1) l) s)).
  assert (Hl1 : log_ok (lg s1)) by (destruct Hl; by split).
  destruct (commit_any s1 c Hl1 Hi Hb Hh) as (c2 & s2 & W & R & Hc2 & L2 & I2 & D2 & W2 & K & Z2 & V2).
  exists (add_woken O_log c2), (set_lg (set_committing 0) s2), W; split_and!; auto.
  - unfold end_op; krun; set (s0 := set_lg (fun l => _) s) in *.
    replace (committing (lg s0)) with 0 by (symmetry; exact Hcm).
    replace (outstanding (lg s0)) with 0 by (unfold s0; cbn; by rewrite Ho).
    change (truth 0) with false; krun; change (0 =? 0) with true; krun; change (set_lg (set_committing 1) s0) with s1; rewrite R.
    unfold acquire; rewrite decide_False by (by rewrite Hc2); by rewrite release_run_woken.
  - cbn [set_lg lg]; rewrite L2; unfold idle_log; cbn; by rewrite Ho.
Qed.
End ops.

(** ** A file with bytes written to it *)

Definition with_lock (lk : sleeplock) (x : inode) : inode :=
  Inode (i_dev x) (i_inum x) (i_ref x) lk (i_valid x) (i_type x) (i_major x) (i_minor x) (i_nlink x) (i_size x) (i_addrs x).

(** Where the bytes [l] at [off] end; no bytes end nowhere. *)
Definition reach (off : Z) (l : list Z) : Z := if decide (l = []) then 0 else off + Z.of_nat (length l).

(** The file [x] over the blocks [V] has become [x'] over [V'] by a write of
    [l] at [off]. *)
Record filled (sb : superblock) (V : Z -> list Z) (x : inode) (off : Z) (l : list Z) (V' : Z -> list Z) (x' : inode) : Prop := Filled {
  fi_meta : i_dev x' = i_dev x /\ i_inum x' = i_inum x /\ i_ref x' = i_ref x /\ i_valid x' = i_valid x /\
    i_type x' = i_type x /\ i_major x' = i_major x /\ i_minor x' = i_minor x /\ i_nlink x' = i_nlink x;
  fi_size : i_size x' = Z.max (i_size x) (reach off l);
  fi_new : forall o, off <= o < off + Z.of_nat (length l) -> fbyte V' x' o = get8 l (Z.to_nat (o - off));
  fi_old : forall o, 0 <= o < i_size x -> ~ (off <= o < off + Z.of_nat (length l)) -> fbyte V' x' o = fbyte V x o;
  fi_others : forall y, file_ok V sb y -> disjoint_files V x y ->
    file_ok V' sb y /\ disjoint_files V' x' y /\ forall o, 0 <= o < i_size y -> fbyte V' y o = fbyte V y o
}.

(** A file that is well-formed, with its inode on disk. *)
Record stored (sb : superblock) (V : Z -> list Z) (x : inode) : Prop := Stored {
  so_file : file_ok V sb x;
  so_meta : meta_used V sb;
  so_ok : inode_ok x;
  so_inum : 0 <= i_inum x < sb_ninodes sb;
  so_sync : forall y, read_dinode (V (IBLOCK (i_inum x) sb)) (dinode_off (i_inum x)) y = with_dinode x y
}.

Lemma stored_lock sb V x lk : stored sb V x -> stored sb V (with_lock lk x).
Proof. intros [[] ? [] ? ?]; split; [by split|done|by split|done|done]. Qed.

Lemma filled_lock sb V x off lk : 0 <= i_size x -> filled sb V x off [] V (with_lock lk x).
Proof.
  intros H0; split; [done| |simpl; intros; lia|done|].
  - unfold reach; rewrite decide_True by done; cbn [with_lock i_size]; lia.
  - intros y Hy Hd; done.
Qed.

(** What is not in the log is the file system. *)
Lemma stored_home sb l V V' x :
  layout sb l -> (forall b, home l b -> V' b = V b) -> stored sb V x ->
  stored sb V' x /\ forall off, filled sb V x off [] V' x.
Proof.
  intros Hla HV [Hf Hm Hk Hi Hy]; pose proof (layout_order _ _ Hla); pose proof (la_start _ _ Hla); pose proof (la_lsize _ _ Hla).
  assert (HV' : forall b, sb_inodestart sb <= b -> V' b = V b) by (intros b Hb; apply HV; unfold home; lia).
  assert (Hu : forall b, 0 <= b < sb_size sb -> used V' sb b = used V sb b).
  { intros b Hb; unfold used; rewrite HV'; [done|]; pose proof (bblock_range _ _ b Hla Hb); lia. }
  assert (Ho : forall y, file_ok V sb y -> forall b, owned V y b -> V' b = V b).
  { intros y Hy' b Hb; apply HV'; destruct (fl_data _ _ _ Hy' b Hb); lia. }
  assert (HF : forall y, file_ok V sb y -> file_ok V' sb y).
  { intros y Hy'; apply (file_ok_same V); [done|by apply Ho|]; intros b Hb; rewrite Hu by lia; done. }
  destruct (file_same _ _ _ _ Hf (Ho _ Hf)) as (_ & Hox & Hbx).
  split; [split; auto|intros off; split; auto].
  - intros b Hb; rewrite Hu by lia; by apply Hm.
  - intros y; rewrite HV'; [done|]; pose proof (iblock_range _ _ _ Hla Hi); lia.
  - done.
  - unfold reach; rewrite decide_True by done; pose proof (fl_size _ _ _ Hf); lia.
  - simpl; intros; lia.
  - intros y Hy' Hd; destruct (file_same _ _ _ _ Hy' (Ho _ Hy')) as (_ & Hoy & Hby); split_and!; auto.
    intros b Hb Hb'; apply (Hd b); [by apply Hoy|by apply Hox].
Qed.

Lemma filled_trans sb V V1 V2 x x1 x2 off l1 l2 :
  0 <= off -> 0 <= i_size x -> filled sb V x off l1 V1 x1 -> filled sb V1 x1 (off + Z.of_nat (length l1)) l2 V2 x2 ->
  filled sb V x off (l1 ++ l2) V2 x2.
Proof.
  intros Ho Hs [M1 S1 N1 O1 T1] [M2 S2 N2 O2 T2].
  assert (Hr : l1 <> [] -> off + Z.of_nat (length l1) <= i_size x1).
  { intros Hne; rewrite S1; unfold reach; rewrite decide_False by done; lia. }
  assert (Hle : i_size x <= i_size x1) by lia.
  split.
  - destruct M1 as (? & ? & ? & ? & ? & ? & ? & ?), M2 as (? & ? & ? & ? & ? & ? & ? & ?); split_and!; congruence.
  - rewrite S2, S1; unfold reach; destruct l1, l2; repeat (case_decide || done); rewrite ?length_app; simpl in *; try lia; done.
  - intros o; rewrite length_app; intros Hoo; destruct (decide (o < off + Z.of_nat (length l1))) as [Hlt|Hge].
    + assert (l1 <> []) by (intros ->; simpl in *; lia); rewrite O2 by (specialize (Hr ltac:(done)); lia).
      rewrite N1, get8_app_l by lia; done.
    + rewrite N2, get8_app_r by lia; f_equal; lia.
  - intros o Hoo; rewrite length_app; intros Hn; rewrite O2 by lia; apply O1; lia.
  - intros y Hy Hd; destruct (T1 y Hy Hd) as (Hy1 & Hd1 & Hb1); destruct (T2 y Hy1 Hd1) as (Hy2 & Hd2 & Hb2); split_and!; auto.
    intros o Hoo; rewrite Hb2 by done; auto.
Qed.

Lemma inode_ok_grown V sb l x x' :
  layout sb l -> inode_ok x -> same_meta (set_size (i_size x') x) x' -> file_ok V sb x' -> inode_ok x'.
Proof.
  intros Hla [] (_ & _ & _ & _ & _ & E1 & E2 & E3 & E4 & _) Hf; cbn [set_size i_type i_major i_minor i_nlink] in *.
  pose proof (layout_order _ _ Hla); pose proof (la_size _ _ Hla) as Hsz; change BPB with 8192 in Hsz.
  pose proof (la_start _ _ Hla); pose proof (la_lsize _ _ Hla); pose proof (fl_size _ _ _ Hf) as Hz; unfold NBLK, BSIZE in Hz.
  split; rewrite ?E1, ?E2, ?E3, ?E4; auto; [lia|apply (fl_len _ _ _ Hf)|].
  apply Forall_lookup; intros k a Hk; pose proof (lookup_lt_Some _ _ _ Hk) as Hl; rewrite (fl_len _ _ _ Hf) in Hl.
  destruct (decide (a = 0)) as [->|Hne]; [lia|]; assert (Ha : addr_of (Z.of_nat k) x' = a) by (unfold addr_of; by rewrite Nat2Z.id, Hk).
  destruct (fl_data _ _ _ Hf a); [|lia]; rewrite <- Ha in *; destruct (decide (Z.of_nat k = 12)) as [E|E].
  - rewrite E in *; by apply owned_ind.
  - rewrite <- (fblk_direct V x' (Z.of_nat k)) in * by lia; apply owned_blk; [unfold NBLK; lia|done].
Qed.

(** ** Between operations *)

Section idle.
Variables (mypid pagetable : Z).

(** No operation is running; the inode [ip] is loaded, held and unlocked. *)
Record idle (s : fsst) (ip : nat) (x : inode) : Prop := Idle {
  id_bio : bio_inv mypid (bc (lgs s)) [] [];
  id_log : log_ok (flog s);
  id_n : lh_n (flog s) = 0;
  id_out : outstanding (flog s) = 0;
  id_com : committing (flog s) = 0;
  id_size : Log.size (flog s) = 30;
  id_head : hdr_n (disk (bc (lgs s)) (start (flog s))) = 0;
  id_layout : layout (sb s) (flog s);
  id_ip : (ip < length (itable s))%nat;
  id_x : get_inode ip s = x;
  id_dev : i_dev x = ROOTDEV;
  id_ref : 1 <= i_ref x;
  id_free : locked (i_lock x) = 0;
  id_valid : i_valid x <> 0;
  id_stored : stored (sb s) (fview s) x
}.

(** The disk holds what the kernel sees. *)
Lemma idle_disk s ip x : idle s ip x -> recovers_to mypid (flog s) (disk (bc (lgs s))) (fview s).
Proof.
  intros Hs l0 Hl0; pose proof (id_bio _ _ _ Hs) as Hb.
  destruct (recover_old mypid (flog s) (disk (bc (lgs s))) (id_log _ _ _ Hs) (bi_disk _ _ _ _ Hb) (id_head _ _ _ Hs) l0 Hl0)
    as (c' & s' & Hr & Hz & Hd).
  exists c', s'; split_and!; auto; intros b Hh; rewrite Hd by done; symmetry.
  eapply view_clean; [exact Hb|apply not_elem_of_nil|by intros ? ?%not_elem_of_nil].
Qed.

(** [s'] is [s] after transactions that wrote [l] to the file at [off] and
    the blocks [W] to the disk; a crash during these leaves a prefix. *)
Record transacted (s : fsst) (ip : nat) (x : inode) (off : Z) (l : list Z) (W : list (Z * list Z)) (s' : fsst) (x' : inode) : Prop := Transacted {
  tr_idle : idle s' ip x';
  tr_filled : filled (sb s) (fview s) x off l (fview s') x';
  tr_same : sb s' = sb s /\ um s' = um s /\ itable s' = <[ip := x']> (itable s) /\
    start (flog s') = start (flog s) /\ Log.size (flog s') = Log.size (flog s);
  tr_disk0 : disk0 (bc (lgs s')) = disk0 (bc (lgs s));
  tr_writes : writes (bc (lgs s')) = writes (bc (lgs s)) ++ W;
  tr_crash : forall j, exists k V1 x1, (k <= length l)%nat /\
    filled (sb s) (fview s) x off (take k l) V1 x1 /\ stored (sb s) V1 x1 /\
    recovers_to mypid (flog s) (disk_after (disk (bc (lgs s))) (take j W)) V1
}.

Lemma disk_after_cat d ws ws' : disk_after d (ws ++ ws') = disk_after (disk_after d ws) ws'.
Proof. revert d; induction ws as [|[b v] ws IH]; intros d; simpl; [done|apply IH]. Qed.

Lemma transacted_trans s s1 s2 ip x x1 x2 off l1 l2 W1 W2 :
  0 <= off -> idle s ip x -> transacted s ip x off l1 W1 s1 x1 -> transacted s1 ip x1 (off + Z.of_nat (length l1)) l2 W2 s2 x2 ->
  transacted s ip x off (l1 ++ l2) (W1 ++ W2) s2 x2.
Proof.
  intros Ho Hs [A1 A2 (A3 & A4 & A5 & A6 & A7) A8 A9 A10] [B1 B2 (B3 & B4 & B5 & B6 & B7) B8 B9 B10].
  pose proof (fl_size _ _ _ (so_file _ _ _ (id_stored _ _ _ Hs))) as Hsz; rewrite A3 in B2.
  assert (Hd : disk (bc (lgs s1)) = disk_after (disk (bc (lgs s))) W1) by (unfold disk at 1; by rewrite A8, A9, disk_after_cat).
  split; [done|by eapply filled_trans; [lia|lia|exact A2|]| |congruence|by rewrite B9, A9, app_assoc|].
  - rewrite B5, A5, list_insert_insert_eq; split_and!; congruence.
  - intros j; destruct (decide (j <= length W1)%nat) as [Hj|Hj].
    + destruct (A10 j) as (k & V1 & y & Hk & HF & HS & HR); exists k, V1, y; rewrite length_app, !take_app_le by lia; split_and!; auto; lia.
    + destruct (B10 (j - length W1)%nat) as (k & V1 & y & Hk & HF & HS & HR); exists (length l1 + k)%nat, V1, y.
      rewrite length_app, (take_app_ge W1), (take_app_add' l1), disk_after_cat by lia; rewrite A3 in HF, HS; rewrite Hd in HR.
      split_and!; [lia|by eapply filled_trans; [lia|lia|exact A2|]|done|by eapply recovers_log; [| |exact HR]].
Qed.

(** ** One transaction *)

Lemma ilock_valid s ip x c :
  (ip < length (itable s))%nat -> get_inode ip s = x -> 1 <= i_ref x -> locked (i_lock x) = 0 -> i_valid x <> 0 ->
  O_inodelk ip ∉ held c -> ilock mypid ip c s = Ret tt c (put_inode ip (with_lock (SL 1 mypid) x) s).
Proof.
  intros Hip Hx Hr Hl Hv Hc; unfold ilock, kbind at 1, kget at 1; rewrite Hx; replace (i_ref x <? 1) with false by lia.
  unfold kbind at 1; rewrite acquiresleep_free by (cbn [lget inode_lock]; rewrite ?Hx; done).
  cbn [lset inode_lock]; rewrite upd_put_inode, Hx by done; unfold kbind, kget; rewrite get_put_inode by done.
  cbn [i_valid]; by replace (i_valid x =? 0) with false by lia.
Qed.

Lemma iunlock_run s ip x c :
  (ip < length (itable s))%nat -> get_inode ip s = x -> 1 <= i_ref x -> i_lock x = SL 1 mypid ->
  O_inodelk ip ∉ held c -> iunlock mypid ip c s = Ret tt (add_woken (O_inodelk ip) c) (put_inode ip (with_lock (SL 0 0) x) s).
Proof.
  intros Hip Hx Hr Hl Hc; unfold iunlock, kbind, kget; rewrite holdingsleep_run by done; cbn [lget inode_lock]; rewrite Hx, Hl.
  cbn [locked pid]; change (truth 1) with true; rewrite Z.eqb_refl; replace (i_ref x <? 1) with false by lia; cbn [negb orb andb].
  rewrite releasesleep_run by done; cbn [lset inode_lock]; by rewrite upd_put_inode, Hx by done.
Qed.

(** The state in which the inode is locked and the operation has begun. *)
Definition opened (s : fsst) (ip : nat) (x : inode) : fsst :=
  put_inode ip (with_lock (SL 1 mypid) x) (FsSt (sb s) (itable s) (set_lg (set_outstanding 1) (lgs s)) (um s)).

Lemma opened_ready s ip x : idle s ip x -> ready mypid (opened s ip x) ip (with_lock (SL 1 mypid) x) /\ room (opened s ip x) 29.
Proof.
  intros Hs; pose proof (id_n _ _ _ Hs) as Hn; pose proof (id_size _ _ _ Hs) as Hz; split.
  - pose proof (stored_lock _ _ _ (SL 1 mypid) (id_stored _ _ _ Hs)) as Hst; split.
    + split.
      * assert (E : logged (flog (opened s ip x)) = []) by (unfold logged; change (lh_n (flog (opened s ip x))) with (lh_n (flog s)); by rewrite Hn).
        rewrite E; apply (id_bio _ _ _ Hs).
      * split; [destruct (id_log _ _ _ Hs); by split|done|]; change (Log.size (flog (opened s ip x))) with (Log.size (flog s)); lia.
      * by intros i Hi%not_elem_of_nil.
    + apply (layout_keep (sb s) (flog s)); [done|done|apply (id_layout _ _ _ Hs)].
    + apply (so_meta _ _ _ Hst).
    + unfold opened, put_inode; cbn [itable]; rewrite length_insert; apply (id_ip _ _ _ Hs).
    + apply get_put_inode, (id_ip _ _ _ Hs).
    + apply (id_dev _ _ _ Hs).
    + apply (so_file _ _ _ Hst).
  - unfold room; change (flog (opened s ip x)) with (set_outstanding 1 (flog s)); cbn [lh_n set_outstanding Log.size]; lia.
Qed.

(** What an operation has done before it ends. *)
Record working (s : fsst) (ip : nat) (x : inode) (off : Z) (l : list Z) (s' : fsst) (x' : inode) : Prop := Working {
  wk_ready : ready mypid s' ip x';
  wk_lock : i_lock x' = SL 1 mypid;
  wk_filled : filled (sb s) (fview s) x off l (fview s') x';
  wk_stored : stored (sb s) (fview s') x';
  wk_same : sb s' = sb s /\ um s' = um s /\ itable s' = <[ip := x']> (itable s);
  wk_log : start (flog s') = start (flog s) /\ Log.size (flog s') = Log.size (flog s) /\
    outstanding (flog s') = 1 /\ committing (flog s') = 0;
  wk_disk : disk0 (bc (lgs s')) = disk0 (bc (lgs s)) /\ writes (bc (lgs s')) = writes (bc (lgs s))
}.

Lemma working_refl s ip x off : idle s ip x -> working s ip x off [] (opened s ip x) (with_lock (SL 1 mypid) x).
Proof.
  intros Hs; pose proof (opened_ready s ip x Hs) as [Hr _]; pose proof (id_stored _ _ _ Hs) as Hst; split; auto.
  - apply filled_lock; apply (fl_size _ _ _ (so_file _ _ _ Hst)).
  - by apply stored_lock.
  - split_and!; auto; apply (id_com _ _ _ Hs).
Qed.

Lemma get8_take (l : list Z) k i : (i < k)%nat -> get8 (take k l) i = get8 l i.
Proof. intros Hi; unfold get8; by rewrite lookup_take_lt. Qed.

Lemma written_working s ip x c off l dn c' s' x' :
  let x1 := with_lock (SL 1 mypid) x in
  idle s ip x -> 0 <= off <= i_size x -> 0 <= dn <= Z.of_nat (length l) ->
  file_written mypid (opened s ip x) ip x1 c off l dn c' s' x' -> working s ip x off (take (Z.to_nat dn) l) s' x'.
Proof.
  intros x1 Hs Hoff Hdn [Fh Fr _ Fu (L1 & L2 & L3 & L4) D1 D2 Fs Ft Fm Fz Fn Fo Ff Fx Fd].
  pose proof (id_stored _ _ _ Hs) as Hst; pose proof (rd_file _ _ _ _ Fr) as Hf; rewrite Fs in Hf, Fx.
  change (sb (opened s ip x)) with (sb s) in *; change (fview (opened s ip x)) with (fview s) in *.
  assert (Hok : inode_ok x') by (eapply (inode_ok_grown _ _ _ x1); [apply (id_layout _ _ _ Hs)|apply (so_ok _ _ _ (stored_lock _ _ _ _ Hst))|exact Fm|exact Hf]).
  pose proof Fm as (M1 & M2 & M3 & M4 & M5 & M6 & M7 & M8 & M9 & _).
  change (itable (opened s ip x)) with (<[ip := x1]> (itable s)) in Ft; rewrite list_insert_insert_eq in Ft.
  assert (Hlt : length (take (Z.to_nat dn) l) = Z.to_nat dn) by (rewrite length_take; lia).
  split; auto.
  - split; auto; rewrite ?Hlt.
    + by split_and!.
    + rewrite Fz; unfold reach; case_decide as E; [|rewrite Hlt; cbn [x1 with_lock i_size]; lia].
      rewrite E in Hlt; simpl in Hlt; cbn [x1 with_lock i_size]; lia.
    + intros o Ho; rewrite Fn, get8_take by lia; done.
    + intros o Ho Hn; apply Fo; [done|lia].
  - split; auto.
    + rewrite <- Fs; apply (rd_meta _ _ _ _ Fr).
    + rewrite M2; apply (so_inum _ _ _ Hst).
    + intros y; rewrite M2; by apply Fd.
  - rewrite L1, L2, L3, L4; split_and!; auto; apply (id_com _ _ _ Hs).
Qed.

Lemma write_op s ip x c off sr l :
  idle s ip x -> fctx c -> reads pagetable (um s) sr l -> 0 <= off < 2 ^ 32 -> Z.of_nat (length l) <= write_max ->
  exists r k c' s' x', writei mypid pagetable ip sr off (Z.of_nat (length l)) c (opened s ip x) = Ret r c' s' /\
    held c' = held c /\ working s ip x off (take k l) s' x' /\ (k <= length l)%nat /\
    ((r = -1 /\ k = 0%nat /\ (i_size x < off \/ MAXFILE * BSIZE < off + Z.of_nat (length l))) \/
     (r = Z.of_nat k /\ off + Z.of_nat k <= MAXFILE * BSIZE /\ ((k < length l)%nat -> full (fview s') (sb s)))).
Proof.
  intros Hs Hc Hrd Ho Hl; destruct (opened_ready s ip x Hs) as [Hr Hroom]; change write_max with 3072 in Hl.
  assert (Hnb : (6 * nblks off (Z.of_nat (length l)) + 1 <= 29)%nat).
  { unfold nblks, BSIZE; pose proof (Z.mod_pos_bound off 1024 ltac:(lia)).
    pose proof (Z.div_lt_upper_bound (off mod 1024 + Z.of_nat (length l) + 1023) 1024 5); lia. }
  pose proof (writei_spec mypid pagetable (opened s ip x) ip _ c off sr l Hrd Hr Hc (so_inum _ _ _ (id_stored _ _ _ Hs)) Ho ltac:(lia)) as W.
  cbv zeta in W; specialize (W (room_le _ _ _ Hroom Hnb)); cbn [with_lock i_size] in W.
  destruct (_ || _) eqn:E in W.
  - exists (-1), 0%nat, c, (opened s ip x), (with_lock (SL 1 mypid) x); rewrite take_0; split_and!; auto; [by apply working_refl|lia|].
    left; split_and!; auto; apply orb_true_iff in E as [E|E]; lia.
  - apply orb_false_iff in E as [E1 E2]; destruct W as (dn & c' & s' & x' & Hrun & Hdn & HF).
    exists dn, (Z.to_nat dn), c', s', x'; split_and!; auto; [apply (fw_held _ _ _ _ _ _ _ _ _ _ _ HF)|eapply written_working; eauto; lia|lia|].
    right; split_and!; [lia|lia|]; intros Hlt; change (sb s) with (sb (opened s ip x)); rewrite <- (fw_sb _ _ _ _ _ _ _ _ _ _ _ HF).
    apply (fw_full _ _ _ _ _ _ _ _ _ _ _ HF); lia.
Qed.

(** The end of the operation. *)
Definition closed (s : fsst) (ip : nat) (x : inode) : fsst := put_inode ip (with_lock (SL 0 0) x) s.

Lemma end_idle s ip x off l s1 x1 s2 :
  idle s ip x -> working s ip x off l s1 x1 -> lg s2 = idle_log (flog s1) -> bio_inv mypid (bc s2) [] [] ->
  hdr_n (disk (bc s2) (start (flog s1))) = 0 -> stored (sb s) (view (bc s2)) (with_lock (SL 0 0) x1) ->
  idle (FsSt (sb s1) (itable (closed s1 ip x1)) s2 (um s1)) ip (with_lock (SL 0 0) x1).
Proof.
  intros Hs [Kr _ Kf _ (S1 & _ & S3) (L1 & L2 & _ & _) _] Hl2 I2 Hz Hst; pose proof (rd_ok _ _ _ _ Kr) as [_ [Hlg _ _] _].
  pose proof (fi_meta _ _ _ _ _ _ _ Kf) as (M1 & M2 & M3 & M4 & _); pose proof (rd_ip _ _ _ _ Kr) as Hip.
  split; unfold flog, fview; cbn [sb um itable lgs]; rewrite ?Hl2; cbn [idle_log lh_n outstanding committing Log.size start dev]; auto.
  - destruct Hlg as [G1 G2 G3 G4 G5 G6 G7]; split; cbn [idle_log dev lh_block lh_n Log.size start]; auto; [lia|lia| |].
    + constructor.
    + by intros b Hb0%not_elem_of_nil.
  - rewrite L2; apply (id_size _ _ _ Hs).
  - rewrite S1; eapply layout_keep; [| |apply (id_layout _ _ _ Hs)]; done.
  - unfold closed, put_inode; cbn [itable]; by rewrite length_insert.
  - unfold closed, put_inode, get_inode; cbn [itable]; by rewrite list_lookup_insert_eq.
  - cbn [with_lock i_dev]; rewrite M1; apply (id_dev _ _ _ Hs).
  - cbn [with_lock i_ref]; rewrite M3; apply (id_ref _ _ _ Hs).
  - cbn [with_lock i_valid]; rewrite M4; apply (id_valid _ _ _ Hs).
  - rewrite S1; exact Hst.
Qed.

(** The view of an idle file system is its disk. *)
Lemma recovers_idle s ip x l d :
  idle s ip x -> recovers_to mypid l d (disk (bc (lgs s))) -> recovers_to mypid l d (fview s).
Proof.
  intros Hs HR l0 Hl0; destruct (HR l0 Hl0) as (c0 & s0 & R0 & Z0 & V0); exists c0, s0; split_and!; auto.
  intros b Hb'; rewrite V0 by done; symmetry; eapply view_clean; [apply (id_bio _ _ _ Hs)|apply not_elem_of_nil|by intros ? ?%not_elem_of_nil].
Qed.

Lemma end_of_op s ip x off l s1 x1 c :
  idle s ip x -> 0 <= off -> working s ip x off l s1 x1 -> fctx c ->
  exists c' lg' W, end_op mypid c (lgs (closed s1 ip x1)) = Ret tt c' lg' /\ held c' = held c /\
    transacted s ip x off l W (FsSt (sb s1) (itable (closed s1 ip x1)) lg' (um s1)) (with_lock (SL 0 0) x1) /\
    forall b, home (flog s1) b -> view (bc lg') b = fview s1 b.
Proof.
  intros Hs Ho K Hc; pose proof K as [Kr Kl Kf Ks (S1 & S2 & S3) (L1 & L2 & L3 & L4) (D1 & D2)].
  pose proof (rd_ok _ _ _ _ Kr) as [Hb [Hlg _ _] _]; pose proof (id_stored _ _ _ Hs) as Hst.
  assert (Hdk : disk (bc (lgs s1)) = disk (bc (lgs s))) by (unfold disk; by rewrite D1, D2).
  destruct (end_op_spec mypid (lgs s1) c Hlg L3 L4 Hb Hc) as (c' & s2 & W & R & Hc' & Hl2 & I2 & E2 & W2 & Hcr & Hz & Hv).
  { rewrite Hdk; change (lg (lgs s1)) with (flog s1); rewrite L1; apply (id_head _ _ _ Hs). }
  change (lg (lgs s1)) with (flog s1) in *; pose proof (layout_keep _ _ (flog s1) L1 L2 (id_layout _ _ _ Hs)) as Hla.
  pose proof (fl_size _ _ _ (so_file _ _ _ Hst)) as Hz0; pose proof (fl_size _ _ _ (so_file _ _ _ Ks)) as Hz1.
  destruct (stored_home (sb s) (flog s1) (fview s1) (view (bc s2)) (with_lock (SL 0 0) x1) Hla Hv) as [Hst2 Hf2].
  { by apply stored_lock. }
  exists c', s2, W; split_and!; auto; split; [by eapply end_idle| | |cbn [lgs]; congruence|cbn [lgs]; rewrite W2; congruence|].
  - rewrite <- (app_nil_r l); eapply filled_trans; [done|lia|exact Kf|].
    change (@nil Z) with (@nil Z ++ []); eapply filled_trans; [lia|lia|apply (filled_lock _ _ _ _ (SL 0 0)); lia|].
    apply Hf2.
  - unfold flog, closed, put_inode; cbn [lgs sb um itable]; rewrite Hl2, S3, list_insert_insert_eq; split_and!; auto.
  - intros j; rewrite <- Hdk; destruct (Hcr j) as [HR|HR].
    + exists 0%nat, (fview s), x; rewrite take_0; split_and!; auto; [lia| |].
      * replace x with (with_lock (i_lock x) x) at 2 by (by destruct x); apply filled_lock; lia.
      * eapply recovers_log; [symmetry; exact L1|symmetry; exact L2|]; rewrite Hdk in HR at 2; by eapply recovers_idle.
    + exists (length l), (fview s1), x1; rewrite take_ge by lia; split_and!; auto; try lia.
      eapply recovers_log; [symmetry; exact L1|symmetry; exact L2|exact HR].
Qed.
End idle.

(** ** The loop of filewrite *)

Section loop.
Variables (mypid pagetable : Z) (f ip : nat).

Lemma reads_take u sr l k : reads pagetable u sr l -> reads pagetable u sr (take k l).
Proof.
  intros H tot m c s Hu Ht Hm Hl; rewrite length_take in Hl; rewrite H by (done || lia); do 2 f_equal.
  unfold slice; rewrite skipn_firstn_comm, take_take; f_equal; lia.
Qed.

Lemma reads_drop u a l k :
  (k <= length l)%nat -> reads pagetable u (UserSrc a) l -> reads pagetable u (UserSrc (u64 (a + Z.of_nat k))) (drop k l).
Proof.
  intros Hk H tot m c s Hu Ht Hm Hl; rewrite length_drop in Hl.
  specialize (H (Z.of_nat k + tot) m c s Hu ltac:(lia) Hm ltac:(lia)); cbn [either_copyin] in *.
  replace (u64 (u64 (a + Z.of_nat k) + tot)) with (u64 (a + (Z.of_nat k + tot))).
  - rewrite H; unfold slice; rewrite drop_drop; do 4 f_equal; lia.
  - unfold u64; rewrite Zplus_mod_idemp_l; f_equal; lia.
Qed.

(** The file of the table is over the inode, at [off]. *)
Definition at_off (s : filest) (off : Z) : Prop := exists fl, ftab s !! f = Some fl /\ f_ip fl = ip /\ f_off fl = off.

Lemma alter_ext (T : list file) (g h : file -> file) :
  (forall y, T !! f = Some y -> g y = h y) -> alter g f T = alter h f T.
Proof.
  intros H; apply list_eq; intros j; destruct (decide (f = j)) as [<-|]; [|by rewrite !list_lookup_alter_ne].
  rewrite !list_lookup_alter_eq; destruct (T !! f) as [y|] eqn:E; simpl; [by rewrite H|done].
Qed.

(** [f->off += r] when bytes were written. *)
Lemma move_run r k off c s :
  at_off s off -> off + Z.of_nat k < 2 ^ 32 -> 0 <= off -> r = Z.of_nat k \/ (r = -1 /\ k = 0%nat) ->
  (if 0 <? r then kmod (upd_file f (fun y => set_off (u32 (f_off y + r)) y)) else kret tt) c s =
  Ret tt c (upd_file f (set_off (off + Z.of_nat k)) s).
Proof.
  intros (fl & Hfl & _ & Ho) Hk H0 Hr; destruct (Z.ltb_spec 0 r) as [Hp|Hp]; unfold kmod, kret; f_equal; unfold upd_file.
  - f_equal; apply alter_ext; intros y Hy; rewrite Hfl in Hy; injection Hy as <-.
    assert (r = Z.of_nat k) as -> by lia; rewrite Ho, u32_small by lia; done.
  - symmetry; apply (upd_file_same f (set_off (off + Z.of_nat k)) s); intros y Hy; rewrite Hfl in Hy; injection Hy as <-.
    assert (k = 0%nat) as -> by lia; rewrite Z.add_0_r, <- Ho; by destruct fl.
Qed.

(** How a chunk ended. *)
Definition chunk_end (V : Z -> list Z) (sb : superblock) (x : inode) (off : Z) (l : list Z) (r : Z) (k : nat) : Prop :=
  (r = -1 /\ k = 0%nat /\ (i_size x < off \/ MAXFILE * BSIZE < off + Z.of_nat (length l))) \/
  (r = Z.of_nat k /\ off + Z.of_nat k <= MAXFILE * BSIZE /\ ((k < length l)%nat -> full V sb)).

(** The steps of a turn, given what [writei] and [end_op] do in it. *)
Lemma chunk_steps fu s c x off addr n i l1 r k c1 s1 x1 c2 g2 :
  i < n -> Z.of_nat (length l1) = Z.min (n - i) write_max -> at_off s off -> idle mypid (fss s) ip x -> fctx c -> O_inodelk ip ∉ held c -> 0 <= off ->
  writei mypid pagetable ip (UserSrc (u64 (addr + i))) off (Z.of_nat (length l1)) c (opened mypid (fss s) ip x) = Ret r c1 s1 -> held c1 = held c ->
  working mypid (fss s) ip x off (take k l1) s1 x1 -> off + Z.of_nat k < 2 ^ 32 -> r = Z.of_nat k \/ (r = -1 /\ k = 0%nat) ->
  end_op mypid (add_woken (O_inodelk ip) c1) (lgs (closed s1 ip x1)) = Ret tt c2 g2 ->
  filewrite_loop mypid pagetable (S fu) f addr n i c s =
    (if negb (r =? Z.of_nat (length l1)) then kret i else filewrite_loop mypid pagetable fu f addr n (i + r)) c2
      (FileSt (alter (set_off (off + Z.of_nat k)) f (ftab s)) (pipes s) (FsSt (sb s1) (itable (closed s1 ip x1)) g2 (um s1))).
Proof.
  intros Hin Hl1 Hat Hs Hc Hip Ho R1 C1 K1 Hk Hkr R2; pose proof Hat as (fl & Hfl & Hfi & Hfo); cbn [filewrite_loop].
  assert (Hrf : 1 <= i_ref x1).
  { destruct (fi_meta _ _ _ _ _ _ _ (wk_filled _ _ _ _ _ _ _ _ K1)) as (_ & _ & -> & _); apply (id_ref _ _ _ _ Hs). }
  assert (Hip1 : O_inodelk ip ∉ held c1) by by rewrite C1.
  replace (i <? n) with true by lia; cbv zeta; rewrite <- Hl1; unfold kbind at 1.
  rewrite (zoom_run log_of _ c s _ _ _ (begin_run (lgs (fss s)) c (proj2 Hc) (id_n _ _ _ _ Hs) (id_out _ _ _ _ Hs) (id_com _ _ _ _ Hs))).
  set (sb1 := lset log_of _ s); unfold kbind at 1, kget at 1.
  assert (Hg : get_file f sb1 = fl) by (unfold get_file; change (ftab sb1) with (ftab s); by rewrite Hfl).
  rewrite Hg, Hfi; unfold kbind at 1; rewrite (zoom_run fss_of _ c sb1 _ _ _ (ilock_valid mypid (fss sb1) ip x c (id_ip _ _ _ _ Hs) (id_x _ _ _ _ Hs)
    (id_ref _ _ _ _ Hs) (id_free _ _ _ _ Hs) (id_valid _ _ _ _ Hs) Hip)).
  set (sb2 := lset fss_of _ sb1); unfold kbind at 1, kget at 1; change (get_file f sb2) with (get_file f sb1); rewrite Hg, Hfo.
  unfold kbind at 1; rewrite (zoom_run fss_of _ c sb2 _ _ _ R1); set (sb3 := lset fss_of _ sb2); unfold kbind at 1.
  rewrite (move_run r k off) by (done || lia || (by exists fl)); set (sb4 := upd_file f _ sb3); unfold kbind at 1.
  rewrite (zoom_run fss_of _ c1 sb4 _ _ _ (iunlock_run mypid s1 ip x1 c1 (rd_ip _ _ _ _ (wk_ready _ _ _ _ _ _ _ _ K1))
    (rd_x _ _ _ _ (wk_ready _ _ _ _ _ _ _ _ K1)) Hrf (wk_lock _ _ _ _ _ _ _ _ K1) Hip1)).
  set (sb5 := lset fss_of _ sb4); unfold kbind at 1; by rewrite (zoom_run log_of _ _ sb5 _ _ _ R2).
Qed.

Lemma full_home sb l V V' : layout sb l -> (forall b, home l b -> V' b = V b) -> full V sb -> full V' sb.
Proof.
  intros Hla HV Hf b Hb; rewrite <- (Hf b Hb); unfold used; rewrite HV; [done|].
  pose proof (layout_order _ _ Hla); pose proof (bblock_range _ _ b Hla Hb); unfold home; lia.
Qed.

Lemma chunk_run fu s c x off addr l i :
  let n := i + Z.of_nat (length l) in
  let l1 := take (Z.to_nat write_max) l in
  l <> [] -> at_off s off -> idle mypid (fss s) ip x -> fctx c -> O_inodelk ip ∉ held c -> 0 <= off < 2 ^ 32 ->
  reads pagetable (um (fss s)) (UserSrc (u64 (addr + i))) l ->
  exists r k c' fs' x' W,
    filewrite_loop mypid pagetable (S fu) f addr n i c s =
    (if negb (r =? Z.of_nat (length l1)) then kret i else filewrite_loop mypid pagetable fu f addr n (i + r)) c'
      (FileSt (alter (set_off (off + Z.of_nat k)) f (ftab s)) (pipes s) fs') /\
    held c' = held c /\ (k <= length l1)%nat /\ transacted mypid (fss s) ip x off (take k l1) W fs' x' /\
    chunk_end (fview fs') (sb fs') x off l1 r k.
Proof.
  intros n l1 Hne Hat Hs Hc Hip Ho Hrd; assert (Hl : (0 < length l)%nat) by (destruct l; simpl; [done|lia]).
  assert (Hl1 : Z.of_nat (length l1) = Z.min (n - i) write_max).
  { unfold l1, n; rewrite length_take; change write_max with 3072; lia. }
  destruct (write_op mypid pagetable (fss s) ip x c off _ l1 Hs Hc (reads_take _ _ _ _ Hrd) Ho ltac:(lia))
    as (r & k & c1 & s1 & x1 & R1 & C1 & K1 & Hk & He).
  assert (Hc1 : fctx c1) by by eapply fctx_held.
  destruct (end_of_op mypid (fss s) ip x off (take k l1) s1 x1 (add_woken (O_inodelk ip) c1) Hs ltac:(lia) K1 Hc1)
    as (c2 & g2 & W & R2 & C2 & T2 & V2).
  assert (Hko : off + Z.of_nat k < 2 ^ 32) by (change (MAXFILE * BSIZE) with 274432 in He; lia).
  assert (Hkr : r = Z.of_nat k \/ r = -1 /\ k = 0%nat) by (destruct He as [(? & ? & _)|(? & _)]; auto).
  exists r, k, c2, (FsSt (sb s1) (itable (closed s1 ip x1)) g2 (um s1)), (with_lock (SL 0 0) x1), W; split_and!; auto.
  - eapply chunk_steps; eauto; unfold n; lia.
  - cbn in C2; congruence.
  - unfold chunk_end; cbn [sb]; destruct (tr_same _ _ _ _ _ _ _ _ _ T2) as (E & _); cbn [sb] in E.
    destruct He as [?|(? & ? & Hfl)]; [by left|right; split_and!; auto]; intros Hlt; rewrite <- E in Hfl.
    eapply full_home; [apply (rd_layout _ _ _ _ (wk_ready _ _ _ _ _ _ _ _ K1))|exact V2|auto].
Qed.
Lemma transacted_refl s x off : idle mypid s ip x -> transacted mypid s ip x off [] [] s x.
Proof.
  intros Hs; pose proof (id_stored _ _ _ _ Hs) as Hst; pose proof (fl_size _ _ _ (so_file _ _ _ Hst)).
  assert (Hf : filled (sb s) (fview s) x off [] (fview s) x).
  { replace x with (with_lock (i_lock x) x) at 2 by (by destruct x); apply filled_lock; lia. }
  split; auto.
  - split_and!; auto; symmetry; apply list_insert_id; rewrite <- (id_x _ _ _ _ Hs); unfold get_inode.
    by destruct (lookup_lt_is_Some_2 _ _ (id_ip _ _ _ _ Hs)) as [y ->].
  - by rewrite app_nil_r.
  - intros j; exists 0%nat, (fview s), x; rewrite !take_nil; split_and!; auto; by eapply idle_disk.
Qed.

(** Why fewer bytes than [l] were written. *)
Definition cut_short (V : Z -> list Z) (sb : superblock) (x : inode) (off : Z) (l : list Z) : Prop :=
  i_size x < off \/ MAXFILE * BSIZE < off + Z.of_nat (length l) \/ full V sb.

Definition loop_post (s : filest) (c : kctx) (x : inode) (off : Z) (l : list Z) (i : Z) (res : outcome filest Z) : Prop :=
  exists r k c' fs' x' W, res = Ret r c' (FileSt (alter (set_off (off + Z.of_nat k)) f (ftab s)) (pipes s) fs') /\
    held c' = held c /\ transacted mypid (fss s) ip x off (take k l) W fs' x' /\
    ((r = i + Z.of_nat (length l) /\ k = length l) \/
     (r < i + Z.of_nat (length l) /\ (k < length l)%nat /\ cut_short (fview fs') (sb fs') x off l)).

Lemma write_loop_done fu s c x off addr i :
  at_off s off -> idle mypid (fss s) ip x ->
  loop_post s c x off [] i (filewrite_loop mypid pagetable fu f addr (i + 0) i c s).
Proof.
  intros (fl & Hfl & _ & Hfo) Hs; exists i, 0%nat, c, (fss s), x, []; split_and!; auto.
  - change (FileSt _ _ _) with (upd_file f (set_off (off + Z.of_nat 0)) s); rewrite upd_file_same.
    + destruct fu; cbn [filewrite_loop]; by replace (i <? i + 0) with false by lia.
    + intros y Hy; rewrite Hfl in Hy; injection Hy as <-; rewrite Z.add_0_r, <- Hfo; by destruct fl.
  - by apply transacted_refl.
  - left; simpl; split; [lia|done].
Qed.

(** A full chunk, then the rest. *)
Lemma loop_more s c c1 x off l i fs1 x1 W k res :
  let s1 := FileSt (alter (set_off (off + Z.of_nat k)) f (ftab s)) (pipes s) fs1 in
  0 <= off -> (0 < k <= length l)%nat -> idle mypid (fss s) ip x -> held c1 = held c ->
  transacted mypid (fss s) ip x off (take k l) W fs1 x1 ->
  loop_post s1 c1 x1 (off + Z.of_nat k) (drop k l) (i + Z.of_nat k) res -> loop_post s c x off l i res.
Proof.
  intros s1 Ho Hk Hs C1 T1 (r & k2 & c2 & fs2 & x2 & W2 & -> & C2 & T2 & He).
  assert (Hlk : length (take k l) = k) by (rewrite length_take; lia).
  exists r, (k + k2)%nat, c2, fs2, x2, (W ++ W2); split_and!.
  - unfold s1; cbn [ftab pipes]; do 2 f_equal; rewrite alter_alter; apply alter_ext; intros y _; unfold set_off; cbn; f_equal; lia.
  - congruence.
  - replace (take (k + k2) l) with (take k l ++ take k2 (drop k l)) by (by rewrite take_take_drop).
    eapply transacted_trans; [done|done|exact T1|]; rewrite Hlk; exact T2.
  - rewrite length_drop in He; destruct He as [[-> ->]|(H1 & H2 & H3)]; [left; lia|right; split_and!; [lia|lia|]].
    destruct H3 as [H3|[H3|H3]]; [|right; left; rewrite length_drop in H3; lia|by right; right].
    exfalso; rewrite (fi_size _ _ _ _ _ _ _ (tr_filled _ _ _ _ _ _ _ _ _ T1)) in H3; unfold reach in H3.
    rewrite decide_False in H3; [lia|]; intros E; rewrite E in Hlk; simpl in Hlk; lia.
Qed.
Lemma loop_spec fu s c x off addr l i :
  at_off s off -> idle mypid (fss s) ip x -> fctx c -> O_inodelk ip ∉ held c -> 0 <= off < 2 ^ 32 ->
  reads pagetable (um (fss s)) (UserSrc (u64 (addr + i))) l -> Z.of_nat (length l) <= Z.of_nat fu * write_max ->
  loop_post s c x off l i (filewrite_loop mypid pagetable fu f addr (i + Z.of_nat (length l)) i c s).
Proof.
  revert s c x off l i; induction fu as [|fu IH]; intros s c x off l i Hat Hs Hc Hip Ho Hrd Hfu;
    (destruct (decide (l = [])) as [->|Hne]; [by apply write_loop_done|]).
  { destruct l; [done|simpl in Hfu; lia]. }
  destruct (chunk_run fu s c x off addr l i Hne Hat Hs Hc Hip Ho Hrd) as (r & k & c1 & fs1 & x1 & W & -> & C1 & Hk & T1 & He).
  set (l1 := take (Z.to_nat write_max) l) in *; change write_max with 3072 in *.
  assert (Hl : (0 < length l)%nat) by (destruct l; simpl; [done|lia]).
  assert (Hl1 : length l1 = Nat.min 3072 (length l)) by (unfold l1; rewrite length_take; lia).
  assert (Htk : take k l1 = take k l) by (unfold l1; rewrite take_take; f_equal; lia); rewrite Htk in T1.
  destruct (Z.eqb_spec r (Z.of_nat (length l1))) as [->|Hr]; cbn [negb].
  - destruct He as [(? & _)|(Ek & Hmax & _)]; [lia|]; assert (k = length l1) as -> by lia.
    destruct (tr_same _ _ _ _ _ _ _ _ _ T1) as (_ & Eu & _); destruct Hat as (fl & Hfl & Hfi & Hfo).
    change (MAXFILE * BSIZE) with 274432 in Hmax; apply (loop_more s c c1 x off l i fs1 x1 W (length l1)); [lia|lia|done|done|done|].
    replace (i + Z.of_nat (length l)) with (i + Z.of_nat (length l1) + Z.of_nat (length (drop (length l1) l))) by (rewrite length_drop; lia).
    apply IH; cbn [fss ftab]; [| |by eapply fctx_held|by rewrite C1|lia| |rewrite length_drop; lia].
    + exists (set_off (off + Z.of_nat (length l1)) fl); cbn [ftab]; by rewrite list_lookup_alter_eq, Hfl.
    + apply (tr_idle _ _ _ _ _ _ _ _ _ T1).
    + rewrite Eu; replace (u64 (addr + (i + Z.of_nat (length l1)))) with (u64 (u64 (addr + i) + Z.of_nat (length l1)))
        by (unfold u64; rewrite Zplus_mod_idemp_l; f_equal; lia); apply reads_drop; [lia|done].
  - exists i, k, c1, fs1, x1, W; split_and!; auto; right; split_and!; [lia| |]; destruct He as [(-> & -> & H)|(-> & _ & H)]; try lia.
    + destruct H as [H|H]; [by left|right; left; lia].
    + right; right; apply H; lia.
Qed.
End loop.

(** ** Bytes of user memory *)

Lemma copyin_ref_ok L m va n l :
  copyin_ref L m va n = (0, l) -> length l = n /\ forall k, (k < n)%nat -> va + Z.of_nat k < MAXVA.
Proof.
  revert va l; induction n as [|n IH]; intros va l; cbn [copyin_ref]; intros H.
  { injection H as <-; split; [done|lia]. }
  destruct (_ && _) eqn:E; [|done]; apply andb_true_iff in E as [E _].
  destruct (copyin_ref L m (va + 1) n) as [r l'] eqn:E'; injection H as -> <-; destruct (IH _ _ E') as [<- Hk].
  split; [done|]; intros [|k] Hlt; [lia|]; specialize (Hk k ltac:(lia)); lia.
Qed.

Lemma copyin_ref_sub L m va n l k j :
  copyin_ref L m va n = (0, l) -> (k + j <= n)%nat -> copyin_ref L m (va + Z.of_nat k) j = (0, slice l k j).
Proof.
  revert va l k j; induction n as [|n IH]; intros va l k j H Hkj.
  { by assert (k = 0%nat) as -> by lia; assert (j = 0%nat) as -> by lia. }
  cbn [copyin_ref] in H; destruct (_ && _) eqn:E in H; [|done].
  destruct (copyin_ref L m (va + 1) n) as [r l'] eqn:E'; injection H as -> <-; destruct k as [|k].
  - destruct j as [|j]; [done|]; cbn [copyin_ref]; rewrite Z.add_0_r, E.
    pose proof (IH (va + 1) l' 0%nat j E' ltac:(lia)) as H0; rewrite Z.add_0_r in H0; by rewrite H0.
  - replace (va + Z.of_nat (S k)) with (va + 1 + Z.of_nat k) by lia; rewrite (IH _ _ _ _ E') by lia; done.
Qed.

Lemma reads_user kend root tb L u va l :
  0 < kend -> maps kend root tb L u -> (forall v, readable (L v) = true -> PTE2PA (L v) <> 0) -> 0 <= va < 2 ^ 64 ->
  copyin_ref L (pm_mem u) va (length l) = (0, l) -> reads root u (UserSrc va) l.
Proof.
  intros Hk Hm Hnz Hva Hl tot m c s Hu Ht Hm0 Hle; destruct (copyin_ref_ok _ _ _ _ _ Hl) as [_ Hlt].
  specialize (Hlt (Z.to_nat tot) ltac:(lia)); rewrite MAXVA_eq in Hlt.
  cbn [either_copyin]; rewrite (u64_small (va + tot)) by lia; unfold zoom; cbn [lget lset um_of]; rewrite Hu; unfold copyin.
  rewrite (copyin_loop_spec kend Hk root tb L) by (done || lia).
  pose proof (copyin_ref_sub _ _ _ _ _ (Z.to_nat tot) (Z.to_nat m) Hl ltac:(lia)) as Hs; rewrite Z2Nat.id in Hs by lia.
  rewrite Hs; cbn [app]; f_equal; rewrite <- Hu; by destruct s.
Qed.

(** ** Properties *)

(** C2: [filewrite] to a file stores the user's bytes at the file's offset, in
    transactions: it writes a prefix of them, all unless the offset is past
    the end of the file, the file would exceed the largest one or the disk is
    full, moves the offset past it and returns the count or -1.  The rest of
    the file, other files and user memory are unchanged, and no operation is
    left running.  A crash after any number of its disk writes leaves a disk
    from which the next boot restores the file with a prefix of the bytes,
    well-formed and with its inode up to date; once it has returned, all that
    was written survives. *)
Theorem filewrite_correct (kend mypid pagetable : Z) (killed : bool) (devwrite : Z -> option (Z -> Z -> M filest Z))
    (tb : tables) (L : Z -> Z) (s : filest) (c : kctx) (f : nat) (fl : file) (x : inode) (addr : Z) (src : list Z) :
  let n := Z.of_nat (length src) in
  0 < kend -> maps kend pagetable tb L (um (fss s)) -> (forall v, readable (L v) = true -> PTE2PA (L v) <> 0) ->
  0 <= addr < 2 ^ 64 -> copyin_ref L (pm_mem (um (fss s))) addr (length src) = (0, src) ->
  ftab s !! f = Some fl -> f_type fl = FD_INODE -> f_writable fl <> 0 -> 0 <= f_off fl < 2 ^ 32 ->
  idle mypid (fss s) (f_ip fl) x -> fctx c -> O_inodelk (f_ip fl) ∉ held c ->
  exists k c' fs' x' W,
    filewrite mypid pagetable killed devwrite f addr n c s =
      Ret (if decide (k = length src) then n else -1) c' (FileSt (alter (set_off (f_off fl + Z.of_nat k)) f (ftab s)) (pipes s) fs') /\
    held c' = held c /\ (k <= length src)%nat /\ transacted mypid (fss s) (f_ip fl) x (f_off fl) (take k src) W fs' x' /\
    ((k < length src)%nat -> cut_short (fview fs') (sb fs') x (f_off fl) src) /\
    recovers_to mypid (flog fs') (disk (bc (lgs fs'))) (fview fs').
Proof.
  intros n Hk Hm Hnz Ha Hsrc Hfl Hty Hw Ho Hs Hc Hip.
  pose proof (reads_user kend pagetable tb L _ addr src Hk Hm Hnz Ha Hsrc) as Hrd.
  destruct (loop_spec mypid pagetable f (f_ip fl) (Z.to_nat (n / write_max + 1)) s c x (f_off fl) addr src 0) as
    (r & k & c' & fs' & x' & W & R & C & T & He); auto; [by exists fl|by rewrite Z.add_0_r, u64_small| |].
  { change write_max with 3072; fold n; pose proof (Z.div_mod n 3072); pose proof (Z.mod_pos_bound n 3072); pose proof (Z.div_pos n 3072); lia. }
  exists k, c', fs', x', W; split_and!; auto; [|lia|intros Hlt; destruct He as [[_ ?]|(_ & _ & ?)]; [lia|done]|].
  - unfold filewrite, kbind at 1, kget at 1; unfold get_file; rewrite Hfl; change (default file0 (Some fl)) with fl.
    replace (f_writable fl =? 0) with false by lia; rewrite Hty; unfold kbind; rewrite Z.add_0_l in R; fold n in R; rewrite R; unfold kret.
    do 2 f_equal; fold n in He; destruct (Z.eqb_spec r n), (decide (k = length src)); (done || lia).
  - eapply idle_disk, (tr_idle _ _ _ _ _ _ _ _ _ T).
Qed.

(** ** Witness: three bytes appended to the root directory's file *)

Definition demo_idle : fsst :=
  FsSt demo_sb (demo_root :: replicate 49 inode0) (LogSt (Log 2 30 0 0 ROOTDEV 0 (replicate 30 0)) (binit demo_fdisk)) demo_vm.
Definition demo_file : file := File FD_INODE 1 1 1 0 0 32 0.
Definition demo_files : filest := FileSt (demo_file :: replicate 99 file0) (fun _ => pipe_init []) demo_idle.

Lemma demo_stored : stored demo_sb (fview demo_idle) demo_root.
Proof.
  assert (HV : forall b, fview demo_idle b = fview demo_fs b) by done.
  assert (Hok : inode_ok demo_root) by (split; try (cbn; lia); [done|apply Forall_forall; intros a; cbn; rewrite !elem_of_cons, elem_of_nil; lia]).
  split; [apply demo_file_ok|apply demo_meta|done|by vm_compute|].
  intros y; rewrite HV, demo_fview; change (demo_fdisk (IBLOCK (i_inum demo_root) demo_sb)) with demo_inodes.
  apply read_write_dinode; [done|apply dinode_off_range].
Qed.

Lemma demo_is_idle : idle 1 demo_idle 0 demo_root.
Proof.
  split; try done.
  - apply binit_inv, demo_fdisk_len.
  - split; try done; cbn; try lia; [constructor|]; by intros b Hb%not_elem_of_nil.
  - cbn; lia.
  - apply demo_stored.
Qed.

Lemma filewrite_correct_witness :
  exists k c' fs' x' W,
    filewrite 1 (pg 0) false (fun _ => None) 0 0 3 (Ctx [] []) demo_files =
      Ret (if decide (k = 3%nat) then 3 else -1) c' (FileSt (alter (set_off (32 + Z.of_nat k)) 0%nat (ftab demo_files)) (pipes demo_files) fs') /\
    held c' = [] /\ (k <= 3)%nat /\ transacted 1 demo_idle 0 demo_root 32 (take k [42; 0; 0]) W fs' x' /\
    ((k < 3)%nat -> cut_short (fview fs') (sb fs') demo_root 32 [42; 0; 0]) /\
    recovers_to 1 (flog fs') (disk (bc (lgs fs'))) (fview fs').
Proof.
  apply (filewrite_correct KERNBASE 1 (pg 0) false (fun _ => None) demo_tbo demo_map demo_files (Ctx [] []) 0 demo_file demo_root 0 [42; 0; 0]);
    [done|apply demo_maps|apply demo_nz|lia|by vm_compute|done|done|done|cbn; lia|apply demo_is_idle|apply fctx0|apply not_elem_of_nil].
Defined.
