(* ===== verification/Printf.v ===== *)
(** * kernel/printf.c

    The formatted printer of the kernel and the loops it shares with the
    user-level one of UPrintf.v.  What a call prints is the list of characters
    it passes to consputc or putc; [None] stands for undefined behaviour: a
    digit stored past the end of [buf], or an argument of the wrong kind. *)

From S2P Require Import Prelude.

(** The arguments of a variadic call: machine words, or strings without their
    NUL, [None] for a null pointer. *)
Inductive varg : Type :=
| VNum (v : Z)
| VStr (s : option (list Z)).

Definition BUFLEN : nat := 16.                    (* char buf[16] *)

Definition ch_percent : Z := 37.
Definition ch_minus : Z := 45.
Definition ch_0 : Z := 48.
Definition ch_a : Z := 97.
Definition ch_A : Z := 65.
Definition ch_d : Z := 100.
Definition ch_l : Z := 108.
Definition ch_p : Z := 112.
Definition ch_s : Z := 115.
Definition ch_u : Z := 117.
Definition ch_x : Z := 120.
Definition null_str : list Z := [40; 110; 117; 108; 108; 41].   (* (null) *)

(** [digits[d]], the letters starting at [ten]. *)
Definition digit (ten d : Z) : Z := if d <? 10 then ch_0 + d else ten + (d - 10).

(** [do { buf[i++] = digits[x % base]; } while((x /= base) != 0);]: the digits,
    least significant first.  A 64-bit number has at most 64 of them. *)
Fixpoint digits_loop (fuel : nat) (ten x base : Z) : list Z :=
  match fuel with
  | O => []
  | S f => digit ten (x mod base) :: if x / base =? 0 then [] else digits_loop f ten (x / base) base
  end.

(** The characters of [buf] in the order they are printed. *)
Definition flush (buf : list Z) : option (list Z) :=
  if (length buf <=? BUFLEN)%nat then Some (rev buf) else None.

Fixpoint ptr_loop (n : nat) (ten x : Z) : list Z :=
  match n with
  | O => []
  | S n' => digit ten (Z.shiftr x 60) :: ptr_loop n' ten (u64 (Z.shiftl x 4))
  end.

(** Fetch an argument and print the rest of the format after it. *)
Definition with_num (args : list varg) (k : Z -> list varg -> option (list Z)) : option (list Z) :=
  match args with VNum v :: args' => k v args' | _ => None end.
Definition with_str (args : list varg) (k : option (list Z) -> list varg -> option (list Z)) : option (list Z) :=
  match args with VStr s :: args' => k s args' | _ => None end.
Definition then_print (o r : option (list Z)) : option (list Z) :=
  match o, r with Some a, Some b => Some (a ++ b) | _, _ => None end.

Module Kernel.

Definition printint (xx base : Z) (sign : bool) : option (list Z) :=
  let neg := sign && (xx <? 0) in
  let x := if neg then u64 (- xx) else u64 xx in
  let buf := digits_loop 64 ch_a x base in
  flush (if neg then buf ++ [ch_minus] else buf).

Definition printptr (x : Z) : list Z := [ch_0; ch_x] ++ ptr_loop 16 ch_a x.

(** A numeric conversion: [long] for the 64-bit ones. *)
Definition conv (long : bool) (base : Z) (sign : bool) (args : list varg)
    (k : list varg -> option (list Z)) : option (list Z) :=
  with_num args (fun v args => then_print (printint (if long then i64 v else i32 v) base sign) (k args)).

Fixpoint vprintf (fuel : nat) (fmt : list Z) (args : list varg) : option (list Z) :=
  match fuel with
  | O => Some []
  | S f =>
      match fmt with
      | [] => Some []
      | cx :: rest =>
          if negb (cx =? ch_percent) then then_print (Some [cx]) (vprintf f rest args)
          else
            let c0 := default 0 (rest !! 0%nat) in
            let c1 := if truth c0 then default 0 (rest !! 1%nat) else 0 in
            let c2 := if truth c1 then default 0 (rest !! 2%nat) else 0 in
            let k n := vprintf f (drop n rest) in
            if c0 =? ch_d then conv false 10 true args (k 1%nat)
            else if (c0 =? ch_l) && (c1 =? ch_d) then conv true 10 true args (k 2%nat)
            else if (c0 =? ch_l) && (c1 =? ch_l) && (c2 =? ch_d) then conv true 10 true args (k 3%nat)
            else if c0 =? ch_u then conv false 10 false args (k 1%nat)
            else if (c0 =? ch_l) && (c1 =? ch_u) then conv true 10 false args (k 2%nat)
            else if (c0 =? ch_l) && (c1 =? ch_l) && (c2 =? ch_u) then conv true 10 false args (k 3%nat)
            else if c0 =? ch_x then conv false 16 false args (k 1%nat)
            else if (c0 =? ch_l) && (c1 =? ch_x) then conv true 16 false args (k 2%nat)
            else if (c0 =? ch_l) && (c1 =? ch_l) && (c2 =? ch_x) then conv true 16 false args (k 3%nat)
            else if c0 =? ch_p then with_num args (fun v args => then_print (Some (printptr v)) (k 1%nat args))
            else if c0 =? ch_s then
              with_str args (fun s args => then_print (Some (default null_str s)) (k 1%nat args))
            else if c0 =? ch_percent then then_print (Some [ch_percent]) (k 1%nat args)
            else if c0 =? 0 then Some []
            else then_print (Some [ch_percent; c0]) (k 1%nat args)
      end
  end.
Definition printf (fmt : list Z) (args : list varg) : option (list Z) := vprintf (length fmt) fmt args.
End Kernel.
