(* ===== verification/UPrintf.v ===== *)
(** * user/printf.c

    The formatted printer of user programs: the characters a call passes to
    putc, [None] for undefined behaviour as in Printf.v. *)

From S2P Require Import Prelude Printf.

Module User.

(** [xx] is an int: a 64-bit argument is truncated. *)
Definition printint (xx base : Z) (sgn : bool) : option (list Z) :=
  let xx := i32 xx in
  let neg := sgn && (xx <? 0) in
  let x := if neg then u32 (- xx) else u32 xx in
  let buf := digits_loop 64 ch_A x base in
  flush (if neg then buf ++ [ch_minus] else buf).

Definition printptr (x : Z) : list Z := [ch_0; ch_x] ++ ptr_loop 16 ch_A x.

Definition conv (base : Z) (sgn : bool) (args : list varg)
    (k : list varg -> option (list Z)) : option (list Z) :=
  with_num args (fun v args => then_print (printint v base sgn) (k args)).

(** [pct] is [state == '%']. *)
Fixpoint vprintf (fuel : nat) (pct : bool) (fmt : list Z) (args : list varg) : option (list Z) :=
  match fuel with
  | O => Some []
  | S f =>
      match fmt with
      | [] => Some []
      | c0 :: rest =>
          if negb pct then
            if c0 =? ch_percent then vprintf f true rest args
            else then_print (Some [c0]) (vprintf f false rest args)
          else
            let c1 := if truth c0 then default 0 (rest !! 0%nat) else 0 in
            let c2 := if truth c1 then default 0 (rest !! 1%nat) else 0 in
            let k n := vprintf f false (drop n rest) in
            if c0 =? ch_d then conv 10 true args (k 0%nat)
            else if (c0 =? ch_l) && (c1 =? ch_d) then conv 10 true args (k 1%nat)
            else if (c0 =? ch_l) && (c1 =? ch_l) && (c2 =? ch_d) then conv 10 true args (k 2%nat)
            else if c0 =? ch_u then conv 10 false args (k 0%nat)
            else if (c0 =? ch_l) && (c1 =? ch_u) then conv 10 false args (k 1%nat)
            else if (c0 =? ch_l) && (c1 =? ch_l) && (c2 =? ch_u) then conv 10 false args (k 2%nat)
            else if c0 =? ch_x then conv 16 false args (k 0%nat)
            else if (c0 =? ch_l) && (c1 =? ch_x) then conv 16 false args (k 1%nat)
            else if (c0 =? ch_l) && (c1 =? ch_l) && (c2 =? ch_x) then conv 16 false args (k 2%nat)
            else if c0 =? ch_p then with_num args (fun v args => then_print (Some (printptr v)) (k 0%nat args))
            else if c0 =? ch_s then
              with_str args (fun s args => then_print (Some (default null_str s)) (k 0%nat args))
            else if c0 =? ch_percent then then_print (Some [ch_percent]) (k 0%nat args)
            else then_print (Some [ch_percent; c0]) (k 0%nat args)
      end
  end.
Definition printf (fmt : list Z) (args : list varg) : option (list Z) := vprintf (length fmt) false fmt args.
End User.
