(* ===== verification/Ulib.v ===== *)
(** * user/ulib.c

    The C library of user programs over byte memory ([char] is unsigned on
    RISC-V), and what its number conversions have to do with each other. *)

From S2P Require Import Prelude CMem KString Printf UPrintf.

(** Loops that run to a NUL take fuel; [None] is the run that has not met one. *)
Fixpoint strcpy (fuel : nat) (m : mem) (s t : Z) : option mem :=
  match fuel with
  | O => None
  | S f => let c := m t in
           let m' := store1 m s c in
           if c =? 0 then Some m' else strcpy f m' (s + 1) (t + 1)
  end.

Fixpoint strcmp (fuel : nat) (m : mem) (p q : Z) : option Z :=
  match fuel with
  | O => None
  | S f => if truth (m p) && (m p =? m q) then strcmp f m (p + 1) (q + 1) else Some (m p - m q)
  end.

Definition strlen (fuel : nat) (m : mem) (s : Z) : option Z := KString.strlen fuel m s.

Definition memset (m : mem) (dst c n : Z) : mem := memset_loop (Z.to_nat n) m dst c 0.

(** The address of the character, 0 for a null pointer. *)
Fixpoint strchr (fuel : nat) (m : mem) (s c : Z) : option Z :=
  match fuel with
  | O => None
  | S f => if m s =? 0 then Some 0 else if m s =? c then Some s else strchr f m (s + 1) c
  end.

(** [gets(buf, max)]; [input] is what read(0, &c, 1) returns one byte at a
    time, nothing left standing for a result below 1.  The result is the
    memory and the rest of the input. *)
Fixpoint gets_loop (fuel : nat) (m : mem) (buf max i : Z) (input : list Z) : mem * Z * list Z :=
  match fuel with
  | O => (m, i, input)
  | S f =>
      if i + 1 <? max then
        match input with
        | [] => (m, i, [])
        | c :: input' =>
            let m' := store1 m (buf + i) c in
            if (c =? 10) || (c =? 13) then (m', i + 1, input') else gets_loop f m' buf max (i + 1) input'
        end
      else (m, i, input)
  end.
Definition gets (m : mem) (buf max : Z) (input : list Z) : mem * list Z :=
  let '(m', i, input') := gets_loop (Z.to_nat max) m buf max 0 input in (store1 m' (buf + i) 0, input').

(** [atoi] over the characters from [s] on.  Signed overflow is undefined: the
    sum [n*10 + *s] is computed before ['0'] is taken off. *)
Definition INT_MAX : Z := 2 ^ 31 - 1.
Fixpoint atoi_loop (s : list Z) (n : Z) : option Z :=
  match s with
  | [] => Some n
  | c :: s' =>
      if (48 <=? c) && (c <=? 57) then
        if n * 10 + c <=? INT_MAX then atoi_loop s' (n * 10 + c - 48) else None
      else Some n
  end.
Definition atoi (s : list Z) : option Z := atoi_loop s 0.

Definition memmove (m : mem) (vdst vsrc n : Z) : mem :=
  if vdst <? vsrc then copy_up (Z.to_nat n) m vdst vsrc
  else copy_down (Z.to_nat n) m (vdst + n) (vsrc + n).

Definition memcmp (m : mem) (s1 s2 n : Z) : Z := memcmp_loop (Z.to_nat n) m s1 s2.

Definition memcpy (m : mem) (dst src n : Z) : mem := memmove m dst src n.

(** ** Moving memory *)

(** The user library and the kernel choose the direction of the copy by
    different tests, and move the same bytes. *)
Lemma memmove_agree (m : mem) (dst src n : Z) :
  mem_ok m -> 0 <= n -> memmove m dst src n ≡ KString.memmove m dst src n.
Proof.
  intros Hm Hn x; rewrite memmove_at by done; unfold memmove; destruct (Z.ltb_spec dst src).
  - rewrite copy_up_spec by (auto; lia); by rewrite Z2Nat.id by lia.
  - rewrite copy_down_spec by (auto; lia); rewrite Z2Nat.id by lia.
    by replace (dst + n - n) with dst by lia; replace (src + n + (x - (dst + n))) with (src + (x - dst)) by lia.
Qed.

(** ** Numbers *)

(** How many digits the loop of printint stores. *)
Lemma digits_length ten base n : 1 < base -> forall fuel x,
  0 <= x < base ^ Z.of_nat fuel -> (0 < n)%nat ->
  (length (digits_loop fuel ten x base) <= n)%nat <-> x < base ^ Z.of_nat n.
Proof.
  intros Hb; induction n as [|n IH]; [lia|]; intros [|f] x Hx _; cbn [digits_loop length].
  { split; [|cbn; lia]; intros _; cbn in Hx; assert (0 < base ^ Z.of_nat (S n)) by lia; lia. }
  rewrite !Nat2Z.inj_succ, !Z.pow_succ_r in * by lia.
  assert (Hq : 0 <= x / base < base ^ Z.of_nat f) by (split; [apply Z.div_pos; lia|apply Z.div_lt_upper_bound; lia]).
  destruct (Z.eqb_spec (x / base) 0) as [E|E]; cbn [length].
  - split; [|lia]; intros _; apply Z.div_small_iff in E as [E|E]; try lia.
    assert (1 <= base ^ Z.of_nat n) by lia; nia.
  - destruct n as [|n].
    + destruct f as [|f]; [cbn in Hq; lia|]; cbn [digits_loop length]; split; [lia|].
      cbn; intros Hlt; exfalso; apply E; apply Z.div_small; lia.
    + rewrite <- Nat.succ_le_mono, IH by lia; split; intros H.
      * pose proof (Z.div_mod x base ltac:(lia)); pose proof (Z.mod_pos_bound x base ltac:(lia)); nia.
      * by apply Z.div_lt_upper_bound; [lia|].
Qed.

Lemma digit_decimal ten x : 0 <= x < 10 -> digit ten x = 48 + x.
Proof. intros H; unfold digit, ch_0; by rewrite (proj2 (Z.ltb_lt x 10)) by lia. Qed.

(** [atoi] reads back the digits of a number and goes on after them. *)
Lemma atoi_digits ten fuel : forall x tl, 0 <= x < 10 ^ Z.of_nat fuel -> x + 48 <= INT_MAX -> (0 < fuel)%nat ->
  atoi_loop (rev (digits_loop fuel ten x 10) ++ tl) 0 = atoi_loop tl x.
Proof.
  induction fuel as [|f IH]; intros x tl Hx Hm Hf; [lia|]; cbn [digits_loop rev].
  pose proof (Z.div_mod x 10 ltac:(lia)) as Hd; pose proof (Z.mod_pos_bound x 10 ltac:(lia)) as Hr.
  assert (Hlast : atoi_loop (digit ten (x mod 10) :: tl) (x / 10) = atoi_loop tl x).
  { cbn [atoi_loop]; rewrite digit_decimal by done.
    rewrite (proj2 (Z.leb_le 48 _)), (proj2 (Z.leb_le _ 57)) by lia; cbn [andb].
    rewrite (proj2 (Z.leb_le _ INT_MAX)) by lia; f_equal; lia. }
  rewrite <- app_assoc; destruct (Z.eqb_spec (x / 10) 0) as [E|E]; cbn [rev app].
  - by rewrite E in Hlast.
  - rewrite Nat2Z.inj_succ, Z.pow_succ_r in Hx by lia.
    assert (0 <= x / 10 < 10 ^ Z.of_nat f) by (split; [apply Z.div_pos; lia|apply Z.div_lt_upper_bound; lia]).
    rewrite IH; [done|done|lia|]; destruct f; [cbn in *; lia|lia].
Qed.

Lemma digits_decimal ten ten' fuel : forall x, digits_loop fuel ten x 10 = digits_loop fuel ten' x 10.
Proof.
  induction fuel as [|f IH]; intros x; [done|]; cbn [digits_loop].
  pose proof (Z.mod_pos_bound x 10 ltac:(lia)); rewrite !digit_decimal by done; f_equal.
  by destruct (x / 10 =? 0).
Qed.

(** The decimal printer of the kernel stays in its sixteen-byte buffer
    exactly for the numbers between -10^15 and 10^16, exclusive; any other
    64-bit number overflows it. *)
Theorem printint_bounds (x : Z) :
  - 2 ^ 63 <= x < 2 ^ 63 ->
  Printf.Kernel.printint x 10 true <> None <-> - 10 ^ 15 < x < 10 ^ 16.
Proof.
  intros Hx; unfold Printf.Kernel.printint, flush, BUFLEN; cbn [andb]; destruct (Z.ltb_spec x 0) as [Hn|Hn].
  - rewrite u64_small by lia; set (b := digits_loop _ _ _ _); rewrite length_app; cbn [length].
    pose proof (digits_length ch_a 10 15 ltac:(lia) 64 (- x) ltac:(lia) ltac:(lia)) as Hl; fold b in Hl.
    destruct (Nat.leb_spec (length b + 1) 16); (split; [intros H'; try done; assert (- x < 10 ^ Z.of_nat 15) by (apply Hl; lia); lia|]).
    + done.
    + intros H'; assert (length b <= 15)%nat by (apply Hl; lia); lia.
  - rewrite u64_small by lia; set (b := digits_loop _ _ _ _).
    pose proof (digits_length ch_a 10 16 ltac:(lia) 64 x ltac:(lia) ltac:(lia)) as Hl; fold b in Hl.
    destruct (Nat.leb_spec (length b) 16); (split; [intros H'; try done; assert (x < 10 ^ Z.of_nat 16) by (apply Hl; lia); lia|]).
    + done.
    + intros H'; assert (length b <= 16)%nat by (apply Hl; lia); lia.
Qed.

Lemma printint_bounds_witness : Printf.Kernel.printint (10 ^ 16) 10 true = None.
Proof.
  destruct (Printf.Kernel.printint (10 ^ 16) 10 true) eqn:E; [|reflexivity].
  assert (H : Printf.Kernel.printint (10 ^ 16) 10 true <> None) by (rewrite E; discriminate).
  apply (proj1 (printint_bounds (10 ^ 16) ltac:(split; vm_compute; congruence))) in H.
  destruct H as [_ H]; vm_compute in H; discriminate.
Defined.

(** C39: numbers survive printing and reading.  For every [x] from 0 to
    INT_MAX - 48 the kernel's and the user's printf print the same digits,
    and [atoi] of them is [x]. *)
Theorem print_atoi_roundtrip (x : Z) :
  0 <= x <= INT_MAX - 48 ->
  exists s, UPrintf.User.printint x 10 true = Some s /\ Printf.Kernel.printint x 10 true = Some s /\ atoi s = Some x.
Proof.
  intros Hx; unfold INT_MAX in Hx; exists (rev (digits_loop 64 ch_A x 10)).
  assert (Hl : (length (digits_loop 64 ch_A x 10) <= 16)%nat) by (apply digits_length; lia).
  unfold UPrintf.User.printint, Printf.Kernel.printint, flush, BUFLEN; rewrite i32_small by lia.
  rewrite (proj2 (Z.ltb_ge x 0)) by lia; cbn [andb]; rewrite u32_small, u64_small by lia.
  rewrite (digits_decimal ch_a ch_A), (proj2 (Nat.leb_le _ _) Hl); split; [done|]; split; [done|].
  unfold atoi; rewrite <- (app_nil_r (rev _)), atoi_digits by (unfold INT_MAX; lia); done.
Qed.

Lemma print_atoi_roundtrip_witness : atoi (str "40961") = Some 40961.
Proof.
  destruct (print_atoi_roundtrip 40961 ltac:(split; vm_compute; congruence)) as (s & _ & Hs & Ha).
  vm_compute in Hs; injection Hs as <-; exact Ha.
Defined.

(** The largest int is not read back: the sum overflows before ['0'] is
    subtracted. *)
Lemma atoi_int_max : atoi (str "2147483647") = None.
Proof. by vm_compute. Qed.

(** The unsigned conversion of an int that is negative widens it first, and
    its twenty digits overflow the buffer. *)
Lemma printf_u_overflow : Printf.Kernel.printf (str "%u") [VNum (-1)] = None.
Proof. by vm_compute. Qed.
