(* ===== verification/Uart.v ===== *)
(** * kernel/uart.c

    The transmit buffer of the serial port.  The device is a parameter of the
    model through what it answers: [lsr] is the list of the values the next
    reads of the line status register return (a read after the last one finds
    the device busy with no input), [rhr] the input bytes still to be read.
    Bytes stored in THR are appended to [sent]. *)

From S2P Require Import Prelude Ring Riscv.

Definition RHR : Z := 0.
Definition THR : Z := 0.
Definition IER : Z := 1.
Definition IER_RX_ENABLE : Z := Z.shiftl 1 0.
Definition IER_TX_ENABLE : Z := Z.shiftl 1 1.
Definition FCR : Z := 2.
Definition FCR_FIFO_ENABLE : Z := Z.shiftl 1 0.
Definition FCR_FIFO_CLEAR : Z := Z.shiftl 3 1.
Definition LCR : Z := 3.
Definition LCR_EIGHT_BITS : Z := Z.shiftl 3 0.
Definition LCR_BAUD_LATCH : Z := Z.shiftl 1 7.
Definition LSR_RX_READY : Z := Z.shiftl 1 0.
Definition LSR_TX_IDLE : Z := Z.shiftl 1 5.
Definition UART_TX_BUF_SIZE : Z := 32.

Record uartst : Type := UartSt {
  uart_tx_buf : list Z;
  uart_tx_w : Z;
  uart_tx_r : Z;
  panicked : Z;             (* printf.c *)
  lsr : list Z;
  rhr : list Z;
  sent : list Z;
  regs : list (Z * Z)       (* the other registers written, oldest first *)
}.

Definition WriteReg (reg v : Z) (s : uartst) : uartst :=
  UartSt (uart_tx_buf s) (uart_tx_w s) (uart_tx_r s) (panicked s) (lsr s) (rhr s) (sent s) (regs s ++ [(reg, u8 v)]).
Definition WriteTHR (c : Z) (s : uartst) : uartst :=
  UartSt (uart_tx_buf s) (uart_tx_w s) (uart_tx_r s) (panicked s) (lsr s) (rhr s) (sent s ++ [u8 c]) (regs s).

Definition uartinit (s : uartst) : uartst :=
  let s := WriteReg IER 0 s in
  let s := WriteReg LCR LCR_BAUD_LATCH s in
  let s := WriteReg 0 3 s in
  let s := WriteReg 1 0 s in
  let s := WriteReg LCR LCR_EIGHT_BITS s in
  let s := WriteReg FCR (Z.lor FCR_FIFO_ENABLE FCR_FIFO_CLEAR) s in
  WriteReg IER (Z.lor IER_TX_ENABLE IER_RX_ENABLE) s.

(** [ReadReg(LSR)]. *)
Definition ReadLSR : M uartst Z :=
  let* s := kget in
  kput (UartSt (uart_tx_buf s) (uart_tx_w s) (uart_tx_r s) (panicked s) (tail (lsr s)) (rhr s) (sent s) (regs s)) ;;;
  kret (default 0 (head (lsr s))).

Definition tx_put (c : Z) (s : uartst) : uartst :=
  UartSt (<[Z.to_nat (uart_tx_w s mod UART_TX_BUF_SIZE) := u8 c]> (uart_tx_buf s))
    (u64 (uart_tx_w s + 1)) (uart_tx_r s) (panicked s) (lsr s) (rhr s) (sent s) (regs s).
Definition tx_next (s : uartst) : Z := default 0 (uart_tx_buf s !! Z.to_nat (uart_tx_r s mod UART_TX_BUF_SIZE)).
Definition tx_skip (s : uartst) : uartst :=
  UartSt (uart_tx_buf s) (uart_tx_w s) (u64 (uart_tx_r s + 1)) (panicked s) (lsr s) (rhr s) (sent s) (regs s).

(** Each turn but the last sends a byte of the buffer. *)
Fixpoint uartstart_loop (fuel : nat) : M uartst unit :=
  match fuel with
  | O => stuck
  | S f =>
      let* s := kget in
      if uart_tx_w s =? uart_tx_r s then kret tt
      else
        let* v := ReadLSR in
        if Z.land v LSR_TX_IDLE =? 0 then kret tt
        else
          let* s := kget in
          kmod tx_skip ;;;
          wakeup O_uart ;;;
          kmod (WriteTHR (tx_next s)) ;;;
          uartstart_loop f
  end.
Definition uartstart : M uartst unit := uartstart_loop (S (Z.to_nat UART_TX_BUF_SIZE)).

(** A segment of [uartputc]: it sleeps on a full buffer.  On a panicked system
    it spins for ever. *)
Definition uartputc_seg (c : Z) : M uartst (seg unit unit) :=
  acquire O_uart ;;;
  let* s := kget in
  if truth (panicked s) then stuck
  else if uart_tx_w s =? u64 (uart_tx_r s + UART_TX_BUF_SIZE) then sleep_at O_uart O_uart tt
  else
    kmod (tx_put c) ;;;
    uartstart ;;;
    release O_uart ;;;
    kret (Done tt).
Definition uartputc (c : Z) : M uartst unit := whole O_uart (uartputc_seg c).

(** [while((ReadReg(LSR) & LSR_TX_IDLE) == 0);]: spins until the device is
    idle, which it is at the latest after the listed answers. *)
Fixpoint wait_idle (l : list Z) : list Z :=
  match l with
  | [] => []
  | v :: l' => if Z.land v LSR_TX_IDLE =? 0 then wait_idle l' else l'
  end.
Definition uartputc_sync (c : Z) : M uartst unit :=
  let* s := kget in
  if truth (panicked s) then stuck
  else
    kput (UartSt (uart_tx_buf s) (uart_tx_w s) (uart_tx_r s) (panicked s) (wait_idle (lsr s)) (rhr s) (sent s) (regs s)) ;;;
    kmod (WriteTHR c).

Definition uartgetc : M uartst Z :=
  let* v := ReadLSR in
  if truth (Z.land v 0x01) then
    let* s := kget in
    kput (UartSt (uart_tx_buf s) (uart_tx_w s) (uart_tx_r s) (panicked s) (lsr s) (tail (rhr s)) (sent s) (regs s)) ;;;
    kret (default 0 (head (rhr s)))
  else kret (-1).

(** ** The transmit buffer as a queue *)

Definition txq (s : uartst) : list Z := contents UART_TX_BUF_SIZE (2 ^ 64) (uart_tx_buf s) (uart_tx_r s) (uart_tx_w s).
Definition uart_inv (s : uartst) : Prop :=
  ring_inv UART_TX_BUF_SIZE (2 ^ 64) (uart_tx_buf s) (uart_tx_r s) (uart_tx_w s) /\ panicked s = 0.

Lemma TXBUF_pos : 0 < UART_TX_BUF_SIZE < 2 ^ 64.
Proof. done. Qed.
Lemma TXBUF_div : (UART_TX_BUF_SIZE | 2 ^ 64).
Proof. by exists (2 ^ 59). Qed.
#[local] Hint Resolve TXBUF_pos TXBUF_div : core.

(** [uartstart] moves a prefix of the queue to the device, in order. *)
Lemma uartstart_loop_spec fuel s c :
  uart_inv s -> (length (txq s) < fuel)%nat ->
  exists c' s' out, uartstart_loop fuel c s = Ret tt c' s' /\ held c' = held c /\
    uart_inv s' /\ txq s = out ++ txq s' /\ sent s' = sent s ++ (u8 <$> out).
Proof.
  revert s c; induction fuel as [|f IH]; intros s c [Hr Hpan] Hl; [lia|].
  cbn [uartstart_loop]; unfold kbind at 1; cbn [kget].
  assert (Hstop : forall c' s', held c' = held c -> uart_inv s' -> txq s' = txq s -> sent s' = sent s ->
    exists out, held c' = held c /\ uart_inv s' /\ txq s = out ++ txq s' /\ sent s' = sent s ++ (u8 <$> out)).
  { intros c' s' Hh Hi Hq Hs; exists []; by rewrite Hq, Hs, app_nil_r. }
  destruct (uart_tx_w s =? uart_tx_r s) eqn:E.
  { destruct (Hstop c s) as (out & ?); [done|done|done|done|]; by exists c, s, out. }
  unfold ReadLSR, kbind, kget, kput; cbn [kret].
  set (s1 := UartSt _ _ _ _ _ _ _ _).
  case_match eqn:E2; [destruct (Hstop c s1) as (out & ?); [done|done|done|done|]; by exists c, s1, out|].
  destruct (txq s) as [|b q] eqn:Hq.
  { pose proof (empty_iff _ _ TXBUF_pos TXBUF_div _ _ _ Hr) as He; rewrite Z.eqb_sym, E in He.
    unfold txq in Hq; by rewrite Hq in He. }
  destruct (skip _ _ TXBUF_pos TXBUF_div _ _ _ _ _ Hr Hq) as (Hb & Hr' & Hq').
  unfold kmod, wakeup.
  destruct (IH (WriteTHR (tx_next s1) (tx_skip s1)) (add_woken O_uart c)) as (c' & s' & out & -> & Hh & Hi & Ho & Hs).
  { by split. }
  { change (txq _) with (contents UART_TX_BUF_SIZE (2 ^ 64) (uart_tx_buf s) ((uart_tx_r s + 1) mod 2 ^ 64) (uart_tx_w s)).
    rewrite Hq'; cbn in Hl; lia. }
  exists c', s', (b :: out); split_and!; [done|done|done| |].
  - change (txq (WriteTHR (tx_next s1) (tx_skip s1))) with
      (contents UART_TX_BUF_SIZE (2 ^ 64) (uart_tx_buf s) ((uart_tx_r s + 1) mod 2 ^ 64) (uart_tx_w s)) in Ho.
    rewrite Hq' in Ho; by rewrite Ho.
  - rewrite Hs; cbn [sent WriteTHR tx_skip]; change (tx_next s1) with (default 0 (uart_tx_buf s !! Z.to_nat (uart_tx_r s mod UART_TX_BUF_SIZE))).
    rewrite Hb; cbn [fmap list_fmap]; by rewrite <- app_assoc.
Qed.

Lemma txq_length s : uart_inv s -> (length (txq s) <= 32)%nat.
Proof.
  intros [[_ _ _ Hf] _]; pose proof (length_contents _ _ TXBUF_pos TXBUF_div (uart_tx_buf s) (uart_tx_r s) (uart_tx_w s)).
  unfold txq, UART_TX_BUF_SIZE in *; lia.
Qed.

Lemma uartstart_spec s c :
  uart_inv s -> exists c' s' out, uartstart c s = Ret tt c' s' /\ held c' = held c /\
    uart_inv s' /\ txq s = out ++ txq s' /\ sent s' = sent s ++ (u8 <$> out).
Proof.
  intros Hi; apply uartstart_loop_spec; [done|]; pose proof (txq_length s Hi).
  change (length (txq s) < 33)%nat; lia.
Qed.

(** A segment of [uartputc] either queues its character or finds the buffer
    full and sleeps without changing it. *)
Lemma uartputc_spec ch s c :
  uart_inv s -> held c = [] ->
  exists r c' s', uartputc_seg ch c s = Ret r c' s' /\ uart_inv s' /\ held c' = [] /\
    match r with
    | Done _ => exists out, txq s ++ [u8 ch] = out ++ txq s' /\ sent s' = sent s ++ (u8 <$> out)
    | Blocked o _ => o = O_uart /\ s' = s /\ length (txq s) = 32%nat
    end.
Proof.
  intros [Hr Hpan] Hc; unfold uartputc_seg, kbind; rewrite acquire_run by (rewrite Hc; set_solver).
  cbn [kget]; rewrite Hpan; change (truth 0) with false; cbn iota.
  pose proof (full_iff _ _ TXBUF_pos TXBUF_div _ _ _ Hr) as Hf; unfold u64; rewrite Hf; case_bool_decide as Hn.
  - rewrite (sleep_at_run O_uart) by (cbn; by rewrite Hc); eexists _, _, s; split; [done|]; split; [by split|]; split; [done|]; split; [done|]; split; [done|].
    unfold txq, UART_TX_BUF_SIZE in *; lia.
  - destruct (push _ _ TXBUF_pos TXBUF_div _ _ _ (u8 ch) Hr Hn) as [Hr' Hq'].
    cbn [kmod]; destruct (uartstart_spec (tx_put ch s) (push_lock O_uart c)) as (c' & s' & out & -> & Hh & Hi & Ho & Hs).
    { by split. }
    cbn [held push_lock] in Hh; rewrite Hc in Hh; rewrite (release_only O_uart c' s' Hh).
    eexists _, _, s'; split; [done|]; split; [done|]; split; [done|].
    exists out; split; [by rewrite <- Ho|done].
Qed.

(** ** Any sequence of writers and interrupts *)

Inductive uart_op : Type :=
| UPut (c : Z)              (* a segment of uartputc(c) *)
| UIntr                     (* the second half of uartintr *)
| UDev (answers : list Z).  (* the device changes state *)

(** The state after the operations and the characters that were accepted. *)
Fixpoint uart_run (ops : list uart_op) (s : uartst) : option (uartst * list Z) :=
  match ops with
  | [] => Some (s, [])
  | UPut c :: ops' =>
      match uartputc_seg c (Ctx [] []) s with
      | Ret r _ s' => '(s'', l) ← uart_run ops' s'; Some (s'', match r with Done _ => u8 c :: l | _ => l end)
      | _ => None
      end
  | UIntr :: ops' =>
      match (acquire O_uart ;;; uartstart ;;; release O_uart) (Ctx [] []) s with
      | Ret _ _ s' => uart_run ops' s'
      | _ => None
      end
  | UDev v :: ops' =>
      uart_run ops' (UartSt (uart_tx_buf s) (uart_tx_w s) (uart_tx_r s) (panicked s) v (rhr s) (sent s) (regs s))
  end.

(** C36: whatever writers, interrupts and answers of the device come in whatever
    order, none of them gets stuck, and the characters the device has been
    given followed by those still in the buffer are the accepted ones, in
    order. *)
Theorem uart_fifo ops s :
  uart_inv s ->
  exists s' l, uart_run ops s = Some (s', l) /\ uart_inv s' /\
    sent s' ++ (u8 <$> txq s') = sent s ++ (u8 <$> txq s) ++ l /\ (length (txq s') <= 32)%nat.
Proof.
  revert s; induction ops as [|o ops IH]; intros s Hi; cbn [uart_run].
  { exists s, []; split; [done|]; split; [done|]; split; [by rewrite app_nil_r|by apply txq_length]. }
  destruct o as [ch| |v].
  - destruct (uartputc_spec ch s (Ctx [] []) Hi eq_refl) as (r & c' & s1 & -> & Hi1 & _ & Hr).
    destruct (IH s1 Hi1) as (s' & l & -> & Hi' & Hs & Hl); cbn; destruct r as [[]|o []].
    + destruct Hr as (out & Hq & Hs1); exists s', (u8 ch :: l); split; [done|]; split; [done|]; split; [|done].
      apply (f_equal (fmap u8)) in Hq; rewrite !fmap_app in Hq; cbn in Hq; rewrite u8_u8 in Hq.
      rewrite Hs, Hs1, (cons_middle _ _ l), <- !app_assoc; f_equal; by rewrite !app_assoc, Hq.
    + destruct Hr as (_ & -> & _); by exists s', l.
  - unfold kbind; rewrite acquire_run by set_solver.
    destruct (uartstart_spec s (push_lock O_uart (Ctx [] [])) Hi) as (c' & s1 & out & -> & Hh & Hi1 & Hq & Hs1).
    rewrite (release_only O_uart c' s1 Hh); destruct (IH s1 Hi1) as (s' & l & -> & Hi' & Hs & Hl).
    exists s', l; split; [done|]; split; [done|]; split; [|done]; rewrite Hs, Hs1, Hq, fmap_app; by rewrite <- !app_assoc.
  - destruct (IH (UartSt (uart_tx_buf s) (uart_tx_w s) (uart_tx_r s) (panicked s) v (rhr s) (sent s) (regs s)))
      as (s' & l & -> & Hi' & Hs & Hl); [done|]; by exists s', l.
Qed.

Definition demo_uart : uartst := UartSt (replicate 32 0) (2 ^ 64 - 1) (2 ^ 64 - 1) 0 [] [] [] [].

Lemma demo_uart_inv : uart_inv demo_uart.
Proof. by split; [split|]. Qed.

(** Both counters wrap while a busy device takes two of three characters. *)
Lemma uart_fifo_witness :
  exists s' l, uart_run [UPut 104; UPut 105; UDev [32; 32]; UIntr; UPut 33] demo_uart = Some (s', l) /\
    sent s' ++ (u8 <$> txq s') = sent demo_uart ++ (u8 <$> txq demo_uart) ++ l.
Proof.
  destruct (uart_fifo [UPut 104; UPut 105; UDev [32; 32]; UIntr; UPut 33] demo_uart demo_uart_inv)
    as (s' & l & H1 & _ & H2 & _); by exists s', l.
Defined.
