(* ===== verification/Proc.v ===== *)
(** * kernel/proc.c

    The process table over the files and physical memory.  A [struct proc *]
    is an index into the table, [me] is myproc().  The functions that switch
    to the scheduler are cut at [sched]: one definition runs up to the switch,
    another from where the scheduler switches back. *)

From S2P Require Import Prelude CMem KString Riscv Kalloc Vm Locks Pipe Block Bio Log Fs File Printf.

Inductive procstate : Type := UNUSED | USED | SLEEPING | RUNNABLE | RUNNING | ZOMBIE.
#[export] Instance procstate_eq_dec : EqDecision procstate.
Proof. solve_decision. Defined.

Record proc : Type := Proc {
  p_state : procstate;
  p_chan : option kobj;
  p_killed : Z;
  p_xstate : Z;
  p_pid : Z;
  p_parent : option nat;
  p_kstack : Z;
  p_sz : Z;
  p_pagetable : Z;
  p_trapframe : Z;
  p_context : Z * Z;             (* ra and sp; the other registers are zero *)
  p_ofile : list (option nat);
  p_cwd : option nat;
  p_name : list Z;
  p_pending : Z;
  p_handlers : list Z;
  p_is_thread : Z;
  p_stack : Z;
  p_thread_parent : option nat
}.
Definition proc0 : proc :=
  Proc UNUSED None 0 0 0 None 0 0 0 0 (0, 0) (replicate 16 None) None (replicate 16 0) 0 (replicate 32 0) 0 0 None.

Record kst : Type := Kst {
  procs : list proc;
  nextpid : Z;
  initproc : option nat;
  ticks : Z;                     (* trap.c *)
  kout : list Z;                 (* the characters printed so far *)
  kfiles : filest
}.
Definition set_kfiles (f : filest) (s : kst) : kst :=
  Kst (procs s) (nextpid s) (initproc s) (ticks s) (kout s) f.
Definition files_of : lens kst filest := Lens kfiles set_kfiles.
Definition kfs_of : lens kst fsst :=
  Lens (fun s => fss (kfiles s)) (fun f s => set_kfiles (FileSt (ftab (kfiles s)) (pipes (kfiles s)) f) s).
Definition kmem_of : lens kst pmem :=
  Lens (fun s => lget mem_of (kfiles s)) (fun m s => set_kfiles (lset mem_of m (kfiles s)) s).
Definition klog_of : lens kst logst :=
  Lens (fun s => lget log_of (kfiles s)) (fun l s => set_kfiles (lset log_of l (kfiles s)) s).

Definition get_proc (i : nat) (s : kst) : proc := default proc0 (procs s !! i).
Definition upd_proc (i : nat) (f : proc -> proc) (s : kst) : kst :=
  Kst (alter f i (procs s)) (nextpid s) (initproc s) (ticks s) (kout s) (kfiles s).

Definition set_state (st : procstate) (p : proc) : proc :=
  Proc st (p_chan p) (p_killed p) (p_xstate p) (p_pid p) (p_parent p) (p_kstack p) (p_sz p) (p_pagetable p)
    (p_trapframe p) (p_context p) (p_ofile p) (p_cwd p) (p_name p) (p_pending p) (p_handlers p) (p_is_thread p)
    (p_stack p) (p_thread_parent p).
Definition set_chan (ch : option kobj) (p : proc) : proc :=
  Proc (p_state p) ch (p_killed p) (p_xstate p) (p_pid p) (p_parent p) (p_kstack p) (p_sz p) (p_pagetable p)
    (p_trapframe p) (p_context p) (p_ofile p) (p_cwd p) (p_name p) (p_pending p) (p_handlers p) (p_is_thread p)
    (p_stack p) (p_thread_parent p).
Definition set_killed (k : Z) (p : proc) : proc :=
  Proc (p_state p) (p_chan p) k (p_xstate p) (p_pid p) (p_parent p) (p_kstack p) (p_sz p) (p_pagetable p)
    (p_trapframe p) (p_context p) (p_ofile p) (p_cwd p) (p_name p) (p_pending p) (p_handlers p) (p_is_thread p)
    (p_stack p) (p_thread_parent p).
Definition set_xstate (x : Z) (p : proc) : proc :=
  Proc (p_state p) (p_chan p) (p_killed p) x (p_pid p) (p_parent p) (p_kstack p) (p_sz p) (p_pagetable p)
    (p_trapframe p) (p_context p) (p_ofile p) (p_cwd p) (p_name p) (p_pending p) (p_handlers p) (p_is_thread p)
    (p_stack p) (p_thread_parent p).
Definition set_pid (x : Z) (p : proc) : proc :=
  Proc (p_state p) (p_chan p) (p_killed p) (p_xstate p) x (p_parent p) (p_kstack p) (p_sz p) (p_pagetable p)
    (p_trapframe p) (p_context p) (p_ofile p) (p_cwd p) (p_name p) (p_pending p) (p_handlers p) (p_is_thread p)
    (p_stack p) (p_thread_parent p).
Definition set_parent (x : option nat) (p : proc) : proc :=
  Proc (p_state p) (p_chan p) (p_killed p) (p_xstate p) (p_pid p) x (p_kstack p) (p_sz p) (p_pagetable p)
    (p_trapframe p) (p_context p) (p_ofile p) (p_cwd p) (p_name p) (p_pending p) (p_handlers p) (p_is_thread p)
    (p_stack p) (p_thread_parent p).
Definition set_kstack (x : Z) (p : proc) : proc :=
  Proc (p_state p) (p_chan p) (p_killed p) (p_xstate p) (p_pid p) (p_parent p) x (p_sz p) (p_pagetable p)
    (p_trapframe p) (p_context p) (p_ofile p) (p_cwd p) (p_name p) (p_pending p) (p_handlers p) (p_is_thread p)
    (p_stack p) (p_thread_parent p).
Definition set_sz (x : Z) (p : proc) : proc :=
  Proc (p_state p) (p_chan p) (p_killed p) (p_xstate p) (p_pid p) (p_parent p) (p_kstack p) x (p_pagetable p)
    (p_trapframe p) (p_context p) (p_ofile p) (p_cwd p) (p_name p) (p_pending p) (p_handlers p) (p_is_thread p)
    (p_stack p) (p_thread_parent p).
Definition set_pagetable (x : Z) (p : proc) : proc :=
  Proc (p_state p) (p_chan p) (p_killed p) (p_xstate p) (p_pid p) (p_parent p) (p_kstack p) (p_sz p) x
    (p_trapframe p) (p_context p) (p_ofile p) (p_cwd p) (p_name p) (p_pending p) (p_handlers p) (p_is_thread p)
    (p_stack p) (p_thread_parent p).
Definition set_trapframe (x : Z) (p : proc) : proc :=
  Proc (p_state p) (p_chan p) (p_killed p) (p_xstate p) (p_pid p) (p_parent p) (p_kstack p) (p_sz p) (p_pagetable p)
    x (p_context p) (p_ofile p) (p_cwd p) (p_name p) (p_pending p) (p_handlers p) (p_is_thread p)
    (p_stack p) (p_thread_parent p).
Definition set_context (x : Z * Z) (p : proc) : proc :=
  Proc (p_state p) (p_chan p) (p_killed p) (p_xstate p) (p_pid p) (p_parent p) (p_kstack p) (p_sz p) (p_pagetable p)
    (p_trapframe p) x (p_ofile p) (p_cwd p) (p_name p) (p_pending p) (p_handlers p) (p_is_thread p)
    (p_stack p) (p_thread_parent p).
Definition set_ofile (fd : nat) (x : option nat) (p : proc) : proc :=
  Proc (p_state p) (p_chan p) (p_killed p) (p_xstate p) (p_pid p) (p_parent p) (p_kstack p) (p_sz p) (p_pagetable p)
    (p_trapframe p) (p_context p) (<[fd := x]> (p_ofile p)) (p_cwd p) (p_name p) (p_pending p) (p_handlers p) (p_is_thread p)
    (p_stack p) (p_thread_parent p).
Definition set_cwd (x : option nat) (p : proc) : proc :=
  Proc (p_state p) (p_chan p) (p_killed p) (p_xstate p) (p_pid p) (p_parent p) (p_kstack p) (p_sz p) (p_pagetable p)
    (p_trapframe p) (p_context p) (p_ofile p) x (p_name p) (p_pending p) (p_handlers p) (p_is_thread p)
    (p_stack p) (p_thread_parent p).
Definition set_name (x : list Z) (p : proc) : proc :=
  Proc (p_state p) (p_chan p) (p_killed p) (p_xstate p) (p_pid p) (p_parent p) (p_kstack p) (p_sz p) (p_pagetable p)
    (p_trapframe p) (p_context p) (p_ofile p) (p_cwd p) x (p_pending p) (p_handlers p) (p_is_thread p)
    (p_stack p) (p_thread_parent p).
Definition set_pending (x : Z) (p : proc) : proc :=
  Proc (p_state p) (p_chan p) (p_killed p) (p_xstate p) (p_pid p) (p_parent p) (p_kstack p) (p_sz p) (p_pagetable p)
    (p_trapframe p) (p_context p) (p_ofile p) (p_cwd p) (p_name p) x (p_handlers p) (p_is_thread p)
    (p_stack p) (p_thread_parent p).
Definition set_handler (i : nat) (x : Z) (p : proc) : proc :=
  Proc (p_state p) (p_chan p) (p_killed p) (p_xstate p) (p_pid p) (p_parent p) (p_kstack p) (p_sz p) (p_pagetable p)
    (p_trapframe p) (p_context p) (p_ofile p) (p_cwd p) (p_name p) (p_pending p) (<[i := x]> (p_handlers p)) (p_is_thread p)
    (p_stack p) (p_thread_parent p).
Definition set_thread (t st : Z) (tp : option nat) (p : proc) : proc :=
  Proc (p_state p) (p_chan p) (p_killed p) (p_xstate p) (p_pid p) (p_parent p) (p_kstack p) (p_sz p) (p_pagetable p)
    (p_trapframe p) (p_context p) (p_ofile p) (p_cwd p) (p_name p) (p_pending p) (p_handlers p) t st tp.

Definition pmod (i : nat) (f : proc -> proc) : M kst unit := kmod (upd_proc i f).
Definition pget (i : nat) : M kst proc := let* s := kget in kret (get_proc i s).

(** Trap frames are pages of physical memory. *)
Definition TF_EPC : Z := 24.
Definition TF_SP : Z := 48.
Definition TF_A0 : Z := 112.
Definition TF_SIZE : Z := 288.
Definition tf_set (tf off v : Z) : M kst unit := zoom kmem_of (poke (tf + off) v).
Definition tf_get (tf off : Z) : M kst Z := zoom kmem_of (peek (tf + off)).
Definition tf_copy (dst src : Z) : M kst unit :=
  zoom kmem_of (kmod (with_mem (fun m => store_bytes m dst (load_bytes m src (Z.to_nat TF_SIZE))))).

(** [safestrcpy(dst, src, sizeof(p->name))] on two buffers of their own. *)
Definition name_copy (dst src : list Z) : list Z :=
  load_bytes (safestrcpy (two_strings dst src) 0 4096 16) 0 16.

Definition SIGINT : Z := 2.

(** [printf]: the characters go to the console under [pr.lock]. *)
Definition kprintf (fmt : list Z) (args : list varg) : M kst unit :=
  acquire O_pr ;;;
  match Kernel.printf fmt args with
  | None => stuck
  | Some out =>
      kmod (fun s => Kst (procs s) (nextpid s) (initproc s) (ticks s) (kout s ++ out) (kfiles s)) ;;;
      release O_pr
  end.
Definition newline : list Z := [10].

(** ** Start-up *)

Definition procinit (l : list proc) : list proc :=
  imap (fun i p => fold_right (fun k p => set_handler k 0 p)
                     (set_kstack (KSTACK (Z.of_nat i)) (set_state UNUSED p)) (seq 0 32)) l.

Definition allocpid : M kst Z :=
  acquire O_pid ;;;
  let* s := kget in
  kmod (fun s => Kst (procs s) (i32 (nextpid s + 1)) (initproc s) (ticks s) (kout s) (kfiles s)) ;;;
  release O_pid ;;;
  kret (nextpid s).

(** The scan for an UNUSED process of [allocproc] and [allocthread], [n] slots
    being left; the process found stays locked. *)
Fixpoint find_unused (n i : nat) : M kst (option nat) :=
  match n with
  | O => kret None
  | S n' =>
      acquire (O_proc i) ;;;
      let* p := pget i in
      if decide (p_state p = UNUSED) then kret (Some i)
      else release (O_proc i) ;;; find_unused n' (S i)
  end.

Section proc.
Variable kend : Z.         (* [end], from kernel.ld *)
Variable trampoline : Z.   (* trampoline.S *)
Variable forkret_pc : Z.   (* the address of forkret *)

(** ** Page tables of processes *)

Definition proc_pagetable (i : nat) : M kst Z :=
  let* pagetable := zoom kmem_of uvmcreate in
  if pagetable =? 0 then kret 0
  else
    let* r := zoom kmem_of (mappages pagetable TRAMPOLINE PGSIZE trampoline (Z.lor PTE_R PTE_X)) in
    if r <? 0 then zoom kmem_of (uvmfree kend pagetable 0) ;;; kret 0
    else
      let* p := pget i in
      let* r := zoom kmem_of (mappages pagetable TRAPFRAME PGSIZE (p_trapframe p) (Z.lor PTE_R PTE_W)) in
      if r <? 0 then
        zoom kmem_of (uvmunmap kend pagetable TRAMPOLINE 1 false) ;;;
        zoom kmem_of (uvmfree kend pagetable 0) ;;;
        kret 0
      else kret pagetable.

Definition proc_freepagetable (pagetable sz : Z) : M kst unit :=
  zoom kmem_of (uvmunmap kend pagetable TRAMPOLINE 1 false) ;;;
  zoom kmem_of (uvmunmap kend pagetable TRAPFRAME 1 false) ;;;
  zoom kmem_of (uvmfree kend pagetable sz).

(** ** Allocation *)

Definition freeproc (i : nat) : M kst unit :=
  let* p := pget i in
  (if truth (p_trapframe p) then zoom kmem_of (kfree kend (p_trapframe p)) else kret tt) ;;;
  pmod i (set_trapframe 0) ;;;
  (if truth (p_pagetable p) then proc_freepagetable (p_pagetable p) (p_sz p) else kret tt) ;;;
  pmod i (set_pagetable 0) ;;;
  pmod i (set_sz 0) ;;;
  pmod i (set_pid 0) ;;;
  pmod i (set_parent None) ;;;
  pmod i (fun p => set_name (<[O := 0]> (p_name p)) p) ;;;
  pmod i (set_chan None) ;;;
  pmod i (set_killed 0) ;;;
  pmod i (set_xstate 0) ;;;
  pmod i (set_state UNUSED) ;;;
  (if truth (p_is_thread p) && truth (p_stack p) then
     zoom kmem_of (kfree kend (p_stack p)) ;;;
     pmod i (fun p => set_thread (p_is_thread p) 0 (p_thread_parent p) p)
   else kret tt) ;;;
  pmod i (fun p => set_thread 0 (p_stack p) None p).

(** [freeproc(p); release(&p->lock); return 0;] *)
Definition undo_alloc (i : nat) : M kst (option nat) :=
  freeproc i ;;; release (O_proc i) ;;; kret None.

Definition allocproc : M kst (option nat) :=
  let* r := find_unused (Z.to_nat NPROC) 0 in
  match r with
  | None => kret None
  | Some i =>
      let* pid := allocpid in
      pmod i (set_pid pid) ;;;
      pmod i (set_state USED) ;;;
      let* tf := zoom kmem_of kalloc in
      pmod i (set_trapframe tf) ;;;
      if tf =? 0 then undo_alloc i
      else
        let* pt := proc_pagetable i in
        pmod i (set_pagetable pt) ;;;
        if pt =? 0 then undo_alloc i
        else
          let* p := pget i in
          pmod i (set_context (forkret_pc, u64 (p_kstack p + PGSIZE))) ;;;
          kret (Some i)
  end.

Definition initcode : list Z :=
  [0x17; 0x05; 0x00; 0x00; 0x13; 0x05; 0x45; 0x02;
   0x97; 0x05; 0x00; 0x00; 0x93; 0x85; 0x35; 0x02;
   0x93; 0x08; 0x70; 0x00; 0x73; 0x00; 0x00; 0x00;
   0x93; 0x08; 0x20; 0x00; 0x73; 0x00; 0x00; 0x00;
   0xef; 0xf0; 0x9f; 0xff; 0x2f; 0x69; 0x6e; 0x69;
   0x74; 0x00; 0x00; 0x24; 0x00; 0x00; 0x00; 0x00;
   0x00; 0x00; 0x00; 0x00].
Definition initcode_name : list Z := [105; 110; 105; 116; 99; 111; 100; 101].   (* the string initcode *)

(** A null result of [allocproc] is dereferenced. *)
Definition userinit : M kst unit :=
  let* r := allocproc in
  kmod (fun s => Kst (procs s) (nextpid s) r (ticks s) (kout s) (kfiles s)) ;;;
  match r with
  | None => stuck
  | Some i =>
      let* p := pget i in
      zoom kmem_of (uvmfirst (p_pagetable p) initcode) ;;;
      pmod i (set_sz PGSIZE) ;;;
      tf_set (p_trapframe p) TF_EPC 0 ;;;
      tf_set (p_trapframe p) TF_SP PGSIZE ;;;
      pmod i (fun p => set_name (name_copy (p_name p) initcode_name) p) ;;;
      let* ip := zoom kfs_of (namei 0 0 0 [slash]) in
      pmod i (set_cwd ip) ;;;
      pmod i (set_state RUNNABLE) ;;;
      release (O_proc i)
  end.

(** ** The current process

    [me] is myproc(). *)
Variable me : nat.

Definition growproc (n : Z) : M kst Z :=
  let* p := pget me in
  let sz := p_sz p in
  if 0 <? n then
    let* sz := zoom kmem_of (uvmalloc kend (p_pagetable p) sz (u64 (sz + n)) PTE_W) in
    if sz =? 0 then kret (-1)
    else pmod me (set_sz sz) ;;; kret 0
  else if n <? 0 then
    let* sz := zoom kmem_of (uvmdealloc kend (p_pagetable p) sz (u64 (sz + n))) in
    pmod me (set_sz sz) ;;; kret 0
  else pmod me (set_sz sz) ;;; kret 0.

(** [for(i = 0; i < NOFILE; i++) if(p->ofile[i]) np->ofile[i] = filedup(p->ofile[i]);]
    over the descriptors from [fd] on. *)
Fixpoint dup_files (l : list (option nat)) (fd np : nat) : M kst unit :=
  match l with
  | [] => kret tt
  | o :: l' =>
      match o with
      | None => kret tt
      | Some f => let* f := zoom files_of (filedup f) in pmod np (set_ofile fd (Some f))
      end ;;;
      dup_files l' (S fd) np
  end.

(** [p->cwd] dereferenced by [idup] and [iput]. *)
Definition with_cwd {A} (o : option nat) (k : nat -> M kst A) : M kst A :=
  match o with None => stuck | Some ip => k ip end.

Definition fork : M kst Z :=
  let* r := allocproc in
  match r with
  | None => kret (-1)
  | Some np =>
      let* p := pget me in
      let* q := pget np in
      let* r := zoom kmem_of (uvmcopy kend (p_pagetable p) (p_pagetable q) (p_sz p)) in
      if r <? 0 then freeproc np ;;; release (O_proc np) ;;; kret (-1)
      else
        pmod np (set_sz (p_sz p)) ;;;
        tf_copy (p_trapframe q) (p_trapframe p) ;;;
        tf_set (p_trapframe q) TF_A0 0 ;;;
        dup_files (p_ofile p) 0 np ;;;
        with_cwd (p_cwd p) (fun ip =>
          let* ip := zoom kfs_of (idup ip) in pmod np (set_cwd (Some ip))) ;;;
        pmod np (fun q => set_name (name_copy (p_name q) (p_name p)) q) ;;;
        let pid := p_pid q in
        release (O_proc np) ;;;
        acquire O_wait ;;;
        pmod np (set_parent (Some me)) ;;;
        release O_wait ;;;
        acquire (O_proc np) ;;;
        pmod np (set_state RUNNABLE) ;;;
        release (O_proc np) ;;;
        kret pid
  end.

(** ** Scheduling *)

(** [wakeup(chan)] over the table, [n] slots being left; a null [chan] is
    [None]. *)
Fixpoint wakeup_loop (n i : nat) (chan : option kobj) : M kst unit :=
  match n with
  | O => kret tt
  | S n' =>
      (if decide (i = me) then kret tt
       else
         acquire (O_proc i) ;;;
         let* p := pget i in
         (if decide (p_state p = SLEEPING /\ p_chan p = chan) then pmod i (set_state RUNNABLE) else kret tt) ;;;
         release (O_proc i)) ;;;
      wakeup_loop n' (S i) chan
  end.
Definition wakeup_procs (chan : option kobj) : M kst unit := wakeup_loop (Z.to_nat NPROC) 0 chan.

(** [sched] up to the [swtch] to the scheduler: the CPU holds [p->lock] and no
    other lock, and interrupts are off because it holds one. *)
Definition sched : M kst unit := fun c s =>
  if decide (O_proc me ∈ held c) then
    if decide (length (held c) = 1%nat) then
      if decide (p_state (get_proc me s) = RUNNING) then Panic "sched running"
      else Ret tt c s
    else Panic "sched locks"
  else Panic "sched p->lock".

(** [yield] and [sleep] up to the switch, and from the switch back on. *)
Definition yield : M kst unit :=
  acquire (O_proc me) ;;;
  pmod me (set_state RUNNABLE) ;;;
  sched.
Definition yield_back : M kst unit := release (O_proc me).

Definition sleep_enter (chan lk : kobj) : M kst unit :=
  acquire (O_proc me) ;;;
  release lk ;;;
  pmod me (set_chan (Some chan)) ;;;
  pmod me (set_state SLEEPING) ;;;
  sched.
Definition sleep_back (lk : kobj) : M kst unit :=
  pmod me (set_chan None) ;;;
  release (O_proc me) ;;;
  acquire lk.

(** One process of the scheduler's loop: the process to switch to, whose lock
    stays held, and what follows the switch back. *)
Definition scheduler_turn (i : nat) : M kst bool :=
  acquire (O_proc i) ;;;
  let* p := pget i in
  if decide (p_state p = RUNNABLE) then pmod i (set_state RUNNING) ;;; kret true
  else release (O_proc i) ;;; kret false.
Definition scheduler_back (i : nat) : M kst unit := release (O_proc i).

(** [forkret] up to [usertrapret]; [first] is its static variable. *)
Definition forkret (mypid first : Z) : M kst Z :=
  release (O_proc me) ;;;
  if truth first then zoom kfs_of (fsinit mypid ROOTDEV) ;;; kret 0
  else kret first.

(** ** Exit and wait *)

Fixpoint reparent_loop (n i : nat) (p : nat) : M kst unit :=
  match n with
  | O => kret tt
  | S n' =>
      let* s := kget in
      (if decide (p_parent (get_proc i s) = Some p) then
         pmod i (set_parent (initproc s)) ;;;
         wakeup_procs (O_proc <$> initproc s)
       else kret tt) ;;;
      reparent_loop n' (S i) p
  end.
Definition reparent (p : nat) : M kst unit := reparent_loop (Z.to_nat NPROC) 0 p.

(** [for(int fd = 0; fd < NOFILE; fd++)] of [exit], [n] descriptors being left. *)
Fixpoint close_files (n fd : nat) : M kst unit :=
  match n with
  | O => kret tt
  | S n' =>
      let* p := pget me in
      match default None (p_ofile p !! fd) with
      | None => kret tt
      | Some f => zoom files_of (fileclose kend (p_pid p) f) ;;; pmod me (set_ofile fd None)
      end ;;;
      close_files n' (S fd)
  end.

(** [exit] up to the switch; it panics if the scheduler ever switches back. *)
Definition exit (status : Z) : M kst unit :=
  let* s := kget in
  if decide (initproc s = Some me) then panic "init exiting"
  else
    close_files (Z.to_nat NOFILE) 0 ;;;
    zoom klog_of begin_op ;;;
    let* p := pget me in
    with_cwd (p_cwd p) (fun ip => zoom kfs_of (iput (p_pid p) ip)) ;;;
    zoom klog_of (end_op (p_pid p)) ;;;
    pmod me (set_cwd None) ;;;
    acquire O_wait ;;;
    reparent me ;;;
    let* p := pget me in
    wakeup_procs (O_proc <$> p_parent p) ;;;
    acquire (O_proc me) ;;;
    pmod me (set_xstate status) ;;;
    pmod me (set_state ZOMBIE) ;;;
    release O_wait ;;;
    sched.

Definition setkilled (i : nat) : M kst unit :=
  acquire (O_proc i) ;;;
  pmod i (set_killed 1) ;;;
  release (O_proc i).

Definition killed (i : nat) : M kst Z :=
  acquire (O_proc i) ;;;
  let* p := pget i in
  release (O_proc i) ;;;
  kret (p_killed p).

(** The scan of [wait]: [inl pid] when the call returns, [inr havekids] when
    the table holds no zombie child. *)
Fixpoint wait_scan (n i : nat) (addr : Z) (havekids : bool) : M kst (Z + bool) :=
  match n with
  | O => kret (inr havekids)
  | S n' =>
      let* s := kget in
      if decide (p_parent (get_proc i s) = Some me) then
        acquire (O_proc i) ;;;
        let* pp := pget i in
        if decide (p_state pp = ZOMBIE) then
          let pid := p_pid pp in
          let* r := (if negb (addr =? 0)
                     then zoom kmem_of (copyout (p_pagetable (get_proc me s)) addr (le_encode 4 (p_xstate pp)))
                     else kret 0) in
          if r <? 0 then
            release (O_proc i) ;;; release O_wait ;;; kret (inl (-1))
          else
            freeproc i ;;;
            release (O_proc i) ;;;
            release O_wait ;;;
            kret (inl pid)
        else
          release (O_proc i) ;;; wait_scan n' (S i) addr true
      else wait_scan n' (S i) addr havekids
  end.

(** A segment of [wait(addr)]. *)
Definition wait_seg (addr : Z) : M kst (seg Z unit) :=
  acquire O_wait ;;;
  let* r := wait_scan (Z.to_nat NPROC) 0 addr false in
  match r with
  | inl pid => kret (Done pid)
  | inr havekids =>
      let* k := (if havekids then killed me else kret 0) in
      if negb havekids || truth k then release O_wait ;;; kret (Done (-1))
      else sleep_at (O_proc me) O_wait tt
  end.
Definition wait (addr : Z) : M kst Z := whole O_wait (wait_seg addr).

Fixpoint kill_loop (n i : nat) (pid : Z) : M kst Z :=
  match n with
  | O => kret (-1)
  | S n' =>
      acquire (O_proc i) ;;;
      let* p := pget i in
      if p_pid p =? pid then
        pmod i (set_killed 1) ;;;
        (if decide (p_state p = SLEEPING) then pmod i (set_state RUNNABLE) else kret tt) ;;;
        release (O_proc i) ;;;
        kret 0
      else release (O_proc i) ;;; kill_loop n' (S i) pid
  end.
Definition kill (pid : Z) : M kst Z := kill_loop (Z.to_nat NPROC) 0 pid.

(** ** Threads *)

Definition allocthread (parent : nat) : M kst (option nat) :=
  let* r := find_unused (Z.to_nat NPROC) 0 in
  match r with
  | None => kret None
  | Some i =>
      let* pid := allocpid in
      pmod i (set_pid pid) ;;;
      pmod i (set_state USED) ;;;
      pmod i (set_parent (Some parent)) ;;;
      let* ks := zoom kmem_of kalloc in
      pmod i (set_kstack ks) ;;;
      if ks =? 0 then undo_alloc i
      else
        let* tf := zoom kmem_of kalloc in
        pmod i (set_trapframe tf) ;;;
        if tf =? 0 then undo_alloc i
        else
          let* q := pget parent in
          pmod i (set_pagetable (p_pagetable q)) ;;;
          pmod i (set_sz (p_sz q)) ;;;
          pmod i (fun p => set_thread 1 (p_stack p) (Some parent) p) ;;;
          pmod i (set_killed 0) ;;;
          pmod i (set_xstate 0) ;;;
          with_cwd (p_cwd q) (fun ip =>
            let* ip := zoom kfs_of (idup ip) in pmod i (set_cwd (Some ip))) ;;;
          pmod i (set_context (forkret_pc, u64 (ks + PGSIZE))) ;;;
          kret (Some i)
  end.

Definition thread_exit (retval : Z) : M kst unit := exit (i32 retval).

Definition thread_create (fn arg stack : Z) : M kst Z :=
  if (fn =? 0) || (stack =? 0) then kret (-1)
  else
    let* r := allocthread me in
    match r with
    | None => kret (-1)
    | Some np =>
        let* q := pget np in
        if p_trapframe q =? 0 then freeproc np ;;; release (O_proc np) ;;; kret (-1)
        else
          let* p := pget me in
          tf_copy (p_trapframe q) (p_trapframe p) ;;;
          tf_set (p_trapframe q) TF_A0 arg ;;;
          tf_set (p_trapframe q) TF_SP stack ;;;
          tf_set (p_trapframe q) TF_EPC fn ;;;
          pmod np (set_state RUNNABLE) ;;;
          release (O_proc np) ;;;
          kret (p_pid q)
    end.

(** [copyout] of [sizeof(uint64)] bytes from [&pp->xstate]: the field [pid]
    follows [xstate] in [struct proc]. *)
Fixpoint thread_join_loop (n i : nat) (retval : Z) : M kst Z :=
  match n with
  | O => kret (-1)
  | S n' =>
      let* pp := pget i in
      if decide (p_thread_parent pp = Some me /\ p_state pp <> UNUSED) then
        acquire (O_proc i) ;;;
        let* pp := pget i in
        if decide (p_state pp = ZOMBIE) then
          let* p := pget me in
          let* r := (if negb (retval =? 0)
                     then zoom kmem_of (copyout (p_pagetable p) retval
                            (le_encode 4 (p_xstate pp) ++ le_encode 4 (p_pid pp)))
                     else kret 0) in
          if r <? 0 then release (O_proc i) ;;; kret (-1)
          else
            freeproc i ;;;
            release (O_proc i) ;;;
            let* pp := pget i in
            kret (p_pid pp)
        else release (O_proc i) ;;; thread_join_loop n' (S i) retval
      else thread_join_loop n' (S i) retval
  end.
Definition thread_join (retval : Z) : M kst Z := thread_join_loop (Z.to_nat NPROC) 0 retval.

(** ** Signals *)

Definition handle_signals : M kst unit :=
  let* p := pget me in
  if truth (Z.land (p_pending p) (Z.shiftl 1 SIGINT)) then
    pmod me (set_pending (Z.land (p_pending p) (Z.lnot (Z.shiftl 1 SIGINT)))) ;;;
    let h := default 0 (p_handlers p !! Z.to_nat SIGINT) in
    if truth h then tf_set (p_trapframe p) TF_EPC h
    else pmod me (set_killed 1)
  else kret tt.

Definition sigint_default_handler : M kst unit :=
  pmod me (set_killed 1) ;;;
  kprintf (str "Entered sigint default handler" ++ newline) [].

(** ** procdump *)

Definition state_name (st : procstate) : list Z :=
  match st with
  | UNUSED => str "unused"
  | USED => str "used"
  | SLEEPING => str "sleep "
  | RUNNABLE => str "runble"
  | RUNNING => str "run   "
  | ZOMBIE => str "zombie"
  end.
Fixpoint procdump_loop (n i : nat) : M kst unit :=
  match n with
  | O => kret tt
  | S n' =>
      let* p := pget i in
      (if decide (p_state p = UNUSED) then kret tt
       else
         kprintf (str "%d %s %s") [VNum (p_pid p); VStr (Some (state_name (p_state p))); VStr (Some (until_nul (p_name p)))] ;;;
         kprintf newline []) ;;;
      procdump_loop n' (S i)
  end.
Definition procdump : M kst unit := kprintf newline [] ;;; procdump_loop (Z.to_nat NPROC) 0.
End proc.
