(* ===== verification/ProcTable.v ===== *)
(** * The process table

    The states and pids of the table, and that every function of proc.c moves
    processes only along the edges of the state diagram and keeps pids
    unique. *)

From S2P Require Import Prelude CMem KString Riscv Kalloc Vm Locks Pipe Block Bio Log Fs FsAlloc File Printf Proc.

(** ** The abstract table *)

Definition table : Type := (list (procstate * Z) * Z)%type.
Definition table_of (s : kst) : table := ((fun p => (p_state p, p_pid p)) <$> procs s, nextpid s).

(** The state diagram; a process also comes from and returns to UNUSED. *)
Definition edge (a b : procstate) : bool :=
  match a, b with
  | USED, RUNNABLE | RUNNABLE, RUNNING | RUNNING, RUNNABLE | RUNNING, SLEEPING | SLEEPING, RUNNABLE | RUNNING, ZOMBIE => true
  | _, _ => false
  end.

Inductive pstep : table -> table -> Prop :=
| ps_alloc l n i pid : l !! i = Some (UNUSED, pid) -> 0 < n < 2 ^ 31 - 1 -> pstep (l, n) (<[i := (USED, n)]> l, n + 1)
| ps_move l n i a b pid : l !! i = Some (a, pid) -> edge a b = true -> pstep (l, n) (<[i := (b, pid)]> l, n)
| ps_free l n i a pid : l !! i = Some (a, pid) -> a = ZOMBIE \/ a = USED -> pstep (l, n) (<[i := (UNUSED, 0)]> l, n).

(** Unused slots have pid 0, the others distinct pids that have been given out. *)
Record table_ok (t : table) : Prop := {
  to_next : 1 <= t.2;
  to_unused i pid : t.1 !! i = Some (UNUSED, pid) -> pid = 0;
  to_used i a pid : t.1 !! i = Some (a, pid) -> a <> UNUSED -> 0 < pid < t.2;
  to_unique i j a b pid : t.1 !! i = Some (a, pid) -> t.1 !! j = Some (b, pid) -> pid <> 0 -> i = j
}.

Lemma table_ok_step t t' : table_ok t -> pstep t t' -> table_ok t'.
Proof.
  intros [H1 H2 H3 H4] Hs.
  assert (Hpos : forall i a pid, t.1 !! i = Some (a, pid) -> pid <> 0 -> 0 < pid < t.2).
  { intros i a pid Hi H0; apply (H3 i a pid Hi); intros ->; by apply H2 in Hi. }
  destruct Hs as [l n i pid0 Hi Hn|l n i a b pid Hi He|l n i a pid Hi Ha]; cbn [fst snd] in *; constructor; cbn [fst snd].
  - lia.
  - intros j pid; rewrite list_lookup_insert_Some; intros [(_ & [=] & _)|[_ Hj]]; eauto.
  - intros j a pid; rewrite list_lookup_insert_Some; intros [(_ & [= <- <-] & _)|[_ Hj]] Ha; [lia|]; specialize (H3 _ _ _ Hj Ha); lia.
  - intros j k a b pid; rewrite !list_lookup_insert_Some; intros [(<- & Ej & _)|[Hne Hj]] [(<- & Ek & _)|[Hne' Hk]] H0; simplify_eq; eauto.
    + pose proof (Hpos _ _ _ Hk H0); lia.
    + pose proof (Hpos _ _ _ Hj H0); lia.
  - done.
  - intros j p; rewrite list_lookup_insert_Some; intros [(_ & [= -> <-] & _)|[_ Hj]]; [by destruct a|eauto].
  - intros j a' p; rewrite list_lookup_insert_Some; intros [(_ & [= <- <-] & _)|[_ Hj]] Ha'; [|eauto]; apply (H3 i a pid Hi); intros ->; by destruct b.
  - intros j k a' b' p; rewrite !list_lookup_insert_Some; intros [(<- & Ej & _)|[Hne Hj]] [(<- & Ek & _)|[Hne' Hk]] H0; simplify_eq; eauto.
  - done.
  - intros j p; rewrite list_lookup_insert_Some; intros [(_ & [= <-] & _)|[_ Hj]]; eauto.
  - intros j a' p; rewrite list_lookup_insert_Some; intros [(_ & [= <- <-] & _)|[_ Hj]] Ha'; [done|eauto].
  - intros j k a' b' p; rewrite !list_lookup_insert_Some; intros [(<- & Ej & _)|[Hne Hj]] [(<- & Ek & _)|[Hne' Hk]] H0; simplify_eq; eauto.
Qed.

Lemma pstep_length t t' : pstep t t' -> length t'.1 = length t.1.
Proof. destruct 1; apply length_insert. Qed.

(** ** Runs that return

    [wlp m Q s]: if [m] returns from [s], whatever locks are held, [Q] holds. *)
Definition wlp {A} (m : M kst A) (Q : A -> kst -> Prop) (s : kst) : Prop :=
  forall c, match m c s with Ret a _ s' => Q a s' | _ => True end.

Section rules.
Context {A B : Type}.
Implicit Types (s : kst) (Q : A -> kst -> Prop).

Lemma wlp_bind (m : M kst B) (k : B -> M kst A) Q s : wlp m (fun a s' => wlp (k a) Q s') s -> wlp (kbind m k) Q s.
Proof. intros H c; specialize (H c); unfold kbind; destruct (m c s); [by apply H|done..]. Qed.
Lemma wlp_ret (a : A) Q s : Q a s -> wlp (kret a) Q s.
Proof. by intros H c. Qed.
Lemma wlp_mono (m : M kst A) Q Q' s : wlp m Q s -> (forall a s', Q a s' -> Q' a s') -> wlp m Q' s.
Proof. intros H HQ c; specialize (H c); destruct (m c s); auto. Qed.
Lemma wlp_panic msg Q s : wlp (panic msg) Q s.
Proof. by intros c. Qed.
Lemma wlp_stuck Q s : wlp stuck Q s.
Proof. by intros c. Qed.
End rules.

Lemma wlp_get (Q : kst -> kst -> Prop) s : Q s s -> wlp kget Q s.
Proof. by intros H c. Qed.
Lemma wlp_pget i (Q : proc -> kst -> Prop) s : Q (get_proc i s) s -> wlp (pget i) Q s.
Proof. by intros H c. Qed.
Lemma wlp_pmod i f (Q : unit -> kst -> Prop) s : Q tt (upd_proc i f s) -> wlp (pmod i f) Q s.
Proof. by intros H c. Qed.
Lemma wlp_kmod f (Q : unit -> kst -> Prop) s : Q tt (f s) -> wlp (kmod f) Q s.
Proof. by intros H c. Qed.
Lemma wlp_acquire lk (Q : unit -> kst -> Prop) s : Q tt s -> wlp (acquire lk) Q s.
Proof. intros H c; unfold acquire; by case_decide. Qed.
Lemma wlp_release lk (Q : unit -> kst -> Prop) s : Q tt s -> wlp (release lk) Q s.
Proof. intros H c; unfold release; by case_decide. Qed.

(** Code that leaves the table alone. *)
Definition still {A} (m : M kst A) : Prop := forall s, wlp m (fun _ s' => table_of s' = table_of s) s.

Lemma wlp_still {A} (m : M kst A) Q s : still m -> (forall a s', table_of s' = table_of s -> Q a s') -> wlp m Q s.
Proof. intros H HQ; eapply wlp_mono; [apply H|done]. Qed.
Lemma still_ret {A} (a : A) : still (kret a).
Proof. intros s; by apply wlp_ret. Qed.
Lemma still_bind {A B} (m : M kst A) (k : A -> M kst B) : still m -> (forall a, still (k a)) -> still (kbind m k).
Proof. intros Hm Hk s; apply wlp_bind, (wlp_still m _ s Hm); intros a s1 H1; rewrite <- H1; apply Hk. Qed.
Lemma still_get : still kget.
Proof. intros s; by apply wlp_get. Qed.
Lemma still_pget i : still (pget i).
Proof. intros s; by apply wlp_pget. Qed.
Lemma still_acquire lk : still (acquire lk).
Proof. intros s; by apply wlp_acquire. Qed.
Lemma still_release lk : still (release lk).
Proof. intros s; by apply wlp_release. Qed.
Lemma still_stuck {A} : still (stuck : M kst A).
Proof. intros s; apply wlp_stuck. Qed.
Lemma still_panic {A} msg : still (panic msg : M kst A).
Proof. intros s; apply wlp_panic. Qed.

(** A part of the state other than the table. *)
Lemma still_zoom {X A} (l : lens kst X) (m : M X A) : (forall x s, table_of (lset l x s) = table_of s) -> still (zoom l m).
Proof. intros Hl s c; unfold zoom; destruct (m c (lget l s)); auto. Qed.
Lemma still_kmem {A} (m : M _ A) : still (zoom kmem_of m).
Proof. by apply still_zoom. Qed.
Lemma still_kfs {A} (m : M _ A) : still (zoom kfs_of m).
Proof. by apply still_zoom. Qed.
Lemma still_klog {A} (m : M _ A) : still (zoom klog_of m).
Proof. by apply still_zoom. Qed.
Lemma still_files {A} (m : M _ A) : still (zoom files_of m).
Proof. by apply still_zoom. Qed.

Lemma table_upd i f g s : (forall p, (p_state (f p), p_pid (f p)) = g (p_state p, p_pid p)) ->
  table_of (upd_proc i f s) = (alter g i (table_of s).1, nextpid s).
Proof.
  intros Hf; unfold table_of; cbn [procs nextpid upd_proc fst]; f_equal; apply list_eq; intros j.
  rewrite list_lookup_fmap; destruct (decide (i = j)) as [<-|Hne].
  - rewrite !list_lookup_alter_eq, list_lookup_fmap; destruct (procs s !! i); cbn; [by rewrite Hf|done].
  - by rewrite !list_lookup_alter_ne, list_lookup_fmap.
Qed.
Lemma still_pmod i f : (forall p, (p_state (f p), p_pid (f p)) = (p_state p, p_pid p)) -> still (pmod i f).
Proof.
  intros Hf s; apply wlp_pmod; rewrite (table_upd i f id) by done; unfold table_of; cbn [fst]; f_equal; apply list_eq; intros j.
  destruct (decide (i = j)) as [<-|Hne]; [rewrite list_lookup_alter_eq; by destruct (_ !! i)|by rewrite list_lookup_alter_ne].
Qed.

Create HintDb still discriminated.
#[export] Hint Resolve still_ret still_get still_pget still_acquire still_release still_stuck still_panic
  still_kmem still_kfs still_klog still_files : still.
#[export] Hint Extern 1 (still (pmod _ _)) => apply still_pmod; intros []; reflexivity : still.
#[export] Hint Extern 2 (still (kbind _ _)) => apply still_bind; [|intros ?] : still.
#[export] Hint Extern 2 (still (match ?x with _ => _ end)) => destruct x : still.
Ltac still := auto 100 with still.

Lemma still_kmod f : (forall s, table_of (f s) = table_of s) -> still (kmod f).
Proof. intros Hf s c; apply Hf. Qed.
#[export] Hint Extern 1 (still (kmod _)) => apply still_kmod; reflexivity : still.

Lemma still_kprintf fmt args : still (kprintf fmt args).
Proof. unfold kprintf; still. Qed.
Lemma still_sched me : still (sched me).
Proof. intros s c; unfold sched; by repeat case_decide. Qed.
#[export] Hint Resolve still_kprintf still_sched : still.

(** ** Allocation *)

Lemma get_proc_slot i s x : (table_of s).1 !! i = Some x -> (p_state (get_proc i s), p_pid (get_proc i s)) = x.
Proof.
  unfold table_of, get_proc; cbn [fst]; rewrite list_lookup_fmap; destruct (procs s !! i); cbn; [congruence|done].
Qed.
Lemma slot_get_proc i s : (i < length (table_of s).1)%nat ->
  (table_of s).1 !! i = Some (p_state (get_proc i s), p_pid (get_proc i s)).
Proof.
  intros Hi; destruct (lookup_lt_is_Some_2 _ _ Hi) as [x Hx]; by rewrite (get_proc_slot _ _ _ Hx).
Qed.

Lemma alter_known {A} (f : A -> A) i (l : list A) x : l !! i = Some x -> alter f i l = <[i := f x]> l.
Proof.
  intros Hx; apply list_eq; intros j; destruct (decide (i = j)) as [<-|Hne].
  - rewrite list_lookup_alter_eq, list_lookup_insert_eq, Hx by (by eapply lookup_lt_Some); done.
  - by rewrite list_lookup_alter_ne, list_lookup_insert_ne.
Qed.

(** A change of one slot. *)
Lemma wlp_slot i f s a pid b pid' (Q : unit -> kst -> Prop) :
  (table_of s).1 !! i = Some (a, pid) -> (forall p, p_state p = a -> p_pid p = pid -> (p_state (f p), p_pid (f p)) = (b, pid')) ->
  (forall s', table_of s' = (<[i := (b, pid')]> (table_of s).1, (table_of s).2) -> Q tt s') -> wlp (pmod i f) Q s.
Proof.
  intros Hi Hf HQ; apply wlp_pmod, HQ; unfold table_of in *; cbn [procs nextpid upd_proc fst snd] in *; f_equal; apply list_eq; intros j.
  rewrite list_lookup_fmap in *; destruct (procs s !! i) as [p|] eqn:Hp; [|done]; injection Hi as Ha Hpid.
  destruct (decide (i = j)) as [<-|Hne].
  - rewrite list_lookup_alter_eq, Hp, list_lookup_insert_eq by (rewrite length_fmap; by eapply lookup_lt_Some); cbn; by rewrite Hf.
  - by rewrite list_lookup_alter_ne, list_lookup_insert_ne, list_lookup_fmap.
Qed.

(** Over a call that leaves the table alone. *)
Ltac skip := apply wlp_bind; eapply wlp_still; [solve [still]|
  let a := fresh "a" in let s := fresh "st" in let H := fresh "HT" in intros a s H; rewrite <- ?H in *; clear H].

Section ops.
Variables (kend trampoline forkret_pc : Z).

Lemma still_proc_pagetable i : still (proc_pagetable kend trampoline i).
Proof. unfold proc_pagetable; still. Qed.
Lemma still_proc_freepagetable pt sz : still (proc_freepagetable kend pt sz).
Proof. unfold proc_freepagetable; still. Qed.
#[local] Hint Resolve still_proc_pagetable still_proc_freepagetable : still.

Lemma freeproc_table i s a pid (Q : unit -> kst -> Prop) :
  (table_of s).1 !! i = Some (a, pid) ->
  (forall s', table_of s' = (<[i := (UNUSED, 0)]> (table_of s).1, (table_of s).2) -> Q tt s') -> wlp (freeproc kend i) Q s.
Proof.
  intros Hi HQ; unfold freeproc; apply wlp_bind, wlp_pget; do 5 skip.
  apply wlp_bind; eapply (wlp_slot i _ _ a pid a 0); [exact Hi|by intros p <- _|intros s1 H1]; do 5 skip.
  apply wlp_bind; eapply (wlp_slot i _ _ a 0 UNUSED 0); [rewrite H1; apply list_lookup_insert_eq; by eapply lookup_lt_Some|by intros p _ <-|intros s2 H2].
  rewrite H1 in H2; cbn [fst snd] in H2; rewrite list_insert_insert_eq in H2.
  skip; eapply wlp_still; [solve [still]|intros [] s3 H3]; apply HQ; congruence.
Qed.

Lemma find_unused_slot n i s :
  (i + n <= length (table_of s).1)%nat ->
  wlp (find_unused n i) (fun r s' => table_of s' = table_of s /\
    match r with Some k => exists pid, (table_of s).1 !! k = Some (UNUSED, pid) | None => True end) s.
Proof.
  revert i s; induction n as [|n IH]; intros i s Hl; cbn [find_unused]; [by apply wlp_ret|].
  apply wlp_bind, wlp_acquire, wlp_bind, wlp_pget; case_decide as Hu.
  - apply wlp_ret; split; [done|]; eexists; rewrite (slot_get_proc i s) by lia; by rewrite Hu.
  - apply wlp_bind, wlp_release, IH; lia.
Qed.

Lemma set_pid_slot i pid s a old :
  (table_of s).1 !! i = Some (a, old) -> (table_of (upd_proc i (set_pid pid) s)) = (<[i := (a, pid)]> (table_of s).1, (table_of s).2).
Proof.
  intros Hi; rewrite (table_upd i (set_pid pid) (fun x => (x.1, pid))) by done; by rewrite (alter_known _ _ _ _ Hi).
Qed.
Lemma set_state_slot i st s a pid :
  (table_of s).1 !! i = Some (a, pid) -> (table_of (upd_proc i (set_state st) s)) = (<[i := (st, pid)]> (table_of s).1, (table_of s).2).
Proof.
  intros Hi; rewrite (table_upd i (set_state st) (fun x => (st, x.2))) by done; by rewrite (alter_known _ _ _ _ Hi).
Qed.

(** A slot taken with a new pid, as allocproc and allocthread begin. *)
Lemma take_slot {A} (k : nat -> M kst A) (none : M kst A) s Q :
  length (table_of s).1 = 64%nat ->
  (forall s', table_of s' = table_of s -> wlp none Q s') ->
  (forall i pid s', (table_of s).1 !! i = Some (UNUSED, pid) -> table_of s' = (<[i := (USED, (table_of s).2)]> (table_of s).1, i32 ((table_of s).2 + 1)) ->
     wlp (k i) Q s') ->
  wlp (let* r := find_unused (Z.to_nat NPROC) 0 in
       match r with
       | None => none
       | Some i => let* pid := allocpid in pmod i (set_pid pid) ;;; pmod i (set_state USED) ;;; k i
       end) Q s.
Proof.
  intros Hlen Hn Hk; apply wlp_bind; eapply wlp_mono; [apply find_unused_slot; rewrite Hlen; change (Z.to_nat NPROC) with 64%nat; lia|].
  intros [i|] s1 [H1 Hi]; [|by apply Hn]; destruct Hi as [pid Hi]; unfold allocpid.
  apply wlp_bind, wlp_bind, wlp_acquire, wlp_bind, wlp_get, wlp_bind, wlp_kmod, wlp_bind, wlp_release, wlp_ret.
  apply wlp_bind, wlp_pmod, wlp_bind, wlp_pmod, (Hk i pid); [done|]; rewrite <- H1 in *; clear H1 Hlen Hk Hn.
  set (s2 := Kst _ _ _ _ _ _); assert (H2 : table_of s2 = ((table_of s1).1, i32 (nextpid s1 + 1))) by done.
  assert (H3 : table_of (upd_proc i (set_pid (nextpid s1)) s2) = (<[i := (UNUSED, nextpid s1)]> (table_of s1).1, i32 (nextpid s1 + 1))).
  { rewrite (set_pid_slot i _ s2 UNUSED pid) by (by rewrite H2); by rewrite H2. }
  rewrite (set_state_slot i USED _ UNUSED (nextpid s1)); rewrite H3; cbn [fst snd]; [by rewrite list_insert_insert_eq|].
  apply list_lookup_insert_eq; by eapply lookup_lt_Some.
Qed.

(** ** The functions *)

#[local] Abbreviation steps := (rtc pstep).

Lemma undo_alloc_steps i s t :
  steps t (table_of s) -> (exists pid, (table_of s).1 !! i = Some (USED, pid)) -> wlp (undo_alloc kend i) (fun r s' => r = None /\ steps t (table_of s')) s.
Proof.
  intros Ht [pid Hi]; unfold undo_alloc; apply wlp_bind; eapply freeproc_table; [exact Hi|intros s1 H1].
  apply wlp_bind, wlp_release, wlp_ret; split; [done|]; rewrite H1; destruct (table_of s) as [l n]; eapply rtc_r; [exact Ht|].
  apply (ps_free l n i USED pid Hi); by right.
Qed.

(** What allocproc and allocthread leave: a new process with its pid, or
    nothing new. *)
Definition allocated (s : kst) (r : option nat) (s' : kst) : Prop :=
  match r with
  | None => steps (table_of s) (table_of s')
  | Some i => exists pid, (table_of s).1 !! i = Some (UNUSED, pid) /\
      table_of s' = (<[i := (USED, (table_of s).2)]> (table_of s).1, i32 ((table_of s).2 + 1))
  end.

Lemma alloc_step l n i pid : l !! i = Some (UNUSED, pid) -> 0 < n < 2 ^ 31 - 1 -> steps (l, n) (<[i := (USED, n)]> l, i32 (n + 1)).
Proof. intros Hi Hn; rewrite i32_small by lia; by eapply rtc_once, ps_alloc. Qed.

(** A table with room for another pid. *)
Definition fresh_pid (s : kst) : Prop := length (table_of s).1 = 64%nat /\ 0 < (table_of s).2 < 2 ^ 31 - 1.

Lemma allocproc_steps s : fresh_pid s -> wlp (allocproc kend trampoline forkret_pc) (allocated s) s.
Proof.
  intros [Hlen Hn]; apply take_slot; [done|intros s1 H1; apply wlp_ret; cbn; by rewrite H1|]; intros i pid s1 Hi H1.
  assert (Hst : steps (table_of s) (table_of s1)) by (rewrite H1; destruct (table_of s); by eapply alloc_step).
  assert (Hu : exists p, (table_of s1).1 !! i = Some (USED, p)) by (rewrite H1; eexists; apply list_lookup_insert_eq; by eapply lookup_lt_Some).
  assert (Hundo : forall s', table_of s' = table_of s1 -> wlp (undo_alloc kend i) (allocated s) s').
  { intros s' H'; eapply wlp_mono; [apply (undo_alloc_steps i s' (table_of s)); by rewrite H'|]; by intros r s2 [-> H2]. }
  skip; skip; case_match; [by apply Hundo|]; skip; skip; case_match; [by apply Hundo|]; skip; skip; apply wlp_ret; exists pid; done.
Qed.

Lemma still_with_cwd {A} o (k : nat -> M kst A) : (forall ip, still (k ip)) -> still (with_cwd o k).
Proof. intros Hk; unfold with_cwd; destruct o; [apply Hk|apply still_stuck]. Qed.
#[local] Hint Extern 1 (still (with_cwd _ _)) => apply still_with_cwd; intros ? : still.

Lemma allocthread_steps parent s : fresh_pid s -> wlp (allocthread kend forkret_pc parent) (allocated s) s.
Proof.
  intros [Hlen Hn]; apply take_slot; [done|intros s1 H1; apply wlp_ret; cbn; by rewrite H1|]; intros i pid s1 Hi H1.
  assert (Hst : steps (table_of s) (table_of s1)) by (rewrite H1; destruct (table_of s); by eapply alloc_step).
  assert (Hu : exists p, (table_of s1).1 !! i = Some (USED, p)) by (rewrite H1; eexists; apply list_lookup_insert_eq; by eapply lookup_lt_Some).
  assert (Hundo : forall s', table_of s' = table_of s1 -> wlp (undo_alloc kend i) (allocated s) s').
  { intros s' H'; eapply wlp_mono; [apply (undo_alloc_steps i s' (table_of s)); by rewrite H'|]; by intros r s2 [-> H2]. }
  do 3 skip; case_match; [by apply Hundo|]; do 2 skip; case_match; [by apply Hundo|]; do 8 skip; apply wlp_ret; exists pid; done.
Qed.

Lemma still_dup_files l fd np : still (dup_files l fd np).
Proof. revert fd; induction l as [|o l IH]; intros fd; cbn [dup_files]; still. Qed.
Lemma still_growproc me n : still (growproc kend me n).
Proof. unfold growproc; still. Qed.
Lemma still_setkilled i : still (setkilled i).
Proof. unfold setkilled; still. Qed.
Lemma still_killed i : still (killed i).
Proof. unfold killed; still. Qed.
Lemma still_handle_signals me : still (handle_signals me).
Proof. unfold handle_signals, tf_set; still. Qed.
Lemma still_sigint_default_handler me : still (sigint_default_handler me).
Proof. unfold sigint_default_handler; still. Qed.
Lemma still_procdump : still procdump.
Proof.
  unfold procdump; apply still_bind; [still|intros _]; generalize (Z.to_nat NPROC) as n, 0%nat as i; induction n as [|n IH]; intros i; cbn [procdump_loop]; still.
Qed.
Lemma still_tf_copy a b : still (tf_copy a b).
Proof. unfold tf_copy; still. Qed.
Lemma still_tf_set a b v : still (tf_set a b v).
Proof. unfold tf_set; still. Qed.
#[local] Hint Resolve still_dup_files still_tf_copy still_tf_set still_killed : still.

(** From USED to RUNNABLE, as fork, userinit and thread_create end. *)
Lemma make_runnable np s t pid (Q : unit -> kst -> Prop) :
  steps t (table_of s) -> (table_of s).1 !! np = Some (USED, pid) ->
  (forall s', steps t (table_of s') -> Q tt s') -> wlp (pmod np (set_state RUNNABLE)) Q s.
Proof.
  intros Ht Hi HQ; apply wlp_pmod, HQ; rewrite (set_state_slot np RUNNABLE s USED pid Hi); destruct (table_of s) as [l n].
  eapply rtc_r; [exact Ht|]; by apply (ps_move l n np USED RUNNABLE pid).
Qed.

Lemma allocated_used s i s' : fresh_pid s -> allocated s (Some i) s' ->
  steps (table_of s) (table_of s') /\ (table_of s').1 !! i = Some (USED, (table_of s).2).
Proof.
  intros [_ Hn] (pid & Hi & ->); destruct (table_of s) as [l n]; split; [by eapply alloc_step|]; cbn; apply list_lookup_insert_eq; by eapply lookup_lt_Some.
Qed.

(** [freeproc(np); release(&np->lock); return v;] of a new process. *)
Lemma give_back {A} np s t pid (v : A) :
  steps t (table_of s) -> (table_of s).1 !! np = Some (USED, pid) ->
  wlp (freeproc kend np ;;; release (O_proc np) ;;; kret v) (fun _ s' => steps t (table_of s')) s.
Proof.
  intros Ht Hi; apply wlp_bind; eapply freeproc_table; [exact Hi|intros s1 H1]; apply wlp_bind, wlp_release, wlp_ret; rewrite H1.
  destruct (table_of s) as [l n]; eapply rtc_r; [exact Ht|]; apply (ps_free l n np USED pid Hi); by right.
Qed.

Lemma fork_steps me s : fresh_pid s ->
  wlp (fork kend trampoline forkret_pc me) (fun _ s' => steps (table_of s) (table_of s')) s.
Proof.
  intros Hlen; unfold fork; apply wlp_bind; eapply wlp_mono; [by apply allocproc_steps|]; intros [np|] s1 H1; [|by apply wlp_ret].
  apply allocated_used in H1 as [Ht Hi]; [|done]; do 3 skip; case_match; [by eapply give_back|]; do 11 skip.
  apply wlp_bind; eapply make_runnable; [exact Ht|exact Hi|intros s2 H2]; apply wlp_bind, wlp_release, wlp_ret; done.
Qed.

Lemma userinit_steps s : fresh_pid s ->
  wlp (userinit kend trampoline forkret_pc) (fun _ s' => steps (table_of s) (table_of s')) s.
Proof.
  intros Hlen; unfold userinit; apply wlp_bind; eapply wlp_mono; [by apply allocproc_steps|]; intros [np|] s1 H1; [|skip; apply wlp_stuck].
  apply allocated_used in H1 as [Ht Hi]; [|done]; do 9 skip.
  apply wlp_bind; eapply make_runnable; [exact Ht|exact Hi|intros s2 H2]; apply wlp_release; done.
Qed.

Lemma thread_create_steps me fn arg stack s : fresh_pid s ->
  wlp (thread_create kend forkret_pc me fn arg stack) (fun _ s' => steps (table_of s) (table_of s')) s.
Proof.
  intros Hlen; unfold thread_create; case_match; [by apply wlp_ret|]; apply wlp_bind; eapply wlp_mono; [by apply allocthread_steps|].
  intros [np|] s1 H1; [|by apply wlp_ret]; apply allocated_used in H1 as [Ht Hi]; [|done]; skip; case_match; [by eapply give_back|]; do 5 skip.
  apply wlp_bind; eapply make_runnable; [exact Ht|exact Hi|intros s2 H2]; apply wlp_bind, wlp_release, wlp_ret; done.
Qed.

(** A process in use is in the table. *)
Lemma used_slot i s a : p_state (get_proc i s) = a -> a <> UNUSED -> (table_of s).1 !! i = Some (a, p_pid (get_proc i s)).
Proof.
  intros <- Ha; apply slot_get_proc; unfold table_of, get_proc in *; cbn [fst]; rewrite length_fmap.
  destruct (procs s !! i) eqn:E; [by eapply lookup_lt_Some|done].
Qed.

Lemma move_slot i s b a pid : (table_of s).1 !! i = Some (a, pid) -> edge a b = true ->
  steps (table_of s) (table_of (upd_proc i (set_state b) s)).
Proof.
  intros Hi He; rewrite (set_state_slot i b s a pid Hi); destruct (table_of s); by eapply rtc_once, ps_move.
Qed.
Lemma move_other i j s b : i <> j -> (table_of (upd_proc i (set_state b) s)).1 !! j = (table_of s).1 !! j.
Proof. intros Hne; rewrite (table_upd i (set_state b) (fun x => (b, x.2))) by done; cbn [fst]; by rewrite list_lookup_alter_ne. Qed.

(** Steps that leave the slot of [me] alone. *)
Definition around (me : nat) (s s' : kst) : Prop :=
  steps (table_of s) (table_of s') /\ (table_of s').1 !! me = (table_of s).1 !! me.
Lemma around_refl me s : around me s s.
Proof. by split. Qed.
Lemma around_trans me s1 s2 s3 : around me s1 s2 -> around me s2 s3 -> around me s1 s3.
Proof. intros [A1 A2] [B1 B2]; split; [by etrans|congruence]. Qed.
Lemma around_same me s s' : table_of s' = table_of s -> around me s s'.
Proof. unfold around; by intros ->. Qed.

Lemma wakeup_loop_around me n i chan s : wlp (wakeup_loop me n i chan) (fun _ s' => around me s s') s.
Proof.
  revert i s; induction n as [|n IH]; intros i s; cbn [wakeup_loop]; [apply wlp_ret, around_refl|]; apply wlp_bind.
  enough (Hone : wlp (if decide (i = me) then kret tt else acquire (O_proc i) ;;; let* p := pget i in
    (if decide (p_state p = SLEEPING /\ p_chan p = chan) then pmod i (set_state RUNNABLE) else kret tt) ;;; release (O_proc i)) (fun _ s' => around me s s') s).
  { eapply wlp_mono; [exact Hone|]; intros [] s1 H1; eapply wlp_mono; [apply IH|]; intros [] s2 H2; by eapply around_trans. }
  case_decide as Hme; [apply wlp_ret, around_refl|]; apply wlp_bind, wlp_acquire, wlp_bind, wlp_pget, wlp_bind.
  case_decide as Hs; [|apply wlp_ret, wlp_release, around_refl]; destruct Hs as [Hs _]; apply wlp_pmod, wlp_release.
  split; [by apply (move_slot i s RUNNABLE SLEEPING _ (used_slot i s _ Hs ltac:(done)))|by apply move_other].
Qed.

Lemma reparent_loop_around me n i p s : wlp (reparent_loop me n i p) (fun _ s' => around me s s') s.
Proof.
  revert i s; induction n as [|n IH]; intros i s; cbn [reparent_loop]; [apply wlp_ret, around_refl|]; apply wlp_bind, wlp_get, wlp_bind.
  case_decide.
  - apply wlp_bind; eapply wlp_still; [still|intros [] s1 H1]; eapply wlp_mono; [apply wakeup_loop_around|]; intros [] s2 H2.
    eapply wlp_mono; [apply IH|]; intros [] s3 H3; eapply around_trans; [by apply around_same|]; by eapply around_trans.
  - apply wlp_ret; eapply wlp_mono; [apply IH|]; done.
Qed.

Lemma still_close_files me n fd : still (close_files kend me n fd).
Proof. revert fd; induction n as [|n IH]; intros fd; cbn [close_files]; still. Qed.
#[local] Hint Resolve still_close_files : still.

(** The running process gives up the CPU. *)
Definition running (me : nat) (s : kst) : Prop := exists pid, (table_of s).1 !! me = Some (RUNNING, pid).

Lemma leave_run {A} me b (k : M kst A) s t Q :
  steps t (table_of s) -> running me s -> edge RUNNING b = true ->
  (forall s', steps t (table_of s') -> wlp k Q s') -> wlp (pmod me (set_state b) ;;; k) Q s.
Proof.
  intros Ht [pid Hi] He HQ; apply wlp_bind, wlp_pmod, HQ; etrans; [exact Ht|]; by eapply move_slot.
Qed.

Lemma yield_steps me s : running me s -> wlp (yield me) (fun _ s' => steps (table_of s) (table_of s')) s.
Proof.
  intros Hr; unfold yield; apply wlp_bind, wlp_acquire; eapply leave_run; [done|done|done|]; intros s1 H1.
  eapply wlp_still; [still|]; intros [] s2 ->; done.
Qed.
Lemma sleep_enter_steps me chan lk s : running me s -> wlp (sleep_enter me chan lk) (fun _ s' => steps (table_of s) (table_of s')) s.
Proof.
  intros [pid Hr]; unfold sleep_enter; do 3 skip; eapply leave_run; [reflexivity|by exists pid|done|]; intros s1 H1.
  eapply wlp_still; [still|]; intros [] s2 ->; done.
Qed.
Lemma still_sleep_back me lk : still (sleep_back me lk).
Proof. unfold sleep_back; still. Qed.

Lemma exit_steps me status s : running me s -> wlp (exit kend me status) (fun _ s' => steps (table_of s) (table_of s')) s.
Proof.
  intros [pid Hr]; unfold exit; apply wlp_bind, wlp_get; case_decide; [apply wlp_panic|].
  do 7 skip; apply wlp_bind; eapply wlp_mono; [apply reparent_loop_around|]; intros [] s1 [A1 A2].
  apply wlp_bind, wlp_pget, wlp_bind; eapply wlp_mono; [apply wakeup_loop_around|]; intros [] s2 [B1 B2]; do 2 skip.
  eapply leave_run; [etrans; [exact A1|exact B1]|exists pid; congruence|done|]; intros s3 H3; skip.
  eapply wlp_still; [still|]; intros [] s4 ->; done.
Qed.

(** ** wait, kill and thread_join *)

(** [freeproc] of a zombie. *)
Lemma reap i s (Q : unit -> kst -> Prop) :
  p_state (get_proc i s) = ZOMBIE -> (forall s', steps (table_of s) (table_of s') -> Q tt s') -> wlp (freeproc kend i) Q s.
Proof.
  intros Hz HQ; pose proof (used_slot i s _ Hz ltac:(done)) as Hi; eapply freeproc_table; [exact Hi|intros s1 H1]; apply HQ; rewrite H1.
  destruct (table_of s) as [l n]; eapply rtc_once, ps_free; [exact Hi|by left].
Qed.

(** The physical memory changes, the processes do not. *)
Lemma wlp_kmem {A} (m : M pmem A) (Q : A -> kst -> Prop) s : (forall a s', procs s' = procs s -> nextpid s' = nextpid s -> Q a s') -> wlp (zoom kmem_of m) Q s.
Proof. intros HQ c; unfold zoom; destruct (m c (lget kmem_of s)); [by apply HQ|done..]. Qed.

Lemma wait_scan_steps me n i addr kids s : wlp (wait_scan kend me n i addr kids) (fun _ s' => steps (table_of s) (table_of s')) s.
Proof.
  revert i kids s; induction n as [|n IH]; intros i kids s; cbn [wait_scan]; [by apply wlp_ret|].
  apply wlp_bind, wlp_get; case_decide; [|apply IH]; apply wlp_bind, wlp_acquire, wlp_bind, wlp_pget; case_decide as Hz; [|apply wlp_bind, wlp_release, IH].
  apply wlp_bind; assert (Hcopy : forall r s', procs s' = procs s -> nextpid s' = nextpid s ->
    wlp (if r <? 0 then release (O_proc i) ;;; release O_wait ;;; kret (inl (-1))
         else freeproc kend i ;;; release (O_proc i) ;;; release O_wait ;;; kret (inl (p_pid (get_proc i s)))) (fun (_ : Z + bool) s' => steps (table_of s) (table_of s')) s').
  { intros r s' Hp Hn; assert (Ht : table_of s' = table_of s) by (unfold table_of; by rewrite Hp, Hn); rewrite <- Ht.
    case_match; [apply wlp_bind, wlp_release, wlp_bind, wlp_release, wlp_ret; done|].
    apply wlp_bind, reap; [unfold get_proc in *; by rewrite Hp|]; intros s2 H2; apply wlp_bind, wlp_release, wlp_bind, wlp_release, wlp_ret; done. }
  case_match; [by apply wlp_kmem|by apply wlp_ret, Hcopy].
Qed.

Lemma wait_seg_steps me addr s : wlp (wait_seg kend me addr) (fun _ s' => steps (table_of s) (table_of s')) s.
Proof.
  unfold wait_seg; apply wlp_bind, wlp_acquire, wlp_bind; eapply wlp_mono; [apply wait_scan_steps|]; intros [pid|kids] s1 H1; [by apply wlp_ret|].
  apply wlp_bind; eapply wlp_still; [still|intros k s2 H2]; rewrite <- H2 in H1; case_match; [by apply wlp_bind, wlp_release, wlp_ret|].
  intros c; unfold sleep_at, sleep; repeat case_decide; [|done..]; unfold kbind, release; by case_decide.
Qed.

Lemma kill_loop_steps n i pid s : wlp (kill_loop n i pid) (fun _ s' => steps (table_of s) (table_of s')) s.
Proof.
  revert i; induction n as [|n IH]; intros i; cbn [kill_loop]; [by apply wlp_ret|]; apply wlp_bind, wlp_acquire, wlp_bind, wlp_pget.
  case_match; [|apply wlp_bind, wlp_release, IH]; pose proof (used_slot i s SLEEPING) as Hu; revert Hu.
  generalize (get_proc i s) as p; intros p Hu; skip; apply wlp_bind; case_decide as Hs; [|by apply wlp_ret, wlp_bind, wlp_release, wlp_ret].
  apply wlp_pmod, wlp_bind, wlp_release, wlp_ret; eapply move_slot; [by apply Hu|done].
Qed.

Lemma thread_join_loop_steps me n i retval s : wlp (thread_join_loop kend me n i retval) (fun _ s' => steps (table_of s) (table_of s')) s.
Proof.
  revert i; induction n as [|n IH]; intros i; cbn [thread_join_loop]; [by apply wlp_ret|]; apply wlp_bind, wlp_pget; case_decide; [|apply IH].
  apply wlp_bind, wlp_acquire, wlp_bind, wlp_pget; case_decide as Hz; [|apply wlp_bind, wlp_release, IH]; apply wlp_bind, wlp_pget, wlp_bind.
  assert (Hcopy : forall r s', procs s' = procs s -> nextpid s' = nextpid s ->
    wlp (if r <? 0 then release (O_proc i) ;;; kret (-1) else freeproc kend i ;;; release (O_proc i) ;;; let* pp := pget i in kret (p_pid pp))
      (fun (_ : Z) s' => steps (table_of s) (table_of s')) s').
  { intros r s' Hp Hn; assert (Ht : table_of s' = table_of s) by (unfold table_of; by rewrite Hp, Hn); rewrite <- Ht.
    case_match; [by apply wlp_bind, wlp_release, wlp_ret|].
    apply wlp_bind, reap; [unfold get_proc in *; by rewrite Hp|]; intros s2 H2; apply wlp_bind, wlp_release, wlp_bind, wlp_pget, wlp_ret; done. }
  case_match; [by apply wlp_kmem|by apply wlp_ret, Hcopy].
Qed.

Lemma scheduler_turn_steps i s : wlp (scheduler_turn i) (fun _ s' => steps (table_of s) (table_of s')) s.
Proof.
  unfold scheduler_turn; apply wlp_bind, wlp_acquire, wlp_bind, wlp_pget; case_decide as Hs; [|by apply wlp_bind, wlp_release, wlp_ret].
  apply wlp_bind, wlp_pmod, wlp_ret; eapply move_slot; [by apply used_slot|done].
Qed.
End ops.

(** ** Sequences of calls *)

Inductive pcall : Type :=
| Userinit
| Fork
| ThreadCreate (fn arg stack : Z)
| Growproc (n : Z)
| Yield
| SleepEnter (chan lk : kobj)
| SleepBack (lk : kobj)
| Wakeup (chan : option kobj)
| SchedulerTurn (i : nat)
| ExitCall (status : Z)
| WaitSeg (addr : Z)
| KillCall (pid : Z)
| ThreadJoin (retval : Z)
| Setkilled (i : nat)
| HandleSignals
| Procdump.

Section calls.
Variables (kend trampoline forkret_pc : Z).

Definition do_call (me : nat) (call : pcall) : M kst unit :=
  match call with
  | Userinit => userinit kend trampoline forkret_pc
  | Fork => fork kend trampoline forkret_pc me ;;; kret tt
  | ThreadCreate fn arg stack => thread_create kend forkret_pc me fn arg stack ;;; kret tt
  | Growproc n => growproc kend me n ;;; kret tt
  | Yield => yield me
  | SleepEnter chan lk => sleep_enter me chan lk
  | SleepBack lk => sleep_back me lk
  | Wakeup chan => wakeup_procs me chan
  | SchedulerTurn i => scheduler_turn i ;;; kret tt
  | ExitCall status => exit kend me status
  | WaitSeg addr => wait_seg kend me addr ;;; kret tt
  | KillCall pid => kill pid ;;; kret tt
  | ThreadJoin retval => thread_join kend me retval ;;; kret tt
  | Setkilled i => setkilled i
  | HandleSignals => handle_signals me
  | Procdump => procdump
  end.

(** The calls that a process makes to give up the CPU. *)
Definition gives_up (call : pcall) : bool := match call with Yield | SleepEnter _ _ | ExitCall _ => true | _ => false end.

Lemma steps_then {A} (m : M kst A) s :
  wlp m (fun _ s' => rtc pstep (table_of s) (table_of s')) s -> wlp (m ;;; kret tt) (fun _ s' => rtc pstep (table_of s) (table_of s')) s.
Proof. intros H; apply wlp_bind; eapply wlp_mono; [exact H|]; intros a s' Hs; by apply wlp_ret. Qed.
Lemma still_steps {A} (m : M kst A) s : still m -> wlp m (fun _ s' => rtc pstep (table_of s) (table_of s')) s.
Proof. intros H; eapply wlp_still; [exact H|]; by intros a s' ->. Qed.

Lemma do_call_steps me call s :
  fresh_pid s -> (gives_up call = true -> running me s) ->
  wlp (do_call me call) (fun _ s' => rtc pstep (table_of s) (table_of s')) s.
Proof.
  intros Hlen Hr; destruct call; cbn [do_call]; try apply steps_then.
  - by apply userinit_steps.
  - by apply fork_steps.
  - by apply thread_create_steps.
  - apply still_steps, still_growproc.
  - by apply yield_steps, Hr.
  - by apply sleep_enter_steps, Hr.
  - apply still_steps, still_sleep_back.
  - eapply wlp_mono; [apply wakeup_loop_around|]; by intros [] s' [H _].
  - apply scheduler_turn_steps.
  - by apply exit_steps, Hr.
  - apply wait_seg_steps.
  - apply kill_loop_steps.
  - apply thread_join_loop_steps.
  - apply still_steps, still_setkilled.
  - apply still_steps, still_handle_signals.
  - apply still_steps, still_procdump.
Qed.

(** Calls that return, one after the other, each from any CPU with any locks,
    and between them other parts of the kernel, which touch neither a state
    nor a pid.  Pids have not run out: nextpid is an int. *)
Inductive calls : kst -> kst -> Prop :=
| calls_nil s : calls s s
| calls_other s s1 s2 : table_of s1 = table_of s -> calls s1 s2 -> calls s s2
| calls_call s me call c c' s1 s2 :
    (gives_up call = true -> running me s) -> nextpid s < 2 ^ 31 - 1 ->
    do_call me call c s = Ret tt c' s1 -> calls s1 s2 -> calls s s2.

Lemma table_ok_steps t t' : rtc pstep t t' -> table_ok t -> table_ok t' /\ length t'.1 = length t.1.
Proof.
  induction 1 as [t|t t1 t2 H1 H2 IH]; intros Ht; [done|]; destruct IH as [IH1 IH2]; [by eapply table_ok_step|].
  split; [done|]; by rewrite IH2, (pstep_length t t1).
Qed.

Lemma calls_steps s s' : calls s s' -> table_ok (table_of s) -> length (table_of s).1 = 64%nat -> rtc pstep (table_of s) (table_of s').
Proof.
  induction 1 as [s|s s1 s2 H1 H2 IH|s me call c c' s1 s2 Hr Hn Hc Hs IH]; intros Hok Hlen; [done|rewrite H1 in IH; by apply IH|].
  assert (Hst : rtc pstep (table_of s) (table_of s1)).
  { assert (Hf : fresh_pid s) by (split; [done|]; pose proof (to_next _ Hok); change (table_of s).2 with (nextpid s) in *; lia).
    pose proof (do_call_steps me call s Hf Hr c) as Hd; by rewrite Hc in Hd. }
  destruct (table_ok_steps _ _ Hst Hok) as [Hok1 Hlen1]; etrans; [exact Hst|]; apply IH; [done|congruence].
Qed.

(** The table at boot: proc is a zeroed array and nextpid is 1. *)
Lemma boot_table s : procs s = procinit (replicate 64 proc0) -> nextpid s = 1 -> table_of s = (replicate 64 (UNUSED, 0), 1).
Proof. intros Hp Hn; unfold table_of; rewrite Hp, Hn; done. Qed.
Lemma boot_ok : table_ok (replicate 64 (UNUSED, 0), 1).
Proof.
  constructor; cbn [fst snd]; [done|..]; intros *; intros [E _]%lookup_replicate; simplify_eq; [done|done|]; intros [E' _]%lookup_replicate; by simplify_eq.
Qed.

(** C19: from the table procinit leaves, whatever calls return one after the
    other while pids last, the table of states and pids changes only by the steps of the state
    diagram: a slot becomes USED with the next pid, a process moves along an
    edge of the diagram, a zombie or a process that could not be completed is
    freed.  So at every moment the unused slots have pid 0, and the processes
    have pids that are positive, below nextpid and all different. *)
Theorem process_table_ok (s s' : kst) :
  procs s = procinit (replicate 64 proc0) -> nextpid s = 1 -> calls s s' ->
  rtc pstep (table_of s) (table_of s') /\ table_ok (table_of s').
Proof.
  intros Hp Hn Hc; pose proof (boot_table s Hp Hn) as Hb.
  assert (Hst : rtc pstep (table_of s) (table_of s')) by (apply calls_steps; [done|rewrite Hb; apply boot_ok|by rewrite Hb]).
  split; [done|]; eapply table_ok_steps; [exact Hst|rewrite Hb; apply boot_ok].
Qed.
End calls.

(** ** Witness: the life of the first process

    userinit makes it, it is scheduled, sleeps, is woken by an interrupt,
    scheduled again and killed. *)

(** Twelve free pages from 0x87000000 on, each holding the address of the next. *)
Definition demo_free : mem := fun a =>
  let k := (a - 0x87000000) / 4096 in
  if (0 <=? k) && (k <? 11) && (a mod 4096 <? 8) then (0x87000000 + (k + 1) * 4096) / 256 ^ (a mod 4096) mod 256 else 0.
Definition demo_boot : kst :=
  Kst (procinit (replicate 64 proc0)) 1 None 0 []
      (FileSt fileinit (fun _ => pipe_init []) (FsSt demo_sb (itable demo_fs) (lgs demo_fs) (PMem demo_free 0x87000000))).

Definition demo_calls : list (nat * pcall * kctx) :=
  [(0%nat, Userinit, Ctx [] []); (0%nat, SchedulerTurn 0, Ctx [] []); (0%nat, SleepEnter O_log O_log, Ctx [O_log] []);
   (1%nat, Wakeup (Some O_log), Ctx [] []); (0%nat, SchedulerTurn 0, Ctx [] []); (1%nat, KillCall 1, Ctx [] [])].

Definition run_call (k : nat * pcall * kctx) (s : kst) : option kst :=
  let '(me, call, c) := k in
  if (negb (gives_up call) || (if (table_of s).1 !! me is Some (RUNNING, _) then true else false)) && (nextpid s <? 2 ^ 31 - 1) then
    match do_call KERNBASE 0 0 me call c s with Ret _ _ s' => Some s' | _ => None end
  else None.

Lemma run_calls ks : forall s s', foldl (fun o k => o ≫= run_call k) (Some s) ks = Some s' -> calls KERNBASE 0 0 s s'.
Proof.
  induction ks as [|[[me call] c] ks IH]; intros s s'; cbn [foldl]; [intros [= ->]; constructor|].
  destruct (Some s ≫= run_call (me, call, c)) as [s1|] eqn:E1; [|intros H; exfalso; revert H; clear; induction ks as [|k ks IH]; [done|exact IH]].
  intros Hr; cbn [mbind option_bind run_call] in E1; destruct (_ && _) eqn:Eg in E1; [|done]; apply andb_prop in Eg as [Eg En].
  destruct (do_call _ _ _ me call c s) as [[] c' s2| | |] eqn:Ed; try done; injection E1 as ->.
  eapply calls_call; [|lia|exact Ed|by apply IH]; intros Hg; rewrite Hg in Eg; unfold running.
  destruct ((table_of s).1 !! me) as [[[] pid]|]; try done; by exists pid.
Qed.

Lemma process_table_ok_witness :
  exists s', calls KERNBASE 0 0 demo_boot s' /\ table_of s' = ((RUNNING, 1) :: replicate 63 (UNUSED, 0), 2) /\
    rtc pstep (table_of demo_boot) (table_of s') /\ table_ok (table_of s').
Proof.
  assert (Ht : table_of <$> foldl (fun o k => o ≫= run_call k) (Some demo_boot) demo_calls =
    Some ((RUNNING, 1) :: replicate 63 (UNUSED, 0), 2)) by (vm_compute; reflexivity).
  destruct (foldl _ _ demo_calls) as [s'|] eqn:E; [|discriminate Ht].
  exists s'; pose proof (run_calls _ _ _ E) as Hc; split; [exact Hc|].
  split; [by apply (inj Some)|exact (process_table_ok KERNBASE 0 0 demo_boot s' eq_refl eq_refl Hc)].
Defined.

(** ** Properties of kernel/proc.c

    What kill does to the process table, and what the callers of thread_join
    can learn from it. *)

(** ** kill *)

Definition hit (p : proc) : proc :=
  if decide (p_state p = SLEEPING) then set_state RUNNABLE (set_killed 1 p) else set_killed 1 p.

Lemma upd_proc_twice i f g s : upd_proc i g (upd_proc i f s) = upd_proc i (fun p => g (f p)) s.
Proof.
  unfold upd_proc; cbn; f_equal; apply list_eq; intros j; destruct (decide (i = j)) as [<-|Hne].
  - rewrite !list_lookup_alter_eq; by destruct (procs s !! i).
  - by rewrite !list_lookup_alter_ne.
Qed.

Lemma upd_proc_ext i f g s p : procs s !! i = Some p -> f p = g p -> upd_proc i f s = upd_proc i g s.
Proof.
  intros Hp Hfg; unfold upd_proc; f_equal; apply list_eq; intros j; destruct (decide (i = j)) as [<-|Hne].
  - by rewrite !list_lookup_alter_eq, Hp; cbn; rewrite Hfg.
  - by rewrite !list_lookup_alter_ne.
Qed.

(** The first process from slot [i] on with the given pid. *)
Fixpoint with_pid (pid : Z) (l : list proc) (i : nat) : option nat :=
  match l with
  | [] => None
  | p :: l' => if p_pid p =? pid then Some i else with_pid pid l' (S i)
  end.

Lemma kill_loop_spec pid n : forall i c s,
  length (drop i (procs s)) = n ->
  (forall k, O_proc k ∉ held c) ->
  kill_loop n i pid c s =
  match with_pid pid (drop i (procs s)) i with
  | Some k => Ret 0 c (upd_proc k hit s)
  | None => Ret (-1) c s
  end.
Proof.
  induction n as [|n IH]; intros i c s Hl Hc; cbn [kill_loop].
  { by destruct (drop i (procs s)). }
  destruct (drop i (procs s)) as [|p l] eqn:E; [done|]; cbn [with_pid].
  assert (Hp : procs s !! i = Some p).
  { by rewrite <- (Nat.add_0_r i), <- lookup_drop, E. }
  assert (Hd : drop (S i) (procs s) = l) by (rewrite (drop_S _ _ _ Hp) in E; by injection E).
  assert (Hg : pget i (push_lock (O_proc i) c) s = Ret p (push_lock (O_proc i) c) s).
  { unfold pget, kbind, kget, kret, get_proc; by rewrite Hp. }
  rewrite (kbind_run _ _ _ _ _ _ _ (acquire_run (O_proc i) c s (Hc i))), (kbind_run _ _ _ _ _ _ _ Hg).
  destruct (Z.eqb_spec (p_pid p) pid) as [Hpid|Hpid].
  - rewrite (kbind_run (pmod i (set_killed 1)) _ _ s tt (push_lock (O_proc i) c) (upd_proc i (set_killed 1) s) eq_refl).
    assert (Hb : (if decide (p_state p = SLEEPING) then pmod i (set_state RUNNABLE) else kret tt)
      (push_lock (O_proc i) c) (upd_proc i (set_killed 1) s) = Ret tt (push_lock (O_proc i) c) (upd_proc i hit s)).
    { destruct (decide (p_state p = SLEEPING)) as [Hs|Hs].
      - unfold pmod, kmod; rewrite upd_proc_twice; f_equal; apply (upd_proc_ext i _ _ s p Hp); unfold hit; by rewrite decide_True.
      - unfold kret; f_equal; apply (upd_proc_ext i _ _ s p Hp); unfold hit; by rewrite decide_False. }
    by rewrite (kbind_run _ _ _ _ _ _ _ Hb), (kbind_run _ _ _ _ _ _ _ (release_run (O_proc i) c _)).
  - rewrite (kbind_run _ _ _ _ _ _ _ (release_run (O_proc i) c s)), (IH (S i)), Hd; [done| |done].
    rewrite Hd; cbn in Hl; lia.
Qed.

(** [kill] acts on the first process with the given pid, and on no other:
    it marks it as killed and makes it RUNNABLE if it was asleep, and returns
    0; with no such process it returns -1 and changes nothing.  No lock is
    kept. *)
Theorem kill_correct (pid : Z) (c : kctx) (s : kst) :
  length (procs s) = Z.to_nat NPROC -> (forall k, O_proc k ∉ held c) ->
  kill pid c s =
  match with_pid pid (procs s) 0 with
  | Some k => Ret 0 c (upd_proc k hit s)
  | None => Ret (-1) c s
  end.
Proof. intros Hl Hc; unfold kill; by rewrite kill_loop_spec by (done || by rewrite drop_0). Qed.

(** A table with a sleeping process 7 in slot 1. *)
Definition killing : kst :=
  Kst (proc0 :: set_state SLEEPING (set_pid 7 proc0) :: replicate 62 proc0) 8 None 0 []
    (FileSt fileinit (fun _ => pipe_init []) demo_fs).

Lemma kill_correct_witness : exists s', kill 7 (Ctx [] []) killing = Ret 0 (Ctx [] []) s' /\
  p_state (get_proc 1 s') = RUNNABLE /\ p_killed (get_proc 1 s') = 1.
Proof.
  rewrite (kill_correct 7 (Ctx [] []) killing); [|reflexivity|intros k; apply not_elem_of_nil].
  eexists; split; [reflexivity|]; split; reflexivity.
Defined.

(** An unused slot has pid 0: [kill(0)] succeeds and marks the first one, which
    is the slot the next fork takes. *)
Lemma kill_unused (c : kctx) (s : kst) p l :
  length (procs s) = Z.to_nat NPROC -> (forall k, O_proc k ∉ held c) -> procs s = p :: l -> p_pid p = 0 -> p_state p = UNUSED ->
  exists s', kill 0 c s = Ret 0 c s' /\ p_killed (get_proc 0 s') = 1 /\ p_state (get_proc 0 s') = UNUSED.
Proof.
  intros Hl Hc Hp H0 Hst; unfold kill; rewrite kill_loop_spec by (done || by rewrite drop_0).
  rewrite drop_0, Hp; cbn [with_pid]; rewrite H0, Z.eqb_refl; eexists; split; [done|].
  unfold get_proc, upd_proc; cbn [procs]; rewrite Hp; cbn; unfold hit; rewrite decide_False by (by rewrite Hst); done.
Qed.

(** ** thread_join *)

Lemma kbind_inv {S A B} (m : M S A) (k : A -> M S B) c s b c' s' :
  (let* x := m in k x) c s = Ret b c' s' -> exists a c1 s1, m c s = Ret a c1 s1 /\ k a c1 s1 = Ret b c' s'.
Proof. unfold kbind; destruct (m c s); try done; eauto. Qed.

Ltac kinv H :=
  apply kbind_inv in H; let a := fresh "a" in let c := fresh "c" in let s := fresh "s" in let E := fresh "E" in
  destruct H as (a & c & s & E & H).

Definition pid_of (i : nat) (s : kst) : Z := p_pid (get_proc i s).

Lemma pmod_pid i f c s r c' s' :
  (forall p, p_pid (f p) = p_pid p) -> pmod i f c s = Ret r c' s' -> pid_of i s' = pid_of i s.
Proof.
  intros Hf H; inversion H; subst; unfold pid_of, get_proc, upd_proc; cbn; rewrite list_lookup_alter_eq.
  destruct (procs s !! i); cbn; [apply Hf|done].
Qed.

Lemma zoom_mem_pid {A} (m : M pmem A) i c s r c' s' : zoom kmem_of m c s = Ret r c' s' -> pid_of i s' = pid_of i s.
Proof. unfold zoom; destruct (m c (lget kmem_of s)); try done; intros H; by inversion H. Qed.

(** [freeproc] clears the pid. *)
Lemma freeproc_pid kend i c s r c' s' : freeproc kend i c s = Ret r c' s' -> pid_of i s' = 0.
Proof.
  unfold freeproc; intros H.
  repeat match goal with
    | H : (let* _ := _ in _) _ _ = Ret _ _ _ |- _ => kinv H
    end.
  repeat match goal with
    | H : pmod i (set_pid 0) _ ?s1 = Ret _ _ ?s2 |- _ =>
        assert (pid_of i s2 = 0) by (injection H as _ _ <-; unfold pid_of, get_proc, upd_proc; cbn;
          rewrite list_lookup_alter_eq; by destruct (procs s1 !! i)); clear H
    | H : pmod i _ _ _ = Ret _ _ _ |- _ => apply pmod_pid in H; [|done]
    | H : (if ?b then _ else _) _ _ = Ret _ _ _ |- _ => destruct b
    | H : (let* _ := _ in _) _ _ = Ret _ _ _ |- _ => kinv H
    | H : zoom kmem_of _ _ _ = Ret _ _ _ |- _ => apply (zoom_mem_pid _ i) in H
    | H : kret _ _ _ = Ret _ _ _ |- _ => injection H as _ _ <-
    end; congruence.
Qed.

(** A join that returns never names the thread: its result is 0, the pid that
    [freeproc] has just cleared, or -1. *)
Lemma thread_join_anonymous kend me retval n : forall i c s r c' s',
  thread_join_loop kend me n i retval c s = Ret r c' s' -> r = 0 \/ r = -1.
Proof.
  induction n as [|n IH]; intros i c s r c' s'; cbn [thread_join_loop]; [intros [= <- _ _]; auto|].
  intros (p & c1 & s1 & _ & H)%kbind_inv; destruct (decide _); [|by apply IH in H].
  apply kbind_inv in H as (? & c2 & s2 & _ & H); apply kbind_inv in H as (pp & c3 & s3 & _ & H).
  destruct (decide _); [|apply kbind_inv in H as (? & ? & ? & _ & H); by apply IH in H].
  apply kbind_inv in H as (q & c4 & s4 & _ & H); apply kbind_inv in H as (res & c5 & s5 & _ & H).
  destruct (res <? 0); [apply kbind_inv in H as (? & ? & ? & _ & H); injection H as <- _ _; auto|].
  apply kbind_inv in H as (? & c6 & s6 & Hf & H); apply freeproc_pid in Hf.
  apply kbind_inv in H as (? & c7 & s7 & Hr & H); apply kbind_inv in H as (y & c8 & s8 & Hg & H).
  injection H as <- _ _; unfold release in Hr; destruct (decide _); [injection Hr as _ _ <-|done].
  injection Hg as <- _ _; left; exact Hf.
Qed.
