(* ===== verification/Sched.v ===== *)
(** * Processes, CPUs and the scheduler

    The part of kernel/proc.c that is about concurrency, one shared access at
    a time: every CPU runs [scheduler], every process runs [yield], [sleep],
    [wakeup], [kill], [fork], [wait] and [exit] in any order, and the steps of
    all CPUs interleave.  A spin lock is its owner, by the theorems of
    Locks.v.  The control point of a process that is not running is the one
    its [context] would resume. *)

From stdpp Require Import functions.
From S2P Require Import Prelude Riscv Proc.

(** The lock that the callers of [sleep] and [wakeup] on a channel hold. *)
Definition chan_lock (ch : kobj) : kobj :=
  match ch with
  | O_proc _ => O_wait
  | O_buf _ | O_diskfree => O_vdisk
  | O_nread pa | O_nwrite pa => O_pipe pa
  | o => o
  end.

(** ** Control points *)

(** Where a process that holds no lock goes on. *)
Inductive resume : Type :=
| RUser                  (* anywhere outside the calls below *)
| RSleep (ch : kobj)     (* in sleep(), before acquire(lk) *)
| RFork (k : nat).       (* in fork(), between release(&np->lock) and acquire(&np->lock) *)

Inductive pc : Type :=
| Free (r : resume)
| Forkret                       (* entered from the scheduler with p->lock *)
| YieldL (r : resume)           (* acquire(&p->lock) done *)
| YieldS (r : resume)           (* p->state = RUNNABLE done: at swtch *)
| YieldB (r : resume)           (* after swtch *)
| Crit (l : kobj)               (* in a critical section of l *)
| SlpL (ch : kobj)              (* sleep: acquire(&p->lock) done *)
| SlpR (ch : kobj)              (* release(lk) done *)
| SlpC (ch : kobj)              (* p->chan = chan done *)
| SlpS (ch : kobj)              (* p->state = SLEEPING done: at swtch *)
| SlpB (ch : kobj)              (* after swtch *)
| SlpZ (ch : kobj)              (* p->chan = 0 done *)
| Wake (ch : kobj) (k : nat)    (* wakeup: at process k *)
| WakeL (ch : kobj) (k : nat)   (* acquire(&p->lock) done *)
| WakeR (ch : kobj) (k : nat)   (* tested *)
| Woke (ch : kobj)              (* wakeup returns *)
| KillL (k : nat) | KillR (k : nat)
| AllocL (k : nat)              (* allocproc: acquire(&p->lock) done *)
| AllocR (k : nat)              (* before release(&p->lock) *)
| ForkL (k : nat)               (* allocproc returned process k *)
| ForkL2 (k : nat)              (* acquire(&np->lock) done *)
| ForkR (k : nat)               (* np->state = RUNNABLE done *)
| WaitL (k : nat) | WaitR (k : nat)
| ExitL                         (* exit: acquire(&p->lock) done *)
| ExitZ                         (* p->state = ZOMBIE done *)
| ExitR                         (* release(&wait_lock) done: at swtch *)
| Dead.

(** The scheduler of a CPU at process [i]: before acquire(&p->lock), before the
    test of p->state, switched to the process, before release(&p->lock). *)
Inductive cpc : Type :=
| Scan (i : nat) | Test (i : nat) | Run (i : nat) | Rel (i : nat).

Record cfg : Type := Cfg {
  st : nat -> procstate;          (* p->state *)
  ch : nat -> option kobj;        (* p->chan *)
  plk : nat -> option nat;        (* the CPU that holds p->lock *)
  klk : kobj -> option nat;       (* the CPU that holds another spin lock *)
  cpu : nat -> cpc;
  ppc : nat -> pc
}.

Definition set_st (i : nat) (v : procstate) (s : cfg) : cfg :=
  Cfg (<[i := v]> (st s)) (ch s) (plk s) (klk s) (cpu s) (ppc s).
Definition set_ch (i : nat) (v : option kobj) (s : cfg) : cfg :=
  Cfg (st s) (<[i := v]> (ch s)) (plk s) (klk s) (cpu s) (ppc s).
Definition set_plk (i : nat) (v : option nat) (s : cfg) : cfg :=
  Cfg (st s) (ch s) (<[i := v]> (plk s)) (klk s) (cpu s) (ppc s).
Definition set_klk (l : kobj) (v : option nat) (s : cfg) : cfg :=
  Cfg (st s) (ch s) (plk s) (<[l := v]> (klk s)) (cpu s) (ppc s).
Definition set_cpu (c : nat) (v : cpc) (s : cfg) : cfg :=
  Cfg (st s) (ch s) (plk s) (klk s) (<[c := v]> (cpu s)) (ppc s).
Definition set_pc (i : nat) (q : pc) (s : cfg) : cfg :=
  Cfg (st s) (ch s) (plk s) (klk s) (cpu s) (<[i := q]> (ppc s)).

(** ** Shared accesses *)

Inductive act : Type :=
| Nop
| AcqP (k : nat) | RelP (k : nat)                     (* a process's lock *)
| AcqK (l : kobj) | RelK (l : kobj)                   (* any other lock *)
| SetSt (k : nat) (v : procstate)
| SetCh (v : option kobj)
| Cas (k : nat) (h : option kobj) (v v' : procstate)  (* the state is v (and the channel h): set it *)
| Miss (k : nat) (h : option kobj) (v : procstate)    (* it is not *)
| Take (k : nat)                                      (* UNUSED: USED with a fresh context *)
| Swtch.
#[export] Instance act_eq_dec : EqDecision act.
Proof. solve_decision. Defined.

Definition matches (s : cfg) (k : nat) (h : option kobj) (v : procstate) : bool :=
  bool_decide (st s k = v) && match h with None => true | _ => bool_decide (ch s k = h) end.

(** What access [a] of process [i] running on CPU [c] does, when it can be done
    now. *)
Definition run_act (c i : nat) (a : act) (s : cfg) : option cfg :=
  match a with
  | Nop => Some s
  | AcqP k => match plk s k with None => Some (set_plk k (Some c) s) | Some _ => None end
  | RelP k => Some (set_plk k None s)
  | AcqK l => match klk s l with None => Some (set_klk l (Some c) s) | Some _ => None end
  | RelK l => Some (set_klk l None s)
  | SetSt k v => Some (set_st k v s)
  | SetCh v => Some (set_ch i v s)
  | Cas k h v v' => if matches s k h v then Some (set_st k v' s) else None
  | Miss k h v => if matches s k h v then None else Some s
  | Take k => if matches s k None UNUSED then Some (set_st k USED (set_pc k Forkret s)) else None
  | Swtch => Some (set_cpu c (Rel i) s)
  end.

Definition plain_lock (l : kobj) : bool := match l with O_proc _ => false | _ => true end.
Definition NP : nat := Z.to_nat NPROC.

(** ** The program of a process *)

Inductive pact (i : nat) : pc -> act -> pc -> Prop :=
(* critical sections and the timer's yield *)
| p_enter l : plain_lock l = true -> pact i (Free RUser) (AcqK l) (Crit l)
| p_leave l : pact i (Crit l) (RelK l) (Free RUser)
| p_yield r : pact i (Free r) (AcqP i) (YieldL r)
| p_yield_set r : pact i (YieldL r) (SetSt i RUNNABLE) (YieldS r)
| p_yield_sw r : pact i (YieldS r) Swtch (YieldB r)
| p_yield_rel r : pact i (YieldB r) (RelP i) (Free r)
| p_forkret : pact i Forkret (RelP i) (Free RUser)
(* sleep(ch, chan_lock ch) *)
| p_sleep h : pact i (Crit (chan_lock h)) (AcqP i) (SlpL h)
| p_sleep_rel h : pact i (SlpL h) (RelK (chan_lock h)) (SlpR h)
| p_sleep_chan h : pact i (SlpR h) (SetCh (Some h)) (SlpC h)
| p_sleep_state h : pact i (SlpC h) (SetSt i SLEEPING) (SlpS h)
| p_sleep_sw h : pact i (SlpS h) Swtch (SlpB h)
| p_sleep_tidy h : pact i (SlpB h) (SetCh None) (SlpZ h)
| p_sleep_unlock h : pact i (SlpZ h) (RelP i) (Free (RSleep h))
| p_sleep_back h : pact i (Free (RSleep h)) (AcqK (chan_lock h)) (Crit (chan_lock h))
(* wakeup(ch) *)
| p_wake h : pact i (Crit (chan_lock h)) Nop (Wake h 0)
| p_wake_self h : (i < NP)%nat -> pact i (Wake h i) Nop (Wake h (S i))
| p_wake_lock h k : (k < NP)%nat -> k <> i -> pact i (Wake h k) (AcqP k) (WakeL h k)
| p_wake_hit h k : pact i (WakeL h k) (Cas k (Some h) SLEEPING RUNNABLE) (WakeR h k)
| p_wake_miss h k : pact i (WakeL h k) (Miss k (Some h) SLEEPING) (WakeR h k)
| p_wake_rel h k : pact i (WakeR h k) (RelP k) (Wake h (S k))
| p_woke h k : (NP <= k)%nat -> pact i (Wake h k) Nop (Woke h)
| p_wake_ret h : pact i (Woke h) Nop (Crit (chan_lock h))
(* kill: one process of the table *)
| p_kill k : (k < NP)%nat -> pact i (Free RUser) (AcqP k) (KillL k)
| p_kill_hit k : pact i (KillL k) (Cas k None SLEEPING RUNNABLE) (KillR k)
| p_kill_miss k : pact i (KillL k) Nop (KillR k)
| p_kill_rel k : pact i (KillR k) (RelP k) (Free RUser)
(* allocproc and fork *)
| p_alloc k : (k < NP)%nat -> pact i (Free RUser) (AcqP k) (AllocL k)
| p_alloc_miss k : pact i (AllocL k) (Miss k None UNUSED) (AllocR k)
| p_alloc_rel k : pact i (AllocR k) (RelP k) (Free RUser)
| p_alloc_take k : pact i (AllocL k) (Take k) (ForkL k)
| p_fork_fail k : pact i (ForkL k) (Cas k None USED UNUSED) (AllocR k)
| p_fork_rel k : pact i (ForkL k) (RelP k) (Free (RFork k))
| p_fork_lock k : pact i (Free (RFork k)) (AcqP k) (ForkL2 k)
| p_fork_set k : pact i (ForkL2 k) (SetSt k RUNNABLE) (ForkR k)
| p_fork_ret k : pact i (ForkR k) (RelP k) (Free RUser)
(* wait: one process of the table; exit *)
| p_wait k : (k < NP)%nat -> k <> i -> pact i (Crit O_wait) (AcqP k) (WaitL k)
| p_wait_free k : pact i (WaitL k) (Cas k None ZOMBIE UNUSED) (WaitR k)
| p_wait_miss k : pact i (WaitL k) (Miss k None ZOMBIE) (WaitR k)
| p_wait_rel k : pact i (WaitR k) (RelP k) (Crit O_wait)
| p_exit : pact i (Crit O_wait) (AcqP i) ExitL
| p_exit_set : pact i ExitL (SetSt i ZOMBIE) ExitZ
| p_exit_rel : pact i ExitZ (RelK O_wait) ExitR
| p_exit_sw : pact i ExitR Swtch Dead.

Definition next_proc (i : nat) : nat := if (S i <? NP)%nat then S i else 0%nat.

(** One step of CPU [c]. *)
Inductive step (c : nat) : cfg -> cfg -> Prop :=
| s_lock s i :
    cpu s c = Scan i -> plk s i = None ->
    step c s (set_cpu c (Test i) (set_plk i (Some c) s))
| s_switch s i :
    (* p->state = RUNNING; c->proc = p; swtch(&c->context, &p->context); *)
    cpu s c = Test i -> st s i = RUNNABLE ->
    step c s (set_cpu c (Run i) (set_st i RUNNING s))
| s_skip s i :
    cpu s c = Test i -> st s i <> RUNNABLE -> step c s (set_cpu c (Rel i) s)
| s_unlock s i :
    cpu s c = Rel i -> step c s (set_cpu c (Scan (next_proc i)) (set_plk i None s))
| s_proc s s' i a q :
    cpu s c = Run i -> pact i (ppc s i) a q -> run_act c i a s = Some s' ->
    step c s (set_pc i q s').

(** After [userinit]: one RUNNABLE process, every CPU at the start of its
    scheduler. *)
Definition init : cfg :=
  Cfg (<[0%nat := RUNNABLE]> (fun _ => UNUSED)) (fun _ => None) (fun _ => None) (fun _ => None)
      (fun _ => Scan 0) (<[0%nat := Forkret]> (fun _ => Dead)).

Inductive reachable : cfg -> Prop :=
| reach_init : reachable init
| reach_step c s s' : reachable s -> step c s s' -> reachable s'.
