(* ===== verification/SchedOk.v ===== *)
(** * The scheduler never runs a process twice, wakeups are not lost

    The invariant of the machine of Sched.v and its preservation, one kind of
    shared access at a time. *)

From stdpp Require Import functions.
From S2P Require Import Prelude Riscv Proc Sched.

(** The process lock and the other lock that a process at a control point
    holds. *)
Definition hp (i : nat) (q : pc) : option nat :=
  match q with
  | Forkret | YieldL _ | YieldS _ | YieldB _ | SlpL _ | SlpR _ | SlpC _ | SlpS _ | SlpB _ | SlpZ _
  | ExitL | ExitZ | ExitR => Some i
  | WakeL _ k | WakeR _ k | KillL k | KillR k | AllocL k | AllocR k | ForkL k | ForkL2 k | ForkR k
  | WaitL k | WaitR k => Some k
  | _ => None
  end.
Definition hk (q : pc) : option kobj :=
  match q with
  | Crit l => Some l
  | SlpL h | Wake h _ | WakeL h _ | WakeR h _ | Woke h => Some (chan_lock h)
  | WaitL _ | WaitR _ | ExitL | ExitZ => Some O_wait
  | _ => None
  end.

(** What CPU [c] holds. *)
Definition holdp (s : cfg) (c : nat) : option nat :=
  match cpu s c with
  | Scan _ => None
  | Test i | Rel i => Some i
  | Run i => hp i (ppc s i)
  end.
Definition holdk (s : cfg) (c : nat) : option kobj :=
  match cpu s c with Run i => hk (ppc s i) | _ => None end.

(** The state of a running process, and of one that is not. *)
Definition run_st (q : pc) : procstate :=
  match q with
  | YieldS _ => RUNNABLE
  | SlpS _ => SLEEPING
  | ExitZ | ExitR => ZOMBIE
  | _ => RUNNING
  end.
Definition idle_ok (v : procstate) (q : pc) (h : option kobj) : Prop :=
  match v with
  | UNUSED => q = Dead \/ q = Forkret
  | USED => q = Forkret
  | SLEEPING => exists x, q = SlpB x /\ h = Some x
  | RUNNABLE => q = Forkret \/ (exists r, q = YieldB r) \/ (exists x, q = SlpB x)
  | RUNNING => False
  | ZOMBIE => q = Dead
  end.
Definition running (s : cfg) (i : nat) : Prop := exists c, cpu s c = Run i.

(** The process a fork has allocated and not yet made RUNNABLE. *)
Definition forking (q : pc) : option nat :=
  match q with
  | ForkL k | ForkL2 k | Free (RFork k) | YieldL (RFork k) | YieldS (RFork k) | YieldB (RFork k) => Some k
  | _ => None
  end.

(** Process [j] has given up the lock of [h] to sleep and is not yet woken. *)
Definition dozing (s : cfg) (j : nat) (h : kobj) : Prop :=
  match ppc s j with
  | SlpR x | SlpC x | SlpS x => x = h
  | SlpB x => x = h /\ st s j = SLEEPING
  | _ => False
  end.

(** The channel of a [wakeup] in progress and how many processes it has seen. *)
Definition waking (q : pc) : option (kobj * nat) :=
  match q with
  | Wake h k | WakeL h k => Some (h, k)
  | WakeR h k => Some (h, S k)
  | Woke h => Some (h, NP)
  | _ => None
  end.

Record inv (s : cfg) : Prop := Inv {
  i_plk : forall k c, plk s k = Some c <-> holdp s c = Some k;
  i_klk : forall l c, klk s l = Some c <-> holdk s c = Some l;
  i_run : forall c1 c2 i, cpu s c1 = Run i -> cpu s c2 = Run i -> c1 = c2;
  i_st : forall i, running s i -> st s i = run_st (ppc s i);
  i_idle : forall i, ~ running s i -> idle_ok (st s i) (ppc s i) (ch s i);
  i_chan : forall i h, ppc s i = SlpC h \/ ppc s i = SlpS h -> ch s i = Some h;
  i_fork : forall i k, forking (ppc s i) = Some k -> st s k = USED;
  i_fork1 : forall i j k, forking (ppc s i) = Some k -> forking (ppc s j) = Some k -> i = j;
  i_wake : forall i h k j, running s i -> waking (ppc s i) = Some (h, k) ->
    (j < k)%nat -> (j < NP)%nat -> ~ dozing s j h
}.

Ltac fn := repeat match goal with
  | H : context [<[?a := _]> _ ?b] |- _ => unfold insert, fn_insert in H
  | |- context [<[?a := _]> _ ?b] => unfold insert, fn_insert
  | H : context [decide (?a = ?b)] |- _ => destruct (decide (a = b)) as [?|?]; subst
  | |- context [decide (?a = ?b)] => destruct (decide (a = b)) as [?|?]; subst
  end.

Lemma sched_inv_init : inv init.
Proof.
  split; unfold init, running; cbn [st ch plk klk cpu ppc]; try done.
  - intros i [c [=]].
  - intros i _; fn; cbn; auto.
  - intros i h; fn; by intros [|].
  - intros i k; fn; done.
  - intros i j k; fn; done.
  - intros i h k j [c [=]].
Qed.

(** ** Facts of the program text *)

Lemma pact_locks i q a q' : pact i q a q' ->
  match a with
  | AcqP k => hp i q = None /\ hp i q' = Some k /\ hk q' = hk q
  | RelP k => hp i q = Some k /\ hp i q' = None /\ hk q' = hk q
  | AcqK l => hk q = None /\ hk q' = Some l /\ hp i q' = hp i q
  | RelK l => hk q = Some l /\ hk q' = None /\ hp i q' = hp i q
  | Swtch => hp i q = Some i /\ hk q = None
  | Take k => hp i q = Some k /\ hp i q' = Some k /\ hk q' = hk q
  | _ => hp i q' = hp i q /\ hk q' = hk q
  end.
Proof. by destruct 1. Qed.

(** A process changes the state of another one only under its lock. *)
Lemma pact_states i q a q' : pact i q a q' ->
  match a with
  | SetSt k v => (k = i /\ run_st q = RUNNING /\ run_st q' = v) \/
                 (forking q = Some k /\ v = RUNNABLE /\ run_st q = RUNNING /\ run_st q' = RUNNING)
  | Cas k h v v' => run_st q = RUNNING /\ run_st q' = RUNNING /\ hp i q = Some k /\
      (v = SLEEPING /\ v' = RUNNABLE \/ v = USED /\ v' = UNUSED /\ forking q = Some k \/ v = ZOMBIE /\ v' = UNUSED)
  | Swtch => idle_ok (run_st q) q' None \/ exists h, q = SlpS h /\ q' = SlpB h
  | _ => run_st q' = run_st q
  end.
Proof. destruct 1; cbn; naive_solver. Qed.

Lemma pact_chan i q a q' h : pact i q a q' ->
  q' = SlpC h \/ q' = SlpS h -> a = SetCh (Some h) \/ (q = SlpC h /\ a = SetSt i SLEEPING).
Proof. destruct 1; naive_solver. Qed.

Lemma pact_setch i q v q' : pact i q (SetCh v) q' ->
  run_st q = RUNNING /\ forall h, q' = SlpC h \/ q' = SlpS h -> v = Some h.
Proof. inversion 1; subst; naive_solver. Qed.

Lemma pact_forking i q a q' k : pact i q a q' -> forking q' = Some k ->
  a = Take k \/ (forking q = Some k /\ (forall v, a = SetSt k v -> k = i) /\ (forall h v v', a <> Cas k h v v')).
Proof. destruct 1; naive_solver. Qed.

Lemma pact_dozing i q a q' h : pact i q a q' -> a <> Swtch ->
  (q' = SlpR h -> q = SlpL h) /\ (q' = SlpC h -> q = SlpR h) /\ (q' = SlpS h -> q = SlpC h) /\ q' <> SlpB h.
Proof. destruct 1; naive_solver. Qed.

(** A [wakeup] moves on from a process that it has tested, or that is itself. *)
Lemma pact_waking i q a q' h k : pact i q a q' -> waking q' = Some (h, k) ->
  k = 0%nat \/
  (exists k0, waking q = Some (h, k0) /\ ((k <= k0)%nat \/ (NP <= k0)%nat \/ (k = S k0 /\ k0 = i))) \/
  (exists k0, k = S k0 /\ q = WakeL h k0 /\
    (a = Cas k0 (Some h) SLEEPING RUNNABLE \/ a = Miss k0 (Some h) SLEEPING)).
Proof.
  destruct 1; cbn; intros [=]; subst; auto; [right; left..|right; right|right; right|right; left|right; left];
    repeat eexists; auto; lia.
Qed.

(** ** Locks *)

Section inv_facts.
Variable s : cfg.
Hypothesis Hinv : inv s.

Lemma one_holder c1 c2 k : holdp s c1 = Some k -> holdp s c2 = Some k -> c1 = c2.
Proof using Hinv. rewrite <- !(i_plk _ Hinv); congruence. Qed.
Lemma one_kholder c1 c2 l : holdk s c1 = Some l -> holdk s c2 = Some l -> c1 = c2.
Proof using Hinv. rewrite <- !(i_klk _ Hinv); congruence. Qed.

(** A process whose lock CPU [c] holds is not running elsewhere, unless its
    state says so. *)
Lemma lock_idle c k :
  holdp s c = Some k -> st s k <> RUNNING -> cpu s c <> Run k -> ~ running s k.
Proof using Hinv.
  intros Hc Hst Hne [c' Hr]; pose proof (i_st _ Hinv k (ex_intro _ c' Hr)) as Heq.
  assert (holdp s c' = Some k) as Hk by (unfold holdp; rewrite Hr; by destruct (ppc s k)).
  by rewrite (one_holder _ _ _ Hc Hk) in Hne.
Qed.

Lemma used_idle k : st s k = USED \/ st s k = UNUSED -> ~ running s k.
Proof using Hinv.
  intros Hu Hr; pose proof (i_st _ Hinv k Hr) as Heq; destruct (ppc s k), Hu; cbn in *; congruence.
Qed.

(** Only the actor's own control point matters to what its CPU holds. *)
Lemma holdp_pc c i q c0 : cpu s c = Run i ->
  holdp (set_pc i q s) c0 = if decide (c0 = c) then hp i q else holdp s c0.
Proof using Hinv.
  intros Hc; unfold holdp; cbn [cpu ppc set_pc]; destruct (decide (c0 = c)) as [->|Hne].
  - rewrite Hc; by rewrite fn_lookup_insert.
  - destruct (cpu s c0) as [| |j|] eqn:Hc0; [done|done| |done].
    rewrite fn_lookup_insert_ne; [done|intros ->; by destruct Hne, (i_run _ Hinv _ _ _ Hc0 Hc)].
Qed.
Lemma holdk_pc c i q c0 : cpu s c = Run i ->
  holdk (set_pc i q s) c0 = if decide (c0 = c) then hk q else holdk s c0.
Proof using Hinv.
  intros Hc; unfold holdk; cbn [cpu ppc set_pc]; destruct (decide (c0 = c)) as [->|Hne].
  - rewrite Hc; by rewrite fn_lookup_insert.
  - destruct (cpu s c0) as [| |j|] eqn:Hc0; [done|done| |done].
    rewrite fn_lookup_insert_ne; [done|intros ->; by destruct Hne, (i_run _ Hinv _ _ _ Hc0 Hc)].
Qed.
End inv_facts.

(** ** A step of a process that stays on its CPU *)

Lemma matches_st s k h v : matches s k h v = true -> st s k = v.
Proof. unfold matches; rewrite andb_true_iff, bool_decide_eq_true; tauto. Qed.

Section act.
Variables (s s1 : cfg) (c i : nat) (a : act) (q' : pc).
Hypothesis Hinv : inv s.
Hypothesis Hc : cpu s c = Run i.
Hypothesis Hpact : pact i (ppc s i) a q'.
Hypothesis Hrun : run_act c i a s = Some s1.
Hypothesis Hstay : a <> Swtch.
#[local] Set Default Proof Using "Type*".
#[local] Abbreviation s' := (set_pc i q' s1).

Lemma act_running : running s i.
Proof using Hc. by exists c. Qed.

(** The parts a step changes, by the kind of access. *)
Lemma act_cpu : cpu s1 = cpu s.
Proof.
  destruct a; cbn in Hrun; repeat case_match; simplify_eq; done.
Qed.
Lemma act_ppc j : ppc s1 j = ppc s j \/ (a = Take j /\ ppc s1 j = Forkret /\ st s j = UNUSED).
Proof.
  destruct a; cbn in Hrun; repeat case_match; simplify_eq; auto; cbn.
  destruct (decide (j = k)) as [->|]; [right|left; by rewrite fn_lookup_insert_ne].
  rewrite fn_lookup_insert; split_and!; eauto using matches_st.
Qed.
Lemma act_take j : a = Take j -> ppc s1 j = Forkret.
Proof.
  intros ->; cbn in Hrun; case_match; simplify_eq; cbn; by rewrite fn_lookup_insert.
Qed.
Lemma act_ppc_running j : running s j -> ppc s1 j = ppc s j.
Proof.
  intros Hr; destruct (act_ppc j) as [|(_ & _ & Hu)]; [done|].
  by destruct (used_idle s Hinv j (or_intror Hu)).
Qed.
Lemma act_st j : st s1 j =
  match a with
  | SetSt k v => if decide (j = k) then v else st s j
  | Cas k _ _ v' => if decide (j = k) then v' else st s j
  | Take k => if decide (j = k) then USED else st s j
  | _ => st s j
  end.
Proof.
  destruct a; cbn in Hrun; repeat case_match; simplify_eq; auto; cbn; fn; done.
Qed.
Lemma act_guard :
  match a with
  | Cas k h v _ => st s k = v /\ (h <> None -> ch s k = h)
  | Miss k (Some h) v => ~ (st s k = v /\ ch s k = Some h)
  | Take k => st s k = UNUSED
  | _ => True
  end.
Proof.
  destruct a; cbn in Hrun; repeat case_match; simplify_eq; auto; eauto using matches_st.
  - split; [eauto using matches_st|]; intros ?; unfold matches in *.
    destruct h; [|done]; by apply andb_prop in H as [_ ?%bool_decide_eq_true].
  - unfold matches in *; intros [Hs Hh]; by rewrite !bool_decide_eq_true_2 in *.
Qed.
Lemma act_ch j : ch s1 j = match a with SetCh v => if decide (j = i) then v else ch s j | _ => ch s j end.
Proof. destruct a; cbn in Hrun; repeat case_match; simplify_eq; auto; cbn; fn; done. Qed.

Lemma act_running_iff j : running s' j <-> running s j.
Proof. unfold running; cbn [cpu set_pc]; by rewrite act_cpu. Qed.

Lemma act_holdp c0 : holdp s' c0 = if decide (c0 = c) then hp i q' else holdp s c0.
Proof.
  rewrite <- (holdp_pc s Hinv c i q' c0 Hc); unfold holdp; cbn [cpu ppc set_pc].
  rewrite act_cpu; destruct (cpu s c0) as [| |j|] eqn:Hj; try done.
  unfold insert, fn_insert; case_decide; [done|]; by rewrite act_ppc_running by (by exists c0).
Qed.
Lemma act_holdk c0 : holdk s' c0 = if decide (c0 = c) then hk q' else holdk s c0.
Proof.
  rewrite <- (holdk_pc s Hinv c i q' c0 Hc); unfold holdk; cbn [cpu ppc set_pc].
  rewrite act_cpu; destruct (cpu s c0) as [| |j|] eqn:Hj; try done.
  unfold insert, fn_insert; case_decide; [done|]; by rewrite act_ppc_running by (by exists c0).
Qed.

Lemma my_holdp : holdp s c = hp i (ppc s i).
Proof using Hc. unfold holdp; by rewrite Hc. Qed.
Lemma my_holdk : holdk s c = hk (ppc s i).
Proof using Hc. unfold holdk; by rewrite Hc. Qed.

Lemma act_plk k c0 : plk s' k = Some c0 <-> holdp s' c0 = Some k.
Proof.
  pose proof (pact_locks _ _ _ _ Hpact) as Hl; pose proof my_holdp as Hm.
  pose proof (i_plk s Hinv) as Hp; rewrite act_holdp; cbn [plk set_pc].
  destruct a; cbn in Hrun; repeat case_match; simplify_eq; cbn [plk set_plk set_klk set_st set_ch set_pc];
    destruct_and?; fn; rewrite ?Hp; try (intuition congruence);
    try (pose proof (Hp k c); pose proof (Hp k c0); intuition congruence).
  split; intros Hk; [congruence|].
  rewrite H0 in Hm; apply Hp in Hm, Hk; congruence.
Qed.
Lemma act_klk l c0 : klk s' l = Some c0 <-> holdk s' c0 = Some l.
Proof.
  pose proof (pact_locks _ _ _ _ Hpact) as Hl; pose proof my_holdk as Hm.
  pose proof (i_klk s Hinv) as Hp; rewrite act_holdk; cbn [klk set_pc].
  destruct a; cbn in Hrun; repeat case_match; simplify_eq; cbn [klk set_plk set_klk set_st set_ch set_pc];
    destruct_and?; fn; rewrite ?Hp; try (intuition congruence);
    try (pose proof (Hp l c); pose proof (Hp l c0); intuition congruence).
  split; intros Hk; [congruence|].
  rewrite H0 in Hm; apply Hp in Hm, Hk; congruence.
Qed.


(** The actor keeps the state its control point has. *)
Lemma act_my_st : st s1 i = run_st q'.
Proof.
  pose proof (pact_states _ _ _ _ Hpact) as Hs; pose proof (i_st s Hinv i act_running) as Hi.
  pose proof act_guard as Hg; rewrite act_st; destruct a; try congruence; case_decide; subst.
  - destruct Hs as [(_ & _ & <-)|(Hf & -> & Hq & Hq')]; [done|].
    pose proof (i_fork s Hinv _ _ Hf); congruence.
  - destruct Hs as [(-> & _)|(_ & _ & Hq & Hq')]; congruence.
  - destruct Hg; destruct_and!; naive_solver congruence.
  - destruct_and!; congruence.
  - rewrite Hi in Hg; by destruct (ppc s k).
  - congruence.
Qed.

(** Another process changes state only when it is not running. *)
Lemma act_other_st j : j <> i -> st s1 j <> st s j -> ~ running s j.
Proof.
  intros Hj Hd; pose proof (pact_states _ _ _ _ Hpact) as Hs; pose proof act_guard as Hg.
  rewrite act_st in Hd; destruct a; try done; case_decide; try done; subst.
  - destruct Hs as [(-> & _)|(Hf & _)]; [done|]; apply (used_idle s Hinv); left; by apply (i_fork s Hinv i).
  - destruct Hs as (Hq & _ & Hp & Hv); apply (lock_idle s Hinv c).
    + by rewrite my_holdp.
    + naive_solver congruence.
    + congruence.
  - apply (used_idle s Hinv); auto.
Qed.

Lemma act_states : (forall j, running s' j -> st s' j = run_st (ppc s' j)).
Proof.
  intros j Hr%act_running_iff; cbn [st ppc set_pc]; destruct (decide (j = i)) as [->|Hj].
  - rewrite fn_lookup_insert; apply act_my_st.
  - rewrite fn_lookup_insert_ne, act_ppc_running by done; rewrite <- (i_st s Hinv) by done.
    destruct (decide (st s1 j = st s j)) as [|Hd]; [done|]; by destruct (act_other_st j Hj Hd).
Qed.

Lemma act_idle j : ~ running s' j -> idle_ok (st s' j) (ppc s' j) (ch s' j).
Proof.
  rewrite act_running_iff; intros Hr; assert (j <> i) as Hj by (intros ->; apply Hr, act_running).
  pose proof (i_idle s Hinv j Hr) as Hi; pose proof act_guard as Hg.
  pose proof (pact_states _ _ _ _ Hpact) as Hs; cbn [st ppc ch set_pc]; rewrite fn_lookup_insert_ne by done.
  assert (ch s1 j = ch s j) as -> by (rewrite act_ch; destruct a; try done; by rewrite decide_False by done).
  destruct (act_ppc j) as [Hp|(Ha & -> & Hu)]; [|by rewrite act_st, Ha, decide_True].
  pose proof (act_take j) as Ht; rewrite Hp, act_st; destruct a; try done; case_decide; try done; subst.
  - destruct Hs as [(-> & _)|(Hf & -> & _)]; [done|].
    rewrite (i_fork s Hinv _ _ Hf) in Hi; cbn in *; auto.
  - destruct Hs as (_ & _ & _ & Hv), Hg as [Hg _]; rewrite Hg in Hi.
    destruct Hv as [[-> ->]|[(-> & -> & _)|[-> ->]]]; cbn in *; destruct_and?; auto.
    destruct Hi as (x & -> & _); eauto.
  - by rewrite <- Hp, Ht.
Qed.

Lemma act_chan j h : ppc s' j = SlpC h \/ ppc s' j = SlpS h -> ch s' j = Some h.
Proof.
  cbn [ppc ch set_pc]; rewrite act_ch; destruct (decide (j = i)) as [->|Hj].
  - rewrite fn_lookup_insert; intros Hq; pose proof (pact_chan _ _ _ _ h Hpact Hq) as Ha.
    destruct Ha as [->|[Hq' ->]]; [done|]; apply (i_chan s Hinv); auto.
  - rewrite fn_lookup_insert_ne by done; destruct (act_ppc j) as [->|(_ & -> & _)]; [|by intros [|]].
    intros Hq; rewrite (i_chan s Hinv j h Hq); by destruct a.
Qed.

(** Nobody forks into a process that is UNUSED. *)
Lemma act_forking j k : forking (ppc s' j) = Some k ->
  (j = i /\ a = Take k /\ st s k = UNUSED) \/
  (forking (ppc s j) = Some k /\ (j = i -> (forall h v v', a <> Cas k h v v'))).
Proof.
  cbn [ppc set_pc]; destruct (decide (j = i)) as [->|Hj].
  - rewrite fn_lookup_insert; intros Hf; pose proof act_guard as Hg.
    destruct (pact_forking _ _ _ _ _ Hpact Hf) as [->|(Hq & _ & Hn)]; auto.
  - rewrite fn_lookup_insert_ne by done; destruct (act_ppc j) as [->|(_ & -> & _)]; [|done]; auto.
Qed.
Lemma act_fork1 j1 j2 k : forking (ppc s' j1) = Some k -> forking (ppc s' j2) = Some k -> j1 = j2.
Proof.
  intros [(-> & _ & Hu)|[H1 _]]%act_forking [(-> & _ & Hu')|[H2 _]]%act_forking; try done.
  - pose proof (i_fork s Hinv _ _ H2); congruence.
  - pose proof (i_fork s Hinv _ _ H1); congruence.
  - by apply (i_fork1 s Hinv _ _ k).
Qed.
Lemma act_fork j k : forking (ppc s' j) = Some k -> st s' k = USED.
Proof.
  intros Hf0; pose proof Hf0 as Hf; apply act_forking in Hf as [(-> & Ha & Hu)|[Hf Hn]].
  - cbn [st set_pc]; rewrite act_st, Ha; by rewrite decide_True by done.
  - pose proof (i_fork s Hinv _ _ Hf) as Hst; cbn [st set_pc]; rewrite act_st.
    pose proof (pact_states _ _ _ _ Hpact) as Hs; pose proof act_guard as Hg.
    destruct a; try done; case_decide; try done; subst k0.
    + destruct Hs as [(-> & Hq & _)|(Hk & -> & _)].
      * pose proof (i_st s Hinv i act_running); congruence.
      * rewrite (i_fork1 s Hinv _ _ _ Hf Hk) in Hf0; cbn [ppc set_pc] in Hf0; rewrite fn_lookup_insert in Hf0.
        destruct (pact_forking _ _ _ _ _ Hpact Hf0) as [?|(_ & He & _)]; [done|].
        specialize (He _ eq_refl) as ->; destruct (used_idle s Hinv i (or_introl Hst)); by exists c.
    + destruct Hg as [Hg _], Hs as (_ & _ & _ & [[-> _]|[(-> & _ & Hk)|[-> _]]]); [congruence| |congruence].
      rewrite (i_fork1 s Hinv _ _ _ Hf Hk) in Hn; by destruct (Hn eq_refl h USED v').
Qed.

Lemma act_dozing j h : dozing s' j h -> dozing s j h \/ (j = i /\ ppc s i = SlpL h).
Proof.
  unfold dozing; cbn [ppc st set_pc]; destruct (decide (j = i)) as [->|Hj].
  - rewrite fn_lookup_insert; intros Hd; destruct (pact_dozing _ _ _ _ h Hpact Hstay) as (H1 & H2 & H3 & H4).
    destruct q'; try done; subst; rewrite ?H2, ?H3 by done; auto; by destruct Hd as [-> _].
  - rewrite fn_lookup_insert_ne by done; destruct (act_ppc j) as [->|(_ & -> & _)]; [|done].
    pose proof (pact_states _ _ _ _ Hpact) as Hs; intros Hd; left; destruct (ppc s j); try done.
    destruct Hd as [-> Hst]; split; [done|]; rewrite act_st in Hst.
    destruct a; try done; case_decide; try done; subst; naive_solver.
Qed.

(** The process that a [wakeup] has just tested is not dozing. *)
Lemma act_tested h k :
  ppc s i = WakeL h k -> (a = Cas k (Some h) SLEEPING RUNNABLE \/ a = Miss k (Some h) SLEEPING) ->
  ~ dozing s' k h.
Proof.
  intros Hq Ha Hd0; destruct (act_dozing k h Hd0) as [Hd|[_ ?]]; [|congruence].
  assert (k <> i) as Hk by (intros ->; unfold dozing in Hd; by rewrite Hq in Hd).
  assert (cpu s c <> Run k) as Hck by congruence.
  assert (Hlk : holdp s c = Some k) by (by rewrite my_holdp, Hq).
  assert (~ ~ running s k \/ (ppc s k = SlpB h /\ st s k = SLEEPING)) as [Hr|[Hp Hst]].
  { pose proof (i_idle s Hinv k) as Hi; unfold dozing in Hd; destruct (ppc s k); try done;
      [left..|right; by destruct Hd as [-> ?]]; intros Hn; specialize (Hi Hn); destruct (st s k); naive_solver. }
  - apply Hr; intros [c' Hc']; apply Hck; rewrite <- Hc'; f_equal; apply (one_holder s Hinv _ _ k Hlk).
    unfold dozing in Hd; unfold holdp; rewrite Hc'; destruct (ppc s k); try done.
  - pose proof (i_idle s Hinv k (lock_idle s Hinv c k Hlk ltac:(congruence) Hck)) as Hi.
    rewrite Hp, Hst in Hi; destruct Hi as (x & [= <-] & Hch).
    unfold dozing in Hd0; cbn [ppc st set_pc] in Hd0; rewrite fn_lookup_insert_ne in Hd0 by done.
    pose proof act_guard as Hg; pose proof (act_st k) as Hk'.
    destruct (act_ppc k) as [Hp'|(Ht & _)]; [|by destruct Ha; congruence].
    rewrite Hp', Hp in Hd0; destruct Ha as [Ha|Ha]; rewrite Ha in Hg, Hk'; [|by apply Hg].
    rewrite decide_True in Hk' by done; naive_solver congruence.
Qed.

Lemma act_wake i0 h k j : running s' i0 -> waking (ppc s' i0) = Some (h, k) ->
  (j < k)%nat -> (j < NP)%nat -> ~ dozing s' j h.
Proof.
  rewrite act_running_iff; cbn [ppc set_pc]; destruct (decide (i0 = i)) as [->|Hi0]; intros Hr Hw Hj HN Hd.
  - rewrite fn_lookup_insert in Hw.
    destruct (pact_waking _ _ _ _ _ _ Hpact Hw) as [->|[(k0 & Hk0 & Hle)|(k0 & -> & Hq & Ha)]]; [lia| |].
    + destruct (act_dozing j h Hd) as [Hd'|[-> Hl]]; [|by rewrite Hl in Hk0].
      destruct (decide (j < k0)%nat); [by apply (i_wake s Hinv i h k0 j)|].
      assert (j = i) as -> by lia; unfold dozing in Hd'; by destruct (ppc s i).
    + destruct (decide (j = k0)) as [->|]; [by apply (act_tested h k0)|].
      destruct (act_dozing j h Hd) as [Hd'|[-> Hl]]; [|congruence].
      apply (i_wake s Hinv i h k0 j); [done|by rewrite Hq|lia|done|done].
  - rewrite fn_lookup_insert_ne, act_ppc_running in Hw by done.
    destruct (act_dozing j h Hd) as [Hd'|[-> Hl]]; [by apply (i_wake s Hinv i0 h k j)|].
    destruct Hr as [c0 Hc0]; assert (c0 = c) as ->; [|congruence].
    apply (one_kholder s Hinv _ _ (chan_lock h)); [|by rewrite my_holdk, Hl].
    unfold holdk; rewrite Hc0; destruct (ppc s i0); cbn in *; naive_solver.
Qed.

Lemma act_inv : inv s'.
Proof.
  split; [apply act_plk|apply act_klk| |apply act_states|apply act_idle|apply act_chan|apply act_fork
         |apply act_fork1|apply act_wake].
  intros c1 c2 j; cbn [cpu set_pc]; rewrite act_cpu; apply (i_run s Hinv).
Qed.
End act.

(** ** A process gives up its CPU *)

Lemma pact_swtch i q q' : pact i q Swtch q' ->
  hp i q = Some i /\ hk q = None /\ run_st q <> RUNNING /\ forking q' = forking q /\ waking q' = None /\
  ((exists h, q = SlpS h /\ q' = SlpB h) \/ (forall h, idle_ok (run_st q) q' h /\ q' <> SlpB (default O_wait h))).
Proof. inversion 1; subst; cbn; split_and!; eauto; right; intros h; eauto. Qed.

Section swtch.
Variables (s : cfg) (c i : nat) (q' : pc).
Hypothesis Hinv : inv s.
Hypothesis Hc : cpu s c = Run i.
Hypothesis Hpact : pact i (ppc s i) Swtch q'.
#[local] Set Default Proof Using "Type*".
#[local] Abbreviation s' := (set_pc i q' (set_cpu c (Rel i) s)).

Lemma sw_running j : running s' j <-> running s j /\ j <> i.
Proof.
  unfold running; cbn [cpu set_pc set_cpu]; split.
  - intros [c0 H0]; fn; [done|]; split; [by exists c0|]; intros ->; by destruct n, (i_run s Hinv _ _ _ Hc H0).
  - intros [[c0 H0] Hj]; exists c0; fn; congruence.
Qed.

Lemma sw_hold c0 : holdp s' c0 = holdp s c0 /\ holdk s' c0 = holdk s c0.
Proof.
  destruct (pact_swtch _ _ _ Hpact) as (Hp & Hk & _).
  unfold holdp, holdk; cbn [cpu ppc set_pc set_cpu]; fn; [by rewrite Hc, Hp, Hk|].
  destruct (cpu s c0) as [| |j|] eqn:H0; auto; fn; auto; by destruct n, (i_run s Hinv _ _ _ Hc H0).
Qed.

Lemma sw_idle : idle_ok (st s i) q' (ch s i).
Proof.
  destruct (pact_swtch _ _ _ Hpact) as (_ & _ & _ & _ & _ & Hs).
  rewrite (i_st s Hinv i) by (by exists c); destruct Hs as [(h & Hq & ->)|Hs]; [|apply Hs].
  rewrite Hq; exists h; split; [done|]; apply (i_chan s Hinv); auto.
Qed.

Lemma sw_dozing j h : dozing s' j h -> dozing s j h.
Proof.
  unfold dozing; cbn [ppc st set_pc set_cpu]; destruct (decide (j = i)) as [->|]; [|by rewrite fn_lookup_insert_ne].
  rewrite fn_lookup_insert; destruct (pact_swtch _ _ _ Hpact) as (_ & _ & _ & _ & _ & [(x & -> & ->)|Hs]).
  - by intros [-> _].
  - intros Hd; destruct q'; try done; cbn in *; try (by destruct (Hs None) as [Hi _]; destruct (run_st (ppc s i)); naive_solver).
    destruct Hd as [-> _]; by destruct (Hs (Some h)) as [_ []].
Qed.

Lemma sw_forking j : forking (ppc s' j) = forking (ppc s j).
Proof.
  destruct (pact_swtch _ _ _ Hpact) as (_ & _ & _ & Hf & _); cbn [ppc set_pc set_cpu].
  destruct (decide (j = i)) as [->|]; [by rewrite fn_lookup_insert|by rewrite fn_lookup_insert_ne].
Qed.

Lemma sw_inv : inv s'.
Proof.
  split; intros *.
  - rewrite (proj1 (sw_hold _)); apply (i_plk s Hinv).
  - rewrite (proj2 (sw_hold _)); apply (i_klk s Hinv).
  - cbn [cpu set_pc set_cpu]; fn; try done; apply (i_run s Hinv).
  - intros [Hr Hj]%sw_running; cbn [st ppc set_pc set_cpu]; rewrite fn_lookup_insert_ne by done.
    by apply (i_st s Hinv).
  - intros Hr; cbn [st ppc ch set_pc set_cpu]; destruct (decide (i0 = i)) as [->|].
    + rewrite fn_lookup_insert; apply sw_idle.
    + rewrite fn_lookup_insert_ne by done; apply (i_idle s Hinv); intros ?; by apply Hr, sw_running.
  - cbn [ppc ch set_pc set_cpu]; destruct (decide (i0 = i)) as [->|].
    + rewrite fn_lookup_insert; intros Hq; pose proof (pact_chan _ _ _ _ h Hpact Hq); naive_solver.
    + rewrite fn_lookup_insert_ne by done; apply (i_chan s Hinv).
  - rewrite sw_forking; apply (i_fork s Hinv).
  - rewrite !sw_forking; apply (i_fork1 s Hinv).
  - intros [Hr Hi0]%sw_running; cbn [ppc set_pc set_cpu]; rewrite fn_lookup_insert_ne by done.
    intros Hw Hj HN Hd%sw_dozing; by apply (i_wake s Hinv i0 h k j).
Qed.
End swtch.

(** ** The scheduler *)

(** A step of [scheduler] that switches to no process: what CPU [c] holds
    changes as the lock does. *)
Lemma sched_inv s s' c :
  inv s -> st s' = st s -> ch s' = ch s -> klk s' = klk s -> ppc s' = ppc s ->
  (forall c0, c0 <> c -> cpu s' c0 = cpu s c0) -> (forall i, cpu s c <> Run i /\ cpu s' c <> Run i) ->
  (forall k c0, plk s' k = Some c0 <-> holdp s' c0 = Some k) ->
  inv s'.
Proof.
  intros Hinv Est Ech Ekl Epc Ecpu Hnr Hplk.
  assert (Hcpu : forall c0 i, cpu s' c0 = Run i <-> cpu s c0 = Run i).
  { intros c0 i; destruct (decide (c0 = c)) as [->|]; [|by rewrite Ecpu]; split; intros; by destruct (Hnr i). }
  assert (Hr : forall i, running s' i <-> running s i) by (intros i; unfold running; by setoid_rewrite Hcpu).
  split; intros *.
  - apply Hplk.
  - rewrite Ekl, (i_klk s Hinv); unfold holdk; rewrite Epc; destruct (decide (c0 = c)) as [->|]; [|by rewrite Ecpu].
    destruct (cpu s c) eqn:E1, (cpu s' c) eqn:E2; try done; by destruct (Hnr i) as [[] ?]; destruct (Hnr i0).
  - rewrite !Hcpu; apply (i_run s Hinv).
  - rewrite Hr, Est, Epc; apply (i_st s Hinv).
  - rewrite Hr, Est, Epc, Ech; apply (i_idle s Hinv).
  - rewrite Epc, Ech; apply (i_chan s Hinv).
  - rewrite Epc, Est; apply (i_fork s Hinv).
  - rewrite Epc; apply (i_fork1 s Hinv).
  - rewrite Hr, Epc; unfold dozing; rewrite Epc, Est; apply (i_wake s Hinv).
Qed.

(** The scheduler switches to a RUNNABLE process, which no CPU was running. *)
Lemma switch_inv s c i :
  inv s -> cpu s c = Test i -> st s i = RUNNABLE -> inv (set_cpu c (Run i) (set_st i RUNNING s)).
Proof.
  intros Hinv Hc Hst.
  assert (Hlk : holdp s c = Some i) by (unfold holdp; by rewrite Hc).
  assert (Hn : ~ running s i) by (apply (lock_idle s Hinv c); congruence).
  pose proof (i_idle s Hinv i Hn) as Hi; rewrite Hst in Hi; cbn in Hi.
  assert (Hq : hp i (ppc s i) = Some i /\ hk (ppc s i) = None /\ run_st (ppc s i) = RUNNING /\
    waking (ppc s i) = None) by (destruct Hi as [->|[[r ->]|[x ->]]]; done).
  destruct Hq as (Hp & Hk & Hrs & Hw).
  set (s' := set_cpu c (Run i) (set_st i RUNNING s)).
  assert (Hr : forall j, running s' j <-> running s j \/ j = i).
  { intros j; unfold running, s'; cbn [cpu set_cpu set_st]; split.
    - intros [c0 H0]; fn; [by simplify_eq; right|left; by exists c0].
    - intros [[c0 H0]| ->]; [exists c0; fn; [congruence|done]|exists c; by rewrite fn_lookup_insert]. }
  assert (Hh : forall c0, holdp s' c0 = holdp s c0 /\ holdk s' c0 = holdk s c0).
  { intros c0; unfold holdp, holdk, s'; cbn [cpu ppc set_cpu set_st]; fn; [by rewrite Hc, Hp, Hk|done]. }
  assert (Hd : forall j h, dozing s' j h -> dozing s j h).
  { intros j h; unfold dozing, s'; cbn [ppc st set_cpu set_st]; fn; [|done]; by destruct (ppc s j); intuition. }
  split; intros *.
  - rewrite (proj1 (Hh _)); apply (i_plk s Hinv).
  - rewrite (proj2 (Hh _)); apply (i_klk s Hinv).
  - unfold s'; cbn [cpu set_cpu set_st]; fn; auto; [| |apply (i_run s Hinv)].
    all: intros H1 H2; simplify_eq; destruct Hn; by eexists.
  - rewrite Hr; unfold s'; cbn [st ppc set_cpu set_st]; fn; [done|]; intros [?|]; [|done]; by apply (i_st s Hinv).
  - rewrite Hr; unfold s'; cbn [st ppc ch set_cpu set_st]; fn; [intros []; auto|]; intros ?; apply (i_idle s Hinv); auto.
  - apply (i_chan s Hinv).
  - intros Hf; pose proof (i_fork s Hinv _ _ Hf); unfold s'; cbn [st set_cpu set_st]; fn; congruence.
  - apply (i_fork1 s Hinv).
  - rewrite Hr; change (ppc s' i0) with (ppc s i0); intros [Hr0| ->]; [|by rewrite Hw].
    intros Hw0 Hj HN Hdz%Hd; by apply (i_wake s Hinv i0 h k j).
Qed.

Lemma step_inv c s s' : inv s -> step c s s' -> inv s'.
Proof.
  intros Hinv Hstep; destruct Hstep as [s i Hc Hl|s i Hc Hst|s i Hc Hst|s i Hc|s s1 i a q Hc Hpa Hrun].
  - eapply (sched_inv s _ c); try done; cbn [cpu plk set_cpu set_plk].
    + intros; by rewrite fn_lookup_insert_ne.
    + intros; by rewrite fn_lookup_insert, Hc.
    + intros k c0; pose proof (i_plk s Hinv k c0) as Hp; unfold holdp in *; cbn [cpu ppc set_cpu set_plk].
      fn; rewrite ?Hc in *; try naive_solver congruence.
  - by apply switch_inv.
  - eapply (sched_inv s _ c); try done; cbn [cpu plk set_cpu].
    + intros; by rewrite fn_lookup_insert_ne.
    + intros; by rewrite fn_lookup_insert, Hc.
    + intros k c0; rewrite (i_plk s Hinv k c0); unfold holdp; cbn [cpu ppc set_cpu]; fn; by rewrite ?Hc.
  - eapply (sched_inv s _ c); try done; cbn [cpu plk set_cpu set_plk].
    + intros; by rewrite fn_lookup_insert_ne.
    + intros; by rewrite fn_lookup_insert, Hc.
    + intros k c0; pose proof (i_plk s Hinv k c0) as Hp; pose proof (i_plk s Hinv i c) as Hi.
      unfold holdp in *; cbn [cpu ppc set_cpu set_plk]; fn; rewrite ?Hc in *; try naive_solver congruence.
  - destruct (decide (a = Swtch)) as [->|Hs]; [cbn in Hrun; simplify_eq; by apply sw_inv|].
    by eapply act_inv.
Qed.

Lemma reachable_inv s : reachable s -> inv s.
Proof. induction 1; [apply sched_inv_init|by eapply step_inv]. Qed.

(** ** Properties *)

(** C8: scheduling is safe in every interleaving of any number of CPUs.  No
    process runs on two CPUs; when a process switches to the scheduler the
    checks of [sched] pass (it holds its own lock and no other, and is not
    RUNNING); no process tries to acquire a lock its CPU holds or to release
    one it does not hold; and a process that [wait] frees is not running.  The
    check of [intr_get] and the enabling of interrupts are not modelled. *)
Theorem sched_safe s :
  reachable s ->
  (forall c1 c2 i, cpu s c1 = Run i -> cpu s c2 = Run i -> c1 = c2) /\
  (forall c i a q', cpu s c = Run i -> pact i (ppc s i) a q' ->
     match a with
     | Swtch => plk s i = Some c /\ (forall k, plk s k = Some c -> k = i) /\
                (forall l, klk s l <> Some c) /\ st s i <> RUNNING
     | AcqP k => plk s k <> Some c
     | RelP k => plk s k = Some c
     | AcqK l => klk s l <> Some c
     | RelK l => klk s l = Some c
     | _ => True
     end) /\
  (forall c i k, cpu s c = Run i -> ppc s i = WaitL k -> st s k = ZOMBIE -> ~ running s k).
Proof.
  intros Hinv%reachable_inv; split_and!; [apply (i_run s Hinv)| |].
  - intros c i a q' Hc Hpa; pose proof (pact_locks _ _ _ _ Hpa) as Hl.
    pose proof (my_holdp s c i Hc) as Hp; pose proof (my_holdk s c i Hc) as Hk.
    pose proof (i_plk s Hinv) as Ip; pose proof (i_klk s Hinv) as Ik.
    destruct a; try done; try (rewrite ?Ip, ?Ik; naive_solver congruence).
    destruct (pact_swtch _ _ _ Hpa) as (_ & _ & Hst & _), Hl as [Hl1 Hl2].
    split_and!; [rewrite Ip; congruence|intros k; rewrite Ip; congruence|intros l; rewrite Ik; congruence|].
    by rewrite (i_st s Hinv i) by (by exists c).
  - intros c i k Hc Hq Hz; apply (lock_idle s Hinv c); [by rewrite (my_holdp s c i Hc), Hq|congruence|].
    rewrite Hc; intros [= ->]; rewrite (i_st s Hinv k) in Hz by (by exists c); by rewrite Hq in Hz.
Qed.

(** C7: no wakeup is lost.  When [wakeup(ch)] returns to a caller that holds
    the lock of the channel, no process is asleep on [ch], and none that has
    given up the lock in [sleep(ch, lk)] is still on its way to sleep.  The
    caller is a process; an interrupt handler on a CPU that runs the scheduler
    is not a step of the machine. *)
Theorem no_lost_wakeup s c i h :
  reachable s -> cpu s c = Run i -> ppc s i = Woke h ->
  forall j, (j < NP)%nat -> ~ dozing s j h /\ ~ (st s j = SLEEPING /\ ch s j = Some h).
Proof.
  intros Hinv%reachable_inv Hc Hq j Hj.
  assert (Hd : ~ dozing s j h).
  { apply (i_wake s Hinv i h NP j); [by exists c|by rewrite Hq|done|done]. }
  split; [done|]; intros [Hst Hch].
  assert (~ running s j) as Hr.
  { intros Hr; pose proof (i_st s Hinv j Hr) as Hs; rewrite Hst in Hs; apply Hd; unfold dozing.
    destruct (ppc s j) as [| | | | | | | | |x| | | | | | | | | | | | | | | | | | |] eqn:Hp; try done.
    rewrite (i_chan s Hinv j x) in Hch by auto; congruence. }
  pose proof (i_idle s Hinv j Hr) as Hi; rewrite Hst in Hi; destruct Hi as (x & Hp & Hx).
  apply Hd; unfold dozing; rewrite Hp; naive_solver congruence.
Qed.

(** ** Witness: CPU 0 runs the first process, which calls wakeup(&log) *)

Lemma proc_step s s' c i a q q' :
  reachable s -> cpu s c = Run i -> ppc s i = q -> pact i q a q' -> run_act c i a s = Some s' ->
  reachable (set_pc i q' s').
Proof. intros Hr Hc <- Hp Ha; by eapply (reach_step c); [|eapply s_proc]. Qed.

Definition demo_run : cfg := set_cpu 0 (Run 0) (set_st 0 RUNNING (set_cpu 0 (Test 0) (set_plk 0 (Some 0%nat) init))).

Lemma demo_run_reachable : reachable demo_run.
Proof.
  apply (reach_step 0 (set_cpu 0 (Test 0) (set_plk 0 (Some 0%nat) init))); [|by apply s_switch].
  apply (reach_step 0 init); [apply reach_init|by apply s_lock].
Qed.

Lemma demo_wakeup n : (n <= NP)%nat -> exists s,
  reachable s /\ cpu s 0%nat = Run 0 /\ ppc s 0%nat = Wake O_log n /\
  (forall k, plk s k = None) /\ (forall k, st s k <> SLEEPING).
Proof.
  induction n as [|n IH]; intros Hn.
  - pose proof (proc_step _ _ 0 0 _ _ _ demo_run_reachable eq_refl eq_refl (p_forkret 0) eq_refl) as H1.
    pose proof (proc_step _ _ 0 0 _ _ _ H1 eq_refl eq_refl (p_enter 0 O_log eq_refl) eq_refl) as H2.
    pose proof (proc_step _ _ 0 0 _ _ _ H2 eq_refl eq_refl (p_wake 0 O_log) eq_refl) as H3.
    eexists; split_and!; [exact H3|done|done|by intros [|k]|by intros [|k]].
  - destruct (IH ltac:(lia)) as (s & Hr & Hc & Hq & Hp & Hs); destruct (decide (n = 0%nat)) as [->|Hne].
    + eexists; split_and!; [exact (proc_step _ _ _ _ _ _ _ Hr Hc Hq (p_wake_self 0 O_log Hn) eq_refl)|done..].
    + assert (Ha : run_act 0 0 (AcqP n) s = Some (set_plk n (Some 0%nat) s)) by (cbn; by rewrite Hp).
      pose proof (proc_step _ _ _ _ _ _ _ Hr Hc Hq (p_wake_lock 0 O_log n ltac:(lia) Hne) Ha) as H1.
      set (s1 := set_pc 0 (WakeL O_log n) (set_plk n (Some 0%nat) s)) in *.
      assert (Hm : run_act 0 0 (Miss n (Some O_log) SLEEPING) s1 = Some s1).
      { unfold run_act, matches; rewrite bool_decide_eq_false_2; [done|apply Hs]. }
      pose proof (proc_step _ _ _ _ _ _ _ H1 Hc eq_refl (p_wake_miss 0 O_log n) Hm) as H2.
      pose proof (proc_step _ _ _ _ _ _ _ H2 Hc eq_refl (p_wake_rel 0 O_log n) eq_refl) as H3.
      eexists; split_and!; [exact H3|done|done| |done].
      intros k; cbn; unfold insert, fn_insert; repeat case_decide; auto.
Qed.

Lemma no_lost_wakeup_witness : exists s,
  reachable s /\ ppc s 0%nat = Woke O_log /\ forall j, (j < NP)%nat -> ~ (st s j = SLEEPING /\ ch s j = Some O_log).
Proof.
  destruct (demo_wakeup NP (le_n _)) as (s & Hr & Hc & Hq & Hp & Hs).
  pose proof (proc_step _ _ _ _ _ _ _ Hr Hc Hq (p_woke 0 O_log NP (le_n _)) eq_refl) as Hr'.
  eexists; split; [exact Hr'|]; split; [done|].
  intros j Hj; exact (proj2 (no_lost_wakeup _ 0 0 O_log Hr' Hc eq_refl j Hj)).
Defined.

Lemma sched_safe_witness : reachable demo_run /\ cpu demo_run 0%nat = Run 0 /\
  forall c, cpu demo_run c = Run 0 -> c = 0%nat.
Proof.
  split; [apply demo_run_reachable|]; split; [done|]; intros c Hc.
  exact (proj1 (sched_safe demo_run demo_run_reachable) c 0%nat 0%nat Hc eq_refl).
Defined.
