(* ===== verification/Sysproc.v ===== *)
(** * kernel/syscall.c (arguments) and kernel/sysproc.c

    The arguments of a system call are registers saved in the trap frame of
    the calling process [me]; strings and words they point to come from its
    user memory. *)

From S2P Require Import Prelude CMem KString Riscv Kalloc Vm Locks Pipe Block Bio Log Fs File Printf Proc.

Section sys.
Variable kend : Z.
Variable trampoline : Z.
Variable forkret_pc : Z.
Variable me : nat.

(** ** Arguments *)

(** The status and [*ip]. *)
Definition fetchaddr (addr : Z) : M kst (Z * Z) :=
  let* p := pget me in
  if (p_sz p <=? addr) || (p_sz p <? u64 (addr + 8)) then kret (-1, 0)
  else
    let* (r, bytes) := zoom kmem_of (copyin (p_pagetable p) addr 8) in
    if negb (r =? 0) then kret (-1, 0) else kret (0, le_decode bytes).

(** The length of the string, or -1, and its characters before the NUL. *)
Definition fetchstr (addr max : Z) : M kst (Z * list Z) :=
  let* p := pget me in
  let* (r, bytes) := zoom kmem_of (copyinstr (p_pagetable p) addr max) in
  if r <? 0 then kret (-1, [])
  else let s := until_nul bytes in kret (Z.of_nat (length s), s).

Definition argraw (n : Z) : M kst Z :=
  let* p := pget me in
  if (0 <=? n) && (n <=? 5) then tf_get (p_trapframe p) (TF_A0 + 8 * n)
  else panic "argraw".

Definition argint (n : Z) : M kst Z := let* v := argraw n in kret (i32 v).
Definition argaddr (n : Z) : M kst Z := argraw n.
Definition argstr (n max : Z) : M kst (Z * list Z) :=
  let* addr := argaddr n in fetchstr addr max.

(** ** sysproc.c *)

(** Runs up to the switch to the scheduler. *)
Definition sys_exit : M kst unit :=
  let* n := argint 0 in exit kend me n.

Definition sys_getpid : M kst Z := let* p := pget me in kret (p_pid p).

Definition sys_fork : M kst Z := fork kend trampoline forkret_pc me.

Definition sys_wait : M kst Z :=
  let* p := argaddr 0 in wait kend me p.

Definition sys_sbrk : M kst Z :=
  let* n := argint 0 in
  let* p := pget me in
  let addr := p_sz p in
  let* r := growproc kend me n in
  if r <? 0 then kret (-1) else kret addr.

(** The loop of [sys_sleep] with the lock held, up to the return or the sleep. *)
Definition sys_sleep_loop (n ticks0 : Z) : M kst (seg Z (Z * Z)) :=
  let* s := kget in
  if u32 (ticks s - ticks0) <? n then
    let* k := killed me in
    if truth k then release O_ticks ;;; kret (Done (-1))
    else sleep_at O_ticks O_ticks (n, ticks0)
  else release O_ticks ;;; kret (Done 0).
Definition sys_sleep_seg (l : option (Z * Z)) : M kst (seg Z (Z * Z)) :=
  match l with
  | None =>
      let* n := argint 0 in
      let n := if n <? 0 then 0 else n in
      acquire O_ticks ;;;
      let* s := kget in
      sys_sleep_loop n (ticks s)
  | Some (n, ticks0) => acquire O_ticks ;;; sys_sleep_loop n ticks0
  end.
Definition sys_sleep : M kst Z := whole O_ticks (sys_sleep_seg None).

Definition sys_kill : M kst Z :=
  let* pid := argint 0 in kill pid.

Definition sys_uptime : M kst Z :=
  acquire O_ticks ;;;
  let* s := kget in
  release O_ticks ;;;
  kret (ticks s).

Definition tab : list Z := [9].

Fixpoint sys_cps_loop (n i : nat) : M kst unit :=
  match n with
  | O => kret tt
  | S n' =>
      let* p := pget i in
      let line (st : string) :=
        kprintf (str "%s " ++ tab ++ str " %d  " ++ tab ++ str " " ++ str st ++ str " " ++ tab ++ str " " ++ newline ++ str " ")
          [VStr (Some (until_nul (p_name p))); VNum (p_pid p)] in
      (if decide (p_state p = SLEEPING) then line "SLEEPING"
       else if decide (p_state p = RUNNING) then line "RUNNING"
       else if decide (p_state p = RUNNABLE) then line "RUNNABLE"
       else kret tt) ;;;
      sys_cps_loop n' (S i)
  end.
Definition sys_cps : M kst Z :=
  kprintf (str "name " ++ tab ++ str " pid " ++ tab ++ str " state " ++ tab ++ str " " ++ newline) [] ;;;
  sys_cps_loop (Z.to_nat NPROC) 0 ;;;
  kret 22.

Definition sys_signal : M kst Z :=
  let* signum := argint 0 in
  let* handler := argaddr 1 in
  kprintf (newline ++ str "In sys_signal function value of signum : %d" ++ newline) [VNum signum] ;;;
  if negb (signum =? SIGINT) then kret (-1)
  else
    (if handler =? 0 then kprintf (str "NULL Handler" ++ newline) [] else kret tt) ;;;
    pmod me (set_handler (Z.to_nat SIGINT) handler) ;;;
    kret 0.

Definition sys_thread_create : M kst Z :=
  let* fn := argaddr 0 in
  let* arg := argaddr 1 in
  let* stack := argaddr 2 in
  if (fn =? 0) || (arg =? 0) then kret (-1)
  else
    kprintf newline [] ;;;
    thread_create kend forkret_pc me fn arg stack.

Definition sys_thread_exit : M kst unit :=
  let* retval := argaddr 0 in exit kend me (i32 retval).

Definition sys_thread_join : M kst Z :=
  let* addr := argaddr 0 in thread_join kend me addr.
End sys.
