(* ===== verification/Exec.v ===== *)
(** * kernel/exec.c

    Loading a program: the ELF headers as the byte layouts of kernel/elf.h, the
    segments, the user stack with the arguments, and the exchange of the
    process's memory for the new one. *)

From S2P Require Import Prelude CMem KString Riscv Kalloc Vm Locks Pipe Block Bio Log Fs File Printf Proc.

Definition ELF_MAGIC : Z := 0x464C457F.
Definition ELF_PROG_LOAD : Z := 1.
Definition get64 (d : list Z) (off : nat) : Z := le_decode (slice d off 8).

Record elfhdr : Type := ElfHdr {
  e_magic : Z;
  e_entry : Z;
  e_phoff : Z;
  e_phnum : Z
}.
Definition sizeof_elfhdr : Z := 64.
Definition read_elfhdr (d : list Z) : elfhdr :=
  ElfHdr (get32 d 0) (get64 d 24) (get64 d 32) (get16 d 56).

Record proghdr : Type := ProgHdr {
  ph_type : Z;
  ph_flags : Z;
  ph_off : Z;
  ph_vaddr : Z;
  ph_filesz : Z;
  ph_memsz : Z
}.
Definition sizeof_proghdr : Z := 56.
Definition read_proghdr (d : list Z) : proghdr :=
  ProgHdr (get32 d 0) (get32 d 4) (get64 d 8) (get64 d 16) (get64 d 32) (get64 d 40).

Definition flags2perm (flags : Z) : Z :=
  let perm := if truth (Z.land flags 0x1) then PTE_X else 0 in
  if truth (Z.land flags 0x2) then Z.lor perm PTE_W else perm.

(** [last], the path after its last slash. *)
Fixpoint basename (s last : list Z) : list Z :=
  match s with
  | [] => last
  | ch :: s' => basename s' (if ch =? slash then s' else last)
  end.

Definition TF_A1 : Z := 120.

Section exec.
Variable kend : Z.
Variable trampoline : Z.
Variable me : nat.
Variable mypid : Z.        (* p->pid *)
Variable mypt : Z.         (* p->pagetable *)
Variable cwd : nat.        (* p->cwd *)

Definition kreadi (ip : nat) (off n : Z) : M kst (Z * list Z) :=
  zoom kfs_of (readi mypid mypt ip KernDst (u32 off) n).

(** The destination is the physical page; [fuel] bounds the number of pages. *)
Fixpoint loadseg_loop (fuel : nat) (pagetable va : Z) (ip : nat) (offset sz i : Z) : M kst Z :=
  if i <? sz then
    match fuel with
    | O => stuck
    | S f =>
        let* pa := zoom kmem_of (walkaddr pagetable (u64 (va + i))) in
        if pa =? 0 then panic "loadseg: address should exist"
        else
          let n := if u32 (sz - i) <? PGSIZE then u32 (sz - i) else PGSIZE in
          let* (r, bytes) := kreadi ip (offset + i) n in
          zoom kmem_of (kmod (with_mem (fun m => store_bytes m pa bytes))) ;;;
          if negb (r =? n) then kret (-1)
          else loadseg_loop f pagetable va ip offset sz (u32 (i + PGSIZE))
    end
  else kret 0.
Definition loadseg (pagetable va : Z) (ip : nat) (offset sz : Z) : M kst Z :=
  loadseg_loop (Z.to_nat (sz / PGSIZE + 1)) pagetable va ip offset sz 0.

(** The label [bad]. *)
Definition exec_bad (pagetable sz : Z) (ip : option nat) : M kst Z :=
  (if truth pagetable then proc_freepagetable kend pagetable sz else kret tt) ;;;
  match ip with
  | None => kret tt
  | Some ip => zoom kfs_of (iunlockput mypid ip) ;;; zoom klog_of (end_op mypid)
  end ;;;
  kret (-1).

(** The program headers from the [i]th on: whether they are loaded, and [sz]. *)
Fixpoint load_loop (n : nat) (ip : nat) (pagetable off sz : Z) : M kst (bool * Z) :=
  match n with
  | O => kret (true, sz)
  | S n' =>
      let* (r, d) := kreadi ip off sizeof_proghdr in
      if negb (r =? sizeof_proghdr) then kret (false, sz)
      else
        let ph := read_proghdr d in
        let next := i32 (off + sizeof_proghdr) in
        if negb (ph_type ph =? ELF_PROG_LOAD) then load_loop n' ip pagetable next sz
        else if ph_memsz ph <? ph_filesz ph then kret (false, sz)
        else if u64 (ph_vaddr ph + ph_memsz ph) <? ph_vaddr ph then kret (false, sz)
        else if negb (ph_vaddr ph mod PGSIZE =? 0) then kret (false, sz)
        else
          let* sz1 := zoom kmem_of (uvmalloc kend pagetable sz (u64 (ph_vaddr ph + ph_memsz ph)) (flags2perm (ph_flags ph))) in
          if sz1 =? 0 then kret (false, sz)
          else
            let* r := loadseg pagetable (ph_vaddr ph) ip (u32 (ph_off ph)) (u32 (ph_filesz ph)) in
            if r <? 0 then kret (false, sz1)
            else load_loop n' ip pagetable next sz1
  end.

(** The arguments pushed so far are [ustack]; the result is the stack pointer
    and [ustack], or nothing on [goto bad]. *)
Fixpoint push_args (argv : list (list Z)) (pagetable sp stackbase : Z) (ustack : list Z) : M kst (option (Z * list Z)) :=
  match argv with
  | [] => kret (Some (sp, ustack))
  | a :: argv' =>
      if MAXARG <=? Z.of_nat (length ustack) then kret None
      else
        let sp := u64 (sp - (Z.of_nat (length a) + 1)) in
        let sp := sp - sp mod 16 in
        if sp <? stackbase then kret None
        else
          let* r := zoom kmem_of (copyout pagetable sp (a ++ [0])) in
          if r <? 0 then kret None
          else push_args argv' pagetable sp stackbase (ustack ++ [sp])
  end.

(** From the allocation of the stack on. *)
Definition exec_stack (path : list Z) (argv : list (list Z)) (pagetable sz : Z) (elf : elfhdr) : M kst Z :=
  let* p := pget me in
  let oldsz := p_sz p in
  let sz := PGROUNDUP sz in
  let* sz1 := zoom kmem_of (uvmalloc kend pagetable sz (u64 (sz + (USERSTACK + 1) * PGSIZE)) PTE_W) in
  if sz1 =? 0 then exec_bad pagetable sz None
  else
    let sz := sz1 in
    zoom kmem_of (uvmclear pagetable (u64 (sz - (USERSTACK + 1) * PGSIZE))) ;;;
    let stackbase := u64 (sz - USERSTACK * PGSIZE) in
    let* r := push_args argv pagetable sz stackbase [] in
    match r with
    | None => exec_bad pagetable sz None
    | Some (sp, ustack) =>
        let argc := Z.of_nat (length ustack) in
        let sp := u64 (sp - (argc + 1) * 8) in
        let sp := sp - sp mod 16 in
        if sp <? stackbase then exec_bad pagetable sz None
        else
          let* r := zoom kmem_of (copyout pagetable sp (concat (le_encode 8 <$> (ustack ++ [0])))) in
          if r <? 0 then exec_bad pagetable sz None
          else
            tf_set (p_trapframe p) TF_A1 sp ;;;
            pmod me (fun p => set_name (name_copy (p_name p) (basename path path)) p) ;;;
            pmod me (set_pagetable pagetable) ;;;
            pmod me (set_sz sz) ;;;
            tf_set (p_trapframe p) TF_EPC (e_entry elf) ;;;
            tf_set (p_trapframe p) TF_SP sp ;;;
            proc_freepagetable kend (p_pagetable p) oldsz ;;;
            kret argc
    end.

Definition exec (path : list Z) (argv : list (list Z)) : M kst Z :=
  zoom klog_of begin_op ;;;
  let* ip := zoom kfs_of (namei mypid mypt cwd path) in
  match ip with
  | None => zoom klog_of (end_op mypid) ;;; kret (-1)
  | Some ip =>
      zoom kfs_of (ilock mypid ip) ;;;
      let* (r, d) := kreadi ip 0 sizeof_elfhdr in
      if negb (r =? sizeof_elfhdr) then exec_bad 0 0 (Some ip)
      else
        let elf := read_elfhdr d in
        if negb (e_magic elf =? ELF_MAGIC) then exec_bad 0 0 (Some ip)
        else
          let* pagetable := proc_pagetable kend trampoline me in
          if pagetable =? 0 then exec_bad 0 0 (Some ip)
          else
            let* (ok, sz) := load_loop (Z.to_nat (e_phnum elf)) ip pagetable (i32 (e_phoff elf)) 0 in
            if negb ok then exec_bad pagetable sz (Some ip)
            else
              zoom kfs_of (iunlockput mypid ip) ;;;
              zoom klog_of (end_op mypid) ;;;
              exec_stack path argv pagetable sz elf
  end.
End exec.
