(* ===== verification/Sysfile.v ===== *)
(** * kernel/sysfile.c

    The file-system calls: arguments checked, then calls into file.c and fs.c.
    [mypid], [mypt] and [cwd] are fields of myproc() that the file system
    reads; the device switch and killed() are arguments as in File.v. *)

From S2P Require Import Prelude CMem KString Riscv Kalloc Vm Locks Pipe Block Bio Log Fs File Printf Proc Sysproc Exec.

Definition O_RDONLY : Z := 0x000.
Definition O_WRONLY : Z := 0x001.
Definition O_RDWR : Z := 0x002.
Definition O_CREATE : Z := 0x200.
Definition O_TRUNC : Z := 0x400.

Section sysfile.
Variable kend : Z.
Variable trampoline : Z.
Variable me : nat.
Variable mypid : Z.
Variable mypt : Z.
Variable cwd : nat.
Variable iskilled : bool.
Variable stat_pad : list Z.
Variable devread : Z -> option (Z -> Z -> M filest Z).
Variable devwrite : Z -> option (Z -> Z -> M filest Z).

#[local] Abbreviation kfs := (zoom kfs_of).
#[local] Abbreviation begin_op' := (zoom klog_of begin_op).
#[local] Abbreviation end_op' := (zoom klog_of (end_op mypid)).
#[local] Abbreviation ilock' ip := (kfs (ilock mypid ip)).
#[local] Abbreviation iunlock' ip := (kfs (iunlock mypid ip)).
#[local] Abbreviation iput' ip := (kfs (iput mypid ip)).
#[local] Abbreviation iunlockput' ip := (kfs (iunlockput mypid ip)).
#[local] Abbreviation iupdate' ip := (kfs (iupdate mypid ip)).
#[local] Abbreviation close f := (zoom files_of (fileclose kend mypid f)).

Definition iget_fields (ip : nat) : M kst inode := let* s := kfs kget in kret (get_inode ip s).
Definition imod (ip : nat) (f : inode -> inode) : M kst unit := kfs (kmod (upd_inode ip f)).

(** ** Descriptors *)

(** The descriptor and its file, or nothing for -1. *)
Definition argfd (n : Z) : M kst (option (nat * nat)) :=
  let* fd := argint me n in
  let* p := pget me in
  if (fd <? 0) || (NOFILE <=? fd) then kret None
  else
    match default None (p_ofile p !! Z.to_nat fd) with
    | None => kret None
    | Some f => kret (Some (Z.to_nat fd, f))
    end.

Fixpoint fdalloc_loop (n fd f : nat) : M kst Z :=
  match n with
  | O => kret (-1)
  | S n' =>
      let* p := pget me in
      match default None (p_ofile p !! fd) with
      | None => pmod me (set_ofile fd (Some f)) ;;; kret (Z.of_nat fd)
      | Some _ => fdalloc_loop n' (S fd) f
      end
  end.
Definition fdalloc (f : nat) : M kst Z := fdalloc_loop (Z.to_nat NOFILE) 0 f.

Definition sys_dup : M kst Z :=
  let* r := argfd 0 in
  match r with
  | None => kret (-1)
  | Some (_, f) =>
      let* fd := fdalloc f in
      if fd <? 0 then kret (-1)
      else zoom files_of (filedup f) ;;; kret fd
  end.

Definition sys_read : M kst Z :=
  let* p := argaddr me 1 in
  let* n := argint me 2 in
  let* r := argfd 0 in
  match r with
  | None => kret (-1)
  | Some (_, f) => zoom files_of (fileread mypid mypt iskilled devread f p n)
  end.

Definition sys_write : M kst Z :=
  let* p := argaddr me 1 in
  let* n := argint me 2 in
  let* r := argfd 0 in
  match r with
  | None => kret (-1)
  | Some (_, f) => zoom files_of (filewrite mypid mypt iskilled devwrite f p n)
  end.

Definition sys_close : M kst Z :=
  let* r := argfd 0 in
  match r with
  | None => kret (-1)
  | Some (fd, f) => pmod me (set_ofile fd None) ;;; close f ;;; kret 0
  end.

Definition sys_fstat : M kst Z :=
  let* st := argaddr me 1 in
  let* r := argfd 0 in
  match r with
  | None => kret (-1)
  | Some (_, f) => zoom files_of (filestat mypid mypt stat_pad f st)
  end.

(** ** Links *)

(** The label [bad] of [sys_link]. *)
Definition sys_link_bad (ip : nat) : M kst Z :=
  ilock' ip ;;;
  imod ip (fun x => set_nlink (i16 (i_nlink x - 1)) x) ;;;
  iupdate' ip ;;;
  iunlockput' ip ;;;
  end_op' ;;;
  kret (-1).

Definition sys_link : M kst Z :=
  let* (r0, old) := argstr me 0 MAXPATH in
  if r0 <? 0 then kret (-1)
  else
    let* (r1, new) := argstr me 1 MAXPATH in
    if r1 <? 0 then kret (-1)
    else
      begin_op' ;;;
      let* ip := kfs (namei mypid mypt cwd old) in
      match ip with
      | None => end_op' ;;; kret (-1)
      | Some ip =>
          ilock' ip ;;;
          let* x := iget_fields ip in
          if i_type x =? T_DIR then iunlockput' ip ;;; end_op' ;;; kret (-1)
          else
            imod ip (fun x => set_nlink (i16 (i_nlink x + 1)) x) ;;;
            iupdate' ip ;;;
            iunlock' ip ;;;
            let* (dp, name) := kfs (nameiparent mypid mypt cwd new (replicate 14 0)) in
            match dp with
            | None => sys_link_bad ip
            | Some dp =>
                ilock' dp ;;;
                let* d := iget_fields dp in
                let* x := iget_fields ip in
                let* r := (if negb (i_dev d =? i_dev x) then kret (-1)
                           else kfs (dirlink mypid mypt dp name (i_inum x))) in
                if r <? 0 then iunlockput' dp ;;; sys_link_bad ip
                else
                  iunlockput' dp ;;;
                  iput' ip ;;;
                  end_op' ;;;
                  kret 0
            end
      end.

Fixpoint isdirempty_loop (fuel : nat) (dp : nat) (off : Z) : M kst bool :=
  let* x := iget_fields dp in
  if off <? i_size x then
    match fuel with
    | O => stuck
    | S f =>
        let* (r, de) := kfs (readi mypid mypt dp KernDst off DESIZE) in
        if negb (r =? DESIZE) then panic "isdirempty: readi"
        else if negb (de_inum de =? 0) then kret false
        else isdirempty_loop f dp (off + DESIZE)
    end
  else kret true.
Definition isdirempty (dp : nat) : M kst bool :=
  let* x := iget_fields dp in
  isdirempty_loop (Z.to_nat (i_size x / DESIZE + 1)) dp (2 * DESIZE).

(** The label [bad] of [sys_unlink]. *)
Definition sys_unlink_bad (dp : nat) : M kst Z := iunlockput' dp ;;; end_op' ;;; kret (-1).

Definition dot : list Z := [46].
Definition dotdot : list Z := [46; 46].

Definition sys_unlink : M kst Z :=
  let* (r, path) := argstr me 0 MAXPATH in
  if r <? 0 then kret (-1)
  else
    begin_op' ;;;
    let* (dp, name) := kfs (nameiparent mypid mypt cwd path (replicate 14 0)) in
    match dp with
    | None => end_op' ;;; kret (-1)
    | Some dp =>
        ilock' dp ;;;
        if (namecmp name dot =? 0) || (namecmp name dotdot =? 0) then sys_unlink_bad dp
        else
          let* r := kfs (dirlookup mypid mypt dp name) in
          match r with
          | None => sys_unlink_bad dp
          | Some (ip, off) =>
              ilock' ip ;;;
              let* x := iget_fields ip in
              if i_nlink x <? 1 then panic "unlink: nlink < 1"
              else
                let* empty := (if i_type x =? T_DIR then isdirempty ip else kret true) in
                if negb empty then iunlockput' ip ;;; sys_unlink_bad dp
                else
                  let* r := kfs (writei mypid mypt dp (KernSrc (replicate 16 0)) off DESIZE) in
                  if negb (r =? DESIZE) then panic "unlink: writei"
                  else
                    (if i_type x =? T_DIR then
                       imod dp (fun d => set_nlink (i16 (i_nlink d - 1)) d) ;;; iupdate' dp
                     else kret tt) ;;;
                    iunlockput' dp ;;;
                    imod ip (fun x => set_nlink (i16 (i_nlink x - 1)) x) ;;;
                    iupdate' ip ;;;
                    iunlockput' ip ;;;
                    end_op' ;;;
                    kret 0
          end
    end.

(** ** Creating and opening *)

Definition set_new (major minor : Z) (x : inode) : inode :=
  Inode (i_dev x) (i_inum x) (i_ref x) (i_lock x) (i_valid x) (i_type x) major minor 1 (i_size x) (i_addrs x).

(** The label [fail] of [create]. *)
Definition create_fail (ip dp : nat) : M kst (option nat) :=
  imod ip (set_nlink 0) ;;;
  iupdate' ip ;;;
  iunlockput' ip ;;;
  iunlockput' dp ;;;
  kret None.

(** [type], [major] and [minor] are shorts. *)
Definition create (path : list Z) (type major minor : Z) : M kst (option nat) :=
  let* (dp, name) := kfs (nameiparent mypid mypt cwd path (replicate 14 0)) in
  match dp with
  | None => kret None
  | Some dp =>
      ilock' dp ;;;
      let* r := kfs (dirlookup mypid mypt dp name) in
      match r with
      | Some (ip, _) =>
          iunlockput' dp ;;;
          ilock' ip ;;;
          let* x := iget_fields ip in
          if (type =? T_FILE) && ((i_type x =? T_FILE) || (i_type x =? T_DEVICE)) then kret (Some ip)
          else iunlockput' ip ;;; kret None
      | None =>
          let* d := iget_fields dp in
          let* r := kfs (ialloc mypid (i_dev d) type) in
          match r with
          | None => iunlockput' dp ;;; kret None
          | Some ip =>
              ilock' ip ;;;
              imod ip (set_new major minor) ;;;
              iupdate' ip ;;;
              let* x := iget_fields ip in
              let* d := iget_fields dp in
              let* r := (if type =? T_DIR then
                           let* r := kfs (dirlink mypid mypt ip dot (i_inum x)) in
                           if r <? 0 then kret r
                           else kfs (dirlink mypid mypt ip dotdot (i_inum d))
                         else kret 0) in
              if r <? 0 then create_fail ip dp
              else
                let* r := kfs (dirlink mypid mypt dp name (i_inum x)) in
                if r <? 0 then create_fail ip dp
                else
                  (if type =? T_DIR then
                     imod dp (fun d => set_nlink (i16 (i_nlink d + 1)) d) ;;; iupdate' dp
                   else kret tt) ;;;
                  iunlockput' dp ;;;
                  kret (Some ip)
          end
      end
  end.

(** [sys_open] once the inode is locked. *)
Definition sys_open_file (ip : nat) (omode : Z) : M kst Z :=
  let fail := iunlockput' ip ;;; end_op' ;;; kret (-1) in
  let* x := iget_fields ip in
  if (i_type x =? T_DEVICE) && ((i_major x <? 0) || (NDEV <=? i_major x)) then fail
  else
    let* f := zoom files_of filealloc in
    match f with
    | None => fail
    | Some f =>
        let* fd := fdalloc f in
        if fd <? 0 then close f ;;; fail
        else
          zoom files_of (kmod (upd_file f (fun y =>
            if i_type x =? T_DEVICE
            then File FD_DEVICE (f_ref y) (f_readable y) (f_writable y) (f_pipe y) (f_ip y) (f_off y) (i_major x)
            else File FD_INODE (f_ref y) (f_readable y) (f_writable y) (f_pipe y) (f_ip y) 0 (f_major y)))) ;;;
          zoom files_of (kmod (upd_file f (fun y =>
            File (f_type y) (f_ref y)
              (b2z (negb (truth (Z.land omode O_WRONLY))))
              (b2z (truth (Z.land omode O_WRONLY) || truth (Z.land omode O_RDWR)))
              (f_pipe y) ip (f_off y) (f_major y)))) ;;;
          (if truth (Z.land omode O_TRUNC) && (i_type x =? T_FILE) then kfs (itrunc mypid ip) else kret tt) ;;;
          iunlock' ip ;;;
          end_op' ;;;
          kret fd
    end.

Definition sys_open : M kst Z :=
  let* omode := argint me 1 in
  let* (n, path) := argstr me 0 MAXPATH in
  if n <? 0 then kret (-1)
  else
    begin_op' ;;;
    if truth (Z.land omode O_CREATE) then
      let* ip := create path T_FILE 0 0 in
      match ip with
      | None => end_op' ;;; kret (-1)
      | Some ip => sys_open_file ip omode
      end
    else
      let* ip := kfs (namei mypid mypt cwd path) in
      match ip with
      | None => end_op' ;;; kret (-1)
      | Some ip =>
          ilock' ip ;;;
          let* x := iget_fields ip in
          if (i_type x =? T_DIR) && negb (omode =? O_RDONLY) then iunlockput' ip ;;; end_op' ;;; kret (-1)
          else sys_open_file ip omode
      end.

(** [sys_mkdir] and [sys_mknod] after [argstr]. *)
Definition make_node (r : Z) (path : list Z) (type major minor : Z) : M kst Z :=
  let* ip := (if r <? 0 then kret None else create path type major minor) in
  match ip with
  | None => end_op' ;;; kret (-1)
  | Some ip => iunlockput' ip ;;; end_op' ;;; kret 0
  end.

Definition sys_mkdir : M kst Z :=
  begin_op' ;;;
  let* (r, path) := argstr me 0 MAXPATH in
  make_node r path T_DIR 0 0.

Definition sys_mknod : M kst Z :=
  begin_op' ;;;
  let* major := argint me 1 in
  let* minor := argint me 2 in
  let* (r, path) := argstr me 0 MAXPATH in
  make_node r path T_DEVICE (i16 major) (i16 minor).

Definition sys_chdir : M kst Z :=
  begin_op' ;;;
  let* (r, path) := argstr me 0 MAXPATH in
  let* ip := (if r <? 0 then kret None else kfs (namei mypid mypt cwd path)) in
  match ip with
  | None => end_op' ;;; kret (-1)
  | Some ip =>
      ilock' ip ;;;
      let* x := iget_fields ip in
      if negb (i_type x =? T_DIR) then iunlockput' ip ;;; end_op' ;;; kret (-1)
      else
        iunlock' ip ;;;
        let* p := pget me in
        with_cwd (p_cwd p) (fun old => iput' old) ;;;
        end_op' ;;;
        pmod me (set_cwd (Some ip)) ;;;
        kret 0
  end.

(** ** exec and pipe *)

(** [for(i = 0; i < NELEM(argv) && argv[i] != 0; i++) kfree(argv[i]);] *)
Fixpoint free_args (pages : list Z) : M kst unit :=
  match pages with
  | [] => kret tt
  | pa :: l => zoom kmem_of (kfree kend pa) ;;; free_args l
  end.

(** The loop of [sys_exec] from argument [i] on: the pages allocated so far,
    and the strings unless an argument is bad. *)
Fixpoint fetch_args (fuel : nat) (uargv i : Z) (pages : list Z) (argv : list (list Z)) : M kst (list Z * option (list (list Z))) :=
  match fuel with
  | O => kret (pages, None)       (* i >= NELEM(argv) *)
  | S f =>
      let* (r, uarg) := fetchaddr me (u64 (uargv + 8 * i)) in
      if r <? 0 then kret (pages, None)
      else if uarg =? 0 then kret (pages, Some argv)
      else
        let* pa := zoom kmem_of kalloc in
        if pa =? 0 then kret (pages, None)
        else
          let* (r, arg) := fetchstr me uarg PGSIZE in
          if r <? 0 then kret (pages ++ [pa], None)
          else
            zoom kmem_of (kmod (with_mem (fun m => store_bytes m pa (arg ++ [0])))) ;;;
            fetch_args f uargv (i + 1) (pages ++ [pa]) (argv ++ [arg])
  end.

Definition sys_exec : M kst Z :=
  let* uargv := argaddr me 1 in
  let* (r, path) := argstr me 0 MAXPATH in
  if r <? 0 then kret (-1)
  else
    let* (pages, argv) := fetch_args (Z.to_nat MAXARG) uargv 0 [] [] in
    match argv with
    | None => free_args pages ;;; kret (-1)
    | Some argv =>
        let* ret := exec kend trampoline me mypid mypt cwd path argv in
        free_args pages ;;;
        kret ret
    end.

(** Undo [sys_pipe]: close the descriptors that were allocated and both files. *)
Definition sys_pipe_fail (fds : list nat) (rf wf : nat) : M kst Z :=
  foldr (fun fd k => pmod me (set_ofile fd None) ;;; k) (kret tt) fds ;;;
  close rf ;;;
  close wf ;;;
  kret (-1).

Definition sys_pipe : M kst Z :=
  let* fdarray := argaddr me 0 in
  let* r := zoom files_of (pipealloc kend mypid) in
  match r with
  | None => kret (-1)
  | Some (rf, wf) =>
      let* fd0 := fdalloc rf in
      if fd0 <? 0 then sys_pipe_fail [] rf wf
      else
        let* fd1 := fdalloc wf in
        if fd1 <? 0 then sys_pipe_fail [Z.to_nat fd0] rf wf
        else
          let* p := pget me in
          let* r := zoom kmem_of (copyout (p_pagetable p) fdarray (le_encode 4 fd0)) in
          let* r := (if r <? 0 then kret r
                     else zoom kmem_of (copyout (p_pagetable p) (u64 (fdarray + 4)) (le_encode 4 fd1))) in
          if r <? 0 then sys_pipe_fail [Z.to_nat fd0; Z.to_nat fd1] rf wf
          else kret 0
  end.
End sysfile.
