(* ===== verification/Msg.v ===== *)
(** * kernel/msg.c

    The message queues: a table of queues that share one array of messages.  A
    message is the bytes of a [struct msg_buf]. *)

From S2P Require Import Prelude CMem KString Riscv Kalloc Vm Locks Pipe Block Bio Log Fs File Printf Proc Sysproc.

Definition MSG_MAX_QUEUES : Z := 16.
Definition MSG_MAX_SIZE : Z := 1024.
Definition IPC_NOWAIT : Z := 0x800.   (* 04000 *)
Definition IPC_RMID : Z := 0.
Definition IPC_SET : Z := 1.
Definition IPC_STAT : Z := 2.
Definition sizeof_msg_buf : Z := 8 + MSG_MAX_SIZE.
Definition sizeof_msqid_ds : Z := 32.

Record msg_queue : Type := MsgQueue {
  in_use : Z;
  msg_count : Z;
  first_msg : Z;
  last_msg : Z;
  queue_size : Z
}.
Record msgtable : Type := MsgTable {
  queues : list msg_queue;
  messages : list (list Z)
}.

(** The bytes of a message as the C program reads them. *)
Definition mtype (msg : list Z) : Z := i64 (le_decode (take 8 msg)).

Definition queue0 : msg_queue := MsgQueue 0 0 0 0 0.
Definition get_queue (i : Z) (t : msgtable) : msg_queue := default queue0 (queues t !! Z.to_nat i).
Definition upd_queue (i : Z) (f : msg_queue -> msg_queue) (t : msgtable) : msgtable :=
  MsgTable (alter f (Z.to_nat i) (queues t)) (messages t).

(** [msgtable] before [msginit]: static storage. *)
Definition msgtable0 : msgtable :=
  MsgTable (replicate (Z.to_nat MSG_MAX_QUEUES) queue0)
           (replicate (Z.to_nat (MSG_MAX_QUEUES * 100)) (replicate (Z.to_nat sizeof_msg_buf) 0)).
Definition msginit (t : msgtable) : msgtable :=
  MsgTable ((fun _ => MsgQueue 0 0 0 0 MSG_MAX_SIZE) <$> queues t) (messages t).

(** The first queue that is not in use, from queue [i] on. *)
Fixpoint free_queue (l : list msg_queue) (i : Z) : option Z :=
  match l with
  | [] => None
  | q :: l' => if truth (in_use q) then free_queue l' (i + 1) else Some i
  end.
Definition set_in_use (v : Z) (q : msg_queue) : msg_queue :=
  MsgQueue v (msg_count q) (first_msg q) (last_msg q) (queue_size q).

Definition queue_full (msqid : Z) (t : msgtable) : bool :=
  queue_size (get_queue msqid t) <=? msg_count (get_queue msqid t).

(** Lines 100 to 104: store the message; [None] when the index is outside
    [messages]. *)
Definition msg_put (msqid : Z) (msg : list Z) (t : msgtable) : option msgtable :=
  let q := get_queue msqid t in
  let msg_index := msqid * MSG_MAX_SIZE + last_msg q in
  if msg_index <? Z.of_nat (length (messages t)) then
    Some (upd_queue msqid
      (fun q => MsgQueue (in_use q) (msg_count q + 1) (first_msg q) (Z.rem (last_msg q + 1) MSG_MAX_SIZE) (queue_size q))
      (MsgTable (queues t) (<[Z.to_nat msg_index := msg]> (messages t))))
  else None.

(** Lines 142 and 143, 156 and 157. *)
Definition msg_front (msqid : Z) (t : msgtable) : option (list Z) :=
  messages t !! Z.to_nat (msqid * 100 + first_msg (get_queue msqid t)).
Definition msg_drop (msqid : Z) (t : msgtable) : msgtable :=
  upd_queue msqid
    (fun q => MsgQueue (in_use q) (msg_count q - 1) (Z.rem (first_msg q + 1) 100) (last_msg q) (queue_size q)) t.

Definition k2u_msqid_ds (q : msg_queue) : list Z :=
  concat (le_encode 4 <$> [0; msg_count q; queue_size q; 0; 0; 0; 0; 0]).
Definition u2k_msqid_ds (uds : list Z) (q : msg_queue) : msg_queue :=
  MsgQueue (in_use q) (msg_count q) (first_msg q) (last_msg q) (i32 (le_decode (slice uds 8 4))).

Record msgst : Type := MsgSt {
  mtab : msgtable;
  mkern : kst
}.
Definition kern_of : lens msgst kst := Lens mkern (fun k s => MsgSt (mtab s) k).
Definition mmod (f : msgtable -> msgtable) : M msgst unit := kmod (fun s => MsgSt (f (mtab s)) (mkern s)).
Definition mget : M msgst msgtable := let* s := kget in kret (mtab s).

Section msg.
Variable me : nat.
Variable msgtyp_hi : Z.   (* the upper half of the uninitialised [long msgtyp] *)
#[local] Abbreviation kern := (zoom kern_of).

Definition sys_msgget : M msgst Z :=
  let* key := kern (argint me 0) in
  let* flags := kern (argint me 1) in
  acquire O_msgtable ;;;
  let* t := mget in
  match free_queue (queues t) 0 with
  | Some i => mmod (upd_queue i (set_in_use 1)) ;;; release O_msgtable ;;; kret i
  | None => release O_msgtable ;;; kret (-1)
  end.

Definition bad_queue (msqid : Z) (t : msgtable) : bool :=
  (msqid <? 0) || (MSG_MAX_QUEUES <=? msqid) || negb (truth (in_use (get_queue msqid t))).

Definition user_copyin (addr len : Z) : M msgst (Z * list Z) :=
  let* p := kern (pget me) in kern (zoom kmem_of (copyin (p_pagetable p) addr len)).
Definition user_copyout (addr : Z) (bytes : list Z) : M msgst Z :=
  let* p := kern (pget me) in kern (zoom kmem_of (copyout (p_pagetable p) addr bytes)).

(** [sys_msgsnd] with the queue's lock held: the loop that waits for space and
    what follows it. *)
Definition msgsnd_wait (msqid : Z) (msg : list Z) : M msgst (seg Z (Z * list Z)) :=
  let lk := O_msgq (Z.to_nat msqid) in
  let* t := mget in
  if queue_full msqid t then sleep_at lk lk (msqid, msg)
  else
    match msg_put msqid msg t with
    | None => stuck
    | Some t' =>
        mmod (fun _ => t') ;;;
        wakeup lk ;;;
        release lk ;;;
        kret (Done 0)
    end.

Definition sys_msgsnd_seg (l : option (Z * list Z)) : M msgst (seg Z (Z * list Z)) :=
  match l with
  | Some (msqid, msg) => acquire (O_msgq (Z.to_nat msqid)) ;;; msgsnd_wait msqid msg
  | None =>
      let* msqid := kern (argint me 0) in
      let* msgp := kern (argaddr me 1) in
      let* msgsz := kern (argint me 2) in
      let* flags := kern (argint me 3) in
      let* t := mget in
      if bad_queue msqid t then kret (Done (-1))
      else
        let* (r, msg) := user_copyin msgp sizeof_msg_buf in
        if r <? 0 then kret (Done (-1))
        else if (msgsz <? 0) || (MSG_MAX_SIZE <? msgsz) then kret (Done (-1))
        else
          acquire (O_msgq (Z.to_nat msqid)) ;;;
          let* t := mget in
          if queue_full msqid t && truth (Z.land flags IPC_NOWAIT) then
            release (O_msgq (Z.to_nat msqid)) ;;; kret (Done (-1))
          else msgsnd_wait msqid msg
  end.

Definition sys_msgrcv : M msgst Z :=
  let* msqid := kern (argint me 0) in
  let* msgp := kern (argaddr me 1) in
  let* msgsz := kern (argint me 2) in
  let* typ := kern (argint me 3) in
  let* flags := kern (argint me 4) in
  let msgtyp := i64 (msgtyp_hi * 2 ^ 32 + u32 typ) in
  let lk := O_msgq (Z.to_nat msqid) in
  let* t := mget in
  if bad_queue msqid t then kret (-1)
  else if (msgsz <? 0) || (MSG_MAX_SIZE <? msgsz) then kret (-1)
  else
    acquire lk ;;;
    let* t := mget in
    if msg_count (get_queue msqid t) =? 0 then release lk ;;; kret (-1)
    else
      match msg_front msqid t with
      | None => stuck
      | Some msg =>
          if (0 <? msgtyp) && negb (mtype msg =? msgtyp) then release lk ;;; kret (-1)
          else
            let* r := user_copyout msgp msg in
            if r <? 0 then release lk ;;; kret (-1)
            else
              mmod (msg_drop msqid) ;;;
              release lk ;;;
              kret msgsz
      end.

Definition sys_msgctl : M msgst Z :=
  let* msqid := kern (argint me 0) in
  let* cmd := kern (argint me 1) in
  let* buf_addr := kern (argaddr me 2) in
  if (msqid <? 0) || (MSG_MAX_QUEUES <=? msqid) then kret (-1)
  else
    let lk := O_msgq (Z.to_nat msqid) in
    let leave r := release lk ;;; kret r in
    acquire lk ;;;
    let* t := mget in
    let q := get_queue msqid t in
    if cmd =? IPC_STAT then
      if negb (truth (in_use q)) then leave (-1)
      else
        let* r := user_copyout buf_addr (k2u_msqid_ds q) in
        if r <? 0 then leave (-1) else leave 0
    else if cmd =? IPC_SET then
      if negb (truth (in_use q)) then leave (-1)
      else
        let* (r, uds) := user_copyin buf_addr sizeof_msqid_ds in
        if r <? 0 then leave (-1)
        else mmod (upd_queue msqid (u2k_msqid_ds uds)) ;;; leave 0
    else if cmd =? IPC_RMID then
      if negb (truth (in_use q)) then leave (-1)
      else mmod (upd_queue msqid (fun q => MsgQueue 0 0 0 0 (queue_size q))) ;;; leave 0
    else leave (-1).
End msg.

(** ** What the message queues deliver

    Queue 0 is first-in first-out for its first hundred messages.  Beyond
    that, and in every other queue, the index that msgsnd writes is not the
    index that msgrcv reads. *)

(** A sender's and a receiver's turn at a queue, as msgsnd and msgrcv do them
    under the queue's lock.  A receiver gets nothing from an empty queue, when
    it asks for another type than that of the first message, or when
    [copyout] fails ([copied] is false). *)
Inductive msg_op : Type :=
| Snd (msg : list Z)
| Rcv (msgtyp : Z) (copied : bool).

Section queue.
Variable msqid : Z.

Definition send (msg : list Z) (t : msgtable) : option msgtable :=
  if queue_full msqid t then None else msg_put msqid msg t.
Definition receive (msgtyp : Z) (copied : bool) (t : msgtable) : option (list (list Z) * msgtable) :=
  if msg_count (get_queue msqid t) =? 0 then Some ([], t)
  else
    match msg_front msqid t with
    | Some m =>
        if (0 <? msgtyp) && negb (mtype m =? msgtyp) then Some ([], t)
        else if copied then Some ([m], msg_drop msqid t)
        else Some ([], t)
    | None => None
    end.

(** The messages received; [None] when a send finds the queue full or an index
    is outside the array. *)
Fixpoint msg_run (ops : list msg_op) (t : msgtable) : option (list (list Z) * msgtable) :=
  match ops with
  | [] => Some ([], t)
  | Snd m :: ops' => match send m t with Some t' => msg_run ops' t' | None => None end
  | Rcv typ copied :: ops' =>
      match receive typ copied t with
      | Some (m, t') => match msg_run ops' t' with Some (l, t2) => Some (m ++ l, t2) | None => None end
      | None => None
      end
  end.
End queue.

(** ** Turns and system calls

    What msgsnd and msgrcv do to the table is a turn of [send] or [receive]. *)

Definition tlp {A} (m : M msgst A) (Q : A -> msgtable -> Prop) (t : msgtable) : Prop :=
  forall c s, mtab s = t -> match m c s with Ret a _ s' => Q a (mtab s') | _ => True end.

Lemma tlp_bind {A B} (m : M msgst A) (k : A -> M msgst B) Q t : tlp m (fun a t' => tlp (k a) Q t') t -> tlp (kbind m k) Q t.
Proof. intros H c s Hs; specialize (H c s Hs); unfold kbind; destruct (m c s) as [a c' s'| | |]; [by apply H|done..]. Qed.
Lemma tlp_ret {A} (a : A) (Q : A -> msgtable -> Prop) t : Q a t -> tlp (kret a) Q t.
Proof. by intros H c s <-. Qed.
Lemma tlp_kern {A} (m : M kst A) (Q : A -> msgtable -> Prop) t : (forall a, Q a t) -> tlp (zoom kern_of m) Q t.
Proof. intros H c s <-; unfold zoom; destruct (m c _); [apply H|done..]. Qed.
Lemma tlp_mget (Q : msgtable -> msgtable -> Prop) t : Q t t -> tlp mget Q t.
Proof. by intros H c s <-. Qed.
Lemma tlp_mmod f (Q : unit -> msgtable -> Prop) t : Q tt (f t) -> tlp (mmod f) Q t.
Proof. by intros H c s <-. Qed.
Lemma tlp_acquire lk (Q : unit -> msgtable -> Prop) t : Q tt t -> tlp (acquire lk) Q t.
Proof. intros H c s <-; unfold acquire; by case_decide. Qed.
Lemma tlp_release lk (Q : unit -> msgtable -> Prop) t : Q tt t -> tlp (release lk) Q t.
Proof. intros H c s <-; unfold release; by case_decide. Qed.
Lemma tlp_wakeup chan (Q : unit -> msgtable -> Prop) t : Q tt t -> tlp (wakeup chan) Q t.
Proof. by intros H c s <-. Qed.
Lemma tlp_copyin me addr len (Q : Z * list Z -> msgtable -> Prop) t : (forall a, Q a t) -> tlp (user_copyin me addr len) Q t.
Proof. intros H; apply tlp_bind, tlp_kern; intros p; by apply tlp_kern. Qed.
Lemma tlp_copyout me addr bytes (Q : Z -> msgtable -> Prop) t : (forall a, Q a t) -> tlp (user_copyout me addr bytes) Q t.
Proof. intros H; apply tlp_bind, tlp_kern; intros p; by apply tlp_kern. Qed.

Ltac tsteps :=
  repeat first
    [ apply tlp_ret
    | apply tlp_mget
    | apply tlp_mmod
    | apply tlp_acquire
    | apply tlp_release
    | apply tlp_wakeup
    | apply tlp_kern; intros ?
    | apply tlp_copyin; intros [? ?]
    | apply tlp_copyout; intros ?
    | match goal with |- tlp (kbind _ _) _ _ => apply tlp_bind end ].

Lemma msgrcv_turn me hi t :
  tlp (sys_msgrcv me hi) (fun r t' => (r = -1 /\ t' = t) \/
    (0 <= r /\ exists msqid typ m, 0 <= msqid < MSG_MAX_QUEUES /\ receive msqid typ true t = Some ([m], t'))) t.
Proof.
  unfold sys_msgrcv; tsteps; rename a into msqid, a1 into msgsz.
  destruct (bad_queue msqid t) eqn:Eb; tsteps; [by left|].
  destruct (_ || _) eqn:Es in |- *; tsteps; [by left|].
  destruct (msg_count (get_queue msqid t) =? 0) eqn:En; tsteps; [by left|].
  destruct (msg_front msqid t) as [m|] eqn:Ef; [|done]; set (typ := i64 _).
  destruct (_ && _) eqn:Ety in |- *; tsteps; [by left|].
  destruct (a <? 0); tsteps; [by left|right].
  unfold bad_queue in Eb; split; [lia|]; exists msqid, typ, m; split; [lia|].
  unfold receive; by rewrite En, Ef, Ety.
Qed.

Lemma msgsnd_wait_turn msqid msg t :
  tlp (msgsnd_wait msqid msg) (fun r t' => (r <> Done 0 /\ t' = t) \/ (r = Done 0 /\ send msqid msg t = Some t')) t.
Proof.
  unfold msgsnd_wait, send; tsteps; destruct (queue_full msqid t).
  - intros c s <-; unfold sleep_at, sleep; repeat case_decide; try done.
    unfold kbind, release; case_decide; [by left|done].
  - destruct (msg_put msqid msg t) as [t'|]; [|done]; tsteps; by right.
Qed.

Lemma msgsnd_turn me l t :
  tlp (sys_msgsnd_seg me l) (fun r t' => (r <> Done 0 /\ t' = t) \/ (r = Done 0 /\ exists msqid msg, send msqid msg t = Some t')) t.
Proof.
  assert (Hw : forall msqid msg, tlp (msgsnd_wait msqid msg) (fun r t' =>
    (r <> Done 0 /\ t' = t) \/ (r = Done 0 /\ exists msqid msg, send msqid msg t = Some t')) t).
  { intros q msg c s Hs; pose proof (msgsnd_wait_turn q msg t c s Hs) as H; destruct (msgsnd_wait q msg c s); naive_solver. }
  unfold sys_msgsnd_seg; destruct l as [[q msg]|]; tsteps; [apply Hw|].
  destruct (bad_queue a t); tsteps; [by left|]; destruct (_ <? 0); tsteps; [by left|].
  destruct (_ || _); tsteps; [by left|]; destruct (_ && _); tsteps; [by left|apply Hw].
Qed.

Fixpoint sends (ops : list msg_op) : list (list Z) :=
  match ops with
  | [] => []
  | Snd m :: ops' => m :: sends ops'
  | Rcv _ _ :: ops' => sends ops'
  end.

(** Queue 0 after [r] of the messages [sent] have been received. *)
Record q0_inv (t : msgtable) (sent : list (list Z)) (r : nat) : Prop := {
  q_queue : exists u, queues t !! 0%nat =
    Some (MsgQueue u (Z.of_nat (length sent) - Z.of_nat r) (Z.of_nat r mod 100) (Z.of_nat (length sent)) MSG_MAX_SIZE);
  q_len : length (messages t) = 1600%nat;
  q_le : (r <= length sent <= 100)%nat;
  q_msgs i m : sent !! i = Some m -> messages t !! i = Some m
}.

Lemma q0_get t sent r : q0_inv t sent r -> exists u, get_queue 0 t =
  MsgQueue u (Z.of_nat (length sent) - Z.of_nat r) (Z.of_nat r mod 100) (Z.of_nat (length sent)) MSG_MAX_SIZE.
Proof. intros [[u Hq] _ _ _]; exists u; unfold get_queue; change (Z.to_nat 0) with 0%nat; by rewrite Hq. Qed.

Lemma q0_send t sent r m :
  q0_inv t sent r -> (length sent < 100)%nat ->
  exists t', send 0 m t = Some t' /\ q0_inv t' (sent ++ [m]) r.
Proof.
  intros Hi Hl; destruct (q0_get _ _ _ Hi) as [u Hg]; destruct Hi as [[u' Hq] Hlen Hle Hms].
  unfold send, queue_full, msg_put; rewrite Hg; cbn [queue_size msg_count last_msg].
  rewrite (proj2 (Z.leb_gt _ _)), (proj2 (Z.ltb_lt _ _)) by (unfold MSG_MAX_SIZE; lia); eexists; split; [done|].
  assert (Hidx : Z.to_nat (0 * MSG_MAX_SIZE + Z.of_nat (length sent)) = length sent) by lia.
  split; cbn [queues messages upd_queue].
  - eexists; change (Z.to_nat 0) with 0%nat; rewrite list_lookup_alter_eq, Hq; cbn; rewrite length_app, Z.rem_small by (unfold MSG_MAX_SIZE; lia).
    cbn; do 2 f_equal; lia.
  - by rewrite length_insert.
  - rewrite length_app; cbn; lia.
  - intros i x; rewrite Hidx; destruct (decide (i = length sent)) as [->|Hne].
    + rewrite list_lookup_insert_eq by lia; by rewrite lookup_app_r, Nat.sub_diag by lia.
    + rewrite list_lookup_insert_ne by done; intros [Hx|[Hge Hx]]%lookup_app_Some; [by apply Hms|].
      apply lookup_lt_Some in Hx; cbn in Hx; lia.
Qed.

Lemma q0_receive t sent r typ copied :
  q0_inv t sent r ->
  receive 0 typ copied t = Some ([], t) \/
  exists m t', receive 0 typ copied t = Some ([m], t') /\ sent !! r = Some m /\ q0_inv t' sent (S r).
Proof.
  intros Hi; destruct (q0_get _ _ _ Hi) as [u Hg]; destruct Hi as [[u' Hq] Hlen Hle Hms].
  unfold receive, msg_front; rewrite Hg; cbn [first_msg msg_count].
  destruct (Z.eqb_spec (Z.of_nat (length sent) - Z.of_nat r) 0) as [E|E]; [by left|].
  destruct (lookup_lt_is_Some_2 sent r ltac:(lia)) as [m Hm].
  replace (Z.to_nat (0 * 100 + Z.of_nat r mod 100)) with r by (rewrite Z.mod_small; lia).
  rewrite (Hms _ _ Hm); destruct (_ && _); [by left|]; destruct copied; [right|by left].
  eexists _, _; split; [done|]; split; [done|]; split; cbn [queues messages upd_queue msg_drop].
  - eexists; change (Z.to_nat 0) with 0%nat; rewrite list_lookup_alter_eq, Hq; cbn; f_equal; f_equal; [lia|].
    rewrite Z.rem_mod_nonneg by (lia || (apply Z.add_nonneg_nonneg; [apply Z.mod_pos_bound|]; lia)).
    rewrite Z.add_mod_idemp_l by lia; f_equal; lia.
  - done.
  - lia.
  - done.
Qed.

Lemma msg_run_spec ops : forall t sent r,
  q0_inv t sent r -> (length sent + length (sends ops) <= 100)%nat ->
  exists l t', msg_run 0 ops t = Some (l, t') /\ q0_inv t' (sent ++ sends ops) (r + length l) /\
    drop r sent ++ sends ops = l ++ drop (r + length l) (sent ++ sends ops).
Proof.
  induction ops as [|[m|typ copied] ops IH]; intros t sent r Hi Hl; cbn [msg_run sends length] in *.
  - exists [], t; split; [done|]; cbn; by rewrite !app_nil_r, Nat.add_0_r.
  - destruct (q0_send t sent r m Hi ltac:(lia)) as (t' & -> & Hi').
    destruct (IH t' _ _ Hi' ltac:(rewrite length_app; cbn; lia)) as (l & t2 & -> & H2 & H3).
    exists l, t2; split; [done|]; rewrite <- app_assoc in H2, H3; cbn [app] in H2, H3; split; [done|].
    rewrite <- H3, drop_app_le, <- app_assoc by (destruct Hi; lia); done.
  - destruct (q0_receive t sent r typ copied Hi) as [->|(m & t' & -> & Hm & Hi')].
    { destruct (IH t _ _ Hi Hl) as (l & t2 & -> & H2 & H3); by exists l, t2. }
    destruct (IH t' _ _ Hi' Hl) as (l & t2 & -> & H2 & H3); exists (m :: l), t2; split; [done|].
    cbn [length]; rewrite Nat.add_succ_r; split; [done|]; rewrite (drop_S _ _ _ Hm); cbn; f_equal; apply H3.
Qed.

(** C37: after [msginit], queue 0 delivers in order: in every sequence of sends
    and receives, of whatever types and with whatever failures of copyout,
    with at most a hundred sends no send fails, and the messages received are
    the first ones sent, as many as the queue no longer counts. *)
Theorem msg_fifo (ops : list msg_op) (t : msgtable) :
  length (queues t) = 16%nat -> length (messages t) = 1600%nat -> (length (sends ops) <= 100)%nat ->
  exists l t', msg_run 0 ops (msginit t) = Some (l, t') /\
    msg_count (get_queue 0 t') = Z.of_nat (length (sends ops)) - Z.of_nat (length l) /\
    l = take (length l) (sends ops).
Proof.
  intros Hq Hm Hs; assert (Hi : q0_inv (msginit t) [] 0).
  { split; cbn; try done; [|lia]; exists 0; rewrite list_lookup_fmap.
    by destruct (lookup_lt_is_Some_2 (queues t) 0) as [q ->]; [lia|]. }
  destruct (msg_run_spec ops _ _ _ Hi Hs) as (l & t' & Hrun & Hi' & Hl); exists l, t'; split; [done|]; split.
  - by destruct (q0_get _ _ _ Hi') as [u ->].
  - cbn in Hl; rewrite Hl, take_app_length; done.
Qed.

(** The second receiver asks for type 7, the third one's buffer is not mapped. *)
Definition demo_turns : list msg_op := [Snd [1]; Snd [2]; Rcv 0 true; Rcv 7 true; Rcv 0 false; Snd [3]; Rcv 2 true; Rcv 0 true; Rcv 0 true].

Lemma msg_fifo_witness : exists t', msg_run 0 demo_turns (msginit msgtable0) = Some ([[1]; [2]; [3]], t').
Proof.
  destruct (msg_fifo demo_turns msgtable0) as (l & t' & Hrun & _ & Hl);
    [reflexivity|reflexivity|cbn; lia|].
  exists t'; rewrite Hrun; assert (Hlen : length l = 3%nat).
  { apply (f_equal (fun o => match o with Some (l, _) => length l | None => 0%nat end)) in Hrun.
    vm_compute in Hrun; symmetry; exact Hrun. }
  rewrite Hl, Hlen; reflexivity.
Defined.

(** The messages and what a queue would receive next. *)
Definition table_ok (t : msgtable) : Prop :=
  length (queues t) = 16%nat /\ length (messages t) = 1600%nat /\
  Forall (fun q => 0 <= first_msg q < 100 /\ 0 <= last_msg q < MSG_MAX_SIZE) (queues t).

Lemma table_queue t i : table_ok t -> 0 <= i < 16 ->
  exists q, queues t !! Z.to_nat i = Some q /\ get_queue i t = q /\ 0 <= first_msg q < 100 /\ 0 <= last_msg q < 1024.
Proof.
  intros (Hq & _ & Hf) Hi; destruct (lookup_lt_is_Some_2 (queues t) (Z.to_nat i)) as [q E]; [lia|].
  exists q; unfold get_queue; rewrite E; destruct (Forall_lookup_1 _ _ _ _ Hf E); auto.
Qed.

(** Queue 1 receives from places it does not send to. *)
Lemma q1_put t msg t' :
  table_ok t -> msg_put 1 msg t = Some t' ->
  table_ok t' /\ first_msg (get_queue 1 t') = first_msg (get_queue 1 t) /\
  forall i, (i < 1024)%nat -> messages t' !! i = messages t !! i.
Proof.
  intros Ht Hp; destruct (table_queue t 1 Ht ltac:(lia)) as (q & Hq & Hg & Hf & Hl); destruct Ht as (H1 & H2 & H3).
  unfold msg_put in Hp; rewrite Hg in Hp; case_match; [|done]; injection Hp as <-; change (Z.to_nat 1) with 1%nat in *.
  split; [split_and!|split]; cbn [queues messages upd_queue].
  - by rewrite length_alter.
  - by rewrite length_insert.
  - apply Forall_alter; [done|]; intros x Hx [Hx1 Hx2]; cbn [first_msg last_msg]; split; [done|].
    rewrite Z.rem_mod_nonneg by (unfold MSG_MAX_SIZE in *; lia); apply Z.mod_pos_bound; done.
  - unfold get_queue; cbn [queues upd_queue]; change (Z.to_nat 1) with 1%nat; by rewrite list_lookup_alter_eq, Hq.
  - intros i Hi; rewrite list_lookup_insert_ne; [done|]; unfold MSG_MAX_SIZE; lia.
Qed.

Lemma q1_receive t typ copied m t' :
  table_ok t -> receive 1 typ copied t = Some (m, t') ->
  table_ok t' /\ messages t' = messages t /\ forall x, x ∈ m -> exists i, (100 <= i < 200)%nat /\ messages t !! i = Some x.
Proof.
  intros Ht Hr; destruct (table_queue t 1 Ht ltac:(lia)) as (q & Hq & Hg & Hf & Hl); unfold receive in Hr.
  assert (Hnone : Some ([], t) = Some (m, t') -> table_ok t' /\ messages t' = messages t /\
    forall x, x ∈ m -> exists i, (100 <= i < 200)%nat /\ messages t !! i = Some x).
  { intros [= <- <-]; split_and!; auto; by intros x Hx%not_elem_of_nil. }
  case_match; [auto|]; destruct (msg_front 1 t) as [x|] eqn:Ef; [|done].
  destruct (_ && _); [auto|]; destruct copied; [|auto]; injection Hr as <- <-; split_and!; [|done|].
  - destruct Ht as (H1 & H2 & H3); split_and!; cbn; [by rewrite length_alter|done|].
    apply Forall_alter; [done|]; intros y Hy [Hy1 Hy2]; cbn [first_msg last_msg]; split; [|done].
    rewrite Z.rem_mod_nonneg by lia; apply Z.mod_pos_bound; done.
  - intros y ->%list_elem_of_singleton; unfold msg_front in Ef; rewrite Hg in Ef; eexists; split; [|exact Ef]; lia.
Qed.

Lemma q1_run ops : forall t l t',
  table_ok t -> msg_run 1 ops t = Some (l, t') -> forall x, x ∈ l -> exists i, (100 <= i < 200)%nat /\ messages t !! i = Some x.
Proof.
  induction ops as [|[m|typ copied] ops IH]; intros t l t' Ht Hr; cbn [msg_run] in Hr.
  - injection Hr as <- <-; by intros x Hx%not_elem_of_nil.
  - unfold send in Hr; destruct (queue_full 1 t); [done|]; destruct (msg_put 1 m t) as [t1|] eqn:Ep; [|done].
    destruct (q1_put _ _ _ Ht Ep) as (Ht1 & _ & Hm); intros x Hx; destruct (IH _ _ _ Ht1 Hr x Hx) as (i & Hi & Hl).
    exists i; rewrite <- Hm by lia; done.
  - destruct (receive 1 typ copied t) as [[m t1]|] eqn:Er; [|done]; destruct (q1_receive _ _ _ _ _ Ht Er) as (Ht1 & Hm & Hx).
    destruct (msg_run 1 ops t1) as [[l1 t2]|] eqn:E1; [|done]; injection Hr as <- <-.
    intros x [|Hin]%elem_of_app; [auto|]; destruct (IH _ _ _ Ht1 E1 x Hin) as (i & Hi & Hl); exists i; by rewrite <- Hm.
Qed.

(** C38: no other queue works.  A message sent to any queue from 2 on would be
    stored outside the array.  One sent to queue 1 leaves what queue 1 receives
    next as it was before, and in any sequence of sends and receives at queue
    1 whatever is received is what the array held before the first send, so
    nothing sent is delivered.  Without [msginit], which the kernel never
    calls, every queue is full from the start. *)
Theorem msg_queues_wrong (t : msgtable) (msg : list Z) :
  table_ok t ->
  (forall msqid, 2 <= msqid < 16 -> msg_put msqid msg t = None) /\
  (forall t', msg_put 1 msg t = Some t' -> msg_front 1 t' = msg_front 1 t) /\
  (forall ops l t', msg_run 1 ops t = Some (l, t') -> forall x, x ∈ l -> exists i, (100 <= i < 200)%nat /\ messages t !! i = Some x) /\
  (forall msqid, 0 <= msqid < 16 -> queue_full msqid msgtable0 = true).
Proof.
  intros Ht; split_and!.
  - intros msqid Hi; destruct (table_queue t msqid Ht ltac:(lia)) as (q & _ & Hg & _ & Hl).
    unfold msg_put; rewrite Hg; destruct Ht as (_ & -> & _); unfold MSG_MAX_SIZE.
    by rewrite (proj2 (Z.ltb_ge _ _)) by lia.
  - intros t' Hp; destruct (q1_put _ _ _ Ht Hp) as (_ & Hf & Hm), (table_queue t 1 Ht ltac:(lia)) as (q & _ & Hg & Hf' & _).
    unfold msg_front; rewrite Hf, Hg; apply Hm; lia.
  - intros ops l t' Hr; by apply (q1_run ops t l t').
  - intros msqid Hi; unfold queue_full, get_queue; cbn [queues msgtable0].
    by rewrite lookup_replicate_2 by (unfold MSG_MAX_QUEUES; lia).
Qed.

Lemma msg_queues_wrong_witness :
  msg_put 2 [7] (msginit msgtable0) = None /\
  (if msg_run 1 [Snd [7]; Rcv 0 true] (msginit msgtable0) is Some (l, _) then length l = 1%nat else False) /\
  forall l t', msg_run 1 [Snd [7]; Rcv 0 true] (msginit msgtable0) = Some (l, t') -> [7] ∉ l.
Proof.
  destruct (msg_queues_wrong (msginit msgtable0) [7]) as (H2 & _ & H1 & _).
  { split; [reflexivity|]; split; [reflexivity|]; vm_compute; repeat constructor; discriminate. }
  split; [apply H2; lia|]; split; [vm_compute; reflexivity|].
  intros l t' Hr Hin; destruct (H1 _ _ _ Hr _ Hin) as (i & Hi & Hl).
  by apply lookup_replicate_1 in Hl as [Hl _].
Defined.

(** The hundred-and-first message received is the first one again. *)
Lemma msg_fifo_limit :
  let msgs := (fun i => [Z.of_nat i]) <$> seq 0 101 in
  match msg_run 0 ((Snd <$> msgs) ++ replicate 101 (Rcv 0 true)) (msginit msgtable0) with
  | Some (l, _) => l !! 100%nat = Some [0] /\ msgs !! 100%nat = Some [100]
  | None => False
  end.
Proof. by vm_compute. Qed.
