(* ===== verification/Syscall.v ===== *)
(** * kernel/syscall.c: the dispatcher

    [syscall] reads the number in a7, calls the handler of the table and stores
    its result in a0.  A call that exits does not come back; one that sleeps
    does so as the outcome of the monad. *)

From S2P Require Import Prelude CMem KString Riscv Kalloc Vm Locks Pipe Block Bio.
From S2P Require Import Log Fs File Printf Proc Sysproc Exec Sysfile Msg.

Definition SYS_fork : Z := 1.
Definition SYS_exit : Z := 2.
Definition SYS_wait : Z := 3.
Definition SYS_pipe : Z := 4.
Definition SYS_read : Z := 5.
Definition SYS_kill : Z := 6.
Definition SYS_exec : Z := 7.
Definition SYS_fstat : Z := 8.
Definition SYS_chdir : Z := 9.
Definition SYS_dup : Z := 10.
Definition SYS_getpid : Z := 11.
Definition SYS_sbrk : Z := 12.
Definition SYS_sleep : Z := 13.
Definition SYS_uptime : Z := 14.
Definition SYS_open : Z := 15.
Definition SYS_write : Z := 16.
Definition SYS_mknod : Z := 17.
Definition SYS_unlink : Z := 18.
Definition SYS_link : Z := 19.
Definition SYS_mkdir : Z := 20.
Definition SYS_close : Z := 21.
Definition SYS_cps : Z := 22.
Definition SYS_signal : Z := 23.
Definition SYS_msgget : Z := 24.
Definition SYS_msgsnd : Z := 25.
Definition SYS_msgrcv : Z := 26.
Definition SYS_msgctl : Z := 27.
Definition SYS_thread_create : Z := 28.
Definition SYS_thread_exit : Z := 29.
Definition SYS_thread_join : Z := 30.

(** A handler returns a value, or the process is gone. *)
Inductive sysret : Type :=
| Returned (v : Z)
| Gone.

Definition TF_A7 : Z := 168.

Section syscall.
Variable kend : Z.
Variable trampoline : Z.
Variable forkret_pc : Z.
Variable me : nat.
Variable stat_pad : list Z.
Variable msgtyp_hi : Z.
Variable devread : Z -> option (Z -> Z -> M filest Z).
Variable devwrite : Z -> option (Z -> Z -> M filest Z).

Definition ret_k (m : M kst Z) : M msgst sysret := let* v := zoom kern_of m in kret (Returned v).
Definition gone_k (m : M kst unit) : M msgst sysret := zoom kern_of m ;;; kret Gone.
Definition ret_m (m : M msgst Z) : M msgst sysret := let* v := m in kret (Returned v).

(** [syscalls[num]], for the process with the given fields. *)
Definition syscalls (p : proc) (num : Z) : option (M msgst sysret) :=
  let pid := p_pid p in
  let pt := p_pagetable p in
  let cwd := default 0%nat (p_cwd p) in
  let k := truth (p_killed p) in
  if num =? SYS_fork then Some (ret_k (sys_fork kend trampoline forkret_pc me))
  else if num =? SYS_exit then Some (gone_k (sys_exit kend me))
  else if num =? SYS_wait then Some (ret_k (sys_wait kend me))
  else if num =? SYS_pipe then Some (ret_k (sys_pipe kend me pid))
  else if num =? SYS_read then Some (ret_k (sys_read me pid pt k devread))
  else if num =? SYS_kill then Some (ret_k (sys_kill me))
  else if num =? SYS_exec then Some (ret_k (sys_exec kend trampoline me pid pt cwd))
  else if num =? SYS_fstat then Some (ret_k (sys_fstat me pid pt stat_pad))
  else if num =? SYS_chdir then Some (ret_k (sys_chdir me pid pt cwd))
  else if num =? SYS_dup then Some (ret_k (sys_dup me))
  else if num =? SYS_getpid then Some (ret_k (sys_getpid me))
  else if num =? SYS_sbrk then Some (ret_k (sys_sbrk kend me))
  else if num =? SYS_sleep then Some (ret_k (sys_sleep me))
  else if num =? SYS_uptime then Some (ret_k sys_uptime)
  else if num =? SYS_open then Some (ret_k (sys_open kend me pid pt cwd))
  else if num =? SYS_write then Some (ret_k (sys_write me pid pt k devwrite))
  else if num =? SYS_mknod then Some (ret_k (sys_mknod me pid pt cwd))
  else if num =? SYS_unlink then Some (ret_k (sys_unlink me pid pt cwd))
  else if num =? SYS_link then Some (ret_k (sys_link me pid pt cwd))
  else if num =? SYS_mkdir then Some (ret_k (sys_mkdir me pid pt cwd))
  else if num =? SYS_close then Some (ret_k (sys_close kend me pid))
  else if num =? SYS_cps then Some (ret_k sys_cps)
  else if num =? SYS_signal then Some (ret_k (sys_signal me))
  else if num =? SYS_msgget then Some (ret_m (sys_msgget me))
  else if num =? SYS_msgsnd then Some (ret_m (let* r := sys_msgsnd_seg me None in
    match r with
    | Done v => kret v
    | Blocked ch (msqid, _) => fun c s => Sleep ch (push_lock (O_msgq (Z.to_nat msqid)) c) s
    end))
  else if num =? SYS_msgrcv then Some (ret_m (sys_msgrcv me msgtyp_hi))
  else if num =? SYS_msgctl then Some (ret_m (sys_msgctl me))
  else if num =? SYS_thread_create then Some (ret_k (sys_thread_create kend forkret_pc me))
  else if num =? SYS_thread_exit then Some (gone_k (sys_thread_exit kend me))
  else if num =? SYS_thread_join then Some (ret_k (sys_thread_join kend me))
  else None.

(** Whether the process comes back from the call. *)
Definition syscall : M msgst bool :=
  let* p := zoom kern_of (pget me) in
  let* num := zoom kern_of (tf_get (p_trapframe p) TF_A7) in
  let num := i32 num in
  match syscalls p num with
  | Some f =>
      let* r := f in
      match r with
      | Returned v => zoom kern_of (tf_set (p_trapframe p) TF_A0 (u64 v)) ;;; kret true
      | Gone => kret false
      end
  | None =>
      zoom kern_of (kprintf (str "%d %s: unknown sys call %d" ++ newline)
        [VNum (p_pid p); VStr (Some (until_nul (p_name p))); VNum num]) ;;;
      zoom kern_of (tf_set (p_trapframe p) TF_A0 (u64 (-1))) ;;;
      kret true
  end.
End syscall.
