(* ===== verification/Console.v ===== *)
(** * kernel/console.c

    Line input from the serial port and the device functions of the console.
    [cur] is myproc() on the CPU that takes the interrupt, [me] the process
    that reads or writes. *)

From S2P Require Import Prelude Ring CMem KString Riscv Kalloc Vm Locks Pipe Block Bio Log Fs File Printf Proc Uart.

Definition BACKSPACE : Z := 0x100.
Definition ctrl (x : Z) : Z := x - 64.        (* C(x) *)
Definition ctrl_C : Z := ctrl 67.
Definition ctrl_D : Z := ctrl 68.
Definition ctrl_H : Z := ctrl 72.
Definition ctrl_P : Z := ctrl 80.
Definition ctrl_U : Z := ctrl 85.
Definition DEL : Z := 0x7f.
Definition INPUT_BUF_SIZE : Z := 128.

Record cons_t : Type := Cons {
  c_buf : list Z;
  c_r : Z;
  c_w : Z;
  c_e : Z
}.

Record consst : Type := ConsSt {
  con : cons_t;
  cuart : uartst;
  ckern : kst
}.
Definition cuart_of : lens consst uartst := Lens cuart (fun u s => ConsSt (con s) u (ckern s)).
Definition ckern_of : lens consst kst := Lens ckern (fun k s => ConsSt (con s) (cuart s) k).
Definition cmod (f : cons_t -> cons_t) : M consst unit := kmod (fun s => ConsSt (f (con s)) (cuart s) (ckern s)).
Definition cget : M consst cons_t := let* s := kget in kret (con s).

Definition set_e (v : Z) (c : cons_t) : cons_t := Cons (c_buf c) (c_r c) (c_w c) v.
Definition set_w (v : Z) (c : cons_t) : cons_t := Cons (c_buf c) (c_r c) v (c_e c).
Definition set_r (v : Z) (c : cons_t) : cons_t := Cons (c_buf c) v (c_w c) (c_e c).
Definition buf_at (i : Z) (c : cons_t) : Z := default 0 (c_buf c !! Z.to_nat (i mod INPUT_BUF_SIZE)).

Definition consputc (c : Z) : M consst unit :=
  if c =? BACKSPACE then
    zoom cuart_of (uartputc_sync 8) ;;; zoom cuart_of (uartputc_sync 32) ;;; zoom cuart_of (uartputc_sync 8)
  else zoom cuart_of (uartputc_sync c).

(** ** Input *)

(** The loop of control-U; each turn takes a character off the line. *)
Fixpoint kill_line (fuel : nat) : M consst unit :=
  match fuel with
  | O => stuck
  | S f =>
      let* c := cget in
      if negb (c_e c =? c_w c) && negb (buf_at (u32 (c_e c - 1)) c =? 10) then
        cmod (set_e (u32 (c_e c - 1))) ;;;
        consputc BACKSPACE ;;;
        kill_line f
      else kret tt
  end.

Definition erase : M consst unit :=
  let* c := cget in
  if negb (c_e c =? c_w c) then cmod (set_e (u32 (c_e c - 1))) ;;; consputc BACKSPACE
  else kret tt.

Definition store_char (ch : Z) (c : cons_t) : cons_t :=
  Cons (<[Z.to_nat (c_e c mod INPUT_BUF_SIZE) := u8 ch]> (c_buf c)) (c_r c) (c_w c) (u32 (c_e c + 1)).

Definition put_char (ch : Z) : M consst unit :=
  let* c := cget in
  if negb (ch =? 0) && (u32 (c_e c - c_r c) <? INPUT_BUF_SIZE) then
    let ch := if ch =? 13 then 10 else ch in
    consputc ch ;;;
    cmod (store_char ch) ;;;
    let* c := cget in
    if (ch =? 10) || (ch =? ctrl_D) || (u32 (c_e c - c_r c) =? INPUT_BUF_SIZE) then
      cmod (set_w (c_e c)) ;;;
      wakeup O_cons
    else kret tt
  else kret tt.

(** Control-C.  A handler that is set is called as a function of the kernel, at
    a user address; what that does is not defined by the source. *)
Definition interrupt_process (cur : option nat) : M consst unit :=
  match cur with
  | None => kret tt
  | Some i =>
      zoom ckern_of (kprintf (newline ++ str "Detected Ctrl+C" ++ newline) []) ;;;
      let* p := zoom ckern_of (pget i) in
      (if truth (default 0 (p_handlers p !! 2%nat)) then
         zoom ckern_of (kprintf (str "Calling custom SIGINT handler" ++ newline) []) ;;; stuck
       else zoom ckern_of (sigint_default_handler i)) ;;;
      zoom ckern_of (pmod i (set_killed 1))
  end.

Definition consoleintr (cur : option nat) (ch : Z) : M consst unit :=
  acquire O_cons ;;;
  (if ch =? ctrl_P then zoom ckern_of procdump
   else if ch =? ctrl_U then kill_line (S (Z.to_nat INPUT_BUF_SIZE))
   else if ch =? ctrl_H then erase
   else if ch =? ctrl_C then interrupt_process cur
   else if ch =? DEL then erase
   else put_char ch) ;;;
  release O_cons.

(** [uartintr] of uart.c: [fuel] is more than the number of input characters
    that are ready. *)
Fixpoint uart_input (fuel : nat) (cur : option nat) : M consst unit :=
  match fuel with
  | O => stuck
  | S f =>
      let* ch := zoom cuart_of uartgetc in
      if ch =? -1 then kret tt
      else consoleintr cur ch ;;; uart_input f cur
  end.
Definition uartintr (cur : option nat) : M consst unit :=
  let* s := kget in
  uart_input (S (length (lsr (cuart s)))) cur ;;;
  acquire O_uart ;;;
  zoom cuart_of uartstart ;;;
  release O_uart.

(** ** Device functions *)

Section dev.
Variable me : nat.

Fixpoint consolewrite_loop (k : nat) (src : src) (i : Z) : M consst Z :=
  match k with
  | O => kret i
  | S k' =>
      let* p := zoom ckern_of (pget me) in
      let* (r, bytes) := zoom ckern_of (zoom kfs_of (either_copyin (p_pagetable p) src i 1)) in
      if r =? -1 then kret i
      else
        zoom cuart_of (uartputc (default 0 (head bytes))) ;;;
        consolewrite_loop k' src (i + 1)
  end.
Definition consolewrite (src : src) (n : Z) : M consst Z := consolewrite_loop (Z.to_nat n) src 0.

(** [consoleread] with the lock held; [done] characters are copied and [n] are
    still wanted. *)
Definition read_end (target n : Z) : M consst (seg Z Z) :=
  release O_cons ;;; kret (Done (i32 (target - n))).
Fixpoint consoleread_loop (fuel : nat) (dst : dest) (target n : Z) : M consst (seg Z Z) :=
  if 0 <? n then
    match fuel with
    | O => stuck
    | S f =>
        let* c := cget in
        if c_r c =? c_w c then
          let* k := zoom ckern_of (killed me) in
          if truth k then release O_cons ;;; kret (Done (-1))
          else sleep_at O_cons O_cons n
        else
          let ch := buf_at (c_r c) c in
          cmod (set_r (u32 (c_r c + 1))) ;;;
          if ch =? ctrl_D then
            (if n <? target then cmod (fun c => set_r (u32 (c_r c - 1)) c) else kret tt) ;;;
            read_end target n
          else
            let* p := zoom ckern_of (pget me) in
            let* r := zoom ckern_of (zoom kfs_of (either_copyout (p_pagetable p) dst (target - n) [ch])) in
            if r =? -1 then read_end target n
            else if ch =? 10 then read_end target (n - 1)
            else consoleread_loop f dst target (n - 1)
    end
  else read_end target n.
(** A segment of [consoleread(dst, target)] that still wants [n] characters. *)
Definition consoleread_seg (dst : dest) (target n : Z) : M consst (seg Z Z) :=
  acquire O_cons ;;; consoleread_loop (Z.to_nat n) dst target n.
Definition consoleread (dst : dest) (n : Z) : M consst Z := whole O_cons (consoleread_seg dst n n).
End dev.

(** [consoleinit] connects the device functions: major device CONSOLE. *)
Definition CONSOLE : Z := 1.
Definition consoleinit (s : consst) : consst := ConsSt (con s) (uartinit (cuart s)) (ckern s).
