(* ===== verification/ConsoleOk.v ===== *)
(** * The console's line editor

    [consoleintr] refines an editor on two lists: the lines that are complete
    and not yet read, and the line being typed. *)

From S2P Require Import Prelude Ring CMem KString Riscv Kalloc Vm Locks Pipe Block Bio Log Fs File Printf Proc Uart Console FsAlloc.

Definition NB : Z := INPUT_BUF_SIZE.
Lemma NB_pos : 0 < NB < 2 ^ 32.
Proof. done. Qed.
Lemma NB_div : (NB | 2 ^ 32).
Proof. by exists (2 ^ 25). Qed.
#[local] Hint Resolve NB_pos NB_div : core.

(** The characters between two counters of the console. *)
Definition seg_of (c : cons_t) (a b : Z) : list Z := contents NB (2 ^ 32) (c_buf c) a b.
Definition complete (c : cons_t) : list Z := seg_of c (c_r c) (c_w c).
Definition typing (c : cons_t) : list Z := seg_of c (c_w c) (c_e c).

Record cons_inv (c : cons_t) : Prop := ConsInv {
  ci_ring : ring_inv NB (2 ^ 32) (c_buf c) (c_r c) (c_e c);
  ci_w : 0 <= c_w c < 2 ^ 32;
  ci_between : fill (2 ^ 32) (c_r c) (c_w c) + fill (2 ^ 32) (c_w c) (c_e c) = fill (2 ^ 32) (c_r c) (c_e c);
  ci_line : Forall (fun x => x <> 10) (typing c)
}.

(** The reference editor. *)
Definition edit (ch : Z) (x : list Z * list Z) : list Z * list Z :=
  let '(done, line) := x in
  if ch =? ctrl_U then (done, [])
  else if (ch =? ctrl_H) || (ch =? DEL) then (done, removelast line)
  else if (ch =? 0) || (128 <=? Z.of_nat (length done + length line)) then (done, line)
  else
    let ch := if ch =? 13 then 10 else u8 ch in
    let line := line ++ [ch] in
    if (ch =? 10) || (ch =? ctrl_D) || (Z.of_nat (length done + length line) =? 128) then (done ++ line, [])
    else (done, line).
Definition abs (c : cons_t) : list Z * list Z := (complete c, typing c).

Lemma contents_split d r w e :
  0 <= r < 2 ^ 32 -> 0 <= w < 2 ^ 32 -> 0 <= e < 2 ^ 32 ->
  fill (2 ^ 32) r w + fill (2 ^ 32) w e = fill (2 ^ 32) r e ->
  contents NB (2 ^ 32) d r e = contents NB (2 ^ 32) d r w ++ contents NB (2 ^ 32) d w e.
Proof.
  intros Hr Hw He Hf; unfold contents; rewrite <- Hf.
  pose proof (fill_range _ _ NB_pos NB_div r w); pose proof (fill_range _ _ NB_pos NB_div w e).
  rewrite Z2Nat.inj_add, ring_app by lia; f_equal; apply (ring_wrap _ _ NB_pos NB_div).
  rewrite Z2Nat.id by lia; symmetry; by apply write_index.
Qed.

Lemma cons_whole c : cons_inv c -> seg_of c (c_r c) (c_e c) = complete c ++ typing c.
Proof. intros [[_ Hr He _] Hw Hb _]; by apply contents_split. Qed.

Lemma cons_length c : cons_inv c ->
  Z.of_nat (length (complete c) + length (typing c)) = u32 (c_e c - c_r c) /\ u32 (c_e c - c_r c) <= 128.
Proof.
  intros Hc; pose proof (f_equal length (cons_whole c Hc)) as Hl; rewrite length_app in Hl; rewrite <- Hl.
  unfold seg_of; rewrite (length_contents _ _ NB_pos NB_div); split; [done|apply (ri_fill _ _ _ _ _ (ci_ring c Hc))].
Qed.

Section editor.
Variable c : cons_t.
Hypothesis Hc : cons_inv c.
#[local] Set Default Proof Using "Hc".

Lemma line_ring : ring_inv NB (2 ^ 32) (c_buf c) (c_w c) (c_e c).
Proof.
  destruct Hc as [[Hd Hr He Hf] Hw Hb _]; split; [done|done|done|].
  pose proof (fill_range _ _ NB_pos NB_div (c_r c) (c_w c)); lia.
Qed.

Lemma typing_empty : (c_e c =? c_w c) = bool_decide (typing c = []).
Proof. rewrite Z.eqb_sym; by apply (empty_iff _ _ NB_pos NB_div), line_ring. Qed.

(** Taking the last character off the line. *)
Lemma erase_ok l b : typing c = l ++ [b] ->
  buf_at (u32 (c_e c - 1)) c = b /\ cons_inv (set_e (u32 (c_e c - 1)) c) /\
  abs (set_e (u32 (c_e c - 1)) c) = (complete c, l).
Proof.
  intros Hl; destruct (unpush _ _ NB_pos NB_div _ _ _ _ _ line_ring Hl) as (Hb & Hr1 & Hq1).
  assert (Hall : seg_of c (c_r c) (c_e c) = (complete c ++ l) ++ [b]) by (by rewrite cons_whole, Hl, app_assoc).
  destruct (unpush _ _ NB_pos NB_div _ _ _ _ _ (ci_ring c Hc) Hall) as (_ & Hr2 & Hq2).
  change ((c_e c - 1) mod 2 ^ 32) with (u32 (c_e c - 1)) in *.
  split; [done|]; split; [|unfold abs, typing, complete, seg_of; cbn [set_e c_buf c_r c_w c_e]; by rewrite Hq1].
  pose proof (length_contents _ _ NB_pos NB_div (c_buf c) (c_r c) (c_w c)) as L0.
  pose proof (length_contents _ _ NB_pos NB_div (c_buf c) (c_w c) (u32 (c_e c - 1))) as L1.
  pose proof (length_contents _ _ NB_pos NB_div (c_buf c) (c_r c) (u32 (c_e c - 1))) as L2.
  rewrite Hq1 in L1; rewrite Hq2, length_app in L2; unfold complete, seg_of in L2.
  split; cbn [set_e c_buf c_r c_w c_e]; [done|apply Hc|lia|].
  unfold typing, seg_of; cbn [set_e c_buf c_w c_e]; rewrite Hq1.
  pose proof (ci_line c Hc) as Hn; rewrite Hl in Hn; by apply Forall_app in Hn as [? _].
Qed.

Lemma store_split ch : Z.of_nat (length (complete c) + length (typing c)) < 128 ->
  ring_inv NB (2 ^ 32) (c_buf (store_char ch c)) (c_r c) (u32 (c_e c + 1)) /\
  abs (store_char ch c) = (complete c, typing c ++ [u8 ch]) /\
  fill (2 ^ 32) (c_r c) (c_w c) + fill (2 ^ 32) (c_w c) (u32 (c_e c + 1)) = fill (2 ^ 32) (c_r c) (u32 (c_e c + 1)).
Proof.
  intros Hlt; destruct (cons_length c Hc) as [Hl Hle]; pose proof (ci_between c Hc) as Hb.
  pose proof (length_contents _ _ NB_pos NB_div (c_buf c) (c_r c) (c_e c)) as L1.
  pose proof (length_contents _ _ NB_pos NB_div (c_buf c) (c_w c) (c_e c)) as L2.
  pose proof (fill_range _ _ NB_pos NB_div (c_r c) (c_w c)) as F0.
  change (u32 (c_e c - c_r c)) with (fill (2 ^ 32) (c_r c) (c_e c)) in *.
  assert (H128 : NB = 128) by done.
  destruct (push _ _ NB_pos NB_div _ _ _ (u8 ch) (ci_ring c Hc) ltac:(lia)) as [Hr1 Hq1].
  destruct (push _ _ NB_pos NB_div _ _ _ (u8 ch) line_ring ltac:(lia)) as [Hr2 Hq2].
  change ((c_e c + 1) mod 2 ^ 32) with (u32 (c_e c + 1)) in *; change (c_e c mod NB) with (c_e c mod INPUT_BUF_SIZE) in *.
  assert (Hsum : fill (2 ^ 32) (c_r c) (c_w c) + fill (2 ^ 32) (c_w c) (u32 (c_e c + 1)) =
    fill (2 ^ 32) (c_r c) (u32 (c_e c + 1))).
  { destruct Hc as [[_ Hr He _] Hw _ _]; unfold u32.
    rewrite !(fill_succ _ _ NB_pos NB_div) by (done || lia); lia. }
  split; [done|]; split; [|done]; unfold abs, complete, typing, seg_of; cbn [store_char c_buf c_r c_w c_e].
  f_equal; [|done]; set (d' := <[_ := _]> _) in *.
  destruct Hr1 as [_ Hr He _]; pose proof (contents_split d' (c_r c) (c_w c) (u32 (c_e c + 1)) Hr (ci_w c Hc) He Hsum) as Hs.
  rewrite Hq1, Hq2 in Hs; pose proof (cons_whole c Hc) as Hw; unfold seg_of, complete, typing, seg_of in Hw.
  rewrite Hw, app_assoc in Hs; apply app_inj_tail in Hs as [Hs _]; by apply app_inv_tail in Hs.
Qed.

Lemma commit_ok c' :
  ring_inv NB (2 ^ 32) (c_buf c') (c_r c') (c_e c') -> 0 <= c_w c' < 2 ^ 32 ->
  fill (2 ^ 32) (c_r c') (c_w c') + fill (2 ^ 32) (c_w c') (c_e c') = fill (2 ^ 32) (c_r c') (c_e c') ->
  cons_inv (set_w (c_e c') c') /\ abs (set_w (c_e c') c') = (complete c' ++ typing c', []).
Proof using.
  intros Hr Hw Hb; pose proof Hr as [_ Hr0 He _].
  assert (F0 : fill (2 ^ 32) (c_e c') (c_e c') = 0) by (unfold fill; by rewrite Z.sub_diag).
  assert (T0 : typing (set_w (c_e c') c') = []).
  { unfold typing, seg_of, contents; cbn [set_w c_buf c_w c_e]; by rewrite F0. }
  split; [split; cbn [set_w c_buf c_r c_w c_e]; [done|done|lia|by rewrite T0]|].
  unfold abs; rewrite T0; f_equal; unfold complete, seg_of; cbn [set_w c_buf c_r c_w c_e]; by apply contents_split.
Qed.
End editor.

(** ** The handler *)

(** The state a part of the handler leaves: only the console and the serial
    port change. *)
Definition only_console (s s' : consst) : Prop := ckern s' = ckern s /\ panicked (cuart s') = 0.

Lemma putc_run ch c u : panicked u = 0 -> exists u', uartputc_sync ch c u = Ret tt c u' /\ panicked u' = 0.
Proof. intros Hp; unfold uartputc_sync, kbind, kget, kput, kmod; rewrite Hp; by eexists. Qed.

Lemma consputc_run ch c s : panicked (cuart s) = 0 ->
  exists s', consputc ch c s = Ret tt c s' /\ con s' = con s /\ only_console s s'.
Proof.
  intros Hp; unfold consputc, kbind, zoom; cbn [lget lset cuart_of].
  destruct (putc_run ch c _ Hp) as (u & Hu & Hpu); destruct (ch =? BACKSPACE); [|rewrite Hu; by eexists].
  destruct (putc_run 8 c _ Hp) as (u1 & -> & H1); cbn [cuart].
  destruct (putc_run 32 c _ H1) as (u2 & -> & H2); cbn [cuart].
  destruct (putc_run 8 c _ H2) as (u3 & -> & H3); by eexists.
Qed.

Lemma kill_line_spec fuel c s :
  cons_inv (con s) -> panicked (cuart s) = 0 -> (length (typing (con s)) < fuel)%nat ->
  exists s', kill_line fuel c s = Ret tt c s' /\ cons_inv (con s') /\
    abs (con s') = (complete (con s), []) /\ only_console s s'.
Proof.
  revert s; induction fuel as [|f IH]; intros s Hi Hp Hf; [lia|].
  cbn [kill_line]; unfold kbind at 1, cget, kbind at 1; cbn [kget kret]; rewrite (typing_empty _ Hi).
  destruct (typing (con s)) as [|b l _] eqn:Ht using rev_ind.
  { cbn; eexists; split; [done|]; unfold abs; by rewrite Ht. }
  rewrite bool_decide_eq_false_2 by (by destruct l).
  destruct (erase_ok _ Hi l b Ht) as (Hb & Hi' & Ha).
  assert (b <> 10) as Hne.
  { pose proof (ci_line _ Hi) as Hn; rewrite Ht in Hn; apply Forall_app in Hn as [_ Hn]; by inversion Hn. }
  rewrite Hb; replace (b =? 10) with false by lia; cbn [negb andb].
  unfold kbind at 1, cmod, kmod; set (s1 := ConsSt (set_e (u32 (c_e (con s) - 1)) (con s)) (cuart s) (ckern s)).
  destruct (consputc_run BACKSPACE c s1 Hp) as (s2 & Hrun & Hc2 & Hk2 & Hp2); unfold kbind; rewrite Hrun.
  unfold abs in Ha; injection Ha as Htyp.
  destruct (IH s2) as (s' & -> & Hi2 & Ha2 & Hk & Hp'); [by rewrite Hc2|done|..].
  { rewrite Hc2; unfold s1; cbn [con]; rewrite Htyp; rewrite length_app in Hf; cbn in Hf; lia. }
  exists s'; split; [done|]; split; [done|]; split; [by rewrite Ha2, Hc2|].
  split; [by rewrite Hk, Hk2|done].
Qed.

Lemma erase_spec c s :
  cons_inv (con s) -> panicked (cuart s) = 0 ->
  exists s', erase c s = Ret tt c s' /\ cons_inv (con s') /\
    abs (con s') = (complete (con s), removelast (typing (con s))) /\ only_console s s'.
Proof.
  intros Hi Hp; unfold erase, kbind at 1, cget, kbind at 1; cbn [kget kret]; rewrite (typing_empty _ Hi).
  destruct (typing (con s)) as [|b l _] eqn:Ht using rev_ind.
  { cbn; eexists; split; [done|]; unfold abs; by rewrite Ht. }
  rewrite bool_decide_eq_false_2 by (by destruct l); cbn [negb].
  destruct (erase_ok _ Hi l b Ht) as (_ & Hi' & Ha); unfold kbind, cmod, kmod.
  set (s1 := ConsSt (set_e (u32 (c_e (con s) - 1)) (con s)) (cuart s) (ckern s)).
  destruct (consputc_run BACKSPACE c s1 Hp) as (s2 & -> & Hc2 & Hk2 & Hp2).
  eexists; split; [done|]; rewrite Hc2, removelast_last; split; [done|]; split; [done|by split].
Qed.

Lemma put_char_spec ch c s :
  cons_inv (con s) -> panicked (cuart s) = 0 -> ch <> ctrl_U -> ch <> ctrl_H -> ch <> DEL -> 0 <= ch < 256 ->
  exists s' c', put_char ch c s = Ret tt c' s' /\ cons_inv (con s') /\ held c' = held c /\
    abs (con s') = edit ch (abs (con s)) /\ only_console s s' /\
    woken c' = woken c ++ (if decide (complete (con s') = complete (con s)) then [] else [O_cons]).
Proof.
  intros Hi Hp HU HH HD Hch; destruct (cons_length _ Hi) as [Hl Hle].
  unfold put_char, kbind at 1, cget, kbind at 1; cbn [kget kret]; unfold edit, abs.
  rewrite (proj2 (Z.eqb_neq ch ctrl_U) HU), (proj2 (Z.eqb_neq ch ctrl_H) HH), (proj2 (Z.eqb_neq ch DEL) HD); cbn [orb].
  rewrite <- Hl; change INPUT_BUF_SIZE with 128.
  rewrite (Z.ltb_antisym 128); destruct (ch =? 0) eqn:E0; cbn [negb andb orb].
  { eexists _, _; split; [done|]; rewrite decide_True by done; by rewrite app_nil_r. }
  destruct (128 <=? _) eqn:Efull; cbn [negb].
  { eexists _, _; split; [done|]; rewrite decide_True by done; by rewrite app_nil_r. }
  set (k := if ch =? 13 then 10 else ch).
  assert (Hk : u8 k = if ch =? 13 then 10 else u8 ch) by (unfold k; by destruct (ch =? 13)).
  assert (Hk8 : u8 k = k) by (unfold u8, k; destruct (ch =? 13); [done|]; rewrite Z.mod_small; lia).
  unfold kbind at 1; destruct (consputc_run k c s Hp) as (s2 & -> & Hc2 & Hk2 & Hp2).
  unfold kbind at 1, cmod at 1, kmod at 1; rewrite Hc2; cbn [con cuart ckern].
  destruct (store_split (con s) Hi k ltac:(lia)) as (Hr' & Ha & Hb); unfold abs in Ha; injection Ha as Hcomp Htyp.
  set (co := store_char k (con s)) in *; unfold kbind at 1, kbind at 1; cbn [kget kret con].
  rewrite <- Hk, length_app; cbn [length]; rewrite Hk8 in *.
  assert (Hlen : u32 (c_e co - c_r co) = Z.of_nat (length (complete (con s)) + (length (typing (con s)) + 1))).
  { change (u32 (c_e co - c_r co)) with (fill (2 ^ 32) (c_r (con s)) (u32 (c_e (con s) + 1))).
    pose proof (length_contents _ _ NB_pos NB_div (c_buf co) (c_r co) (c_w co)) as L1.
    pose proof (length_contents _ _ NB_pos NB_div (c_buf co) (c_w co) (c_e co)) as L2.
    change (contents NB (2 ^ 32) (c_buf co) (c_r co) (c_w co)) with (complete co) in L1.
    change (contents NB (2 ^ 32) (c_buf co) (c_w co) (c_e co)) with (typing co) in L2.
    rewrite Hcomp in L1; rewrite Htyp, length_app in L2; cbn [length] in L2; rewrite <- Hb.
    change (c_w co) with (c_w (con s)) in *; change (c_r co) with (c_r (con s)) in *.
    change (c_e co) with (u32 (c_e (con s) + 1)) in *; lia. }
  rewrite Hlen; match goal with |- context [if ?b then cmod _ ;;; _ else _] => destruct b eqn:Ec end.
  - destruct (commit_ok co Hr' (ci_w _ Hi) Hb) as [Hi2 Ha2].
    unfold kbind, cmod, kmod, wakeup; eexists _, _; split; [done|]; cbn [con held woken add_woken].
    split; [done|]; split; [done|]; unfold abs in Ha2; rewrite Ha2, Hcomp, Htyp; split; [done|].
    apply (f_equal fst) in Ha2; cbn [fst] in Ha2.
    split; [by split|]; rewrite Ha2, Hcomp, Htyp, decide_False; [done|].
    intros Heq; apply (f_equal length) in Heq; rewrite !length_app in Heq; cbn in Heq; lia.
  - eexists _, _; split; [reflexivity|]; cbn [con]; rewrite Hcomp, Htyp, decide_True by done.
    split; [|split; [done|]; split; [done|]; split; [by split|by rewrite app_nil_r]].
    split; [done|apply (ci_w _ Hi)|done|]; rewrite Htyp; apply Forall_app; split; [apply (ci_line _ Hi)|].
    apply Forall_singleton; lia.
Qed.

(** C9: the console is a line editor.  For every input character but
    control-P and control-C, [consoleintr] returns with the lock released, the
    invariant kept and the two lists changed as the reference editor says; it
    wakes readers exactly when a line has become readable. *)
Theorem console_edits cur ch c s :
  cons_inv (con s) -> panicked (cuart s) = 0 -> O_cons ∉ held c ->
  0 <= ch < 256 -> ch <> ctrl_P -> ch <> ctrl_C ->
  exists s' c', consoleintr cur ch c s = Ret tt c' s' /\ held c' = held c /\ cons_inv (con s') /\
    abs (con s') = edit ch (abs (con s)) /\ ckern s' = ckern s /\
    (length (complete (con s')) + length (typing (con s')) <= 128)%nat /\
    woken c' = woken c ++ (if decide (complete (con s') = complete (con s)) then [] else [O_cons]).
Proof.
  intros Hi Hp Hh Hch HP HC.
  assert (exists c1 s1, (if ch =? ctrl_P then zoom ckern_of procdump
   else if ch =? ctrl_U then kill_line (S (Z.to_nat INPUT_BUF_SIZE))
   else if ch =? ctrl_H then erase
   else if ch =? ctrl_C then interrupt_process cur
   else if ch =? DEL then erase
   else put_char ch) (push_lock O_cons c) s = Ret tt c1 s1 /\ held c1 = O_cons :: held c /\ cons_inv (con s1) /\
      abs (con s1) = edit ch (abs (con s)) /\ only_console s s1 /\
      woken c1 = woken c ++ (if decide (complete (con s1) = complete (con s)) then [] else [O_cons]))
    as (c1 & s1 & Hrun & Hh1 & Hi1 & Ha1 & [Hk1 _] & Hw1).
  { rewrite (proj2 (Z.eqb_neq ch ctrl_P) HP), (proj2 (Z.eqb_neq ch ctrl_C) HC).
    assert (Hsame : forall s1 x, abs (con s1) = (complete (con s), x) ->
      woken c = woken c ++ (if decide (complete (con s1) = complete (con s)) then [] else [O_cons])).
    { intros s1 x Ha; injection Ha as Ha _; by rewrite decide_True, app_nil_r by done. }
    unfold edit, abs at 2; destruct (Z.eqb_spec ch ctrl_U) as [->|HU].
    { destruct (kill_line_spec (S (Z.to_nat INPUT_BUF_SIZE)) (push_lock O_cons c) s Hi Hp) as (s1 & -> & Hi1 & Ha & Ho).
      { destruct (cons_length _ Hi); change (S (Z.to_nat INPUT_BUF_SIZE)) with 129%nat; lia. }
      eexists _, _; split; [done|]; split; [done|]; split; [done|]; split; [done|]; split; [done|by eapply Hsame]. }
    destruct (erase_spec (push_lock O_cons c) s Hi Hp) as (s1 & Her & Hi1 & Ha & Ho).
    destruct (Z.eqb_spec ch ctrl_H) as [->|HH]; [|destruct (Z.eqb_spec ch DEL) as [->|HD]]; cbn [orb].
    1-2: rewrite Her; eexists _, _; split; [done|]; split; [done|]; split; [done|]; split; [done|]; split; [done|by eapply Hsame].
    destruct (put_char_spec ch (push_lock O_cons c) s Hi Hp HU HH HD Hch) as (s2 & c2 & -> & Hi2 & Hh2 & Ha2 & Ho2 & Hw2).
    exists c2, s2; split; [done|]; split; [done|]; split; [done|]; split; [|by split].
    rewrite Ha2; unfold edit, abs.
    by rewrite (proj2 (Z.eqb_neq ch ctrl_U) HU), (proj2 (Z.eqb_neq ch ctrl_H) HH), (proj2 (Z.eqb_neq ch DEL) HD). }
  exists s1, (Ctx (held c) (woken c1)); split; [by apply critical_run|]; destruct (cons_length _ Hi1).
  split; [done|]; split; [done|]; split; [done|]; split; [done|]; split; [lia|done].
Qed.

(** ** Witness: h, i, backspace, newline *)

Definition demo_cons : cons_t := Cons (replicate 128 0) (2 ^ 32 - 1) (2 ^ 32 - 1) (2 ^ 32 - 1).
Definition demo_kst : kst := Kst (replicate 64 proc0) 1 None 0 [] (FileSt fileinit (fun _ => pipe_init []) demo_fs).
Definition demo_consst : consst := ConsSt (store_char 104 demo_cons) demo_uart demo_kst.

Lemma demo_cons_inv : cons_inv (con demo_consst).
Proof.
  split; [split|..]; cbn [demo_consst con store_char demo_cons c_buf c_r c_w c_e]; try (by vm_compute).
  by repeat constructor.
Qed.

Lemma console_edits_witness :
  exists s' c', consoleintr None 10 (Ctx [] []) demo_consst = Ret tt c' s' /\
    abs (con s') = ([104; 10], []) /\ woken c' = [O_cons].
Proof.
  destruct (console_edits None 10 (Ctx [] []) demo_consst) as (s' & c' & Hrun & _ & _ & Ha & _ & _ & Hw);
    [apply demo_cons_inv|done|apply not_elem_of_nil|done|done|done|].
  exists s', c'; split; [done|]; assert (abs (con s') = ([104; 10], [])) as Ha' by (rewrite Ha; by vm_compute).
  split; [done|]; rewrite Hw, decide_False; [done|].
  apply (f_equal fst) in Ha'; cbn in Ha'; rewrite Ha'; by vm_compute.
Defined.
