(* ===== verification/Virtio.v ===== *)
(** * kernel/virtio_disk.c

    The driver of the virtio disk: the descriptor table and the two rings it
    shares with the device, its own book-keeping, and the requests in flight.
    The addresses stored in descriptors are symbolic.  The stores to the
    QUEUE_NOTIFY and INTERRUPT_ACK registers only tell the device when to look
    and have no effect on this state. *)

From S2P Require Import Prelude CMem KString Riscv Kalloc Vm Block Bio.

Definition NUM : Z := 8.
Definition VRING_DESC_F_NEXT : Z := 1.
Definition VRING_DESC_F_WRITE : Z := 2.
Definition VIRTIO_BLK_T_IN : Z := 0.
Definition VIRTIO_BLK_T_OUT : Z := 1.

(** What a descriptor points to: a request header, the data of a buffer, a
    status byte. *)
Inductive daddr : Type :=
| ANull
| AOps (i : nat)
| AData (b : nat)
| AStatus (i : nat).

Record virtq_desc : Type := Desc {
  d_addr : daddr;
  d_len : Z;
  d_flags : Z;
  d_next : Z
}.
Definition desc0 : virtq_desc := Desc ANull 0 0 0.

Record virtio_blk_req : Type := Req {
  r_type : Z;
  r_reserved : Z;
  r_sector : Z
}.

Record disk_t : Type := Disk {
  desc : list virtq_desc;
  avail_idx : Z;
  avail_ring : list Z;
  used_elems_idx : Z;            (* disk.used->idx, written by the device *)
  used_ring : list Z;            (* the ids of disk.used->ring *)
  dfree : list bool;
  used_idx : Z;
  info_b : list (option nat);
  info_status : list Z;
  ops : list virtio_blk_req
}.

(** The buffers as the driver sees them. *)
Record vbuf : Type := VBuf {
  vb_blockno : Z;
  vb_disk : Z;
  vb_data : list Z
}.
Definition vbuf0 : vbuf := VBuf 0 0 [].

Record vst : Type := VSt {
  dk : disk_t;
  vbufs : list vbuf
}.

Definition get_desc (i : nat) (d : disk_t) : virtq_desc := default desc0 (desc d !! i).
Definition set_desc (i : nat) (x : virtq_desc) (d : disk_t) : disk_t :=
  Disk (<[i := x]> (desc d)) (avail_idx d) (avail_ring d) (used_elems_idx d) (used_ring d) (dfree d) (used_idx d)
    (info_b d) (info_status d) (ops d).
Definition set_free (i : nat) (x : bool) (d : disk_t) : disk_t :=
  Disk (desc d) (avail_idx d) (avail_ring d) (used_elems_idx d) (used_ring d) (<[i := x]> (dfree d)) (used_idx d)
    (info_b d) (info_status d) (ops d).
Definition set_info_b (i : nat) (x : option nat) (d : disk_t) : disk_t :=
  Disk (desc d) (avail_idx d) (avail_ring d) (used_elems_idx d) (used_ring d) (dfree d) (used_idx d)
    (<[i := x]> (info_b d)) (info_status d) (ops d).
Definition set_status (i : nat) (x : Z) (d : disk_t) : disk_t :=
  Disk (desc d) (avail_idx d) (avail_ring d) (used_elems_idx d) (used_ring d) (dfree d) (used_idx d)
    (info_b d) (<[i := x]> (info_status d)) (ops d).
Definition set_op (i : nat) (x : virtio_blk_req) (d : disk_t) : disk_t :=
  Disk (desc d) (avail_idx d) (avail_ring d) (used_elems_idx d) (used_ring d) (dfree d) (used_idx d)
    (info_b d) (info_status d) (<[i := x]> (ops d)).
Definition push_avail (h : Z) (d : disk_t) : disk_t :=
  Disk (desc d) (u16 (avail_idx d + 1)) (<[Z.to_nat (avail_idx d mod NUM) := h]> (avail_ring d))
    (used_elems_idx d) (used_ring d) (dfree d) (used_idx d) (info_b d) (info_status d) (ops d).
Definition bump_used_idx (d : disk_t) : disk_t :=
  Disk (desc d) (avail_idx d) (avail_ring d) (used_elems_idx d) (used_ring d) (dfree d) (u16 (used_idx d + 1))
    (info_b d) (info_status d) (ops d).

Definition vmod (f : disk_t -> disk_t) : M vst unit := kmod (fun s => VSt (f (dk s)) (vbufs s)).
Definition vget : M vst disk_t := let* s := kget in kret (dk s).
Definition get_vbuf (b : nat) (s : vst) : vbuf := default vbuf0 (vbufs s !! b).
Definition set_vdisk (b : nat) (v : Z) (s : vst) : vst :=
  VSt (dk s) (alter (fun x => VBuf (vb_blockno x) v (vb_data x)) b (vbufs s)).

(** ** Descriptors *)

(** The first free descriptor from [i] on. *)
Fixpoint find_desc (l : list bool) (i : nat) : option nat :=
  match l with
  | [] => None
  | x :: l' => if (x : bool) then Some i else find_desc l' (S i)
  end.
Definition alloc_desc : M vst (option nat) :=
  let* d := vget in
  match find_desc (dfree d) 0 with
  | Some i => vmod (set_free i false) ;;; kret (Some i)
  | None => kret None
  end.

Definition free_desc (i : nat) : M vst unit :=
  if NUM <=? Z.of_nat i then panic "free_desc 1"
  else
    let* d := vget in
    if default false (dfree d !! i) then panic "free_desc 2"
    else
      vmod (set_desc i desc0) ;;;
      vmod (set_free i true) ;;;
      wakeup O_diskfree.

(** A chain has at most NUM descriptors. *)
Fixpoint free_chain (fuel : nat) (i : nat) : M vst unit :=
  match fuel with
  | O => stuck
  | S f =>
      let* d := vget in
      let flag := d_flags (get_desc i d) in
      let nxt := d_next (get_desc i d) in
      free_desc i ;;;
      if truth (Z.land flag VRING_DESC_F_NEXT) then free_chain f (Z.to_nat nxt) else kret tt
  end.

(** [idx], or nothing when there are not three free descriptors. *)
Definition alloc3_desc : M vst (option (nat * nat * nat)) :=
  let* i0 := alloc_desc in
  match i0 with
  | None => kret None
  | Some i0 =>
      let* i1 := alloc_desc in
      match i1 with
      | None => free_desc i0 ;;; kret None
      | Some i1 =>
          let* i2 := alloc_desc in
          match i2 with
          | None => free_desc i0 ;;; free_desc i1 ;;; kret None
          | Some i2 => kret (Some (i0, i1, i2))
          end
      end
  end.

(** ** Requests *)

(** Lines 235 to 281: format the descriptors and tell the device. *)
Definition submit (b : nat) (write : bool) (sector : Z) (i0 i1 i2 : nat) : M vst unit :=
  vmod (set_op i0 (Req (if write then VIRTIO_BLK_T_OUT else VIRTIO_BLK_T_IN) 0 sector)) ;;;
  vmod (set_desc i0 (Desc (AOps i0) 16 VRING_DESC_F_NEXT (Z.of_nat i1))) ;;;
  vmod (set_desc i1 (Desc (AData b) BSIZE
    (Z.lor (if write then 0 else VRING_DESC_F_WRITE) VRING_DESC_F_NEXT) (Z.of_nat i2))) ;;;
  vmod (set_status i0 0xff) ;;;
  vmod (set_desc i2 (Desc (AStatus i0) 1 VRING_DESC_F_WRITE 0)) ;;;
  kmod (set_vdisk b 1) ;;;
  vmod (set_info_b i0 (Some b)) ;;;
  vmod (push_avail (Z.of_nat i0)).

(** Where a sleeping [virtio_disk_rw] goes on: it waits for descriptors, or for
    the request whose first descriptor is [i0]. *)
Inductive rw_pc : Type :=
| WaitDesc
| WaitDone (i0 : nat).

(** The wait for the request and what follows it. *)
Definition rw_wait (b i0 : nat) : M vst (seg unit rw_pc) :=
  let* s := kget in
  if vb_disk (get_vbuf b s) =? 1 then sleep_at (O_buf b) O_vdisk (WaitDone i0)
  else
    vmod (set_info_b i0 None) ;;;
    free_chain (Z.to_nat NUM) i0 ;;;
    release O_vdisk ;;;
    kret (Done tt).

(** A segment of [virtio_disk_rw(b, write)]. *)
Definition disk_rw_seg (b : nat) (write : bool) (p : rw_pc) : M vst (seg unit rw_pc) :=
  acquire O_vdisk ;;;
  match p with
  | WaitDone i0 => rw_wait b i0
  | WaitDesc =>
      let* s := kget in
      let sector := u32 (vb_blockno (get_vbuf b s) * (BSIZE / 512)) in
      let* r := alloc3_desc in
      match r with
      | None => sleep_at O_diskfree O_vdisk WaitDesc
      | Some (i0, i1, i2) => submit b write sector i0 i1 i2 ;;; rw_wait b i0
      end
  end.

(** The loop of [virtio_disk_intr]; a null buffer would be dereferenced. *)
Fixpoint intr_loop (fuel : nat) : M vst unit :=
  let* d := vget in
  if used_idx d =? used_elems_idx d then kret tt
  else
    match fuel with
    | O => stuck
    | S f =>
        let id := Z.to_nat (default 0 (used_ring d !! Z.to_nat (used_idx d mod NUM))) in
        if negb (default 0 (info_status d !! id) =? 0) then panic "virtio_disk_intr status"
        else
          match default None (info_b d !! id) with
          | None => stuck
          | Some b =>
              kmod (set_vdisk b 0) ;;;
              wakeup (O_buf b) ;;;
              vmod bump_used_idx ;;;
              intr_loop f
          end
    end.
Definition virtio_disk_intr : M vst unit :=
  acquire O_vdisk ;;;
  intr_loop (Z.to_nat NUM) ;;;
  release O_vdisk.

(** ** Initialisation

    [R] gives the values that reads of the device's registers return; the
    result is the registers written, in order, and the addresses of the
    descriptor table and of the two rings. *)

Definition VIRTIO_MMIO_MAGIC_VALUE : Z := 0x000.
Definition VIRTIO_MMIO_VERSION : Z := 0x004.
Definition VIRTIO_MMIO_DEVICE_ID : Z := 0x008.
Definition VIRTIO_MMIO_VENDOR_ID : Z := 0x00c.
Definition VIRTIO_MMIO_DEVICE_FEATURES : Z := 0x010.
Definition VIRTIO_MMIO_DRIVER_FEATURES : Z := 0x020.
Definition VIRTIO_MMIO_QUEUE_SEL : Z := 0x030.
Definition VIRTIO_MMIO_QUEUE_NUM_MAX : Z := 0x034.
Definition VIRTIO_MMIO_QUEUE_NUM : Z := 0x038.
Definition VIRTIO_MMIO_QUEUE_READY : Z := 0x044.
Definition VIRTIO_MMIO_STATUS : Z := 0x070.
Definition VIRTIO_MMIO_QUEUE_DESC_LOW : Z := 0x080.
Definition VIRTIO_MMIO_QUEUE_DESC_HIGH : Z := 0x084.
Definition VIRTIO_MMIO_DRIVER_DESC_LOW : Z := 0x090.
Definition VIRTIO_MMIO_DRIVER_DESC_HIGH : Z := 0x094.
Definition VIRTIO_MMIO_DEVICE_DESC_LOW : Z := 0x0a0.
Definition VIRTIO_MMIO_DEVICE_DESC_HIGH : Z := 0x0a4.
Definition VIRTIO_CONFIG_S_ACKNOWLEDGE : Z := 1.
Definition VIRTIO_CONFIG_S_DRIVER : Z := 2.
Definition VIRTIO_CONFIG_S_DRIVER_OK : Z := 4.
Definition VIRTIO_CONFIG_S_FEATURES_OK : Z := 8.

(** The feature bits the driver declines: RO, SCSI, CONFIG_WCE, MQ, ANY_LAYOUT,
    EVENT_IDX, INDIRECT_DESC.  The masks are ints, widened with their sign. *)
Definition declined : list Z := [5; 7; 11; 12; 27; 29; 28].
Definition negotiate (features : Z) : Z :=
  fold_left (fun f bit => Z.land f (Z.lnot (Z.shiftl 1 bit))) declined features.

Definition virtio_disk_init (R : Z -> Z) : M pmem (list (Z * Z) * (Z * Z * Z)) :=
  if negb (R VIRTIO_MMIO_MAGIC_VALUE =? 0x74726976) || negb (R VIRTIO_MMIO_VERSION =? 2)
     || negb (R VIRTIO_MMIO_DEVICE_ID =? 2) || negb (R VIRTIO_MMIO_VENDOR_ID =? 0x554d4551)
  then panic "could not find virtio disk"
  else
    let s1 := VIRTIO_CONFIG_S_ACKNOWLEDGE in
    let s2 := Z.lor s1 VIRTIO_CONFIG_S_DRIVER in
    let features := negotiate (R VIRTIO_MMIO_DEVICE_FEATURES) in
    let s3 := Z.lor s2 VIRTIO_CONFIG_S_FEATURES_OK in
    let status := R VIRTIO_MMIO_STATUS in
    if negb (truth (Z.land status VIRTIO_CONFIG_S_FEATURES_OK)) then panic "virtio disk FEATURES_OK unset"
    else if truth (R VIRTIO_MMIO_QUEUE_READY) then panic "virtio disk should not be ready"
    else if R VIRTIO_MMIO_QUEUE_NUM_MAX =? 0 then panic "virtio disk has no queue 0"
    else if R VIRTIO_MMIO_QUEUE_NUM_MAX <? NUM then panic "virtio disk max queue too short"
    else
      let* desc := kalloc in
      let* avail := kalloc in
      let* used := kalloc in
      if (desc =? 0) || (avail =? 0) || (used =? 0) then panic "virtio disk kalloc"
      else
        zero_page desc ;;;
        zero_page avail ;;;
        zero_page used ;;;
        kret ([(VIRTIO_MMIO_STATUS, 0); (VIRTIO_MMIO_STATUS, s1); (VIRTIO_MMIO_STATUS, s2);
               (VIRTIO_MMIO_DRIVER_FEATURES, u32 features); (VIRTIO_MMIO_STATUS, s3);
               (VIRTIO_MMIO_QUEUE_SEL, 0);
               (VIRTIO_MMIO_QUEUE_NUM, NUM);
               (VIRTIO_MMIO_QUEUE_DESC_LOW, u32 desc); (VIRTIO_MMIO_QUEUE_DESC_HIGH, u32 (Z.shiftr desc 32));
               (VIRTIO_MMIO_DRIVER_DESC_LOW, u32 avail); (VIRTIO_MMIO_DRIVER_DESC_HIGH, u32 (Z.shiftr avail 32));
               (VIRTIO_MMIO_DEVICE_DESC_LOW, u32 used); (VIRTIO_MMIO_DEVICE_DESC_HIGH, u32 (Z.shiftr used 32));
               (VIRTIO_MMIO_QUEUE_READY, 1);
               (VIRTIO_MMIO_STATUS, Z.lor status VIRTIO_CONFIG_S_DRIVER_OK)],
              (desc, avail, used)).

(** The driver's state after initialisation. *)
Definition disk_init : disk_t :=
  Disk (replicate 8 desc0) 0 (replicate 8 0) 0 (replicate 8 0) (replicate 8 true) 0
    (replicate 8 None) (replicate 8 0) (replicate 8 (Req 0 0 0)).
