(* ===== verification/VirtioSys.v ===== *)
(** * The virtio disk driver with its device

    Processes in virtio_disk_rw, the interrupt handler and the device take
    turns over the descriptor table and the two rings.  The device is hardware:
    it is a parameter, and [device_spec] is what the virtio specification
    (sections 2.6 and 5.2) says of a device that reports success.  Driver code
    between two switches runs under vdisk_lock, so its segments are the steps;
    the device moves between them. *)

From stdpp Require Import functions gmap.
From S2P Require Import Prelude Ring Riscv Block Bio Virtio.

(** ** The device *)

(** How far the device has looked in the available ring, the requests it is
    working on, and the blocks of the disk. *)
Record dev : Type := Dev {
  seen : Z;
  busy : list nat;
  blk : Z -> list Z
}.

Definition set_used (h : Z) (d : disk_t) : disk_t :=
  Disk (desc d) (avail_idx d) (avail_ring d) (u16 (used_elems_idx d + 1))
    (<[Z.to_nat (used_elems_idx d mod NUM) := h]> (used_ring d)) (dfree d) (used_idx d) (info_b d) (info_status d) (ops d).
Definition set_vdata (b : nat) (l : list Z) (bs : list vbuf) : list vbuf :=
  alter (fun x => VBuf (vb_blockno x) (vb_disk x) l) b bs.

Definition dev_fetch (v : vst) (x : dev) : vst * dev :=
  (v, Dev (u16 (seen x + 1)) (busy x ++ [Z.to_nat (default 0 (avail_ring (dk v) !! Z.to_nat (seen x mod NUM)))]) (blk x)).

(** A block request: a chain of a header the device reads, one block of data
    it reads or writes as the header says, and a status byte it writes. *)
Record request : Type := Request { q_buf : nat; q_write : bool; q_block : Z; q_status : nat }.
Definition dev_request (h : nat) (d : disk_t) : option request :=
  let d0 := get_desc h d in
  let d1 := get_desc (Z.to_nat (d_next d0)) d in
  let d2 := get_desc (Z.to_nat (d_next d1)) d in
  match d_addr d0, d_addr d1, d_addr d2 with
  | AOps i, AData b, AStatus j =>
      let op := default (Req 0 0 0) (ops d !! i) in
      let out := r_type op =? VIRTIO_BLK_T_OUT in
      if (d_flags d0 =? VRING_DESC_F_NEXT) && (d_len d0 =? 16) &&
         (d_len d1 =? BSIZE) && (d_flags d1 =? if out then VRING_DESC_F_NEXT else 3) &&
         (d_flags d2 =? VRING_DESC_F_WRITE) && (d_len d2 =? 1) &&
         (out || (r_type op =? VIRTIO_BLK_T_IN)) && Z.even (r_sector op)
      then Some (Request b out (r_sector op / 2) j)
      else None
  | _, _, _ => None
  end.
Definition dev_complete (h : nat) (v : vst) (x : dev) : option (vst * dev) :=
  match dev_request h (dk v) with
  | None => None
  | Some q =>
      let d := set_used (Z.of_nat h) (set_status (q_status q) 0 (dk v)) in
      let rest := filter (fun k => k <> h) (busy x) in
      Some (if q_write q
            then (VSt d (vbufs v), Dev (seen x) rest (<[q_block q := vb_data (get_vbuf (q_buf q) v)]> (blk x)))
            else (VSt d (set_vdata (q_buf q) (blk x (q_block q)) (vbufs v)), Dev (seen x) rest (blk x)))
  end.

(** ** The system *)

(** A call of virtio_disk_rw in progress: the operation, where it waits, and,
    to state what it must do, the buffer and the block as they were when it
    was called. *)
Record call : Type := Call {
  k_write : bool;
  k_pc : rw_pc;
  k_data : list Z;
  k_block : list Z
}.
Record dsys : Type := DSys {
  drv : vst;
  hw : dev;
  calls : nat -> option call
}.

Definition blockno (b : nat) (v : vst) : Z := vb_blockno (get_vbuf b v).
Definition idle_buf (x : vbuf) : Prop := vb_disk x = 0 /\ 0 <= vb_blockno x < 2 ^ 31.

(** Where a segment leaves the call. *)
Definition after (k : call) (r : seg unit rw_pc) : option call :=
  match r with
  | Done _ => None
  | Blocked _ p => Some (Call (k_write k) p (k_data k) (k_block k))
  end.

Section device.
Variable device : vst * dev -> vst * dev -> Prop.

(** A device step takes the next available request, or completes one it has
    taken.  About a malformed request the specification says nothing. *)
Definition device_ok : Prop := forall v x y, device (v, x) y ->
  (seen x <> avail_idx (dk v) /\ y = dev_fetch v x) \/
  (exists h, h ∈ busy x /\ match dev_complete h v x with Some z => y = z | None => True end).

Inductive dstep : dsys -> dsys -> Prop :=
| d_call s b w r c v :
    (* the caller holds b->lock, and the buffer cache has one buffer per block *)
    calls s b = None -> (b < length (vbufs (drv s)))%nat ->
    (forall b', calls s b' <> None -> blockno b' (drv s) <> blockno b (drv s)) ->
    disk_rw_seg b w WaitDesc (Ctx [] []) (drv s) = Ret r c v ->
    dstep s (DSys v (hw s)
      (<[b := after (Call w WaitDesc (vb_data (get_vbuf b (drv s))) (blk (hw s) (blockno b (drv s)))) r]> (calls s)))
| d_resume s b k r c v :
    calls s b = Some k -> disk_rw_seg b (k_write k) (k_pc k) (Ctx [] []) (drv s) = Ret r c v ->
    dstep s (DSys v (hw s) (<[b := after k r]> (calls s)))
| d_intr s c v :
    virtio_disk_intr (Ctx [] []) (drv s) = Ret tt c v -> dstep s (DSys v (hw s) (calls s))
| d_device s v x :
    device (drv s, hw s) (v, x) -> dstep s (DSys v x (calls s))
| d_buffer s b x :
    (* the owner of a buffer that is not in a call changes it *)
    calls s b = None -> idle_buf x ->
    dstep s (DSys (VSt (dk (drv s)) (<[b := x]> (vbufs (drv s)))) (hw s) (calls s)).

(** After virtio_disk_init, whatever the disk holds. *)
Inductive dreach : dsys -> Prop :=
| dr_init bs f : Forall idle_buf bs -> dreach (DSys (VSt disk_init bs) (Dev 0 [] f) (fun _ => None))
| dr_step s s' : dreach s -> dstep s s' -> dreach s'.
End device.

(** ** The invariant

    [C] maps the first descriptor of each request in flight to its buffer and
    its two other descriptors.  A request is in the available ring, in the
    device's hands, in the used ring, or finished and waiting for its
    process: the lists [qa], [busy], [qu] and [qf]. *)

#[local] Abbreviation chains := (gmap nat (nat * nat * nat)).

Definition desc_of (C : chains) (h i : nat) : Prop :=
  exists b i1 i2, C !! h = Some (b, i1, i2) /\ (i = h \/ i = i1 \/ i = i2).

Definition shape (d : disk_t) : Prop :=
  length (desc d) = 8%nat /\ length (dfree d) = 8%nat /\ length (info_b d) = 8%nat /\
  length (info_status d) = 8%nat /\ length (ops d) = 8%nat.

(** The descriptors in use are exactly those of the requests, three each. *)
Record owns (fr : list bool) (C : chains) : Prop := {
  o_range h i : desc_of C h i -> (i < 8)%nat;
  o_dist h b i1 i2 : C !! h = Some (b, i1, i2) -> h <> i1 /\ h <> i2 /\ i1 <> i2;
  o_disj h h' i : desc_of C h i -> desc_of C h' i -> h = h';
  o_free i : (i < 8)%nat -> fr !! i = Some false <-> exists h, desc_of C h i
}.

Record queues (C : chains) (qs : list nat) : Prop := {
  q_dom h : is_Some (C !! h) <-> h ∈ qs;
  q_nodup : NoDup qs
}.

Definition formatted (d : disk_t) (b : nat) (w : bool) (sector : Z) (h i1 i2 : nat) : Prop :=
  desc d !! h = Some (Desc (AOps h) 16 VRING_DESC_F_NEXT (Z.of_nat i1)) /\
  desc d !! i1 = Some (Desc (AData b) BSIZE (Z.lor (if w then 0 else VRING_DESC_F_WRITE) VRING_DESC_F_NEXT) (Z.of_nat i2)) /\
  desc d !! i2 = Some (Desc (AStatus h) 1 VRING_DESC_F_WRITE 0) /\
  ops d !! h = Some (Req (if w then VIRTIO_BLK_T_OUT else VIRTIO_BLK_T_IN) 0 sector) /\
  info_b d !! h = Some (Some b).

Definition sector_of (b : nat) (v : vst) : Z := u32 (vb_blockno (get_vbuf b v) * (BSIZE / 512)).

(** Before and after the device has done the transfer. *)
Definition before (s : dsys) (b : nat) (k : call) : Prop :=
  vb_data (get_vbuf b (drv s)) = k_data k /\ blk (hw s) (blockno b (drv s)) = k_block k.
Definition transferred (s : dsys) (b : nat) (k : call) : Prop :=
  vb_data (get_vbuf b (drv s)) = (if k_write k then k_data k else k_block k) /\
  blk (hw s) (blockno b (drv s)) = (if k_write k then k_data k else k_block k).

(** The request with first descriptor [h]. *)
Record chain_ok (s : dsys) (qu qf : list nat) (h b i1 i2 : nat) (k : call) : Prop := {
  ch_call : calls s b = Some k;
  ch_pc : k_pc k = WaitDone h;
  ch_fmt : formatted (dk (drv s)) b (k_write k) (sector_of b (drv s)) h i1 i2;
  ch_disk : vb_disk (get_vbuf b (drv s)) = if decide (h ∈ qf) then 0 else 1;
  ch_status : h ∈ qu -> info_status (dk (drv s)) !! h = Some 0;
  ch_data : if decide (h ∈ qu ++ qf) then transferred s b k else before s b k
}.

(** A call in progress. *)
Record call_ok (s : dsys) (C : chains) (b : nat) (k : call) : Prop := {
  ca_len : (b < length (vbufs (drv s)))%nat;
  ca_block : 0 <= blockno b (drv s) < 2 ^ 31;
  ca_pc : match k_pc k with
          | WaitDesc => vb_disk (get_vbuf b (drv s)) = 0 /\ before s b k
          | WaitDone h => exists i1 i2, C !! h = Some (b, i1, i2)
          end
}.

Record dinv (s : dsys) (C : chains) (qa qu qf : list nat) : Prop := {
  n_shape : shape (dk (drv s));
  n_owns : owns (dfree (dk (drv s))) C;
  n_queues : queues C (qa ++ busy (hw s) ++ qu ++ qf);
  n_avail : ring_inv 8 65536 (avail_ring (dk (drv s))) (seen (hw s)) (avail_idx (dk (drv s))) /\
    contents 8 65536 (avail_ring (dk (drv s))) (seen (hw s)) (avail_idx (dk (drv s))) = Z.of_nat <$> qa;
  n_used : ring_inv 8 65536 (used_ring (dk (drv s))) (used_idx (dk (drv s))) (used_elems_idx (dk (drv s))) /\
    contents 8 65536 (used_ring (dk (drv s))) (used_idx (dk (drv s))) (used_elems_idx (dk (drv s))) = Z.of_nat <$> qu;
  n_chain h b i1 i2 : C !! h = Some (b, i1, i2) -> exists k, chain_ok s qu qf h b i1 i2 k;
  n_call b k : calls s b = Some k -> call_ok s C b k;
  n_idle b x : calls s b = None -> vbufs (drv s) !! b = Some x -> idle_buf x;
  n_distinct b b' : calls s b <> None -> calls s b' <> None -> b <> b' -> blockno b (drv s) <> blockno b' (drv s)
}.

(** ** What the driver's functions do *)

(** Project the fields of an updated state. *)
Ltac dsimp :=
  cbn [desc avail_idx avail_ring used_elems_idx used_ring dfree used_idx info_b info_status ops
       set_desc set_free set_info_b set_status set_op push_avail bump_used_idx set_used dk vbufs
       drv hw calls seen busy blk held woken] in *.

Lemma find_desc_spec l n :
  match find_desc l n with
  | Some i => (n <= i)%nat /\ l !! (i - n)%nat = Some true
  | None => forall j, l !! j <> Some true
  end.
Proof.
  revert n; induction l as [|[] l IH]; intros n; cbn [find_desc]; [done| |].
  { by rewrite Nat.sub_diag. }
  specialize (IH (S n)); destruct (find_desc l (S n)) as [i|].
  - destruct IH as [Hn IH]; split; [lia|]; by replace (i - n)%nat with (S (i - S n)) by lia.
  - by intros [|j]; [|apply IH].
Qed.

Lemma alloc_desc_run c d bs :
  match find_desc (dfree d) 0 with
  | Some i => alloc_desc c (VSt d bs) = Ret (Some i) c (VSt (set_free i false d) bs) /\ dfree d !! i = Some true
  | None => alloc_desc c (VSt d bs) = Ret None c (VSt d bs)
  end.
Proof.
  pose proof (find_desc_spec (dfree d) 0) as H; unfold alloc_desc, vget, vmod, kbind, kget; cbn.
  destruct (find_desc (dfree d) 0) as [i|]; cbn; [|done]; split; [done|].
  by destruct H as [_ H]; rewrite Nat.sub_0_r in H.
Qed.

Lemma free_desc_run i c d bs :
  (i < 8)%nat -> dfree d !! i = Some false ->
  free_desc i c (VSt d bs) =
    Ret tt (Ctx (held c) (woken c ++ [O_diskfree])) (VSt (set_free i true (set_desc i desc0 d)) bs).
Proof.
  intros Hi Hf; unfold free_desc, NUM; rewrite (proj2 (Z.leb_gt _ _)) by lia.
  unfold vget, vmod, kbind, kget; cbn; by rewrite Hf.
Qed.

(** [d'] is [d] but for the contents of free descriptors. *)
Definition same_in_use (d d' : disk_t) : Prop :=
  length (desc d') = length (desc d) /\
  (forall i, dfree d !! i <> Some true -> desc d' !! i = desc d !! i) /\
  d' = Disk (desc d') (avail_idx d) (avail_ring d) (used_elems_idx d) (used_ring d) (dfree d) (used_idx d)
         (info_b d) (info_status d) (ops d).

Lemma realloc_same (d : disk_t) i :
  dfree d !! i = Some true -> same_in_use d (set_free i true (set_desc i desc0 (set_free i false d))).
Proof.
  intros Hf; split; [dsimp; by rewrite length_insert|]; split.
  - intros j Hj; dsimp; by rewrite list_lookup_insert_ne by congruence.
  - unfold set_free, set_desc; dsimp; rewrite list_insert_insert_eq, (list_insert_id (dfree d) i true Hf); reflexivity.
Qed.

Lemma alloc3_run c d bs :
  length (dfree d) = 8%nat ->
  (exists i0 i1 i2, alloc3_desc c (VSt d bs) =
      Ret (Some (i0, i1, i2)) c (VSt (set_free i2 false (set_free i1 false (set_free i0 false d))) bs) /\
     dfree d !! i0 = Some true /\ dfree d !! i1 = Some true /\ dfree d !! i2 = Some true /\
     i0 <> i1 /\ i0 <> i2 /\ i1 <> i2) \/
  (exists c' d', alloc3_desc c (VSt d bs) = Ret None c' (VSt d' bs) /\ held c' = held c /\ same_in_use d d').
Proof.
  intros Hl; unfold alloc3_desc.
  pose proof (alloc_desc_run c d bs) as H0; destruct (find_desc (dfree d) 0) as [i0|].
  2:{ right; exists c, d; rewrite (kbind_run _ _ _ _ _ _ _ H0); split; [done|]; split; [done|]; by destruct d. }
  destruct H0 as [E0 H0]; pose proof (lookup_lt_Some _ _ _ H0) as L0; rewrite Hl in L0.
  set (d0 := set_free i0 false d) in *; rewrite (kbind_run _ _ _ _ _ _ _ E0).
  pose proof (alloc_desc_run c d0 bs) as H1; destruct (find_desc (dfree d0) 0) as [i1|].
  2:{ right; rewrite (kbind_run _ _ _ _ _ _ _ H1).
      rewrite (kbind_run _ _ _ _ _ _ _ (free_desc_run i0 c d0 bs L0 ltac:(unfold d0; dsimp; by rewrite list_lookup_insert_eq by lia))).
      eexists _, _; split; [done|]; split; [done|]; by apply realloc_same. }
  destruct H1 as [E1 H1]; rewrite (kbind_run _ _ _ _ _ _ _ E1).
  assert (N01 : i0 <> i1) by (intros ->; unfold d0 in H1; dsimp; rewrite list_lookup_insert_eq in H1; [done|lia]).
  unfold d0 in H1; dsimp; rewrite list_lookup_insert_ne in H1 by done.
  pose proof (lookup_lt_Some _ _ _ H1) as L1; rewrite Hl in L1.
  set (d1 := set_free i1 false d0) in *.
  pose proof (alloc_desc_run c d1 bs) as H2; destruct (find_desc (dfree d1) 0) as [i2|].
  - left; destruct H2 as [E2 H2]; rewrite (kbind_run _ _ _ _ _ _ _ E2); exists i0, i1, i2; unfold d1, d0 in H2; dsimp.
    assert (i1 <> i2) by (intros ->; rewrite list_lookup_insert_eq in H2; [done|rewrite length_insert; lia]).
    rewrite list_lookup_insert_ne in H2 by done.
    assert (i0 <> i2) by (intros ->; rewrite list_lookup_insert_eq in H2; [done|lia]).
    by rewrite list_lookup_insert_ne in H2 by done.
  - right; rewrite (kbind_run _ _ _ _ _ _ _ H2).
    assert (F0 : dfree d1 !! i0 = Some false).
    { unfold d1, d0; dsimp; rewrite list_lookup_insert_ne by done; by rewrite list_lookup_insert_eq by lia. }
    rewrite (kbind_run _ _ _ _ _ _ _ (free_desc_run i0 c d1 bs L0 F0)).
    assert (F1 : dfree (set_free i0 true (set_desc i0 desc0 d1)) !! i1 = Some false).
    { unfold d1, d0; dsimp; rewrite list_lookup_insert_ne by done.
      by rewrite list_lookup_insert_eq by (rewrite length_insert; lia). }
    rewrite (kbind_run _ _ _ _ _ _ _ (free_desc_run i1 _ _ bs L1 F1)).
    eexists _, _; split; [done|]; split; [done|]; unfold d1, d0; split; [dsimp; by rewrite !length_insert|]; split.
    + intros j Hj; dsimp; by rewrite !list_lookup_insert_ne by congruence.
    + unfold set_free, set_desc; dsimp; f_equal.
      rewrite (list_insert_insert_ne _ i0 i1 true false) by done.
      rewrite !list_insert_insert_eq, (list_insert_id (dfree d) i0 true H0).
      by rewrite (list_insert_id (dfree d) i1 true H1).
Qed.
