(* ===== verification/VirtioOk.v ===== *)
(** * The virtio disk driver is correct

    Every step of the system of VirtioSys.v keeps its invariant, from which
    follow that no driver function panics, that a call returns with exactly
    its block transferred, and that finished requests are seen. *)

From stdpp Require Import functions gmap.
From S2P Require Import Prelude Ring Riscv Block Bio Virtio VirtioSys.

#[local] Abbreviation chains := (gmap nat (nat * nat * nat)).

(** ** Frames *)

Lemma queues_perm (C : chains) qs qs' : qs ≡ₚ qs' -> queues C qs -> queues C qs'.
Proof. intros Hp [Hd Hn]; split; [intros h; by rewrite <- Hp|by rewrite <- Hp]. Qed.

Lemma get_alter b b' f d d' bs :
  get_vbuf b (VSt d (alter f b' bs)) =
  if decide (b = b' /\ (b < length bs)%nat) then f (get_vbuf b (VSt d' bs)) else get_vbuf b (VSt d' bs).
Proof.
  unfold get_vbuf; cbn; destruct (decide (b = b')) as [->|Hn].
  - rewrite list_lookup_alter_eq; case_decide as H.
    + by destruct (lookup_lt_is_Some_2 bs b') as [x ->]; [lia|].
    + destruct (bs !! b') eqn:E; [|done]; apply lookup_lt_Some in E; lia.
  - by rewrite list_lookup_alter_ne, decide_False by naive_solver.
Qed.

(** A request that a step does not touch stays as it is. *)
Lemma request_frame s s' qu qu' qf qf' h b i1 i2 k :
  chain_ok s qu qf h b i1 i2 k ->
  calls s' b = calls s b ->
  (forall i, i = h \/ i = i1 \/ i = i2 -> desc (dk (drv s')) !! i = desc (dk (drv s)) !! i) ->
  ops (dk (drv s')) !! h = ops (dk (drv s)) !! h -> info_b (dk (drv s')) !! h = info_b (dk (drv s)) !! h ->
  info_status (dk (drv s')) !! h = info_status (dk (drv s)) !! h ->
  get_vbuf b (drv s') = get_vbuf b (drv s) ->
  blk (hw s') (blockno b (drv s)) = blk (hw s) (blockno b (drv s)) ->
  (h ∈ qu' <-> h ∈ qu) -> (h ∈ qf' <-> h ∈ qf) ->
  chain_ok s' qu' qf' h b i1 i2 k.
Proof.
  intros [Hc Hp (F1 & F2 & F3 & F4 & F5) Hd Hs Ht] Ec Ed Eo Ei Es Ev Eb Hu Hf.
  assert (Hq : h ∈ qu' ++ qf' <-> h ∈ qu ++ qf) by (rewrite !elem_of_app; tauto).
  unfold transferred, before, blockno in *.
  split; unfold formatted, sector_of, transferred, before, blockno; rewrite ?Ev, ?Eb, ?Es, ?Ei, ?Eo, ?Ec.
  - done.
  - done.
  - rewrite !Ed by auto; done.
  - by rewrite Hd; apply decide_ext.
  - by rewrite Hu.
  - destruct (decide (h ∈ qu ++ qf)) as [Hin|Hin]; [rewrite decide_True by tauto|rewrite decide_False by tauto]; done.
Qed.

Lemma call_frame s s' (C C' : chains) b k :
  call_ok s C b k -> length (vbufs (drv s')) = length (vbufs (drv s)) ->
  vb_blockno (get_vbuf b (drv s')) = vb_blockno (get_vbuf b (drv s)) ->
  (k_pc k = WaitDesc -> get_vbuf b (drv s') = get_vbuf b (drv s) /\
     blk (hw s') (blockno b (drv s)) = blk (hw s) (blockno b (drv s))) ->
  (forall h i1 i2, k_pc k = WaitDone h -> C !! h = Some (b, i1, i2) -> C' !! h = Some (b, i1, i2)) ->
  call_ok s' C' b k.
Proof.
  intros [Hl Hb Hp] El Eb Ew EC; split; [by rewrite El|unfold blockno in *; by rewrite Eb|].
  destruct (k_pc k) as [|h] eqn:Hk.
  - destruct (Ew eq_refl) as [E1 E2]; unfold before, blockno in *; by rewrite E1, E2.
  - destruct Hp as (i1 & i2 & Hp); exists i1, i2; by apply EC.
Qed.

(** Two requests in flight belong to two calls. *)
Lemma chain_buf s C qa qu qf h h' b b' i1 i2 j1 j2 :
  dinv s C qa qu qf -> C !! h = Some (b, i1, i2) -> C !! h' = Some (b', j1, j2) -> h <> h' -> b <> b'.
Proof.
  intros Hi H1 H2 Hn ->; destruct (n_chain _ _ _ _ _ Hi _ _ _ _ H1) as [k [E1 P1 _ _ _ _]].
  destruct (n_chain _ _ _ _ _ Hi _ _ _ _ H2) as [k' [E2 P2 _ _ _ _]]; congruence.
Qed.

Lemma chain_range s C qa qu qf h b i1 i2 :
  dinv s C qa qu qf -> C !! h = Some (b, i1, i2) -> (h < 8 /\ i1 < 8 /\ i2 < 8)%nat.
Proof. intros Hi H; split_and!; eapply (o_range _ _ (n_owns _ _ _ _ _ Hi)); repeat eexists; eauto. Qed.

(** ** Steps of the driver *)

(** The contents of free descriptors do not matter. *)
Lemma inv_same_in_use s C qa qu qf d' :
  dinv s C qa qu qf -> same_in_use (dk (drv s)) d' ->
  dinv (DSys (VSt d' (vbufs (drv s))) (hw s) (calls s)) C qa qu qf.
Proof.
  intros Hi (Hl & Hs & ->); destruct s as [[d bs] x cs]; dsimp.
  pose proof (n_owns _ _ _ _ _ Hi) as Ho; destruct Hi as [Hsh _ Hq Ha Hu Hch Hca Hid Hdi]; dsimp.
  split; dsimp; try done.
  - destruct Hsh as (H1 & H2 & H3 & H4 & H5); split_and!; dsimp; congruence.
  - intros h b i1 i2 HC; destruct (Hch h b i1 i2 HC) as [k Hk]; exists k.
    apply (request_frame _ _ _ _ _ _ _ _ _ _ _ Hk); try done; dsimp.
    intros i Hi'; apply Hs; assert (desc_of C h i) as Hd by (repeat eexists; eauto).
    pose proof (proj2 (o_free _ _ Ho i (o_range _ _ Ho h i Hd)) (ex_intro _ h Hd)); congruence.
  - intros b k Hc; destruct (Hca b k Hc) as [A1 A2 A3]; by split.
Qed.

(** A call arrives. *)
Lemma inv_call s C qa qu qf b k :
  dinv s C qa qu qf -> calls s b = None -> (b < length (vbufs (drv s)))%nat ->
  (forall b', calls s b' <> None -> blockno b' (drv s) <> blockno b (drv s)) ->
  k_pc k = WaitDesc -> before s b k ->
  dinv (DSys (drv s) (hw s) (<[b := Some k]> (calls s))) C qa qu qf.
Proof.
  intros Hi Hn Hb Hd Hk Hbe; destruct s as [v x cs]; dsimp.
  destruct Hi as [Hsh Ho Hq Ha Hu Hch Hca Hid Hdi]; dsimp.
  destruct (lookup_lt_is_Some_2 _ _ Hb) as [y Hy]; destruct (Hid b y Hn Hy) as [Hy1 Hy2].
  assert (Hg : get_vbuf b v = y) by (unfold get_vbuf; by rewrite Hy).
  split; dsimp; try done.
  - intros h b' i1 i2 HC; destruct (Hch h b' i1 i2 HC) as [k' Hk']; exists k'.
    apply (request_frame _ _ _ _ _ _ _ _ _ _ _ Hk'); try done; dsimp.
    rewrite fn_lookup_insert_ne; [done|]; intros ->; pose proof (ch_call _ _ _ _ _ _ _ _ Hk') as E; dsimp; congruence.
  - intros b' k' Hc; destruct (decide (b = b')) as [<-|Hne].
    + rewrite fn_lookup_insert in Hc; injection Hc as <-; split; dsimp; [done|unfold blockno; by rewrite Hg|].
      rewrite Hk, Hg; done.
    + rewrite fn_lookup_insert_ne in Hc by done; destruct (Hca b' k' Hc) as [A1 A2 A3]; by split.
  - intros b' z Hc Hz; apply (Hid b'); [|done]; destruct (decide (b = b')) as [<-|Hne]; [done|].
    by rewrite fn_lookup_insert_ne in Hc by done.
  - intros b1 b2 H1 H2 Hne.
    destruct (decide (b = b1)) as [<-|N1].
    { rewrite fn_lookup_insert_ne in H2 by done; by apply not_eq_sym, Hd. }
    rewrite fn_lookup_insert_ne in H1 by done; destruct (decide (b = b2)) as [<-|N2]; [by apply Hd|].
    rewrite fn_lookup_insert_ne in H2 by done; by apply Hdi.
Qed.

(** The owner of a buffer changes it between calls. *)
Lemma inv_buffer s C qa qu qf b x :
  dinv s C qa qu qf -> calls s b = None -> idle_buf x ->
  dinv (DSys (VSt (dk (drv s)) (<[b := x]> (vbufs (drv s)))) (hw s) (calls s)) C qa qu qf.
Proof.
  intros Hi Hn Hx; destruct s as [[d bs] y cs]; dsimp.
  destruct Hi as [Hsh Ho Hq Ha Hu Hch Hca Hid Hdi]; dsimp.
  assert (Hg : forall b', cs b' <> None -> get_vbuf b' (VSt d (<[b:=x]> bs)) = get_vbuf b' (VSt d bs)).
  { intros b' Hb'; unfold get_vbuf; dsimp; rewrite list_lookup_insert_ne; [done|congruence]. }
  split; dsimp; try done.
  - intros h b' i1 i2 HC; destruct (Hch h b' i1 i2 HC) as [k Hk]; exists k.
    apply (request_frame _ _ _ _ _ _ _ _ _ _ _ Hk); try done; dsimp.
    apply Hg; pose proof (ch_call _ _ _ _ _ _ _ _ Hk) as E; dsimp; congruence.
  - intros b' k Hc; apply (call_frame _ _ _ _ _ _ (Hca b' k Hc)); dsimp; [by rewrite length_insert| | |done].
    + by rewrite Hg by congruence.
    + by rewrite Hg by congruence.
  - intros b' z Hc Hz; destruct (decide (b = b')) as [<-|Hne]; [|rewrite list_lookup_insert_ne in Hz by done; by apply (Hid b')].
    pose proof (lookup_lt_Some _ _ _ Hz) as L; rewrite length_insert in L.
    rewrite list_lookup_insert_eq in Hz by done; by injection Hz as <-.
  - intros b1 b2 H1 H2 Hne; unfold blockno; rewrite !Hg by done; by apply Hdi.
Qed.

(** A request is submitted. *)
Definition submitted (d : disk_t) (b : nat) (w : bool) (sector : Z) (i0 i1 i2 : nat) : disk_t :=
  push_avail (Z.of_nat i0) (set_info_b i0 (Some b)
    (set_desc i2 (Desc (AStatus i0) 1 VRING_DESC_F_WRITE 0) (set_status i0 0xff
      (set_desc i1 (Desc (AData b) BSIZE (Z.lor (if w then 0 else VRING_DESC_F_WRITE) VRING_DESC_F_NEXT) (Z.of_nat i2))
        (set_desc i0 (Desc (AOps i0) 16 VRING_DESC_F_NEXT (Z.of_nat i1))
          (set_op i0 (Req (if w then VIRTIO_BLK_T_OUT else VIRTIO_BLK_T_IN) 0 sector)
            (set_free i2 false (set_free i1 false (set_free i0 false d))))))))).

Lemma owns_free fr C i h : owns fr C -> fr !! i = Some true -> ~ desc_of C h i.
Proof.
  intros Ho Hf Hd; pose proof (proj2 (o_free _ _ Ho i (o_range _ _ Ho h i Hd)) (ex_intro _ h Hd)); congruence.
Qed.

Lemma desc_of_insert (C : chains) h b i1 i2 h' i :
  C !! h = None ->
  desc_of (<[h := (b, i1, i2)]> C) h' i <-> (h' = h /\ (i = h \/ i = i1 \/ i = i2)) \/ desc_of C h' i.
Proof.
  intros Hn; unfold desc_of; destruct (decide (h = h')) as [<-|Hne].
  - setoid_rewrite lookup_insert_eq; setoid_rewrite Hn; naive_solver.
  - setoid_rewrite lookup_insert_ne; [|done]; naive_solver.
Qed.

Lemma owns_insert fr C b i0 i1 i2 :
  owns fr C -> length fr = 8%nat -> fr !! i0 = Some true -> fr !! i1 = Some true -> fr !! i2 = Some true ->
  i0 <> i1 -> i0 <> i2 -> i1 <> i2 ->
  owns (<[i2 := false]> (<[i1 := false]> (<[i0 := false]> fr))) (<[i0 := (b, i1, i2)]> C).
Proof.
  intros Ho Hl F0 F1 F2 N01 N02 N12.
  assert (HC : C !! i0 = None).
  { destruct (C !! i0) as [[[b' j1] j2]|] eqn:E; [|done]; exfalso.
    apply (owns_free _ _ i0 i0 Ho F0); repeat eexists; eauto. }
  assert (Hfree : forall h i, i = i0 \/ i = i1 \/ i = i2 -> ~ desc_of C h i) by (intros h i [->|[->| ->]]; by apply (owns_free fr)).
  assert (Hlt : forall i, i = i0 \/ i = i1 \/ i = i2 -> (i < 8)%nat)
    by (intros i [->|[->| ->]]; rewrite <- Hl; by eapply lookup_lt_Some).
  split.
  - intros h i; rewrite desc_of_insert by done; intros [[_ H]|H]; [by apply Hlt|by apply (o_range _ _ Ho h)].
  - intros h b' j1 j2; destruct (decide (i0 = h)) as [<-|Hne].
    + rewrite lookup_insert_eq; by intros [= <- <- <-].
    + rewrite lookup_insert_ne by done; by apply (o_dist _ _ Ho).
  - intros h h' i; rewrite !desc_of_insert by done; intros [[-> H]|H] [[-> H']|H']; try done.
    + by destruct (Hfree h' i H).
    + by destruct (Hfree h i H').
    + by apply (o_disj _ _ Ho h h' i).
  - intros i Hi; setoid_rewrite desc_of_insert; [|done].
    destruct (decide (i = i0 \/ i = i1 \/ i = i2)) as [Hin|Hin].
    + split; [intros _; exists i0; auto|intros _].
      rewrite !list_lookup_insert, !length_insert; repeat case_decide; naive_solver lia.
    + rewrite !list_lookup_insert_ne by naive_solver; rewrite (o_free _ _ Ho i Hi); naive_solver.
Qed.

(** A queue that does not hold every descriptor has room. *)
Lemma queue_short s C qa qu qf q h :
  dinv s C qa qu qf -> NoDup q -> (forall y, y ∈ q -> is_Some (C !! y)) -> (h < 8)%nat -> h ∉ q -> (length q < 8)%nat.
Proof.
  intros Hi Hn Hq Hh Hnin; assert (h :: q ⊆+ seq 0 8) as Hs.
  { apply NoDup_submseteq; [by constructor|].
    intros y; rewrite elem_of_cons, elem_of_seq; intros [->|Hy]; [lia|]; destruct (Hq y Hy) as [[[b i1] i2] HC].
    destruct (chain_range _ _ _ _ _ _ _ _ _ Hi HC); lia. }
  apply submseteq_length in Hs; rewrite length_seq in Hs; cbn in Hs; lia.
Qed.

Lemma queues_parts (C : chains) qa bz qu qf :
  queues C (qa ++ bz ++ qu ++ qf) ->
  NoDup qa /\ NoDup bz /\ NoDup qu /\ NoDup qf /\
  (forall y, y ∈ qa \/ y ∈ bz \/ y ∈ qu \/ y ∈ qf -> is_Some (C !! y)) /\
  (forall y, y ∈ bz -> y ∉ qu ++ qf) /\ (forall y, y ∈ qu -> y ∉ qf).
Proof.
  intros [Hd Hn]; apply NoDup_app in Hn as (N1 & _ & Hn); apply NoDup_app in Hn as (N2 & D2 & Hn).
  apply NoDup_app in Hn as (N3 & D3 & N4); split_and!; try done.
  intros y Hy; apply Hd; rewrite !elem_of_app; tauto.
Qed.

Lemma submitted_shape d b w sec i0 i1 i2 : shape d -> shape (submitted d b w sec i0 i1 i2).
Proof. intros (H1 & H2 & H3 & H4 & H5); unfold submitted; split_and!; dsimp; by rewrite ?length_insert. Qed.

Lemma submitted_formatted d b w sec i0 i1 i2 :
  shape d -> (i0 < 8 /\ i1 < 8 /\ i2 < 8)%nat -> i0 <> i1 -> i0 <> i2 -> i1 <> i2 ->
  formatted (submitted d b w sec i0 i1 i2) b w sec i0 i1 i2.
Proof.
  intros (H1 & H2 & H3 & H4 & H5) (L0 & L1 & L2) N01 N02 N12; unfold submitted, formatted; dsimp.
  rewrite !list_lookup_insert, !length_insert; repeat case_decide; naive_solver lia.
Qed.

Definition with_disk (v : Z) (x : vbuf) : vbuf := VBuf (vb_blockno x) v (vb_data x).

Lemma get_with_disk b b' z d d' bs :
  (b < length bs)%nat ->
  get_vbuf b (VSt d (alter (with_disk z) b' bs)) =
  if decide (b = b') then with_disk z (get_vbuf b (VSt d' bs)) else get_vbuf b (VSt d' bs).
Proof. intros Hb; rewrite (get_alter b b' _ d d'); apply decide_ext; naive_solver. Qed.

Lemma blockno_with_disk b b' z d d' bs :
  blockno b (VSt d (alter (with_disk z) b' bs)) = blockno b (VSt d' bs).
Proof. unfold blockno; rewrite (get_alter b b' _ d d'); by case_decide. Qed.

Lemma inv_submit d bs x cs C qa qu qf b k i0 i1 i2 :
  dinv (DSys (VSt d bs) x cs) C qa qu qf -> cs b = Some k -> k_pc k = WaitDesc ->
  dfree d !! i0 = Some true -> dfree d !! i1 = Some true -> dfree d !! i2 = Some true ->
  i0 <> i1 -> i0 <> i2 -> i1 <> i2 ->
  dinv (DSys (VSt (submitted d b (k_write k) (sector_of b (VSt d bs)) i0 i1 i2) (alter (with_disk 1) b bs)) x
          (<[b := Some (Call (k_write k) (WaitDone i0) (k_data k) (k_block k))]> cs))
       (<[i0 := (b, i1, i2)]> C) (qa ++ [i0]) qu qf.
Proof.
  intros Hi Hk Hpc F0 F1 F2 N01 N02 N12; set (d' := submitted d b (k_write k) (sector_of b (VSt d bs)) i0 i1 i2).
  pose proof (n_shape _ _ _ _ _ Hi) as Hsh; pose proof (n_owns _ _ _ _ _ Hi) as Ho; dsimp.
  assert (L : forall i, dfree d !! i = Some true -> (i < 8)%nat)
    by (intros i Hf; destruct Hsh as (_ & <- & _); by eapply lookup_lt_Some).
  assert (HC : C !! i0 = None).
  { destruct (C !! i0) as [[[b' j1] j2]|] eqn:E; [|done]; exfalso.
    apply (owns_free _ _ i0 i0 Ho F0); repeat eexists; eauto. }
  destruct (n_call _ _ _ _ _ Hi b k Hk) as [Hlen Hbn Hw]; rewrite Hpc in Hw; destruct Hw as [Hdk Hbe]; dsimp.
  pose proof (n_queues _ _ _ _ _ Hi) as [Hqd Hqn]; dsimp.
  assert (H0q : i0 ∉ qa ++ busy x ++ qu ++ qf) by (rewrite <- Hqd, HC; by intros [? ?]).
  destruct (queues_parts _ _ _ _ _ (n_queues _ _ _ _ _ Hi)) as (Hna & _ & _ & _ & Hsome & _).
  assert (Hqa : (length qa < 8)%nat) by (apply (queue_short _ _ _ _ _ qa i0 Hi); auto; set_solver).
  assert (H0u : (i0 ∉ qu) /\ (i0 ∉ qf)) by (rewrite !elem_of_app in H0q; tauto).
  assert (Hother : forall h b' j1 j2 i, C !! h = Some (b', j1, j2) -> i = h \/ i = j1 \/ i = j2 ->
    i <> i0 /\ i <> i1 /\ i <> i2).
  { intros h b' j1 j2 i E Hin; assert (desc_of C h i) as D by (repeat eexists; eauto).
    split_and!; intros ->; [apply (owns_free _ _ i0 h Ho F0 D)|apply (owns_free _ _ i1 h Ho F1 D)|apply (owns_free _ _ i2 h Ho F2 D)]. }
  split; dsimp.
  - by apply submitted_shape.
  - by apply owns_insert; try done; apply Hsh.
  - apply (queues_perm _ (i0 :: qa ++ busy x ++ qu ++ qf)); [by rewrite <- !app_assoc, (Permutation_middle qa)|].
    split; [|by constructor]; intros h; rewrite elem_of_cons, <- Hqd.
    destruct (decide (i0 = h)) as [<-|Hne]; [rewrite lookup_insert_eq; split; eauto|].
    rewrite lookup_insert_ne by done; naive_solver.
  - destruct (n_avail _ _ _ _ _ Hi) as [Hr Hc]; dsimp; unfold d', submitted; dsimp; rewrite fmap_app, <- Hc.
    apply push; [lia|by exists 8192|done|]; rewrite Hc, length_fmap; lia.
  - apply (n_used _ _ _ _ _ Hi).
  - intros h b' j1 j2; destruct (decide (i0 = h)) as [<-|Hne].
    + rewrite lookup_insert_eq; intros [= <- <- <-]; eexists.
      split; dsimp; [by rewrite fn_lookup_insert|done| | |by intros ?; tauto|].
      * unfold sector_of; rewrite (get_with_disk _ _ _ _ d) by done; rewrite decide_True by done; cbn.
        apply submitted_formatted; auto.
      * rewrite (get_with_disk _ _ _ _ d), decide_True by done; cbn; by rewrite decide_False by tauto.
      * rewrite decide_False by (rewrite elem_of_app; tauto); unfold before in *; dsimp.
        rewrite (blockno_with_disk _ _ _ _ d), (get_with_disk _ _ _ _ d), decide_True by done; done.
    + rewrite lookup_insert_ne by done; intros E; destruct (n_chain _ _ _ _ _ Hi _ _ _ _ E) as [k' Hk']; exists k'.
      assert (Hbb : b' <> b).
      { intros ->; pose proof (ch_call _ _ _ _ _ _ _ _ Hk'); pose proof (ch_pc _ _ _ _ _ _ _ _ Hk'); dsimp; congruence. }
      pose proof (n_call _ _ _ _ _ Hi b' k' (ch_call _ _ _ _ _ _ _ _ Hk')) as [Hlen' _ _]; dsimp.
      apply (request_frame _ _ _ _ _ _ _ _ _ _ _ Hk'); dsimp; try done.
      * by rewrite fn_lookup_insert_ne.
      * intros i Hin; destruct (Hother _ _ _ _ _ E Hin) as (? & ? & ?); unfold d', submitted; dsimp.
        by rewrite !list_lookup_insert_ne.
      * unfold d', submitted; dsimp; by rewrite list_lookup_insert_ne.
      * unfold d', submitted; dsimp; by rewrite list_lookup_insert_ne.
      * unfold d', submitted; dsimp; by rewrite list_lookup_insert_ne.
      * rewrite (get_with_disk _ _ _ _ d) by done; by rewrite decide_False.
  - intros b' k'; destruct (decide (b = b')) as [<-|Hne].
    + rewrite fn_lookup_insert; intros [= <-]; split; dsimp; [by rewrite length_alter|by rewrite (blockno_with_disk _ _ _ _ d)|].
      exists i1, i2; by rewrite lookup_insert_eq.
    + rewrite fn_lookup_insert_ne by done; intros Hc; pose proof (n_call _ _ _ _ _ Hi b' k' Hc) as Hca.
      pose proof (ca_len _ _ _ _ Hca) as Hl'; dsimp.
      apply (call_frame _ _ _ _ _ _ Hca); dsimp; [by rewrite length_alter| | |].
      * apply (blockno_with_disk b' b 1 d' d).
      * intros _; split; [|done]; rewrite (get_with_disk _ _ _ _ d) by done; by rewrite decide_False by done.
      * intros h j1 j2 _ E; rewrite lookup_insert_ne; [done|]; intros <-; congruence.
  - intros b' y; destruct (decide (b = b')) as [<-|Hne]; [by rewrite fn_lookup_insert|].
    rewrite fn_lookup_insert_ne, list_lookup_alter_ne by done; apply (n_idle _ _ _ _ _ Hi).
  - intros b1 b2 H1 H2 Hne; rewrite !(blockno_with_disk _ _ _ _ d); apply (n_distinct _ _ _ _ _ Hi); dsimp; try done.
    + destruct (decide (b = b1)) as [<-|]; [congruence|by rewrite fn_lookup_insert_ne in H1].
    + destruct (decide (b = b2)) as [<-|]; [congruence|by rewrite fn_lookup_insert_ne in H2].
Qed.

(** A call whose request has finished frees its descriptors. *)
Definition finished (d : disk_t) (h i1 i2 : nat) : disk_t :=
  set_free i2 true (set_desc i2 desc0 (set_free i1 true (set_desc i1 desc0
    (set_free h true (set_desc h desc0 (set_info_b h None d)))))).

Lemma free_chain_step f i c d bs x :
  (i < 8)%nat -> dfree d !! i = Some false -> desc d !! i = Some x ->
  free_chain (S f) i c (VSt d bs) =
  (if truth (Z.land (d_flags x) VRING_DESC_F_NEXT) then free_chain f (Z.to_nat (d_next x)) else kret tt)
    (Ctx (held c) (woken c ++ [O_diskfree])) (VSt (set_free i true (set_desc i desc0 d)) bs).
Proof.
  intros Hi Hf Hx; cbn [free_chain]; unfold vget, kget, kret, get_desc; unfold kbind at 1 2; dsimp; rewrite Hx.
  by rewrite (kbind_run _ _ _ _ _ _ _ (free_desc_run i c d bs Hi Hf)).
Qed.

Lemma free_chain_run d bs b w sec h i1 i2 c :
  formatted d b w sec h i1 i2 -> (h < 8 /\ i1 < 8 /\ i2 < 8)%nat -> h <> i1 -> h <> i2 -> i1 <> i2 ->
  dfree d !! h = Some false -> dfree d !! i1 = Some false -> dfree d !! i2 = Some false ->
  exists c', free_chain (Z.to_nat NUM) h c (VSt (set_info_b h None d) bs) = Ret tt c' (VSt (finished d h i1 i2) bs) /\
    held c' = held c.
Proof.
  intros (D0 & D1 & D2 & _) (L0 & L1 & L2) N1 N2 N12 F0 F1 F2; change (Z.to_nat NUM) with 8%nat.
  rewrite (free_chain_step _ h _ (set_info_b h None d) bs _ L0 F0 D0); cbn [d_flags d_next]; rewrite Nat2Z.id.
  change (truth (Z.land VRING_DESC_F_NEXT VRING_DESC_F_NEXT)) with true; cbv iota.
  rewrite (free_chain_step _ i1 _ _ _ (Desc (AData b) BSIZE (Z.lor (if w then 0 else VRING_DESC_F_WRITE) VRING_DESC_F_NEXT) (Z.of_nat i2)) L1)
    by (dsimp; by rewrite list_lookup_insert_ne).
  cbn [d_flags d_next]; rewrite Nat2Z.id.
  replace (truth (Z.land (Z.lor (if w then 0 else VRING_DESC_F_WRITE) VRING_DESC_F_NEXT) VRING_DESC_F_NEXT)) with true
    by (by destruct w).
  rewrite (free_chain_step _ i2 _ _ _ (Desc (AStatus h) 1 VRING_DESC_F_WRITE 0) L2)
    by (dsimp; by rewrite !list_lookup_insert_ne).
  by eexists.
Qed.

Lemma desc_of_delete (C : chains) h h' i : desc_of (delete h C) h' i <-> h' <> h /\ desc_of C h' i.
Proof.
  unfold desc_of; destruct (decide (h = h')) as [<-|Hne].
  - setoid_rewrite lookup_delete_eq; naive_solver.
  - setoid_rewrite lookup_delete_ne; [|done]; naive_solver.
Qed.

Lemma owns_delete fr (C : chains) h b i1 i2 :
  owns fr C -> length fr = 8%nat -> C !! h = Some (b, i1, i2) ->
  owns (<[i2 := true]> (<[i1 := true]> (<[h := true]> fr))) (delete h C).
Proof.
  intros Ho Hl HC; split.
  - intros h' i; rewrite desc_of_delete; intros [_ H]; by apply (o_range _ _ Ho h').
  - intros h' b' j1 j2 (_ & H)%lookup_delete_Some; by apply (o_dist _ _ Ho) in H.
  - intros h1 h2 i; rewrite !desc_of_delete; intros [_ H1] [_ H2]; by apply (o_disj _ _ Ho h1 h2 i).
  - intros i Hi; setoid_rewrite desc_of_delete.
    destruct (decide (i = h \/ i = i1 \/ i = i2)) as [Hin|Hin].
    + assert (desc_of C h i) as D by (repeat eexists; eauto); split.
      * rewrite !list_lookup_insert, !length_insert, Hl; repeat case_decide; naive_solver lia.
      * intros (h' & Hne & D'); by destruct Hne; apply (o_disj _ _ Ho h' h i).
    + rewrite !list_lookup_insert_ne by naive_solver; rewrite (o_free _ _ Ho i Hi); split; [|naive_solver].
      intros [h' D]; exists h'; split; [|done]; intros ->; destruct D as (? & ? & ? & E & ?); naive_solver.
Qed.

Lemma inv_finish d bs x cs C qa qu l1 l2 b k h i1 i2 :
  dinv (DSys (VSt d bs) x cs) C qa qu (l1 ++ h :: l2) -> cs b = Some k -> C !! h = Some (b, i1, i2) ->
  dinv (DSys (VSt (finished d h i1 i2) bs) x (<[b := None]> cs)) (delete h C) qa qu (l1 ++ l2).
Proof.
  intros Hi Hk HC; pose proof (n_shape _ _ _ _ _ Hi) as Hsh; pose proof (n_owns _ _ _ _ _ Hi) as Ho; dsimp.
  destruct (n_chain _ _ _ _ _ Hi _ _ _ _ HC) as [k' Hch].
  pose proof (ch_call _ _ _ _ _ _ _ _ Hch) as Ek; pose proof (ch_pc _ _ _ _ _ _ _ _ Hch) as Hpc; dsimp.
  rewrite Hk in Ek; injection Ek as <-; destruct (n_call _ _ _ _ _ Hi b k Hk) as [Hlen Hbn _]; dsimp.
  pose proof (ch_disk _ _ _ _ _ _ _ _ Hch) as Hdk; dsimp; rewrite decide_True in Hdk by set_solver.
  pose proof (n_queues _ _ _ _ _ Hi) as [Hqd Hqn]; dsimp.
  assert (Hp : qa ++ busy x ++ qu ++ l1 ++ h :: l2 ≡ₚ h :: qa ++ busy x ++ qu ++ l1 ++ l2)
    by (rewrite !app_assoc; apply symmetry, Permutation_middle).
  rewrite Hp in Hqn; apply NoDup_cons in Hqn as [Hnin Hqn].
  assert (Hcalls : forall b' k', <[b:=None]> cs b' = Some k' -> b <> b' /\ cs b' = Some k').
  { intros b' k'; destruct (decide (b = b')) as [<-|Hne]; [by rewrite fn_lookup_insert|by rewrite fn_lookup_insert_ne]. }
  split; dsimp.
  - destruct Hsh as (H1 & H2 & H3 & H4 & H5); unfold finished; split_and!; dsimp; by rewrite ?length_insert.
  - unfold finished; dsimp; eapply owns_delete; eauto; apply Hsh.
  - split; [|done]; intros h'; destruct (decide (h = h')) as [<-|Hne].
    + rewrite lookup_delete_eq; split; [by intros [? ?]|done].
    + rewrite lookup_delete_ne, Hqd, Hp, elem_of_cons by done; naive_solver.
  - apply (n_avail _ _ _ _ _ Hi).
  - apply (n_used _ _ _ _ _ Hi).
  - intros h' b' j1 j2 [Hne E]%lookup_delete_Some; destruct (n_chain _ _ _ _ _ Hi _ _ _ _ E) as [k' Hk']; exists k'.
    pose proof (chain_buf _ _ _ _ _ _ _ _ _ _ _ _ _ Hi HC E Hne) as Hbb.
    assert (Hoth : forall i, i = h' \/ i = j1 \/ i = j2 -> i <> h /\ i <> i1 /\ i <> i2).
    { intros i Hin; assert (D : ~ (i = h \/ i = i1 \/ i = i2)); [|tauto].
      intros Hin'; apply Hne, (o_disj _ _ Ho h h' i); repeat eexists; eauto. }
    apply (request_frame _ _ _ _ _ _ _ _ _ _ _ Hk'); unfold finished; dsimp; try done.
    + by rewrite fn_lookup_insert_ne.
    + intros i Hin; destruct (Hoth i Hin) as (? & ? & ?); by rewrite !list_lookup_insert_ne.
    + by rewrite list_lookup_insert_ne.
    + rewrite !elem_of_app, elem_of_cons; naive_solver.
  - intros b' k' [Hne Hc]%Hcalls; apply (call_frame _ _ _ _ _ _ (n_call _ _ _ _ _ Hi b' k' Hc)); dsimp; try done.
    intros h' j1 j2 Hp' E; rewrite lookup_delete_ne; [done|]; intros <-; congruence.
  - intros b' y; destruct (decide (b = b')) as [<-|Hne].
    + intros _ Hy; unfold blockno, get_vbuf in Hbn, Hdk; dsimp; rewrite Hy in Hbn, Hdk; done.
    + rewrite fn_lookup_insert_ne by done; apply (n_idle _ _ _ _ _ Hi).
  - intros b1 b2; destruct (decide (b = b1)) as [<-|N1]; [by rewrite fn_lookup_insert|rewrite fn_lookup_insert_ne by done].
    destruct (decide (b = b2)) as [<-|N2]; [by rewrite fn_lookup_insert|rewrite fn_lookup_insert_ne by done].
    apply (n_distinct _ _ _ _ _ Hi).
Qed.

(** ** Segments of virtio_disk_rw *)

Lemma dinv_calls v x cs cs' C qa qu qf :
  (forall b, cs' b = cs b) -> dinv (DSys v x cs) C qa qu qf -> dinv (DSys v x cs') C qa qu qf.
Proof.
  intros E [Hsh Ho Hq Ha Hu Hch Hca Hid Hdi]; split; dsimp; try done.
  - intros h b i1 i2 HC; destruct (Hch h b i1 i2 HC) as [k Hk]; exists k.
    by apply (request_frame _ _ _ _ _ _ _ _ _ _ _ Hk); dsimp.
  - intros b k; rewrite E; intros Hc; destruct (Hca b k Hc) as [A1 A2 A3]; by split.
  - intros b y; rewrite E; apply Hid.
  - intros b b'; rewrite !E; apply Hdi.
Qed.

Lemma submit_run b w sec i0 i1 i2 c d bs :
  submit b w sec i0 i1 i2 c (VSt (set_free i2 false (set_free i1 false (set_free i0 false d))) bs) =
  Ret tt c (VSt (submitted d b w sec i0 i1 i2) (alter (with_disk 1) b bs)).
Proof. reflexivity. Qed.

(** A call that waits for its request. *)
Lemma wait_spec s C qa qu qf b k h :
  dinv s C qa qu qf -> calls s b = Some k -> k_pc k = WaitDone h ->
  (exists c, rw_wait b h (push_lock O_vdisk (Ctx [] [])) (drv s) = Ret (Blocked (O_buf b) (WaitDone h)) c (drv s) /\
     held c = [] /\ h ∉ qf) \/
  (exists c v C' l, rw_wait b h (push_lock O_vdisk (Ctx [] [])) (drv s) = Ret (Done tt) c v /\ held c = [] /\
     h ∈ qf /\ transferred s b k /\ vbufs v = vbufs (drv s) /\ dinv (DSys v (hw s) (<[b := None]> (calls s))) C' qa qu l /\
     (forall h', h' ∈ l <-> h' ∈ qf /\ h' <> h)).
Proof.
  intros Hi Hk Hpc; destruct s as [[d bs] x cs]; dsimp.
  pose proof (ca_pc _ _ _ _ (n_call _ _ _ _ _ Hi b k Hk)) as Hca; rewrite Hpc in Hca; destruct Hca as (i1 & i2 & HC).
  destruct (n_chain _ _ _ _ _ Hi _ _ _ _ HC) as [k' [E _ Hf Hd _ Ht]]; dsimp; rewrite Hk in E; injection E as <-.
  pose proof (n_owns _ _ _ _ _ Hi) as Ho; pose proof (chain_range _ _ _ _ _ _ _ _ _ Hi HC) as HL; dsimp.
  set (c0 := push_lock O_vdisk (Ctx [] [])).
  assert (Hrw : rw_wait b h c0 (VSt d bs) =
    (if vb_disk (get_vbuf b (VSt d bs)) =? 1 then sleep_at (O_buf b) O_vdisk (WaitDone h)
     else vmod (set_info_b h None) ;;; free_chain (Z.to_nat NUM) h ;;; release O_vdisk ;;; kret (Done tt)) c0 (VSt d bs))
    by done.
  rewrite Hrw, Hd; clear Hrw; destruct (decide (h ∈ qf)) as [Hin|Hin].
  2:{ left; rewrite Z.eqb_refl; by eexists; unfold c0; rewrite sleep_at_run by done. }
  right; destruct (o_dist _ _ Ho _ _ _ _ HC) as (N1 & N2 & N12).
  assert (Hfr : forall i, i = h \/ i = i1 \/ i = i2 -> dfree d !! i = Some false).
  { intros i Hi'; apply (o_free _ _ Ho i); [naive_solver|]; exists h; repeat eexists; eauto. }
  destruct (free_chain_run d bs b _ _ h i1 i2 c0 Hf HL N1 N2 N12) as (c' & Hrun & Hheld); auto.
  rewrite decide_True in Ht by (rewrite elem_of_app; auto).
  apply list_elem_of_split in Hin as (l1 & l2 & ->).
  exists (Ctx [] (woken c')), (VSt (finished d h i1 i2) bs), (delete h C), (l1 ++ l2); split.
  { change (0 =? 1) with false; cbv iota.
    rewrite (kbind_run (vmod (set_info_b h None)) _ c0 (VSt d bs) tt c0 (VSt (set_info_b h None d) bs) eq_refl).
    by rewrite (kbind_run _ _ _ _ _ _ _ Hrun), (kbind_run _ _ _ _ _ _ _ (release_only O_vdisk c' _ Hheld)). }
  split; [done|]; split; [set_solver|]; split; [done|]; split; [done|]; split; [by apply (inv_finish _ _ _ _ _ _ _ _ _ b k)|].
  pose proof (q_nodup _ _ (n_queues _ _ _ _ _ Hi)) as Hn; apply NoDup_app in Hn as (_ & _ & Hn).
  apply NoDup_app in Hn as (_ & _ & Hn); apply NoDup_app in Hn as (_ & _ & Hn).
  apply NoDup_app in Hn as (_ & Hn1 & Hn2); apply NoDup_cons in Hn2 as [Hn2 _].
  intros h'; rewrite !elem_of_app, elem_of_cons; split; [|naive_solver].
  intros [H|H]; (split; [auto|]); intros ->; [apply (Hn1 h H); by left|done].
Qed.

(** A segment of a call returns with no lock held and keeps the invariant; one
    that ends the call has its block transferred. *)
Lemma seg_spec s C qa qu qf b k :
  dinv s C qa qu qf -> calls s b = Some k ->
  exists r c v, disk_rw_seg b (k_write k) (k_pc k) (Ctx [] []) (drv s) = Ret r c v /\ held c = [] /\
    (exists C' qa' qf', dinv (DSys v (hw s) (<[b := after k r]> (calls s))) C' qa' qu qf') /\
    match r with
    | Done _ => transferred s b k /\ vbufs v = vbufs (drv s)
    | Blocked _ _ => True
    end.
Proof.
  intros Hi Hk; unfold disk_rw_seg; unfold kbind at 1; rewrite acquire_run by set_solver.
  destruct (k_pc k) as [|h] eqn:Hpc.
  - destruct s as [[d bs] x cs]; dsimp; unfold kbind at 1, kget.
    destruct (alloc3_run (push_lock O_vdisk (Ctx [] [])) d bs) as [(i0 & i1 & i2 & Ha & F0 & F1 & F2 & N01 & N02 & N12)
      |(c' & d' & Ha & Hh & Hs)]; [apply (n_shape _ _ _ _ _ Hi)| |].
    + rewrite (kbind_run _ _ _ _ _ _ _ Ha), (kbind_run _ _ _ _ _ _ _ (submit_run _ _ _ _ _ _ _ _ _)).
      pose proof (inv_submit _ _ _ _ _ _ _ _ b k i0 i1 i2 Hi Hk Hpc F0 F1 F2 N01 N02 N12) as Hi'.
      destruct (wait_spec _ _ _ _ _ b (Call (k_write k) (WaitDone i0) (k_data k) (k_block k)) i0 Hi'
        (fn_lookup_insert _ _ _) eq_refl) as [(c & Hw & Hh & _)|(c & v & C' & l & _ & _ & Hin & _)]; dsimp.
      * unfold sector_of in *; rewrite Hw; do 3 eexists; split; [done|]; split; [done|]; split; [|done].
        by exists (<[i0:=(b, i1, i2)]> C), (qa ++ [i0]), qf.
      * exfalso; apply (NoDup_app (qa ++ [i0]) (busy x ++ qu ++ qf)) with (x := i0).
        -- apply (q_nodup _ _ (n_queues _ _ _ _ _ Hi')).
        -- set_solver.
        -- set_solver.
    + rewrite (kbind_run _ _ _ _ _ _ _ Ha).
      assert (c' = push_lock O_vdisk (Ctx [] (woken c'))) as -> by (destruct c'; cbn in *; by rewrite Hh).
      rewrite sleep_at_run by done; do 3 eexists; split; [done|]; split; [done|]; split; [|done].
      exists C, qa, qf; apply (dinv_calls _ _ cs); [|by apply (inv_same_in_use _ _ _ _ _ _ Hi)].
      intros b'; destruct (decide (b = b')) as [<-|Hne]; [|by rewrite fn_lookup_insert_ne].
      rewrite fn_lookup_insert, Hk; cbn; f_equal; destruct k; cbn in *; by rewrite Hpc.
  - destruct (wait_spec _ _ _ _ _ b k h Hi Hk Hpc) as [(c & -> & Hh & _)|(c & v & C' & l & -> & Hh & _ & Ht & Hv & Hi' & _)].
    + do 3 eexists; split; [done|]; split; [done|]; split; [|done].
      exists C, qa, qf; destruct s as [v x cs]; apply (dinv_calls _ _ cs); [|done]; dsimp.
      intros b'; destruct (decide (b = b')) as [<-|Hne]; [|by rewrite fn_lookup_insert_ne].
      rewrite fn_lookup_insert, Hk; cbn; f_equal; destruct k; cbn in *; by rewrite Hpc.
    + do 3 eexists; split; [done|]; split; [done|]; split; [by exists C', qa, l|done].
Qed.

(** ** The interrupt handler *)

(** One finished request is handed to its process. *)
Lemma inv_seen d bs x cs C qa qu qf h b i1 i2 :
  dinv (DSys (VSt d bs) x cs) C qa (h :: qu) qf -> C !! h = Some (b, i1, i2) ->
  dinv (DSys (VSt (bump_used_idx d) (alter (with_disk 0) b bs)) x cs) C qa qu (h :: qf).
Proof.
  intros Hi HC; pose proof (n_queues _ _ _ _ _ Hi) as [Hqd Hqn]; dsimp.
  assert (Hp : qa ++ busy x ++ (h :: qu) ++ qf ≡ₚ qa ++ busy x ++ qu ++ h :: qf) by (cbn; by rewrite Permutation_middle).
  assert (Hnu : h ∉ qu).
  { apply NoDup_app in Hqn as (_ & _ & Hqn); apply NoDup_app in Hqn as (_ & _ & Hqn).
    cbn in Hqn; apply NoDup_cons in Hqn as [Hqn _]; set_solver. }
  split; dsimp.
  - apply (n_shape _ _ _ _ _ Hi).
  - apply (n_owns _ _ _ _ _ Hi).
  - by apply (queues_perm _ _ _ Hp).
  - apply (n_avail _ _ _ _ _ Hi).
  - destruct (n_used _ _ _ _ _ Hi) as [Hr Hc]; dsimp; cbn in Hc.
    by apply (skip 8 65536 ltac:(lia) ltac:(by exists 8192) _ _ _ _ _ Hr) in Hc as (_ & ? & ?).
  - intros h' b' j1 j2 E; destruct (n_chain _ _ _ _ _ Hi _ _ _ _ E) as [k Hk]; exists k.
    pose proof (n_call _ _ _ _ _ Hi b' k (ch_call _ _ _ _ _ _ _ _ Hk)) as [Hl _ _]; dsimp.
    destruct (decide (h' = h)) as [->|Hne].
    + rewrite HC in E; injection E as <- <- <-; destruct Hk as [K1 K2 K3 K4 K5 K6]; dsimp.
      rewrite decide_True in K6 by set_solver; unfold transferred, sector_of in *.
      split; dsimp; [done|done| | |done|].
      * unfold sector_of; rewrite (get_with_disk _ _ _ _ d) by done; by rewrite decide_True by done.
      * rewrite (get_with_disk _ _ _ _ d) by done; by rewrite !decide_True by set_solver.
      * rewrite decide_True by set_solver; unfold transferred; dsimp.
        rewrite (blockno_with_disk _ _ _ _ d), (get_with_disk _ _ _ _ d) by done; by rewrite decide_True by done.
    + pose proof (chain_buf _ _ _ _ _ _ _ _ _ _ _ _ _ Hi E HC Hne) as Hbb.
      apply (request_frame _ _ _ _ _ _ _ _ _ _ _ Hk); dsimp; try done; [|set_solver|set_solver].
      rewrite (get_with_disk _ _ _ _ d) by done; by rewrite decide_False.
  - intros b' k Hc; pose proof (n_call _ _ _ _ _ Hi b' k Hc) as Hca; pose proof (ca_len _ _ _ _ Hca) as Hl; dsimp.
    apply (call_frame _ _ _ _ _ _ Hca); dsimp; [by rewrite length_alter|apply (blockno_with_disk b' b 0 _ d)| |done].
    intros Hpc; split; [|done]; rewrite (get_with_disk _ _ _ _ d) by done; rewrite decide_False; [done|]; intros ->.
    destruct (n_chain _ _ _ _ _ Hi _ _ _ _ HC) as [k' [K1 K2 _ _ _ _]]; dsimp; congruence.
  - intros b' y Hc; rewrite list_lookup_alter_ne; [apply (n_idle _ _ _ _ _ Hi _ _ Hc)|]; intros <-.
    destruct (n_chain _ _ _ _ _ Hi _ _ _ _ HC) as [k' [K1 _ _ _ _ _]]; dsimp; congruence.
  - intros b1 b2; rewrite !(blockno_with_disk _ _ _ _ d); apply (n_distinct _ _ _ _ _ Hi).
Qed.

Lemma intr_loop_spec fuel : forall s C qa qu qf c,
  dinv s C qa qu qf -> (length qu <= fuel)%nat ->
  exists c' v qf', intr_loop fuel c (drv s) = Ret tt c' v /\ held c' = held c /\
    dinv (DSys v (hw s) (calls s)) C qa [] qf' /\ (forall h, h ∈ qf' <-> h ∈ qu \/ h ∈ qf) /\
    (forall b h i1 i2, C !! h = Some (b, i1, i2) -> h ∈ qu -> O_buf b ∈ woken c') /\
    (forall o, o ∈ woken c -> o ∈ woken c').
Proof.
  induction fuel as [|f IH]; intros [[d bs] x cs] C qa qu qf c Hi Hf;
    pose proof (n_used _ _ _ _ _ Hi) as [Hr Hc]; dsimp;
    pose proof (empty_iff 8 65536 ltac:(lia) ltac:(by exists 8192) _ _ _ Hr) as He; rewrite Hc in He;
    destruct qu as [|h qu]; cbn in Hf; try lia; cbn [intr_loop]; unfold vget; unfold kbind at 1 2, kget; cbn [kret]; dsimp;
    rewrite He.
  1, 2: rewrite bool_decide_true by done; exists c, (VSt d bs), qf; split_and!; [done|done|done|set_solver|set_solver|done].
  rewrite bool_decide_false by done.
  assert (Hh : h ∈ qa ++ busy x ++ (h :: qu) ++ qf) by set_solver.
  apply (q_dom _ _ (n_queues _ _ _ _ _ Hi)) in Hh as [[[b i1] i2] HC].
  destruct (n_chain _ _ _ _ _ Hi _ _ _ _ HC) as [k [_ _ (_ & _ & _ & _ & Hib) _ Hst _]]; dsimp.
  cbn in Hc; destruct (skip 8 65536 ltac:(lia) ltac:(by exists 8192) _ _ _ _ _ Hr Hc) as (Hd & _ & _).
  change NUM with 8; rewrite Hd, Nat2Z.id, Hib, (Hst ltac:(by left)); cbn [default negb Z.eqb].
  destruct (IH _ _ _ _ _ (add_woken (O_buf b) c) (inv_seen _ _ _ _ _ _ _ _ _ _ _ _ Hi HC)) as (c' & v & qf' & Hrun & Hheld & Hi' & Hq & Hw & Hm);
    [lia|]; dsimp.
  exists c', v, qf'; split; [exact Hrun|]; split; [done|]; split; [done|]; split; [set_solver|]; split.
  - intros b' h' j1 j2 E [->|Hin]%elem_of_cons; [|by eapply Hw].
    rewrite HC in E; injection E as <- <- <-; apply Hm; cbn; set_solver.
  - intros o Ho; apply Hm; cbn; set_solver.
Qed.

Lemma intr_spec s C qa qu qf :
  dinv s C qa qu qf ->
  exists c v qf', virtio_disk_intr (Ctx [] []) (drv s) = Ret tt c v /\ held c = [] /\
    dinv (DSys v (hw s) (calls s)) C qa [] qf' /\ (forall h, h ∈ qf' <-> h ∈ qu \/ h ∈ qf) /\
    (forall b h i1 i2, C !! h = Some (b, i1, i2) -> h ∈ qu -> O_buf b ∈ woken c).
Proof.
  intros Hi; pose proof (n_used _ _ _ _ _ Hi) as [Hr Hc].
  assert (Hl : (length qu <= 8)%nat).
  { pose proof (length_contents 8 65536 ltac:(lia) ltac:(by exists 8192) (used_ring (dk (drv s))) (used_idx (dk (drv s)))
      (used_elems_idx (dk (drv s)))) as Hl; rewrite Hc, length_fmap in Hl; pose proof (ri_fill _ _ _ _ _ Hr); lia. }
  destruct (intr_loop_spec 8 _ _ _ _ _ (push_lock O_vdisk (Ctx [] [])) Hi Hl) as (c & v & qf' & Hrun & Hh & Hi' & Hq & Hw & _).
  exists (Ctx [] (woken c)), v, qf'; split; [|done].
  by apply (critical_run O_vdisk (intr_loop 8) (Ctx [] []) (drv s) c v); [set_solver| |].
Qed.

(** ** The device *)

(** The device takes the next request. *)
Lemma inv_fetch v x cs C qa qu qf :
  dinv (DSys v x cs) C qa qu qf -> seen x <> avail_idx (dk v) ->
  exists h qa', qa = h :: qa' /\
    dinv (DSys v (Dev (u16 (seen x + 1)) (busy x ++ [Z.to_nat (default 0 (avail_ring (dk v) !! Z.to_nat (seen x mod NUM)))])
      (blk x)) cs) C qa' qu qf.
Proof.
  intros Hi Hne; pose proof (n_avail _ _ _ _ _ Hi) as [Hr Hc]; dsimp.
  pose proof (empty_iff 8 65536 ltac:(lia) ltac:(by exists 8192) _ _ _ Hr) as He; rewrite Hc in He.
  destruct qa as [|h qa]; [rewrite bool_decide_true in He by done; lia|]; exists h, qa; split; [done|].
  cbn in Hc; destruct (skip 8 65536 ltac:(lia) ltac:(by exists 8192) _ _ _ _ _ Hr Hc) as (Hd & Hr' & Hc').
  change NUM with 8; rewrite Hd, Nat2Z.id.
  destruct Hi as [Hsh Ho Hq Ha Hu Hch Hca Hid Hdi]; dsimp; split; dsimp; try done.
  - apply (queues_perm _ ((h :: qa) ++ busy x ++ qu ++ qf)); [|done].
    rewrite <- (app_assoc (busy x)); cbn; rewrite !(app_assoc qa); apply Permutation_middle.
  - intros h' b i1 i2 HC; destruct (Hch h' b i1 i2 HC) as [k Hk]; exists k.
    by apply (request_frame _ _ _ _ _ _ _ _ _ _ _ Hk); dsimp.
  - intros b k Hc2; destruct (Hca b k Hc2) as [A1 A2 A3]; by split.
Qed.

(** A request of the driver is well formed, for the block of its buffer. *)
Lemma request_ok s C qa qu qf h b i1 i2 k :
  dinv s C qa qu qf -> C !! h = Some (b, i1, i2) -> calls s b = Some k ->
  dev_request h (dk (drv s)) = Some (Request b (k_write k) (blockno b (drv s)) h).
Proof.
  intros Hi HC Hk; destruct (n_chain _ _ _ _ _ Hi _ _ _ _ HC) as [k' [K1 _ (D0 & D1 & D2 & Hop & _) _ _ _]].
  rewrite Hk in K1; injection K1 as <-; destruct (n_call _ _ _ _ _ Hi b k Hk) as [_ Hb _].
  assert (Hs : sector_of b (drv s) = 2 * blockno b (drv s)).
  { unfold sector_of, blockno in *; change (BSIZE / 512) with 2; rewrite u32_small; lia. }
  unfold dev_request, get_desc; rewrite D0; cbn [from_option id d_addr d_next d_flags d_len]; rewrite Nat2Z.id, D1.
  cbn [from_option id d_addr d_next d_flags d_len]; rewrite Nat2Z.id, D2, Hop; cbn [from_option id d_addr d_flags d_len r_type r_sector].
  rewrite Hs, Z.even_mul; cbn [Z.even orb].
  rewrite (Z.mul_comm 2), Z.div_mul by lia; by destruct (k_write k).
Qed.

(** The device completes a request: it moves to the used ring with its status
    set and its block transferred, and nothing else changes. *)
Lemma inv_transfer d bs x cs C qa qu qf h b i1 i2 k bs' f :
  dinv (DSys (VSt d bs) x cs) C qa qu qf -> h ∈ busy x -> C !! h = Some (b, i1, i2) -> cs b = Some k ->
  length bs' = length bs ->
  (forall b', vb_blockno (get_vbuf b' (VSt d bs')) = vb_blockno (get_vbuf b' (VSt d bs)) /\
              vb_disk (get_vbuf b' (VSt d bs')) = vb_disk (get_vbuf b' (VSt d bs))) ->
  (forall b', b' <> b -> bs' !! b' = bs !! b') ->
  (forall n, n <> blockno b (VSt d bs) -> f n = blk x n) ->
  let d' := set_used (Z.of_nat h) (set_status h 0 d) in
  let s' := DSys (VSt d' bs') (Dev (seen x) (filter (fun j => j <> h) (busy x)) f) cs in
  transferred s' b k -> dinv s' C qa (qu ++ [h]) qf.
Proof.
  intros Hi Hh HC Hk Hlen Hg Hbs Hf d' s' Ht; pose proof (n_queues _ _ _ _ _ Hi) as [Hqd Hqn]; dsimp.
  pose proof (chain_range _ _ _ _ _ _ _ _ _ Hi HC) as (Lh & _).
  destruct (queues_parts _ _ _ _ _ (n_queues _ _ _ _ _ Hi)) as (_ & Hnb & Hnu & _ & Hsome & Hdis & _); dsimp.
  assert (Hnq : h ∉ qu ++ qf) by (by apply Hdis).
  assert (Hbp : busy x ≡ₚ h :: filter (fun j => j <> h) (busy x)).
  { apply NoDup_Permutation; [done|constructor; [by rewrite list_elem_of_filter; intros [? _]|by apply NoDup_filter]|].
    intros y; rewrite elem_of_cons, list_elem_of_filter; destruct (decide (y = h)) as [->|]; tauto. }
  assert (Hgo : forall b', b' <> b -> get_vbuf b' (VSt d' bs') = get_vbuf b' (VSt d bs))
    by (intros b' Hb'; unfold get_vbuf; dsimp; by rewrite Hbs).
  assert (Hbn : forall b', blockno b' (VSt d' bs') = blockno b' (VSt d bs)) by (intros b'; apply (Hg b')).
  assert (Hdisj : forall b', b' <> b -> cs b' <> None -> f (blockno b' (VSt d bs)) = blk x (blockno b' (VSt d bs))).
  { intros b' Hb' Hc; apply Hf; apply (n_distinct _ _ _ _ _ Hi); dsimp; congruence. }
  split; unfold s'; dsimp.
  - destruct (n_shape _ _ _ _ _ Hi) as (H1 & H2 & H3 & H4 & H5); unfold d'; split_and!; dsimp; by rewrite ?length_insert.
  - apply (n_owns _ _ _ _ _ Hi).
  - apply (queues_perm _ (qa ++ busy x ++ qu ++ qf)); [|done].
    rewrite Hbp at 1; solve_Permutation.
  - apply (n_avail _ _ _ _ _ Hi).
  - destruct (n_used _ _ _ _ _ Hi) as [Hr Hc]; dsimp; unfold d'; dsimp; rewrite fmap_app, <- Hc.
    apply push; [lia|by exists 8192|done|]; rewrite Hc, length_fmap.
    pose proof (queue_short _ _ _ _ _ qu h Hi Hnu ltac:(auto) Lh ltac:(set_solver)); lia.
  - intros h' b' j1 j2 E; destruct (n_chain _ _ _ _ _ Hi _ _ _ _ E) as [k' Hk']; exists k'.
    destruct (decide (h' = h)) as [->|Hne].
    + rewrite HC in E; injection E as <- <- <-; destruct Hk' as [K1 K2 (D0 & D1 & D2 & D3 & D4) K4 K5 K6]; dsimp.
      rewrite Hk in K1; injection K1 as <-; destruct (Hg b) as [Hg1 Hg2].
      split; dsimp; [done|done| | | |].
      * unfold sector_of; unfold get_vbuf in *; dsimp; rewrite Hg1; unfold d'; split_and!; dsimp; done.
      * unfold get_vbuf in *; dsimp; by rewrite Hg2.
      * intros _; unfold d'; dsimp; rewrite list_lookup_insert_eq; [done|].
        destruct (n_shape _ _ _ _ _ Hi) as (_ & _ & _ & Hl4 & _); dsimp; lia.
      * rewrite decide_True by set_solver; done.
    + pose proof (chain_buf _ _ _ _ _ _ _ _ _ _ _ _ _ Hi E HC Hne) as Hbb.
      apply (request_frame _ _ _ _ _ _ _ _ _ _ _ Hk'); dsimp; try done.
      * unfold d'; dsimp; by rewrite list_lookup_insert_ne.
      * by apply Hgo.
      * apply Hdisj; [done|]; pose proof (ch_call _ _ _ _ _ _ _ _ Hk'); dsimp; congruence.
      * set_solver.
  - intros b' k' Hc; apply (call_frame _ _ _ _ _ _ (n_call _ _ _ _ _ Hi b' k' Hc)); dsimp; [done|apply (Hbn b')| |done].
    intros Hpc; assert (b' <> b).
    { intros ->; destruct (n_chain _ _ _ _ _ Hi _ _ _ _ HC) as [k2 [K1 K2 _ _ _ _]]; dsimp; congruence. }
    split; [by apply Hgo|apply Hdisj; congruence].
  - intros b' y Hc; rewrite Hbs by congruence; by apply (n_idle _ _ _ _ _ Hi).
  - intros b1 b2; rewrite !Hbn; apply (n_distinct _ _ _ _ _ Hi).
Qed.

Lemma get_vdata b b' l d d' bs :
  get_vbuf b (VSt d (set_vdata b' l bs)) =
  if decide (b = b' /\ (b < length bs)%nat)
  then VBuf (vb_blockno (get_vbuf b (VSt d' bs))) (vb_disk (get_vbuf b (VSt d' bs))) l else get_vbuf b (VSt d' bs).
Proof. exact (get_alter b b' (fun x => VBuf (vb_blockno x) (vb_disk x) l) d d' bs). Qed.

Lemma inv_complete s C qa qu qf h :
  dinv s C qa qu qf -> h ∈ busy (hw s) ->
  exists v x, dev_complete h (drv s) (hw s) = Some (v, x) /\ dinv (DSys v x (calls s)) C qa (qu ++ [h]) qf.
Proof.
  intros Hi Hh; destruct s as [[d bs] x cs]; dsimp.
  destruct (queues_parts _ _ _ _ _ (n_queues _ _ _ _ _ Hi)) as (_ & _ & _ & _ & Hsome & Hdis & _); dsimp.
  destruct (Hsome h ltac:(auto)) as [[[b i1] i2] HC].
  destruct (n_chain _ _ _ _ _ Hi _ _ _ _ HC) as [k [Hk _ _ _ _ Ht]]; dsimp.
  rewrite decide_False in Ht by (by apply Hdis); destruct Ht as [Hd Hb]; dsimp.
  destruct (n_call _ _ _ _ _ Hi b k Hk) as [Hl _ _]; dsimp.
  unfold dev_complete; pose proof (request_ok _ _ _ _ _ _ _ _ _ _ Hi HC Hk) as Hr; dsimp; rewrite Hr; cbn [q_status q_write q_block q_buf].
  destruct (k_write k) eqn:Hw; do 2 eexists; (split; [done|]); apply (inv_transfer _ bs _ _ _ _ _ _ _ b i1 i2 k); try done; dsimp.
  - intros n Hn; by rewrite fn_lookup_insert_ne.
  - unfold transferred; dsimp; rewrite Hw; split; [done|]; by rewrite fn_lookup_insert.
  - apply length_alter.
  - intros b'; rewrite (get_vdata b' b _ d d); by case_decide.
  - intros b' Hne; by apply list_lookup_alter_ne.
  - unfold transferred, blockno; dsimp; rewrite Hw, (get_vdata b b _ _ d), decide_True by done; done.
Qed.

(** ** Every reachable state *)

Section device.
Variable device : vst * dev -> vst * dev -> Prop.
Hypothesis Hdev : device_ok device.

Lemma dreach_inv s : dreach device s -> exists C qa qu qf, dinv s C qa qu qf.
Proof.
  induction 1 as [bs f Hbs|s s' _ (C & qa & qu & qf & Hi) Hstep].
  - exists ∅, [], [], []; split; dsimp.
    + done.
    + split; [by intros h i (? & ? & ? & ? & _)|done|by intros h h' i (? & ? & ? & ? & _)|].
      intros i Hi; split; [|by intros (h & ? & ? & ? & ? & _)]; intros Hf; cbn in Hf; do 8 (destruct i as [|i]; [done|]); lia.
    + split; [|constructor]; intros h; rewrite lookup_empty; split; [by intros [? ?]|by intros ?%elem_of_nil].
    + split; [by split|done].
    + split; [by split|done].
    + done.
    + done.
    + intros b y _ Hy; by apply (Forall_lookup_1 _ _ _ _ Hbs Hy).
    + done.
  - destruct Hstep as [s b w r c v Hn Hl Hd Hrun|s b k r c v Hk Hrun|s c v Hrun|s v x Hstep|s b x Hn Hx].
    + set (k := Call w WaitDesc (vb_data (get_vbuf b (drv s))) (blk (hw s) (blockno b (drv s)))) in *.
      pose proof (inv_call s C qa qu qf b k Hi Hn Hl Hd eq_refl ltac:(done)) as Hi1.
      destruct (seg_spec _ _ _ _ _ b k Hi1 (fn_lookup_insert _ _ _)) as (r' & c' & v' & Hrun' & _ & (C' & qa' & qf' & Hi') & _).
      dsimp; cbn [k_write k_pc k] in Hrun'; rewrite Hrun in Hrun'; injection Hrun' as <- _ <-.
      exists C', qa', qu, qf'; eapply dinv_calls; [|exact Hi'].
      intros b'; destruct (decide (b = b')) as [<-|Hne]; [by rewrite !fn_lookup_insert|by rewrite !fn_lookup_insert_ne].
    + destruct (seg_spec _ _ _ _ _ b k Hi Hk) as (r' & c' & v' & Hrun' & _ & (C' & qa' & qf' & Hi') & _).
      rewrite Hrun in Hrun'; injection Hrun' as <- _ <-; by exists C', qa', qu, qf'.
    + destruct (intr_spec _ _ _ _ _ Hi) as (c' & v' & qf' & Hrun' & _ & Hi' & _).
      rewrite Hrun in Hrun'; injection Hrun' as _ <-; by exists C, qa, [], qf'.
    + destruct s as [v0 x0 cs]; apply Hdev in Hstep as [[Hs Hy]|(h & Hh & Hy)]; dsimp.
      * injection Hy as -> ->; destruct (inv_fetch _ _ _ _ _ _ _ Hi Hs) as (h & qa' & _ & Hi'); by exists C, qa', qu, qf.
      * destruct (inv_complete _ _ _ _ _ _ Hi Hh) as (v' & x' & Hc & Hi'); dsimp; rewrite Hc in Hy.
        injection Hy as -> ->; by exists C, qa, (qu ++ [h]), qf.
    + exists C, qa, qu, qf; by apply inv_buffer.
Qed.

(** C6: the disk driver is correct in every interleaving of calls, interrupts
    and device steps.  No driver function panics or dereferences a null buffer,
    and each returns without vdisk_lock; every request handed to the device is
    well formed; and when [virtio_disk_rw] returns, the buffer and its block
    both hold what the buffer held at the call (a write) or what the block held
    at the call (a read). *)
Theorem virtio_correct s :
  dreach device s ->
  (forall b w, calls s b = None -> (b < length (vbufs (drv s)))%nat ->
     (forall b', calls s b' <> None -> blockno b' (drv s) <> blockno b (drv s)) ->
     exists r c v, disk_rw_seg b w WaitDesc (Ctx [] []) (drv s) = Ret r c v /\ held c = []) /\
  (forall b k, calls s b = Some k ->
     exists r c v, disk_rw_seg b (k_write k) (k_pc k) (Ctx [] []) (drv s) = Ret r c v /\ held c = [] /\
       (r = Done tt -> let l := if k_write k then k_data k else k_block k in
          vb_data (get_vbuf b v) = l /\ blk (hw s) (blockno b v) = l)) /\
  (exists c v, virtio_disk_intr (Ctx [] []) (drv s) = Ret tt c v /\ held c = []) /\
  (forall h, h ∈ busy (hw s) -> dev_complete h (drv s) (hw s) <> None).
Proof.
  intros (C & qa & qu & qf & Hi)%dreach_inv; split_and!.
  - intros b w Hn Hl Hd; set (k := Call w WaitDesc (vb_data (get_vbuf b (drv s))) (blk (hw s) (blockno b (drv s)))).
    pose proof (inv_call s C qa qu qf b k Hi Hn Hl Hd eq_refl ltac:(done)) as Hi1.
    destruct (seg_spec _ _ _ _ _ b k Hi1 (fn_lookup_insert _ _ _)) as (r & c & v & Hrun & Hh & _); by exists r, c, v.
  - intros b k Hk; destruct (seg_spec _ _ _ _ _ b k Hi Hk) as (r & c & v & Hrun & Hh & _ & Hr).
    exists r, c, v; split; [done|]; split; [done|]; intros ->; destruct Hr as [[H1 H2] Hv].
    unfold get_vbuf, blockno, get_vbuf in *; by rewrite Hv.
  - destruct (intr_spec _ _ _ _ _ Hi) as (c & v & qf' & Hrun & Hh & _); by exists c, v.
  - intros h Hh; destruct (inv_complete _ _ _ _ _ _ Hi Hh) as (v & x & -> & _); done.
Qed.

(** C10: no request is lost.  Once the device has completed all it was given,
    the interrupt handler wakes every process whose buffer is still marked as
    in the device's hands, and every call waiting for its request returns in
    its next segment; and when no call waits for a request, all eight
    descriptors are free. *)
Theorem virtio_progress s :
  dreach device s -> seen (hw s) = avail_idx (dk (drv s)) -> busy (hw s) = [] ->
  exists c v, virtio_disk_intr (Ctx [] []) (drv s) = Ret tt c v /\
    (forall b k h, calls s b = Some k -> k_pc k = WaitDone h ->
       (vb_disk (get_vbuf b (drv s)) = 1 -> O_buf b ∈ woken c) /\
       exists c' v', disk_rw_seg b (k_write k) (WaitDone h) (Ctx [] []) v = Ret (Done tt) c' v') /\
    ((forall b k, calls s b = Some k -> k_pc k = WaitDesc) -> dfree (dk v) = replicate 8 true).
Proof.
  intros (C & qa & qu & qf & Hi)%dreach_inv Hs Hb.
  assert (qa = []) as ->.
  { pose proof (n_avail _ _ _ _ _ Hi) as [Hr Hc].
    pose proof (empty_iff 8 65536 ltac:(lia) ltac:(by exists 8192) _ _ _ Hr) as He; rewrite Hc, Hs, Z.eqb_refl in He.
    symmetry in He; apply bool_decide_eq_true in He; by destruct qa. }
  destruct (intr_spec _ _ _ _ _ Hi) as (c & v & qf' & Hrun & Hh & Hi' & Hq & Hw); exists c, v; split; [done|].
  assert (Hdom : forall h, is_Some (C !! h) -> h ∈ qu \/ h ∈ qf).
  { intros h Hh'%(q_dom _ _ (n_queues _ _ _ _ _ Hi)).
    rewrite Hb in Hh'; cbn in Hh'; by rewrite elem_of_app in Hh'. }
  split.
  - intros b k h Hk Hpc; pose proof (ca_pc _ _ _ _ (n_call _ _ _ _ _ Hi b k Hk)) as Hca; rewrite Hpc in Hca.
    destruct Hca as (i1 & i2 & HC); pose proof (Hdom h ltac:(by eexists)) as Hin; split.
    + destruct (n_chain _ _ _ _ _ Hi _ _ _ _ HC) as [k' [_ _ _ -> _ _]]; intros Hd.
      apply (Hw b h i1 i2 HC); destruct Hin as [|Hin]; [done|]; by rewrite decide_True in Hd.
    + destruct (wait_spec _ _ _ _ _ b k h Hi' Hk Hpc) as [(c1 & _ & _ & Hnin)|(c1 & v1 & C1 & l & Hrun1 & _)].
      { destruct Hnin; by apply Hq. }
      dsimp; unfold disk_rw_seg; unfold kbind at 1; rewrite acquire_run by set_solver; by exists c1, v1.
  - intros Hall; apply list_eq; intros i; pose proof (n_shape _ _ _ _ _ Hi') as (_ & Hl & _); dsimp.
    destruct (decide (i < 8)%nat) as [Hlt|Hge]; [|rewrite !lookup_ge_None_2; [done|rewrite length_replicate; lia|lia]].
    rewrite lookup_replicate_2 by done; destruct (lookup_lt_is_Some_2 (dfree (dk v)) i) as [[] Hx]; [lia|done|exfalso].
    apply (o_free _ _ (n_owns _ _ _ _ _ Hi') i Hlt) in Hx as (h & b & i1 & i2 & HC & _).
    destruct (n_chain _ _ _ _ _ Hi' _ _ _ _ HC) as [k [Hk Hpc _ _ _ _]]; dsimp; specialize (Hall b k Hk); congruence.
Qed.
End device.

(** ** An instance

    A device that does exactly what the specification asks, with one buffer
    for block 3 being written. *)

Definition demo_device (p q : vst * dev) : Prop :=
  (seen p.2 <> avail_idx (dk p.1) /\ q = dev_fetch p.1 p.2) \/
  (exists h, h ∈ busy p.2 /\ dev_complete h p.1 p.2 = Some q).
Lemma demo_device_ok : device_ok demo_device.
Proof. intros v x y [H|(h & Hh & Hc)]; [by left|right; exists h; split; [done|]; cbn in Hc; by rewrite Hc]. Qed.

Definition demo_bufs : list vbuf := [VBuf 3 0 [7; 8; 9]].
Definition demo_call : call := Call true (WaitDone 0) [7; 8; 9] [0].
Definition demo_calls : nat -> option call := <[0%nat := Some demo_call]> (fun _ => None).
Definition run_to {S A} (m : M S A) (s : S) : S := match m (Ctx [] []) s with Ret _ _ s' => s' | _ => s end.

(** The state after the call, after the device has taken the request, and
    after it has completed it. *)
Definition demo_v1 : vst := Eval vm_compute in run_to (disk_rw_seg 0 true WaitDesc) (VSt disk_init demo_bufs).
Definition demo_x0 : dev := Dev 0 [] (fun _ => [0]).
Definition demo_2 : vst * dev := Eval vm_compute in dev_fetch demo_v1 demo_x0.
Definition demo_3 : vst * dev := Eval vm_compute in default demo_2 (dev_complete 0 demo_2.1 demo_2.2).
Definition demo_s : dsys := DSys demo_3.1 demo_3.2 demo_calls.

Lemma demo_reach : dreach demo_device demo_s.
Proof.
  assert (H0 : dreach demo_device (DSys (VSt disk_init demo_bufs) demo_x0 (fun _ => None))).
  { apply dr_init; constructor; [split; [done|cbn; lia]|constructor]. }
  assert (H1 : dreach demo_device (DSys demo_v1 demo_x0 demo_calls)).
  { refine (dr_step _ _ _ H0 (d_call demo_device (DSys (VSt disk_init demo_bufs) demo_x0 (fun _ => None)) 0 true
      (Blocked (O_buf 0) (WaitDone 0)) (Ctx [] []) demo_v1 _ _ _ _)); [done|cbn; lia|done|vm_compute; reflexivity]. }
  assert (H2 : dreach demo_device (DSys demo_2.1 demo_2.2 demo_calls)).
  { refine (dr_step _ _ _ H1 (d_device demo_device (DSys demo_v1 demo_x0 demo_calls) demo_2.1 demo_2.2 _)).
    left; split; [vm_compute; discriminate|vm_compute; reflexivity]. }
  refine (dr_step _ _ _ H2 (d_device demo_device (DSys demo_2.1 demo_2.2 demo_calls) demo_3.1 demo_3.2 _)).
  right; exists 0%nat; split; [vm_compute; left|vm_compute; reflexivity].
Qed.

Lemma virtio_correct_witness :
  exists c v, virtio_disk_intr (Ctx [] []) (drv demo_s) = Ret tt c v /\ held c = [].
Proof. exact (proj1 (proj2 (proj2 (virtio_correct demo_device demo_device_ok demo_s demo_reach)))). Defined.

Lemma virtio_progress_witness :
  exists c v, virtio_disk_intr (Ctx [] []) (drv demo_s) = Ret tt c v /\
    exists c' v', disk_rw_seg 0 true (WaitDone 0) (Ctx [] []) v = Ret (Done tt) c' v'.
Proof.
  destruct (virtio_progress demo_device demo_device_ok demo_s demo_reach) as (c & v & Hrun & H & _);
    [reflexivity|reflexivity|].
  exists c, v; split; [exact Hrun|]; exact (proj2 (H 0%nat demo_call 0%nat eq_refl eq_refl)).
Defined.
