(* ===== verification/Trap.v ===== *)
(** * kernel/trap.c and kernel/plic.c

    Traps from user space and from the kernel over the whole machine: the
    system-call state, the console, the serial port and the disk driver.  The
    control registers are fields of [csrs]; the hart, the value that a claim
    from the interrupt controller returns and the addresses of assembly code
    are parameters. *)

From S2P Require Import Prelude CMem KString Riscv Kalloc Vm Locks Pipe Block Bio.
From S2P Require Import Log Fs File Printf Uart Proc Sysproc Exec Sysfile Msg.
From S2P Require Import Syscall Console Virtio.

Record csrs : Type := Csrs {
  sstatus : Z;
  sepc : Z;
  scause : Z;
  stval : Z;
  stvec : Z;
  stimecmp : Z;
  plic : list (Z * Z)        (* words stored in the interrupt controller, oldest first *)
}.

Record trapst : Type := TrapSt {
  csr : csrs;
  tmsg : msgst;
  tcons : cons_t;
  tuart : uartst;
  tdisk : vst
}.
Definition msg_of : lens trapst msgst := Lens tmsg (fun m s => TrapSt (csr s) m (tcons s) (tuart s) (tdisk s)).
Definition tkern_of : lens trapst kst :=
  Lens (fun s => mkern (tmsg s)) (fun k s => TrapSt (csr s) (MsgSt (mtab (tmsg s)) k) (tcons s) (tuart s) (tdisk s)).
Definition cons_of : lens trapst consst :=
  Lens (fun s => ConsSt (tcons s) (tuart s) (mkern (tmsg s)))
       (fun c s => TrapSt (csr s) (MsgSt (mtab (tmsg s)) (ckern c)) (con c) (cuart c) (tdisk s)).
Definition disk_of : lens trapst vst := Lens tdisk (fun d s => TrapSt (csr s) (tmsg s) (tcons s) (tuart s) d).

Definition csr_mod (f : csrs -> csrs) : M trapst unit :=
  kmod (fun s => TrapSt (f (csr s)) (tmsg s) (tcons s) (tuart s) (tdisk s)).
Definition csr_get : M trapst csrs := let* s := kget in kret (csr s).

Definition w_sstatus (v : Z) (c : csrs) : csrs :=
  Csrs v (sepc c) (scause c) (stval c) (stvec c) (stimecmp c) (plic c).
Definition w_sepc (v : Z) (c : csrs) : csrs :=
  Csrs (sstatus c) v (scause c) (stval c) (stvec c) (stimecmp c) (plic c).
Definition w_stvec (v : Z) (c : csrs) : csrs :=
  Csrs (sstatus c) (sepc c) (scause c) (stval c) v (stimecmp c) (plic c).
Definition w_stimecmp (v : Z) (c : csrs) : csrs :=
  Csrs (sstatus c) (sepc c) (scause c) (stval c) (stvec c) v (plic c).
Definition w_plic (a v : Z) (c : csrs) : csrs :=
  Csrs (sstatus c) (sepc c) (scause c) (stval c) (stvec c) (stimecmp c) (plic c ++ [(a, v)]).

Definition intr_on : M trapst unit := csr_mod (fun c => w_sstatus (Z.lor (sstatus c) SSTATUS_SIE) c).
Definition intr_off : M trapst unit := csr_mod (fun c => w_sstatus (Z.land (sstatus c) (Z.lnot SSTATUS_SIE)) c).
Definition intr_get (c : csrs) : bool := truth (Z.land (sstatus c) SSTATUS_SIE).

Definition PLIC_SENABLE (hart : Z) : Z := PLIC + 0x2080 + hart * 0x100.
Definition PLIC_SPRIORITY (hart : Z) : Z := PLIC + 0x201000 + hart * 0x2000.
Definition PLIC_SCLAIM (hart : Z) : Z := PLIC + 0x201004 + hart * 0x2000.

Definition TF_KERNEL_SATP : Z := 0.
Definition TF_KERNEL_SP : Z := 8.
Definition TF_KERNEL_TRAP : Z := 16.
Definition TF_KERNEL_HARTID : Z := 32.

(** How a trap from user space ends: in user space with the given user page
    table (and the address of userret), in the scheduler for good, or in the
    scheduler until it is this process's turn again. *)
Inductive uend : Type :=
| ToUser (userret_va satp : Z)
| Exited
| Yielded.

Section trap.
Variable kend trampoline forkret_pc : Z.
Variable uservec userret kernelvec usertrap_pc : Z.    (* trampoline.S, kernelvec.S, usertrap itself *)
Variable kernel_satp : Z.                              (* r_satp() *)
Variable hart : Z.                                     (* r_tp() *)
Variable time : Z.                                     (* r_time() *)
Variable claim : Z.                                    (* the word read from PLIC_SCLAIM *)
Variable stat_pad : list Z.
Variable msgtyp_hi : Z.
Variable devread : Z -> option (Z -> Z -> M filest Z).
Variable devwrite : Z -> option (Z -> Z -> M filest Z).

Definition trapinithart : M trapst unit := csr_mod (w_stvec kernelvec).

Definition plicinit : M trapst unit :=
  csr_mod (w_plic (PLIC + UART0_IRQ * 4) 1) ;;;
  csr_mod (w_plic (PLIC + VIRTIO0_IRQ * 4) 1).
Definition plicinithart : M trapst unit :=
  csr_mod (w_plic (PLIC_SENABLE hart) (Z.lor (Z.shiftl 1 UART0_IRQ) (Z.shiftl 1 VIRTIO0_IRQ))) ;;;
  csr_mod (w_plic (PLIC_SPRIORITY hart) 0).
Definition plic_claim : M trapst Z := kret (i32 claim).
Definition plic_complete (irq : Z) : M trapst unit := csr_mod (w_plic (PLIC_SCLAIM hart) (u32 irq)).

Definition tick (s : kst) : kst :=
  Kst (procs s) (nextpid s) (initproc s) (u32 (ticks s + 1)) (kout s) (kfiles s).

Definition clockintr : M trapst unit :=
  (if hart =? 0 then
     acquire O_ticks ;;;
     zoom tkern_of (kmod tick) ;;;
     wakeup O_ticks ;;;
     release O_ticks
   else kret tt) ;;;
  csr_mod (w_stimecmp (u64 (time + 1000000))).

(** [cur] is myproc(). *)
Definition devintr (cur : option nat) : M trapst Z :=
  let* c := csr_get in
  if scause c =? 0x8000000000000009 then
    let* irq := plic_claim in
    (if irq =? UART0_IRQ then zoom cons_of (uartintr cur)
     else if irq =? VIRTIO0_IRQ then zoom disk_of virtio_disk_intr
     else if truth irq then zoom tkern_of (kprintf (str "unexpected interrupt irq=%d" ++ newline) [VNum irq])
     else kret tt) ;;;
    (if truth irq then plic_complete irq else kret tt) ;;;
    kret 1
  else if scause c =? 0x8000000000000005 then clockintr ;;; kret 2
  else kret 0.

Definition usertrapret (me : nat) : M trapst uend :=
  let* p := zoom tkern_of (pget me) in
  intr_off ;;;
  csr_mod (w_stvec (u64 (TRAMPOLINE + (uservec - trampoline)))) ;;;
  zoom tkern_of (tf_set (p_trapframe p) TF_KERNEL_SATP kernel_satp) ;;;
  zoom tkern_of (tf_set (p_trapframe p) TF_KERNEL_SP (u64 (p_kstack p + PGSIZE))) ;;;
  zoom tkern_of (tf_set (p_trapframe p) TF_KERNEL_TRAP usertrap_pc) ;;;
  zoom tkern_of (tf_set (p_trapframe p) TF_KERNEL_HARTID hart) ;;;
  csr_mod (fun c => w_sstatus (Z.lor (Z.land (sstatus c) (Z.lnot SSTATUS_SPP)) SSTATUS_SPIE) c) ;;;
  let* epc := zoom tkern_of (tf_get (p_trapframe p) TF_EPC) in
  csr_mod (w_sepc epc) ;;;
  kret (ToUser (u64 (TRAMPOLINE + (userret - trampoline))) (MAKE_SATP (p_pagetable p))).

(** The end of [usertrap], after the system call or the interrupt. *)
Definition usertrap_end (me : nat) (which_dev : Z) : M trapst uend :=
  let* k := zoom tkern_of (killed me) in
  if truth k then zoom tkern_of (exit kend me (-1)) ;;; kret Exited
  else if which_dev =? 2 then zoom tkern_of (yield me) ;;; kret Yielded
  else usertrapret me.

Definition usertrap_syscall (me : nat) (p : proc) : M trapst uend :=
  (if decide (p_state p = RUNNING) then zoom tkern_of (handle_signals me) else kret tt) ;;;
  let* k := zoom tkern_of (killed me) in
  if truth k then zoom tkern_of (exit kend me (-1)) ;;; kret Exited
  else
    let* epc := zoom tkern_of (tf_get (p_trapframe p) TF_EPC) in
    zoom tkern_of (tf_set (p_trapframe p) TF_EPC (u64 (epc + 4))) ;;;
    intr_on ;;;
    let* back := zoom msg_of (syscall kend trampoline forkret_pc me stat_pad msgtyp_hi devread devwrite) in
    if negb back then kret Exited else usertrap_end me 0.

Definition usertrap (me : nat) : M trapst uend :=
  let* c := csr_get in
  if truth (Z.land (sstatus c) SSTATUS_SPP) then panic "usertrap: not from user mode"
  else
    csr_mod (w_stvec kernelvec) ;;;
    let* p := zoom tkern_of (pget me) in
    zoom tkern_of (tf_set (p_trapframe p) TF_EPC (sepc c)) ;;;
    if scause c =? 8 then usertrap_syscall me p
    else
      let* which_dev := devintr (Some me) in
      (if negb (which_dev =? 0) then kret tt
       else
         zoom tkern_of (kprintf (str "usertrap(): unexpected scause 0x%lx pid=%d" ++ newline) [VNum (scause c); VNum (p_pid p)]) ;;;
         zoom tkern_of (kprintf (str "            sepc=0x%lx stval=0x%lx" ++ newline) [VNum (sepc c); VNum (stval c)]) ;;;
         zoom tkern_of (setkilled me)) ;;;
      usertrap_end me which_dev.

(** Whether [kerneltrap] switches to the scheduler before it returns, and what
    it does after the switch back. *)
Definition kerneltrap_end (c : csrs) : M trapst unit :=
  csr_mod (w_sepc (sepc c)) ;;;
  csr_mod (w_sstatus (sstatus c)).
Definition kerneltrap (cur : option nat) : M trapst bool :=
  let* c := csr_get in
  if Z.land (sstatus c) SSTATUS_SPP =? 0 then panic "kerneltrap: not from supervisor mode"
  else if intr_get c then panic "kerneltrap: interrupts enabled"
  else
    let* which_dev := devintr cur in
    if which_dev =? 0 then
      zoom tkern_of (kprintf (str "scause=0x%lx sepc=0x%lx stval=0x%lx" ++ newline)
        [VNum (scause c); VNum (sepc c); VNum (stval c)]) ;;;
      panic "kerneltrap"
    else
      match cur with
      | Some me =>
          if which_dev =? 2 then zoom tkern_of (yield me) ;;; kret true
          else kerneltrap_end c ;;; kret false
      | None => kerneltrap_end c ;;; kret false
      end.

(** The rest of the two handlers once the scheduler has switched back after
    the yield; [c] holds the registers [kerneltrap] saved on entry. *)
Definition usertrap_back (me : nat) : M trapst uend :=
  zoom tkern_of (yield_back me) ;;; usertrapret me.
Definition kerneltrap_back (me : nat) (c : csrs) : M trapst unit :=
  zoom tkern_of (yield_back me) ;;; kerneltrap_end c.
End trap.
