(* ===== verification/TrapOk.v ===== *)
(** * A system call from trap to return

    The parts composed: a trap from user space goes through usertrap, the
    system call table, a handler and usertrapret, and the user finds the
    result in a0 with every other register as it was. *)

From S2P Require Import Prelude CMem KString Riscv Kalloc Vm Locks Pipe Block Bio Log.
From S2P Require Import Fs File FsAlloc Printf Uart Proc Sysproc Exec Sysfile Msg Syscall.
From S2P Require Import Console ConsoleOk Virtio Trap.

Definition tmem (s : trapst) : mem := pm_mem (lget kmem_of (lget tkern_of s)).
Definition tprocs (s : trapst) : list proc := procs (mkern (tmsg s)).
Definition with_tmem (f : mem -> mem) (s : trapst) : trapst :=
  lset tkern_of (lset kmem_of (with_mem f (lget kmem_of (lget tkern_of s))) (lget tkern_of s)) s.
Definition with_csr (f : csrs -> csrs) (s : trapst) : trapst :=
  TrapSt (f (csr s)) (tmsg s) (tcons s) (tuart s) (tdisk s).

Lemma tmem_with f s : tmem (with_tmem f s) = f (tmem s).
Proof. done. Qed.
Lemma tprocs_with f s : tprocs (with_tmem f s) = tprocs s.
Proof. done. Qed.
Lemma csr_with f s : csr (with_tmem f s) = csr s.
Proof. done. Qed.

(** ** What the pieces do *)

Lemma tf_set_run tf off v c s :
  zoom tkern_of (tf_set tf off v) c s = Ret tt c (with_tmem (fun m => store64 m (tf + off) v) s).
Proof. done. Qed.

Lemma tf_get_run tf off c s : zoom tkern_of (tf_get tf off) c s = Ret (load64 (tmem s) (tf + off)) c s.
Proof. by destruct s as [? [? [? ? ? ? ? [? ? [? ? ? []]]]] ? ? ?]. Qed.

Lemma pget_trun me p c s : tprocs s !! me = Some p -> zoom tkern_of (pget me) c s = Ret p c s.
Proof.
  destruct s as [? [? []] ? ? ?]; cbn; intros Hp; unfold zoom, pget, kbind, kget, kret, get_proc; cbn; by rewrite Hp.
Qed.

Lemma killed_trun me p c s :
  tprocs s !! me = Some p -> O_proc me ∉ held c -> zoom tkern_of (killed me) c s = Ret (p_killed p) c s.
Proof.
  destruct s as [? [? []] ? ? ?]; cbn; intros Hp Hc; unfold zoom, killed, kbind; rewrite acquire_run by done.
  unfold pget, kbind, kget, kret, get_proc; cbn; rewrite Hp, release_run; done.
Qed.

(** The handler of a call that only reads the process. *)
Lemma getpid_trun me p c s :
  tprocs s !! me = Some p -> zoom msg_of (ret_k (sys_getpid me)) c s = Ret (Returned (p_pid p)) c s.
Proof.
  destruct s as [? [? []] ? ? ?]; cbn; intros Hp.
  unfold zoom, ret_k, sys_getpid, pget, kbind, zoom, kget, kret, get_proc; cbn; by rewrite Hp.
Qed.

Lemma signals_trun me p c s :
  tprocs s !! me = Some p -> Z.land (p_pending p) 4 = 0 -> zoom tkern_of (handle_signals me) c s = Ret tt c s.
Proof.
  destruct s as [? [? []] ? ? ?]; cbn; intros Hp H4; unfold zoom, handle_signals, pget, kbind, kget, kret, get_proc; cbn.
  rewrite Hp; cbn; change (Z.shiftl 1 SIGINT) with 4; by rewrite H4.
Qed.

Section trap.
Variable kend trampoline forkret_pc uservec userret kernelvec usertrap_pc kernel_satp hart time claim : Z.
Variable stat_pad : list Z.
Variable msgtyp_hi : Z.
Variable devread devwrite : Z -> option (Z -> Z -> M filest Z).
#[local] Abbreviation syscall := (syscall kend trampoline forkret_pc).
#[local] Abbreviation usertrap :=
  (usertrap kend trampoline forkret_pc uservec userret kernelvec usertrap_pc kernel_satp hart time claim stat_pad msgtyp_hi devread devwrite).
#[local] Abbreviation usertrapret := (usertrapret trampoline uservec userret usertrap_pc kernel_satp hart).

Lemma syscall_getpid me p c s :
  tprocs s !! me = Some p -> i32 (load64 (tmem s) (p_trapframe p + TF_A7)) = SYS_getpid ->
  zoom msg_of (syscall me stat_pad msgtyp_hi devread devwrite) c s =
  Ret true c (with_tmem (fun m => store64 m (p_trapframe p + TF_A0) (u64 (p_pid p))) s).
Proof.
  destruct s as [x [t [ps np ip tk ko [ft pp [sb it lg um]]]] cn ua di]; intros Hp Hn.
  change (ps !! me = Some p) in Hp; change (i32 (load64 (pm_mem um) (p_trapframe p + TF_A7)) = SYS_getpid) in Hn.
  unfold zoom at 1, Syscall.syscall; cbn [lget msg_of tmsg].
  assert (Hg : zoom kern_of (pget me) c (MsgSt t (Kst ps np ip tk ko (FileSt ft pp (FsSt sb it lg um)))) =
    Ret p c (MsgSt t (Kst ps np ip tk ko (FileSt ft pp (FsSt sb it lg um))))).
  { unfold zoom, pget, kbind, kget, kret, get_proc; cbn; by rewrite Hp. }
  rewrite (kbind_run _ _ _ _ _ _ _ Hg).
  assert (Ht : zoom kern_of (tf_get (p_trapframe p) TF_A7) c (MsgSt t (Kst ps np ip tk ko (FileSt ft pp (FsSt sb it lg um)))) =
    Ret (load64 (pm_mem um) (p_trapframe p + TF_A7)) c (MsgSt t (Kst ps np ip tk ko (FileSt ft pp (FsSt sb it lg um))))).
  { by destruct um. }
  rewrite (kbind_run _ _ _ _ _ _ _ Ht); cbv zeta; rewrite Hn.
  change (syscalls kend trampoline forkret_pc me stat_pad msgtyp_hi devread devwrite p SYS_getpid)
    with (Some (ret_k (sys_getpid me))); cbv iota beta.
  assert (Hr : ret_k (sys_getpid me) c (MsgSt t (Kst ps np ip tk ko (FileSt ft pp (FsSt sb it lg um)))) =
    Ret (Returned (p_pid p)) c (MsgSt t (Kst ps np ip tk ko (FileSt ft pp (FsSt sb it lg um))))).
  { unfold ret_k, sys_getpid, pget, kbind, zoom, kget, kret, get_proc; cbn; by rewrite Hp. }
  by rewrite (kbind_run _ _ _ _ _ _ _ Hr).
Qed.

(** The trap frame that [usertrapret] leaves. *)
Definition return_frame (tf kstack : Z) (m : mem) : mem :=
  store64 (store64 (store64 (store64 m (tf + TF_KERNEL_SATP) kernel_satp) (tf + TF_KERNEL_SP) (u64 (kstack + PGSIZE)))
    (tf + TF_KERNEL_TRAP) usertrap_pc) (tf + TF_KERNEL_HARTID) hart.

Lemma usertrapret_run me p c s :
  tprocs s !! me = Some p ->
  exists s', usertrapret me c s = Ret (ToUser (u64 (TRAMPOLINE + (userret - trampoline))) (MAKE_SATP (p_pagetable p))) c s' /\
    tmem s' = return_frame (p_trapframe p) (p_kstack p) (tmem s) /\ tprocs s' = tprocs s /\
    csr s' = w_sepc (load64 (tmem s') (p_trapframe p + TF_EPC))
      (w_sstatus (Z.lor (Z.land (Z.land (sstatus (csr s)) (Z.lnot SSTATUS_SIE)) (Z.lnot SSTATUS_SPP)) SSTATUS_SPIE)
        (w_stvec (u64 (TRAMPOLINE + (uservec - trampoline))) (csr s))).
Proof.
  intros Hp; unfold Trap.usertrapret; rewrite (kbind_run _ _ _ _ _ _ _ (pget_trun me p c s Hp)).
  unfold intr_off, csr_mod, kmod; unfold kbind; cbn beta iota.
  rewrite !tf_set_run, tf_get_run; cbn beta iota; eexists; split; [reflexivity|]; done.
Qed.

Lemma frame_load tf ks m off :
  0 <= off <= 280 -> off mod 8 = 0 -> off <> 0 -> off <> 8 -> off <> 16 -> off <> 32 ->
  load64 (return_frame tf ks m) (tf + off) = load64 m (tf + off).
Proof.
  intros H1 H2 H3 H4 H5 H6; unfold return_frame, TF_KERNEL_SATP, TF_KERNEL_SP, TF_KERNEL_TRAP, TF_KERNEL_HARTID.
  assert (off = 24 \/ 40 <= off) by (pose proof (Z.div_mod off 8 ltac:(lia)); lia).
  rewrite !load64_store64_disj by lia; done.
Qed.

(** The state in which the handler of getpid has stored its result. *)
Definition served (p : proc) (s : trapst) : trapst :=
  let tf := p_trapframe p in
  with_tmem (fun m => store64 m (tf + TF_A0) (u64 (p_pid p)))
    (with_csr (fun x => w_sstatus (Z.lor (sstatus x) SSTATUS_SIE) x)
      (with_tmem (fun m => store64 m (tf + TF_EPC) (u64 (sepc (csr s) + 4)))
        (with_tmem (fun m => store64 m (tf + TF_EPC) (sepc (csr s))) (with_csr (w_stvec kernelvec) s)))).

Lemma usertrap_getpid me p c s :
  tprocs s !! me = Some p -> p_state p = RUNNING -> p_killed p = 0 -> Z.land (p_pending p) 4 = 0 ->
  O_proc me ∉ held c -> scause (csr s) = 8 -> Z.land (sstatus (csr s)) SSTATUS_SPP = 0 -> 0 <= sepc (csr s) < 2 ^ 64 ->
  i32 (load64 (tmem s) (p_trapframe p + TF_A7)) = SYS_getpid ->
  usertrap me c s = usertrapret me c (served p s).
Proof.
  intros Hp Hst Hk Hpend Hc Hsc Hspp Hepc Hnum; unfold Trap.usertrap.
  rewrite (kbind_run csr_get _ c s (csr s) c s eq_refl), Hspp, Hsc; change (truth 0) with false; cbv iota.
  rewrite (kbind_run (csr_mod (w_stvec kernelvec)) _ c s tt c (with_csr (w_stvec kernelvec) s) eq_refl).
  rewrite (kbind_run _ _ _ _ _ _ _ (pget_trun me p c (with_csr (w_stvec kernelvec) s) Hp)).
  rewrite (kbind_run _ _ _ _ _ _ _ (tf_set_run _ _ _ _ _)); change (8 =? 8) with true; cbv iota.
  set (s1 := with_tmem (fun m => store64 m (p_trapframe p + TF_EPC) (sepc (csr s))) (with_csr (w_stvec kernelvec) s)).
  unfold usertrap_syscall; rewrite decide_True by done.
  rewrite (kbind_run _ _ _ _ _ _ _ (signals_trun me p c s1 Hp Hpend)).
  rewrite (kbind_run _ _ _ _ _ _ _ (killed_trun me p c s1 Hp Hc)), Hk; change (truth 0) with false; cbv iota.
  rewrite (kbind_run _ _ _ _ _ _ _ (tf_get_run _ _ c s1)).
  replace (load64 (tmem s1) (p_trapframe p + TF_EPC)) with (sepc (csr s))
    by (unfold s1; rewrite tmem_with; by rewrite load64_store64_same).
  rewrite (kbind_run _ _ _ _ _ _ _ (tf_set_run _ _ _ c s1)).
  set (s2 := with_tmem (fun m => store64 m (p_trapframe p + TF_EPC) (u64 (sepc (csr s) + 4))) s1).
  set (s3 := with_csr (fun x => w_sstatus (Z.lor (sstatus x) SSTATUS_SIE) x) s2).
  rewrite (kbind_run intr_on _ c s2 tt c s3 eq_refl).
  assert (Hnum3 : i32 (load64 (tmem s3) (p_trapframe p + TF_A7)) = SYS_getpid).
  { rewrite <- Hnum; f_equal; unfold s3, s2, s1; change (tmem (with_csr ?f ?x)) with (tmem x).
    rewrite !tmem_with, !load64_store64_disj by (unfold TF_EPC, TF_A7; lia); done. }
  rewrite (kbind_run _ _ _ _ _ _ _ (syscall_getpid me p c s3 Hp Hnum3)); cbn [negb].
  unfold usertrap_end; rewrite (kbind_run _ _ _ _ _ _ _ (killed_trun me p c _ (Hp : tprocs (served p s) !! me = Some p) Hc)), Hk.
  done.
Qed.

(** The getpid system call, from trap to return.  A process that is
    neither killed nor signalled and traps with getpid's number in a7 returns
    to user space on its own page table, at the instruction after the trap,
    in user mode with interrupts on; its a0 holds its pid, every other user
    register is as it was, and so are the process table and all memory outside
    the trap frame. *)
Theorem getpid_trap me p c s :
  tprocs s !! me = Some p -> p_state p = RUNNING -> p_killed p = 0 -> Z.land (p_pending p) 4 = 0 ->
  0 <= p_pid p < 2 ^ 31 -> O_proc me ∉ held c ->
  scause (csr s) = 8 -> Z.land (sstatus (csr s)) SSTATUS_SPP = 0 -> 0 <= sepc (csr s) < 2 ^ 64 ->
  i32 (load64 (tmem s) (p_trapframe p + TF_A7)) = SYS_getpid ->
  let tf := p_trapframe p in
  exists s', usertrap me c s = Ret (ToUser (u64 (TRAMPOLINE + (userret - trampoline))) (MAKE_SATP (p_pagetable p))) c s' /\
    load64 (tmem s') (tf + TF_A0) = p_pid p /\
    sepc (csr s') = u64 (sepc (csr s) + 4) /\ stvec (csr s') = u64 (TRAMPOLINE + (uservec - trampoline)) /\
    Z.testbit (sstatus (csr s')) 8 = false /\ Z.testbit (sstatus (csr s')) 5 = true /\
    Z.testbit (sstatus (csr s')) 1 = false /\
    (forall off, 40 <= off <= 280 -> off mod 8 = 0 -> off <> TF_A0 ->
       load64 (tmem s') (tf + off) = load64 (tmem s) (tf + off)) /\
    tprocs s' = tprocs s /\ (forall x, ~ (tf <= x < tf + TF_SIZE) -> tmem s' x = tmem s x).
Proof.
  intros Hp Hst Hk Hpend Hpid Hc Hsc Hspp Hepc Hnum tf; rewrite (usertrap_getpid me p c s) by done.
  destruct (usertrapret_run me p c (served p s) Hp) as (s' & Hrun & Hm & Hps & Hcsr); exists s'; split; [done|].
  assert (Hms : tmem (served p s) = store64 (store64 (store64 (tmem s) (tf + TF_EPC) (sepc (csr s)))
    (tf + TF_EPC) (u64 (sepc (csr s) + 4))) (tf + TF_A0) (u64 (p_pid p))) by done.
  split; [rewrite Hm, frame_load, Hms, load64_store64_same, u64_small by (done || lia || apply u64_range); done|].
  rewrite Hcsr; cbn [sepc sstatus stvec w_sepc w_sstatus w_stvec].
  split; [rewrite Hm, frame_load, Hms by done|].
  { rewrite load64_store64_disj by (unfold TF_EPC, TF_A0; lia); apply load64_store64_same, u64_range. }
  split; [done|]; split; [by rewrite Z.lor_spec, !Z.land_spec, !andb_false_r|].
  split; [by rewrite Z.lor_spec, orb_true_r|]; split; [by rewrite Z.lor_spec, !Z.land_spec, andb_false_r|].
  unfold TF_A0, TF_EPC, TF_SIZE in *; split_and!.
  - intros off H1 H2 H3; rewrite Hm, frame_load, Hms by (done || lia).
    assert (off <= 104 \/ 120 <= off) by (pose proof (Z.div_mod off 8 ltac:(lia)); lia).
    by rewrite !load64_store64_disj by lia.
  - by rewrite Hps.
  - intros x Hx; rewrite Hm; unfold return_frame, TF_KERNEL_SATP, TF_KERNEL_SP, TF_KERNEL_TRAP, TF_KERNEL_HARTID.
    by rewrite !store64_out, Hms, !store64_out by lia.
Qed.
End trap.

(** Process 5 in slot 0, with getpid's number in its frame. *)
Definition trap_mem : mem := fun x => if x =? 0x80001000 + TF_A7 then SYS_getpid else 0.
Definition trap_proc : proc := set_state RUNNING (set_pid 5 (set_trapframe 0x80001000 proc0)).
Definition demo_trap : trapst :=
  TrapSt (Csrs 0 0x1000 8 0 0 0 [])
    (MsgSt (MsgTable [] [])
       (Kst [trap_proc] 6 None 0 [] (FileSt fileinit (fun _ => pipe_init []) (FsSt demo_sb [] (lgs demo_fs) (PMem trap_mem 0)))))
    demo_cons demo_uart (VSt disk_init []).

Lemma getpid_trap_witness :
  exists s' u r, usertrap 0 0 0 0 0 0 0 0 0 0 0 [] 0 (fun _ => None) (fun _ => None) 0 (Ctx [] []) demo_trap = Ret (ToUser u r) (Ctx [] []) s' /\
    load64 (tmem s') (0x80001000 + TF_A0) = 5 /\ sepc (csr s') = 0x1004.
Proof.
  destruct (getpid_trap 0 0 0 0 0 0 0 0 0 0 0 [] 0 (fun _ => None) (fun _ => None) 0 trap_proc (Ctx [] []) demo_trap)
    as (s' & Hrun & Ha & He & _); try reflexivity.
  - split; vm_compute; congruence.
  - apply not_elem_of_nil.
  - split; vm_compute; congruence.
  - exists s'; do 2 eexists; split; [exact Hrun|]; split; [exact Ha|exact He].
Defined.
