(* ===== verification/Boot.v ===== *)
(** * kernel/start.c, kernel/main.c

    From the reset of each hart to its scheduler.  [start] works on the
    registers of a hart; [main] on the registers of its hart and the state that
    all harts share.  The harts run interleaved, one call of [main] at a time. *)

From stdpp Require Import functions.
From S2P Require Import Prelude CMem KString Riscv Kalloc Vm Locks Pipe Block Bio.
From S2P Require Import Log Fs File Printf Uart Proc Sysproc Exec Sysfile Msg.
From S2P Require Import Syscall Console Virtio Trap.

(** ** Machine mode *)

Definition MSTATUS_MPP_MASK : Z := Z.shiftl 3 11.
Definition MSTATUS_MPP_S : Z := Z.shiftl 1 11.
Definition MSTATUS_MIE : Z := Z.shiftl 1 3.
Definition SIE_SEIE : Z := Z.shiftl 1 9.
Definition SIE_STIE : Z := Z.shiftl 1 5.
Definition SIE_SSIE : Z := Z.shiftl 1 1.
Definition MIE_STIE : Z := Z.shiftl 1 5.

(** Privilege mode and program counter; [sregs] are the registers of the trap
    code. *)
Record hart : Type := Hart {
  mode : Z;
  pc : Z;
  tp : Z;
  mstatus : Z;
  mepc : Z;
  medeleg : Z;
  mideleg : Z;
  mie : Z;
  menvcfg : Z;
  mcounteren : Z;
  pmpcfg0 : Z;
  pmpaddr0 : Z;
  sie : Z;
  satp : Z;
  sregs : csrs
}.

Definition enter (m a : Z) (h : hart) : hart :=
  Hart m a (tp h) (mstatus h) (mepc h) (medeleg h) (mideleg h) (mie h) (menvcfg h) (mcounteren h) (pmpcfg0 h)
    (pmpaddr0 h) (sie h) (satp h) (sregs h).
Definition w_tp (x : Z) (h : hart) : hart :=
  Hart (mode h) (pc h) x (mstatus h) (mepc h) (medeleg h) (mideleg h) (mie h) (menvcfg h) (mcounteren h) (pmpcfg0 h)
    (pmpaddr0 h) (sie h) (satp h) (sregs h).
Definition w_mstatus (x : Z) (h : hart) : hart :=
  Hart (mode h) (pc h) (tp h) x (mepc h) (medeleg h) (mideleg h) (mie h) (menvcfg h) (mcounteren h) (pmpcfg0 h)
    (pmpaddr0 h) (sie h) (satp h) (sregs h).
Definition w_mepc (x : Z) (h : hart) : hart :=
  Hart (mode h) (pc h) (tp h) (mstatus h) x (medeleg h) (mideleg h) (mie h) (menvcfg h) (mcounteren h) (pmpcfg0 h)
    (pmpaddr0 h) (sie h) (satp h) (sregs h).
Definition w_medeleg (x : Z) (h : hart) : hart :=
  Hart (mode h) (pc h) (tp h) (mstatus h) (mepc h) x (mideleg h) (mie h) (menvcfg h) (mcounteren h) (pmpcfg0 h)
    (pmpaddr0 h) (sie h) (satp h) (sregs h).
Definition w_mideleg (x : Z) (h : hart) : hart :=
  Hart (mode h) (pc h) (tp h) (mstatus h) (mepc h) (medeleg h) x (mie h) (menvcfg h) (mcounteren h) (pmpcfg0 h)
    (pmpaddr0 h) (sie h) (satp h) (sregs h).
Definition w_mie (x : Z) (h : hart) : hart :=
  Hart (mode h) (pc h) (tp h) (mstatus h) (mepc h) (medeleg h) (mideleg h) x (menvcfg h) (mcounteren h) (pmpcfg0 h)
    (pmpaddr0 h) (sie h) (satp h) (sregs h).
Definition w_menvcfg (x : Z) (h : hart) : hart :=
  Hart (mode h) (pc h) (tp h) (mstatus h) (mepc h) (medeleg h) (mideleg h) (mie h) x (mcounteren h) (pmpcfg0 h)
    (pmpaddr0 h) (sie h) (satp h) (sregs h).
Definition w_mcounteren (x : Z) (h : hart) : hart :=
  Hart (mode h) (pc h) (tp h) (mstatus h) (mepc h) (medeleg h) (mideleg h) (mie h) (menvcfg h) x (pmpcfg0 h)
    (pmpaddr0 h) (sie h) (satp h) (sregs h).
Definition w_pmpcfg0 (x : Z) (h : hart) : hart :=
  Hart (mode h) (pc h) (tp h) (mstatus h) (mepc h) (medeleg h) (mideleg h) (mie h) (menvcfg h) (mcounteren h) x
    (pmpaddr0 h) (sie h) (satp h) (sregs h).
Definition w_pmpaddr0 (x : Z) (h : hart) : hart :=
  Hart (mode h) (pc h) (tp h) (mstatus h) (mepc h) (medeleg h) (mideleg h) (mie h) (menvcfg h) (mcounteren h) (pmpcfg0 h)
    x (sie h) (satp h) (sregs h).
Definition w_sie (x : Z) (h : hart) : hart :=
  Hart (mode h) (pc h) (tp h) (mstatus h) (mepc h) (medeleg h) (mideleg h) (mie h) (menvcfg h) (mcounteren h) (pmpcfg0 h)
    (pmpaddr0 h) x (satp h) (sregs h).
Definition w_satp (x : Z) (h : hart) : hart :=
  Hart (mode h) (pc h) (tp h) (mstatus h) (mepc h) (medeleg h) (mideleg h) (mie h) (menvcfg h) (mcounteren h) (pmpcfg0 h)
    (pmpaddr0 h) (sie h) x (sregs h).
Definition w_sregs (x : csrs) (h : hart) : hart :=
  Hart (mode h) (pc h) (tp h) (mstatus h) (mepc h) (medeleg h) (mideleg h) (mie h) (menvcfg h) (mcounteren h) (pmpcfg0 h)
    (pmpaddr0 h) (sie h) (satp h) x.

(** The instruction: to the mode in MPP and the address in mepc; MIE becomes
    MPIE, MPIE 1, MPP user mode, and MPRV 0 unless the mode is M. *)
Definition mret (h : hart) : hart :=
  let x := mstatus h in
  let mpp := Z.land (Z.shiftr x 11) 3 in
  let y := Z.land x (Z.lnot (Z.lor MSTATUS_MPP_MASK MSTATUS_MIE)) in
  let y := if Z.testbit x 7 then Z.lor y MSTATUS_MIE else y in
  let y := Z.lor y (Z.shiftl 1 7) in
  let y := if mpp =? 3 then y else Z.land y (Z.lnot (Z.shiftl 1 17)) in
  enter mpp (mepc h) (w_mstatus y h).

(** [time] is what r_time() returns, [mhartid] what r_mhartid() does. *)
Definition timerinit (time : Z) (h : hart) : hart :=
  let h := w_mie (Z.lor (mie h) MIE_STIE) h in
  let h := w_menvcfg (Z.lor (menvcfg h) (Z.shiftl 1 63)) h in
  let h := w_mcounteren (Z.lor (mcounteren h) 2) h in
  w_sregs (w_stimecmp (u64 (time + 1000000)) (sregs h)) h.

Definition start (main_pc mhartid time : Z) (h : hart) : hart :=
  let x := mstatus h in
  let x := Z.land x (Z.lnot MSTATUS_MPP_MASK) in
  let x := Z.lor x MSTATUS_MPP_S in
  let h := w_mstatus x h in
  let h := w_mepc main_pc h in
  let h := w_satp 0 h in
  let h := w_medeleg 0xffff h in
  let h := w_mideleg 0xffff h in
  let h := w_sie (Z.lor (Z.lor (Z.lor (sie h) SIE_SEIE) SIE_STIE) SIE_SSIE) h in
  let h := w_pmpaddr0 0x3fffffffffffff h in
  let h := w_pmpcfg0 0xf h in
  let h := timerinit time h in
  let id := i32 mhartid in
  let h := w_tp (u64 id) h in
  mret h.

(** ** The state of the kernel *)

Record shared : Type := Shared {
  kernel_pagetable : Z;            (* vm.c *)
  started : Z;
  locking : Z;                     (* pr.locking *)
  disk_regs : list (Z * Z);        (* stored in the registers of the disk, oldest first *)
  disk_rings : Z * Z * Z;          (* disk.desc, disk.avail, disk.used *)
  s_msg : msgst;
  s_cons : cons_t;
  s_uart : uartst;
  s_disk : vst
}.

(** The kernel as one hart sees it. *)
Record bootst : Type := BootSt {
  my : hart;
  sh : shared
}.

Definition set_kernel_pagetable (v : Z) (s : shared) : shared :=
  Shared v (started s) (locking s) (disk_regs s) (disk_rings s) (s_msg s) (s_cons s) (s_uart s) (s_disk s).
Definition set_started (v : Z) (s : shared) : shared :=
  Shared (kernel_pagetable s) v (locking s) (disk_regs s) (disk_rings s) (s_msg s) (s_cons s) (s_uart s) (s_disk s).
Definition set_locking (v : Z) (s : shared) : shared :=
  Shared (kernel_pagetable s) (started s) v (disk_regs s) (disk_rings s) (s_msg s) (s_cons s) (s_uart s) (s_disk s).
Definition set_disk (r : list (Z * Z)) (a : Z * Z * Z) (d : disk_t) (s : shared) : shared :=
  Shared (kernel_pagetable s) (started s) (locking s) (disk_regs s ++ r) a (s_msg s) (s_cons s) (s_uart s)
    (VSt d (vbufs (s_disk s))).

Definition sh_of : lens bootst shared := Lens sh (fun s b => BootSt (my b) s).
Definition trap_of : lens bootst trapst :=
  Lens (fun b => TrapSt (sregs (my b)) (s_msg (sh b)) (s_cons (sh b)) (s_uart (sh b)) (s_disk (sh b)))
       (fun t b => BootSt (w_sregs (csr t) (my b))
          (Shared (kernel_pagetable (sh b)) (started (sh b)) (locking (sh b)) (disk_regs (sh b)) (disk_rings (sh b))
             (tmsg t) (tcons t) (tuart t) (tdisk t))).
Definition kern_of : lens bootst kst :=
  Lens (fun b => mkern (s_msg (sh b)))
       (fun k b => BootSt (my b)
          (Shared (kernel_pagetable (sh b)) (started (sh b)) (locking (sh b)) (disk_regs (sh b)) (disk_rings (sh b))
             (MsgSt (mtab (s_msg (sh b))) k) (s_cons (sh b)) (s_uart (sh b)) (s_disk (sh b)))).
Definition bootcons_of : lens bootst consst :=
  Lens (fun b => ConsSt (s_cons (sh b)) (s_uart (sh b)) (mkern (s_msg (sh b))))
       (fun c b => BootSt (my b)
          (Shared (kernel_pagetable (sh b)) (started (sh b)) (locking (sh b)) (disk_regs (sh b)) (disk_rings (sh b))
             (MsgSt (mtab (s_msg (sh b))) (ckern c)) (con c) (cuart c) (s_disk (sh b)))).

(** [initlock], seen from the CPU that calls it: the lock is free. *)
Definition init_lock {S} (o : kobj) : M S unit := fun c s => Ret tt (Ctx (drop_lock o (held c)) (woken c)) s.

(** printf.c; printing takes the lock only when [pr.locking] is set. *)
Definition printfinit : M bootst unit :=
  init_lock O_pr ;;;
  zoom sh_of (kmod (set_locking 1)).
Definition boot_printf (fmt : list Z) (args : list varg) : M bootst unit :=
  let* b := kget in
  if truth (locking (sh b)) then zoom kern_of (kprintf fmt args)
  else
    match Kernel.printf fmt args with
    | None => stuck
    | Some out =>
        zoom kern_of (kmod (fun s => Kst (procs s) (nextpid s) (initproc s) (ticks s) (kout s ++ out) (kfiles s)))
    end.

(** [panic] as the machine sees it: it prints without the lock, freezes the
    serial port and loops. *)
Definition set_panicked (v : Z) (s : uartst) : uartst :=
  UartSt (uart_tx_buf s) (uart_tx_w s) (uart_tx_r s) v (lsr s) (rhr s) (sent s) (regs s).
Definition panic_print (msg : list Z) : M bootst unit :=
  zoom sh_of (kmod (set_locking 0)) ;;;
  boot_printf (str "panic: ") [] ;;;
  boot_printf (str "%s" ++ newline) [VStr (Some msg)] ;;;
  zoom bootcons_of (kmod (fun s => ConsSt (con s) (set_panicked 1 (cuart s)) (ckern s))).

(** [cpuid()] *)
Definition cpuid (h : hart) : Z := i32 (tp h).

Section main.
Variables kend etext trampoline : Z.           (* kernel.ld, trampoline.S *)
Variables forkret_pc kernelvec : Z.            (* the addresses of forkret and of kernelvec *)
Variable R : Z -> Z.                           (* what reads of the disk's registers return *)

(** ** The calls of [main] *)

(** devsw[CONSOLE] is an argument of the code that uses it. *)
Definition boot_console : M bootst unit :=
  init_lock O_cons ;;;
  init_lock O_uart ;;;
  zoom bootcons_of (kmod consoleinit).

Definition boot_kinit : M bootst unit :=
  init_lock O_kmem ;;;
  zoom kern_of (zoom kmem_of (kinit kend)).

Definition kvminit : M bootst unit :=
  let* r := zoom kern_of (zoom kmem_of (kvmmake etext trampoline)) in
  zoom sh_of (kmod (set_kernel_pagetable r)).
(** The fences order the store before it, as the steps of the model do. *)
Definition kvminithart : M bootst unit :=
  kmod (fun b => BootSt (w_satp (MAKE_SATP (kernel_pagetable (sh b))) (my b)) (sh b)).

Definition boot_procinit : M bootst unit :=
  init_lock O_pid ;;;
  init_lock O_wait ;;;
  kfor (Z.to_nat NPROC) 0 (fun i => init_lock (O_proc (Z.to_nat i))) ;;;
  zoom kern_of (kmod (fun s => Kst (procinit (procs s)) (nextpid s) (initproc s) (ticks s) (kout s) (kfiles s))).

Definition trapinit : M bootst unit := init_lock O_ticks.
Definition boot_trapinithart : M bootst unit := zoom trap_of (trapinithart kernelvec).
Definition boot_plicinit : M bootst unit := zoom trap_of plicinit.
Definition boot_plicinithart : M bootst unit :=
  let* b := kget in zoom trap_of (plicinithart (cpuid (my b))).

Definition boot_binit : M bootst unit :=
  init_lock O_bcache ;;;
  zoom kern_of (zoom kfs_of (zoom bcs_of (kmod (fun b => binit (disk b))))).
Definition boot_iinit : M bootst unit :=
  init_lock O_itable ;;;
  zoom kern_of (zoom kfs_of (kmod (fun s => FsSt (sb s) iinit (lgs s) (um s)))).
Definition boot_fileinit : M bootst unit :=
  init_lock O_ftable ;;;
  zoom kern_of (zoom files_of (kmod (fun s => FileSt fileinit (pipes s) (fss s)))).

Definition boot_disk : M bootst unit :=
  init_lock O_vdisk ;;;
  let* (r, a) := zoom kern_of (zoom kmem_of (virtio_disk_init R)) in
  zoom sh_of (kmod (set_disk r a disk_init)).

Definition boot_userinit : M bootst unit :=
  zoom kern_of (userinit kend trampoline forkret_pc).

(** Up to [started = 1]; every hart then calls [scheduler]. *)
Definition main_first : list (M bootst unit) :=
  [ boot_console;
    printfinit;
    boot_printf newline [];
    boot_printf (str "xv6 kernel is booting" ++ newline) [];
    boot_printf newline [];
    boot_kinit;
    kvminit;
    kvminithart;
    boot_procinit;
    trapinit;
    boot_trapinithart;
    boot_plicinit;
    boot_plicinithart;
    boot_binit;
    boot_iinit;
    boot_fileinit;
    boot_disk;
    boot_userinit;
    zoom sh_of (kmod (set_started 1)) ].

Fixpoint run_calls (l : list (M bootst unit)) : M bootst unit :=
  match l with
  | [] => kret tt
  | f :: l' => f ;;; run_calls l'
  end.

(** After [while(started == 0)]. *)
Definition main_other : list (M bootst unit) :=
  [ let* b := kget in boot_printf (str "hart %d starting" ++ newline) [VNum (cpuid (my b))];
    kvminithart;
    boot_trapinithart;
    boot_plicinithart ].

(** ** All harts *)

Record machine : Type := Machine {
  harts : Z -> hart;
  all : shared
}.
Definition on_hart (h : Z) : lens machine bootst :=
  Lens (fun m => BootSt (harts m h) (all m)) (fun b m => Machine (<[h := my b]> (harts m)) (sh b)).

(** Where a hart is: before [start], at a call of [main] with the locks it
    holds, in the loop that waits for [started], in the scheduler. *)
Inductive bpc : Type :=
| Reset
| At (c : kctx) (calls : list (M bootst unit))
| Waiting
| Scheduler.

Definition main (h : hart) : bpc := if cpuid h =? 0 then At (Ctx [] []) main_first else Waiting.

Variable main_pc : Z.                          (* the address of main *)

Inductive bstep : machine * (Z -> bpc) -> machine * (Z -> bpc) -> Prop :=
| b_start h time m p :
    0 <= h < NCPU -> p h = Reset ->
    let r := start main_pc h time (harts m h) in
    bstep (m, p) (Machine (<[h := r]> (harts m)) (all m), <[h := main r]> p)
| b_call h c f l m c' m' p :
    0 <= h < NCPU -> p h = At c (f :: l) -> zoom (on_hart h) f c m = Ret tt c' m' ->
    bstep (m, p) (m', <[h := At c' l]> p)
| b_wait h m p :
    0 <= h < NCPU -> p h = Waiting -> started (all m) = 0 -> bstep (m, p) (m, p)
| b_go h m p :
    0 <= h < NCPU -> p h = Waiting -> started (all m) <> 0 ->
    bstep (m, p) (m, <[h := At (Ctx [] []) main_other]> p)
| b_done h c m p :
    0 <= h < NCPU -> p h = At c [] -> bstep (m, p) (m, <[h := Scheduler]> p).
End main.
