(* ===== verification/BootOk.v ===== *)
(** * The machine boots

    Hart 0 brings the kernel from the state the loader leaves to the one the
    other files start from, and the other harts wait for it. *)

From stdpp Require Import functions.
From S2P Require Import Prelude CMem KString Riscv Kalloc Vm VmInv VmMap VmUser VmBuild KvmOk.
From S2P Require Import Locks Pipe Block Bio Log Fs File Printf Uart Proc Sysproc Exec Sysfile Msg.
From S2P Require Import Syscall Console Virtio Trap Boot.

(** ** Machine mode *)

Lemma mpp_supervisor x :
  Z.land (Z.shiftr (Z.lor (Z.land x (Z.lnot MSTATUS_MPP_MASK)) MSTATUS_MPP_S) 11) 3 = 1.
Proof.
  apply Z.bits_inj'; intros i Hi.
  rewrite Z.land_spec, Z.shiftr_spec, Z.lor_spec, Z.land_spec, Z.lnot_spec by lia.
  change MSTATUS_MPP_MASK with (Z.shiftl 3 11); change MSTATUS_MPP_S with (Z.shiftl 1 11); rewrite !Z.shiftl_spec by lia.
  replace (i + 11 - 11) with i by lia.
  destruct (decide (i = 0)) as [->|]; [by rewrite orb_true_r|].
  destruct (decide (i = 1)) as [->|]; [by rewrite andb_false_r|].
  rewrite (Z.bits_above_log2 3), (Z.bits_above_log2 1) by (cbn; lia); by rewrite andb_false_r.
Qed.

(** A hart in supervisor mode at [main]: interrupts and exceptions delegated,
    the supervisor's interrupts enabled, memory protection open on every
    physical address but the last word (TOR, with read, write and execute), no
    paging, the timer set and its own number in tp. *)
Record at_main (main_pc hartid time : Z) (h : hart) : Prop := AtMain {
  am_mode : mode h = 1;
  am_pc : pc h = main_pc;
  am_tp : tp h = hartid;
  am_paging : satp h = 0;
  am_deleg : medeleg h = 0xffff /\ mideleg h = 0xffff;
  am_sie : has (sie h) SIE_SEIE = true /\ has (sie h) SIE_STIE = true /\ has (sie h) SIE_SSIE = true;
  am_pmp : pmpcfg0 h = 0xf /\ pmpaddr0 h * 4 + 4 = 2 ^ 56;
  am_timer : has (mie h) MIE_STIE = true /\ has (mcounteren h) 2 = true /\ Z.testbit (menvcfg h) 63 = true /\
    stimecmp (sregs h) = u64 (time + 1000000)
}.

Lemma has_lor_l a b n : has a (2 ^ n) = true -> 0 <= n -> has (Z.lor a b) (2 ^ n) = true.
Proof.
  unfold has, truth; intros H Hn; apply negb_true_iff in H; apply negb_true_iff, Z.eqb_neq.
  apply Z.eqb_neq in H; rewrite Z.land_lor_distr_l; intros E; apply Z.lor_eq_0_iff in E as [E _]; done.
Qed.

Lemma has_lor_r a n : 0 <= n -> has (Z.lor a (2 ^ n)) (2 ^ n) = true.
Proof.
  intros Hn; unfold has, truth; apply negb_true_iff, Z.eqb_neq; rewrite Z.land_lor_distr_l, Z.land_diag.
  intros E; apply Z.lor_eq_0_iff in E as [_ E]; pose proof (Z.pow_pos_nonneg 2 n); lia.
Qed.

Lemma start_ok main_pc hartid time h :
  0 <= hartid < 2 ^ 31 -> at_main main_pc hartid time (start main_pc hartid time h).
Proof.
  intros Hh; split.
  - apply mpp_supervisor.
  - done.
  - cbn; rewrite i32_small, u64_small by lia; done.
  - done.
  - done.
  - cbn [start mret enter w_mstatus w_tp timerinit w_sregs w_mcounteren w_menvcfg w_mie w_pmpcfg0 w_pmpaddr0 w_sie sie].
    change SIE_SEIE with (2 ^ 9); change SIE_STIE with (2 ^ 5); change SIE_SSIE with (2 ^ 1).
    split_and!; repeat (apply has_lor_r || apply has_lor_l); lia.
  - done.
  - cbn [start mret enter w_mstatus w_tp timerinit w_sregs w_mcounteren w_menvcfg w_mie w_pmpcfg0 w_pmpaddr0 w_sie mie menvcfg mcounteren sregs].
    change MIE_STIE with (2 ^ 5); change (Z.shiftl 1 63) with (2 ^ 63); split_and!; [by apply has_lor_r|by apply (has_lor_r _ 1)| |done].
    by rewrite Z.lor_spec, Z.pow2_bits_true, orb_true_r by lia.
Qed.

(** ** Memory during boot *)

Section boot.
Variable kend : Z.
Hypothesis kend_pos : 0 < kend.
#[local] Set Default Proof Using "kend_pos".

(** A write to a page that is not free. *)
Lemma kmem_write p m' fl s :
  kmem_inv kend s fl -> p mod 4096 = 0 -> p ∉ fl -> mem_ok m' -> frame (fun q => q = p) (pm_mem s) m' ->
  kmem_inv kend (PMem m' (freelist s)) fl.
Proof.
  intros Hk Ha Hp Hm Hf; apply kmem_inv_mem; auto; intros q x Hq Hx; apply Hf; intros r -> Hr.
  destruct Hk as (_ & _ & _ & Hok); rewrite Forall_forall in Hok; destruct (Hok q Hq) as [Hqa _].
  by rewrite (in_page_inj q p x Hqa Ha Hx Hr) in Hq.
Qed.

Lemma memset_frame m p v : frame (fun q => q = p) m (memset m p v PGSIZE).
Proof using. intros x Hx; apply memset_out; specialize (Hx p eq_refl); unfold in_page in Hx; unfold PGSIZE; lia. Qed.

(** [kalloc] followed later by a zeroing of the page. *)
Lemma boot_kalloc p fl c s :
  kmem_inv kend s (p :: fl) -> O_kmem ∉ held c ->
  exists s', kalloc c s = Ret p c s' /\ kmem_inv kend s' fl /\ page_ok kend p /\ (p =? 0) = false /\ (p ∉ fl) /\
    frame (fun q => q = p) (pm_mem s) (pm_mem s').
Proof.
  intros Hk Hc; destruct (kalloc_spec kend kend_pos p fl c s Hk Hc) as (s' & Hrun & Hk' & Hp & Hn & Hout).
  exists s'; split_and!; auto; [pose proof (page_pos kend kend_pos p Hp); lia|].
  intros x Hx; apply Hout; by apply Hx.
Qed.

Lemma boot_zero p fl s :
  kmem_inv kend s fl -> page_ok kend p -> p ∉ fl ->
  kmem_inv kend (with_mem (fun m => memset m p 0 PGSIZE) s) fl /\
  (forall x, in_page p x -> pm_mem (with_mem (fun m => memset m p 0 PGSIZE) s) x = 0).
Proof.
  intros Hk [Ha _] Hn; split; [apply kmem_write with p; auto using memset_frame; apply memset_ok, Hk|].
  intros x Hx; unfold in_page in Hx; apply memset_in; unfold PGSIZE; lia.
Qed.

Lemma memset_zero m p x : m x = 0 -> memset m p 0 PGSIZE x = 0.
Proof using.
  intros Hx; destruct (decide (in_page p x)) as [Hi|Hi]; unfold in_page in Hi; unfold PGSIZE.
  - apply memset_in; lia.
  - by rewrite memset_out by lia.
Qed.

Lemma frame_one (P : Z -> Prop) p m m' : P p -> frame (fun q => q = p) m m' -> frame P m m'.
Proof using. intros Hp; apply frame_mono; by intros q ->. Qed.

(** ** The disk *)

(** The registers of a virtio disk that offers a queue. *)
Definition virtio_present (R : Z -> Z) : Prop :=
  R VIRTIO_MMIO_MAGIC_VALUE = 0x74726976 /\ R VIRTIO_MMIO_VERSION = 2 /\ R VIRTIO_MMIO_DEVICE_ID = 2 /\
  R VIRTIO_MMIO_VENDOR_ID = 0x554d4551 /\ has (R VIRTIO_MMIO_STATUS) VIRTIO_CONFIG_S_FEATURES_OK = true /\
  R VIRTIO_MMIO_QUEUE_READY = 0 /\ NUM <= R VIRTIO_MMIO_QUEUE_NUM_MAX.

Lemma boot_virtio R d a u fl c s :
  virtio_present R -> kmem_inv kend s (d :: a :: u :: fl) -> O_kmem ∉ held c ->
  exists r s', virtio_disk_init R c s = Ret (r, (d, a, u)) c s' /\ kmem_inv kend s' fl /\
    (VIRTIO_MMIO_STATUS, Z.lor (R VIRTIO_MMIO_STATUS) VIRTIO_CONFIG_S_DRIVER_OK) ∈ r /\
    frame (fun p => p ∈ [d; a; u]) (pm_mem s) (pm_mem s') /\
    (forall p x, p ∈ [d; a; u] -> in_page p x -> pm_mem s' x = 0).
Proof.
  intros (R1 & R2 & R3 & R4 & R5 & R6 & R7) Hk Hc.
  pose proof Hk as (_ & _ & Hn & Hok); rewrite !NoDup_cons, !elem_of_cons in Hn.
  destruct (boot_kalloc d _ c s Hk Hc) as (s1 & K1 & I1 & P1 & Z1 & N1 & F1).
  destruct (boot_kalloc a _ c s1 I1 Hc) as (s2 & K2 & I2 & P2 & Z2 & N2 & F2).
  destruct (boot_kalloc u _ c s2 I2 Hc) as (s3 & K3 & I3 & P3 & Z3 & N3 & F3).
  unfold virtio_disk_init; rewrite R1, R2, R3, R4, R6; cbn [Z.eqb Pos.eqb negb orb].
  unfold has in R5; rewrite R5; cbn [negb truth Z.eqb].
  replace (R VIRTIO_MMIO_QUEUE_NUM_MAX =? 0) with false by (unfold NUM in R7; lia).
  replace (R VIRTIO_MMIO_QUEUE_NUM_MAX <? NUM) with false by lia.
  unfold kbind at 1; rewrite K1; unfold kbind at 1; rewrite K2; unfold kbind at 1; rewrite K3, Z1, Z2, Z3; cbn [orb].
  eexists _, _; split; [reflexivity|]; rewrite !not_elem_of_cons in N1; rewrite !not_elem_of_cons in N2.
  destruct (boot_zero d fl s3) as [I4 E4]; [done|done|tauto|].
  destruct (boot_zero a fl _ I4) as [I5 E5]; [done|tauto|].
  destruct (boot_zero u fl _ I5) as [I6 E6]; [done|tauto|].
  split_and!; [exact I6|do 14 right; left| |].
  - assert (d ∈ [d; a; u] /\ a ∈ [d; a; u] /\ u ∈ [d; a; u]) as (D1 & D2 & D3)
      by (split_and!; [left|right; left|do 2 right; left]).
    eapply frame_trans; [eapply frame_one, F1; done|].
    eapply frame_trans; [eapply frame_one, F2; done|]; eapply frame_trans; [eapply frame_one, F3; done|].
    cbn [pm_mem with_mem]; do 2 (eapply frame_trans; [|eapply frame_one, memset_frame; done]).
    eapply frame_one, memset_frame; done.
  - intros p x; rewrite !elem_of_cons, elem_of_nil; intros [->|[->|[->|[]]]] Hx; cbn [pm_mem with_mem] in *.
    + by apply memset_zero, memset_zero, E4.
    + by apply memset_zero, E5.
    + by apply E6.
Qed.
(** ** The first address space *)

Definition utables : list (nat * Z) := [(2%nat, 0); (1%nat, 255); (0%nat, 131071); (1%nat, 0); (0%nat, 0)].

#[export] Instance utables_keys : Keys utables.
Proof using.
  split; [left|]; intros i; unfold utables; rewrite !elem_of_cons, elem_of_nil.
  intros [[=]|[[=]|[[= ->]|[[=]|[[= ->]|[]]]]]]; [right; left|do 3 right; left]; done.
Qed.

Definition RWXU : Z := Z.lor (Z.lor (Z.lor PTE_W PTE_R) PTE_X) PTE_U.

Lemma RW_range : 0 <= RW < 2 ^ 10.
Proof using. split; [discriminate|reflexivity]. Qed.
Lemma RX_range : 0 <= RX < 2 ^ 10.
Proof using. split; [discriminate|reflexivity]. Qed.
Lemma RWXU_range : 0 <= RWXU < 2 ^ 10.
Proof using. split; [discriminate|reflexivity]. Qed.

(** The program at 0, the trap frame and the trampoline at the top. *)
Definition umap (trampoline tf p : Z) (v : Z) : Z :=
  if decide (v = 0) then mkpte p RWXU
  else if decide (v = TRAPFRAME / 4096) then mkpte tf RW
  else if decide (v = TRAMPOLINE / 4096) then mkpte trampoline RX
  else 0.

Section space.
Variables trampoline tf : Z.
Hypothesis Htramp : trampoline mod 4096 = 0 /\ 0 <= trampoline < PHYSTOP.
Hypothesis Htf : page_ok kend tf.
#[local] Set Default Proof Using "kend_pos Htramp Htf".

Lemma page_div p : p mod 4096 = 0 -> p = 4096 * (p / 4096).
Proof using. intros H; pose proof (Z.div_mod p 4096); lia. Qed.

Lemma mem_page_range p : p mod 4096 = 0 -> 0 <= p < PHYSTOP -> 0 <= p / 4096 /\ p / 4096 + 1 <= 2 ^ 44.
Proof using.
  intros Ha Hr; assert (HP : PHYSTOP < 2 ^ 56) by done; split; [apply Z.div_pos; lia|].
  assert (p / 4096 < 2 ^ 44) by (apply Z.div_lt_upper_bound; lia); lia.
Qed.

(** What proc_pagetable does to memory. *)
Lemma space_new r fl c s :
  kmem_inv kend s (r :: fl) -> O_kmem ∉ held c -> (5 <= length (r :: fl))%nat ->
  exists s1 s2 s3 tb fl', uvmcreate c s = Ret r c s1 /\ (r =? 0) = false /\
    mappages r TRAMPOLINE PGSIZE trampoline RX c s1 = Ret 0 c s2 /\
    mappages r TRAPFRAME PGSIZE tf RW c s2 = Ret 0 c s3 /\
    built kend utables r s (r :: fl) s3 tb fl' []
      (mapped (TRAPFRAME / 4096) (tf / 4096) 1 RW (mapped (TRAMPOLINE / 4096) (trampoline / 4096) 1 RX (fun _ => 0))).
Proof.
  intros Hk Hc Hlen; destruct (built_new kend kend_pos utables r fl c s Hk Hc) as (s1 & Hka & B0).
  pose proof Hk as (_ & _ & Hn & [Hr _]%Forall_cons); pose proof (page_pos kend kend_pos r Hr).
  destruct Htramp as [Hta Htr]; destruct (mem_page_range trampoline Hta Htr).
  destruct Htf as [Hfa Hfr]; destruct (mem_page_range tf Hfa ltac:(lia)).
  assert (Hkey : forall i, 131071 <= i < 131072 -> (0%nat, i) ∈ utables)
    by (intros i Hi; replace i with 131071 by lia; do 2 right; left).
  destruct (mappages_region kend kend_pos utables 131071 131072 (TRAMPOLINE / 4096) (trampoline / 4096) 1 r s (r :: fl)
    _ _ _ _ _ RX c B0 Hn Hc Hlen RX_range Hkey) as (s2 & tb2 & fl2 & R2 & _ & B2); [done| |].
  { change (TRAMPOLINE / 4096) with 67108863; lia. }
  destruct (mappages_region kend kend_pos utables 131071 131072 (TRAPFRAME / 4096) (tf / 4096) 1 r s (r :: fl)
    _ _ _ _ _ RW c B2 Hn Hc Hlen RW_range Hkey) as (s3 & tb3 & fl3 & R3 & _ & B3).
  { intros x Hx; unfold mapped; change (TRAPFRAME / 4096) with 67108862 in Hx; change (TRAMPOLINE / 4096) with 67108863.
    by rewrite decide_False by lia. }
  { change (TRAPFRAME / 4096) with 67108862; lia. }
  rewrite <- (page_div trampoline Hta) in R2; rewrite <- (page_div tf Hfa) in R3.
  change (4096 * (TRAMPOLINE / 4096)) with TRAMPOLINE in R2; change (4096 * (TRAPFRAME / 4096)) with TRAPFRAME in R3.
  change (4096 * 1) with PGSIZE in R2, R3.
  eexists _, s2, s3, tb3, fl3; split_and!; [|lia|exact R2|exact R3|exact B3].
  unfold uvmcreate, kbind; rewrite Hka; replace (r =? 0) with false by lia; done.
Qed.

Lemma umap_eq p v :
  p mod 4096 = 0 ->
  mapped 0 (p / 4096) 1 RWXU
    (mapped (TRAPFRAME / 4096) (tf / 4096) 1 RW (mapped (TRAMPOLINE / 4096) (trampoline / 4096) 1 RX (fun _ => 0))) v
  = umap trampoline tf p v.
Proof.
  intros Hp; destruct Htramp as [Hta _], Htf as [Hfa _]; unfold mapped, umap.
  change (TRAPFRAME / 4096) with 67108862; change (TRAMPOLINE / 4096) with 67108863.
  pose proof (page_div p Hp); pose proof (page_div tf Hfa); pose proof (page_div trampoline Hta).
  repeat case_decide; lia || (f_equal; lia).
Qed.

Lemma initcode_bytes : Forall is_byte initcode.
Proof using. apply Forall_forall; intros x Hx; unfold is_byte; revert x Hx; apply Forall_forall; repeat constructor; lia. Qed.

(** The program in a zeroed page that [mappages] left alone. *)
Lemma first_page_bytes p s2 s3 tb fl ps r i :
  vm_own kend s2 r tb fl ps -> p ∈ ps -> frame (fun q => q ∈ fl \/ is_table tb q) (pm_mem s2) (pm_mem s3) ->
  (forall x, in_page p x -> pm_mem s2 x = 0) -> p mod 4096 = 0 -> 0 <= i < 4096 ->
  store_bytes (pm_mem s3) p initcode (p + i) = default 0 (initcode !! Z.to_nat i).
Proof using.
  intros ((Hk & Hi & _) & Hn & Hps) Hp Hf Hz Ha Hr; destruct (decide (i < 52)).
  { rewrite store_bytes_in by (change (Z.of_nat (length initcode)) with 52; lia); by replace (p + i - p) with i by lia. }
  rewrite store_bytes_out by (change (Z.of_nat (length initcode)) with 52; lia).
  rewrite (lookup_ge_None_2 initcode) by (change (length initcode) with 52%nat; lia); cbn.
  rewrite Hf; [apply Hz; unfold in_page; lia|].
  intros q Hq Hx; rewrite Forall_forall in Hps; destruct (Hps p Hp) as [_ Hpt].
  assert (Hqa : q mod 4096 = 0).
  { destruct Hq as [Hq|[k Hq]]; [|by destruct (pt_page _ _ _ _ Hi _ _ Hq)].
    destruct Hk as (_ & _ & _ & Hok); rewrite Forall_forall in Hok; by destruct (Hok q Hq). }
  assert (q = p) as -> by (apply (in_page_inj q p (p + i)); auto; unfold in_page; lia).
  destruct Hq as [Hq|]; [|done]; apply NoDup_app in Hn as (_ & Hn & _); by apply (Hn p).
Qed.

(** uvmfirst maps a page that holds the program. *)
Lemma space_first r s0 fl0 s tb fl c :
  built kend utables r s0 fl0 s tb fl []
    (mapped (TRAPFRAME / 4096) (tf / 4096) 1 RW (mapped (TRAMPOLINE / 4096) (trampoline / 4096) 1 RX (fun _ => 0))) ->
  NoDup fl0 -> O_kmem ∉ held c -> (6 <= length fl0)%nat ->
  exists p s' tb' fl', uvmfirst r initcode c s = Ret tt c s' /\
    built kend utables r s0 fl0 s' tb' fl' [p] (umap trampoline tf p) /\
    (forall i, 0 <= i < 4096 -> pm_mem s' (p + i) = default 0 (initcode !! Z.to_nat i)).
Proof.
  intros B Hn Hc Hlen; pose proof (built_full kend utables _ _ _ _ _ _ _ _ B Hn) as Hfull; cbn in Hfull.
  destruct fl as [|p fl]; [cbn in Hfull; lia|].
  destruct (step_kalloc kend kend_pos r s tb fl [] p c (bt_own B) Hc) as (s1 & Hka & Hp0 & Hst & _).
  pose proof (built_same _ _ _ _ _ _ _ _ _ _ _ _ _ B Hst) as B1.
  assert (Hp : page_ok kend p) by (pose proof (bt_own B1) as (_ & _ & [[? _] _]%Forall_cons); done).
  destruct Hp as [Hpa Hpr]; destruct (mem_page_range p Hpa ltac:(lia)) as [Hq1 Hq2].
  pose proof (built_same _ _ _ _ _ _ _ _ _ _ _ _ _ B1
    (step_zero kend kend_pos r s1 tb fl [p] p (bt_own B1) ltac:(left))) as B2.
  set (s2 := with_mem (fun m => memset m p 0 PGSIZE) s1) in *.
  assert (Hkey : forall i, 0 <= i < 1 -> (0%nat, i) ∈ utables)
    by (intros i Hi; replace i with 0 by lia; do 4 right; left).
  destruct (mappages_region kend kend_pos utables 0 1 0 (p / 4096) 1 r s0 fl0 s2 tb fl [p] _ RWXU c B2 Hn Hc Hlen RWXU_range Hkey)
    as (s3 & tb3 & fl3 & R3 & F3 & B3).
  { intros x Hx; unfold mapped; change (TRAPFRAME / 4096) with 67108862; change (TRAMPOLINE / 4096) with 67108863.
    by rewrite !decide_False by lia. }
  { lia. }
  rewrite <- (page_div p Hpa) in R3; change (4096 * 0) with 0 in R3; change (4096 * 1) with PGSIZE in R3.
  assert (Hfr : frame (fun q => q = p) (pm_mem s3) (store_bytes (pm_mem s3) p initcode)).
  { intros x Hx; apply store_bytes_out; specialize (Hx p eq_refl); unfold in_page in Hx.
    change (Z.of_nat (length initcode)) with 52; lia. }
  assert (Hmo : mem_ok (store_bytes (pm_mem s3) p initcode)).
  { apply store_bytes_ok; [|apply initcode_bytes]; pose proof (bt_own B3) as (((? & _) & _) & _); done. }
  pose proof (built_same _ _ _ _ _ _ _ _ _ _ _ _ _ B3
    (step_write kend kend_pos r s3 tb3 fl3 [p] p _ (bt_own B3) ltac:(left) Hmo Hfr)) as B4.
  eexists p, _, tb3, fl3; split_and!.
  - unfold uvmfirst; change (PGSIZE <=? Z.of_nat (length initcode)) with false; cbn iota; unfold kbind; rewrite Hka.
    unfold zero_page, kmod at 1; fold s2 RWXU; rewrite R3; reflexivity.
  - eapply built_ext; [|exact B4]; intros v; by apply umap_eq.
  - intros i Hi; apply (first_page_bytes p s2 s3 tb fl [p] r); auto; [apply (bt_own B2)|left|].
    intros x Hx; unfold in_page in Hx; apply memset_in; unfold PGSIZE; lia.
Qed.
End space.
End boot.

Lemma pages_rev_NoDup n p : NoDup (pages_rev n p).
Proof.
  revert p; induction n as [|n IH]; intros p; cbn [pages_rev]; [constructor|].
  apply NoDup_app; split_and!; [apply IH| |apply NoDup_singleton].
  intros x (i & Hi & ->)%elem_of_pages_rev Hx; apply list_elem_of_singleton in Hx; lia.
Qed.

(** One call that computes, and one that a hypothesis describes. *)
Ltac run := erewrite kbind_run; [|reflexivity]; cbv beta iota.
Ltac run_to s := erewrite (kbind_run _ _ _ _ _ _ s); [|reflexivity]; cbv beta iota.
Ltac run_by H := erewrite kbind_run; [|apply zoom_run; exact H]; cbv beta iota.

Section init.
Variables kend trampoline forkret_pc : Z.
Hypothesis kend_pos : 0 < kend.
Hypothesis Htramp : trampoline mod 4096 = 0 /\ 0 <= trampoline < PHYSTOP.

Definition K (ps : list proc) (np : Z) (ip : option nat) (tk : Z) (ko : list Z) (ft : list file) (pp : Z -> pipe)
    (b : superblock) (it : list inode) (l : logst) (m : pmem) : kst :=
  Kst ps np ip tk ko (FileSt ft pp (FsSt b it l m)).

(** The first process when [allocproc] returns it. *)
Definition new_proc (q : proc) (np tf r : Z) : proc :=
  set_context (forkret_pc, u64 (p_kstack q + PGSIZE))
    (set_pagetable r (set_trapframe tf (set_state USED (set_pid np q)))).

Section run.
Variables (rest : list proc) (ip : option nat) (tk : Z) (ko : list Z) (ft : list file) (pp : Z -> pipe).
Variables (b : superblock) (l : logst) (w : list kobj).
#[local] Abbreviation C := (Ctx [O_proc 0] w).
#[local] Abbreviation St q np it m := (K (q :: rest) np ip tk ko ft pp b it l m).

Lemma find_unused_first n q np it m :
  p_state q = UNUSED -> find_unused (S n) 0 (Ctx [] w) (St q np it m) = Ret (Some 0%nat) C (St q np it m).
Proof using.
  intros Hq; cbn [find_unused]; do 2 run; change (get_proc 0 (St q np it m)) with q.
  by rewrite decide_True.
Qed.

Lemma proc_pagetable_first q np it m1 m2 m3 m4 r :
  uvmcreate C m1 = Ret r C m2 -> (r =? 0) = false ->
  mappages r TRAMPOLINE PGSIZE trampoline RX C m2 = Ret 0 C m3 ->
  mappages r TRAPFRAME PGSIZE (p_trapframe q) RW C m3 = Ret 0 C m4 ->
  proc_pagetable kend trampoline 0 C (St q np it m1) = Ret r C (St q np it m4).
Proof using.
  intros H2 Hr H3 H4; unfold proc_pagetable; run_by H2; rewrite Hr; run_by H3; cbn [Z.ltb Z.compare].
  run; run_by H4; reflexivity.
Qed.

Lemma allocproc_first q np it m tf r fl :
  p_state q = UNUSED -> kmem_inv kend m (tf :: r :: fl) -> (5 <= length (r :: fl))%nat ->
  exists m' m1 tb fl', 
    allocproc kend trampoline forkret_pc (Ctx [] w) (St q np it m) =
    Ret (Some 0%nat) C (St (new_proc q np tf r) (i32 (np + 1)) it m') /\
    page_ok kend tf /\ kmem_inv kend m1 (r :: fl) /\ frame (fun p => p = tf) (pm_mem m) (pm_mem m1) /\
    built kend utables r m1 (r :: fl) m' tb fl' []
      (mapped (TRAPFRAME / 4096) (tf / 4096) 1 RW (mapped (TRAMPOLINE / 4096) (trampoline / 4096) 1 RX (fun _ => 0))).
Proof using kend_pos Htramp.
  intros Hq Hk Hlen.
  assert (Hc : O_kmem ∉ held C) by (cbn; set_solver).
  destruct (boot_kalloc kend kend_pos tf (r :: fl) C m Hk Hc) as (m1 & Ka & I1 & P1 & Z1 & N1 & F1).
  destruct (space_new kend kend_pos trampoline tf Htramp P1 r fl C m1 I1 Hc Hlen)
    as (m2 & m3 & m4 & tb & fl' & R2 & Zr & R3 & R4 & B).
  exists m4, m1, tb, fl'; split_and!; auto.
  set (q1 := set_state USED (set_pid np q)); set (q2 := set_trapframe tf q1).
  unfold allocproc; change (Z.to_nat NPROC) with 64%nat; rewrite (kbind_run _ _ _ _ _ _ _ (find_unused_first 63 q np it m Hq)).
  run_to (St q (i32 (np + 1)) it m); run_to (St (set_pid np q) (i32 (np + 1)) it m); run_to (St q1 (i32 (np + 1)) it m).
  run_by Ka; run_to (St q2 (i32 (np + 1)) it m1); rewrite Z1.
  rewrite (kbind_run _ _ _ _ _ _ _ (proc_pagetable_first q2 (i32 (np + 1)) it m1 m2 m3 m4 r R2 Zr R3 R4)).
  run_to (St (set_pagetable r q2) (i32 (np + 1)) it m4); rewrite Zr; by do 2 run.
Qed.

(** The table of inodes once the root directory is in use. *)
Definition root_inode : inode := Inode ROOTDEV ROOTINO 1 initsleeplock 0 0 0 0 0 0 (replicate 13 0).
Definition root_table : list inode := root_inode :: replicate 49 inode0.

Lemma namei_root m :
  namei 0 0 0 [slash] C (FsSt b iinit l m) = Ret (Some 0%nat) C (FsSt b root_table l m).
Proof using. reflexivity. Qed.

(** The two registers userinit sets. *)
Definition first_frame (tf : Z) (m : pmem) : pmem :=
  with_mem (fun m => store64 m (tf + TF_SP) PGSIZE) (with_mem (fun m => store64 m (tf + TF_EPC) 0) m).

Lemma first_frame_ok tf m fl :
  kmem_inv kend m fl -> page_ok kend tf -> tf ∉ fl ->
  kmem_inv kend (first_frame tf m) fl /\ frame (fun q => q = tf) (pm_mem m) (pm_mem (first_frame tf m)) /\
  load64 (pm_mem (first_frame tf m)) (tf + TF_EPC) = 0 /\ load64 (pm_mem (first_frame tf m)) (tf + TF_SP) = PGSIZE.
Proof using kend_pos.
  intros Hk [Ha _] Hn; unfold first_frame, TF_SP, TF_EPC.
  assert (Hs : forall m o v, 0 <= o <= 4088 -> frame (fun q => q = tf) m (store64 m (tf + o) v)).
  { intros m0 o v Ho x Hx; apply store64_out; specialize (Hx tf eq_refl); unfold in_page in Hx; lia. }
  split_and!.
  - apply (kmem_write kend kend_pos tf); auto with cmem; [|apply store64_ok, store64_ok, Hk|apply Hs; lia].
    apply (kmem_write kend kend_pos tf); auto with cmem; [apply store64_ok, Hk|apply Hs; lia].
  - eapply frame_trans; apply Hs; lia.
  - cbn [pm_mem with_mem]; rewrite load64_store64_disj by lia; by apply load64_store64_same.
  - by apply load64_store64_same.
Qed.

Definition init_proc (q : proc) (np tf r : Z) : proc :=
  set_state RUNNABLE (set_cwd (Some 0%nat) (set_name (name_copy (p_name q) initcode_name) (set_sz PGSIZE (new_proc q np tf r)))).

(** init's address space after userinit: tables [ts], the page [p] of its
    program, the trap frame [tf]. *)
Record first_space (m : pmem) (tf r p : Z) (tb : tables) (fl ts : list Z) : Prop := FirstSpace {
  fs_kmem : kmem_inv kend m fl;
  fs_table : pt_inv kend (pm_mem m) r tb;
  fs_map : forall v, leaf (pm_mem m) tb v = umap trampoline tf p v;
  fs_tables : forall q, is_table tb q <-> q ∈ ts;
  fs_pages : page_ok kend tf /\ page_ok kend p /\ ~ is_table tb tf /\ p <> tf;
  fs_code : forall i, 0 <= i < 4096 -> pm_mem m (p + i) = default 0 (initcode !! Z.to_nat i);
  fs_regs : load64 (pm_mem m) (tf + TF_EPC) = 0 /\ load64 (pm_mem m) (tf + TF_SP) = PGSIZE
}.

Lemma userinit_calls q np m tf r m2 m3 :
  allocproc kend trampoline forkret_pc (Ctx [] w) (St q np iinit m) =
    Ret (Some 0%nat) C (St (new_proc q np tf r) (i32 (np + 1)) iinit m2) ->
  uvmfirst r initcode C m2 = Ret tt C m3 ->
  userinit kend trampoline forkret_pc (Ctx [] w) (St q np iinit m) =
    Ret tt (Ctx [] w) (K (init_proc q np tf r :: rest) (i32 (np + 1)) (Some 0%nat) tk ko ft pp b root_table l (first_frame tf m3)).
Proof using.
  intros Ra Ru; unfold userinit; rewrite (kbind_run _ _ _ _ _ _ _ Ra).
  set (q1 := new_proc q np tf r); set (q2 := set_sz PGSIZE q1); set (q3 := set_name (name_copy (p_name q) initcode_name) q2).
  run_to (K (q1 :: rest) (i32 (np + 1)) (Some 0%nat) tk ko ft pp b iinit l m2); run; run_by Ru.
  run_to (K (q2 :: rest) (i32 (np + 1)) (Some 0%nat) tk ko ft pp b iinit l m3); do 2 run.
  run_to (K (q3 :: rest) (i32 (np + 1)) (Some 0%nat) tk ko ft pp b iinit l (first_frame tf m3)).
  run_by (namei_root (first_frame tf m3)); do 2 run; reflexivity.
Qed.

Lemma userinit_first q np m tf r fl :
  p_state q = UNUSED -> kmem_inv kend m (tf :: r :: fl) -> (6 <= length (r :: fl))%nat ->
  exists m' p tb fl' ts, 
    userinit kend trampoline forkret_pc (Ctx [] w) (St q np iinit m) =
    Ret tt (Ctx [] w) (K (init_proc q np tf r :: rest) (i32 (np + 1)) (Some 0%nat) tk ko ft pp b root_table l m') /\
    first_space m' tf r p tb fl' ts /\ tf :: r :: fl ≡ₚ tf :: ts ++ p :: fl' /\
    frame (fun p => p ∈ tf :: r :: fl) (pm_mem m) (pm_mem m').
Proof using kend_pos Htramp.
  intros Hq Hk Hlen; assert (Hc : O_kmem ∉ held C) by (cbn; set_solver).
  pose proof Hk as (_ & _ & [Htf Hn]%NoDup_cons & _).
  destruct (allocproc_first q np iinit m tf r fl Hq Hk ltac:(lia)) as (m2 & m1 & tb2 & fl2 & Ra & P1 & I1 & F1 & B2).
  destruct (space_first kend kend_pos trampoline tf Htramp P1 r m1 (r :: fl) m2 tb2 fl2 C B2 Hn Hc Hlen)
    as (p & m3 & tb & fl' & Ru & B3 & Hcode).
  destruct (bt_pages B3) as (ts & Hfl & Ht); pose proof (bt_own B3) as ((I3 & Hi & _) & _).
  assert (Hin : forall x, x ∈ ts \/ x = p \/ x ∈ fl' -> x <> tf).
  { intros x Hx ->; apply Htf; rewrite Hfl, !elem_of_app, list_elem_of_singleton; tauto. }
  destruct (first_frame_ok tf m3 fl' I3 P1) as (I4 & F4 & E1 & E2); [intros Hx; by apply (Hin tf); auto|].
  assert (HP : forall x, x = tf -> x mod 4096 = 0 /\ ~ is_table tb x).
  { intros x ->; split; [apply P1|]; rewrite Ht; intros Hx; by apply (Hin tf); auto. }
  exists (first_frame tf m3), p, tb, fl', ts; split_and!.
  - by apply userinit_calls with m2.
  - split; auto.
    + by eapply pt_inv_frame.
    + intros v; rewrite <- (bt_leaf B3); by eapply leaf_frame.
    + pose proof (bt_own B3) as (_ & _ & [[Hp _] _]%Forall_cons); split_and!; [done|done|by apply HP|by apply Hin; auto].
    + intros i Hx; rewrite <- Hcode by done; apply F4; intros x -> Hx'.
      apply (Hin p); [auto|]; apply (in_page_inj p tf (p + i)); [|apply P1|unfold in_page; lia|done].
      pose proof (bt_own B3) as (_ & _ & [[[? _] _] _]%Forall_cons); done.
  - by rewrite Hfl.
  - assert (Hh : tf ∈ tf :: r :: fl) by left.
    eapply frame_trans; [eapply frame_one, F1; exact Hh|].
    eapply frame_trans; [eapply frame_mono, (bt_frame B3); intros x Hx; by right|].
    eapply frame_one, F4; exact Hh.
Qed.
End run.

(** ** The calls of main *)

(** All the pages there are. *)
Definition all_pages : list Z := pages_rev (page_count kend) (first_page kend).

Lemma all_pages_NoDup : NoDup all_pages.
Proof using. apply pages_rev_NoDup. Qed.

Section main.
Variables (etext kernelvec : Z) (R : Z -> Z).
Hypothesis Hetext : etext mod 4096 = 0 /\ KERNBASE < etext < PHYSTOP.
Hypothesis Hdisk : virtio_present R.
(** 166 pages for the kernel's page table and stacks, 3 for the rings of the
    disk, 7 for the first process. *)
Hypothesis Hroom : (176 <= page_count kend)%nat.

(** What the loader leaves that the code does not set. *)
Variables (mt : msgtable) (con0 : cons_t) (ua : uartst) (vb : list vbuf) (tk : Z) (pp : Z -> pipe).
Variables (b : superblock) (lg : log) (bc0 : bcache).

#[local] Abbreviation c0 := (Ctx [] []).

(** The kernel with what main sets. *)
Definition B (h : hart) (kp st lk : Z) (rg : list (Z * Z)) (rings : Z * Z * Z) (u : uartst) (d : disk_t) (k : kst) : bootst :=
  BootSt h (Shared kp st lk rg rings (MsgSt mt k) con0 u (VSt d vb)).

Lemma boot_mem {A} (f : M pmem A) c a c' h kp st lk rg rings u d ps np ip ko ft it l m m' :
  f c m = Ret a c' m' ->
  zoom kern_of (zoom kmem_of f) c (B h kp st lk rg rings u d (K ps np ip tk ko ft pp b it l m)) =
  Ret a c' (B h kp st lk rg rings u d (K ps np ip tk ko ft pp b it l m')).
Proof using. intros H; erewrite zoom_run; [|apply zoom_run; exact H]; reflexivity. Qed.

Definition banner : list Z := newline ++ str "xv6 kernel is booting" ++ newline ++ newline.

Lemma kend_below : kend < PHYSTOP.
Proof using Hroom kend_pos.
  unfold page_count in Hroom; pose proof (Z.div_mod (kend + 4095) 4096 ltac:(lia)).
  pose proof (Z.mod_pos_bound (kend + 4095) 4096 ltac:(lia)); unfold first_page in *.
  destruct (decide (kend < PHYSTOP)); [done|].
  assert ((PHYSTOP - (kend + 4095) / 4096 * 4096) / 4096 <= 0) by (apply Z.div_le_upper_bound; lia); lia.
Qed.

Lemma boot_first_part h kp rings d ip ko ft it m :
  kmem_inv kend m [] ->
  exists root m1 m2 tb stacks fl,
    run_calls (take 8 (main_first kend etext trampoline forkret_pc kernelvec R)) c0
      (B h kp 0 0 [] rings ua d (K (replicate 64 proc0) 1 ip tk ko ft pp b it (LogSt lg bc0) m)) =
    Ret tt c0 (B (w_satp (MAKE_SATP root) h) root 0 1 [] rings (uartinit ua) d
      (K (replicate 64 proc0) 1 ip tk (ko ++ banner) ft pp b it (LogSt lg bc0) m2)) /\
    length stacks = 64%nat /\
    built kend ktables root m1 all_pages m2 tb fl (reverse stacks) (kmap etext trampoline stacks).
Proof using kend_pos Htramp Hetext Hroom.
  intros Hk; assert (Hc : O_kmem ∉ held c0) by (intros Hx; inversion Hx).
  destruct (kinit_run kend kend_pos c0 m Hk kend_below Hc) as (m1 & R1 & I1); fold all_pages in I1.
  assert (Hl : (176 <= length all_pages)%nat) by (unfold all_pages; by rewrite length_pages_rev).
  destruct all_pages as [|root fl0] eqn:Ep; [cbn in Hl; lia|].
  destruct (kvmmake_kpt kend kend_pos etext trampoline Hetext Htramp root fl0 c0 m1 I1 Hc)
    as (m2 & tb & fl & stacks & R2 & Hs & Hb); [cbn in Hl; lia|].
  exists root, m1, m2, tb, stacks, fl; split_and!; [|done|exact Hb].
  set (k := fun ko m => K (replicate 64 proc0) 1 ip tk ko ft pp b it (LogSt lg bc0) m).
  unfold main_first; cbn [take run_calls].
  run_to (B h kp 0 0 [] rings (uartinit ua) d (k ko m)).
  run_to (B h kp 0 1 [] rings (uartinit ua) d (k ko m)).
  run_to (B h kp 0 1 [] rings (uartinit ua) d (k (ko ++ newline) m)).
  run_to (B h kp 0 1 [] rings (uartinit ua) d (k ((ko ++ newline) ++ str "xv6 kernel is booting" ++ newline) m)).
  run_to (B h kp 0 1 [] rings (uartinit ua) d (k (((ko ++ newline) ++ str "xv6 kernel is booting" ++ newline) ++ newline) m)).
  replace (((ko ++ newline) ++ str "xv6 kernel is booting" ++ newline) ++ newline) with (ko ++ banner)
    by (unfold banner; by rewrite <- !app_assoc).
  erewrite kbind_run; [|unfold boot_kinit; run; by apply boot_mem, R1].
  unfold kvminit at 1; erewrite kbind_run; [|erewrite kbind_run; [|by apply boot_mem, R2]; reflexivity].
  run; reflexivity.
Qed.

(** Process [i] after procinit. *)
Definition idle (i : nat) : proc :=
  Proc UNUSED None 0 0 0 None (KSTACK (Z.of_nat i)) 0 0 0 (0, 0) (replicate 16 None) None (replicate 16 0) 0 (replicate 32 0) 0 0 None.

Lemma procinit_idle : procinit (replicate 64 proc0) = idle 0 :: (idle <$> seq 1 63).
Proof using. vm_compute; reflexivity. Qed.

Lemma boot_procinit_run h kp st lk rg rings u d ps np ip ko ft it l m :
  boot_procinit c0 (B h kp st lk rg rings u d (K ps np ip tk ko ft pp b it l m)) =
  Ret tt c0 (B h kp st lk rg rings u d (K (procinit ps) np ip tk ko ft pp b it l m)).
Proof using. reflexivity. Qed.

Definition plic_global (c : csrs) : csrs := w_plic (PLIC + VIRTIO0_IRQ * 4) 1 (w_plic (PLIC + UART0_IRQ * 4) 1 c).
Definition plic_hart (id : Z) (c : csrs) : csrs :=
  w_plic (PLIC_SPRIORITY id) 0 (w_plic (PLIC_SENABLE id) (Z.lor (Z.shiftl 1 UART0_IRQ) (Z.shiftl 1 VIRTIO0_IRQ)) c).
Definition hart_first (h : hart) : hart := w_sregs (plic_hart 0 (plic_global (w_stvec kernelvec (sregs h)))) h.

Lemma boot_second_calls h root rings d ip ko ft it m m1 m2 rg a q q' rest :
  cpuid h = 0 -> virtio_disk_init R c0 m = Ret (rg, a) c0 m1 ->
  procinit (replicate 64 proc0) = q :: rest ->
  userinit kend trampoline forkret_pc c0 (K (q :: rest) 1 ip tk ko fileinit pp b iinit (LogSt lg (binit (disk bc0))) m1) =
    Ret tt c0 (K (q' :: rest) (i32 (1 + 1)) (Some 0%nat) tk ko fileinit pp b root_table (LogSt lg (binit (disk bc0))) m2) ->
  run_calls (drop 8 (main_first kend etext trampoline forkret_pc kernelvec R)) c0
    (B h root 0 1 [] rings (uartinit ua) d (K (replicate 64 proc0) 1 ip tk ko ft pp b it (LogSt lg bc0) m)) =
  Ret tt c0 (B (hart_first h) root 1 1 rg a (uartinit ua) disk_init
    (K (q' :: rest) 2 (Some 0%nat) tk ko fileinit pp b root_table (LogSt lg (binit (disk bc0))) m2)).
Proof using.
  intros Hid R1 Hp R2.
  unfold main_first; cbn [drop run_calls].
  set (k := fun ps ft it l m => K ps 1 ip tk ko ft pp b it l m).
  erewrite kbind_run; [|apply boot_procinit_run]; rewrite Hp; clear Hp.
  set (ps := q :: rest) in *; clearbody ps.
  set (h1 := w_sregs (w_stvec kernelvec (sregs h)) h); set (h2 := w_sregs (plic_global (sregs h1)) h1).
  run; run_to (B h1 root 0 1 [] rings (uartinit ua) d (k ps ft it (LogSt lg bc0) m)).
  run_to (B h2 root 0 1 [] rings (uartinit ua) d (k ps ft it (LogSt lg bc0) m)).
  erewrite kbind_run; [|unfold boot_plicinithart; run; change (cpuid (my _)) with (cpuid h); rewrite Hid; reflexivity].
  run_to (B (hart_first h) root 0 1 [] rings (uartinit ua) d (k ps ft it (LogSt lg (binit (disk bc0))) m)).
  run_to (B (hart_first h) root 0 1 [] rings (uartinit ua) d (k ps ft iinit (LogSt lg (binit (disk bc0))) m)).
  run_to (B (hart_first h) root 0 1 [] rings (uartinit ua) d (k ps fileinit iinit (LogSt lg (binit (disk bc0))) m)).
  erewrite kbind_run; [|unfold boot_disk; run; erewrite kbind_run; [|apply boot_mem, R1]; reflexivity].
  erewrite kbind_run; [|apply zoom_run; exact R2]; run; reflexivity.
Qed.

Lemma boot_second_part h root rings d ip ko ft it m fl :
  cpuid h = 0 -> kmem_inv kend m fl -> (10 <= length fl)%nat ->
  exists rg dsc avl usd tf r p m' utb ts fl',
    run_calls (drop 8 (main_first kend etext trampoline forkret_pc kernelvec R)) c0
      (B h root 0 1 [] rings (uartinit ua) d (K (replicate 64 proc0) 1 ip tk ko ft pp b it (LogSt lg bc0) m)) =
    Ret tt c0 (B (hart_first h) root 1 1 rg (dsc, avl, usd) (uartinit ua) disk_init
      (K (init_proc (idle 0) 1 tf r :: (idle <$> seq 1 63)) 2 (Some 0%nat) tk ko fileinit pp b root_table
         (LogSt lg (binit (disk bc0))) m')) /\
    first_space m' tf r p utb fl' ts /\ fl ≡ₚ [dsc; avl; usd] ++ tf :: ts ++ p :: fl' /\
    (forall q x, q ∈ [dsc; avl; usd] -> in_page q x -> pm_mem m' x = 0) /\
    frame (fun q => q ∈ fl) (pm_mem m) (pm_mem m').
Proof using kend_pos Htramp Hdisk Hroom.
  intros Hid Hk Hl; assert (Hc : O_kmem ∉ held c0) by (intros Hx; inversion Hx).
  destruct fl as [|dsc [|avl [|usd [|tf [|r fl]]]]]; try (cbn in Hl; lia).
  destruct (boot_virtio kend kend_pos R dsc avl usd (tf :: r :: fl) c0 m Hdisk Hk Hc) as (rg & m1 & R1 & I1 & _ & F1 & Z1).
  destruct (userinit_first (idle <$> seq 1 63) ip tk ko fileinit pp b (LogSt lg (binit (disk bc0))) [] (idle 0) 1 m1 tf r fl eq_refl I1)
    as (m2 & p & utb & fl' & ts & R2 & S2 & E2 & F2); [cbn in *; lia|].
  exists rg, dsc, avl, usd, tf, r, p, m2, utb, ts, fl'; split_and!; [|done|by rewrite E2| |].
  - eapply boot_second_calls; [done|exact R1|apply procinit_idle|exact R2].
  - intros q x Hq Hx; rewrite <- (Z1 q x Hq Hx); apply F2; intros q' Hq' Hx'.
    pose proof Hk as (_ & _ & Hn & Hok); rewrite Forall_forall in Hok.
    change (dsc :: avl :: usd :: tf :: r :: fl) with ([dsc; avl; usd] ++ tf :: r :: fl) in Hn, Hok.
    apply NoDup_app in Hn as (_ & Hn & _); apply (Hn q Hq).
    assert (q = q') as ->; [|done].
    apply (in_page_inj q q' x); auto; apply Hok, elem_of_app; auto.
  - eapply frame_trans; (eapply frame_mono; [|eassumption]); intros q Hq;
      change (q ∈ [dsc; avl; usd] ++ tf :: r :: fl); apply elem_of_app; auto.
Qed.
End main.

(** ** The kernel after main *)

Section booted.
Variables (etext kernelvec : Z) (R : Z -> Z).
Hypothesis Hetext : etext mod 4096 = 0 /\ KERNBASE < etext < PHYSTOP.
Hypothesis Hdisk : virtio_present R.
Hypothesis Hroom : (176 <= page_count kend)%nat.

#[local] Abbreviation kern s := (mkern (s_msg s)).
#[local] Abbreviation memory s := (lget kmem_of (kern s)).
#[local] Abbreviation cache s := (bc (lgs (fss (kfiles (kern s))))).

(** The data segment of the kernel and no free page yet. *)
Record loaded (s : shared) : Prop := Loaded {
  lo_zero : started s = 0 /\ locking s = 0 /\ disk_regs s = [];
  lo_procs : procs (kern s) = replicate 64 proc0 /\ nextpid (kern s) = 1;
  lo_mem : kmem_inv kend (memory s) []
}.

(** Every page is a table of the kernel's page table, a stack, a ring of the
    disk, part of init's address space or free. *)
Record boot_memory (s : shared) (tf r : Z) : Prop := BootMemory {
  bm_pages : exists ktb kts stacks utb ts p fl,
    pt_inv kend (pm_mem (memory s)) (kernel_pagetable s) ktb /\ (forall q, is_table ktb q <-> q ∈ kts) /\
    length stacks = 64%nat /\ (forall v, leaf (pm_mem (memory s)) ktb v = kmap etext trampoline stacks v) /\
    first_space (memory s) tf r p utb fl ts /\
    all_pages ≡ₚ kts ++ stacks ++ [(disk_rings s).1.1; (disk_rings s).1.2; (disk_rings s).2] ++ tf :: ts ++ p :: fl;
  bm_rings : forall q x, q ∈ [(disk_rings s).1.1; (disk_rings s).1.2; (disk_rings s).2] -> in_page q x ->
    pm_mem (memory s) x = 0
}.

(** init is runnable and all other processes are unused, the caches and the
    table of files are empty, the disk driver is in its initial state; the disk
    and the table of message queues are as in [i]: nothing calls msginit. *)
Record booted (i s : shared) : Prop := Booted {
  bo_flags : started s = 1 /\ locking s = 1;
  bo_init : exists tf r, boot_memory s tf r /\
    procs (kern s) = init_proc (idle 0) 1 tf r :: (idle <$> seq 1 63);
  bo_next : nextpid (kern s) = 2 /\ initproc (kern s) = Some 0%nat;
  bo_files : ftab (kfiles (kern s)) = fileinit /\ itable (fss (kfiles (kern s))) = root_table /\ cache s = binit (disk (cache i));
  bo_disk : dk (s_disk s) = disk_init;
  bo_msg : mtab (s_msg s) = mtab (s_msg i)
}.

Lemma run_calls_app l1 l2 c x : run_calls (l1 ++ l2) c x = kbind (run_calls l1) (fun _ => run_calls l2) c x.
Proof using.
  revert c x; induction l1 as [|f l1 IH]; intros c x; [done|]; cbn [app run_calls]; unfold kbind at 1 2 3.
  destruct (f c x) as [[] c' x'| | |]; [|done..]; apply IH.
Qed.

(** The kernel's table and the free list are apart. *)
Lemma built_apart root m0 m1 m2 tb fl stacks m' :
  built kend ktables root m0 all_pages m1 tb fl (reverse stacks) (kmap etext trampoline stacks) -> m2 = m1 ->
  frame (fun q => q ∈ fl) (pm_mem m2) (pm_mem m') ->
  pt_inv kend (pm_mem m') root tb /\ forall v, leaf (pm_mem m') tb v = kmap etext trampoline stacks v.
Proof using.
  intros Hb -> Hf; pose proof (bt_own Hb) as ((Hk & Hi & Ht) & _).
  assert (HP : forall q, q ∈ fl -> q mod 4096 = 0 /\ ~ is_table tb q).
  { intros q Hq; split; [|by intros Hq'; apply (Ht q)].
    destruct Hk as (_ & _ & _ & Hok); rewrite Forall_forall in Hok; by destruct (Hok q Hq). }
  split; [by eapply pt_inv_frame|]; intros v; rewrite <- (bt_leaf Hb); by eapply leaf_frame.
Qed.

Lemma main_boots h s :
  cpuid h = 0 -> loaded s ->
  exists s', run_calls (main_first kend etext trampoline forkret_pc kernelvec R) (Ctx [] []) (BootSt h s) =
      Ret tt (Ctx [] []) (BootSt (hart_first kernelvec (w_satp (MAKE_SATP (kernel_pagetable s')) h)) s') /\
    booted s s' /\ kout (kern s') = kout (kern s) ++ banner.
Proof using kend_pos Htramp Hetext Hdisk Hroom.
  intros Hid [Hz Hp Hm].
  destruct s as [kp st lk rg rings [mt [ps np ip tk ko [ft pp [b it [lg bc0] m]]]] con ua [d vb]].
  cbn in Hz, Hp, Hm; destruct Hz as (-> & -> & ->), Hp as [-> ->].
  destruct (boot_first_part etext kernelvec R Hetext Hroom mt con ua vb tk pp b lg bc0 h kp rings d ip ko ft it m Hm)
    as (root & m1 & m2 & tb & stacks & fl & R1 & Hs & Hb).
  assert (Hfl : (10 <= length fl)%nat).
  { pose proof (kpt_exact kend kend_pos etext trampoline Hetext Htramp _ _ _ _ _ _ _ _ Hb all_pages_NoDup) as Hlen.
    unfold all_pages in Hlen; rewrite length_pages_rev, length_reverse, Hs in Hlen; lia. }
  destruct (boot_second_part etext kernelvec R Hdisk Hroom mt con ua vb tk pp b lg bc0 (w_satp (MAKE_SATP root) h) root rings d ip
    (ko ++ banner) ft it m2 fl Hid) as (rg & dsc & avl & usd & tf & r & p & m' & utb & ts & fl' & R2 & S2 & E2 & Z2 & F2);
    [apply (bt_own Hb)|done|].
  destruct (built_apart root m1 m2 m2 tb fl stacks m' Hb eq_refl F2) as [Hi Hleaf].
  destruct (bt_pages Hb) as (kts & Hall & Hkts).
  match type of R2 with _ = Ret _ _ ?x => exists (sh x) end; split_and!.
  - rewrite <- (take_drop 8 (main_first _ _ _ _ _ _)), run_calls_app.
    erewrite kbind_run; [|exact R1]; exact R2.
  - split; cbn; [done| |done|done|done|done].
    exists tf, r; split; [split; cbn; [|done]|done].
    exists tb, kts, stacks, utb, ts, p, fl'; split_and!; auto.
    by rewrite Hall, E2, reverse_Permutation.
  - done.
Qed.

(** ** All harts *)

Variable main_pc : Z.
Variables (s0 : shared) (Hs0 : loaded s0).
#[local] Abbreviation MF := (main_first kend etext trampoline forkret_pc kernelvec R).
#[local] Abbreviation MO := (main_other kernelvec).
#[local] Abbreviation c0 := (Ctx [] []).

(** Only the last call of hart 0 sets [started]. *)
Definition keeps_started {A} (f : M bootst A) : Prop :=
  forall c x a c' x', f c x = Ret a c' x' -> started (sh x') = started (sh x).

Lemma ks_bind {A B} (m : M bootst A) (k : A -> M bootst B) :
  keeps_started m -> (forall a, keeps_started (k a)) -> keeps_started (kbind m k).
Proof using.
  intros Hm Hk c x a c' x' H; unfold kbind in H; destruct (m c x) as [a1 c1 x1| | |] eqn:E; try done.
  by rewrite (Hk _ _ _ _ _ _ H), (Hm _ _ _ _ _ E).
Qed.

Lemma ks_zoom {A X} (l : lens bootst X) (m : M X A) :
  (forall y x, started (sh (lset l y x)) = started (sh x)) -> keeps_started (zoom l m).
Proof using.
  intros Hl c x a c' x' H; unfold zoom in H; destruct (m c (lget l x)); try done.
  injection H as _ _ <-; apply Hl.
Qed.

Lemma ks_same {A} (f : M bootst A) : (forall c x a c' x', f c x = Ret a c' x' -> sh x' = sh x) -> keeps_started f.
Proof using. intros H c x a c' x' E; by rewrite (H _ _ _ _ _ E). Qed.

Lemma ks_kfor n i o : keeps_started (kfor n i (fun i => init_lock (o i))).
Proof using.
  revert i; induction n as [|n IH]; intros i; cbn [kfor]; [by apply ks_same; intros c x a c' x' [= _ _ <-]|].
  apply ks_bind; [by apply ks_same; intros c x a c' x' [= _ _ <-]|auto].
Qed.

Ltac ks :=
  repeat first
    [ apply (ks_kfor _ _ (fun i => O_proc (Z.to_nat i)))
    | apply ks_bind; [|intros ?]
    | apply ks_zoom; done
    | by apply ks_same; intros ? ? ? ? ? [= _ _ <-]
    | by intros ? ? ? ? ? [= _ _ <-]
    | case_match ].

Lemma ks_printf fmt args : keeps_started (boot_printf fmt args).
Proof using. unfold boot_printf; ks. Qed.

Lemma first_keeps : Forall keeps_started (take 18 MF).
Proof using.
  unfold main_first; cbn [take]; repeat apply Forall_cons_2; try apply ks_printf; try apply Forall_nil_2.
  all: unfold boot_console, printfinit, boot_kinit, kvminit, kvminithart, boot_procinit, trapinit,
    boot_trapinithart, boot_plicinit, boot_plicinithart, boot_binit, boot_iinit, boot_fileinit, boot_disk, boot_userinit; ks.
Qed.

Lemma run_keeps l c x c' x' :
  Forall keeps_started l -> run_calls l c x = Ret tt c' x' -> started (sh x') = started (sh x).
Proof using.
  intros Hl; revert c x; induction Hl as [|f l Hf _ IH]; intros c x H; cbn [run_calls] in H; [by injection H as _ <-|].
  unfold kbind in H; destruct (f c x) as [[] c1 x1| | |] eqn:E; try done; by rewrite (IH _ _ H), (Hf _ _ _ _ _ E).
Qed.

(** After [k] calls of hart 0. *)
Definition after (k : nat) (h : hart) (c : kctx) (x : bootst) : Prop :=
  run_calls (take k MF) c0 (BootSt h s0) = Ret tt c x.

Lemma first_keeps_take k : (k <= 18)%nat -> Forall keeps_started (take k MF).
Proof using. intros Hk; replace (take k MF) with (take k (take 18 MF)); [apply Forall_take, first_keeps|by rewrite take_take, Nat.min_l]. Qed.

Lemma after_started k h c x : (k <= 18)%nat -> after k h c x -> started (sh x) = 0.
Proof using Hs0.
  intros Hk H; rewrite (run_keeps _ _ _ _ _ (first_keeps_take k Hk) H); apply (lo_zero _ Hs0).
Qed.

Lemma after_next k h c x f :
  cpuid h = 0 -> MF !! k = Some f -> after k h c x -> exists c' x', f c x = Ret tt c' x' /\ after (S k) h c' x'.
Proof using kend_pos Htramp Hetext Hdisk Hroom Hs0.
  intros Hid Hf Ha; destruct (main_boots h s0 Hid Hs0) as (s' & Hrun & _).
  rewrite <- (take_drop k MF), run_calls_app in Hrun; unfold kbind in Hrun; rewrite Ha in Hrun.
  assert (Ed : drop k MF = f :: drop (S k) MF) by (by apply drop_S).
  assert (Et : take (S k) MF = take k MF ++ [f]) by (by apply take_S_r).
  rewrite Ed in Hrun; cbn [run_calls] in Hrun; unfold kbind in Hrun.
  destruct (f c x) as [[] c' x'| | |] eqn:E; try done; exists c', x'; split; [done|].
  unfold after; rewrite Et, run_calls_app; unfold kbind; rewrite Ha; cbn [run_calls]; unfold kbind.
  by rewrite E.
Qed.

Lemma after_all h c x :
  cpuid h = 0 -> after 19 h c x ->
  c = c0 /\ my x = hart_first kernelvec (w_satp (MAKE_SATP (kernel_pagetable (sh x))) h) /\ booted s0 (sh x).
Proof using kend_pos Htramp Hetext Hdisk Hroom Hs0.
  intros Hid Ha; destruct (main_boots h s0 Hid Hs0) as (s' & Hrun & Hb & _).
  unfold after in Ha; change (take 19 MF) with MF in Ha; rewrite Hrun in Ha; by injection Ha as <- <-.
Qed.

(** ** The harts that wait *)

(** The registers of hart [id] after [j] calls of the second part of main. *)
Definition other_regs (kp id : Z) (j : nat) (r : hart) : hart :=
  let r2 := w_satp (MAKE_SATP kp) r in
  let r3 := w_sregs (w_stvec kernelvec (sregs r2)) r2 in
  match j with
  | 0%nat | 1%nat => r
  | 2%nat => r2
  | 3%nat => r3
  | _ => w_sregs (plic_hart id (sregs r3)) r3
  end.

Lemma hart_message h :
  0 <= h < NCPU -> exists out, Kernel.printf (str "hart %d starting" ++ newline) [VNum h] = Some out.
Proof using.
  intros Hh; assert (Hall : forallb (fun h => match Kernel.printf (str "hart %d starting" ++ newline) [VNum h] with Some _ => true | None => false end)
    (seqZ 0 8) = true) by (vm_compute; reflexivity).
  rewrite forallb_forall in Hall; specialize (Hall h).
  destruct (Kernel.printf _ _); [by eexists|]; discriminate Hall.
  apply list_elem_of_In, elem_of_seqZ; done.
Qed.

(** What is printed does not matter for [booted]. *)
Definition more_output (out : list Z) (s : shared) : shared :=
  Shared (kernel_pagetable s) (started s) (locking s) (disk_regs s) (disk_rings s)
    (MsgSt (mtab (s_msg s)) (Kst (procs (kern s)) (nextpid (kern s)) (initproc (kern s)) (ticks (kern s))
       (kout (kern s) ++ out) (kfiles (kern s)))) (s_cons s) (s_uart s) (s_disk s).

Lemma booted_output i out s : booted i s -> booted i (more_output out s).
Proof using.
  intros [H1 (tf & r & [M1 M2] & H2) H3 H4 H5 H6]; split; [done| |done|done|done|done].
  exists tf, r; split; [split; [exact M1|exact M2]|exact H2].
Qed.

Lemma printf_locked fmt args out h s :
  Kernel.printf fmt args = Some out -> locking s = 1 ->
  boot_printf fmt args c0 (BootSt h s) = Ret tt c0 (BootSt h (more_output out s)).
Proof using.
  intros Hp Hl; unfold boot_printf; run; cbn [sh]; rewrite Hl; change (truth 1) with true; cbv iota.
  unfold kprintf; rewrite Hp; destruct s as [kp st lk rg rings [mt k] con u dv]; reflexivity.
Qed.

Lemma other_call i s id t r0 j f :
  booted i s -> at_main main_pc id t r0 -> 0 <= id < NCPU -> MO !! j = Some f ->
  exists s', f c0 (BootSt (other_regs (kernel_pagetable s) id j r0) s) =
      Ret tt c0 (BootSt (other_regs (kernel_pagetable s) id (S j) r0) s') /\
    booted i s' /\ kernel_pagetable s' = kernel_pagetable s.
Proof using.
  intros Hb Hr Hid Hf; pose proof (am_tp _ _ _ _ Hr) as Htp.
  assert (Hcpu : cpuid r0 = id) by (unfold cpuid; rewrite Htp, i32_small; [done|clear Hroom; unfold NCPU in Hid; lia]).
  unfold main_other in Hf; destruct j as [|[|[|[|j]]]]; cbn [lookup list_lookup] in Hf; try (injection Hf as <-).
  - destruct (hart_message id Hid) as [out Hout]; exists (more_output out s); split_and!; [|by apply booted_output|done].
    unfold other_regs; run; cbn [my]; rewrite Hcpu; apply printf_locked; [done|apply (bo_flags _ _ Hb)].
  - exists s; done.
  - exists s; destruct s as [kp st lk rg rings [mt k] con u dv]; done.
  - exists s; destruct s as [kp st lk rg rings [mt k] con u dv]; split; [|done].
    unfold boot_plicinithart; run; change (cpuid (my _)) with (cpuid r0); rewrite Hcpu; reflexivity.
  - done.
Qed.

(** ** The invariant of the machine *)

(** A hart that can run the scheduler: paging with the kernel's table, traps to
    kernelvec, the two interrupts of the devices enabled for it. *)
Record ready (kp id : Z) (r : hart) : Prop := Ready {
  rd_mode : mode r = 1 /\ tp r = id;
  rd_paging : satp r = MAKE_SATP kp;
  rd_traps : stvec (sregs r) = kernelvec /\ medeleg r = 0xffff /\ mideleg r = 0xffff;
  rd_sie : has (sie r) SIE_SEIE = true /\ has (sie r) SIE_STIE = true /\ has (sie r) SIE_SSIE = true;
  rd_plic : (PLIC_SENABLE id, 1026) ∈ plic (sregs r) /\ (PLIC_SPRIORITY id, 0) ∈ plic (sregs r)
}.

Lemma other_ready kp id t r : at_main main_pc id t r -> ready kp id (other_regs kp id 4 r).
Proof using.
  intros []; split; try done; cbn.
  split; rewrite !elem_of_app, !list_elem_of_singleton; auto.
Qed.

Lemma first_ready kp t r : at_main main_pc 0 t r -> ready kp 0 (hart_first kernelvec (w_satp (MAKE_SATP kp) r)).
Proof using.
  intros []; split; try done; cbn.
  split; rewrite !elem_of_app, !list_elem_of_singleton; auto.
Qed.

(** Before hart 0 sets [started]. *)
Definition early (id : Z) (r : hart) (p : bpc) : Prop := p = Reset \/ p = Waiting /\ exists t, at_main main_pc id t r.

(** After it. *)
Inductive late (kp id : Z) (r : hart) : bpc -> Prop :=
| late_reset : id <> 0 -> late kp id r Reset
| late_wait t : id <> 0 -> at_main main_pc id t r -> late kp id r Waiting
| late_call j t r0 :
    at_main main_pc id t r0 -> (j < 4)%nat -> r = other_regs kp id j r0 -> late kp id r (At c0 (drop j MO))
| late_end : ready kp id r -> late kp id r (At c0 [])
| late_sched : ready kp id r -> late kp id r Scheduler.

Definition all_early (m : machine) (p : Z -> bpc) : Prop :=
  forall id, 0 <= id < NCPU -> id <> 0 -> early id (harts m id) (p id).
Definition all_late (m : machine) (p : Z -> bpc) : Prop :=
  booted s0 (all m) /\ forall id, 0 <= id < NCPU -> late (kernel_pagetable (all m)) id (harts m id) (p id).

Inductive binv : machine * (Z -> bpc) -> Prop :=
| bi_reset m p : all m = s0 -> p 0 = Reset -> all_early m p -> binv (m, p)
| bi_first k t r c m p :
    (k < 19)%nat -> at_main main_pc 0 t r -> after k r c (BootSt (harts m 0) (all m)) -> p 0 = At c (drop k MF) ->
    all_early m p -> binv (m, p)
| bi_late m p : all_late m p -> binv (m, p).

Lemma early_update h r s m p q :
  all_early m p -> (h <> 0 -> early h r q) -> all_early (Machine (<[h := r]> (harts m)) s) (<[h := q]> p).
Proof using.
  intros He Hq id Hid Hn; cbn [harts]; destruct (decide (id = h)) as [->|];
    [rewrite !fn_lookup_insert; auto|rewrite !fn_lookup_insert_ne by done; auto].
Qed.

Lemma late_update h r s m p q :
  all_late m p -> booted s0 s -> kernel_pagetable s = kernel_pagetable (all m) ->
  late (kernel_pagetable (all m)) h r q -> all_late (Machine (<[h := r]> (harts m)) s) (<[h := q]> p).
Proof using.
  intros [_ Hl] Hb Hk Hq; split; [done|]; intros id Hid; cbn [harts all]; rewrite Hk.
  destruct (decide (id = h)) as [->|]; [by rewrite !fn_lookup_insert|rewrite !fn_lookup_insert_ne by done; auto].
Qed.

Lemma late_move h m p q :
  all_late m p -> late (kernel_pagetable (all m)) h (harts m h) q -> all_late m (<[h := q]> p).
Proof using.
  intros [Hb Hl] Hq; split; [done|]; intros id Hid.
  destruct (decide (id = h)) as [->|]; [by rewrite fn_lookup_insert|rewrite fn_lookup_insert_ne by done; auto].
Qed.

Lemma main_pcs h time r :
  0 <= h < NCPU -> let r' := start main_pc h time r in
  at_main main_pc h time r' /\
  main kend etext trampoline forkret_pc kernelvec R r' = (if decide (h = 0) then At c0 MF else Waiting).
Proof using.
  clear Hroom; intros Hh r'; assert (Hr : at_main main_pc h time r') by (apply start_ok; unfold NCPU in Hh; lia).
  split; [done|]; unfold main, cpuid; rewrite (am_tp _ _ _ _ Hr), i32_small by (unfold NCPU in Hh; lia).
  case_decide; [by subst|]; by destruct (Z.eqb_spec h 0).
Qed.

#[local] Abbreviation step := (bstep kend etext trampoline forkret_pc kernelvec R main_pc).

Lemma zoom_hart h (f : M bootst unit) c m c' x :
  f c (BootSt (harts m h) (all m)) = Ret tt c' x ->
  zoom (on_hart h) f c m = Ret tt c' (Machine (<[h := my x]> (harts m)) (sh x)).
Proof using. intros H; unfold zoom; cbn [lget on_hart]; by rewrite H. Qed.

(** A call that a hart is about to make returns, and the invariant holds after it. *)
Lemma hart0_call k t r c f l m p :
  (k < 19)%nat -> at_main main_pc 0 t r -> after k r c (BootSt (harts m 0) (all m)) -> drop k MF = f :: l ->
  all_early m p ->
  exists c' m', zoom (on_hart 0) f c m = Ret tt c' m' /\ binv (m', <[0 := At c' l]> p).
Proof using kend_pos Htramp Hetext Hdisk Hroom Hs0.
  intros Hk Hr Ha Hd He; assert (Hid : cpuid r = 0) by (unfold cpuid; by rewrite (am_tp _ _ _ _ Hr)).
  assert (Hf : MF !! k = Some f) by (rewrite <- (Nat.add_0_r k), <- lookup_drop; exact (f_equal (lookup 0%nat) Hd)).
  assert (Hl : l = drop (S k) MF) by (rewrite <- Nat.add_1_r, <- drop_drop, Hd; done).
  destruct (after_next k r c _ f Hid Hf Ha) as (c' & x & Hx & Ha').
  exists c', (Machine (<[0 := my x]> (harts m)) (sh x)); split; [by apply zoom_hart|].
  assert (k = 18 \/ S k < 19)%nat as [->|Hk'] by (clear -Hk; lia).
  - destruct (after_all r c' x Hid Ha') as (-> & Hm & Hb); apply bi_late; split; [done|]; intros id Hin; cbn [harts all].
    rewrite Hl; destruct (decide (id = 0)) as [->|Hn].
    + rewrite !fn_lookup_insert, Hm; apply late_end; by eapply first_ready.
    + rewrite !fn_lookup_insert_ne by done; destruct (He id Hin Hn) as [->|(-> & t' & Ht)]; econstructor; eauto.
  - eapply (bi_first (S k) t r c'); [done|done| |by rewrite fn_lookup_insert, Hl|].
    + cbn [harts all]; rewrite fn_lookup_insert; by destruct x.
    + apply early_update; done.
Qed.

Lemma late_callable h c f l m p :
  0 <= h < NCPU -> all_late m p -> p h = At c (f :: l) ->
  exists c' m', zoom (on_hart h) f c m = Ret tt c' m' /\ all_late m' (<[h := At c' l]> p).
Proof using.
  intros Hh Hl Hp; pose proof (proj2 Hl h Hh) as Hq; rewrite Hp in Hq; remember (At c (f :: l)) as q eqn:Eq.
  destruct Hq as [| |j t r0 Hr Hj Er| |]; try discriminate Eq; injection Eq as Ec Ed; subst c.
  assert (Hf : MO !! j = Some f) by (rewrite <- (Nat.add_0_r j), <- lookup_drop; exact (f_equal (lookup 0%nat) Ed)).
  assert (E : l = drop (S j) MO) by (rewrite <- Nat.add_1_r, <- drop_drop, Ed; done).
  destruct (other_call s0 (all m) h t r0 j f (proj1 Hl) Hr Hh Hf) as (s' & Hx & Hb & Hk); rewrite <- Er in Hx.
  eexists c0, _; split; [by apply zoom_hart|]; cbn [my sh]; apply late_update; auto.
  rewrite E; assert (j = 3 \/ S j < 4)%nat as [->|Hj'] by (clear -Hj; lia).
  - apply late_end; by eapply other_ready.
  - by eapply late_call.
Qed.

Lemma early_pc h m p : all_early m p -> 0 <= h < NCPU -> h <> 0 -> p h = Reset \/ p h = Waiting.
Proof using. intros He Hh Hn; destruct (He h Hh Hn) as [?|[? _]]; auto. Qed.

Lemma binv_call h c f l m p :
  0 <= h < NCPU -> binv (m, p) -> p h = At c (f :: l) ->
  exists c' m', zoom (on_hart h) f c m = Ret tt c' m' /\ binv (m', <[h := At c' l]> p).
Proof using kend_pos Htramp Hetext Hdisk Hroom Hs0.
  intros Hh Hi Hp; inversion Hi as [m1 p1 Hs H0 He E|k t r c1 m1 p1 Hk Hr Ha H0 He E|m1 p1 Hl E]; subst m1 p1.
  - exfalso; destruct (decide (h = 0)) as [->|Hn]; [congruence|].
    destruct (early_pc h m p He Hh Hn); congruence.
  - destruct (decide (h = 0)) as [->|Hn]; [|exfalso; destruct (early_pc h m p He Hh Hn); congruence].
    rewrite H0 in Hp; injection Hp as -> Hd; by eapply hart0_call.
  - destruct (late_callable h c f l m p Hh Hl Hp) as (c' & m' & Hx & Hl'); eauto using bi_late.
Qed.

Lemma binv_start h time m p :
  0 <= h < NCPU -> binv (m, p) -> p h = Reset -> let r := start main_pc h time (harts m h) in
  binv (Machine (<[h := r]> (harts m)) (all m), <[h := main kend etext trampoline forkret_pc kernelvec R r]> p).
Proof using.
  intros Hh Hi Hp r; destruct (main_pcs h time (harts m h) Hh) as [Hr Hm]; fold r in Hr, Hm; rewrite Hm.
  inversion Hi as [m1 p1 Hs H0 He E|k t r1 c1 m1 p1 Hk Hr1 Ha H0 He E|m1 p1 Hl E]; subst m1 p1.
  - case_decide as Hd; [subst h|].
    + apply (bi_first 0 time r c0); [clear; lia|done| |by rewrite fn_lookup_insert|by apply early_update].
      cbn [harts all]; rewrite fn_lookup_insert, Hs; reflexivity.
    + apply bi_reset; [done|by rewrite fn_lookup_insert_ne|].
      apply early_update; [done|]; intros _; right; eauto.
  - rewrite decide_False by congruence; assert (h <> 0) by congruence.
    apply (bi_first k t r1 c1); [done..| | |].
    + cbn [harts all]; by rewrite fn_lookup_insert_ne.
    + by rewrite fn_lookup_insert_ne.
    + apply early_update; [done|]; intros _; right; eauto.
  - apply bi_late, late_update; [done|apply Hl|done|].
    pose proof (proj2 Hl h Hh) as Hq; rewrite Hp in Hq; inversion Hq; rewrite decide_False by done; by eapply late_wait.
Qed.

Lemma binv_step x y : binv x -> step x y -> binv y.
Proof using kend_pos Htramp Hetext Hdisk Hroom Hs0.
  intros Hi Hs; destruct Hs as [h time m p Hh Hp|h c f l m c' m' p Hh Hp Hx|h m p Hh Hp Hst|h m p Hh Hp Hst|h c m p Hh Hp].
  - by apply binv_start.
  - destruct (binv_call h c f l m p Hh Hi Hp) as (c1 & m1 & Hx1 & Hi1); rewrite Hx in Hx1; by injection Hx1 as -> ->.
  - done.
  - inversion Hi as [m1 p1 Hs H0 He E|k t r1 c1 m1 p1 Hk Hr1 Ha H0 He E|m1 p1 Hl E]; subst m1 p1.
    + exfalso; apply Hst; rewrite Hs; apply (lo_zero _ Hs0).
    + exfalso; apply Hst; apply (after_started k r1 c1 (BootSt (harts m 0) (all m))); [clear -Hk; lia|done].
    + apply bi_late, late_move; [done|]; pose proof (proj2 Hl h Hh) as Hq; rewrite Hp in Hq; inversion Hq.
      by eapply (late_call _ _ _ 0); [|clear; lia|].
  - inversion Hi as [m1 p1 Hs H0 He E|k t r1 c1 m1 p1 Hk Hr1 Ha H0 He E|m1 p1 Hl E]; subst m1 p1.
    + exfalso; destruct (decide (h = 0)) as [->|Hn]; [congruence|]; destruct (early_pc h m p He Hh Hn); congruence.
    + exfalso; destruct (decide (h = 0)) as [->|Hn]; [|destruct (early_pc h m p He Hh Hn); congruence].
      rewrite H0 in Hp; injection Hp as _ Hp; apply (f_equal length) in Hp; rewrite length_drop in Hp; cbn in Hp; clear -Hp Hk; lia.
    + apply bi_late, late_move; [done|]; pose proof (proj2 Hl h Hh) as Hq; rewrite Hp in Hq.
      apply late_sched; remember (At c []) as q eqn:Eq; destruct Hq as [| |j t r0 Hr Hj Er| |]; try discriminate Eq; [|done].
      injection Eq as _ Ed; apply (f_equal length) in Ed; rewrite length_drop in Ed; cbn in Ed; clear -Ed Hj; lia.
Qed.

Lemma binv_rtc x y : binv x -> rtc step x y -> binv y.
Proof using kend_pos Htramp Hetext Hdisk Hroom Hs0. intros Hi Hs; induction Hs; eauto using binv_step. Qed.

Lemma binv_sched h m p :
  binv (m, p) -> 0 <= h < NCPU -> p h = Scheduler -> booted s0 (all m) /\ ready (kernel_pagetable (all m)) h (harts m h).
Proof using.
  intros Hi Hh Hp; inversion Hi as [m1 p1 Hs H0 He E|k t r1 c1 m1 p1 Hk Hr1 Ha H0 He E|m1 p1 Hl E]; subst m1 p1.
  1,2: exfalso; destruct (decide (h = 0)) as [->|Hn]; [congruence|]; destruct (early_pc h m p He Hh Hn); congruence.
  split; [apply Hl|]; pose proof (proj2 Hl h Hh) as Hq; rewrite Hp in Hq; by inversion Hq.
Qed.

(** ** Every hart can reach the scheduler *)

#[local] Abbreviation reaches h x :=
  (exists y, rtc step x y /\ y.2 h = Scheduler /\ forall h', h' <> h -> y.2 h' = x.2 h').

Lemma reaches_step h q x m p :
  step (m, p) (x, <[h := q]> p) -> reaches h (x, <[h := q]> p) -> reaches h (m, p).
Proof using.
  intros Hs (y & Hy & Hp & Ho); exists y; split_and!; [by eapply rtc_l|done|].
  intros h' Hn; rewrite (Ho h' Hn); cbn; by rewrite fn_lookup_insert_ne.
Qed.

Lemma calls_reach h l : 0 <= h < NCPU -> forall c m p, binv (m, p) -> p h = At c l -> reaches h (m, p).
Proof using kend_pos Htramp Hetext Hdisk Hroom Hs0.
  intros Hh; induction l as [|f l IH]; intros c m p Hi Hp.
  - eapply reaches_step; [by eapply b_done|]; eexists; split; [apply rtc_refl|]; cbn; by rewrite fn_lookup_insert.
  - destruct (binv_call h c f l m p Hh Hi Hp) as (c' & m' & Hx & Hi').
    eapply reaches_step; [by eapply b_call|]; eapply IH; [done|by rewrite fn_lookup_insert].
Qed.

Lemma first_reaches m p : binv (m, p) -> reaches 0 (m, p).
Proof using kend_pos Htramp Hetext Hdisk Hroom Hs0.
  intros Hi; assert (H0 : 0 <= 0 < NCPU) by (clear; unfold NCPU; lia).
  destruct (p 0) eqn:Hp.
  - eapply reaches_step; [by apply (b_start _ _ _ _ _ _ _ _ 0)|].
    destruct (main_pcs 0 0 (harts m 0) H0) as [_ Hm]; rewrite decide_True in Hm by done.
    eapply calls_reach; [done|by apply binv_start|by rewrite fn_lookup_insert].
  - by eapply calls_reach.
  - inversion Hi as [m1 p1 Hs E0 He E|k t r1 c1 m1 p1 Hk Hr1 Ha E0 He E|m1 p1 Hl E]; subst m1 p1; [congruence..|].
    pose proof (proj2 Hl 0 H0) as Hq; rewrite Hp in Hq; by inversion Hq.
  - eexists; split; [apply rtc_refl|done].
Qed.

Lemma sched_late m p : binv (m, p) -> p 0 = Scheduler -> all_late m p.
Proof using.
  intros Hi Hp; inversion Hi as [m1 p1 Hs E0 He E|k t r1 c1 m1 p1 Hk Hr1 Ha E0 He E|m1 p1 Hl E]; [congruence..|done].
Qed.

Lemma waiting_reaches h m p :
  0 <= h < NCPU -> binv (m, p) -> p 0 = Scheduler -> p h = Waiting -> reaches h (m, p).
Proof using kend_pos Htramp Hetext Hdisk Hroom Hs0.
  intros Hh Hi H0 Hp; destruct (sched_late m p Hi H0) as [Hb _].
  assert (Hg : step (m, p) (m, <[h := At c0 MO]> p)) by (apply b_go; [done..|]; by rewrite (proj1 (bo_flags _ _ Hb))).
  eapply reaches_step; [exact Hg|]; eapply calls_reach; [done|by eapply binv_step|by rewrite fn_lookup_insert].
Qed.

Lemma other_reaches h m p : 0 <= h < NCPU -> binv (m, p) -> p 0 = Scheduler -> reaches h (m, p).
Proof using kend_pos Htramp Hetext Hdisk Hroom Hs0.
  intros Hh Hi H0; destruct (p h) eqn:Hp; [|by eapply calls_reach|by apply waiting_reaches|eexists; split; [apply rtc_refl|done]].
  eapply reaches_step; [by apply (b_start _ _ _ _ _ _ _ _ 0)|].
  assert (Hn : h <> 0) by congruence.
  destruct (main_pcs h 0 (harts m h) Hh) as [_ Hm]; rewrite decide_False in Hm by done.
  apply waiting_reaches; [done|by apply binv_start|by rewrite fn_lookup_insert_ne|by rewrite fn_lookup_insert].
Qed.

Lemma all_reach l : Forall (fun h => 0 <= h < NCPU) l -> forall m p, binv (m, p) -> p 0 = Scheduler ->
  exists m' p', rtc step (m, p) (m', p') /\ forall h, h ∈ l \/ p h = Scheduler -> p' h = Scheduler.
Proof using kend_pos Htramp Hetext Hdisk Hroom Hs0.
  intros Hl; induction Hl as [|h l Hh _ IH]; intros m p Hi H0.
  - exists m, p; split; [apply rtc_refl|]; intros h [Hx|]; [by apply not_elem_of_nil in Hx|done].
  - destruct (other_reaches h m p Hh Hi H0) as ([m1 p1] & R1 & S1 & O1); cbn [snd] in S1, O1.
    assert (Hk : forall h', p h' = Scheduler -> p1 h' = Scheduler).
    { intros h' Hx; destruct (decide (h' = h)) as [->|Hn]; [done|]; by rewrite (O1 h' Hn). }
    destruct (IH m1 p1 (binv_rtc _ _ Hi R1) (Hk 0 H0)) as (m2 & p2 & R2 & S2).
    exists m2, p2; split; [by etrans|]; intros h'; rewrite elem_of_cons; intros [[->|Hx]|Hx]; auto.
Qed.

(** C11: the machine boots. From the state the loader leaves, with the disk
    present and 176 pages of memory above the kernel, in every interleaving of the steps of all harts from start to the scheduler: no call
    of main fails, on any hart; a hart is in the scheduler only when the kernel
    is set up - the kernel's page table and stacks, the rings of the disk,
    init's address space and the free list share out the pages of memory, init
    is the one runnable process, the caches and the table of files are empty -
    and that hart runs in supervisor mode with the kernel's page table, its
    trap vector and the interrupts of both devices; and from every state that
    can be reached all harts can still reach the scheduler. *)
Theorem boot_correct hs m p :
  rtc step (Machine hs s0, fun _ => Reset) (m, p) ->
  (forall h c f l, 0 <= h < NCPU -> p h = At c (f :: l) -> exists c' m', zoom (on_hart h) f c m = Ret tt c' m') /\
  (forall h, 0 <= h < NCPU -> p h = Scheduler ->
     booted s0 (all m) /\ ready (kernel_pagetable (all m)) h (harts m h)) /\
  (exists m' p', rtc step (m, p) (m', p') /\ forall h, 0 <= h < NCPU -> p' h = Scheduler).
Proof using kend_pos Htramp Hetext Hdisk Hroom Hs0.
  intros Hr; assert (Hi : binv (m, p)).
  { eapply binv_rtc; [|exact Hr]; apply bi_reset; [done|done|]; intros id _ _; by left. }
  split_and!.
  - intros h c f l Hh Hp; destruct (binv_call h c f l m p Hh Hi Hp) as (c' & m' & Hx & _); eauto.
  - intros h Hh Hp; destruct (binv_sched h m p Hi Hh Hp) as [Hb Hl]; auto.
  - destruct (first_reaches m p Hi) as ([m1 p1] & R1 & S1 & _).
    destruct (all_reach (seqZ 0 8)) with m1 p1 as (m2 & p2 & R2 & S2); [|by eapply binv_rtc|done|].
    + apply Forall_forall; intros h Hh; by apply elem_of_seqZ in Hh.
    + exists m2, p2; split; [by etrans|]; intros h Hh; apply S2; left; by apply elem_of_seqZ.
Qed.
End booted.
End init.

(** ** A machine *)

Definition demo_virtio (r : Z) : Z :=
  if r =? VIRTIO_MMIO_MAGIC_VALUE then 0x74726976
  else if r =? VIRTIO_MMIO_VENDOR_ID then 0x554d4551
  else if r =? VIRTIO_MMIO_QUEUE_NUM_MAX then 1024
  else if r =? VIRTIO_MMIO_STATUS then 11
  else if r =? VIRTIO_MMIO_QUEUE_READY then 0
  else 2.

(** All of the kernel's data is zero but nextpid. *)
Definition demo_loaded : shared :=
  Shared 0 0 0 [] (0, 0, 0)
    (MsgSt msgtable0
       (Kst (replicate 64 proc0) 1 None 0 []
          (FileSt fileinit (fun _ => pipe_init [])
             (FsSt (Superblock 0 0 0 0 0 0 0 0) iinit
                (LogSt (Log 0 0 0 0 0 0 (replicate 30 0)) (BCache [] [] (fun _ => replicate 1024 0) []))
                (PMem (fun _ => 0) 0)))))
    (Cons (replicate 128 0) 0 0 0) (UartSt (replicate 32 0) 0 0 0 [] [] [] []) (VSt disk_init []).
Definition demo_harts (h : Z) : hart := Hart 3 0x1000 0 0 0 0 0 0 0 0 0 0 0 0 (Csrs 0 0 0 0 0 0 []).

#[local] Abbreviation demo_step := (bstep demo_end (KERNBASE + 8192) KERNBASE 0x80001a00 0x80005c00 demo_virtio 0x80000e00).

Lemma demo_memory :
  ((KERNBASE + 8192) mod 4096 = 0 /\ KERNBASE < KERNBASE + 8192 < PHYSTOP) /\
  (KERNBASE mod 4096 = 0 /\ 0 <= KERNBASE < PHYSTOP) /\ virtio_present demo_virtio /\
  (176 <= page_count demo_end)%nat /\ loaded demo_end demo_loaded.
Proof.
  split_and!; try (reflexivity || discriminate).
  - repeat split; discriminate.
  - change (page_count demo_end) with 200%nat; lia.
  - split; [done|done|]; split_and!; [intros a; cbn; lia|reflexivity|constructor|constructor].
Qed.

Lemma demo_booted : exists s, booted demo_end KERNBASE 0x80001a00 (KERNBASE + 8192) demo_loaded s.
Proof.
  destruct demo_memory as (He & Ht & Hd & Hn & Hl).
  destruct (main_boots demo_end KERNBASE 0x80001a00 eq_refl Ht (KERNBASE + 8192) 0x80005c00 demo_virtio He Hd Hn (demo_harts 0) demo_loaded eq_refl Hl)
    as (s & _ & Hb & _); by exists s.
Qed.

Lemma boot_correct_witness :
  exists m p, rtc demo_step (Machine demo_harts demo_loaded, fun _ => Reset) (m, p) /\
    forall h, 0 <= h < NCPU -> p h = Scheduler /\
      booted demo_end KERNBASE 0x80001a00 (KERNBASE + 8192) demo_loaded (all m) /\
      ready 0x80005c00 (kernel_pagetable (all m)) h (harts m h).
Proof.
  destruct demo_memory as (He & Ht & Hd & Hn & Hl).
  assert (B := boot_correct demo_end KERNBASE 0x80001a00 eq_refl Ht (KERNBASE + 8192) 0x80005c00 demo_virtio He Hd Hn
    0x80000e00 demo_loaded Hl demo_harts).
  destruct (B _ _ (rtc_refl _ _)) as (_ & _ & m & p & Hr & Hs).
  exists m, p; split; [exact Hr|]; intros h Hh; split; [auto|].
  destruct (B m p Hr) as (_ & Hb & _); auto.
Defined.
