(* ===== verification/Asm.v ===== *)
(** * The assembly: entry.S, swtch.S, trampoline.S, kernelvec.S, initcode.S, usys.S

    The instructions these files use, on one hart with Sv39 translation, and
    the routines as lists of them.  A routine has no jumps inside, so what
    matters of an instruction's address is only where control goes when the
    routine leaves.  The accessed and dirty bits of page-table entries, which
    the hardware may set, are not modelled. *)

From stdpp Require Import functions.
From S2P Require Import Prelude CMem KString Riscv Kalloc Vm.
From S2P Require Import Locks Pipe Block Bio Log Fs File Printf Uart Proc Sysproc Exec Sysfile Msg.
From S2P Require Import Syscall Console Virtio Trap.

(** ** The hart *)

Inductive reg : Set :=
| Zero | Ra | Sp | Gp | Tp | T0 | T1 | T2 | S0 | S1 | A0 | A1 | A2 | A3 | A4 | A5 | A6 | A7
| S2 | S3 | S4 | S5 | S6 | S7 | S8 | S9 | S10 | S11 | T3 | T4 | T5 | T6.
#[export] Instance reg_eq : EqDecision reg.
Proof. solve_decision. Defined.

(** [privilege] is 0 for user, 1 for supervisor and 3 for machine mode. *)
Record hw : Type := Hw {
  xs : reg -> Z;
  privilege : Z;
  satp_reg : Z;
  sscratch : Z;
  mhartid : Z;
  scsr : csrs;
  ram : mem
}.

Definition get_x (r : reg) (s : hw) : Z := if decide (r = Zero) then 0 else xs s r.
Definition set_x (r : reg) (v : Z) (s : hw) : hw :=
  if decide (r = Zero) then s
  else Hw (<[r := v]> (xs s)) (privilege s) (satp_reg s) (sscratch s) (mhartid s) (scsr s) (ram s).
Definition set_satp (v : Z) (s : hw) : hw :=
  Hw (xs s) (privilege s) v (sscratch s) (mhartid s) (scsr s) (ram s).
Definition set_sscratch (v : Z) (s : hw) : hw :=
  Hw (xs s) (privilege s) (satp_reg s) v (mhartid s) (scsr s) (ram s).
Definition set_ram (m : mem) (s : hw) : hw :=
  Hw (xs s) (privilege s) (satp_reg s) (sscratch s) (mhartid s) (scsr s) m.
Definition set_mode (p : Z) (c : csrs) (s : hw) : hw :=
  Hw (xs s) p (satp_reg s) (sscratch s) (mhartid s) c (ram s).

(** ** Address translation *)

Inductive access : Set := Load | Store | Fetch.

(** The leaf entry for an address and its level. *)
Fixpoint hw_walk (level : nat) (m : mem) (table va : Z) : option (Z * nat) :=
  let pte := load64 m (table + 8 * PX (Z.of_nat level) va) in
  if negb (has pte PTE_V) || negb (has pte PTE_R) && has pte PTE_W || (2 ^ 54 <=? pte) then None
  else if has pte PTE_R || has pte PTE_X then Some (pte, level)
  else match level with
       | O => None
       | S l => hw_walk l m (PTE2PA pte) va
       end.

(** Bits 18 and 19 of sstatus are SUM and MXR. *)
Definition allowed (s : hw) (a : access) (pte : Z) : bool :=
  (if privilege s =? 0 then has pte PTE_U
   else negb (has pte PTE_U) ||
     match a with Fetch => false | _ => Z.testbit (sstatus (scsr s)) 18 end) &&
  match a with
  | Load => has pte PTE_R || Z.testbit (sstatus (scsr s)) 19 && has pte PTE_X
  | Store => has pte PTE_W
  | Fetch => has pte PTE_X
  end.

Definition translate (s : hw) (a : access) (va : Z) : option Z :=
  let mode := Z.shiftr (satp_reg s) 60 in
  let high := Z.shiftr va 38 in
  if (privilege s =? 3) || (mode =? 0) then Some va
  else if negb (mode =? 8) || negb ((high =? 0) || (high =? 2 ^ 26 - 1)) then None
  else
    match hw_walk 2 (ram s) (Z.shiftl (Z.land (satp_reg s) (Z.ones 44)) 12) va with
    | Some (pte, l) =>
        let size := 2 ^ (12 + 9 * Z.of_nat l) in
        if allowed s a pte && (PTE2PA pte mod size =? 0) then Some (PTE2PA pte + va mod size) else None
    | None => None
    end.

(** ** Instructions *)

Inductive csr_name : Set := Sscratch | Satp | Mhartid.

Inductive instr : Set :=
| Ld (rd : reg) (off : Z) (rs : reg)
| Sd (rv : reg) (off : Z) (rs : reg)
| Li (rd : reg) (v : Z)                     (* li and la *)
| Addi (rd rs : reg) (v : Z)
| Add (rd rs rt : reg)
| Mul (rd rs rt : reg)
| Auipc (rd : reg) (v : Z)
| Csrr (rd : reg) (c : csr_name)
| Csrw (c : csr_name) (rs : reg)
| Sfence
| Call (f : Z)
| Jal (rd : reg) (off : Z)
| Jr (rs : reg)                             (* ret is jr ra *)
| Ecall
| Sret.

(** A trap to supervisor mode, to which [start] delegates all of them. *)
Definition take_trap (cause tval pc : Z) (s : hw) : option Z * hw :=
  let c := scsr s in
  let st := Z.land (sstatus c) (Z.lnot (Z.lor SSTATUS_SPP (Z.lor SSTATUS_SPIE SSTATUS_SIE))) in
  let st := if privilege s =? 1 then Z.lor st SSTATUS_SPP else st in
  let st := if has (sstatus c) SSTATUS_SIE then Z.lor st SSTATUS_SPIE else st in
  (Some (stvec c), set_mode 1 (Csrs st pc cause tval (stvec c) (stimecmp c) (plic c)) s).

Definition sret (s : hw) : option Z * hw :=
  let c := scsr s in
  let st := Z.land (sstatus c) (Z.lnot (Z.lor SSTATUS_SPP SSTATUS_SIE)) in
  let st := if has (sstatus c) SSTATUS_SPIE then Z.lor st SSTATUS_SIE else st in
  (Some (sepc c), set_mode (if has (sstatus c) SSTATUS_SPP then 1 else 0)
     (w_sstatus (Z.lor st SSTATUS_SPIE) c) s).

(** What comes next ([None]: the next instruction) and the state. *)
Definition exec_instr (pc : Z) (i : instr) (s : hw) : option Z * hw :=
  let illegal := take_trap 2 0 pc s in
  match i with
  | Ld rd off rs =>
      let va := u64 (get_x rs s + off) in
      if negb (va mod 8 =? 0) then take_trap 4 va pc s
      else match translate s Load va with
           | Some pa => (None, set_x rd (load64 (ram s) pa) s)
           | None => take_trap 13 va pc s
           end
  | Sd rv off rs =>
      let va := u64 (get_x rs s + off) in
      if negb (va mod 8 =? 0) then take_trap 6 va pc s
      else match translate s Store va with
           | Some pa => (None, set_ram (store64 (ram s) pa (get_x rv s)) s)
           | None => take_trap 15 va pc s
           end
  | Li rd v => (None, set_x rd (u64 v) s)
  | Addi rd rs v => (None, set_x rd (u64 (get_x rs s + v)) s)
  | Add rd rs rt => (None, set_x rd (u64 (get_x rs s + get_x rt s)) s)
  | Mul rd rs rt => (None, set_x rd (u64 (get_x rs s * get_x rt s)) s)
  | Auipc rd v => (None, set_x rd (u64 (pc + v)) s)
  | Csrr rd c =>
      match c with
      | Sscratch => if privilege s =? 0 then illegal else (None, set_x rd (sscratch s) s)
      | Satp => if privilege s =? 0 then illegal else (None, set_x rd (satp_reg s) s)
      | Mhartid => if privilege s =? 3 then (None, set_x rd (mhartid s) s) else illegal
      end
  | Csrw c rs =>
      match c with
      | Sscratch => if privilege s =? 0 then illegal else (None, set_sscratch (get_x rs s) s)
      | Satp => if privilege s =? 0 then illegal else (None, set_satp (get_x rs s) s)
      | Mhartid => illegal
      end
  | Sfence => if privilege s =? 0 then illegal else (None, s)
  | Call f => (Some f, set_x Ra (u64 (pc + 4)) s)
  | Jal rd off => (Some (u64 (pc + off)), set_x rd (u64 (pc + 4)) s)
  | Jr rs => (Some (Z.land (get_x rs s) (Z.lnot 1)), s)
  | Ecall => take_trap (8 + privilege s) 0 pc s
  | Sret => if privilege s =? 0 then illegal else sret s
  end.

(** A routine, from its first instruction to where control leaves it. *)
Fixpoint exec_code (pc : Z) (code : list instr) (s : hw) : Z * hw :=
  match code with
  | [] => (pc, s)
  | i :: code' =>
      match exec_instr pc i s with
      | (None, s') => exec_code (u64 (pc + 4)) code' s'
      | (Some pc', s') => (pc', s')
      end
  end.

(** ** The routines *)

(** Offsets in struct context and struct trapframe. *)
Definition context_off (r : reg) : option Z :=
  match r with
  | Ra => Some 0 | Sp => Some 8 | S0 => Some 16 | S1 => Some 24 | S2 => Some 32 | S3 => Some 40 | S4 => Some 48
  | S5 => Some 56 | S6 => Some 64 | S7 => Some 72 | S8 => Some 80 | S9 => Some 88 | S10 => Some 96 | S11 => Some 104
  | _ => None
  end.
Definition trapframe_off (r : reg) : Z :=
  match r with
  | Zero => 0 | Ra => 40 | Sp => 48 | Gp => 56 | Tp => 64 | T0 => 72 | T1 => 80 | T2 => 88 | S0 => 96 | S1 => 104
  | A0 => 112 | A1 => 120 | A2 => 128 | A3 => 136 | A4 => 144 | A5 => 152 | A6 => 160 | A7 => 168
  | S2 => 176 | S3 => 184 | S4 => 192 | S5 => 200 | S6 => 208 | S7 => 216 | S8 => 224 | S9 => 232 | S10 => 240
  | S11 => 248 | T3 => 256 | T4 => 264 | T5 => 272 | T6 => 280
  end.

(** entry.S, up to the call of start. *)
Definition entry (stack0 start : Z) : list instr :=
  [ Li Sp stack0; Li A0 (1024 * 4); Csrr A1 Mhartid; Addi A1 A1 1; Mul A0 A0 A1; Add Sp Sp A0; Call start ].

(** swtch.S *)
Definition swtch : list instr :=
  [ Sd Ra 0 A0; Sd Sp 8 A0; Sd S0 16 A0; Sd S1 24 A0; Sd S2 32 A0; Sd S3 40 A0; Sd S4 48 A0; Sd S5 56 A0;
    Sd S6 64 A0; Sd S7 72 A0; Sd S8 80 A0; Sd S9 88 A0; Sd S10 96 A0; Sd S11 104 A0; Ld Ra 0 A1;
    Ld Sp 8 A1; Ld S0 16 A1; Ld S1 24 A1; Ld S2 32 A1; Ld S3 40 A1; Ld S4 48 A1; Ld S5 56 A1;
    Ld S6 64 A1; Ld S7 72 A1; Ld S8 80 A1; Ld S9 88 A1; Ld S10 96 A1; Ld S11 104 A1; Jr Ra ].

(** trampoline.S *)
Definition uservec : list instr :=
  [ Csrw Sscratch A0; Li A0 TRAPFRAME; Sd Ra 40 A0; Sd Sp 48 A0; Sd Gp 56 A0; Sd Tp 64 A0; Sd T0 72 A0;
    Sd T1 80 A0; Sd T2 88 A0; Sd S0 96 A0; Sd S1 104 A0; Sd A1 120 A0; Sd A2 128 A0; Sd A3 136 A0;
    Sd A4 144 A0; Sd A5 152 A0; Sd A6 160 A0; Sd A7 168 A0; Sd S2 176 A0; Sd S3 184 A0; Sd S4 192 A0;
    Sd S5 200 A0; Sd S6 208 A0; Sd S7 216 A0; Sd S8 224 A0; Sd S9 232 A0; Sd S10 240 A0; Sd S11 248 A0;
    Sd T3 256 A0; Sd T4 264 A0; Sd T5 272 A0; Sd T6 280 A0; Csrr T0 Sscratch; Sd T0 112 A0; Ld Sp 8 A0;
    Ld Tp 32 A0; Ld T0 16 A0; Ld T1 0 A0; Sfence; Csrw Satp T1; Sfence; Jr T0 ].
Definition userret : list instr :=
  [ Sfence; Csrw Satp A0; Sfence; Li A0 TRAPFRAME; Ld Ra 40 A0; Ld Sp 48 A0; Ld Gp 56 A0; Ld Tp 64 A0;
    Ld T0 72 A0; Ld T1 80 A0; Ld T2 88 A0; Ld S0 96 A0; Ld S1 104 A0; Ld A1 120 A0; Ld A2 128 A0;
    Ld A3 136 A0; Ld A4 144 A0; Ld A5 152 A0; Ld A6 160 A0; Ld A7 168 A0; Ld S2 176 A0; Ld S3 184 A0;
    Ld S4 192 A0; Ld S5 200 A0; Ld S6 208 A0; Ld S7 216 A0; Ld S8 224 A0; Ld S9 232 A0; Ld S10 240 A0;
    Ld S11 248 A0; Ld T3 256 A0; Ld T4 264 A0; Ld T5 272 A0; Ld T6 280 A0; Ld A0 112 A0; Sret ].

(** kernelvec.S, up to the call and after it. *)
Definition kernelvec (kerneltrap : Z) : list instr :=
  [ Addi Sp Sp (-256); Sd Ra 0 Sp; Sd Sp 8 Sp; Sd Gp 16 Sp; Sd Tp 24 Sp; Sd T0 32 Sp; Sd T1 40 Sp;
    Sd T2 48 Sp; Sd A0 72 Sp; Sd A1 80 Sp; Sd A2 88 Sp; Sd A3 96 Sp; Sd A4 104 Sp; Sd A5 112 Sp;
    Sd A6 120 Sp; Sd A7 128 Sp; Sd T3 216 Sp; Sd T4 224 Sp; Sd T5 232 Sp; Sd T6 240 Sp; Call kerneltrap ].
Definition kernelvec_back : list instr :=
  [ Ld Ra 0 Sp; Ld Sp 8 Sp; Ld Gp 16 Sp; Ld T0 32 Sp; Ld T1 40 Sp; Ld T2 48 Sp; Ld A0 72 Sp; Ld A1 80 Sp;
    Ld A2 88 Sp; Ld A3 96 Sp; Ld A4 104 Sp; Ld A5 112 Sp; Ld A6 120 Sp; Ld A7 128 Sp; Ld T3 216 Sp;
    Ld T4 224 Sp; Ld T5 232 Sp; Ld T6 240 Sp; Addi Sp Sp 256; Sret ].

(** usys.S: the routine usys.pl makes for each system call. *)
Definition usys_entry (num : Z) : list instr := [ Li A7 num; Ecall; Jr Ra ].

(** ** Instructions in memory *)

Definition all_regs : list reg :=
  [ Zero; Ra; Sp; Gp; Tp; T0; T1; T2; S0; S1; A0; A1; A2; A3; A4; A5; A6; A7;
    S2; S3; S4; S5; S6; S7; S8; S9; S10; S11; T3; T4; T5; T6 ].
Definition bits (w lo n : Z) : Z := Z.land (Z.shiftr w lo) (Z.ones n).
Definition sign (n v : Z) : Z := if Z.testbit v (n - 1) then v - 2 ^ n else v.
Definition reg_at (w lo : Z) : reg := default Zero (all_regs !! Z.to_nat (bits w lo 5)).

(** The instructions of initcode: auipc, addi, jal and ecall. *)
Definition decode (w : Z) : option instr :=
  if bits w 0 7 =? 0x17 then Some (Auipc (reg_at w 7) (sign 32 (Z.shiftl (bits w 12 20) 12)))
  else if (bits w 0 7 =? 0x13) && (bits w 12 3 =? 0) then Some (Addi (reg_at w 7) (reg_at w 15) (sign 12 (bits w 20 12)))
  else if bits w 0 7 =? 0x6f then
    Some (Jal (reg_at w 7) (sign 21 (Z.lor (Z.lor (Z.shiftl (bits w 31 1) 20) (Z.shiftl (bits w 12 8) 12))
      (Z.lor (Z.shiftl (bits w 20 1) 11) (Z.shiftl (bits w 21 10) 1)))))
  else if w =? 0x73 then Some Ecall
  else None.

(** One instruction of a program in memory. *)
Definition hw_step (pc : Z) (s : hw) : option (Z * hw) :=
  match translate s Fetch pc with
  | None => let (n, s') := take_trap 12 pc pc s in Some (default pc n, s')
  | Some pa =>
      match decode (load32 (ram s) pa) with
      | Some i => let (n, s') := exec_instr pc i s in Some (default (u64 (pc + 4)) n, s')
      | None => None
      end
  end.
Fixpoint hw_run (n : nat) (pc : Z) (s : hw) : option (Z * hw) :=
  match n with
  | O => Some (pc, s)
  | S k => match hw_step pc s with Some (pc', s') => hw_run k pc' s' | None => None end
  end.

(** ** A trap from user space, all the way *)

Section round.
Variable kend trampoline forkret_pc uservec_pc userret_pc kernelvec_pc usertrap_pc time claim : Z.
Variable stat_pad : list Z.
Variable msgtyp_hi : Z.
Variable devread devwrite : Z -> option (Z -> Z -> M filest Z).

(** The kernel's state with the memory and the control registers of the hart. *)
Definition enter_kernel (s : hw) (k : trapst) : trapst :=
  TrapSt (scsr s)
    (tmsg (lset tkern_of (lset kmem_of (with_mem (fun _ => ram s) (lget kmem_of (lget tkern_of k))) (lget tkern_of k)) k))
    (tcons k) (tuart k) (tdisk k).
(** The hart when the kernel calls userret with its argument; [x] is what
    compiled code leaves in the registers. *)
Definition leave_kernel (x : reg -> Z) (satp : Z) (s : hw) (k : trapst) : hw :=
  Hw (<[A0 := satp]> x) 1 (satp_reg s) (sscratch s) (mhartid s) (csr k) (pm_mem (lget kmem_of (lget tkern_of k))).

(** From the trap to the first instruction back in user space. *)
Definition user_trap (x : reg -> Z) (me : nat) (c : kctx) (k : trapst) (s : hw) : option (Z * hw * kctx * trapst) :=
  let (pc1, s1) := exec_code (stvec (scsr s)) uservec s in
  if negb (pc1 =? usertrap_pc) then None
  else
    match usertrap kend trampoline forkret_pc uservec_pc userret_pc kernelvec_pc usertrap_pc (satp_reg s1) (xs s1 Tp) time claim
            stat_pad msgtyp_hi devread devwrite me c (enter_kernel s1 k) with
    | Ret (ToUser va satp) c' k' =>
        let (pc2, s2) := exec_code va userret (leave_kernel x satp s1 k') in Some (pc2, s2, c', k')
    | _ => None
    end.
End round.
