(* ===== verification/AsmOk.v ===== *)
(** * The assembly saves and restores registers

    Traps go from user space to the kernel and back, and context switches from
    one kernel thread to another, with every register as it was. *)

From stdpp Require Import functions.
From S2P Require Import Prelude CMem KString Riscv Kalloc Vm VmInv VmMap VmUser VmBuild KvmOk.
From S2P Require Import Locks Pipe Block Bio Log Fs File Printf Uart Proc Sysproc Exec Sysfile Msg.
From S2P Require Import FsAlloc Syscall Console ConsoleOk Virtio Trap TrapOk Boot BootOk Asm.

(** ** Sequences of stores and of loads *)

Definition saves (base : reg) (l : list (reg * Z)) : list instr := (fun '(r, o) => Sd r o base) <$> l.
Definition restores (base : reg) (l : list (reg * Z)) : list instr := (fun '(r, o) => Ld r o base) <$> l.

Definition store_all (g : reg -> Z) (a : Z) (l : list (reg * Z)) (m : mem) : mem :=
  foldl (fun m '(r, o) => store64 m (a + o) (g r)) m l.
Definition load_all (m : mem) (a : Z) (l : list (reg * Z)) (g : reg -> Z) : reg -> Z :=
  foldl (fun g '(r, o) => <[r := load64 m (a + o)]> g) g l.

(** Words of [n] bytes. *)
Definition slots (n : Z) (l : list (reg * Z)) : Prop :=
  NoDup l.*2 /\ Forall (fun '(r, o) => r <> Zero /\ 0 <= o /\ o + 8 <= n /\ o mod 8 = 0) l.
#[export] Instance slots_dec n l : Decision (slots n l).
Proof.
  unfold slots; apply and_dec; [apply _|]; apply Forall_dec; intros [r o]; apply _.
Defined.

Lemma slots_cons n r o l :
  slots n ((r, o) :: l) ->
  r <> Zero /\ 0 <= o /\ o + 8 <= n /\ o mod 8 = 0 /\ slots n l /\ (forall r' o', (r', o') ∈ l -> o' + 8 <= o \/ o + 8 <= o').
Proof.
  intros [Hn Hf]; cbn in Hn; apply NoDup_cons in Hn as [Hi Hn]; apply Forall_cons in Hf as [(Hr & H0 & H1 & H2) Hf].
  split_and!; auto; [by split|]; intros r' o' Hx.
  rewrite Forall_forall in Hf; destruct (Hf _ Hx) as (_ & _ & _ & H3).
  assert (o' <> o) by (intros ->; apply Hi, list_elem_of_fmap; by exists (r', o)).
  pose proof (Z.div_mod o 8 ltac:(lia)); pose proof (Z.div_mod o' 8 ltac:(lia)); lia.
Qed.

Lemma store_all_out g a n l m x : slots n l -> ~ (a <= x < a + n) -> store_all g a l m x = m x.
Proof.
  intros Hs Hx; revert m Hs; induction l as [|[r o] l IH]; intros m Hs; [done|]; cbn.
  apply slots_cons in Hs as (_ & H0 & H1 & _ & Hs & _); change (store_all g a l (store64 m (a + o) (g r)) x = m x).
  rewrite IH, store64_out by (done || lia); done.
Qed.

Lemma store_all_other g a l m b :
  (forall r o, (r, o) ∈ l -> b + 8 <= a + o \/ a + o + 8 <= b) -> load64 (store_all g a l m) b = load64 m b.
Proof.
  revert m; induction l as [|[r o] l IH]; intros m Hd; [done|]; cbn.
  change (load64 (store_all g a l (store64 m (a + o) (g r))) b = load64 m b).
  rewrite IH; [|intros r' o' Hx; apply (Hd r' o'); by right].
  specialize (Hd r o ltac:(by left)); apply load64_store64_disj; lia.
Qed.

Lemma store_all_get g a n l m r o :
  slots n l -> (r, o) ∈ l -> 0 <= g r < 2 ^ 64 -> load64 (store_all g a l m) (a + o) = g r.
Proof.
  intros Hs Hx Hg; revert m Hs; induction l as [|[r1 o1] l IH]; intros m Hs; [by apply not_elem_of_nil in Hx|]; cbn.
  apply slots_cons in Hs as (_ & _ & _ & _ & Hs & Hd).
  change (load64 (store_all g a l (store64 m (a + o1) (g r1))) (a + o) = g r).
  apply elem_of_cons in Hx as [[= -> ->]|Hx]; [|by apply IH].
  rewrite store_all_other, load64_store64_same; [done|done|].
  intros r' o' Hx'; specialize (Hd r' o' Hx'); lia.
Qed.

Lemma load_all_other m a l g r : r ∉ l.*1 -> load_all m a l g r = g r.
Proof.
  revert g; induction l as [|[r1 o1] l IH]; intros g Hr; [done|]; cbn in *.
  apply not_elem_of_cons in Hr as [Hn Hr]; change (load_all m a l (<[r1 := load64 m (a + o1)]> g) r = g r).
  by rewrite IH, fn_lookup_insert_ne.
Qed.

Lemma load_all_get m a l g r o : NoDup l.*1 -> (r, o) ∈ l -> load_all m a l g r = load64 m (a + o).
Proof.
  intros Hn Hx; revert g; induction l as [|[r1 o1] l IH]; intros g; [by apply not_elem_of_nil in Hx|]; cbn in *.
  apply NoDup_cons in Hn as [Hi Hn]; change (load_all m a l (<[r1 := load64 m (a + o1)]> g) r = load64 m (a + o)).
  apply elem_of_cons in Hx as [[= -> ->]|Hx]; [|by apply IH].
  by rewrite load_all_other, fn_lookup_insert.
Qed.

Lemma exec_next pc i code s s' : exec_instr pc i s = (None, s') -> exec_code pc (i :: code) s = exec_code (u64 (pc + 4)) code s'.
Proof. intros H; cbn [exec_code]; by rewrite H. Qed.

Lemma exec_jump pc i code s pc' s' : exec_instr pc i s = (Some pc', s') -> exec_code pc (i :: code) s = (pc', s').
Proof. intros H; cbn [exec_code]; by rewrite H. Qed.

(** ** A window of memory that a register points to *)

Definition set_xs (g : reg -> Z) (s : hw) : hw :=
  Hw g (privilege s) (satp_reg s) (sscratch s) (mhartid s) (scsr s) (ram s).

(** The [n] bytes at virtual address [va] are those at [a], whatever they hold. *)
Definition window (s : hw) (va a n : Z) : Prop :=
  forall m acc o, (forall x, ~ (a <= x < a + n) -> m x = ram s x) -> acc = Load \/ acc = Store ->
    0 <= o -> o + 8 <= n -> o mod 8 = 0 ->
    u64 (va + o) mod 8 = 0 /\ translate (set_ram m s) acc (u64 (va + o)) = Some (a + o).

Lemma window_regs s g va a n : window s va a n -> window (set_xs g s) va a n.
Proof. done. Qed.

Lemma window_ram s m va a n :
  window s va a n -> (forall x, ~ (a <= x < a + n) -> m x = ram s x) -> window (set_ram m s) va a n.
Proof.
  intros Hw Hm m' acc o Hm' Ha; apply Hw; [|done]; intros x Hx; rewrite (Hm' x Hx); by apply Hm.
Qed.

Lemma exec_saves_at base a n l s :
  window s (get_x base s) a n -> slots n l -> forall m, (forall x, ~ (a <= x < a + n) -> m x = ram s x) ->
  forall pc rest, exists pc',
    exec_code pc (saves base l ++ rest) (set_ram m s) = exec_code pc' rest (set_ram (store_all (xs s) a l m) s).
Proof.
  intros Hw Hs; induction l as [|[r o] l IH]; intros m Hm pc rest; [by exists pc|].
  apply slots_cons in Hs as (Hr & H0 & H1 & H2 & Hs & _).
  destruct (Hw m Store o Hm ltac:(by right) H0 H1 H2) as [Ha Ht].
  destruct (IH Hs (store64 m (a + o) (xs s r))) with (u64 (pc + 4)) rest as [pc' Hp].
  { intros x Hx; rewrite store64_out by lia; by apply Hm. }
  exists pc'; etransitivity; [|exact Hp]; cbn [saves fmap list_fmap app exec_code exec_instr].
  change (get_x base (set_ram m s)) with (get_x base s); rewrite Ha, Ht; cbn [Z.eqb negb].
  unfold get_x; by rewrite (decide_False (P := r = Zero)).
Qed.

Lemma exec_saves base a n l s pc rest :
  window s (get_x base s) a n -> slots n l ->
  exists pc', exec_code pc (saves base l ++ rest) s = exec_code pc' rest (set_ram (store_all (xs s) a l (ram s)) s).
Proof.
  intros Hw Hs; destruct (exec_saves_at base a n l s Hw Hs (ram s) ltac:(done) pc rest) as [pc' H].
  exists pc'; rewrite <- H; by destruct s.
Qed.

Lemma exec_restores base a n l s :
  window s (get_x base s) a n -> slots n l -> base ∉ l.*1 ->
  forall pc rest, exists pc',
    exec_code pc (restores base l ++ rest) s = exec_code pc' rest (set_xs (load_all (ram s) a l (xs s)) s).
Proof.
  intros Hw Hs Hb; assert (Hg : forall g, get_x base (set_xs g s) = get_x base s -> forall pc rest, exists pc',
    exec_code pc (restores base l ++ rest) (set_xs g s) = exec_code pc' rest (set_xs (load_all (ram s) a l g) s)).
  { induction l as [|[r o] l IH]; intros g Eg pc rest; [by exists pc|].
    apply slots_cons in Hs as (Hr & H0 & H1 & H2 & Hs & _); cbn in Hb; apply not_elem_of_cons in Hb as [Hn Hb].
    destruct (Hw (ram s) Load o ltac:(done) ltac:(by left) H0 H1 H2) as [Ha Ht].
    destruct (IH Hs Hb (<[r := load64 (ram s) (a + o)]> g)) with (u64 (pc + 4)) rest as [pc' Hp].
    { rewrite <- Eg; unfold get_x; case_decide; [done|]; cbn; by rewrite fn_lookup_insert_ne. }
    exists pc'; etransitivity; [|exact Hp]; cbn [restores fmap list_fmap app exec_code exec_instr].
    rewrite Eg, Ha; change (translate (set_xs g s) Load) with (translate (set_ram (ram s) s) Load); rewrite Ht.
    cbn [Z.eqb negb]; unfold set_x; by rewrite decide_False. }
  intros pc rest; destruct (Hg (xs s) ltac:(by destruct s) pc rest) as [pc' H]; exists pc'; rewrite <- H; by destruct s.
Qed.

(** ** Translation through a page table *)

Lemma pte_small pa perm : is_frame pa -> 0 <= perm < 2 ^ 10 -> (2 ^ 54 <=? mkpte pa perm) = false.
Proof.
  intros Hf Hp; pose proof (lor_V_range perm Hp); rewrite mkpte_eq, PA2PTE_eq, (lor_add _ _ 10) by (done || lia).
  assert (pa / 4096 < 2 ^ 44) by (destruct Hf; apply Z.div_lt_upper_bound; lia); lia.
Qed.

Section pt.
Variable kend : Z.
Hypothesis kend_pos : 0 < kend.
Variables (m : mem) (root : Z) (tb : tables).
Hypothesis Hpt : pt_inv kend m root tb.

(** A table that is not a leaf. *)
Lemma hw_walk_table l i b va p :
  tb !! (S l, i) = Some b -> tb !! (l, i * 512 + PX (Z.of_nat (S l)) va) = Some p ->
  hw_walk (S l) m b va = hw_walk l m p va.
Proof using kend_pos Hpt.
  intros Hb Hp; pose proof (PX_range (Z.of_nat (S l)) va ltac:(lia)) as Hx.
  pose proof (pt_int _ _ _ _ Hpt l i b _ Hb Hx) as He; rewrite Hp in He.
  pose proof (page_frame kend kend_pos p (pt_page _ _ _ _ Hpt _ _ Hp)) as Hf.
  assert (H0 : 0 <= 0 < 2 ^ 10) by lia.
  replace (Z.lor (PA2PTE p) PTE_V) with (mkpte p 0) in He by (unfold mkpte; by rewrite Z.lor_0_r).
  cbn [hw_walk]; rewrite He, mkpte_V, pte_small by done.
  unfold PTE_R, PTE_W, PTE_X; rewrite !mkpte_bit, mkpte_pa by (done || lia); done.
Qed.

Lemma hw_walk_leaf va pa perm :
  0 <= va < MAXVA -> is_frame pa -> 0 <= perm < 2 ^ 10 -> has perm PTE_R = true ->
  leaf m tb (va / 4096) = mkpte pa perm -> hw_walk 2 m root va = Some (mkpte pa perm, 0%nat).
Proof using kend_pos Hpt.
  intros Hva Hf Hp Hr Hl; unfold leaf in Hl; destruct (vpn_split va Hva) as [E1 E2]; rewrite E1, E2 in Hl.
  destruct (tb !! (0%nat, va / 2 ^ 21)) as [b0|] eqn:B0; [|by pose proof (mkpte_V pa perm Hf Hp) as Hv; rewrite <- Hl in Hv].
  rewrite <- tix_0 in B0 by lia.
  destruct (pt_up _ _ _ _ Hpt 0 _ ltac:(lia) ltac:(by eexists)) as [b1 B1]; rewrite tix_up in B1 by lia.
  pose proof (pt_root _ _ _ _ Hpt) as B2.
  rewrite (hw_walk_table 1 0 root va b1 B2) by (by rewrite <- (tix_2 va Hva), <- tix_step by lia).
  rewrite (hw_walk_table 0 (tix 1 va) b1 va b0 B1) by (by rewrite <- tix_step by lia).
  cbn [hw_walk]; change (Z.of_nat 0) with 0; rewrite Hl, mkpte_V, pte_small by done.
  unfold PTE_R, PTE_W, PTE_X in *; rewrite !mkpte_bit by (done || lia); rewrite Hr; done.
Qed.

Lemma satp_fields : page_ok kend root ->
  Z.shiftr (MAKE_SATP root) 60 = 8 /\ Z.shiftl (Z.land (MAKE_SATP root) (Z.ones 44)) 12 = root.
Proof using kend_pos.
  intros Hr; destruct (page_pos kend kend_pos root Hr) as (H1 & H2 & H3); unfold MAKE_SATP, SATP_SV39.
  rewrite !Z.shiftl_mul_pow2, !Z.shiftr_div_pow2, Z.land_ones by lia.
  assert (0 <= root / 2 ^ 12 < 2 ^ 44) by (split; [apply Z.div_pos|apply Z.div_lt_upper_bound]; lia).
  rewrite (lor_add 8 _ 60) by lia; split.
  - rewrite Z.div_add_l, Z.div_small by lia; lia.
  - replace (8 * 2 ^ 60) with (8 * 2 ^ 16 * 2 ^ 44) by done.
    rewrite Z.add_comm, Z.mod_add, Z.mod_small by lia; change (2 ^ 12) with 4096; pose proof (Z.div_mod root 4096); lia.
Qed.

Lemma translate_leaf s acc va pa perm :
  ram s = m -> satp_reg s = MAKE_SATP root -> privilege s <> 3 ->
  0 <= va < MAXVA -> is_frame pa -> 0 <= perm < 2 ^ 10 -> has perm PTE_R = true ->
  leaf m tb (va / 4096) = mkpte pa perm -> allowed s acc (mkpte pa perm) = true ->
  translate s acc va = Some (pa + va mod 4096).
Proof using kend_pos Hpt.
  intros Hm Hs Hpr Hva Hf Hp Hr Hl Ha; unfold translate; rewrite Hm, Hs.
  destruct (satp_fields (pt_page _ _ _ _ Hpt _ _ (pt_root _ _ _ _ Hpt))) as [-> ->].
  rewrite (hw_walk_leaf va pa perm) by done.
  replace (Z.shiftr va 38) with 0 by (rewrite Z.shiftr_div_pow2, Z.div_small by (rewrite MAXVA_eq in Hva; lia); done).
  replace (privilege s =? 3) with false by lia; cbn [Z.eqb orb negb Pos.eqb]; rewrite Ha, mkpte_pa by done.
  change (2 ^ (12 + 9 * Z.of_nat 0)) with 4096; destruct Hf as [_ ->]; done.
Qed.
End pt.

(** Bytes that the page table maps for reading and writing, outside its own
    pages. *)
Lemma leaf_window kend s root tb va a n :
  0 < kend -> privilege s = 1 -> satp_reg s = MAKE_SATP root -> pt_inv kend (ram s) root tb ->
  va mod 8 = 0 -> 0 <= va -> va + n <= MAXVA ->
  (forall o, 0 <= o < n -> exists pa, is_frame pa /\ leaf (ram s) tb ((va + o) / 4096) = mkpte pa RW /\
     pa + (va + o) mod 4096 = a + o) ->
  (forall x q, a <= x < a + n -> is_table tb q -> ~ in_page q x) ->
  window s va a n.
Proof.
  intros Hk Hp Hs Hi H8 H0 Hv Hl Ht m acc o Hm Hacc Ho1 Ho2 Ho8.
  assert (E : u64 (va + o) = va + o) by (apply u64_small; rewrite MAXVA_eq in Hv; lia); rewrite E.
  split; [by rewrite Z.add_mod, H8, Ho8 by lia|].
  set (P := fun q => q mod 4096 = 0 /\ exists x, a <= x < a + n /\ in_page q x).
  assert (Hf : frame P (ram s) m).
  { intros x Hx; apply Hm; intros Hr; apply (Hx (x - x mod 4096)); [split; [|exists x; split; [done|]]|];
      unfold in_page; pose proof (Z.div_mod x 4096); pose proof (Z.mod_pos_bound x 4096); try lia.
    replace (x - x mod 4096) with (x / 4096 * 4096) by lia; apply Z.mod_mul; lia. }
  assert (HP : forall q, P q -> q mod 4096 = 0 /\ ~ is_table tb q) by (intros q (Hq & x & Hx & Hin); split; [done|]; intros Hq'; by apply (Ht x q)).
  destruct (Hl o ltac:(lia)) as (pa & Hfr & Hleaf & Hpa).
  assert (Hr : 0 <= RW < 2 ^ 10) by (split; [discriminate|reflexivity]).
  rewrite <- Hpa; eapply (translate_leaf kend Hk m root tb) with (perm := RW); try done; [by eapply pt_inv_frame| | | |].
  - cbn; lia.
  - lia.
  - by rewrite (leaf_frame kend P (ram s) m root).
  - unfold allowed; cbn; rewrite Hp; cbn; unfold PTE_U, PTE_R, PTE_W, PTE_X; rewrite !mkpte_bit by (done || lia).
    by destruct Hacc as [-> | ->].
Qed.

(** ** Traps from user space *)

Section trampoline.
Variable kend : Z.
Hypothesis kend_pos : 0 < kend.

(** The page table at [root] maps the trap frame at [tf]. *)
Record has_frame (m : mem) (root tf : Z) (tb : tables) : Prop := HasFrame {
  hf_table : pt_inv kend m root tb;
  hf_leaf : leaf m tb (TRAPFRAME / 4096) = mkpte tf RW;
  hf_page : page_ok kend tf;
  hf_apart : ~ is_table tb tf
}.

Lemma has_frame_ext m m' root tf tb :
  has_frame m root tf tb -> (forall x, ~ in_page tf x -> m' x = m x) -> has_frame m' root tf tb.
Proof using.
  intros [H1 H2 H3 H4] Hm.
  assert (Hf : frame (fun q => q = tf) m m') by (intros x Hx; apply Hm, Hx; done).
  assert (HP : forall q, q = tf -> q mod 4096 = 0 /\ ~ is_table tb q) by (intros q ->; split; [apply H3|done]).
  split; [by eapply pt_inv_frame| |done|done].
  by rewrite (leaf_frame kend (fun q => q = tf) m m' root).
Qed.

Lemma frame_window s root tf tb :
  has_frame (ram s) root tf tb -> satp_reg s = MAKE_SATP root -> privilege s = 1 -> window s TRAPFRAME tf 288.
Proof using kend_pos.
  intros [T1 T2 T3 T4] Hs Hp; change TRAPFRAME with (67108862 * 4096) in *.
  eapply (leaf_window kend s root tb); try done.
  - intros o Ho; exists tf; split; [by apply page_frame with kend|].
    rewrite Z.div_add_l, (Z.div_small o), Z.add_0_r, (Z.add_comm _ o), Z.mod_add, Z.mod_small by lia; done.
  - intros x q Hx Hq Hin; apply T4; replace tf with q; [done|]; destruct Hq as [k Hk].
    apply (in_page_inj q tf x); [by destruct (pt_page _ _ _ _ T1 _ _ Hk)|apply T3|done|unfold in_page; lia].
Qed.

(** The registers in the order of the assembly, at their places in struct
    trapframe. *)
Definition saved : list (reg * Z) :=
  (fun r => (r, trapframe_off r)) <$> filter (fun r => r <> Zero /\ r <> A0) all_regs.

Lemma saved_slots : slots 288 saved.
Proof using. apply (bool_decide_unpack _); vm_compute; done. Qed.

Lemma saved_regs : NoDup saved.*1 /\ A0 ∉ saved.*1.
Proof using. split; apply (bool_decide_unpack _); vm_compute; done. Qed.

Lemma saved_elem r : r <> Zero -> r <> A0 -> (r, trapframe_off r) ∈ saved.
Proof using.
  intros Hz Ha; apply list_elem_of_fmap; exists r; split; [done|]; apply list_elem_of_filter; split; [done|].
  destruct r; vm_compute; repeat (left || right); done.
Qed.

Definition uservec_end : list instr := [ Sfence; Csrw Satp T1; Sfence; Jr T0 ].
Definition kernel_words : list (reg * Z) := [ (Sp, 8); (Tp, 32); (T0, 16); (T1, 0) ].

Lemma uservec_eq :
  uservec = Csrw Sscratch A0 :: Li A0 TRAPFRAME :: saves A0 saved ++
    (Csrr T0 Sscratch :: saves A0 [(T0, 112)] ++ restores A0 kernel_words ++ uservec_end).
Proof using. vm_compute; reflexivity. Qed.

Lemma userret_eq :
  userret = Sfence :: Csrw Satp A0 :: Sfence :: Li A0 TRAPFRAME :: restores A0 saved ++ [ Ld A0 112 A0; Sret ].
Proof using. vm_compute; reflexivity. Qed.

Lemma slots_kernel : slots 288 kernel_words /\ A0 ∉ kernel_words.*1 /\ slots 288 [(T0, 112)].
Proof using. split_and!; apply (bool_decide_unpack _); vm_compute; done. Qed.

(** The memory [uservec] leaves. *)
Definition saved_ram (g : reg -> Z) (tf : Z) (m : mem) : mem :=
  store64 (store_all (<[A0 := TRAPFRAME]> g) tf saved m) (tf + 112) (g A0).

Lemma saved_ram_out g tf m x : ~ (tf <= x < tf + 288) -> saved_ram g tf m x = m x.
Proof using.
  intros Hx; unfold saved_ram; rewrite store64_out by lia.
  by rewrite (store_all_out _ _ 288) by (done || apply saved_slots).
Qed.

Lemma saved_above : Forall (fun '(_, o) => 40 <= o /\ o <> 112) saved.
Proof using. apply (bool_decide_unpack _); vm_compute; done. Qed.

Lemma saved_ram_low g tf m o : 0 <= o <= 32 -> load64 (saved_ram g tf m) (tf + o) = load64 m (tf + o).
Proof using.
  intros Ho; unfold saved_ram; rewrite load64_store64_disj by lia; apply store_all_other.
  intros r o' Hx; pose proof saved_above as Hf; rewrite Forall_forall in Hf; specialize (Hf _ Hx); cbn in Hf; lia.
Qed.

Lemma saved_ram_get g tf m r :
  (forall r, 0 <= g r < 2 ^ 64) -> r <> Zero -> load64 (saved_ram g tf m) (tf + trapframe_off r) = g r.
Proof using.
  intros Hg Hz; unfold saved_ram; destruct (decide (r = A0)) as [->|Ha]; [by apply load64_store64_same|].
  rewrite load64_store64_disj by (destruct r; cbn [trapframe_off]; try lia; done).
  rewrite (store_all_get _ tf 288 _ _ r) by (apply saved_slots || (by apply saved_elem) || (by rewrite fn_lookup_insert_ne)).
  by rewrite fn_lookup_insert_ne.
Qed.

Lemma uservec_end_run pc g s :
  privilege s = 1 -> exec_code pc uservec_end (set_xs g s) =
    (Z.land (g T0) (Z.lnot 1), Hw g 1 (g T1) (sscratch s) (mhartid s) (scsr s) (ram s)).
Proof using. destruct s; cbn; by intros ->. Qed.

Lemma uservec_run pc s root tf tb :
  has_frame (ram s) root tf tb -> satp_reg s = MAKE_SATP root -> privilege s = 1 ->
  exists g, exec_code pc uservec s = (Z.land (load64 (ram s) (tf + 16)) (Z.lnot 1),
      Hw g 1 (load64 (ram s) tf) (xs s A0) (mhartid s) (scsr s) (saved_ram (xs s) tf (ram s))) /\
    g Sp = load64 (ram s) (tf + 8) /\ g Tp = load64 (ram s) (tf + 32).
Proof using kend_pos.
  intros Hh Hs Hp; rewrite uservec_eq.
  rewrite (exec_next _ _ _ _ (set_sscratch (xs s A0) s)) by (cbn [exec_instr]; by rewrite Hp).
  set (s0 := set_x A0 TRAPFRAME (set_sscratch (xs s A0) s)); rewrite (exec_next _ _ _ _ s0) by done.
  assert (W0 : window s0 (get_x A0 s0) tf 288) by (eapply (frame_window s0 root tf tb); done).
  destruct (exec_saves A0 tf 288 saved s0 (u64 (u64 (pc + 4) + 4)) (Csrr T0 Sscratch :: saves A0 [(T0, 112)] ++ restores A0 kernel_words ++ uservec_end)
    W0 saved_slots) as [pc1 ->].
  set (m1 := store_all (xs s0) tf saved (ram s0)).
  set (s1 := set_xs (<[T0 := xs s A0]> (xs s0)) (set_ram m1 s0)).
  rewrite (exec_next _ _ _ _ s1) by (cbn [exec_instr privilege set_ram]; change (privilege s0) with (privilege s); by rewrite Hp).
  assert (W1 : window s1 (get_x A0 s1) tf 288).
  { apply (window_regs (set_ram m1 s0)), (window_ram s0 m1); [exact W0|]; intros x Hx; unfold m1; by rewrite (store_all_out _ _ 288) by (done || apply saved_slots). }
  destruct slots_kernel as (Hk & Hka & Ht).
  destruct (exec_saves A0 tf 288 [(T0, 112)] s1 (u64 (pc1 + 4)) (restores A0 kernel_words ++ uservec_end) W1 Ht) as [pc2 ->].
  set (m2 := store_all (xs s1) tf [(T0, 112)] (ram s1)).
  assert (W2 : window (set_ram m2 s1) (get_x A0 (set_ram m2 s1)) tf 288).
  { apply (window_ram s1 m2); [exact W1|]; intros x Hx; unfold m2; by rewrite (store_all_out _ _ 288). }
  destruct (exec_restores A0 tf 288 kernel_words (set_ram m2 s1) W2 Hk Hka pc2 uservec_end) as [pc3 ->].
  assert (Em : m2 = saved_ram (xs s) tf (ram s)).
  { unfold m2; cbn [store_all foldl]; change (xs s1 T0) with (<[T0 := xs s A0]> (xs s0) T0); rewrite fn_lookup_insert.
    unfold saved_ram; f_equal. }
  clearbody m2; subst m2; set (m2 := saved_ram (xs s) tf (ram s)).
  assert (El : forall r o, (r, o) ∈ kernel_words ->
    load_all m2 tf kernel_words (xs s1) r = load64 (ram s) (tf + o)).
  { intros r o Hx; rewrite (load_all_get _ _ _ _ r o) by (done || (apply (bool_decide_unpack _); vm_compute; done)).
    apply saved_ram_low; apply elem_of_cons in Hx; rewrite !elem_of_cons, elem_of_nil in Hx; naive_solver lia. }
  exists (load_all m2 tf kernel_words (xs s1)); split_and!; [|apply El; set_solver..].
  set (g := load_all m2 tf kernel_words (xs s1)) in *.
  assert (H0 : g T0 = load64 (ram s) (tf + 16)) by (apply El; set_solver).
  assert (H1 : g T1 = load64 (ram s) tf) by (rewrite (El T1 0) by set_solver; by rewrite Z.add_0_r).
  change (ram (set_ram m2 s1)) with m2; change (xs (set_ram m2 s1)) with (xs s1); fold g.
  rewrite uservec_end_run by done; rewrite H0, H1; cbn [ram sscratch mhartid scsr set_ram]; done.
Qed.

(** sstatus after sret. *)
Definition sret_status (st : Z) : Z :=
  let st' := Z.land st (Z.lnot (Z.lor SSTATUS_SPP SSTATUS_SIE)) in
  Z.lor (if has st SSTATUS_SPIE then Z.lor st' SSTATUS_SIE else st') SSTATUS_SPIE.

Lemma userret_end pc s tf :
  window s (get_x A0 s) tf 288 -> privilege s = 1 ->
  exec_code pc [ Ld A0 112 A0; Sret ] s = (sepc (scsr s),
    Hw (<[A0 := load64 (ram s) (tf + 112)]> (xs s)) (if has (sstatus (scsr s)) SSTATUS_SPP then 1 else 0) (satp_reg s)
      (sscratch s) (mhartid s) (w_sstatus (sret_status (sstatus (scsr s))) (scsr s)) (ram s)).
Proof using.
  intros Hw Hp; destruct (Hw (ram s) Load 112 ltac:(done) ltac:(by left) ltac:(lia) ltac:(lia) ltac:(done)) as [Ha Ht].
  replace (set_ram (ram s) s) with s in Ht by (by destruct s).
  rewrite (exec_next _ _ _ _ (set_x A0 (load64 (ram s) (tf + 112)) s)) by (cbn [exec_instr]; rewrite Ha, Ht; done).
  apply exec_jump; cbn [exec_instr]; change (privilege (set_x _ _ s)) with (privilege s); rewrite Hp; done.
Qed.

Lemma userret_run pc s root tf tb :
  has_frame (ram s) root tf tb -> xs s A0 = MAKE_SATP root -> privilege s = 1 ->
  exists g, exec_code pc userret s = (sepc (scsr s),
      Hw g (if has (sstatus (scsr s)) SSTATUS_SPP then 1 else 0) (MAKE_SATP root) (sscratch s) (mhartid s)
        (w_sstatus (sret_status (sstatus (scsr s))) (scsr s)) (ram s)) /\
    forall r, r <> Zero -> g r = load64 (ram s) (tf + trapframe_off r).
Proof using kend_pos.
  intros Hh Ha Hp; rewrite userret_eq.
  rewrite (exec_next _ _ _ _ s) by (cbn [exec_instr]; by rewrite Hp).
  set (s1 := set_satp (MAKE_SATP root) s).
  rewrite (exec_next _ _ _ _ s1) by (cbn [exec_instr]; rewrite Hp; change (get_x A0 s) with (xs s A0); by rewrite Ha).
  rewrite (exec_next _ _ _ _ s1) by (cbn [exec_instr]; change (privilege s1) with (privilege s); by rewrite Hp).
  set (s2 := set_x A0 TRAPFRAME s1); rewrite (exec_next _ _ _ _ s2) by done.
  assert (W : window s2 (get_x A0 s2) tf 288) by (eapply (frame_window s2 root tf tb); done).
  destruct saved_regs as [Hn Hna]; match goal with |- context [exec_code ?p (restores A0 saved ++ ?l) s2] =>
    destruct (exec_restores A0 tf 288 saved s2 W saved_slots Hna p l) as [pc1 ->] end.
  set (g := load_all (ram s2) tf saved (xs s2)).
  assert (Eg : get_x A0 (set_xs g s2) = get_x A0 s2) by (apply (load_all_other (ram s2) tf saved (xs s2) A0 Hna)).
  rewrite (userret_end _ (set_xs g s2) tf) by (done || (rewrite Eg; exact W)).
  exists (<[A0 := load64 (ram s) (tf + 112)]> g); split; [done|]; intros r Hr.
  destruct (decide (r = A0)) as [->|Hr0]; [by rewrite fn_lookup_insert|].
  rewrite fn_lookup_insert_ne by done; apply (load_all_get _ _ _ _ r); [exact Hn|by apply saved_elem].
Qed.
End trampoline.

(** ** From user space to the kernel and back *)

Definition regs_ok (s : hw) : Prop := forall r, 0 <= xs s r < 2 ^ 64.

(** A hart in user space with the address space of a process whose page table
    is at [root] and whose trap frame is at [tf]. *)
Record in_user (kend : Z) (s : hw) (root tf : Z) (tb : tables) : Prop := InUser {
  iu_mode : privilege s = 0;
  iu_satp : satp_reg s = MAKE_SATP root;
  iu_regs : regs_ok s;
  iu_frame : has_frame kend (ram s) root tf tb
}.

Lemma spp_clear st : Z.testbit st 8 = false -> has st SSTATUS_SPP = false.
Proof.
  intros H; unfold has, truth, SSTATUS_SPP; apply negb_false_iff, Z.eqb_eq, Z.bits_inj'; intros i Hi.
  rewrite Z.land_spec, Z.bits_0, Z.shiftl_1_l, Z.pow2_bits_eqb by lia.
  destruct (Z.eqb_spec 8 i) as [<-|]; [by rewrite H|by rewrite andb_false_r].
Qed.

Section getpid.
Variable kend trampoline forkret_pc uservec_pc userret_pc kernelvec_pc usertrap_pc time claim : Z.
Variable stat_pad : list Z.
Variable msgtyp_hi : Z.
Variable devread devwrite : Z -> option (Z -> Z -> M filest Z).
Hypothesis kend_pos : 0 < kend.
#[local] Abbreviation user_trap :=
  (user_trap kend trampoline forkret_pc uservec_pc userret_pc kernelvec_pc usertrap_pc time claim stat_pad msgtyp_hi devread devwrite).

Lemma enter_tmem s k : tmem (enter_kernel s k) = ram s.
Proof using. done. Qed.
Lemma enter_procs s k : tprocs (enter_kernel s k) = tprocs k.
Proof using. done. Qed.

Lemma trap_spp cause tval pc s :
  privilege s = 0 -> Z.land (sstatus (scsr (take_trap cause tval pc s).2)) SSTATUS_SPP = 0.
Proof using.
  intros Hp; cbn; rewrite Hp; cbn [Z.eqb]; apply Z.bits_inj'; intros i Hi; rewrite Z.land_spec, Z.bits_0.
  destruct (decide (i = 8)) as [->|]; [|unfold SSTATUS_SPP; rewrite Z.shiftl_1_l, Z.pow2_bits_eqb by lia].
  - case_match; rewrite ?Z.lor_spec, Z.land_spec, ?andb_false_r; done.
  - replace (8 =? i) with false by lia; by rewrite andb_false_r.
Qed.

(** The state in which usertrap starts. *)
Definition kernel_entry (g : reg -> Z) (tf : Z) (s : hw) : hw :=
  Hw g 1 (load64 (ram s) tf) (xs s A0) (mhartid s) (scsr s) (saved_ram (xs s) tf (ram s)).

Lemma user_trap_run x me c k s root tf tb c' k' va :
  has_frame kend (ram s) root tf tb -> satp_reg s = MAKE_SATP root -> privilege s = 1 ->
  load64 (ram s) (tf + TF_KERNEL_TRAP) = usertrap_pc -> Z.land usertrap_pc (Z.lnot 1) = usertrap_pc ->
  (forall g, g Tp = load64 (ram s) (tf + 32) ->
    usertrap kend trampoline forkret_pc uservec_pc userret_pc kernelvec_pc usertrap_pc (load64 (ram s) tf) (g Tp) time claim
      stat_pad msgtyp_hi devread devwrite me c (enter_kernel (kernel_entry g tf s) k) =
    Ret (ToUser va (MAKE_SATP root)) c' k') ->
  has_frame kend (tmem k') root tf tb -> Z.testbit (sstatus (csr k')) 8 = false ->
  exists s', user_trap x me c k s = Some (sepc (csr k'), s', c', k') /\ privilege s' = 0 /\ satp_reg s' = MAKE_SATP root /\
    ram s' = tmem k' /\ stvec (scsr s') = stvec (csr k') /\
    forall r, r <> Zero -> xs s' r = load64 (tmem k') (tf + trapframe_off r).
Proof using kend_pos.
  intros Hf Hs Hp Ht He Hrun Hf' Hspp; unfold Asm.user_trap.
  destruct (uservec_run kend kend_pos (stvec (scsr s)) s root tf tb Hf Hs Hp) as (g & -> & _ & Gt).
  change (tf + 16) with (tf + TF_KERNEL_TRAP); rewrite Ht, He, Z.eqb_refl; cbn [negb].
  fold (kernel_entry g tf s); specialize (Hrun g Gt).
  change (satp_reg (kernel_entry g tf s)) with (load64 (ram s) tf); change (xs (kernel_entry g tf s) Tp) with (g Tp); rewrite Hrun.
  set (l := leave_kernel x (MAKE_SATP root) (kernel_entry g tf s) k').
  destruct (userret_run kend kend_pos va l root tf tb Hf') as (g' & -> & Hg); [apply fn_lookup_insert|done|].
  eexists; split; [reflexivity|]; cbn [privilege satp_reg ram scsr xs].
  change (scsr l) with (csr k'); rewrite spp_clear by done; split_and!; done.
Qed.

Lemma stub_traps num pc s :
  privilege s = 0 ->
  exec_code pc (usys_entry num) s = (stvec (scsr s), (take_trap 8 0 (u64 (pc + 4)) (set_x A7 (u64 num) s)).2).
Proof using.
  intros Hp; unfold usys_entry; rewrite (exec_next _ _ _ _ (set_x A7 (u64 num) s)) by done.
  apply exec_jump; cbn [exec_instr]; change (privilege (set_x _ _ s)) with (privilege s); by rewrite Hp.
Qed.

Lemma getpid_kernel me p c k s0 pc g tb :
  let tf := p_trapframe p in let s := (take_trap 8 0 (u64 pc) s0).2 in
  tprocs k !! me = Some p -> p_state p = RUNNING -> p_killed p = 0 -> Z.land (p_pending p) 4 = 0 ->
  0 <= p_pid p < 2 ^ 31 -> O_proc me ∉ held c -> regs_ok s0 -> xs s0 A7 = SYS_getpid -> privilege s0 = 0 ->
  has_frame kend (ram s0) (p_pagetable p) tf tb ->
  exists k', usertrap kend trampoline forkret_pc uservec_pc userret_pc kernelvec_pc usertrap_pc (load64 (ram s) tf) (g Tp) time claim
      stat_pad msgtyp_hi devread devwrite me c (enter_kernel (kernel_entry g tf s) k) =
    Ret (ToUser (u64 (TRAMPOLINE + (userret_pc - trampoline))) (MAKE_SATP (p_pagetable p))) c k' /\
    sepc (csr k') = u64 (u64 pc + 4) /\ stvec (csr k') = u64 (TRAMPOLINE + (uservec_pc - trampoline)) /\
    Z.testbit (sstatus (csr k')) 8 = false /\ has_frame kend (tmem k') (p_pagetable p) tf tb /\
    (forall r, r <> Zero -> load64 (tmem k') (tf + trapframe_off r) = if decide (r = A0) then p_pid p else xs s0 r) /\
    tprocs k' = tprocs k /\ (forall a, ~ (tf <= a < tf + TF_SIZE) -> tmem k' a = ram s0 a).
Proof using.
  intros tf s Hp Hst Hk Hpend Hpid Hc Hr H7 Hm Hf.
  destruct (getpid_trap kend trampoline forkret_pc uservec_pc userret_pc kernelvec_pc usertrap_pc (load64 (ram s) tf) (g Tp) time claim
    stat_pad msgtyp_hi devread devwrite me p c (enter_kernel (kernel_entry g tf s) k)) as
    (k' & Hrun & R0 & R1 & R2 & R3 & _ & _ & R4 & R5 & R6); try done.
  - by apply trap_spp.
  - apply u64_range.
  - rewrite enter_tmem; change (p_trapframe p + TF_A7) with (tf + trapframe_off A7).
    change (ram (kernel_entry g tf s)) with (saved_ram (xs s0) tf (ram s0)).
    rewrite saved_ram_get by done; by rewrite H7.
  - rewrite enter_tmem in R4, R6; change (ram (kernel_entry g tf s)) with (saved_ram (xs s0) tf (ram s0)) in R4, R6.
    assert (Hout : forall a, ~ (tf <= a < tf + TF_SIZE) -> tmem k' a = ram s0 a).
    { intros a Ha; rewrite R6 by done; by apply saved_ram_out. }
    exists k'; split_and!; try done.
    + eapply has_frame_ext; [exact Hf|]; intros a Ha; apply Hout; unfold in_page, TF_SIZE in *; lia.
    + intros r Hz; case_decide as Ha; [by subst r|].
      rewrite R4; [by apply saved_ram_get|destruct r; cbn; (done || lia)|by destruct r|by destruct r].
Qed.

(** C12: a user program, not killed and without a pending SIGINT, calls
    getpid. From the first instruction of the stub
    through the trap, trampoline, kernel and back to the instruction after the
    call: a0 holds the pid, a7 the number of the system call, every other
    register is as it was; the hart is in user space on the same page table,
    ready for the next trap, and memory outside the trap frame and the process
    table are unchanged.  [x] is whatever compiled code left in registers. *)
Theorem getpid_user x me p c k pc s tb :
  let tf := p_trapframe p in
  tprocs k !! me = Some p -> p_state p = RUNNING -> p_killed p = 0 -> Z.land (p_pending p) 4 = 0 ->
  0 <= p_pid p < 2 ^ 31 -> O_proc me ∉ held c ->
  in_user kend s (p_pagetable p) tf tb ->
  load64 (ram s) (tf + TF_KERNEL_TRAP) = usertrap_pc -> Z.land usertrap_pc (Z.lnot 1) = usertrap_pc ->
  exists s1 s2 k' s3,
    exec_code pc (usys_entry SYS_getpid) s = (stvec (scsr s), s1) /\
    user_trap x me c k s1 = Some (u64 (u64 (pc + 4) + 4), s2, c, k') /\
    exec_code (u64 (u64 (pc + 4) + 4)) (drop 2 (usys_entry SYS_getpid)) s2 = (Z.land (xs s Ra) (Z.lnot 1), s3) /\
    xs s3 A0 = p_pid p /\ xs s3 A7 = SYS_getpid /\
    (forall r, r <> Zero -> r <> A0 -> r <> A7 -> xs s3 r = xs s r) /\
    privilege s3 = 0 /\ satp_reg s3 = satp_reg s /\ has_frame kend (ram s3) (p_pagetable p) tf tb /\
    stvec (scsr s3) = u64 (TRAMPOLINE + (uservec_pc - trampoline)) /\
    (forall a, ~ (tf <= a < tf + TF_SIZE) -> ram s3 a = ram s a) /\ tprocs k' = tprocs k.
Proof using kend_pos.
  intros tf Hp Hst Hk Hpend Hpid Hc [U1 U2 U3 U4] Htrap Heven.
  set (s0 := set_x A7 SYS_getpid s); set (s1 := (take_trap 8 0 (u64 (pc + 4)) s0).2).
  assert (R0 : regs_ok s0).
  { intros r; unfold s0, set_x; rewrite decide_False by done; cbn; unfold insert, fn_insert; case_decide; [done|apply U3]. }
  assert (X7 : xs s0 A7 = SYS_getpid) by (apply fn_lookup_insert).
  destruct (getpid_kernel me p c k s0 (pc + 4) (fun _ => load64 (ram s1) (tf + 32)) tb Hp Hst Hk Hpend Hpid Hc R0 X7 U1 U4)
    as (k' & K0 & K1 & K2 & K3 & K4 & K5 & K6 & K7).
  destruct (user_trap_run x me c k s1 (p_pagetable p) tf tb c k' (u64 (TRAMPOLINE + (userret_pc - trampoline)))
    U4 U2 eq_refl Htrap Heven) as (s2 & X2 & M1 & M2 & M3 & M4 & M5); [|exact K4|exact K3|].
  { intros g Hg; rewrite Hg; exact K0. }
  rewrite K1 in X2; exists s1, s2, k', s2; split_and!; [by apply stub_traps|exact X2| |..].
  - cbn [drop usys_entry exec_code exec_instr]; change (get_x Ra s2) with (xs s2 Ra).
    by rewrite M5, K5 by done.
  - by rewrite M5, K5 by done.
  - by rewrite M5, K5 by done.
  - intros r Hz Ha H7; rewrite M5, K5, decide_False by done; unfold s0, set_x; rewrite decide_False by done.
    by apply fn_lookup_insert_ne.
  - done.
  - by rewrite M2, U2.
  - by rewrite M3.
  - by rewrite M4.
  - intros a Ha; rewrite M3; by apply K7.
  - done.
Qed.
End getpid.

(** ** Context switches *)

Section kernel.
Variables kend etext trampoline : Z.
Hypothesis kend_pos : 0 < kend.
Hypothesis Hetext : etext mod 4096 = 0 /\ KERNBASE < etext < PHYSTOP.

(** A hart in the kernel on the kernel's page table. *)
Record in_kernel (s : hw) : Prop := InKernel {
  ik_mode : privilege s = 1;
  ik_regs : regs_ok s;
  ik_table : exists root tb stacks, satp_reg s = MAKE_SATP root /\ pt_inv kend (ram s) root tb /\
    forall v, leaf (ram s) tb v = kmap etext trampoline stacks v
}.

(** [n] bytes of the kernel's data. *)
Definition kernel_data (a n : Z) : Prop := a mod 8 = 0 /\ etext <= a /\ a + n <= kend.

Lemma data_window s a n : in_kernel s -> kend <= PHYSTOP -> 0 <= n -> kernel_data a n -> window s a a n.
Proof using kend_pos Hetext.
  intros [H1 _ (root & tb & stacks & H2 & H3 & H4)] Hk Hn (Ha & Hlo & Hhi); destruct Hetext as [He0 He1].
  assert (HP : PHYSTOP = 0x88000000) by done; assert (HM : MAXVA = 274877906944) by done; unfold KERNBASE in He1.
  eapply (leaf_window kend s root tb); try done; try lia.
  - intros o Ho; set (x := a + o); pose proof (Z.div_mod x 4096 ltac:(lia)); pose proof (Z.mod_pos_bound x 4096 ltac:(lia)).
    assert (etext <= 4096 * (x / 4096)).
    { pose proof (Z.div_mod etext 4096 ltac:(lia)); assert (etext / 4096 <= x / 4096) by (apply Z.div_le_mono; lia); lia. }
    exists (4096 * (x / 4096)); split_and!; [split; [lia|]| |lia].
    + rewrite Z.mul_comm; apply Z.mod_mul; lia.
    + rewrite H4; unfold kmap, UART0, VIRTIO0, PLIC, KERNBASE; rewrite !decide_False, decide_True by lia; done.
  - intros x q Hx [k Hq] Hin; destruct (pt_page _ _ _ _ H3 _ _ Hq) as [_ Hq']; unfold in_page in Hin; lia.
Qed.

(** struct context. *)
Definition context : list (reg * Z) := omap (fun r => (r,.) <$> context_off r) all_regs.

Lemma swtch_eq : swtch = saves A0 context ++ restores A1 context ++ [ Jr Ra ].
Proof using. vm_compute; reflexivity. Qed.

Lemma context_slots : slots 112 context /\ NoDup context.*1 /\ A1 ∉ context.*1.
Proof using. split_and!; apply (bool_decide_unpack _); vm_compute; done. Qed.

Lemma context_elem r o : (r, o) ∈ context <-> context_off r = Some o.
Proof using.
  unfold context; rewrite list_elem_of_omap; split.
  - intros (r' & _ & H); destruct (context_off r') as [o'|] eqn:E; [|done]; by injection H as -> ->.
  - intros H; exists r; split; [destruct r; vm_compute; repeat (left || right); done|by rewrite H].
Qed.

Lemma context_regs r : r ∉ context.*1 <-> context_off r = None.
Proof using.
  rewrite list_elem_of_fmap; split.
  - intros H; destruct (context_off r) as [o|] eqn:E; [|done]; destruct H; exists (r, o); split; [done|]; by apply context_elem.
  - intros H ([r' o] & -> & Hx); apply context_elem in Hx; cbn in H; congruence.
Qed.

(** The state a call of swtch leaves. *)
Definition switched (s : hw) : hw :=
  let m := store_all (xs s) (xs s A0) context (ram s) in
  set_xs (load_all m (xs s A1) context (xs s)) (set_ram m s).

Lemma in_kernel_ram s m a n :
  in_kernel s -> kernel_data a n -> (forall x, ~ (a <= x < a + n) -> m x = ram s x) -> in_kernel (set_ram m s).
Proof using.
  intros [H1 H2 (root & tb & stacks & H3 & H4 & H5)] (_ & _ & Hd) Hm; split; [done|done|]; exists root, tb, stacks.
  set (P := fun q => q mod 4096 = 0 /\ q < kend).
  assert (Hf : frame P (ram s) m).
  { intros x Hx; apply Hm; intros Hr; apply (Hx (x / 4096 * 4096));
      pose proof (Z.div_mod x 4096); pose proof (Z.mod_pos_bound x 4096); [split; [apply Z.mod_mul|]|unfold in_page]; lia. }
  assert (HP : forall q, P q -> q mod 4096 = 0 /\ ~ is_table tb q).
  { intros q [Hq Hl]; split; [done|]; intros [k Hk]; destruct (pt_page _ _ _ _ H4 _ _ Hk); lia. }
  split_and!; [done|by eapply pt_inv_frame|]; intros v; cbn [ram set_ram].
  by rewrite (leaf_frame kend P (ram s) m root).
Qed.

Lemma swtch_run pc s :
  in_kernel s -> kend <= PHYSTOP -> kernel_data (xs s A0) 112 -> kernel_data (xs s A1) 112 ->
  exec_code pc swtch s = (Z.land (xs (switched s) Ra) (Z.lnot 1), switched s).
Proof using kend_pos Hetext.
  intros Hk Hp Ho Hn; destruct context_slots as (Hs & _ & H1); rewrite swtch_eq.
  destruct (exec_saves A0 (xs s A0) 112 context s pc (restores A1 context ++ [ Jr Ra ])) as [pc1 ->];
    [by apply data_window|done|].
  set (m := store_all (xs s) (xs s A0) context (ram s)).
  assert (Hm : forall x, ~ (xs s A0 <= x < xs s A0 + 112) -> m x = ram s x) by (intros x Hx; by apply (store_all_out _ _ 112)).
  destruct (exec_restores A1 (xs s A1) 112 context (set_ram m s)) with pc1 [ Jr Ra ] as [pc2 ->]; [|done|done|].
  - apply data_window; [by apply (in_kernel_ram s m (xs s A0) 112)|done|lia|done].
  - apply exec_jump; done.
Qed.

#[local] Abbreviation apart a b := (a + 112 <= b \/ b + 112 <= a).

Lemma context_bounds r o : context_off r = Some o -> 0 <= o /\ o + 8 <= 112.
Proof using. destruct r; cbn; intros [= <-]; lia. Qed.

Lemma switched_regs s r o :
  apart (xs s A0) (xs s A1) -> context_off r = Some o -> xs (switched s) r = load64 (ram s) (xs s A1 + o).
Proof using.
  intros Ha Hr; destruct context_slots as (_ & Hn & _).
  etransitivity; [apply (load_all_get _ _ context _ r o Hn); by apply context_elem|].
  apply store_all_other; intros r' o' Hx; apply context_elem, context_bounds in Hx; apply context_bounds in Hr; lia.
Qed.

Lemma switched_saved s r o :
  regs_ok s -> context_off r = Some o -> load64 (ram (switched s)) (xs s A0 + o) = xs s r.
Proof using.
  intros Hr Ho; destruct context_slots as (Hs & _).
  apply (store_all_get (xs s) (xs s A0) 112 context (ram s) r o); [done|by apply context_elem|done].
Qed.

(** C14: context switches. A kernel thread that calls swtch(old, new) leaves
    with the registers and the return address that were saved in [new], and
    stores only its own context in [old]; whenever a thread later calls
    swtch(x, old), on any hart and with [old] as it was left, the first one
    goes on after its call with all callee-saved registers as they were. *)
Theorem swtch_roundtrip pc s :
  let old := xs s A0 in let new := xs s A1 in
  kend <= PHYSTOP -> in_kernel s -> kernel_data old 112 -> kernel_data new 112 -> apart old new ->
  exists s1, exec_code pc swtch s = (Z.land (load64 (ram s) new) (Z.lnot 1), s1) /\
    (forall r o, context_off r = Some o -> xs s1 r = load64 (ram s) (new + o)) /\
    (forall r, context_off r = None -> xs s1 r = xs s r) /\
    (forall a, ~ (old <= a < old + 112) -> ram s1 a = ram s a) /\
    forall pc' t, in_kernel t -> kernel_data (xs t A0) 112 -> apart (xs t A0) old -> xs t A1 = old ->
      (forall a, old <= a < old + 112 -> ram t a = ram s1 a) ->
      exists t1, exec_code pc' swtch t = (Z.land (xs s Ra) (Z.lnot 1), t1) /\
        (forall r o, context_off r = Some o -> xs t1 r = xs s r) /\
        (forall r, context_off r = None -> xs t1 r = xs t r).
Proof using kend_pos Hetext.
  intros old new Hk Hs Ho Hn Ha; destruct context_slots as (Hc & _).
  assert (Hother : forall t r, context_off r = None -> xs (switched t) r = xs t r).
  { intros t r Hr; apply load_all_other; by apply context_regs. }
  exists (switched s); split_and!.
  - rewrite swtch_run by done; by rewrite (switched_regs s Ra 0), Z.add_0_r by done.
  - intros r o Hr; by apply switched_regs.
  - auto.
  - intros a Hx; by apply (store_all_out (xs s) old 112 context (ram s) a).
  - intros pc' t Ht H0 Ha' H1 Hm; exists (switched t).
    assert (Hback : forall r o, context_off r = Some o -> xs (switched t) r = xs s r).
    { intros r o Hr; rewrite (switched_regs t r o) by (done || by rewrite H1); rewrite H1.
      rewrite <- (switched_saved s r o) by (apply Hs || done); apply load64_ext; intros x Hx.
      apply Hm; apply context_bounds in Hr; lia. }
    split_and!; [|done|auto]; rewrite swtch_run by (done || by rewrite H1).
    by rewrite (Hback Ra 0).
Qed.
End kernel.

(** ** Interrupts in the kernel *)

(** The registers kernelvec saves, below the stack pointer, but sp itself. *)
Definition pushed : list (reg * Z) :=
  [ (Gp, 16); (Tp, 24); (T0, 32); (T1, 40); (T2, 48); (A0, 72); (A1, 80); (A2, 88); (A3, 96); (A4, 104); (A5, 112);
    (A6, 120); (A7, 128); (T3, 216); (T4, 224); (T5, 232); (T6, 240) ].
Definition popped : list (reg * Z) := filter (fun x => x.1 <> Tp) pushed.
Definition callee_saved : list reg := [ S0; S1; S2; S3; S4; S5; S6; S7; S8; S9; S10; S11 ].

Lemma kernelvec_eq kerneltrap :
  kernelvec kerneltrap = Addi Sp Sp (-256) :: saves Sp ((Ra, 0) :: (Sp, 8) :: pushed) ++ [ Call kerneltrap ].
Proof. reflexivity. Qed.

Lemma kernelvec_back_eq :
  kernelvec_back = restores Sp [(Ra, 0)] ++ Ld Sp 8 Sp :: restores Sp popped ++ [ Addi Sp Sp 256; Sret ].
Proof. reflexivity. Qed.

Lemma pushed_slots : slots 256 ((Ra, 0) :: (Sp, 8) :: pushed).
Proof. apply (bool_decide_unpack _); vm_compute; done. Qed.

Lemma popped_slots : slots 256 popped /\ NoDup popped.*1 /\ Sp ∉ popped.*1 /\ slots 256 [(Ra, 0)].
Proof. split_and!; apply (bool_decide_unpack _); vm_compute; done. Qed.

(** The state in which kerneltrap starts. *)
Definition pushed_ram (s : hw) (a : Z) : mem :=
  store_all (<[Sp := u64 (xs s Sp - 256)]> (xs s)) a ((Ra, 0) :: (Sp, 8) :: pushed) (ram s).

Lemma kernelvec_run pc kerneltrap s a :
  window s (u64 (xs s Sp - 256)) a 256 ->
  exists ra, exec_code pc (kernelvec kerneltrap) s = (kerneltrap,
    set_xs (<[Ra := ra]> (<[Sp := u64 (xs s Sp - 256)]> (xs s))) (set_ram (pushed_ram s a) s)).
Proof.
  intros Hw; rewrite kernelvec_eq; set (s1 := set_x Sp (u64 (xs s Sp - 256)) s).
  rewrite (exec_next _ _ _ _ s1) by done.
  destruct (exec_saves Sp a 256 ((Ra, 0) :: (Sp, 8) :: pushed) s1 (u64 (pc + 4)) [ Call kerneltrap ]) as [pc1 ->].
  - change (get_x Sp s1) with (<[Sp := u64 (xs s Sp - 256)]> (xs s) Sp); rewrite fn_lookup_insert; exact Hw.
  - apply pushed_slots.
  - eexists; apply exec_jump; reflexivity.
Qed.

Lemma kernelvec_back_run pc t a :
  privilege t = 1 -> window t (xs t Sp) a 256 -> load64 (ram t) (a + 8) = xs t Sp ->
  exists g, exec_code pc kernelvec_back t = (sepc (scsr t),
      Hw (<[Sp := u64 (xs t Sp + 256)]> g) (if has (sstatus (scsr t)) SSTATUS_SPP then 1 else 0) (satp_reg t) (sscratch t) (mhartid t)
        (w_sstatus (sret_status (sstatus (scsr t))) (scsr t)) (ram t)) /\
    (forall r o, (r, o) ∈ (Ra, 0) :: popped -> g r = load64 (ram t) (a + o)) /\
    (forall r, r ∉ (Ra, 0).1 :: popped.*1 -> g r = xs t r).
Proof.
  intros Hp Hw H8; rewrite kernelvec_back_eq; destruct popped_slots as (Hs & Hn & Hsp & Hra).
  destruct (exec_restores Sp a 256 [(Ra, 0)] t Hw Hra ltac:(by apply (bool_decide_unpack _))) with
    pc (Ld Sp 8 Sp :: restores Sp popped ++ [ Addi Sp Sp 256; Sret ]) as [pc1 ->].
  set (g1 := load_all (ram t) a [(Ra, 0)] (xs t)).
  assert (E1 : get_x Sp (set_xs g1 t) = xs t Sp) by (apply (load_all_other (ram t) a [(Ra, 0)] (xs t) Sp); by apply (bool_decide_unpack _)).
  set (g2 := <[Sp := xs t Sp]> g1).
  rewrite (exec_next _ _ _ _ (set_xs g2 t)).
  2:{ cbn [exec_instr]; rewrite E1.
      destruct (Hw (ram t) Load 8 ltac:(done) ltac:(by left) ltac:(lia) ltac:(lia) ltac:(done)) as [Ha Ht].
      change (translate (set_xs g1 t) Load) with (translate (set_ram (ram t) t) Load); rewrite Ha, Ht.
      change (ram (set_xs g1 t)) with (ram t); rewrite H8; done. }
  assert (E2 : get_x Sp (set_xs g2 t) = xs t Sp) by (apply fn_lookup_insert).
  destruct (exec_restores Sp a 256 popped (set_xs g2 t)) with (u64 (pc1 + 4)) [ Addi Sp Sp 256; Sret ] as [pc2 ->]; [by rewrite E2|done|done|].
  set (g := load_all (ram t) a popped g2).
  assert (E3 : g Sp = xs t Sp) by (unfold g; rewrite load_all_other by done; apply fn_lookup_insert).
  exists g; split_and!.
  - change (ram (set_xs g2 t)) with (ram t); change (xs (set_xs g2 t)) with g2; fold g.
    rewrite (exec_next _ _ _ _ (set_xs (<[Sp := u64 (xs t Sp + 256)]> g) t)) by (cbn [exec_instr]; change (get_x Sp _) with (g Sp); by rewrite E3).
    apply exec_jump; cbn [exec_instr]; change (privilege (set_xs _ t)) with (privilege t); by rewrite Hp.
  - intros r o Hx; apply elem_of_cons in Hx as [[= -> ->]|Hx]; [|by apply (load_all_get _ _ _ _ r)].
    unfold g; rewrite load_all_other by (by apply (bool_decide_unpack _)); unfold g2; rewrite fn_lookup_insert_ne by done.
    apply fn_lookup_insert.
  - intros r Hr; apply not_elem_of_cons in Hr as [Hr1 Hr2]; unfold g; rewrite load_all_other by done.
    unfold g2; destruct (decide (r = Sp)) as [->|]; [by rewrite fn_lookup_insert|].
    rewrite fn_lookup_insert_ne by done; unfold g1; apply load_all_other; cbn; by rewrite list_elem_of_singleton.
Qed.

(** The calling convention: what a C function leaves to its caller. *)
Record c_returns (s t : hw) (a n : Z) : Prop := CReturns {
  cr_mode : privilege t = 1;
  cr_sp : xs t Sp = xs s Sp;
  cr_saved : forall r, r ∈ callee_saved -> xs t r = xs s r;
  cr_stack : forall x, a <= x < a + n -> ram t x = ram s x
}.

Lemma sie_bits st :
  let st' := Z.lor (Z.land st (Z.lnot (Z.lor SSTATUS_SPP (Z.lor SSTATUS_SPIE SSTATUS_SIE)))) SSTATUS_SPP in
  let st' := if has st SSTATUS_SIE then Z.lor st' SSTATUS_SPIE else st' in
  has st' SSTATUS_SPP = true /\ has (sret_status st') SSTATUS_SIE = has st SSTATUS_SIE.
Proof.
  cbv zeta; assert (Hb : forall x n, 0 <= n -> has x (Z.shiftl 1 n) = Z.testbit x n).
  { intros x n Hn; rewrite Z.shiftl_1_l; unfold has, truth; destruct (Z.testbit x n) eqn:E.
    - apply negb_true_iff, Z.eqb_neq; intros H; apply (f_equal (fun z => Z.testbit z n)) in H.
      by rewrite Z.land_spec, E, Z.pow2_bits_true, Z.bits_0 in H by lia.
    - apply negb_false_iff, Z.eqb_eq, Z.bits_inj'; intros i Hi; rewrite Z.land_spec, Z.bits_0, Z.pow2_bits_eqb by lia.
      destruct (Z.eqb_spec n i) as [<-|]; [by rewrite E|by rewrite andb_false_r]. }
  unfold sret_status, SSTATUS_SPP, SSTATUS_SPIE, SSTATUS_SIE; rewrite !Hb by lia.
  set (y := Z.lor (Z.land st _) _); assert (E : forall i, 0 <= i ->
    Z.testbit y i = (Z.testbit st i && negb ((8 =? i) || ((5 =? i) || (1 =? i)))) || (8 =? i)).
  { intros i Hi; unfold y; rewrite Z.lor_spec, Z.land_spec, Z.lnot_spec, !Z.lor_spec, !Z.shiftl_1_l, !Z.pow2_bits_eqb by lia; done. }
  destruct (Z.testbit st 1) eqn:E1; split.
  - by rewrite Z.lor_spec, E, orb_true_r by lia.
  - assert (Z.testbit (Z.lor y (Z.shiftl 1 5)) 5 = true) as -> by (by rewrite Z.lor_spec, orb_true_r by lia).
    by rewrite !Z.lor_spec, orb_true_r by lia.
  - by rewrite E, orb_true_r by lia.
  - assert (Z.testbit y 5 = false) as -> by (by rewrite E, andb_false_r by lia).
    by rewrite Z.lor_spec, Z.land_spec, E, E1 by lia.
Qed.

Lemma pushed_get s a r o :
  regs_ok s -> (r, o) ∈ (Ra, 0) :: popped -> load64 (pushed_ram s a) (a + o) = xs s r.
Proof.
  intros Hr Hx; assert (Hp : (r, o) ∈ (Ra, 0) :: (Sp, 8) :: pushed /\ r <> Sp).
  { apply elem_of_cons in Hx as [[= -> ->]|Hx]; [split; [by left|done]|].
    apply list_elem_of_filter in Hx as [_ Hx]; split; [by right; right|]; intros ->.
    repeat (apply elem_of_cons in Hx as [Hx|Hx]; [by injection Hx|]); by apply not_elem_of_nil in Hx. }
  destruct Hp as [Hp Hn]; unfold pushed_ram.
  rewrite (store_all_get _ a 256 _ _ r) by (apply pushed_slots || done || (by rewrite fn_lookup_insert_ne)).
  by rewrite fn_lookup_insert_ne.
Qed.

Lemma pushed_sp s a : load64 (pushed_ram s a) (a + 8) = u64 (xs s Sp - 256).
Proof.
  unfold pushed_ram; rewrite (store_all_get _ a 256 _ _ Sp 8).
  - apply fn_lookup_insert.
  - apply pushed_slots.
  - right; left.
  - rewrite fn_lookup_insert; apply u64_range.
Qed.

Lemma reg_cases r : r = Zero \/ r = Sp \/ r = Tp \/ r ∈ callee_saved \/ exists o, (r, o) ∈ (Ra, 0) :: popped.
Proof.
  destruct r; first
    [ by left | by right; left | by do 2 right; left
    | do 3 right; left; apply (bool_decide_unpack _); vm_compute; exact I
    | do 4 right; eexists; vm_compute; repeat ((left; fail) || (left; reflexivity) || right) ].
Qed.

(** C15: an interrupt in the kernel. kernelvec saves registers below the stack
    pointer and calls kerneltrap; when that returns as C functions do, with
    sepc and sstatus as the trap set them, the interrupted code goes on in
    supervisor mode with every register but tp as it was, and with interrupts
    enabled exactly if they were; tp keeps what kerneltrap leaves, since the
    thread may have moved to another hart. *)
Theorem kernelvec_roundtrip cause tval pc kerneltrap s a :
  let s0 := (take_trap cause tval pc s).2 in let sp := xs s Sp - 256 in
  privilege s = 1 -> regs_ok s -> 0 <= sp -> window s0 sp a 256 ->
  exists s1, exec_code (stvec (scsr s)) (kernelvec kerneltrap) s0 = (kerneltrap, s1) /\
    (forall x, ~ (a <= x < a + 256) -> ram s1 x = ram s x) /\
    forall t pc', c_returns s1 t a 256 -> window t sp a 256 ->
      sepc (scsr t) = sepc (scsr s0) -> sstatus (scsr t) = sstatus (scsr s0) ->
      exists t1, exec_code pc' kernelvec_back t = (pc, t1) /\ privilege t1 = 1 /\ ram t1 = ram t /\
        (forall r, r <> Zero -> r <> Tp -> xs t1 r = xs s r) /\ xs t1 Tp = xs t Tp /\
        has (sstatus (scsr t1)) SSTATUS_SIE = has (sstatus (scsr s)) SSTATUS_SIE.
Proof.
  intros s0 sp Hp Hr Hsp Hw; assert (Eu : u64 (xs s0 Sp - 256) = sp) by (change (xs s0) with (xs s); pose proof (Hr Sp); apply u64_small; lia).
  destruct (kernelvec_run (stvec (scsr s)) kerneltrap s0 a) as (ra & Hrun); [by rewrite Eu|].
  eexists; split; [exact Hrun|]; split; [intros x Hx; by apply (store_all_out _ _ 256), Hx; apply pushed_slots|].
  intros t pc' [C1 C2 C3 C4] Hwt He Hs.
  assert (Esp : xs t Sp = sp) by (rewrite C2; cbn [xs set_xs]; by rewrite fn_lookup_insert_ne, fn_lookup_insert).
  assert (Hld : forall o, 0 <= o -> o + 8 <= 256 -> load64 (ram t) (a + o) = load64 (pushed_ram s0 a) (a + o)).
  { intros o H1 H2; apply load64_ext; intros x Hx; apply C4; lia. }
  destruct (kernelvec_back_run pc' t a C1) as (g & Hback & G1 & G2); [by rewrite Esp|by rewrite Hld, pushed_sp, Eu, Esp by lia|].
  eexists; split; [rewrite Hback, He; reflexivity|]; cbn [privilege ram xs scsr sstatus w_sstatus]; rewrite Hs.
  assert (Est : sstatus (scsr s0) = let st' := Z.lor (Z.land (sstatus (scsr s)) (Z.lnot (Z.lor SSTATUS_SPP (Z.lor SSTATUS_SPIE SSTATUS_SIE)))) SSTATUS_SPP in
    if has (sstatus (scsr s)) SSTATUS_SIE then Z.lor st' SSTATUS_SPIE else st') by (unfold s0; cbn; by rewrite Hp).
  destruct (sie_bits (sstatus (scsr s))) as [B1 B2]; rewrite Est; cbv zeta in *; rewrite B1; split_and!; try done.
  - intros r Hz Ht; destruct (decide (r = Sp)) as [->|Hn].
    { rewrite fn_lookup_insert, Esp; unfold sp; replace (xs s Sp - 256 + 256) with (xs s Sp) by lia; apply u64_small, Hr. }
    rewrite fn_lookup_insert_ne by done; destruct (reg_cases r) as [?|[?|[?|[Hc|[o Ho]]]]]; try done.
    + rewrite G2, C3 by (done || (intros Hx; revert Hc Hx; clear; destruct r; apply (bool_decide_unpack _); vm_compute; exact I)).
      cbn [xs set_xs]; rewrite !fn_lookup_insert_ne; [done|done|].
      intros <-; revert Hc; apply (bool_decide_unpack _); vm_compute; exact I.
    + rewrite (G1 r o Ho), Hld, (pushed_get s0 a r o Hr Ho); [done| |].
      all: revert Ho; clear; intros Ho; pose proof popped_slots as ((_ & Hf) & _); rewrite Forall_forall in Hf;
        apply elem_of_cons in Ho as [[= -> ->]|Ho]; [lia|]; specialize (Hf _ Ho); cbn in Hf; lia.
  - rewrite fn_lookup_insert_ne by done; apply G2; apply (bool_decide_unpack _); vm_compute; exact I.
Qed.

(** ** The stacks entry.S sets up *)

(** Hart [id] starts on the [id]-th 4096 bytes of stack0, which grows down:
    no two harts share a byte and none leaves the array. *)
Lemma entry_stack pc stack0 start s :
  privilege s = 3 -> 0 <= mhartid s < NCPU -> 0 <= stack0 -> stack0 + 4096 * NCPU < 2 ^ 64 ->
  exists s', exec_code pc (entry stack0 start) s = (start, s') /\
    xs s' Sp = stack0 + 4096 * (mhartid s + 1) /\ ram s' = ram s /\ privilege s' = 3 /\ scsr s' = scsr s.
Proof.
  intros Hp Hh H0 H1; unfold NCPU in *; unfold entry.
  rewrite (exec_next _ _ _ _ (set_x Sp stack0 s)) by (cbn [exec_instr]; by rewrite u64_small by lia).
  rewrite (exec_next _ _ _ _ (set_x A0 4096 (set_x Sp stack0 s))) by done.
  set (s1 := set_x A0 4096 (set_x Sp stack0 s)).
  rewrite (exec_next _ _ _ _ (set_x A1 (mhartid s) s1)) by (cbn [exec_instr]; change (privilege s1) with (privilege s); by rewrite Hp).
  rewrite (exec_next _ _ _ _ (set_x A1 (mhartid s + 1) (set_x A1 (mhartid s) s1))).
  2:{ cbn [exec_instr]; change (get_x A1 (set_x A1 ?v s1)) with (<[A1 := v]> (xs s1) A1); rewrite fn_lookup_insert, u64_small by lia; done. }
  set (s2 := set_x A1 (mhartid s + 1) (set_x A1 (mhartid s) s1)).
  rewrite (exec_next _ _ _ _ (set_x A0 (4096 * (mhartid s + 1)) s2)).
  2:{ cbn [exec_instr]; change (get_x A0 s2) with 4096; change (get_x A1 s2) with (mhartid s + 1); by rewrite u64_small by lia. }
  rewrite (exec_next _ _ _ _ (set_x Sp (stack0 + 4096 * (mhartid s + 1)) (set_x A0 (4096 * (mhartid s + 1)) s2))).
  2:{ cbn [exec_instr]; change (get_x A0 (set_x A0 ?v s2)) with v; change (get_x Sp (set_x A0 ?v s2)) with stack0; by rewrite u64_small by lia. }
  eexists; split; [by apply exec_jump|]; done.
Qed.

(** ** The first process *)

(** A byte of user memory. *)
Definition peek_user (s : hw) (va : Z) : option Z := ram s <$> translate s Load va.
Definition user_bytes (s : hw) (va : Z) (l : list Z) : Prop :=
  forall j b, l !! j = Some b -> peek_user s (va + Z.of_nat j) = Some b.

Section first.
Variable kend : Z.
Hypothesis kend_pos : 0 < kend.
Variables (root p : Z) (tb : tables).

(** init's program, mapped at 0, in user mode. *)
Record in_initcode (s : hw) : Prop := InInitcode {
  ii_mode : privilege s = 0;
  ii_satp : satp_reg s = MAKE_SATP root;
  ii_table : pt_inv kend (ram s) root tb;
  ii_leaf : leaf (ram s) tb 0 = mkpte p RWXU;
  ii_page : page_ok kend p;
  ii_code : forall i, 0 <= i < 4096 -> ram s (p + i) = default 0 (initcode !! Z.to_nat i)
}.

Lemma initcode_set s r v : in_initcode s -> in_initcode (set_x r v s).
Proof using. unfold set_x; case_decide; [done|]; by intros []. Qed.

Lemma initcode_page s acc va : in_initcode s -> 0 <= va < 4096 -> translate s acc va = Some (p + va).
Proof using kend_pos.
  intros [H1 H2 H3 H4 H5 _] Hva; replace (p + va) with (p + va mod 4096) by (by rewrite Z.mod_small).
  pose proof (page_frame kend kend_pos p H5) as Hf; assert (Hr : 0 <= RWXU < 2 ^ 10) by (split; [discriminate|reflexivity]).
  eapply (translate_leaf kend kend_pos (ram s) root tb H3) with (perm := RWXU); try done.
  - by rewrite H1.
  - change MAXVA with 274877906944; lia.
  - by rewrite Z.div_small.
  - unfold allowed; rewrite H1; cbn [Z.eqb]; unfold PTE_U, PTE_R, PTE_W, PTE_X; rewrite !mkpte_bit by (done || lia).
    by destruct acc.
Qed.

(** The instruction of the program at [pc]. *)
Definition initcode_word (pc : Z) : Z := le_decode ((fun i => default 0 (initcode !! Z.to_nat (pc + i))) <$> [0; 1; 2; 3]).

Lemma initcode_step s pc i n s' :
  in_initcode s -> 0 <= pc -> pc + 4 <= 4096 -> decode (initcode_word pc) = Some i -> exec_instr pc i s = (n, s') ->
  hw_step pc s = Some (default (u64 (pc + 4)) n, s').
Proof using kend_pos.
  intros Hs H0 H1 Hd He; unfold hw_step; rewrite (initcode_page s Fetch pc Hs) by lia.
  assert (Hw : load32 (ram s) (p + pc) = initcode_word pc).
  { unfold load32, initcode_word; f_equal; rewrite !load_bytes_S; cbn [fmap list_fmap].
    replace (p + pc + 1 + 1 + 1) with (p + (pc + 3)) by lia; replace (p + pc + 1 + 1) with (p + (pc + 2)) by lia.
    replace (p + pc + 1) with (p + (pc + 1)) by lia; replace (p + pc) with (p + (pc + 0)) by lia.
    rewrite !(ii_code _ Hs) by lia; done. }
  by rewrite Hw, Hd, He.
Qed.

Lemma initcode_run s :
  in_initcode s ->
  exists s', hw_run 6 0 s = Some (stvec (scsr s), s') /\ privilege s' = 1 /\ scause (scsr s') = 8 /\ sepc (scsr s') = 20 /\
    xs s' A7 = SYS_exec /\ xs s' A0 = 0x24 /\ xs s' A1 = 0x2b.
Proof using kend_pos.
  intros H0; assert (H1 := initcode_set s A0 0 H0); set (s1 := set_x A0 0 s) in *.
  assert (H2 := initcode_set s1 A0 0x24 H1); set (s2 := set_x A0 0x24 s1) in *.
  assert (H3 := initcode_set s2 A1 8 H2); set (s3 := set_x A1 8 s2) in *.
  assert (H4 := initcode_set s3 A1 0x2b H3); set (s4 := set_x A1 0x2b s3) in *.
  assert (H5 := initcode_set s4 A7 7 H4); set (s5 := set_x A7 7 s4) in *.
  cbn [hw_run]; rewrite (initcode_step s 0 (Auipc A0 0) None s1) by (done || lia).
  cbn [default hw_run]; change (u64 (0 + 4)) with 4; rewrite (initcode_step s1 4 (Addi A0 A0 0x24) None s2) by (done || lia).
  cbn [default hw_run]; change (u64 (4 + 4)) with 8; rewrite (initcode_step s2 8 (Auipc A1 0) None s3) by (done || lia).
  cbn [default hw_run]; change (u64 (8 + 4)) with 12; rewrite (initcode_step s3 12 (Addi A1 A1 0x23) None s4) by (done || lia).
  cbn [default hw_run]; change (u64 (12 + 4)) with 16; rewrite (initcode_step s4 16 (Addi A7 Zero 7) None s5) by (done || lia).
  cbn [default hw_run]; change (u64 (16 + 4)) with 20.
  rewrite (initcode_step s5 20 Ecall (Some (stvec (scsr s))) (take_trap 8 0 20 s5).2) by (done || lia || (cbn [exec_instr]; by rewrite (ii_mode _ H5))).
  eexists; split; [reflexivity|]; done.
Qed.

Lemma initcode_args s :
  in_initcode s -> user_bytes s 0x24 (str "/init" ++ [0]) /\ user_bytes s 0x2b (le_encode 8 0x24 ++ replicate 8 0).
Proof using kend_pos.
  intros Hs; assert (Hb : forall va l, 0 <= va -> va + Z.of_nat (length l) <= 4096 ->
    (fun i => default 0 (initcode !! (Z.to_nat va + i)%nat)) <$> seq 0 (length l) = l -> user_bytes s va l).
  { intros va l H0 H1 E j b Hj; assert (Hlt := lookup_lt_Some _ _ _ Hj).
    unfold peek_user; rewrite (initcode_page s Load) by (done || lia); cbn; rewrite (ii_code _ Hs) by lia.
    rewrite <- E in Hj; rewrite list_lookup_fmap, lookup_seq_lt in Hj by done; injection Hj as <-.
    do 3 f_equal; lia. }
  split; apply Hb; cbn; done || lia.
Qed.
End first.

Section boots.
Variable kend trampoline forkret_pc etext uservec_pc userret_pc usertrap_pc kernel_satp hart : Z.
Hypothesis kend_pos : 0 < kend.
#[local] Abbreviation kmemory s := (pm_mem (lget kmem_of (mkern (s_msg s)))).

Lemma return_frame_out tf ks m x : ~ in_page tf x -> return_frame usertrap_pc kernel_satp hart tf ks m x = m x.
Proof using.
  intros Hx; unfold return_frame, TF_KERNEL_SATP, TF_KERNEL_SP, TF_KERNEL_TRAP, TF_KERNEL_HARTID; unfold in_page in Hx.
  by rewrite !store64_out by lia.
Qed.

(** What userinit built, after usertrapret has stored in the trap frame. *)
Lemma first_space_user m tf r p tb fl ts m' :
  first_space kend trampoline m tf r p tb fl ts -> (forall x, ~ in_page tf x -> m' x = pm_mem m x) ->
  has_frame kend m' r tf tb /\ leaf m' tb 0 = mkpte p RWXU /\ page_ok kend p /\
  (forall i, 0 <= i < 4096 -> m' (p + i) = default 0 (initcode !! Z.to_nat i)).
Proof using.
  intros [F1 F2 F3 F4 (F5 & F6 & F7 & F8) F9 F10] Hm.
  assert (Hh : has_frame kend (pm_mem m) r tf tb).
  { split; [done| |done|done]; rewrite F3; unfold umap; by rewrite decide_False, decide_True. }
  assert (Hf : frame (fun q => q = tf) (pm_mem m) m') by (intros x Hx; apply Hm, Hx; done).
  assert (HP : forall q, q = tf -> q mod 4096 = 0 /\ ~ is_table tb q) by (intros q ->; split; [apply F5|done]).
  split_and!; [by eapply has_frame_ext| |done|].
  - rewrite (leaf_frame kend (fun q => q = tf) (pm_mem m) m' r) by done; rewrite F3; unfold umap; by rewrite decide_True.
  - intros i Hi; rewrite <- F9 by done; apply Hm; intros Hx; apply F8.
    apply (in_page_inj p tf (p + i)); [apply F6|apply F5|unfold in_page; lia|done].
Qed.

(** The kernel's page table and a process's fetch the same instructions from
    the trampoline page, so uservec and userret go on after they change satp. *)
Lemma trampoline_shared s root tb stacks tf p off :
  trampoline mod 4096 = 0 -> 0 <= trampoline < PHYSTOP -> etext < PHYSTOP ->
  privilege s = 1 -> satp_reg s = MAKE_SATP root -> pt_inv kend (ram s) root tb ->
  (forall v, leaf (ram s) tb v = kmap etext trampoline stacks v) \/ (forall v, leaf (ram s) tb v = umap trampoline tf p v) ->
  0 <= off < 4096 -> translate s Fetch (TRAMPOLINE + off) = Some (trampoline + off).
Proof using kend_pos.
  intros Ht0 Ht He Hp Hs Hi Hl Ho; change TRAMPOLINE with (67108863 * 4096).
  assert (HP : PHYSTOP = 0x88000000) by done.
  assert (Hf : is_frame trampoline) by (split; [lia|done]); assert (Hr : 0 <= RX < 2 ^ 10) by (split; [discriminate|reflexivity]).
  replace (trampoline + off) with (trampoline + (67108863 * 4096 + off) mod 4096)
    by (rewrite (Z.add_comm _ off), Z.mod_add, Z.mod_small by lia; done).
  eapply (translate_leaf kend kend_pos (ram s) root tb Hi) with (perm := RX); try done.
  - by rewrite Hp.
  - change MAXVA with 274877906944; lia.
  - rewrite Z.div_add_l, (Z.div_small off), Z.add_0_r by lia; destruct Hl as [-> | ->].
    + unfold kmap, UART0, VIRTIO0, PLIC, KERNBASE; rewrite !decide_False, decide_True by (done || lia); done.
    + done.
  - unfold allowed; rewrite Hp; cbn [Z.eqb]; unfold PTE_U, PTE_X; rewrite !mkpte_bit by (done || lia); done.
Qed.

(** C13: the first process. When the kernel has booted and usertrapret runs for
    init for the first time, the hart enters user space at address 0 with an
    empty stack of one page, and the sixth instruction it executes is the
    system call exec with the name /init and the arguments /init, null. *)
Theorem first_process x c i s k p0 q h :
  booted kend trampoline forkret_pc etext i s -> procs (mkern (s_msg s)) !! 0%nat = Some p0 ->
  tmem k = kmemory s -> tprocs k !! 0%nat = Some q ->
  p_trapframe q = p_trapframe p0 -> p_pagetable q = p_pagetable p0 ->
  exists va satp k' s1 s2,
    usertrapret trampoline uservec_pc userret_pc usertrap_pc kernel_satp hart 0 c k = Ret (ToUser va satp) c k' /\
    exec_code va userret (leave_kernel x satp h k') = (0, s1) /\ privilege s1 = 0 /\ xs s1 Sp = PGSIZE /\
    hw_run 6 0 s1 = Some (u64 (TRAMPOLINE + (uservec_pc - trampoline)), s2) /\
    privilege s2 = 1 /\ scause (scsr s2) = 8 /\ sepc (scsr s2) = 20 /\ xs s2 A7 = SYS_exec /\
    user_bytes s1 (xs s2 A0) (str "/init" ++ [0]) /\
    user_bytes s1 (xs s2 A1) (le_encode 8 (xs s2 A0) ++ replicate 8 0).
Proof using kend_pos.
  intros [_ (tf & r & [(ktb & kts & stacks & utb & ts & p & fl & _ & _ & _ & _ & Hs & _) _] & Hprocs) _ _ _ _] H0 Hm Hq Etf Ept.
  rewrite Hprocs in H0; injection H0 as <-; cbn in Etf, Ept.
  destruct (usertrapret_run trampoline uservec_pc userret_pc usertrap_pc kernel_satp hart 0 q c k Hq) as (k' & Hrun & Hk & _ & Hcsr).
  rewrite Etf, Ept in *.
  destruct (first_space_user _ tf r p utb fl ts (tmem k') Hs) as (Hf & Hl & Hp & Hcode).
  { intros a Ha; rewrite Hk, Hm; by apply return_frame_out. }
  assert (Hpc : sepc (csr k') = 0).
  { rewrite Hcsr; cbn [sepc w_sepc]; rewrite Hk, frame_load by done; rewrite Hm; apply (fs_regs _ _ _ _ _ _ _ _ _ Hs). }
  destruct (userret_run kend kend_pos (u64 (TRAMPOLINE + (userret_pc - trampoline)))
    (leave_kernel x (MAKE_SATP r) h k') r tf utb Hf) as (g & Hret & Hg); [apply fn_lookup_insert|done|].
  change (scsr (leave_kernel x (MAKE_SATP r) h k')) with (csr k') in Hret; rewrite Hpc in Hret.
  replace (has (sstatus (csr k')) SSTATUS_SPP) with false in Hret
    by (symmetry; apply spp_clear; rewrite Hcsr; cbn [sstatus w_sstatus w_sepc]; by rewrite Z.lor_spec, !Z.land_spec, !andb_false_r).
  match type of Hret with _ = (_, ?u) => set (s1 := u) in Hret end.
  assert (Hi : in_initcode kend r p utb s1) by (split; try done; apply Hf).
  destruct (initcode_run kend kend_pos r p utb s1 Hi) as (s2 & R1 & R2 & R3 & R4 & R5 & R6 & R7).
  destruct (initcode_args kend kend_pos r p utb s1 Hi) as [B1 B2].
  do 2 eexists; exists k', s1, s2; split; [exact Hrun|]; split; [exact Hret|]; rewrite R6, R7; split_and!; try done.
  - change (xs s1 Sp) with (g Sp); rewrite Hg by done; change (ram (leave_kernel _ _ _ k')) with (tmem k').
    change (trapframe_off Sp) with 48; rewrite Hk, frame_load, Hm by done; apply (fs_regs _ _ _ _ _ _ _ _ _ Hs).
  - rewrite R1; unfold s1; cbn [scsr stvec w_sstatus]; by rewrite Hcsr.
Qed.
End boots.

(** ** The machine of BootOk.v *)

#[local] Abbreviation D_etext := (KERNBASE + 8192).
Definition demo_csrs : csrs := Csrs 0 0 0 0 0 0 [].
Definition demo_kernel (s : shared) : trapst := TrapSt demo_csrs (s_msg s) (s_cons s) (s_uart s) (s_disk s).
Definition demo_hw (mode satp : Z) (g : reg -> Z) (m : mem) : hw := Hw g mode satp 0 0 demo_csrs m.

Lemma first_process_witness :
  exists s k' s1 s2 va satp,
    booted demo_end KERNBASE 0x80001a00 D_etext demo_loaded s /\
    usertrapret KERNBASE KERNBASE (KERNBASE + 0x9c) 0x80002000 0 0 0 (Ctx [] []) (demo_kernel s) = Ret (ToUser va satp) (Ctx [] []) k' /\
    exec_code va userret (leave_kernel (fun _ => 0) satp (demo_hw 1 0 (fun _ => 0) (fun _ => 0)) k') = (0, s1) /\
    hw_run 6 0 s1 = Some (TRAMPOLINE, s2) /\ xs s2 A7 = SYS_exec /\ user_bytes s1 (xs s2 A0) (str "/init" ++ [0]).
Proof.
  destruct demo_booted as [s Hs]; pose proof (bo_init _ _ _ _ _ _ Hs) as (tf & r & _ & Hp).
  assert (H0 : procs (mkern (s_msg s)) !! 0%nat = Some (init_proc 0x80001a00 (idle 0) 1 tf r)) by (rewrite Hp; reflexivity).
  destruct (first_process demo_end KERNBASE 0x80001a00 D_etext KERNBASE (KERNBASE + 0x9c) 0x80002000 0 0 eq_refl (fun _ => 0) (Ctx [] [])
    demo_loaded s (demo_kernel s) _ _ (demo_hw 1 0 (fun _ => 0) (fun _ => 0)) Hs H0 eq_refl H0 eq_refl eq_refl)
    as (va & satp & k' & s1 & s2 & R1 & R2 & _ & _ & R3 & _ & _ & _ & R4 & R5 & _).
  exists s, k', s1, s2, va, satp; split_and!; [exact Hs|exact R1|exact R2|exact R3|exact R4|exact R5].
Defined.

(** A process on the page table that userinit built. *)
Lemma demo_user :
  exists m root tf tb, has_frame demo_end m root tf tb /\ load64 m (tf + TF_KERNEL_TRAP) = 0x80002000.
Proof.
  destruct demo_booted as [s Hs]; pose proof (bo_init _ _ _ _ _ _ Hs) as (tf & r & [(? & ? & ? & utb & ts & p & fl & _ & _ & _ & _ & Hf & _) _] & _).
  set (m := pm_mem (lget kmem_of (mkern (s_msg s)))).
  exists (store64 m (tf + TF_KERNEL_TRAP) 0x80002000), r, tf, utb; split; [|by apply load64_store64_same].
  eapply first_space_user; [exact Hf|]; intros y Hx; apply store64_out; unfold in_page, TF_KERNEL_TRAP in *; lia.
Qed.

Lemma getpid_user_witness :
  exists m root tf tb s3 k1 s1 s2 k', has_frame demo_end m root tf tb /\
    exec_code 0x1000 (usys_entry SYS_getpid) (demo_hw 0 (MAKE_SATP root) (fun _ => 0) m) = (0, s1) /\
    user_trap demo_end 0 0 0 0 0 0x80002000 0 0 [] 0 (fun _ => None) (fun _ => None) (fun _ => 0) 0 (Ctx [] []) k1 s1 = Some (0x1008, s2, Ctx [] [], k') /\
    exec_code 0x1008 (drop 2 (usys_entry SYS_getpid)) s2 = (0, s3) /\ xs s3 A0 = 5 /\ privilege s3 = 0.
Proof.
  destruct demo_user as (m & root & tf & tb & Hf & Ht).
  set (p := set_pagetable root (set_state RUNNING (set_pid 5 (set_trapframe tf proc0)))).
  set (k := TrapSt demo_csrs (MsgSt (MsgTable [] []) (Kst [p] 6 None 0 [] (FileSt fileinit (fun _ => pipe_init []) (FsSt demo_sb [] (lgs demo_fs) (PMem m 0)))))
    demo_cons demo_uart (VSt disk_init [])).
  assert (Hu : in_user demo_end (demo_hw 0 (MAKE_SATP root) (fun _ => 0) m) root tf tb) by (split; [done|done|intros r; cbn; lia|done]).
  assert (Hp : tprocs k !! 0%nat = Some p) by reflexivity.
  assert (Hpid : 0 <= p_pid p < 2 ^ 31) by (split; [discriminate|reflexivity]).
  assert (Hst : p_state p = RUNNING) by reflexivity.
  assert (Hkl : p_killed p = 0) by reflexivity.
  assert (Hpd : Z.land (p_pending p) 4 = 0) by reflexivity.
  assert (Hev : Z.land 0x80002000 (Z.lnot 1) = 0x80002000) by reflexivity.
  destruct (getpid_user demo_end 0 0 0 0 0 0x80002000 0 0 [] 0 (fun _ => None) (fun _ => None) eq_refl (fun _ => 0) 0 p (Ctx [] []) k 0x1000
    (demo_hw 0 (MAKE_SATP root) (fun _ => 0) m) tb Hp Hst Hkl Hpd Hpid (not_elem_of_nil _) Hu Ht Hev)
    as (s1 & s2 & k' & s3 & R1 & R2 & R3 & R4 & _ & _ & R5 & _).
  exists m, root, tf, tb, s3, k, s1, s2, k'; split_and!; [exact Hf|exact R1|exact R2|exact R3|exact R4|exact R5].
Defined.

(** A hart in the kernel, with two contexts in the kernel's data. *)
Definition demo_regs (r : reg) : Z :=
  match r with A0 => 0x80003000 | A1 => 0x80003070 | Ra => 0x80001234 | Sp => 0x80004000 | S3 => 33 | _ => 0 end.

Lemma demo_in_kernel :
  exists satp m, forall g, (forall r, 0 <= g r < 2 ^ 64) -> in_kernel demo_end D_etext KERNBASE (demo_hw 1 satp g m).
Proof.
  destruct demo_booted as [s Hs]; pose proof (bo_init _ _ _ _ _ _ Hs) as (tf & r & [(ktb & ? & stacks & ? & ? & ? & ? & H1 & _ & _ & H2 & _) _] & _).
  exists (MAKE_SATP (kernel_pagetable s)), (pm_mem (lget kmem_of (mkern (s_msg s)))); intros g Hg.
  split; [done|exact Hg|]; exists (kernel_pagetable s), ktb, stacks; done.
Qed.

Lemma demo_regs_ok r : 0 <= demo_regs r < 2 ^ 64.
Proof. destruct r; cbn; lia. Qed.

Definition demo_other (r : reg) : Z := match r with A0 => 0x80003070 | A1 => 0x80003000 | _ => 7 end.

Lemma swtch_roundtrip_witness :
  exists satp m s1 t1, exec_code 0 swtch (demo_hw 1 satp demo_regs m) = (Z.land (load64 m 0x80003070) (Z.lnot 1), s1) /\
    xs s1 S3 = load64 m (0x80003070 + 40) /\
    exec_code 0 swtch (demo_hw 1 satp demo_other (ram s1)) = (0x80001234, t1) /\ xs t1 S3 = 33 /\ xs t1 A3 = 7.
Proof.
  destruct demo_in_kernel as (satp & m & Hk); exists satp, m.
  assert (Hd : forall a, a = 0x80003000 \/ a = 0x80003070 -> kernel_data demo_end D_etext a 112)
    by (intros a [-> | ->]; split_and!; done).
  assert (He : D_etext mod 4096 = 0 /\ KERNBASE < D_etext < PHYSTOP) by apply demo_memory.
  destruct (swtch_roundtrip demo_end D_etext KERNBASE eq_refl He 0 (demo_hw 1 satp demo_regs m)) as (s1 & R1 & R2 & R3 & R4 & R5);
    [done|apply Hk, demo_regs_ok|by apply Hd; left|by apply Hd; right|cbn; lia|].
  destruct (R5 0 (demo_hw 1 satp demo_other (ram s1))) as (t1 & R6 & R7 & R8); [|by apply Hd; right|cbn; lia|done|done|].
  - apply (in_kernel_ram demo_end D_etext KERNBASE (demo_hw 1 satp demo_other m) (ram s1) 0x80003000 112); [|by apply Hd; left|done].
    apply Hk; intros r; destruct r; cbn; lia.
  - exists s1, t1; split_and!; [exact R1|by apply (R2 S3 40)|exact R6|by apply (R7 S3 40)|by apply R8].
Defined.

Lemma kernelvec_roundtrip_witness :
  exists satp m s1 t1, let s0 := (take_trap 0x8000000000000005 0 0x80001000 (demo_hw 1 satp demo_regs m)).2 in
    exec_code 0 (kernelvec 0x80002400) s0 = (0x80002400, s1) /\
    exec_code 0 kernelvec_back (set_xs (<[A0 := 1]> (xs s1)) (set_ram (ram s1) s0)) = (0x80001000, t1) /\ xs t1 A0 = 0x80003000 /\ xs t1 S3 = 33.
Proof.
  destruct demo_in_kernel as (satp & m & Hk); exists satp, m.
  assert (He : D_etext mod 4096 = 0 /\ KERNBASE < D_etext < PHYSTOP) by apply demo_memory.
  assert (Hd : kernel_data demo_end D_etext 0x80003f00 256) by done.
  destruct (Hk demo_regs demo_regs_ok) as [K1 K2 K3].
  set (s := demo_hw 1 satp demo_regs m) in *; set (s0 := (take_trap 0x8000000000000005 0 0x80001000 s).2).
  assert (Hw : window s0 (xs s Sp - 256) 0x80003f00 256).
  { apply (data_window demo_end D_etext KERNBASE eq_refl He s0 0x80003f00 256); [by split|done|done|done]. }
  destruct (kernelvec_roundtrip 0x8000000000000005 0 0x80001000 0x80002400 s 0x80003f00 eq_refl K2 ltac:(done) Hw) as (s1 & R1 & R2 & R3).
  destruct (R3 (set_xs (<[A0 := 1]> (xs s1)) (set_ram (ram s1) s0)) 0) as (t1 & R4 & _ & _ & R5 & _); [|by apply window_regs, window_ram|done|done|].
  - split; [done|done| |done]; intros r Hr; apply fn_lookup_insert_ne; intros <-; revert Hr.
    apply (bool_decide_unpack _); vm_compute; exact I.
  - exists s1, t1; split_and!; [exact R1|exact R4|by apply R5|by apply R5].
Defined.
