(* ===== verification/Grep.v ===== *)
(** * user/grep.c

    The matcher of grep, a pattern language with the operators ^ . * and $, and
    its loop over the lines of a file.  A string is the list of its characters
    before the NUL, and a pointer into it is a suffix of the list. *)

From S2P Require Import Prelude KString.

Definition ch_caret : Z := 94.
Definition ch_dollar : Z := 36.
Definition ch_star : Z := 42.
Definition ch_dot : Z := 46.
Definition ch_nl : Z := 10.

(** [matchstar(c, re, text)], with [mh] for [matchhere(re, _)]. *)
Fixpoint matchstar (mh : list Z -> bool) (c : Z) (text : list Z) : bool :=
  if mh text then true
  else match text with
       | [] => false
       | t :: text' => if (t =? c) || (c =? ch_dot) then matchstar mh c text' else false
       end.

Fixpoint matchhere (re text : list Z) {struct re} : bool :=
  match re with
  | [] => true
  | c :: re1 =>
      let step := match text with
                  | [] => false
                  | t :: text' => if (c =? ch_dot) || (c =? t) then matchhere re1 text' else false
                  end in
      match re1 with
      | x :: re2 => if x =? ch_star then matchstar (matchhere re2) c text else step
      | [] => if c =? ch_dollar then bool_decide (text = []) else step
      end
  end.

(** The loop of [match] over the suffixes of the text. *)
Fixpoint match_loop (re text : list Z) : bool :=
  if matchhere re text then true
  else match text with [] => false | _ :: text' => match_loop re text' end.

Definition match_ (re text : list Z) : bool :=
  match re with
  | c :: re1 => if c =? ch_caret then matchhere re1 text else match_loop re text
  | [] => match_loop re text
  end.

(** ** The meaning of a pattern *)

(** An item is a character or a dot, once or any number of times; a pattern is
    a list of items and whether it must reach the end of the text. *)
Inductive item : Type :=
| One (c : Z)
| Star (c : Z).

Definition covers (c t : Z) : Prop := c = ch_dot \/ t = c.

(** The texts an item, and a list of items, stand for. *)
Definition item_lang (i : item) (l : list Z) : Prop :=
  match i with
  | One c => exists t, l = [t] /\ covers c t
  | Star c => Forall (covers c) l
  end.
Fixpoint items_lang (its : list item) (l : list Z) : Prop :=
  match its with
  | [] => l = []
  | i :: its' => exists l1 l2, l = l1 ++ l2 /\ item_lang i l1 /\ items_lang its' l2
  end.

Fixpoint parse (re : list Z) : list item * bool :=
  match re with
  | [] => ([], false)
  | c :: re1 =>
      match re1 with
      | x :: re2 =>
          if x =? ch_star then let '(its, e) := parse re2 in (Star c :: its, e)
          else let '(its, e) := parse re1 in (One c :: its, e)
      | [] => if c =? ch_dollar then ([], true) else ([One c], false)
      end
  end.

(** A pattern matches at the start of a text, and somewhere in it. *)
Definition here (re text : list Z) : Prop :=
  exists l rest, text = l ++ rest /\ items_lang (parse re).1 l /\ ((parse re).2 = true -> rest = []).
Definition somewhere (re text : list Z) : Prop :=
  match re with
  | c :: re1 => if c =? ch_caret then here re1 text else exists pre rest, text = pre ++ rest /\ here re rest
  | [] => True
  end.

(** ** The matcher decides the meaning *)

Lemma matchstar_spec mh (P : list Z -> Prop) c text :
  (forall t, mh t = true <-> P t) ->
  matchstar mh c text = true <-> exists l rest, text = l ++ rest /\ Forall (covers c) l /\ P rest.
Proof.
  intros H; induction text as [|t text IH]; cbn [matchstar].
  - destruct (mh []) eqn:E.
    + split; [|done]; intros _; exists [], []; split_and!; [done|done|by apply H].
    + split; [done|]; intros ([] & [] & ? & _ & HP); try done; apply H in HP; congruence.
  - destruct (mh (t :: text)) eqn:E.
    { split; [|done]; intros _; exists [], (t :: text); split_and!; [done|done|by apply H]. }
    split.
    + destruct (Z.eqb_spec t c), (Z.eqb_spec c ch_dot); cbn [orb]; try done;
        intros (l & rest & -> & Hl & HP)%IH; exists (t :: l), rest; (split_and!; [done| |done]);
        (constructor; [unfold covers; auto|done]).
    + intros ([|x l] & rest & Ht & Hl & HP); cbn in Ht.
      { subst rest; apply H in HP; congruence. }
      injection Ht as <- ->; apply Forall_cons in Hl as [Hc Hl].
      assert ((t =? c) || (c =? ch_dot) = true) as ->.
      { destruct Hc as [-> | ->]; [by rewrite Z.eqb_refl, orb_true_r|by rewrite Z.eqb_refl]. }
      apply IH; by exists l, rest.
Qed.

Lemma here_star c re text :
  here (c :: ch_star :: re) text <-> exists l rest, text = l ++ rest /\ Forall (covers c) l /\ here re rest.
Proof.
  unfold here; cbn [parse]; rewrite Z.eqb_refl; destruct (parse re) as [its e]; cbn; split.
  - intros (l & rest & -> & (l1 & l2 & -> & H1 & H2) & He); exists l1, (l2 ++ rest).
    split; [by rewrite app_assoc|]; split; [done|]; by exists l2, rest.
  - intros (l & r & -> & Hl & (l' & rest & -> & Hi & He)); exists (l ++ l'), rest.
    split; [by rewrite app_assoc|]; split; [by exists l, l'|done].
Qed.

(** A single item at the head of the pattern. *)
Lemma here_one c re text :
  parse (c :: re) = (One c :: (parse re).1, (parse re).2) ->
  here (c :: re) text <-> exists t rest, text = t :: rest /\ covers c t /\ here re rest.
Proof.
  intros Hp; unfold here; rewrite Hp; cbn; split.
  - intros (l & rest & -> & (l1 & l2 & -> & (t & -> & Hc) & H2) & He); exists t, (l2 ++ rest).
    split; [done|]; split; [done|]; by exists l2, rest.
  - intros (t & r & -> & Hc & (l & rest & -> & Hi & He)); exists (t :: l), rest.
    split; [done|]; split; [exists [t], l; split; [done|]; split; [by exists t|done]|done].
Qed.

Lemma step_spec c re text (P : list Z -> Prop) :
  (forall t, matchhere re t = true <-> P t) ->
  match text with [] => false | t :: text' => if (c =? ch_dot) || (c =? t) then matchhere re text' else false end = true <->
  exists t rest, text = t :: rest /\ covers c t /\ P rest.
Proof.
  intros H; destruct text as [|t text].
  { split; [done|]; by intros (? & ? & ? & _). }
  destruct (Z.eqb_spec c ch_dot) as [Hd|Hd], (Z.eqb_spec c t) as [Hc|Hc]; cbn [orb]; rewrite ?H;
    (split; [intros HP; try done; exists t, text; unfold covers; auto
            |intros (t' & rest & [= <- <-] & Hx & HP); try done; destruct Hx; congruence]).
Qed.

Lemma matchhere_spec re : forall text, matchhere re text = true <-> here re text.
Proof.
  induction re as [re IH] using (well_founded_induction (Wf_nat.well_founded_ltof _ (@length Z))); unfold ltof in IH.
  intros text; destruct re as [|c [|x re]].
  - split; [|done]; intros _; by exists [], text.
  - cbn [matchhere]; destruct (Z.eqb_spec c ch_dollar) as [->|Hd].
    + rewrite bool_decide_eq_true; unfold here; cbn; split.
      * intros ->; by exists [], [].
      * intros (l & rest & -> & -> & He); by rewrite He.
    + rewrite here_one by (cbn; by rewrite (proj2 (Z.eqb_neq _ _) Hd)); apply (step_spec c [] text (here [])), IH; cbn; lia.
  - destruct (Z.eqb_spec x ch_star) as [->|Hx].
    + rewrite here_star; change (matchhere (c :: ch_star :: re) text) with (matchstar (matchhere re) c text).
      apply matchstar_spec, IH; cbn; lia.
    + rewrite here_one.
      * rewrite <- (step_spec c (x :: re) text (here (x :: re))) by (apply IH; cbn; lia).
        cbn [matchhere]; by rewrite (proj2 (Z.eqb_neq _ _) Hx).
      * cbn [parse]; rewrite (proj2 (Z.eqb_neq _ _) Hx); by destruct (match re with [] => _ | _ => _ end).
Qed.

Lemma match_loop_spec re text : match_loop re text = true <-> exists pre rest, text = pre ++ rest /\ here re rest.
Proof.
  induction text as [|t text IH]; cbn [match_loop].
  - destruct (matchhere re []) eqn:E.
    + split; [|done]; intros _; exists [], []; split; [done|by apply matchhere_spec].
    + split; [done|]; intros ([] & [] & ? & Hh); try done; apply matchhere_spec in Hh; congruence.
  - destruct (matchhere re (t :: text)) eqn:E.
    { split; [|done]; intros _; exists [], (t :: text); split; [done|by apply matchhere_spec]. }
    rewrite IH; split; [intros (pre & rest & -> & Hh); by exists (t :: pre), rest|].
    intros ([|x pre] & rest & Ht & Hh); cbn in Ht; [subst rest; apply matchhere_spec in Hh; congruence|].
    injection Ht as <- ->; by exists pre, rest.
Qed.

Lemma match_spec re text : match_ re text = true <-> somewhere re text.
Proof.
  unfold match_, somewhere; destruct re as [|c re].
  - split; [done|]; intros _; by destruct text.
  - destruct (c =? ch_caret); [apply matchhere_spec|apply match_loop_spec].
Qed.

(** ** The loop over lines *)

Definition BUFSIZE : nat := 1024.

(** [strchr(p, '\n')]: the text before and after the newline, unless a NUL or
    the end comes first. *)
Fixpoint find_nl (p : list Z) : option (list Z * list Z) :=
  match p with
  | [] => None
  | c :: p' =>
      if c =? 0 then None
      else if c =? ch_nl then Some ([], p')
      else match find_nl p' with Some (a, b) => Some (c :: a, b) | None => None end
  end.

(** The inner loop: what it writes, and the text from [p] on when it ends. *)
Fixpoint grep_lines (fuel : nat) (pattern p : list Z) : list Z * list Z :=
  match fuel with
  | O => ([], p)
  | S f =>
      match find_nl p with
      | None => ([], p)
      | Some (line, p') =>
          let '(out, rest) := grep_lines f pattern p' in
          (if match_ pattern line then line ++ [ch_nl] ++ out else out, rest)
      end
  end.

Section grep.
(** [read(fd, _, k)] with [input] still to come: how many bytes it returns. *)
Variable read : nat -> list Z -> nat.

(** The outer loop, with [buf] the [m] bytes kept from the last round. *)
Fixpoint grep_loop (fuel : nat) (pattern buf input : list Z) : option (list Z) :=
  match fuel with
  | O => None
  | S f =>
      let n := read (BUFSIZE - length buf - 1) input in
      if (n =? 0)%nat then Some []
      else
        let p := buf ++ take n input in
        let '(out, rest) := grep_lines (length p) pattern p in
        match grep_loop f pattern rest (drop n input) with
        | Some out' => Some (out ++ out')
        | None => None
        end
  end.
Definition grep (pattern input : list Z) : option (list Z) := grep_loop (S (length input)) pattern [] input.

(** read returns some of what is left, at most what was asked for, and nothing
    only at the end or when nothing was asked for. *)
Definition read_ok : Prop := forall k input,
  (read k input <= k)%nat /\ (read k input <= length input)%nat /\
  ((0 < k)%nat -> input <> [] -> (0 < read k input)%nat).
End grep.

(** The complete lines of a text that continues the line [cur], and the line
    it leaves unfinished. *)
Fixpoint lines (cur l : list Z) : list (list Z) :=
  match l with
  | [] => []
  | c :: l' => if c =? ch_nl then cur :: lines [] l' else lines (cur ++ [c]) l'
  end.
Fixpoint last_line (cur l : list Z) : list Z :=
  match l with
  | [] => cur
  | c :: l' => if c =? ch_nl then last_line [] l' else last_line (cur ++ [c]) l'
  end.

(** What grep is for: the lines that match. *)
Definition selected (pattern : list Z) (ls : list (list Z)) : list Z :=
  mjoin ((fun l => l ++ [ch_nl]) <$> filter (fun l => match_ pattern l = true) ls).

Lemma lines_app a : forall cur b, lines cur (a ++ b) = lines cur a ++ lines (last_line cur a) b.
Proof. induction a as [|c a IH]; intros cur b; [done|]; cbn; destruct (c =? ch_nl); by rewrite IH. Qed.
Lemma last_line_app a : forall cur b, last_line cur (a ++ b) = last_line (last_line cur a) b.
Proof. induction a as [|c a IH]; intros cur b; [done|]; cbn; destruct (c =? ch_nl); by rewrite IH. Qed.

Lemma selected_app pattern a b : selected pattern (a ++ b) = selected pattern a ++ selected pattern b.
Proof. unfold selected; by rewrite filter_app, fmap_app, join_app. Qed.

Lemma selected_cons pattern l ls :
  selected pattern (l :: ls) = (if match_ pattern l then l ++ [ch_nl] else []) ++ selected pattern ls.
Proof. unfold selected; rewrite filter_cons; by destruct (match_ pattern l); [rewrite decide_True|rewrite decide_False]. Qed.

(** A text without newlines is an unfinished line. *)
Lemma unfinished l : forall cur, ch_nl ∉ l -> lines cur l = [] /\ last_line cur l = cur ++ l.
Proof.
  induction l as [|c l IH]; intros cur Hn; cbn; [by rewrite app_nil_r|].
  apply not_elem_of_cons in Hn as [Hc Hn]; rewrite (proj2 (Z.eqb_neq _ _)) by done.
  destruct (IH (cur ++ [c]) Hn) as [-> ->]; by rewrite <- app_assoc.
Qed.

Lemma last_line_clean l : forall cur, ch_nl ∉ cur -> ch_nl ∉ last_line cur l.
Proof.
  induction l as [|c l IH]; intros cur Hc; cbn; [done|]; destruct (Z.eqb_spec c ch_nl); apply IH; [by apply not_elem_of_nil|].
  rewrite elem_of_app, list_elem_of_singleton; naive_solver.
Qed.

Lemma find_nl_spec p :
  0 ∉ p ->
  match find_nl p with
  | Some (a, b) => p = a ++ ch_nl :: b /\ ch_nl ∉ a
  | None => ch_nl ∉ p
  end.
Proof.
  induction p as [|c p IH]; intros H0; cbn; [by apply not_elem_of_nil|].
  apply not_elem_of_cons in H0 as [Hc H0]; rewrite (proj2 (Z.eqb_neq c 0)) by done.
  destruct (Z.eqb_spec c ch_nl) as [->|Hn]; [split; [done|by apply not_elem_of_nil]|].
  specialize (IH H0); destruct (find_nl p) as [[a b]|].
  - destruct IH as [-> Ha]; split; [done|]; by apply not_elem_of_cons.
  - by apply not_elem_of_cons.
Qed.

Lemma grep_lines_spec fuel : forall pattern p, (length p <= fuel)%nat -> 0 ∉ p ->
  grep_lines fuel pattern p = (selected pattern (lines [] p), last_line [] p).
Proof.
  induction fuel as [|f IH]; intros pattern p Hf H0; cbn [grep_lines].
  { by destruct p; [|cbn in Hf; lia]. }
  pose proof (find_nl_spec p H0) as Hp; destruct (find_nl p) as [[a b]|].
  - destruct Hp as [-> Ha]; rewrite length_app in Hf; cbn in Hf.
    rewrite IH by (lia || set_solver); destruct (unfinished a [] Ha) as [H1 H2].
    rewrite lines_app, last_line_app, H1, H2; cbn -[selected]; f_equal.
    rewrite selected_cons; destruct (match_ pattern a); [by rewrite <- app_assoc|done].
  - destruct (unfinished p [] Hp) as [-> ->]; done.
Qed.

Lemma last_line_from l : forall cur x, x ∈ last_line cur l -> x ∈ cur \/ x ∈ l.
Proof.
  induction l as [|c l IH]; intros cur x; cbn; [auto|]; destruct (c =? ch_nl); intros [H|H]%IH; set_solver.
Qed.

(** Lines that fit the buffer. *)
Definition fits (cur l : list Z) : Prop :=
  Forall (fun x => (length x <= 1022)%nat) (lines cur l ++ [last_line cur l]).

Lemma fits_cur l : forall cur, fits cur l -> (length cur <= 1022)%nat.
Proof.
  unfold fits; induction l as [|c l IH]; intros cur; cbn; [by rewrite Forall_singleton|].
  destruct (c =? ch_nl); [by intros [H _]%Forall_cons|]; intros H%IH; rewrite length_app in H; lia.
Qed.
Lemma fits_app cur a b : fits cur (a ++ b) -> fits (last_line cur a) b.
Proof. unfold fits; rewrite lines_app, last_line_app, <- app_assoc; by intros [_ H]%Forall_app. Qed.

Section grep.
Variable read : nat -> list Z -> nat.
Hypothesis Hread : read_ok read.

Lemma grep_loop_spec fuel : forall pattern buf input,
  (length input < fuel)%nat -> 0 ∉ buf ++ input -> ch_nl ∉ buf -> fits buf input ->
  grep_loop read fuel pattern buf input = Some (selected pattern (lines buf input)).
Proof using Hread.
  induction fuel as [|f IH]; intros pattern buf input Hf H0 Hb Hfit; [lia|]; cbn [grep_loop].
  pose proof (fits_cur _ _ Hfit) as Hl; destruct (Hread (BUFSIZE - length buf - 1)%nat input) as (R1 & R2 & R3).
  unfold BUFSIZE in *; set (n := read _ input) in *.
  destruct (Nat.eqb_spec n 0) as [Hn|Hn].
  { destruct input as [|c input]; [done|]; exfalso; specialize (R3 ltac:(lia) ltac:(done)); lia. }
  assert (Hin : input = take n input ++ drop n input) by (by rewrite take_drop).
  rewrite grep_lines_spec by (done || (rewrite Hin in H0; set_solver)).
  destruct (unfinished buf [] Hb) as [B1 B2]; rewrite lines_app, last_line_app, B1, B2; cbn [app].
  rewrite Hin in Hfit; apply fits_app in Hfit.
  assert (Hd : 0 ∉ last_line buf (take n input) ++ drop n input).
  { intros [[H|H]%last_line_from|H]%elem_of_app; apply H0; rewrite Hin; set_solver. }
  rewrite IH; [|rewrite length_drop; lia|done|by apply last_line_clean|done].
  by rewrite <- selected_app, <- lines_app, take_drop.
Qed.

(** grep prints exactly the lines that match.  However read cuts the input
    into pieces, an input without NULs whose lines fit the buffer makes [grep]
    write its complete lines that the pattern selects, in order; and the
    matcher selects a line exactly when the meaning of the pattern does: some
    part of it, from its start after a ^ and to its end before a $, is a
    sequence of the pattern's characters, dots and repetitions. *)
Theorem grep_correct (pattern input : list Z) :
  0 ∉ input -> fits [] input ->
  grep read pattern input =
    Some (mjoin ((fun l => l ++ [ch_nl]) <$> filter (fun l => match_ pattern l = true) (lines [] input))) /\
  forall l, match_ pattern l = true <-> somewhere pattern l.
Proof using Hread.
  intros H0 Hf; split; [|apply match_spec].
  by apply grep_loop_spec; [lia| |apply not_elem_of_nil|].
Qed.
End grep.

(** A read that returns at most three bytes at a time. *)
Definition demo_read (k : nat) (input : list Z) : nat := Nat.min 3 (Nat.min k (length input)).
Lemma demo_read_ok : read_ok demo_read.
Proof. intros k [|c input]; unfold demo_read; cbn [length]; split_and!; try lia; done. Qed.

Lemma grep_correct_witness :
  grep demo_read (str "^b.*d$") (str "abd" ++ [10] ++ str "bcccd" ++ [10] ++ str "bd" ++ [10] ++ str "bdx" ++ [10]) =
    Some (str "bcccd" ++ [10] ++ str "bd" ++ [10]).
Proof.
  set (i := str "abd" ++ [10] ++ str "bcccd" ++ [10] ++ str "bd" ++ [10] ++ str "bdx" ++ [10]).
  destruct (grep_correct demo_read demo_read_ok (str "^b.*d$") i) as [H _].
  - vm_compute; intros H; repeat (apply elem_of_cons in H as [H|H]; [discriminate|]); by apply elem_of_nil in H.
  - unfold fits; vm_compute; repeat constructor.
  - rewrite H; vm_compute; reflexivity.
Defined.

(** A line that does not fit ends the search: the line after it matches and is
    not printed. *)
Lemma grep_long_line :
  grep (fun k input => Nat.min k (length input)) (str "x") (replicate 1023 97 ++ [10] ++ str "x" ++ [10]) = Some [] /\
  match_ (str "x") (str "x") = true.
Proof. vm_compute; by split. Qed.

