(* ===== verification/Umalloc.v ===== *)
(** * user/umalloc.c

    The allocator of user programs: a circular list of free blocks in order of
    address.  Memory is seen as headers, sixteen bytes each; adding to a
    [Header *] moves by that much.  Loops over the list take fuel, [None] when
    it runs out. *)

From stdpp Require Import functions.
From S2P Require Import Prelude.

Definition SZ : Z := 16.   (* sizeof(Header) *)

(** The [ptr] and [size] fields of the header at an address, the variable
    [freep], and the end of the process's memory. *)
Record heap : Type := Heap {
  hptr : Z -> Z;
  hsize : Z -> Z;
  freep : Z;
  brk : Z
}.
Definition set_ptr (a v : Z) (h : heap) : heap := Heap (<[a := v]> (hptr h)) (hsize h) (freep h) (brk h).
Definition set_size (a v : Z) (h : heap) : heap := Heap (hptr h) (<[a := u32 v]> (hsize h)) (freep h) (brk h).
Definition set_freep (v : Z) (h : heap) : heap := Heap (hptr h) (hsize h) v (brk h).
Definition set_brk (v : Z) (h : heap) : heap := Heap (hptr h) (hsize h) (freep h) v.

(** The loop of [free]: the block after which [bp] belongs. *)
Fixpoint free_loop (fuel : nat) (h : heap) (bp p : Z) : option Z :=
  match fuel with
  | O => None
  | S f =>
      let nx := hptr h p in
      if (p <? bp) && (bp <? nx) then Some p
      else if (nx <=? p) && ((p <? bp) || (bp <? nx)) then Some p
      else free_loop f h bp nx
  end.

(** The two merges. *)
Definition join_next (bp p : Z) (h : heap) : heap :=
  let nx := hptr h p in
  if bp + SZ * hsize h bp =? nx
  then set_ptr bp (hptr h nx) (set_size bp (hsize h bp + hsize h nx) h)
  else set_ptr bp nx h.
Definition join_prev (bp p : Z) (h : heap) : heap :=
  if p + SZ * hsize h p =? bp
  then set_ptr p (hptr h bp) (set_size p (hsize h p + hsize h bp) h)
  else set_ptr p bp h.

Definition free (fuel : nat) (ap : Z) (h : heap) : option heap :=
  let bp := ap - SZ in
  match free_loop fuel h bp (freep h) with
  | None => None
  | Some p => Some (set_freep p (join_prev bp p (join_next bp p h)))
  end.

Section malloc.
Variable base : Z.                  (* &base *)
Variable grants : Z -> Z -> bool.   (* whether the kernel grows the process by so much *)

(** [sbrk(n)] takes an int; nothing stands for the result -1. *)
Definition sbrk (n : Z) (h : heap) : option (Z * heap) :=
  let n := i32 n in
  if grants (brk h) n then Some (brk h, set_brk (brk h + n) h) else None.

(** The new [freep] and heap; [Some None] when there is no memory. *)
Definition morecore (fuel : nat) (nu : Z) (h : heap) : option (option heap) :=
  let nu := if nu <? 4096 then 4096 else nu in
  match sbrk (nu * SZ) h with
  | None => Some None
  | Some (p, h) =>
      match free fuel (p + SZ) (set_size p nu h) with
      | Some h => Some (Some h)
      | None => None
      end
  end.

(** [p] is a large enough block and [prevp] the one before it. *)
Definition take_block (prevp p nunits : Z) (h : heap) : Z * heap :=
  if hsize h p =? nunits then (p + SZ, set_freep prevp (set_ptr prevp (hptr h p) h))
  else
    let h := set_size p (hsize h p - nunits) h in
    let q := p + SZ * hsize h p in
    (q + SZ, set_freep prevp (set_size q nunits h)).

Fixpoint malloc_loop (fuel ffuel : nat) (prevp p nunits : Z) (h : heap) : option (Z * heap) :=
  match fuel with
  | O => None
  | S f =>
      if nunits <=? hsize h p then Some (take_block prevp p nunits h)
      else if p =? freep h then
        match morecore ffuel nunits h with
        | None => None
        | Some None => Some (0, h)
        | Some (Some h) => malloc_loop f ffuel (freep h) (hptr h (freep h)) nunits h
        end
      else malloc_loop f ffuel p (hptr h p) nunits h
  end.

Definition nunits_of (nbytes : Z) : Z := u32 ((nbytes + SZ - 1) / SZ + 1).
Definition malloc (fuel ffuel : nat) (nbytes : Z) (h : heap) : option (Z * heap) :=
  let nunits := nunits_of nbytes in
  let h := if freep h =? 0 then set_size base 0 (set_freep base (set_ptr base base h)) else h in
  malloc_loop fuel ffuel (freep h) (hptr h (freep h)) nunits h.
End malloc.
