(* ===== verification/UmallocOk.v ===== *)
(** * The user allocator is correct

    The heap as a sorted list of free blocks, no two of them adjacent, and a
    map of allocated ones: malloc and free keep it, hand out disjoint blocks
    and lose nothing. *)

From stdpp Require Import functions gmap sorting.
From S2P Require Import Prelude Umalloc.

Section heap.
Variable base : Z.

(** Two blocks, by address and size in units, share no byte. *)
Definition apart (a n b m : Z) : Prop := a + SZ * n <= b \/ b + SZ * m <= a.

(** The block after the one at index [i], in the circle. *)
Definition nxt (n i : nat) : nat := if (S i <? n)%nat then S i else 0%nat.
Definition addr (L : list (Z * Z)) (i : nat) : Z := (default (base, 0) (L !! i)).1.

(** A block of the heap. *)
Definition block_ok (top : Z) (x : Z * Z) : Prop :=
  base < x.1 /\ 1 <= x.2 /\ x.1 + SZ * x.2 <= top /\ x.1 mod SZ = 0.

(** The headers of [L] hold their sizes and lead from one to the next, the
    last one to [last]. *)
Definition head_addr (L : list (Z * Z)) (last : Z) : Z :=
  match L with [] => last | x :: _ => x.1 end.
Fixpoint chain (h : heap) (L : list (Z * Z)) (last : Z) : Prop :=
  match L with
  | [] => True
  | x :: r => hsize h x.1 = x.2 /\ hptr h x.1 = head_addr r last /\ chain h r last
  end.

(** One block ends below the start of the other. *)
Definition before (x y : Z * Z) : Prop := x.1 + SZ * x.2 < y.1.

(** [L] is the free list, its first block the static header [base], and [A]
    the allocated blocks by the address of their header. *)
Record heap_inv (h : heap) (L : list (Z * Z)) (A : gmap Z Z) : Prop := {
  h_top : base < brk h < base + 2 ^ 36 /\ brk h mod SZ = 0;
  h_first : L !! 0%nat = Some (base, 0);
  h_blocks : Forall (fun x => x = (base, 0) \/ block_ok (brk h) x) L;
  h_sorted : StronglySorted before L;
  h_links : chain h L base;
  h_freep : freep h ∈ L.*1;
  h_alloc a n : A !! a = Some n -> block_ok (brk h) (a, n) /\ hsize h a = n;
  h_apart x a n : x ∈ L -> A !! a = Some n -> apart x.1 x.2 a n;
  h_disjoint a n b m : A !! a = Some n -> A !! b = Some m -> a <> b -> apart a n b m
}.

(** The bytes of the free blocks. *)
Definition free_byte (L : list (Z * Z)) (y : Z) : Prop := exists x, x ∈ L /\ x.1 <= y < x.1 + SZ * x.2.

(** ** Walking round the list *)

Definition dist (n i j : nat) : nat := if (i <=? j)%nat then (j - i)%nat else (n - i + j)%nat.

Lemma nxt_lt n i : (i < n)%nat -> (nxt n i < n)%nat.
Proof. unfold nxt; destruct (Nat.ltb_spec (S i) n); lia. Qed.

Lemma dist_nxt n i j : (i < n)%nat -> (j < n)%nat -> i <> j -> dist n i j = S (dist n (nxt n i) j).
Proof.
  unfold dist, nxt; intros Hi Hj Hne; destruct (Nat.ltb_spec (S i) n), (Nat.leb_spec i j);
    repeat match goal with |- context [(?a <=? ?b)%nat] => destruct (Nat.leb_spec a b) end; lia.
Qed.
Lemma dist_self n i : dist n i i = 0%nat.
Proof. unfold dist; rewrite Nat.leb_refl; lia. Qed.
Lemma dist_zero n i j : (i < n)%nat -> (j < n)%nat -> dist n i j = 0%nat -> i = j.
Proof. unfold dist; destruct (Nat.leb_spec i j); lia. Qed.
Lemma dist_bound n i j : (i < n)%nat -> (j < n)%nat -> (dist n i j < n)%nat.
Proof. unfold dist; destruct (Nat.leb_spec i j); lia. Qed.
Lemma dist_full n i : (i < n)%nat -> dist n (nxt n i) i = (n - 1)%nat.
Proof.
  unfold dist, nxt; intros Hi; destruct (Nat.ltb_spec (S i) n);
    repeat match goal with |- context [(?a <=? ?b)%nat] => destruct (Nat.leb_spec a b) end; lia.
Qed.

Lemma addr_at L i x : L !! i = Some x -> addr L i = x.1.
Proof. unfold addr; by intros ->. Qed.

Lemma chain_lookup h last : forall L i x,
  chain h L last -> L !! i = Some x ->
  hsize h x.1 = x.2 /\ hptr h x.1 = match L !! S i with Some y => y.1 | None => last end.
Proof.
  induction L as [|y L IH]; intros i x Hc Hx; [done|]; destruct Hc as (Hs & Hp & Hc); destruct i as [|i].
  - injection Hx as <-; split; [done|]; rewrite Hp; by destruct L.
  - by apply (IH i x Hc).
Qed.

Lemma sorted_lookup (R : Z * Z -> Z * Z -> Prop) : forall L i j x y,
  StronglySorted R L -> (i < j)%nat -> L !! i = Some x -> L !! j = Some y -> R x y.
Proof.
  induction L as [|z L IH]; intros i j x y Hs Hl Hx Hy; [done|].
  apply StronglySorted_inv in Hs as [Hs Hf]; destruct j as [|j]; [lia|]; destruct i as [|i].
  - injection Hx as <-; rewrite Forall_lookup in Hf; by apply (Hf j).
  - apply (IH i j); [done|lia|done|done].
Qed.

Lemma link_addr h L A i : heap_inv h L A -> (i < length L)%nat -> hptr h (addr L i) = addr L (nxt (length L) i).
Proof.
  intros Hi Hl; destruct (lookup_lt_is_Some_2 L i Hl) as [x Hx]; rewrite (addr_at _ _ _ Hx).
  rewrite (proj2 (chain_lookup _ _ _ _ _ (h_links _ _ _ Hi) Hx)); unfold nxt.
  destruct (Nat.ltb_spec (S i) (length L)) as [Hs|Hs].
  - destruct (lookup_lt_is_Some_2 L (S i) Hs) as [y Hy]; by rewrite Hy, (addr_at _ _ _ Hy).
  - by rewrite (lookup_ge_None_2 L (S i)), (addr_at _ _ _ (h_first _ _ _ Hi)).
Qed.

(** Addresses increase along the list. *)
Lemma size_nonneg h L A x : heap_inv h L A -> x ∈ L -> 0 <= x.2 /\ base <= x.1.
Proof.
  intros Hi Hx; pose proof (h_blocks _ _ _ Hi) as Hb; rewrite Forall_forall in Hb.
  destruct (Hb x Hx) as [->|(? & ? & _)]; cbn; lia.
Qed.
Lemma addr_lt h L A i j : heap_inv h L A -> (i < j < length L)%nat -> addr L i < addr L j.
Proof.
  intros Hi Hl; destruct (lookup_lt_is_Some_2 L i) as [x Hx]; [lia|]; destruct (lookup_lt_is_Some_2 L j) as [y Hy]; [lia|].
  rewrite (addr_at _ _ _ Hx), (addr_at _ _ _ Hy).
  pose proof (sorted_lookup _ _ i j x y (h_sorted _ _ _ Hi) ltac:(lia) Hx Hy) as Hb.
  pose proof (size_nonneg _ _ _ _ Hi (list_elem_of_lookup_2 _ _ _ Hx)); unfold before, SZ in *; lia.
Qed.
Lemma addr_le h L A i j : heap_inv h L A -> (i <= j < length L)%nat -> addr L i <= addr L j.
Proof. intros Hi Hl; destruct (decide (i = j)) as [->|]; [lia|]; pose proof (addr_lt _ _ _ i j Hi ltac:(lia)); lia. Qed.

(** The last block below an address. *)
Lemma below_exists h L A a :
  heap_inv h L A -> base < a -> (forall i x, L !! i = Some x -> x.1 <> a) ->
  exists j, (j < length L)%nat /\ addr L j < a /\ (forall k, (j < k < length L)%nat -> a < addr L k).
Proof.
  intros Hi Ha Hne.
  assert (H0 : (0 < length L)%nat) by (eapply lookup_lt_Some, (h_first _ _ _ Hi)).
  assert (Hd : forall n, (0 < n <= length L)%nat ->
    exists j, (j < n)%nat /\ addr L j < a /\ (forall k, (j < k < n)%nat -> a < addr L k)).
  { induction n as [|n IH]; [lia|]; intros Hn; destruct (decide (addr L n < a)) as [Hlt|Hge].
    - exists n; split; [lia|]; split; [done|]; intros; lia.
    - destruct n as [|n].
      + rewrite (addr_at _ _ _ (h_first _ _ _ Hi)) in Hge; cbn in Hge; lia.
      + destruct IH as (j & Hj & Hja & Hk); [lia|]; exists j; split; [lia|]; split; [done|].
        intros k Hk'; destruct (decide (k = S n)) as [->|]; [|apply Hk; lia].
        destruct (lookup_lt_is_Some_2 L (S n)) as [x Hx]; [lia|]; pose proof (Hne _ _ Hx); rewrite (addr_at _ _ _ Hx) in *; lia. }
  by apply (Hd (length L)).
Qed.

(** The search of [free] ends at that block, from wherever it starts. *)
Lemma free_loop_spec h L A bp j :
  heap_inv h L A -> base < bp -> (j < length L)%nat -> addr L j < bp ->
  (forall k, (j < k < length L)%nat -> bp < addr L k) ->
  forall fuel i, (i < length L)%nat -> (dist (length L) i j < fuel)%nat -> free_loop fuel h bp (addr L i) = Some (addr L j).
Proof.
  intros Hi Hb Hj Hja Hjk; pose proof (addr_at _ _ _ (h_first _ _ _ Hi)) as H0; cbn in H0.
  induction fuel as [|f IH]; intros i Hl Hd; [lia|]; cbn [free_loop]; rewrite (link_addr _ _ _ _ Hi Hl).
  destruct (decide (i = j)) as [->|Hne].
  - unfold nxt; destruct (Nat.ltb_spec (S j) (length L)) as [Hs|Hs].
    + pose proof (Hjk (S j) ltac:(lia)); rewrite (proj2 (Z.ltb_lt _ _) Hja), (proj2 (Z.ltb_lt bp (addr L (S j)))) by assumption; done.
    + rewrite H0, (proj2 (Z.ltb_lt _ _) Hja), (proj2 (Z.ltb_ge bp base)) by lia; cbn [andb orb].
      rewrite <- H0, (proj2 (Z.leb_le _ _)); [done|]; apply (addr_le _ _ _ _ _ Hi); lia.
  - rewrite (dist_nxt _ _ _ Hl Hj Hne) in Hd.
    assert ((addr L i <? bp) && (bp <? addr L (nxt (length L) i)) = false /\
      (addr L (nxt (length L) i) <=? addr L i) && ((addr L i <? bp) || (bp <? addr L (nxt (length L) i))) = false) as [-> ->].
    { unfold nxt; destruct (Nat.ltb_spec (S i) (length L)) as [Hs|Hs].
      - pose proof (addr_lt _ _ _ i (S i) Hi ltac:(lia)); destruct (decide (i < j)%nat).
        + pose proof (addr_le _ _ _ (S i) j Hi ltac:(lia)); lia.
        + pose proof (Hjk i ltac:(lia)); lia.
      - rewrite H0; pose proof (Hjk i ltac:(lia)); lia. }
    apply IH; [by apply nxt_lt|lia].
Qed.

(** ** Replacing a stretch of the list *)

Lemma chain_app h last : forall l1 l2,
  chain h (l1 ++ l2) last <-> chain h l1 (head_addr l2 last) /\ chain h l2 last.
Proof.
  induction l1 as [|x l1 IH]; intros l2; cbn [app chain]; [tauto|]; rewrite IH.
  replace (head_addr (l1 ++ l2) last) with (head_addr l1 (head_addr l2 last)) by (by destruct l1); tauto.
Qed.
Lemma chain_ext h h' last : forall L,
  (forall x, x ∈ L -> hsize h' x.1 = hsize h x.1 /\ hptr h' x.1 = hptr h x.1) -> chain h L last -> chain h' L last.
Proof.
  induction L as [|x L IH]; intros He Hc; cbn [chain] in *; [done|]; destruct Hc as (Hs & Hp & Hc).
  destruct (He x (list_elem_of_here _ _)) as [-> ->]; split_and!; [done|done|].
  apply IH; [|done]; intros y Hy; apply He; by right.
Qed.

Definition node_ok (top : Z) (x : Z * Z) : Prop := x = (base, 0) \/ block_ok top x.

(** Everything a stretch [x' :: m'] has to satisfy to take the place of
    [x :: m], which starts at the same address. *)
Lemma inv_splice h h' l1 x m x' m' l2 A A' :
  heap_inv h (l1 ++ (x :: m) ++ l2) A ->
  brk h' = brk h -> freep h' = x.1 -> x'.1 = x.1 -> (x = (base, 0) -> x' = x) ->
  Forall (node_ok (brk h)) (x' :: m') -> StronglySorted before (x' :: m') ->
  (forall y z, y ∈ x' :: m' -> z ∈ l2 -> before y z) ->
  chain h' (x' :: m') (head_addr l2 base) ->
  (forall y, y ∈ l1 \/ y ∈ l2 -> hsize h' y.1 = hsize h y.1 /\ hptr h' y.1 = hptr h y.1) ->
  (forall a n, A' !! a = Some n -> block_ok (brk h) (a, n) /\ hsize h' a = n) ->
  (forall y a n, y ∈ l1 \/ y ∈ x' :: m' \/ y ∈ l2 -> A' !! a = Some n -> apart y.1 y.2 a n) ->
  (forall a n b k, A' !! a = Some n -> A' !! b = Some k -> a <> b -> apart a n b k) ->
  heap_inv h' (l1 ++ (x' :: m') ++ l2) A'.
Proof.
  intros [Ht Hf Hb Hs Hl Hp _ _ _] Hbrk Hfr Hx Hx0 Hb' Hs' Hc Hch Hmem Ha Hap Hd.
  rewrite !Forall_app in Hb; destruct Hb as (Hb1 & _ & Hb2).
  apply StronglySorted_app in Hs as (Hs1 & Hs2 & Hs3); pose proof Hs3 as (Hs4 & _ & Hs5)%StronglySorted_app.
  apply chain_app in Hl as (Hl1 & _ & Hl2)%(fun H => conj (proj1 H) (proj1 (chain_app _ _ _ _) (proj2 H))).
  constructor; rewrite ?Hbrk; try done.
  - destruct l1 as [|y l1]; [|done]; cbn in Hf |- *; injection Hf as Hf; by rewrite (Hx0 Hf), Hf.
  - by rewrite !Forall_app.
  - apply StronglySorted_app_2; [|done|by apply StronglySorted_app_2].
    intros y z Hy [Hz|Hz]%elem_of_app; [|apply Hs1; [done|]; apply elem_of_app; by right].
    pose proof (Hs1 y x Hy ltac:(left)) as Hyx; unfold before in *; apply StronglySorted_inv in Hs' as [_ Hf'].
    apply elem_of_cons in Hz as [->|Hz]; [by rewrite Hx|]; rewrite Forall_forall in Hf'; specialize (Hf' z Hz).
    rewrite Forall_cons in Hb'; destruct Hb' as [[->|(_ & ? & _)] _]; cbn [fst snd] in *; unfold SZ in *; lia.
  - apply chain_app; split; [|apply chain_app; split; [done|]].
    + cbn [app head_addr] in *; rewrite Hx; apply (chain_ext h); [|done]; intros y Hy; apply Hmem; by left.
    + apply (chain_ext h); [|done]; intros y Hy; apply Hmem; by right.
  - rewrite Hfr, <- Hx; apply list_elem_of_fmap_2; rewrite !elem_of_app; right; left; left.
  - intros y a n; rewrite !elem_of_app; intros Hy; apply Hap; tauto.
Qed.

(** ** Free *)

(** Where the block at [bp] lies: after the free block [(p, sp)], before the
    blocks of [l2]. *)
Record gap (h : heap) (l1 : list (Z * Z)) (p sp : Z) (l2 : list (Z * Z)) (A : gmap Z Z) (bp n : Z) : Prop := {
  g_inv : heap_inv h (l1 ++ (p, sp) :: l2) A;
  g_alloc : A !! bp = Some n;
  g_low : p < bp;
  g_high y : y ∈ l2 -> bp < y.1
}.

Lemma gap_facts h l1 p sp l2 A bp n :
  gap h l1 p sp l2 A bp n ->
  p + SZ * sp <= bp /\ 0 <= sp /\ base <= p /\ (forall y, y ∈ l1 -> y.1 < p /\ y.1 < bp) /\
  (forall y, y ∈ l2 -> bp + SZ * n <= y.1 /\ block_ok (brk h) y) /\ block_ok (brk h) (bp, n) /\
  hsize h bp = n /\ hsize h p = sp /\ hptr h p = head_addr l2 base.
Proof.
  intros [Hi Ha Hlo Hhi]; destruct (h_alloc _ _ _ Hi _ _ Ha) as [Hb Hn].
  assert (Hp : (p, sp) ∈ l1 ++ (p, sp) :: l2) by (apply elem_of_app; right; left).
  destruct (size_nonneg _ _ _ _ Hi Hp) as [Hs0 Hp0]; cbn [fst snd] in *.
  pose proof (h_apart _ _ _ Hi _ _ _ Hp Ha) as Hap; destruct Hb as (Hb1 & Hb2 & Hb3); unfold apart in Hap; cbn [fst snd] in *.
  pose proof (proj2 (proj1 (chain_app _ _ _ _) (h_links _ _ _ Hi))) as (Hls & Hlp & _).
  pose proof (proj1 (StronglySorted_app _ _ _) (h_sorted _ _ _ Hi)) as (Hs1 & _ & Hs2).
  split; [unfold SZ in *; lia|]; split_and!; try done.
  - intros y Hy; pose proof (Hs1 y (p, sp) Hy ltac:(left)) as Hb.
    destruct (size_nonneg _ _ _ y Hi ltac:(apply elem_of_app; by left)); unfold before, SZ in *; cbn in Hb; lia.
  - intros y Hy; assert (Hy' : y ∈ l1 ++ (p, sp) :: l2) by (apply elem_of_app; right; by right).
    pose proof (h_apart _ _ _ Hi _ _ _ Hy' Ha) as Hay; destruct (size_nonneg _ _ _ y Hi Hy'); pose proof (Hhi y Hy).
    split; [unfold apart, SZ in *; lia|].
    pose proof (h_blocks _ _ _ Hi) as Hbl; rewrite Forall_forall in Hbl; destruct (Hbl y Hy') as [->|]; [cbn in *; lia|done].
Qed.

(** After the first merge: [m] is what it took in of the list, [l2'] what is
    left after the block, which has [n'] units now. *)
Definition joined (h : heap) (m l2' : list (Z * Z)) (A : gmap Z Z) (bp n n' : Z) (h1 : heap) : Prop :=
  hsize h1 bp = n' /\ hptr h1 bp = head_addr l2' base /\ brk h1 = brk h /\
  (forall a, a <> bp -> hsize h1 a = hsize h a /\ hptr h1 a = hptr h a) /\
  block_ok (brk h) (bp, n') /\ (forall y, y ∈ l2' -> bp + SZ * n' < y.1) /\
  (forall a k, a <> bp -> A !! a = Some k -> apart bp n' a k) /\
  (forall z, bp <= z < bp + SZ * n' <-> free_byte m z \/ bp <= z < bp + SZ * n).

Lemma join_next_spec h l1 p sp l2 A bp n :
  gap h l1 p sp l2 A bp n -> exists m l2' n', l2 = m ++ l2' /\ joined h m l2' A bp n n' (join_next bp p h).
Proof.
  intros Hg; pose proof Hg as [Hi Ha _ _]; destruct (gap_facts _ _ _ _ _ _ _ _ Hg) as (_ & _ & _ & _ & H2 & (Hb1 & Hb2 & Hb3 & Hb4) & Hn & _ & Hp).
  cbn [fst snd] in *; unfold join_next, joined; rewrite Hn, Hp.
  destruct l2 as [|[q sq] l2]; cbn [head_addr] in *.
  { rewrite (proj2 (Z.eqb_neq _ _)) by (unfold SZ; lia); exists [], [], n; cbn.
    rewrite fn_lookup_insert; split_and!; try done; [by intros; rewrite fn_lookup_insert_ne|set_solver| |].
    - intros a k Hne Hk; by apply (h_disjoint _ _ _ Hi).
    - intros z; split; [by right|]; intros [(x & Hx & _)|]; [set_solver|done]. }
  destruct (H2 (q, sq) ltac:(left)) as [Hq (Hq1 & Hq2 & Hq3 & _)]; cbn [fst snd] in *.
  assert (Hord : forall y, y ∈ l2 -> q + SZ * sq < y.1).
  { pose proof (proj1 (StronglySorted_app _ _ _) (h_sorted _ _ _ Hi)) as (_ & _ & Hs).
    apply StronglySorted_inv in Hs as [Hs _]; apply StronglySorted_inv in Hs as [_ Hs]; rewrite Forall_forall in Hs; exact Hs. }
  pose proof (proj2 (proj1 (chain_app _ _ _ _) (h_links _ _ _ Hi))) as (_ & _ & Hqs & Hqp & _); cbn [fst snd] in *.
  case_eq (bp + SZ * n =? q); intros Heq.
  - apply Z.eqb_eq in Heq; pose proof (h_top _ _ _ Hi) as [Htop _].
    exists [(q, sq)], l2, (n + sq); cbn; rewrite !fn_lookup_insert, Hqs, Hqp, u32_small by (unfold SZ in *; lia).
    assert (Hok : block_ok (brk h) (bp, n + sq)) by (unfold block_ok, SZ in *; cbn [fst snd]; lia).
    do 4 (split; [done|]); split; [intros a Hne; by rewrite !fn_lookup_insert_ne|]; split; [exact Hok|split_and!].
    + intros y Hy; specialize (Hord y Hy); unfold SZ in *; lia.
    + intros a k Hne Hk; pose proof (h_disjoint _ _ _ Hi _ _ _ _ Ha Hk ltac:(done)).
      assert (Hqin : (q, sq) ∈ l1 ++ (p, sp) :: (q, sq) :: l2) by (rewrite elem_of_app; right; right; left).
      pose proof (h_apart _ _ _ Hi _ _ _ Hqin Hk); pose proof (h_alloc _ _ _ Hi _ _ Hk) as ((_ & ? & _) & _).
      unfold apart, SZ in *; cbn in *; lia.
    + intros z; unfold free_byte; split.
      * intros Hz; destruct (decide (z < q)); [right; unfold SZ in *; lia|left; exists (q, sq); cbn; split; [left|unfold SZ in *; lia]].
      * intros [(x & ->%list_elem_of_singleton & Hx)|]; cbn in *; unfold SZ in *; lia.
  - apply Z.eqb_neq in Heq; exists [], ((q, sq) :: l2), n; cbn; rewrite fn_lookup_insert.
    split_and!; try done; [by intros; rewrite fn_lookup_insert_ne| | |].
    + intros y [->|Hy]%elem_of_cons; [cbn; lia|]; specialize (Hord y Hy); unfold SZ in *; lia.
    + intros a k Hne Hk; by apply (h_disjoint _ _ _ Hi).
    + intros z; split; [by right|]; intros [(x & Hx & _)|]; [set_solver|done].
Qed.

Lemma free_byte_app l1 l2 z : free_byte (l1 ++ l2) z <-> free_byte l1 z \/ free_byte l2 z.
Proof. unfold free_byte; setoid_rewrite elem_of_app; naive_solver. Qed.
Lemma free_byte_cons x l z : free_byte (x :: l) z <-> (x.1 <= z < x.1 + SZ * x.2) \/ free_byte l z.
Proof. unfold free_byte; setoid_rewrite elem_of_cons; naive_solver. Qed.
Lemma free_byte_nil z : free_byte [] z <-> False.
Proof. unfold free_byte; split; [intros (x & Hx & _); set_solver|done]. Qed.

(** What freeing the block at [bp] has to do. *)
Definition freed (h : heap) (L : list (Z * Z)) (A : gmap Z Z) (bp n : Z) (h' : heap) (L' : list (Z * Z)) : Prop :=
  heap_inv h' L' (delete bp A) /\ brk h' = brk h /\ (length L' <= S (length L))%nat /\
  (forall z, free_byte L' z <-> free_byte L z \/ bp <= z < bp + SZ * n) /\
  (exists x, x ∈ L' /\ n <= x.2).

(** The other allocated blocks are elsewhere. *)
Lemma gap_others h l1 p sp l2 A bp n a k :
  gap h l1 p sp l2 A bp n -> delete bp A !! a = Some k ->
  a <> bp /\ a <> p /\ A !! a = Some k /\ apart p sp a k /\ 1 <= k /\ hsize h a = k /\ block_ok (brk h) (a, k).
Proof.
  intros [Hi Ha Hlo Hhi] [Hne Hk]%lookup_delete_Some; destruct (h_alloc _ _ _ Hi _ _ Hk) as [Hok Hs].
  assert (Hpin : (p, sp) ∈ l1 ++ (p, sp) :: l2) by (rewrite elem_of_app; right; left).
  pose proof (h_apart _ _ _ Hi _ _ _ Hpin Hk) as Hap; pose proof Hok as (Hk1 & Hk2 & _); cbn [fst snd] in *.
  split_and!; try done; intros ->; pose proof (h_blocks _ _ _ Hi) as Hf; rewrite Forall_forall in Hf.
  destruct (Hf _ Hpin) as [[= -> ->]|(_ & ? & _)]; [lia|]; unfold apart, SZ in *; cbn [fst snd] in *; lia.
Qed.

Lemma joined_grows h m l2' A bp n n' h1 : 1 <= n -> joined h m l2' A bp n n' h1 -> n <= n'.
Proof.
  intros Hn (_ & _ & _ & _ & _ & _ & _ & Hz); destruct (decide (n' < n)); [|lia].
  destruct (proj2 (Hz (bp + SZ * n - 1)) ltac:(right; unfold SZ in *; lia)); unfold SZ in *; lia.
Qed.

(** The second merge, when the free block before it touches it. *)
Lemma free_merge h l1 p sp m l2 A bp n n' h1 :
  gap h l1 p sp (m ++ l2) A bp n -> joined h m l2 A bp n n' h1 -> p + SZ * sp = bp -> u32 (sp + n') = sp + n' ->
  heap_inv (set_freep p (set_ptr p (hptr h1 bp) (set_size p (sp + n') h1))) (l1 ++ [(p, sp + n')] ++ l2) (delete bp A).
Proof.
  intros Hg (Hs1 & Hp1 & Hk1 & He1 & (Hb1 & Hb2 & Hb3 & Hb4) & H2' & Hap & Hz) Heq Hu; pose proof Hg as [Hi Ha Hlo Hhi].
  destruct (gap_facts _ _ _ _ _ _ _ _ Hg) as (Hpb & Hsp & Hbp & H1 & H2 & _); cbn [fst snd] in *.
  refine (inv_splice h _ l1 (p, sp) m (p, sp + n') [] l2 A _ Hi _ _ _ _ _ _ _ _ _ _ _ _);
    cbn [brk freep hsize hptr set_freep set_ptr set_size fst snd]; rewrite ?Hu; try done.
  - intros [= -> ->]; unfold SZ in *; lia.
  - apply Forall_singleton; right; pose proof (h_blocks _ _ _ Hi) as Hf; rewrite Forall_app, Forall_cons in Hf.
    destruct Hf as (_ & [[= -> ->]|(? & ? & ? & ?)] & _); unfold block_ok, SZ in *; cbn [fst snd] in *; lia.
  - repeat constructor.
  - intros y z ->%list_elem_of_singleton Hz2; specialize (H2' z Hz2); unfold before, SZ in *; cbn; lia.
  - cbn; by rewrite !fn_lookup_insert.
  - intros y Hy; assert (y.1 <> p /\ y.1 <> bp) as [Hy1 Hy2].
    { destruct Hy as [Hy|Hy]; [specialize (H1 y Hy)|specialize (H2' y Hy)]; unfold SZ in *; lia. }
    rewrite !fn_lookup_insert_ne by done; by apply He1.
  - intros a k Hk; destruct (gap_others _ _ _ _ _ _ _ _ _ _ Hg Hk) as (Hne & Hnp & _ & _ & _ & <- & Hok).
    by rewrite fn_lookup_insert_ne, (proj1 (He1 a Hne)).
  - intros y a k Hy Hk; destruct (gap_others _ _ _ _ _ _ _ _ _ _ Hg Hk) as (Hne & _ & Hk' & Hpk & Hk1' & _).
    assert (y ∈ l1 ++ (p, sp) :: m ++ l2 \/ y = (p, sp + n')) as [Hy'| ->] by set_solver; [by apply (h_apart _ _ _ Hi)|].
    pose proof (Hap a k Hne Hk'); unfold apart, SZ in *; cbn [fst snd]; lia.
  - intros a k b k' (_ & Hk)%lookup_delete_Some (_ & Hk')%lookup_delete_Some; by apply (h_disjoint _ _ _ Hi).
Qed.

(** And when it does not. *)
Lemma free_insert h l1 p sp m l2 A bp n n' h1 :
  gap h l1 p sp (m ++ l2) A bp n -> joined h m l2 A bp n n' h1 -> p + SZ * sp <> bp ->
  heap_inv (set_freep p (set_ptr p bp h1)) (l1 ++ [(p, sp); (bp, n')] ++ l2) (delete bp A).
Proof.
  intros Hg (Hs1 & Hp1 & Hk1 & He1 & Hb & H2' & Hap & Hz) Heq; pose proof Hg as [Hi Ha Hlo Hhi].
  destruct (gap_facts _ _ _ _ _ _ _ _ Hg) as (Hpb & Hsp & Hbp & H1 & H2 & _ & _ & Hps & Hpp); cbn [fst snd] in *.
  pose proof Hb as (_ & Hb2 & _); cbn [fst snd] in *.
  refine (inv_splice h _ l1 (p, sp) m (p, sp) [(bp, n')] l2 A _ Hi _ _ _ _ _ _ _ _ _ _ _ _);
    cbn [brk freep hsize hptr set_freep set_ptr fst snd]; try done.
  - pose proof (h_blocks _ _ _ Hi) as Hf; rewrite Forall_app, Forall_cons in Hf; destruct Hf as (_ & Hf & _).
    apply Forall_cons; split; [done|]; apply Forall_singleton; by right.
  - repeat constructor; unfold before; cbn; lia.
  - intros y z Hy Hz2; specialize (H2' z Hz2); rewrite elem_of_cons, list_elem_of_singleton in Hy.
    destruct Hy as [->| ->]; unfold before, SZ in *; cbn; lia.
  - cbn; rewrite fn_lookup_insert, fn_lookup_insert_ne by lia; by rewrite (proj1 (He1 p ltac:(lia))).
  - intros y Hy; assert (y.1 <> p /\ y.1 <> bp) as [Hy1 Hy2].
    { destruct Hy as [Hy|Hy]; [specialize (H1 y Hy)|specialize (H2' y Hy)]; unfold SZ in *; lia. }
    rewrite !fn_lookup_insert_ne by done; by apply He1.
  - intros a k Hk; destruct (gap_others _ _ _ _ _ _ _ _ _ _ Hg Hk) as (Hne & Hnp & _ & _ & _ & <- & Hok).
    by rewrite (proj1 (He1 a Hne)).
  - intros y a k Hy Hk; destruct (gap_others _ _ _ _ _ _ _ _ _ _ Hg Hk) as (Hne & _ & Hk' & Hpk & Hk1' & _).
    assert (y ∈ l1 ++ (p, sp) :: m ++ l2 \/ y = (bp, n')) as [Hy'| ->] by set_solver; [by apply (h_apart _ _ _ Hi)|].
    by apply Hap.
  - intros a k b k' (_ & Hk)%lookup_delete_Some (_ & Hk')%lookup_delete_Some; by apply (h_disjoint _ _ _ Hi).
Qed.

Lemma free_at h l1 p sp l2 A bp n :
  gap h l1 p sp l2 A bp n ->
  exists L', freed h (l1 ++ (p, sp) :: l2) A bp n (set_freep p (join_prev bp p (join_next bp p h))) L'.
Proof.
  intros Hg; pose proof Hg as [Hi Ha Hlo Hhi].
  destruct (gap_facts _ _ _ _ _ _ _ _ Hg) as (Hpb & Hsp & Hbp & _ & _ & (_ & Hn & _) & _ & Hps & _).
  destruct (join_next_spec _ _ _ _ _ _ _ _ Hg) as (m & l2' & n' & -> & Hj).
  pose proof (joined_grows _ _ _ _ _ _ _ _ Hn Hj) as Hnn; cbn [fst snd] in *; pose proof Hj as (Hs1 & _ & Hk1 & He1 & (_ & _ & Htop' & _) & _ & _ & Hz).
  pose proof (h_top _ _ _ Hi) as [Htop _]; unfold join_prev; rewrite (proj1 (He1 p ltac:(lia))), Hps, Hs1; cbn [fst snd] in *.
  case_eq (p + SZ * sp =? bp); intros Heq; [apply Z.eqb_eq in Heq|apply Z.eqb_neq in Heq].
  - exists (l1 ++ [(p, sp + n')] ++ l2'); split; [apply (free_merge h l1 p sp m l2' A bp n n'); try done|split_and!].
    + apply u32_small; unfold SZ in *; lia.
    + done.
    + rewrite !length_app; cbn; rewrite length_app; lia.
    + intros z; rewrite !free_byte_app, !free_byte_cons, free_byte_app, free_byte_nil; specialize (Hz z); cbn [fst snd].
      enough (p <= z < p + SZ * (sp + n') <-> p <= z < p + SZ * sp \/ bp <= z < bp + SZ * n') by tauto; unfold SZ in *; lia.
    + exists (p, sp + n'); split; [set_solver|cbn; lia].
  - exists (l1 ++ [(p, sp); (bp, n')] ++ l2'); split; [by apply (free_insert h l1 p sp m l2' A bp n n')|split_and!].
    + done.
    + rewrite !length_app; cbn; rewrite length_app; lia.
    + intros z; rewrite !free_byte_app, !free_byte_cons, free_byte_app, free_byte_nil; specialize (Hz z); cbn [fst snd]; tauto.
    + exists (bp, n'); split; [set_solver|cbn; lia].
Qed.

(** Free from the whole invariant: the search, then the merges. *)
Lemma free_freed fuel h L A bp n :
  heap_inv h L A -> A !! bp = Some n -> (length L <= fuel)%nat ->
  exists h' L', free fuel (bp + SZ) h = Some h' /\ freed h L A bp n h' L'.
Proof.
  intros Hi Ha Hf; destruct (h_alloc _ _ _ Hi _ _ Ha) as [(Hb & Hn & _) _]; cbn [fst snd] in *.
  assert (Hne : forall i x, L !! i = Some x -> x.1 <> bp).
  { intros i x Hx; pose proof (list_elem_of_lookup_2 _ _ _ Hx) as Hin; pose proof (h_apart _ _ _ Hi _ _ _ Hin Ha) as Hap.
    pose proof (h_blocks _ _ _ Hi) as Hbl; rewrite Forall_forall in Hbl.
    destruct (Hbl x Hin) as [->|(_ & ? & _)]; unfold apart, SZ in *; cbn in *; lia. }
  destruct (below_exists _ _ _ _ Hi Hb Hne) as (j & Hj & Hja & Hjk).
  destruct (lookup_lt_is_Some_2 L j Hj) as [[p sp] Hp]; pose proof (take_drop_middle L j _ Hp) as HL.
  pose proof (h_freep _ _ _ Hi) as [i Hi']%list_elem_of_lookup; rewrite list_lookup_fmap in Hi'.
  destruct (L !! i) as [x|] eqn:Hx; [|done]; injection Hi' as Hfr; pose proof (lookup_lt_Some _ _ _ Hx) as Hil.
  assert (Hg : gap h (take j L) p sp (drop (S j) L) A bp n).
  { constructor; [by rewrite HL|done|by rewrite (addr_at _ _ _ Hp) in Hja|].
    intros y [k Hk]%list_elem_of_lookup; rewrite lookup_drop in Hk; rewrite <- (addr_at _ _ _ Hk); apply Hjk.
    apply lookup_lt_Some in Hk; lia. }
  destruct (free_at _ _ _ _ _ _ _ _ Hg) as [L' HL']; rewrite HL in HL'.
  eexists _, L'; split; [|exact HL']; unfold free; replace (bp + SZ - SZ) with bp by lia.
  rewrite <- Hfr, <- (addr_at _ _ _ Hx), (free_loop_spec _ _ _ _ j Hi Hb Hj Hja Hjk fuel i Hil), (addr_at _ _ _ Hp); [done|].
  pose proof (dist_bound _ _ _ Hil Hj); lia.
Qed.

(** ** Malloc *)

(** What taking [n] units at [q] from the free list has to do. *)
Definition took (h : heap) (L : list (Z * Z)) (A : gmap Z Z) (q n : Z) (h' : heap) (L' : list (Z * Z)) : Prop :=
  heap_inv h' L' (<[q := n]> A) /\ A !! q = None /\ brk h' = brk h /\ (length L' <= length L)%nat /\
  (forall z, free_byte L z <-> free_byte L' z \/ q <= z < q + SZ * n).

(** The end of a free block is away from every allocated one. *)
Lemma carve h L A p sp q n :
  heap_inv h L A -> (p, sp) ∈ L -> 1 <= n <= sp -> q = p + SZ * (sp - n) ->
  block_ok (brk h) (q, n) /\ block_ok (brk h) (p, sp) /\ A !! q = None /\ (forall a k, A !! a = Some k -> a <> q /\ apart q n a k /\ apart p sp a k).
Proof.
  intros Hi Hp Hn ->; pose proof (h_blocks _ _ _ Hi) as Hf; rewrite Forall_forall in Hf.
  destruct (Hf _ Hp) as [[= -> ->]|Hb]; [lia|].
  assert (Ho : forall a k, A !! a = Some k -> a <> p + SZ * (sp - n) /\ apart (p + SZ * (sp - n)) n a k /\ apart p sp a k).
  { intros a k Hk; pose proof (h_apart _ _ _ Hi _ _ _ Hp Hk); destruct (h_alloc _ _ _ Hi _ _ Hk) as [(_ & Hk1 & _) _].
    unfold apart, SZ in *; cbn [fst snd] in *; lia. }
  split_and!; [|exact Hb| |exact Ho].
  - destruct Hb as (? & ? & ? & Hm); unfold block_ok; cbn [fst snd] in *; split_and!; [unfold SZ in *; lia..|].
    by rewrite Z.mul_comm, Z_mod_plus_full.
  - destruct (A !! _) as [k|] eqn:Hk; [|done]; by destruct (Ho _ _ Hk).
Qed.

(** The parts of the invariant about allocated blocks, with the new one. *)
Lemma alloc_insert h L A h' q n :
  heap_inv h L A -> block_ok (brk h) (q, n) -> hsize h' q = n ->
  (forall a k, A !! a = Some k -> a <> q /\ apart q n a k /\ hsize h' a = hsize h a) ->
  (forall a k, <[q := n]> A !! a = Some k -> block_ok (brk h) (a, k) /\ hsize h' a = k) /\
  (forall a k b j, <[q := n]> A !! a = Some k -> <[q := n]> A !! b = Some j -> a <> b -> apart a k b j).
Proof.
  intros Hi Hb Hq Ho; split.
  - intros a k [[-> ->]|[Hne Hk]]%lookup_insert_Some; [done|]; destruct (Ho a k Hk) as (_ & _ & ->); by apply (h_alloc _ _ _ Hi).
  - intros a k b j [[<- <-]|[_ Hk]]%lookup_insert_Some [[<- <-]|[_ Hj]]%lookup_insert_Some Hne; [done| | |].
    + by apply Ho.
    + destruct (Ho _ _ Hk) as (_ & Hap & _); unfold apart in *; lia.
    + by apply (h_disjoint _ _ _ Hi).
Qed.

(** The neighbours of a free block. *)
Lemma around h l1 a s p sp l2 A :
  heap_inv h (l1 ++ [(a, s); (p, sp)] ++ l2) A ->
  a < p /\ a + SZ * s < p /\ (forall y, y ∈ l1 -> y.1 < a) /\ (forall y, y ∈ l2 -> p + SZ * sp < y.1) /\ 0 <= s /\ 0 <= sp /\
  hsize h a = s /\ hsize h p = sp /\ hptr h a = p /\ hptr h p = head_addr l2 base /\ node_ok (brk h) (a, s).
Proof.
  intros Hi; pose proof (proj2 (proj1 (chain_app _ _ _ _) (h_links _ _ _ Hi))) as (Ha1 & Ha2 & Hp1 & Hp2 & _).
  destruct (size_nonneg _ _ _ (a, s) Hi) as [Hs0 _]; [set_solver|]; destruct (size_nonneg _ _ _ (p, sp) Hi) as [Hs1 _]; [set_solver|].
  pose proof (proj1 (StronglySorted_app _ _ _) (h_sorted _ _ _ Hi)) as (Hc & _ & Hs); cbn [app fst snd] in *.
  apply StronglySorted_inv in Hs as [Hs Hfa]; apply StronglySorted_inv in Hs as [_ Hfp]; rewrite Forall_forall in Hfa, Hfp.
  pose proof (Hfa (p, sp) ltac:(left)) as Hap; unfold before, SZ in *; cbn [fst snd] in *.
  pose proof (h_blocks _ _ _ Hi) as Hf; rewrite Forall_forall in Hf; split_and!; try done; try lia.
  - intros y Hy; pose proof (Hc y (a, s) Hy ltac:(left)); destruct (size_nonneg _ _ _ y Hi) as [Hy0 _]; [set_solver|].
    unfold SZ in *; cbn [fst] in *; lia.
  - apply Hf; set_solver.
Qed.

(** A block of just the size leaves the list. *)
Lemma take_exact h l1 a s p sp l2 A :
  heap_inv h (l1 ++ [(a, s); (p, sp)] ++ l2) A -> 1 <= sp ->
  heap_inv (set_freep a (set_ptr a (hptr h p) h)) (l1 ++ [(a, s)] ++ l2) (<[p := sp]> A).
Proof.
  intros Hi Hsp; destruct (around _ _ _ _ _ _ _ _ Hi) as (Hap & Has & H1 & H2 & Hs0 & _ & Ha1 & Hp1 & Ha2 & Hp2 & Hok).
  destruct (carve h _ A p sp p sp Hi) as (Hb & _ & Hno & Ho); [set_solver|lia|unfold SZ; lia|].
  destruct (alloc_insert h _ A (set_freep a (set_ptr a (hptr h p) h)) p sp Hi Hb Hp1) as [Hal Hdis].
  { intros b k Hk; destruct (Ho b k Hk) as (? & ? & _); done. }
  refine (inv_splice h _ l1 (a, s) [(p, sp)] (a, s) [] l2 A _ Hi _ _ _ _ _ _ _ _ _ Hal _ Hdis);
    cbn [brk freep hsize hptr set_freep set_ptr fst snd]; try done.
  - by apply Forall_singleton.
  - repeat constructor.
  - intros y z ->%list_elem_of_singleton Hz; specialize (H2 z Hz); unfold before, SZ in *; cbn; lia.
  - cbn; by rewrite fn_lookup_insert.
  - intros y Hy; rewrite fn_lookup_insert_ne; [done|]; destruct Hy as [Hy|Hy]; [specialize (H1 y Hy)|specialize (H2 y Hy)]; unfold SZ in *; lia.
  - intros y b k Hy [[<- <-]|[_ Hk]]%lookup_insert_Some; [|apply (h_apart _ _ _ Hi y b k); [set_solver|done]].
    destruct Hy as [Hy|[->%list_elem_of_singleton|Hy]]; [|left; cbn; lia|specialize (H2 y Hy); right; lia].
    left; pose proof (proj1 (StronglySorted_app _ _ _) (h_sorted _ _ _ Hi)) as (Hc & _ & _).
    pose proof (Hc y (p, sp) Hy ltac:(right; left)) as Hbf; unfold before in Hbf; cbn [fst] in Hbf; lia.
Qed.

(** A larger one keeps its start. *)
Lemma take_tail h l1 a s p sp l2 A n :
  heap_inv h (l1 ++ [(a, s); (p, sp)] ++ l2) A -> 1 <= n < sp ->
  let q := p + SZ * (sp - n) in
  u32 (sp - n) = sp - n -> u32 n = n ->
  heap_inv (set_freep a (set_size q n (set_size p (sp - n) h))) (l1 ++ [(a, s); (p, sp - n)] ++ l2) (<[q := n]> A).
Proof.
  intros Hi Hn q Hu Hun; destruct (around _ _ _ _ _ _ _ _ Hi) as (Hap & Has & H1 & H2 & Hs0 & _ & Ha1 & Hp1 & Ha2 & Hp2 & Hok).
  destruct (carve h _ A p sp q n Hi) as (Hb & Hbp & Hno & Ho); [set_solver|lia|done|].
  assert (Hqp : p < q /\ q + SZ * n = p + SZ * sp) by (unfold q, SZ; lia).
  destruct (alloc_insert h _ A (set_freep a (set_size q n (set_size p (sp - n) h))) q n Hi Hb) as [Hal Hdis].
  { cbn; by rewrite fn_lookup_insert. }
  { intros b k Hk; destruct (Ho b k Hk) as (? & ? & Hbp'); split_and!; [done|done|].
    destruct (h_alloc _ _ _ Hi _ _ Hk) as [(_ & Hk1 & _) _]; cbn in *; rewrite !fn_lookup_insert_ne; [done| |done].
    unfold apart, SZ in *; lia. }
  refine (inv_splice h _ l1 (a, s) [(p, sp)] (a, s) [(p, sp - n)] l2 A _ Hi _ _ _ _ _ _ _ _ _ Hal _ Hdis);
    cbn [brk freep hsize hptr set_freep set_size fst snd]; rewrite ?Hu, ?Hun; try done.
  - apply Forall_cons; split; [done|]; apply Forall_singleton; right; destruct Hbp as (? & ? & ? & ?); unfold block_ok, SZ in *; cbn [fst snd] in *; lia.
  - repeat constructor; done.
  - intros y z Hy Hz; specialize (H2 z Hz); rewrite elem_of_cons, list_elem_of_singleton in Hy.
    destruct Hy as [->| ->]; unfold before, SZ in *; cbn; lia.
  - cbn; split_and!; try done.
    + rewrite !fn_lookup_insert_ne; [done|lia|lia].
    + rewrite fn_lookup_insert_ne by lia; by rewrite fn_lookup_insert.
  - intros y Hy; rewrite !fn_lookup_insert_ne; [done| |]; (destruct Hy as [Hy|Hy]; [specialize (H1 y Hy)|specialize (H2 y Hy)]; unfold SZ in *; lia).
  - intros y b k Hy [[<- <-]|[_ Hk]]%lookup_insert_Some.
    + destruct Hy as [Hy|[Hy|Hy]]; [specialize (H1 y Hy)| |specialize (H2 y Hy); right; lia].
      * left; pose proof (proj1 (StronglySorted_app _ _ _) (h_sorted _ _ _ Hi)) as (Hc & _ & _).
        pose proof (Hc y (p, sp) Hy ltac:(right; left)) as Hbf; unfold before in Hbf; cbn [fst] in Hbf; lia.
      * rewrite elem_of_cons, list_elem_of_singleton in Hy; destruct Hy as [->| ->]; left; cbn; unfold q, SZ in *; lia.
    + assert (y ∈ l1 ++ [(a, s); (p, sp)] ++ l2 \/ y = (p, sp - n)) as [Hy'| ->] by set_solver; [by apply (h_apart _ _ _ Hi)|].
      destruct (Ho b k Hk) as (_ & _ & Hpk); unfold apart, SZ in *; cbn; lia.
Qed.

Lemma take_spec h l1 a s p sp l2 A n :
  heap_inv h (l1 ++ [(a, s); (p, sp)] ++ l2) A -> 1 <= n <= sp ->
  exists q h' L', take_block a p n h = (q + SZ, h') /\ took h (l1 ++ [(a, s); (p, sp)] ++ l2) A q n h' L'.
Proof.
  intros Hi Hn; destruct (around _ _ _ _ _ _ _ _ Hi) as (_ & _ & _ & _ & _ & _ & _ & Hp1 & _).
  destruct (carve h _ A p sp (p + SZ * (sp - n)) n Hi) as (_ & Hbp & Hno & _); [set_solver|lia|done|].
  pose proof (h_top _ _ _ Hi) as [Htop _]; destruct Hbp as (? & ? & ? & _); cbn [fst snd] in *; unfold take_block; rewrite Hp1.
  case_eq (sp =? n); intros Heq; [apply Z.eqb_eq in Heq as ->|apply Z.eqb_neq in Heq].
  - exists p; eexists _, (l1 ++ [(a, s)] ++ l2); split; [done|]; split; [by apply take_exact|split_and!; try done].
    + by replace p with (p + SZ * (n - n)) by lia.
    + rewrite !length_app; cbn; lia.
    + intros z; rewrite !free_byte_app, !free_byte_cons, free_byte_nil; cbn [fst snd]; tauto.
  - assert (Hu : u32 (sp - n) = sp - n) by (apply u32_small; unfold SZ in *; lia).
    assert (Hun : u32 n = n) by (apply u32_small; unfold SZ in *; lia).
    exists (p + SZ * (sp - n)); eexists _, (l1 ++ [(a, s); (p, sp - n)] ++ l2); split.
    { cbn [hsize set_size]; rewrite fn_lookup_insert, Hu; reflexivity. }
    split; [apply take_tail; [done|lia|done|done]|split_and!; try done].
    + rewrite !length_app; cbn; lia.
    + intros z; rewrite !free_byte_app, !free_byte_cons, free_byte_nil; cbn [fst snd].
      enough (p <= z < p + SZ * sp <-> p <= z < p + SZ * (sp - n) \/ p + SZ * (sp - n) <= z < p + SZ * (sp - n) + SZ * n) by tauto.
      unfold SZ in *; lia.
Qed.

(** *** The search *)

Definition size_at (L : list (Z * Z)) (i : nat) : Z := (default (base, 0) (L !! i)).2.

Lemma size_addr h L A i : heap_inv h L A -> (i < length L)%nat -> hsize h (addr L i) = size_at L i.
Proof.
  intros Hi Hl; destruct (lookup_lt_is_Some_2 L i Hl) as [x Hx]; rewrite (addr_at _ _ _ Hx); unfold size_at; rewrite Hx.
  apply (chain_lookup _ _ _ _ _ (h_links _ _ _ Hi) Hx).
Qed.
Lemma addr_inj h L A i j : heap_inv h L A -> (i < length L)%nat -> (j < length L)%nat -> addr L i = addr L j -> i = j.
Proof.
  intros Hi Hl Hj He; destruct (lt_eq_lt_dec i j) as [[Hlt|]|Hlt]; [|done|].
  - pose proof (addr_lt _ _ _ i j Hi ltac:(lia)); lia.
  - pose proof (addr_lt _ _ _ j i Hi ltac:(lia)); lia.
Qed.

(** A block large enough is not [base]: taking it. *)
Lemma take_index h L A k n :
  heap_inv h L A -> (k < length L)%nat -> 1 <= n <= size_at L (nxt (length L) k) ->
  exists q h' L', take_block (addr L k) (addr L (nxt (length L) k)) n h = (q + SZ, h') /\ took h L A q n h' L'.
Proof.
  intros Hi Hk Hn; unfold nxt in *; destruct (Nat.ltb_spec (S k) (length L)) as [Hs|Hs].
  2: { unfold size_at in Hn; rewrite (h_first _ _ _ Hi) in Hn; cbn in Hn; lia. }
  destruct (lookup_lt_is_Some_2 L k Hk) as [[a s] Ha]; destruct (lookup_lt_is_Some_2 L (S k) Hs) as [[p sp] Hp].
  assert (HL : L = take k L ++ [(a, s); (p, sp)] ++ drop (S (S k)) L).
  { rewrite <- (take_drop_middle L k _ Ha) at 1; f_equal; cbn; f_equal; by rewrite (drop_S L _ (S k) Hp). }
  rewrite (addr_at _ _ _ Ha), (addr_at _ _ _ Hp); unfold size_at in Hn; rewrite Hp in Hn; cbn [fst snd default from_option id] in *.
  rewrite HL; apply take_spec; [by rewrite <- HL|done].
Qed.

Variable grants : Z -> Z -> bool.

(** From a position of the list the loop finds a block, or comes back to
    [freep], where it asks for more memory. *)
Lemma search h L A n ffuel f :
  heap_inv h L A -> (f < length L)%nat -> freep h = addr L f ->
  forall d i fuel, (i < length L)%nat -> dist (length L) (nxt (length L) i) f = d -> (d < fuel)%nat ->
  (exists k, (k < length L)%nat /\ n <= size_at L (nxt (length L) k) /\
     malloc_loop grants fuel ffuel (addr L i) (addr L (nxt (length L) i)) n h =
     Some (take_block (addr L k) (addr L (nxt (length L) k)) n h)) \/
  ((forall j, (j < length L)%nat -> (dist (length L) (nxt (length L) i) j <= d)%nat -> size_at L j < n) /\
   malloc_loop grants fuel ffuel (addr L i) (addr L (nxt (length L) i)) n h =
   match morecore grants ffuel n h with
   | None => None
   | Some None => Some (0, h)
   | Some (Some h') => malloc_loop grants (fuel - S d) ffuel (freep h') (hptr h' (freep h')) n h'
   end).
Proof.
  intros Hi Hf Hfr; induction d as [|d IH]; intros i fuel Hl Hd Hfu; (destruct fuel as [|fuel]; [lia|]); cbn [malloc_loop];
    pose proof (nxt_lt _ _ Hl) as Hnl; rewrite (size_addr _ _ _ _ Hi Hnl);
    (destruct (Z.leb_spec n (size_at L (nxt (length L) i))) as [Hfit|Hfit]; [left; by exists i|]).
  - apply dist_zero in Hd; [|done|done]; rewrite Hfr, Hd, Z.eqb_refl; right; split; [|by replace (S fuel - 1)%nat with fuel by lia].
    intros j Hj Hdj; replace j with f; [by rewrite <- Hd|].
    apply (dist_zero (length L)); [done|done|lia].
  - assert (Hnf : nxt (length L) i <> f) by (intros Heq; rewrite Heq, dist_self in Hd; done).
    rewrite Hfr, (proj2 (Z.eqb_neq _ _)) by (intros He; apply Hnf, (addr_inj _ _ _ _ _ Hi Hnl Hf He)).
    rewrite (link_addr _ _ _ _ Hi Hnl); rewrite (dist_nxt _ _ _ Hnl Hf Hnf) in Hd; injection Hd as Hd.
    destruct (IH _ fuel Hnl Hd ltac:(lia)) as [(k & Hk & Hfit' & He)|[Hno He]]; [left; by exists k|right; split; [|exact He]].
    intros j Hj Hdj; destruct (decide (nxt (length L) i = j)) as [<-|Hne]; [done|].
    rewrite (dist_nxt _ _ _ Hnl Hj Hne) in Hdj; apply Hno; [done|lia].
Qed.

(** *** More memory *)

(** The kernel gives a process less than 2^36 bytes. *)
Hypothesis grants_ok : forall b k, grants b k = true -> b + k < base + 2 ^ 36.

Lemma inv_grow h L A n :
  heap_inv h L A -> 1 <= n < 2 ^ 32 -> brk h + SZ * n < base + 2 ^ 36 ->
  heap_inv (set_size (brk h) n (set_brk (brk h + SZ * n) h)) L (<[brk h := n]> A) /\ A !! brk h = None.
Proof.
  intros [[Ht Hm] Hf Hb Hs Hl Hp Ha Hap Hd] Hn Hmax.
  assert (Hmono : forall x, block_ok (brk h) x -> block_ok (brk h + SZ * n) x) by (intros x (? & ? & ? & ?); unfold block_ok, SZ in *; lia).
  assert (Hends : forall x, x ∈ L -> x.1 < brk h /\ x.1 + SZ * x.2 <= brk h).
  { intros x Hx; rewrite Forall_forall in Hb; destruct (Hb x Hx) as [->|(? & ? & ? & _)]; unfold SZ in *; cbn; lia. }
  assert (Hna : forall a k, A !! a = Some k -> a < brk h /\ a + SZ * k <= brk h).
  { intros a k Hk; destruct (Ha a k Hk) as [(_ & ? & ? & _) _]; unfold SZ in *; cbn in *; lia. }
  split; [|destruct (A !! brk h) as [k|] eqn:Hk; [apply Hna in Hk; lia|done]].
  constructor; cbn [brk freep set_size set_brk]; try done.
  - split; [unfold SZ in *; lia|]; by rewrite Z.mul_comm, Z_mod_plus_full.
  - eapply Forall_impl; [exact Hb|]; intros x [->|Hx]; [by left|right; by apply Hmono].
  - apply (chain_ext h); [|done]; intros x Hx; cbn; rewrite fn_lookup_insert_ne; [done|]; specialize (Hends x Hx); lia.
  - intros a k [[<- <-]|[Hne Hk]]%lookup_insert_Some; cbn.
    + rewrite fn_lookup_insert, u32_small by lia; unfold block_ok; cbn; split_and!; try done; lia.
    + rewrite fn_lookup_insert_ne by done; destruct (Ha a k Hk); split; [by apply Hmono|done].
  - intros x a k Hx [[<- <-]|[Hne Hk]]%lookup_insert_Some; [left; by apply Hends|by apply Hap].
  - intros a k b j [[<- <-]|[_ Hk]]%lookup_insert_Some [[<- <-]|[_ Hj]]%lookup_insert_Some Hne; [done| | |by apply Hd].
    + right; by apply Hna.
    + left; by apply Hna.
Qed.

Definition more (n : Z) : Z := Z.max 4096 n.

Lemma morecore_spec h L A n ffuel :
  heap_inv h L A -> 1 <= n < 2 ^ 27 -> (length L <= ffuel)%nat ->
  (grants (brk h) (SZ * more n) = false /\ morecore grants ffuel n h = Some None) \/
  (exists h' L', morecore grants ffuel n h = Some (Some h') /\ heap_inv h' L' A /\ brk h' = brk h + SZ * more n /\
     (length L' <= S (length L))%nat /\ (forall z, free_byte L' z <-> free_byte L z \/ brk h <= z < brk h') /\
     (exists x, x ∈ L' /\ n <= x.2)).
Proof.
  intros Hi Hn Hf; unfold morecore, sbrk.
  assert ((if n <? 4096 then 4096 else n) = more n) as -> by (unfold more; destruct (Z.ltb_spec n 4096); lia).
  assert (Hm : n <= more n < 2 ^ 27) by (unfold more; lia).
  assert (i32 (more n * SZ) = SZ * more n) as -> by (rewrite Z.mul_comm; apply i32_small; unfold SZ; lia).
  destruct (grants (brk h) (SZ * more n)) eqn:Hg; [right|by left].
  destruct (inv_grow h L A (more n) Hi ltac:(lia) (grants_ok _ _ Hg)) as [Hi' Hno].
  destruct (free_freed ffuel _ _ _ (brk h) (more n) Hi' (lookup_insert_eq _ _ _) Hf) as (h' & L' & Hrun & Hinv & Hbr & Hlen & Hby & x & Hx & Hxn).
  rewrite Hrun; exists h', L'; rewrite delete_insert_id in Hinv by done; cbn [brk set_size set_brk] in Hbr.
  split_and!; try done; [by rewrite Hbr|]; exists x; split; [done|lia].
Qed.

(** *** The whole call *)

Lemma search_from_freep h L A n fuel ffuel :
  heap_inv h L A -> 1 <= n -> (length L <= fuel)%nat ->
  (exists q h' L', malloc_loop grants fuel ffuel (freep h) (hptr h (freep h)) n h = Some (q + SZ, h') /\ took h L A q n h' L') \/
  ((forall x, x ∈ L -> x.2 < n) /\
   malloc_loop grants fuel ffuel (freep h) (hptr h (freep h)) n h =
   match morecore grants ffuel n h with
   | None => None
   | Some None => Some (0, h)
   | Some (Some h') => malloc_loop grants (fuel - length L) ffuel (freep h') (hptr h' (freep h')) n h'
   end).
Proof.
  intros Hi Hn Hfu; pose proof (h_freep _ _ _ Hi) as [f Hf]%list_elem_of_lookup; rewrite list_lookup_fmap in Hf.
  destruct (L !! f) as [x|] eqn:Hx; [|done]; injection Hf as Hfr; pose proof (lookup_lt_Some _ _ _ Hx) as Hl.
  rewrite <- (addr_at _ _ _ Hx) in Hfr; rewrite <- Hfr, (link_addr _ _ _ _ Hi Hl).
  pose proof (dist_full _ _ Hl) as Hd.
  destruct (search h L A n ffuel f Hi Hl (eq_sym Hfr) _ f fuel Hl Hd ltac:(lia)) as [(k & Hk & Hfit & ->)|[Hno ->]].
  - left; destruct (take_index h L A k n Hi Hk ltac:(lia)) as (q & h' & L' & -> & Ht); by exists q, h', L'.
  - right; split; [|by replace (S (length L - 1)) with (length L) by lia].
    intros y [j Hj]%list_elem_of_lookup; pose proof (lookup_lt_Some _ _ _ Hj) as Hjl.
    pose proof (Hno j Hjl) as Hs; unfold size_at in Hs; rewrite Hj in Hs; apply Hs.
    pose proof (dist_bound _ _ j (nxt_lt _ _ Hl) Hjl); lia.
Qed.

(** What a call for [n] units comes to. *)
Definition refused (h : heap) (L : list (Z * Z)) (A : gmap Z Z) (n : Z) (h' : heap) : Prop :=
  heap_inv h' L A /\ brk h' = brk h /\ (forall x, x ∈ L -> x.2 < n) /\ grants (brk h) (SZ * more n) = false.
Definition handed (h : heap) (L : list (Z * Z)) (A : gmap Z Z) (n q : Z) (h' : heap) (L' : list (Z * Z)) : Prop :=
  heap_inv h' L' (<[q := n]> A) /\ (forall a k, A !! a = Some k -> apart q n a k) /\ brk h <= brk h' /\
  (forall z, free_byte L' z \/ q <= z < q + SZ * n <-> free_byte L z \/ brk h <= z < brk h').

Lemma took_handed h0 h L A q n h' L' L0 :
  took h L A q n h' L' -> brk h0 <= brk h -> (forall z, free_byte L z <-> free_byte L0 z \/ brk h0 <= z < brk h) ->
  handed h0 L0 A n q h' L'.
Proof.
  intros (Hi & Hno & Hb & _ & Hz) Hle Hz0; split; [done|]; rewrite Hb; split_and!; [|done|].
  - intros a k Hk; apply (h_disjoint _ _ _ Hi); [apply lookup_insert_eq| |congruence].
    rewrite lookup_insert_ne; [done|congruence].
  - intros z; rewrite <- Hz0, Hz; done.
Qed.

Lemma malloc_loop_spec h L A n fuel ffuel :
  heap_inv h L A -> 1 <= n < 2 ^ 27 -> (length L <= ffuel)%nat -> (2 * length L + 1 <= fuel)%nat ->
  (exists h', malloc_loop grants fuel ffuel (freep h) (hptr h (freep h)) n h = Some (0, h') /\ refused h L A n h') \/
  (exists q h' L', malloc_loop grants fuel ffuel (freep h) (hptr h (freep h)) n h = Some (q + SZ, h') /\ handed h L A n q h' L').
Proof.
  intros Hi Hn Hff Hfu.
  destruct (search_from_freep h L A n fuel ffuel Hi ltac:(lia) ltac:(lia)) as [(q & h' & L' & -> & Ht)|[Hno ->]].
  { right; exists q, h', L'; split; [done|]; apply (took_handed h h L A); [done|lia|]; intros z; split; [by left|]; intros [|]; [done|lia]. }
  destruct (morecore_spec h L A n ffuel Hi Hn Hff) as [[Hg ->]|(h1 & L1 & -> & Hi1 & Hb1 & Hl1 & Hz1 & x & Hx & Hxn)]; [left; by exists h|right].
  assert (Hle : brk h <= brk h1) by (rewrite Hb1; unfold more, SZ; lia).
  destruct (search_from_freep h1 L1 A n (fuel - length L) ffuel Hi1 ltac:(lia) ltac:(lia)) as [(q & h' & L' & -> & Ht)|[Hno1 _]].
  - exists q, h', L'; split; [done|]; by apply (took_handed h h1 L1 A).
  - specialize (Hno1 x Hx); lia.
Qed.
End heap.

(** Before the first call there is no list; the call makes the one-element
    one. *)
Definition heap_ok (base : Z) (h : heap) (L : list (Z * Z)) (A : gmap Z Z) : Prop :=
  heap_inv base h L A \/
  (freep h = 0 /\ L = [(base, 0)] /\ A = ∅ /\ base < brk h < base + 2 ^ 36 /\ brk h mod SZ = 0).

Lemma first_call base h :
  base < brk h < base + 2 ^ 36 -> brk h mod SZ = 0 ->
  heap_inv base (set_size base 0 (set_freep base (set_ptr base base h))) [(base, 0)] ∅.
Proof.
  intros Ht Hm; constructor; cbn [brk freep set_size set_freep set_ptr]; try done.
  - apply Forall_singleton; by left.
  - repeat constructor.
  - cbn; by rewrite !fn_lookup_insert.
  - apply list_elem_of_singleton; done.
Qed.

Lemma nunits_ok nbytes :
  0 <= nbytes <= 2 ^ 31 - 2 * SZ -> 1 <= nunits_of nbytes < 2 ^ 27 /\ nbytes <= SZ * (nunits_of nbytes - 1) < nbytes + SZ.
Proof.
  intros Hn; unfold nunits_of, SZ in *.
  pose proof (Z.div_mod (nbytes + 16 - 1) 16 ltac:(lia)); pose proof (Z.mod_pos_bound (nbytes + 16 - 1) 16 ltac:(lia)).
  rewrite u32_small by lia; lia.
Qed.

(** C24: freeing an allocated block ends, keeps the heap well formed and makes
    exactly the block's bytes free: the free list stays in order of address
    with no two free blocks adjacent (the block is merged with its
    neighbours), and the other allocated blocks keep their headers. *)
Theorem free_correct base fuel ap n h L A :
  heap_inv base h L A -> A !! (ap - SZ) = Some n -> (length L <= fuel)%nat ->
  exists h' L', free fuel ap h = Some h' /\ heap_inv base h' L' (delete (ap - SZ) A) /\ brk h' = brk h /\
    (forall z, free_byte L' z <-> free_byte L z \/ ap - SZ <= z < ap - SZ + SZ * n).
Proof.
  intros Hi Ha Hf; destruct (free_freed base fuel h L A (ap - SZ) n Hi Ha Hf) as (h' & L' & Hrun & Hinv & Hb & _ & Hz & _).
  exists h', L'; replace (ap - SZ + SZ) with ap in Hrun by lia; done.
Qed.

(** C23: malloc of at most 2^31 - 32 bytes ends: either no free block is large enough and the kernel
    refuses to grow the process, and it returns 0 with the heap as it was, or
    it returns the address after the header of a block of at least the bytes
    asked for, apart from every allocated block, out of free memory and what
    the kernel added, and the heap is well formed with the block allocated. *)
Theorem malloc_correct base grants fuel ffuel nbytes h L A :
  0 < base -> (forall b k, grants b k = true -> b + k < base + 2 ^ 36) ->
  heap_ok base h L A -> 0 <= nbytes <= 2 ^ 31 - 2 * SZ -> (length L <= ffuel)%nat -> (2 * length L + 1 <= fuel)%nat ->
  let n := nunits_of nbytes in
  (exists h', malloc base grants fuel ffuel nbytes h = Some (0, h') /\ refused base grants h L A n h') \/
  (exists ap h' L', malloc base grants fuel ffuel nbytes h = Some (ap, h') /\ 0 < ap /\ ap mod SZ = 0 /\
     nbytes <= SZ * (n - 1) < nbytes + SZ /\ handed base h L A n (ap - SZ) h' L').
Proof.
  intros Hb Hg Hok Hn Hff Hfu n; destruct (nunits_ok nbytes Hn) as [Hn1 Hn2].
  assert (exists h0, heap_inv base h0 L A /\ brk h0 = brk h /\
    malloc base grants fuel ffuel nbytes h = malloc_loop grants fuel ffuel (freep h0) (hptr h0 (freep h0)) n h0) as (h0 & Hi & Hbr & ->).
  { unfold malloc; destruct Hok as [Hi|(Hz & -> & -> & Ht & Hm)].
    - exists h; split; [done|]; split; [done|]; pose proof (h_freep _ _ _ _ Hi) as [x [Hx Hin]]%list_elem_of_fmap.
      destruct (size_nonneg _ _ _ _ _ Hi Hin) as [_ ?]; by rewrite (proj2 (Z.eqb_neq (freep h) 0)) by lia.
    - rewrite Hz; eexists; split; [by apply (first_call base h)|done]. }
  destruct (malloc_loop_spec base grants Hg h0 L A n fuel ffuel Hi Hn1 Hff Hfu) as [(h' & -> & Hr)|(q & h' & L' & -> & Hr)].
  - left; exists h'; split; [done|]; unfold refused in *; by rewrite <- Hbr.
  - right; exists (q + SZ), h', L'; split; [done|]; replace (q + SZ - SZ) with q by lia.
    pose proof Hr as (Hi' & _); destruct (h_alloc _ _ _ _ Hi' q n (lookup_insert_eq _ _ _)) as [(Hq & _ & _ & Hm) _]; cbn [fst] in *.
    split; [unfold SZ; lia|]; split; [|split; [done|]; unfold handed in *; by rewrite <- Hbr].
    by replace (q + SZ) with (q + 1 * SZ) by lia; rewrite Z_mod_plus_full.
Qed.

(** ** Examples *)

(** A process of five pages, [base] on its second page, that may grow to
    128 megabytes; one block of eight units is allocated. *)
Definition demo_grants (b k : Z) : bool := b + k <? 2 ^ 27.
Definition demo_start : heap := Heap (fun _ => 0) (fun _ => 0) 0 20480.
Definition demo_heap : heap :=
  Heap (<[20480 := 8192]> (<[8192 := 20480]> (fun _ => 0)))
    (<[85888 := 8]> (<[20480 := 4088]> (fun _ => 0))) 8192 86016.
Definition demo_list : list (Z * Z) := [(8192, 0); (20480, 4088)].

Lemma demo_inv : heap_inv 8192 demo_heap demo_list {[85888 := 8]}.
Proof.
  constructor; cbn [brk freep demo_heap demo_list]; try done.
  - apply Forall_cons; split; [by left|]; apply Forall_singleton; right; done.
  - repeat constructor.
  - left.
  - intros a n [<- <-]%lookup_singleton_Some; done.
  - intros x a n Hx [<- <-]%lookup_singleton_Some; left.
    unfold demo_list in Hx; rewrite elem_of_cons, list_elem_of_singleton in Hx; destruct Hx as [->| ->]; done.
  - intros a n b m [<- <-]%lookup_singleton_Some [<- <-]%lookup_singleton_Some; done.
Qed.

Lemma free_correct_witness :
  exists h' L', free 2 85904 demo_heap = Some h' /\ heap_inv 8192 h' L' (delete (85904 - SZ) {[85888 := 8]}) /\ brk h' = 86016 /\
    (forall z, free_byte L' z <-> free_byte demo_list z \/ 85904 - SZ <= z < 85904 - SZ + SZ * 8).
Proof. apply (free_correct 8192 2 85904 8 demo_heap demo_list {[85888 := 8]}); [exact demo_inv|reflexivity|cbn; lia]. Defined.

Lemma malloc_correct_witness :
  let n := nunits_of 100 in
  (exists h', malloc 8192 demo_grants 3 1 100 demo_start = Some (0, h') /\ refused 8192 demo_grants demo_start [(8192, 0)] ∅ n h') \/
  (exists ap h' L', malloc 8192 demo_grants 3 1 100 demo_start = Some (ap, h') /\ 0 < ap /\ ap mod SZ = 0 /\
     100 <= SZ * (n - 1) < 100 + SZ /\ handed 8192 demo_start [(8192, 0)] ∅ n (ap - SZ) h' L').
Proof.
  apply (malloc_correct 8192 demo_grants 3 1 100 demo_start [(8192, 0)] ∅); [lia| | |unfold SZ; lia|cbn; lia|cbn; lia].
  - unfold demo_grants; intros b k Hg; lia.
  - right; cbn; unfold SZ; split_and!; done.
Defined.

(** A call for 2^32 - 16 bytes: [sbrk] gets the product as an int, here 0,
    and succeeds, so malloc returns a block of which no byte belongs to the
    process. *)
Lemma malloc_unbacked :
  exists h', malloc 8192 demo_grants 3 2 (2 ^ 32 - 16) demo_heap = Some (86032, h') /\ brk h' = 86016.
Proof. eexists; split; [vm_compute; reflexivity|reflexivity]. Qed.
