(* ===== verification/Sh.v ===== *)
(** * user/sh.c: the parser

    The recursive-descent parser of the shell.  The line is a NUL-terminated
    string in memory, which the parser only reads; the nodes of the command
    tree are in a store, at the addresses malloc gave them (malloc is taken to
    succeed: the code does not look at its result).  A run ends with a value,
    or in [panic], with what it wrote on the error output. *)

From S2P Require Import Prelude CMem KString Sysfile.

(** ** Commands *)

Definition MAXARGS : Z := 10.

(** A node; a pointer to one is its number, from 1, and 0 is null.  Pointers
    into the line are addresses. *)
Inductive node : Type :=
| Execcmd (argv eargv : list Z)
| Redircmd (cmd : nat) (file efile mode fd : Z)
| Pipecmd (left right : nat)
| Listcmd (left right : nat)
| Backcmd (cmd : nat).

(** The cursor [*ps] and the nodes allocated so far. *)
Record pst : Type := Pst { ps : Z; nodes : list node }.

Inductive pres (A : Type) : Type :=
| Ok (a : A) (s : pst)
| Die (msg : list Z)
| NoFuel.
Arguments Ok {A} a s.
Arguments Die {A} msg.
Arguments NoFuel {A}.

Definition P (A : Type) : Type := pst -> pres A.
#[export] Instance P_ret : MRet P := fun A a s => Ok a s.
#[export] Instance P_bind : MBind P := fun A B f m s =>
  match m s with
  | Ok a s' => f a s'
  | Die msg => Die msg
  | NoFuel => NoFuel
  end.

(** [panic(s)]: the message and exit(1). *)
Definition panic {A} (msg : string) : P A := fun _ => Die (str msg ++ [10]).
Definition no_fuel {A} : P A := fun _ => NoFuel.

Definition get_ps : P Z := fun s => Ok (ps s) s.
Definition set_ps (v : Z) : P unit := fun s => Ok tt (Pst v (nodes s)).

(** The constructors: malloc, memset and the stores into the new node. *)
Definition new_node (n : node) : P nat := fun s =>
  Ok (S (length (nodes s))) (Pst (ps s) (nodes s ++ [n])).
Definition execcmd : P nat := new_node (Execcmd (replicate (Z.to_nat MAXARGS) 0) (replicate (Z.to_nat MAXARGS) 0)).
Definition redircmd (subcmd : nat) (file efile mode fd : Z) : P nat := new_node (Redircmd subcmd file efile mode fd).
Definition pipecmd (left right : nat) : P nat := new_node (Pipecmd left right).
Definition listcmd (left right : nat) : P nat := new_node (Listcmd left right).
Definition backcmd (subcmd : nat) : P nat := new_node (Backcmd subcmd).

Definition get_node (st : list node) (p : nat) : option node :=
  match p with O => None | S i => st !! i end.

(** [cmd->argv[argc] = q; cmd->eargv[argc] = eq] in an exec node. *)
Definition set_arg (cmd : nat) (argc q eq : Z) : P unit := fun s =>
  Ok tt (Pst (ps s) (alter (fun n => match n with
    | Execcmd argv eargv => Execcmd (<[Z.to_nat argc := q]> argv) (<[Z.to_nat argc := eq]> eargv)
    | n => n
    end) (pred cmd) (nodes s))).

(** ** Tokens *)

Definition whitespace : list Z := [32; 9; 13; 10; 11].
Definition symbols : list Z := str "<|>&;()".

(** [strchr(l, c) != 0] for a constant string. *)
Definition strchr_in (l : list Z) (c : Z) : bool := existsb (Z.eqb c) l.

Definition ch_pipe : Z := 124.
Definition ch_lpar : Z := 40.
Definition ch_rpar : Z := 41.
Definition ch_semi : Z := 59.
Definition ch_amp : Z := 38.
Definition ch_lt : Z := 60.
Definition ch_gt : Z := 62.
Definition ch_plus : Z := 43.
Definition ch_a : Z := 97.

Section parser.
Variable m : mem.    (* the memory with the line *)
Variable es : Z.     (* its end *)

(** [while(s < es && test( *s)) s++], over the characters left before [es]. *)
Fixpoint skip_loop (n : nat) (test : Z -> bool) (s : Z) : Z :=
  match n with
  | O => s
  | S n' => if test (m s) then skip_loop n' test (s + 1) else s
  end.
Definition skip (test : Z -> bool) (s : Z) : Z := skip_loop (Z.to_nat (es - s)) test s.
Definition skip_space : Z -> Z := skip (strchr_in whitespace).
Definition skip_word : Z -> Z := skip (fun c => negb (strchr_in whitespace c) && negb (strchr_in symbols c)).

(** The kind of the token, where it starts and ends. *)
Definition gettoken : P (Z * Z * Z) :=
  s ← get_ps;
  let q := skip_space s in
  let c := m q in
  let '(ret, eq) :=
    if c =? 0 then (c, q)
    else if (c =? ch_pipe) || (c =? ch_lpar) || (c =? ch_rpar) || (c =? ch_semi) || (c =? ch_amp) || (c =? ch_lt)
    then (c, q + 1)
    else if c =? ch_gt then if m (q + 1) =? ch_gt then (ch_plus, q + 2) else (c, q + 1)
    else (ch_a, skip_word q) in
  set_ps (skip_space eq);;
  mret (ret, q, eq).

Definition peek (toks : list Z) : P bool :=
  s ← get_ps;
  let s := skip_space s in
  set_ps s;;
  mret (truth (m s) && strchr_in toks (m s)).

(** ** The grammar *)

Fixpoint parseredirs (fuel : nat) (cmd : nat) : P nat :=
  match fuel with
  | O => no_fuel
  | S f =>
      more ← peek (str "<>");
      if more : bool then
        '(tok, _, _) ← gettoken;
        '(tok2, q, eq) ← gettoken;
        if negb (tok2 =? ch_a) then panic "missing file for redirection"
        else
          cmd ← (if tok =? ch_lt then redircmd cmd q eq O_RDONLY 0
                 else if tok =? ch_gt then redircmd cmd q eq (Z.lor (Z.lor O_WRONLY O_CREATE) O_TRUNC) 1
                 else if tok =? ch_plus then redircmd cmd q eq (Z.lor O_WRONLY O_CREATE) 1
                 else mret cmd);
          parseredirs f cmd
      else mret cmd
  end.

(** The loop of [parseexec]: [cmd] is the exec node, [ret] what the
    redirections have made of it. *)
Fixpoint parseargs (fuel : nat) (cmd : nat) (argc : Z) (ret : nat) : P nat :=
  match fuel with
  | O => no_fuel
  | S f =>
      stop ← peek (str "|)&;");
      if stop : bool then set_arg cmd argc 0 0;; mret ret
      else
        '(tok, q, eq) ← gettoken;
        if tok =? 0 then set_arg cmd argc 0 0;; mret ret
        else if negb (tok =? ch_a) then panic "syntax"
        else
          set_arg cmd argc q eq;;
          if MAXARGS <=? argc + 1 then panic "too many args"
          else ret ← parseredirs f ret; parseargs f cmd (argc + 1) ret
  end.

(** [while(peek(ps, es, "&"))] of [parseline]. *)
Fixpoint parsebacks (fuel : nat) (cmd : nat) : P nat :=
  match fuel with
  | O => no_fuel
  | S f =>
      more ← peek (str "&");
      if more : bool then gettoken;; cmd ← backcmd cmd; parsebacks f cmd else mret cmd
  end.

Fixpoint parseline (fuel : nat) : P nat :=
  match fuel with
  | O => no_fuel
  | S f =>
      cmd ← parsepipe f;
      cmd ← parsebacks f cmd;
      semi ← peek (str ";");
      if semi : bool then gettoken;; r ← parseline f; listcmd cmd r else mret cmd
  end
with parsepipe (fuel : nat) : P nat :=
  match fuel with
  | O => no_fuel
  | S f =>
      cmd ← parseexec f;
      bar ← peek (str "|");
      if bar : bool then gettoken;; r ← parsepipe f; pipecmd cmd r else mret cmd
  end
with parseexec (fuel : nat) : P nat :=
  match fuel with
  | O => no_fuel
  | S f =>
      par ← peek (str "(");
      if par : bool then parseblock f
      else
        ret ← execcmd;
        let cmd := ret in
        ret ← parseredirs f ret;
        parseargs f cmd 0 ret
  end
with parseblock (fuel : nat) : P nat :=
  match fuel with
  | O => no_fuel
  | S f =>
      par ← peek (str "(");
      if negb par then panic "parseblock"
      else
        gettoken;;
        cmd ← parseline f;
        par ← peek (str ")");
        if negb par then panic "syntax - missing )"
        else gettoken;; parseredirs f cmd
  end.
End parser.

(** ** The whole line *)

(** [for(i=0; ecmd->argv[i]; i++) *ecmd->eargv[i] = 0]; nothing when the
    arrays end first. *)
Fixpoint nul_args (argv eargv : list Z) (m : mem) : option mem :=
  match argv, eargv with
  | q :: argv', eq :: eargv' => if q =? 0 then Some m else nul_args argv' eargv' (store1 m eq 0)
  | _, _ => None
  end.

Fixpoint nulterminate (fuel : nat) (st : list node) (cmd : nat) (m : mem) : option mem :=
  match fuel with
  | O => None
  | S f =>
      match cmd with
      | O => Some m
      | S i =>
          match st !! i with
          | Some (Execcmd argv eargv) => nul_args argv eargv m
          | Some (Redircmd c file efile mode fd) =>
              match nulterminate f st c m with Some m => Some (store1 m efile 0) | None => None end
          | Some (Pipecmd l r) | Some (Listcmd l r) =>
              match nulterminate f st l m with Some m => nulterminate f st r m | None => None end
          | Some (Backcmd c) => nulterminate f st c m
          | None => None
          end
      end
  end.

(** The result of [parsecmd]: the root, the memory and the nodes; or what was
    printed before exit(1). *)
Inductive parsed : Type :=
| Parsed (cmd : nat) (m : mem) (st : list node)
| Failed (msg : list Z).

Definition parsecmd (fuel : nat) (m : mem) (s : Z) : option parsed :=
  match KString.strlen fuel m s with
  | None => None
  | Some n =>
      let es := s + n in
      match (cmd ← parseline m es fuel; peek m es []%list;; mret cmd) (Pst s []) with
      | NoFuel => None
      | Die msg => Some (Failed msg)
      | Ok cmd st =>
          if negb (ps st =? es)
          then Some (Failed (str "leftovers: " ++ load_bytes m (ps st) (Z.to_nat (es - ps st)) ++ [10] ++ str "syntax" ++ [10]))
          else match nulterminate fuel (nodes st) cmd m with
               | Some m => Some (Parsed cmd m (nodes st))
               | None => None
               end
      end
  end.
