(* ===== verification/ShLex.v ===== *)
(** * Tokens of the shell

    The tokens of a line, and that gettoken and peek read them. *)

From stdpp Require Import sorting.
From S2P Require Import Prelude CMem KString Sh.

(** [W] is what stands for a word: its two ends in memory, or its text. *)
Inductive tok (W : Type) : Type :=
| Sym (c : Z)
| App
| Word (w : W).
Arguments Sym {W} c.
Arguments App {W}.
Arguments Word {W} w.

Definition tok_map {V W} (f : V -> W) (k : tok V) : tok W :=
  match k with Sym c => Sym c | App => App | Word w => Word (f w) end.

(** The characters of words, and the one-character tokens. *)
Definition is_space (c : Z) : bool := strchr_in whitespace c.
Definition is_symbol (c : Z) : bool := strchr_in symbols c.
Definition is_word (c : Z) : bool := negb (is_space c) && negb (is_symbol c).

(** ** The tokens of a text *)

(** Blanks separate; [>>] is one token; a word is as long as can be. *)
Inductive lexes : list Z -> list (tok (list Z)) -> Prop :=
| lex_end : lexes [] []
| lex_space c l ts : is_space c = true -> lexes l ts -> lexes (c :: l) ts
| lex_app l ts : lexes l ts -> lexes (ch_gt :: ch_gt :: l) (App :: ts)
| lex_sym c l ts : is_symbol c = true -> (c = ch_gt -> head l <> Some ch_gt) -> lexes l ts -> lexes (c :: l) (Sym c :: ts)
| lex_word w l ts : w <> [] -> Forall (fun c => is_word c = true) w -> (forall c, head l = Some c -> is_word c = false) ->
    lexes l ts -> lexes (w ++ l) (Word w :: ts).

Section lexer.
Variable m : mem.
Variables s0 es : Z.

(** The line: no NUL before its end. *)
Hypothesis line_end : m es = 0.
Hypothesis line_chars : forall a, s0 <= a < es -> m a <> 0.

Abbreviation skip_space := (Sh.skip_space m es).
Abbreviation skip_word := (Sh.skip_word m es).

Lemma skip_loop_spec test : forall n s, s + Z.of_nat n = es ->
  s <= skip_loop m n test s <= es /\ (forall a, s <= a < skip_loop m n test s -> test (m a) = true) /\
  (skip_loop m n test s < es -> test (m (skip_loop m n test s)) = false).
Proof.
  induction n as [|n IH]; intros s Hs; cbn [skip_loop]; [split_and!; intros; lia|].
  destruct (test (m s)) eqn:Ht; [|split_and!; intros; try lia; done].
  destruct (IH (s + 1) ltac:(lia)) as (H1 & H2 & H3); split; [lia|split; [|exact H3]].
  intros a Ha; destruct (decide (a = s)) as [->|]; [done|apply H2; lia].
Qed.
Lemma skip_spec test s : s <= es ->
  s <= skip m es test s <= es /\ (forall a, s <= a < skip m es test s -> test (m a) = true) /\
  (skip m es test s < es -> test (m (skip m es test s)) = false).
Proof. intros Hs; apply skip_loop_spec; lia. Qed.

Lemma skip_unique test s e : s <= e <= es -> (forall a, s <= a < e -> test (m a) = true) -> (e < es -> test (m e) = false) ->
  skip m es test s = e.
Proof.
  intros Hs Hin Hout; destruct (skip_spec test s ltac:(lia)) as (H1 & H2 & H3).
  destruct (lt_eq_lt_dec (Z.to_nat (skip m es test s - s)) (Z.to_nat (e - s))) as [[Hlt|Heq]|Hlt]; [|lia|].
  - rewrite Hin in H3 by lia; specialize (H3 ltac:(lia)); done.
  - rewrite H2 in Hout by lia; specialize (Hout ltac:(lia)); done.
Qed.
Lemma skip_idem test s : s <= es -> skip m es test (skip m es test s) = skip m es test s.
Proof. intros Hs; destruct (skip_spec test s Hs) as (H1 & H2 & H3); apply skip_unique; [lia|intros; lia|done]. Qed.

(** ** The tokens in memory *)

Definition is_single (c : Z) : bool :=
  (c =? ch_pipe) || (c =? ch_lpar) || (c =? ch_rpar) || (c =? ch_semi) || (c =? ch_amp) || (c =? ch_lt).

(** The token that starts at [q], and where it ends. *)
Definition token_at (q : Z) : tok (Z * Z) * Z :=
  let c := m q in
  if is_single c then (Sym c, q + 1)
  else if c =? ch_gt then if m (q + 1) =? ch_gt then (App, q + 2) else (Sym c, q + 1)
  else (Word (q, skip_word q), skip_word q).

Fixpoint lexn (n : nat) (s : Z) : list (tok (Z * Z)) :=
  match n with
  | O => []
  | S n' => let q := skip_space s in if q =? es then [] else let '(k, e) := token_at q in k :: lexn n' e
  end.
Definition lex (s : Z) : list (tok (Z * Z)) := lexn (S (Z.to_nat (es - s))) s.

Lemma is_symbol_eq c : is_symbol c = is_single c || (c =? ch_gt).
Proof.
  unfold is_symbol, is_single, strchr_in, symbols, ch_pipe, ch_lpar, ch_rpar, ch_semi, ch_amp, ch_lt, ch_gt.
  vm_compute (str _); cbn [existsb]; lia.
Qed.

Lemma token_end q : s0 <= q < es -> is_space (m q) = false -> q < (token_at q).2 <= es.
Proof.
  intros Hq Hs; unfold token_at; destruct (is_single (m q)) eqn:H1; [cbn; lia|]; destruct (Z.eqb_spec (m q) ch_gt) as [H2|H2].
  - destruct (Z.eqb_spec (m (q + 1)) ch_gt) as [H3|H3]; cbn [snd]; [|lia].
    destruct (decide (q + 1 = es)) as [He|]; [rewrite He, line_end in H3; done|lia].
  - cbn [snd]; unfold skip_word, Sh.skip_word; destruct (skip_spec (fun c => negb (strchr_in whitespace c) && negb (strchr_in symbols c)) q ltac:(lia)) as (Ha & _ & Hc).
    split; [|lia]; destruct (decide (q = skip_word q)) as [He|]; [|unfold skip_word, Sh.skip_word in *; lia].
    unfold skip_word, Sh.skip_word in He; rewrite <- He in Hc; specialize (Hc ltac:(lia)).
    fold (is_space (m q)) (is_symbol (m q)) in Hc; rewrite Hs, is_symbol_eq, H1, (proj2 (Z.eqb_neq _ _) H2) in Hc; done.
Qed.

Lemma skip_space_spec s : s <= es ->
  s <= skip_space s <= es /\ (forall a, s <= a < skip_space s -> is_space (m a) = true) /\
  (skip_space s < es -> is_space (m (skip_space s)) = false).
Proof. apply skip_spec. Qed.

(** Enough steps give all tokens. *)
Lemma lexn_enough : forall n k s, s0 <= s <= es -> (Z.to_nat (es - s) < n)%nat -> (n <= k)%nat -> lexn k s = lexn n s.
Proof.
  induction n as [|n IH]; intros [|k] s Hs Hn Hk; [lia..|]; cbn [lexn].
  destruct (skip_space_spec s ltac:(lia)) as (H1 & _ & H3); destruct (Z.eqb_spec (skip_space s) es) as [|Hne]; [done|].
  pose proof (token_end (skip_space s) ltac:(lia) (H3 ltac:(lia))) as He; destruct (token_at (skip_space s)) as [t e]; cbn [snd] in He.
  f_equal; apply IH; lia.
Qed.

Lemma lex_eq s : s0 <= s <= es ->
  lex s = let q := skip_space s in if q =? es then [] else (token_at q).1 :: lex (token_at q).2.
Proof.
  intros Hs; unfold lex at 1; cbn [lexn]; destruct (skip_space_spec s ltac:(lia)) as (H1 & _ & H3).
  destruct (Z.eqb_spec (skip_space s) es) as [|Hne]; [done|].
  pose proof (token_end (skip_space s) ltac:(lia) (H3 ltac:(lia))) as He; destruct (token_at (skip_space s)) as [t e]; cbn [fst snd] in *.
  f_equal; apply lexn_enough; lia.
Qed.
Lemma lex_skip s : s0 <= s <= es -> lex (skip_space s) = lex s.
Proof.
  intros Hs; destruct (skip_space_spec s ltac:(lia)) as (H1 & _); rewrite !lex_eq by lia; cbv zeta.
  by unfold skip_space, Sh.skip_space; rewrite skip_idem by lia.
Qed.

(** ** The functions of the parser *)

(** Whether the first character of a token is in a set of symbols. *)
Definition tok_in {W} (toks : list Z) (k : tok W) : bool :=
  match k with Sym c => strchr_in toks c | App => strchr_in toks ch_gt | Word _ => false end.
Definition head_in {W} (toks : list Z) (ts : list (tok W)) : bool :=
  match ts with [] => false | k :: _ => tok_in toks k end.
Definition kind {W} (k : tok W) : Z := match k with Sym c => c | App => ch_plus | Word _ => ch_a end.

Lemma peek_run toks s st :
  s0 <= s <= es -> (forall c, strchr_in toks c = true -> is_symbol c = true) ->
  exists s', s0 <= s' <= es /\ lex s' = lex s /\ peek m es toks (Pst s st) = Ok (head_in toks (lex s)) (Pst s' st).
Proof.
  intros Hs Ht; destruct (skip_space_spec s ltac:(lia)) as (H1 & _ & H3); exists (skip_space s); split_and!; [lia|lia|by apply lex_skip|].
  unfold peek, mbind, P_bind, get_ps, set_ps, mret, P_ret; cbn [ps nodes]; f_equal; rewrite lex_eq by done; cbv zeta.
  destruct (Z.eqb_spec (skip_space s) es) as [->|Hne]; [by rewrite line_end|].
  unfold truth; rewrite (proj2 (Z.eqb_neq _ 0)) by (apply line_chars; lia); cbn [negb andb head_in].
  unfold token_at; destruct (is_single (m (skip_space s))) eqn:E1; [done|]; destruct (Z.eqb_spec (m (skip_space s)) ch_gt) as [E2|E2].
  - destruct (Z.eqb_spec (m (skip_space s + 1)) ch_gt); cbn [fst tok_in]; by rewrite ?E2.
  - cbn [fst tok_in]; destruct (strchr_in toks (m (skip_space s))) eqn:E3; [|done].
    apply Ht in E3; rewrite is_symbol_eq, E1, (proj2 (Z.eqb_neq _ _) E2) in E3; done.
Qed.

Lemma gettoken_end s st :
  s0 <= s <= es -> lex s = [] -> exists s' q eq, s0 <= s' <= es /\ lex s' = [] /\ gettoken m es (Pst s st) = Ok (0, q, eq) (Pst s' st).
Proof.
  intros Hs He; rewrite lex_eq in He by done; cbv zeta in He; destruct (Z.eqb_spec (skip_space s) es) as [Heq|]; [|done].
  assert (Hes : skip_space es = es) by (apply skip_unique; intros; lia).
  exists es, es, es; split; [lia|]; split; [rewrite lex_eq by lia; cbv zeta; by rewrite Hes, Z.eqb_refl|].
  unfold gettoken, mbind, P_bind, get_ps, set_ps, mret, P_ret; cbn [ps nodes]; rewrite Heq, line_end; cbn -[Sh.skip_space]; by rewrite Hes.
Qed.

Lemma gettoken_run s st k ts :
  s0 <= s <= es -> lex s = k :: ts ->
  exists s' q eq, s0 <= s' <= es /\ lex s' = ts /\ (forall w, k = Word w -> w = (q, eq)) /\
    gettoken m es (Pst s st) = Ok (kind k, q, eq) (Pst s' st).
Proof.
  intros Hs Hk; rewrite lex_eq in Hk by done; cbv zeta in Hk; destruct (skip_space_spec s ltac:(lia)) as (H1 & _ & H3).
  destruct (Z.eqb_spec (skip_space s) es) as [|Hne]; [done|]; set (q := skip_space s) in *.
  pose proof (token_end q ltac:(lia) (H3 ltac:(lia))) as He; injection Hk as Hk Hts.
  exists (skip_space (token_at q).2), q, (token_at q).2; destruct (skip_space_spec (token_at q).2 ltac:(lia)) as (H1' & _).
  split; [lia|]; split; [rewrite lex_skip by lia; exact Hts|].
  unfold gettoken, mbind, P_bind, get_ps, set_ps, mret, P_ret; cbn [ps nodes]; fold q.
  rewrite (proj2 (Z.eqb_neq (m q) 0)) by (apply line_chars; lia); fold (is_single (m q)); unfold token_at in *.
  destruct (is_single (m q)); [cbn in Hk; subst k; done|]; destruct (Z.eqb_spec (m q) ch_gt) as [E2|E2]; [|cbn in Hk; subst k].
  - destruct (m (q + 1) =? ch_gt); cbn in Hk; subst k; done.
  - split; [by intros w [= <-]|done].
Qed.

(** ** Tokens in memory and tokens of the text *)

Definition slice (w : Z * Z) : list Z := load_bytes m w.1 (Z.to_nat (w.2 - w.1)).
Definition words {W} (ts : list (tok W)) : list W := omap (fun k => match k with Word w => Some w | _ => None end) ts.

Lemma slice_cons s e : s < e -> slice (s, e) = m s :: slice (s + 1, e).
Proof.
  intros Hs; unfold slice; cbn [fst snd]; replace (Z.to_nat (e - s)) with (S (Z.to_nat (e - (s + 1)))) by lia.
  apply load_bytes_S.
Qed.
Lemma slice_nil s : slice (s, s) = [].
Proof. unfold slice; cbn [fst snd]; by rewrite Z.sub_diag. Qed.
Lemma slice_ind (P : Z -> Prop) e : P e -> (forall s, s < e -> P (s + 1) -> P s) -> forall s, s <= e -> P s.
Proof.
  intros He Hs s Hle; replace s with (e - Z.of_nat (Z.to_nat (e - s))) by lia; generalize (Z.to_nat (e - s)) as n.
  induction n as [|n IH]; [by rewrite Z.sub_0_r|]; apply Hs; [lia|]; replace (e - Z.of_nat (S n) + 1) with (e - Z.of_nat n) by lia; done.
Qed.
Lemma slice_app e f : e <= f -> forall s, s <= e -> slice (s, f) = slice (s, e) ++ slice (e, f).
Proof.
  intros Hef; apply slice_ind; [by rewrite slice_nil|]; intros s Hs IH.
  by rewrite (slice_cons s f), (slice_cons s e), IH by lia.
Qed.
Lemma slice_forall (P : Z -> Prop) e : forall s, s <= e -> (forall a, s <= a < e -> P (m a)) -> Forall P (slice (s, e)).
Proof.
  apply (slice_ind (fun s => (forall a, s <= a < e -> P (m a)) -> Forall P (slice (s, e)))); [intros _; rewrite slice_nil; constructor|].
  intros s Hs IH Ha; rewrite slice_cons by done; constructor; [apply Ha; lia|apply IH; intros; apply Ha; lia].
Qed.

Lemma lexes_spaces q ts : q <= es -> lexes (slice (q, es)) ts ->
  forall s, s <= q -> (forall a, s <= a < q -> is_space (m a) = true) -> lexes (slice (s, es)) ts.
Proof.
  intros Hq Hl; apply (slice_ind (fun s => (forall a, s <= a < q -> is_space (m a) = true) -> lexes (slice (s, es)) ts)); [done|].
  intros s Hs IH Ha; rewrite slice_cons by lia; constructor; [apply Ha; lia|apply IH; intros; apply Ha; lia].
Qed.

(** What the token at a position is. *)
Lemma token_lexes q ts :
  s0 <= q < es -> is_space (m q) = false -> lexes (slice ((token_at q).2, es)) ts ->
  lexes (slice (q, es)) (tok_map slice (token_at q).1 :: ts).
Proof.
  intros Hq Hsp; pose proof (token_end q Hq Hsp) as He; unfold token_at in *; pose proof (is_symbol_eq (m q)) as Hsym.
  destruct (is_single (m q)) eqn:H1.
  - intros Hl; rewrite slice_cons by lia; apply lex_sym; [by rewrite Hsym| |done]; intros Heq; by rewrite Heq in H1.
  - destruct (Z.eqb_spec (m q) ch_gt) as [H2|H2].
    + destruct (Z.eqb_spec (m (q + 1)) ch_gt) as [H3|H3]; cbn [fst snd] in *; intros Hl.
      * rewrite !slice_cons, H2, H3 by lia; replace (q + 1 + 1) with (q + 2) by lia; by constructor.
      * rewrite slice_cons by lia; apply lex_sym; [by rewrite Hsym| |done]; intros _.
        destruct (decide (q + 1 = es)) as [->|]; [by rewrite slice_nil|]; rewrite slice_cons by lia; cbn; congruence.
    + cbn [fst snd] in *; intros Hl; unfold skip_word, Sh.skip_word in *.
      destruct (skip_spec (fun c => negb (strchr_in whitespace c) && negb (strchr_in symbols c)) q ltac:(lia)) as (Ha & Hb & Hc).
      set (e := skip m es _ q) in *; rewrite (slice_app e es ltac:(lia) q ltac:(lia)); apply lex_word; [| | |done].
      * rewrite slice_cons by lia; done.
      * apply slice_forall; [lia|exact Hb].
      * intros c; destruct (decide (e = es)) as [->|]; [by rewrite slice_nil|]; rewrite slice_cons by lia; intros [= <-]; apply Hc; lia.
Qed.

Lemma lex_lexes : forall s, s0 <= s <= es -> lexes (slice (s, es)) (tok_map slice <$> lex s).
Proof.
  enough (H : forall n s, (Z.to_nat (es - s) < n)%nat -> s0 <= s <= es -> lexes (slice (s, es)) (tok_map slice <$> lex s)).
  { intros s Hs; by apply (H (S (Z.to_nat (es - s)))); [lia|]. }
  induction n as [|n IH]; intros s Hn Hs; [lia|]; destruct (skip_space_spec s ltac:(lia)) as (H1 & H2 & H3).
  apply (lexes_spaces (skip_space s)); [lia| |lia|done]; rewrite lex_eq by done; cbv zeta.
  destruct (Z.eqb_spec (skip_space s) es) as [->|Hne]; [rewrite slice_nil; constructor|].
  pose proof (token_end (skip_space s) ltac:(lia) (H3 ltac:(lia))) as He; cbn [fmap list_fmap].
  apply token_lexes; [lia|apply H3; lia|]; apply IH; lia.
Qed.

(** Two words are never next to each other. *)
Definition word_at (s : Z) (w : Z * Z) : Prop := s <= w.1 < w.2 /\ w.2 <= es /\ (forall a, w.1 <= a < w.2 -> is_word (m a) = true).

Lemma lex_words : forall s, s0 <= s <= es ->
  Forall (word_at s) (words (lex s)) /\ StronglySorted (fun v w => v.2 < w.1) (words (lex s)).
Proof.
  enough (H : forall n s, (Z.to_nat (es - s) < n)%nat -> s0 <= s <= es ->
    Forall (word_at s) (words (lex s)) /\ StronglySorted (fun v w => v.2 < w.1) (words (lex s))).
  { intros s Hs; by apply (H (S (Z.to_nat (es - s)))); [lia|]. }
  induction n as [|n IH]; intros s Hn Hs; [lia|]; destruct (skip_space_spec s ltac:(lia)) as (H1 & _ & H3).
  rewrite lex_eq by done; cbv zeta; destruct (Z.eqb_spec (skip_space s) es) as [_|Hne]; [split; constructor|].
  set (q := skip_space s) in *; pose proof (token_end q ltac:(lia) (H3 ltac:(lia))) as He.
  destruct (IH (token_at q).2 ltac:(lia) ltac:(lia)) as [IH1 IH2].
  assert (Hmono : Forall (word_at s) (words (lex (token_at q).2))).
  { eapply Forall_impl; [exact IH1|]; intros w (? & ? & ?); split; [lia|done]. }
  destruct (token_at q).1 as [c| |w] eqn:Hk; cbn [words omap list_omap]; [done..|].
  assert (Hw : w = (q, skip_word q) /\ (token_at q).2 = skip_word q).
  { unfold token_at in *; destruct (is_single (m q)); [done|]; destruct (m q =? ch_gt); [by destruct (m (q + 1) =? ch_gt)|].
    cbn in Hk |- *; by injection Hk as <-. }
  destruct Hw as [-> Hend]; rewrite Hend in *; unfold skip_word, Sh.skip_word in *.
  destruct (skip_spec (fun c => negb (strchr_in whitespace c) && negb (strchr_in symbols c)) q ltac:(lia)) as (Ha & Hb & Hc).
  set (e := skip m es _ q) in *; split; [constructor; [|done]|constructor; [done|]].
  - split; [cbn; lia|]; split; [cbn; lia|exact Hb].
  - eapply Forall_impl; [exact IH1|]; intros v (Hv1 & Hv2 & Hv3); cbn [snd]; destruct (decide (v.1 = e)) as [Heq|]; [|lia].
    specialize (Hv3 v.1 ltac:(lia)); rewrite Heq in Hv3; unfold is_word, is_space, is_symbol in Hv3; rewrite Hc in Hv3 by lia; done.
Qed.
End lexer.

(** A text has one list of tokens. *)
Lemma word_split (p : Z -> bool) w l w' l' :
  Forall (fun c => p c = true) w -> Forall (fun c => p c = true) w' ->
  (forall c, head l = Some c -> p c = false) -> (forall c, head l' = Some c -> p c = false) ->
  w ++ l = w' ++ l' -> w = w' /\ l = l'.
Proof.
  revert w'; induction w as [|c w IH]; intros [|c' w'] Hw Hw' Hl Hl' He; cbn in He.
  - done.
  - subst l; apply Forall_cons in Hw' as [Hc _]; rewrite (Hl c') in Hc by done; done.
  - subst l'; apply Forall_cons in Hw as [Hc _]; rewrite (Hl' c) in Hc by done; done.
  - injection He as <- He; apply Forall_cons in Hw as [_ Hw]; apply Forall_cons in Hw' as [_ Hw'].
    destruct (IH w' Hw Hw' Hl Hl' He) as [-> ->]; done.
Qed.

Lemma space_not_symbol c : is_space c = true -> is_symbol c = false.
Proof.
  unfold is_space, is_symbol, strchr_in, whitespace, symbols; vm_compute (str _); cbn [existsb]; lia.
Qed.

(** The first character decides the rule. *)
Lemma lexes_inv c l ts :
  lexes (c :: l) ts ->
  (is_space c = true /\ lexes l ts) \/
  (is_symbol c = true /\ (exists l' ts', c = ch_gt /\ l = ch_gt :: l' /\ ts = App :: ts' /\ lexes l' ts')) \/
  (is_symbol c = true /\ (c = ch_gt -> head l <> Some ch_gt) /\ exists ts', ts = Sym c :: ts' /\ lexes l ts') \/
  (is_word c = true /\ exists w l' ts', c :: l = (c :: w) ++ l' /\ Forall (fun c => is_word c = true) (c :: w) /\
     (forall c, head l' = Some c -> is_word c = false) /\ ts = Word (c :: w) :: ts' /\ lexes l' ts').
Proof.
  intros H; inversion H as [|? ? ? Hc Hl|? ? Hl|? ? ? Hc Hgt Hl|w l' ts' Hw Hall Hmax Hl Heq]; subst.
  - by left.
  - right; left; split; [done|]; eauto 10.
  - right; right; left; eauto.
  - destruct w as [|c' w]; [done|]; injection Heq as -> <-; right; right; right; split; [by apply Forall_cons in Hall as [? _]|].
    exists w, l', ts'; done.
Qed.

Lemma lexes_det : forall n l ts ts', (length l <= n)%nat -> lexes l ts -> lexes l ts' -> ts = ts'.
Proof.
  induction n as [|n IH]; intros [|c l] ts ts' Hn H H'; cbn [length] in Hn; try lia.
  1,2: inversion H; inversion H'; subst; [done|by destruct w|by destruct w|by destruct w].
  pose proof (space_not_symbol c) as Hss.
  apply lexes_inv in H as [[Hs H]|[(Hs & l1 & t1 & -> & -> & -> & H)|[(Hs & Hg & t1 & -> & H)|(Hs & w & l1 & t1 & Hw & Ha & Hm & -> & H)]]];
  apply lexes_inv in H' as [[Hs' H']|[(Hs' & l2 & t2 & Hc2 & Hl2 & -> & H')|[(Hs' & Hg' & t2 & -> & H')|(Hs' & w2 & l2 & t2 & Hw2 & Ha2 & Hm2 & -> & H')]]];
  unfold is_word in Hs, Hs'; rewrite ?Hs, ?Hs' in *; cbn [negb andb] in *; try (specialize (Hss eq_refl)); try congruence;
  try (rewrite andb_false_r in *; done).
  all: cbn [length] in Hn.
  - apply (IH l); [lia|done|done].
  - injection Hl2 as <-; f_equal; apply (IH l1); [cbn in Hn; lia|done|done].
  - by destruct (Hg' eq_refl).
  - subst; by destruct (Hg eq_refl).
  - f_equal; apply (IH l); [lia|done|done].
  - rewrite Hw in Hw2; destruct (word_split is_word _ _ _ _ Ha Ha2 Hm Hm2 Hw2) as [-> <-]; f_equal.
    apply (IH l1); [|done|done]; apply (f_equal length) in Hw; cbn in Hw; rewrite length_app in Hw; lia.
Qed.
