(* ===== verification/ShGram.v ===== *)
(** * The grammar of shell commands

    A context-free grammar over tokens, a parser over lists of tokens shaped
    like the one in the shell, and that the parser decides the grammar. *)

From S2P Require Import Prelude Sysfile Sh ShLex.

(** Commands, with [W] for words. *)
Inductive tree (W : Type) : Type :=
| TExec (args : list W)
| TRedir (cmd : tree W) (file : W) (mode fd : Z)
| TPipe (left right : tree W)
| TList (left right : tree W)
| TBack (cmd : tree W).
Arguments TExec {W} args.
Arguments TRedir {W} cmd file mode fd.
Arguments TPipe {W} left right.
Arguments TList {W} left right.
Arguments TBack {W} cmd.

Fixpoint tree_map {V W} (f : V -> W) (t : tree V) : tree W :=
  match t with
  | TExec args => TExec (f <$> args)
  | TRedir c w mode fd => TRedir (tree_map f c) (f w) mode fd
  | TPipe l r => TPipe (tree_map f l) (tree_map f r)
  | TList l r => TList (tree_map f l) (tree_map f r)
  | TBack c => TBack (tree_map f c)
  end.

Fixpoint tree_words {W} (t : tree W) : list W :=
  match t with
  | TExec args => args
  | TRedir c w _ _ => tree_words c ++ [w]
  | TPipe l r | TList l r => tree_words l ++ tree_words r
  | TBack c => tree_words c
  end.

(** A redirection: the file, how to open it, the descriptor it replaces. *)
Definition redir (W : Type) : Type := W * Z * Z.
Definition wrap {W} (t : tree W) (rs : list (redir W)) : tree W :=
  foldl (fun t r => TRedir t r.1.1 r.1.2 r.2) t rs.
Definition redir_of {W} (k : tok W) : option (Z * Z) :=
  match k with
  | Sym c => if c =? ch_lt then Some (O_RDONLY, 0)
             else if c =? ch_gt then Some (Z.lor (Z.lor O_WRONLY O_CREATE) O_TRUNC, 1) else None
  | App => Some (Z.lor O_WRONLY O_CREATE, 1)
  | Word _ => None
  end.

(** Results of the parser over tokens. *)
Inductive tres (A : Type) : Type := TOk (a : A) | TErr | TFuel.
Arguments TOk {A} a.
Arguments TErr {A}.
Arguments TFuel {A}.
#[export] Instance tres_ret : MRet tres := fun A a => TOk a.
#[export] Instance tres_bind : MBind tres := fun A B f x =>
  match x with TOk a => f a | TErr => TErr | TFuel => TFuel end.

Section grammar.
Context {W : Type}.
Implicit Types (ts : list (tok W)) (t : tree W).

(** ** The grammar *)

(** Redirections, and the words and redirections of a simple command. *)
Inductive Redirs : list (tok W) -> list (redir W) -> Prop :=
| r_nil : Redirs [] []
| r_cons k mode fd w ts rs : redir_of k = Some (mode, fd) -> Redirs ts rs -> Redirs (k :: Word w :: ts) ((w, mode, fd) :: rs).
Inductive Simple : list (tok W) -> list W -> list (redir W) -> Prop :=
| s_nil : Simple [] [] []
| s_word w ts args rs : Simple ts args rs -> Simple (Word w :: ts) (w :: args) rs
| s_redir k mode fd w ts args rs :
    redir_of k = Some (mode, fd) -> Simple ts args rs -> Simple (k :: Word w :: ts) args ((w, mode, fd) :: rs).

(** [line ::= pipe {&} | pipe {&} ; line]
    [pipe ::= exec | exec '|' pipe]
    [exec ::= simple | ( line ) redirs], a simple command with fewer than
    MAXARGS words. *)
Inductive Line : list (tok W) -> tree W -> Prop :=
| g_line ts n t : Pipe ts t -> Line (ts ++ replicate n (Sym ch_amp)) (Nat.iter n TBack t)
| g_semi ts n t ts2 t2 : Pipe ts t -> Line ts2 t2 ->
    Line (ts ++ replicate n (Sym ch_amp) ++ Sym ch_semi :: ts2) (TList (Nat.iter n TBack t) t2)
with Pipe : list (tok W) -> tree W -> Prop :=
| g_exec ts t : Exec ts t -> Pipe ts t
| g_pipe ts t ts2 t2 : Exec ts t -> Pipe ts2 t2 -> Pipe (ts ++ Sym ch_pipe :: ts2) (TPipe t t2)
with Exec : list (tok W) -> tree W -> Prop :=
| g_simple ts args rs : Simple ts args rs -> Z.of_nat (length args) < MAXARGS -> Exec ts (wrap (TExec args) rs)
| g_block ts t ts2 rs : Line ts t -> Redirs ts2 rs -> Exec (Sym ch_lpar :: ts ++ Sym ch_rpar :: ts2) (wrap t rs).

(** ** The parser over tokens *)

Fixpoint predirs (fuel : nat) (ts : list (tok W)) : tres (list (redir W) * list (tok W)) :=
  match fuel with
  | O => TFuel
  | S f =>
      match ts with
      | [] => TOk ([], [])
      | k :: ts1 =>
          match redir_of k with
          | None => TOk ([], ts)
          | Some (mode, fd) =>
              match ts1 with
              | Word w :: ts2 => '(rs, ts3) ← predirs f ts2; TOk ((w, mode, fd) :: rs, ts3)
              | _ => TErr
              end
          end
      end
  end.

Fixpoint pargs (fuel : nat) (n : Z) (ts : list (tok W)) : tres (list W * list (redir W) * list (tok W)) :=
  match fuel with
  | O => TFuel
  | S f =>
      if head_in (str "|)&;") ts then TOk ([], [], ts)
      else match ts with
           | [] => TOk ([], [], [])
           | Word w :: ts1 =>
               if MAXARGS <=? n + 1 then TErr
               else
                 '(rs, ts2) ← predirs f ts1;
                 '(args, rs2, ts3) ← pargs f (n + 1) ts2;
                 TOk (w :: args, rs ++ rs2, ts3)
           | _ => TErr
           end
  end.

Fixpoint pbacks (fuel : nat) (t : tree W) (ts : list (tok W)) : tres (tree W * list (tok W)) :=
  match fuel with
  | O => TFuel
  | S f => if head_in (str "&") ts then pbacks f (TBack t) (tail ts) else TOk (t, ts)
  end.

Fixpoint pline (fuel : nat) (ts : list (tok W)) : tres (tree W * list (tok W)) :=
  match fuel with
  | O => TFuel
  | S f =>
      '(t, ts1) ← ppipe f ts;
      '(t, ts2) ← pbacks f t ts1;
      if head_in (str ";") ts2 then '(t2, ts3) ← pline f (tail ts2); TOk (TList t t2, ts3)
      else TOk (t, ts2)
  end
with ppipe (fuel : nat) (ts : list (tok W)) : tres (tree W * list (tok W)) :=
  match fuel with
  | O => TFuel
  | S f =>
      '(t, ts1) ← pexec f ts;
      if head_in (str "|") ts1 then '(t2, ts2) ← ppipe f (tail ts1); TOk (TPipe t t2, ts2)
      else TOk (t, ts1)
  end
with pexec (fuel : nat) (ts : list (tok W)) : tres (tree W * list (tok W)) :=
  match fuel with
  | O => TFuel
  | S f =>
      if head_in (str "(") ts then pblock f ts
      else
        '(rs, ts1) ← predirs f ts;
        '(args, rs2, ts2) ← pargs f 0 ts1;
        TOk (wrap (TExec args) (rs ++ rs2), ts2)
  end
with pblock (fuel : nat) (ts : list (tok W)) : tres (tree W * list (tok W)) :=
  match fuel with
  | O => TFuel
  | S f =>
      if negb (head_in (str "(") ts) then TErr
      else
        '(t, ts1) ← pline f (tail ts);
        if negb (head_in (str ")") ts1) then TErr
        else '(rs, ts2) ← predirs f (tail ts1); TOk (wrap t rs, ts2)
  end.

(** ** Soundness *)

Lemma head_in_single (c : Z) ts : c <> ch_gt -> head_in [c] ts = true -> ts = Sym c :: tail ts.
Proof.
  intros Hc; destruct ts as [|[d| |w] ts]; cbn [head_in tok_in strchr_in existsb]; rewrite ?orb_false_r; try done.
  - intros ->%Z.eqb_eq; done.
  - intros ?%Z.eqb_eq; congruence.
Qed.

Ltac mon H := repeat match type of H with
  | (mbind _ ?e = TOk _) => let E := fresh "E" in destruct e as [[? ?]| |] eqn:E; cbn in H; try done
  | context [let '(_, _) := ?p in _] => destruct p
  end.

Lemma predirs_sound : forall fuel ts rs ts', predirs fuel ts = TOk (rs, ts') ->
  exists ts1, ts = ts1 ++ ts' /\ Redirs ts1 rs.
Proof.
  induction fuel as [|f IH]; intros ts rs ts' H; [done|]; cbn [predirs] in H.
  destruct ts as [|k ts]; [injection H as <- <-; exists []; split; [done|constructor]|].
  destruct (redir_of k) as [[mode fd]|] eqn:Hk; [|injection H as <- <-; exists []; split; [done|constructor]].
  destruct ts as [|[| |w] ts]; try done; mon H; injection H as <- <-.
  destruct (IH _ _ _ E) as (ts1 & -> & Hr); exists (k :: Word w :: ts1); split; [done|by constructor].
Qed.

Lemma redirs_simple ts1 rs1 ts2 args rs2 : Redirs ts1 rs1 -> Simple ts2 args rs2 -> Simple (ts1 ++ ts2) args (rs1 ++ rs2).
Proof. induction 1; cbn [app]; [done|]; intros; constructor; auto. Qed.

Lemma pargs_sound : forall fuel n ts args rs ts', pargs fuel n ts = TOk (args, rs, ts') ->
  exists ts1, ts = ts1 ++ ts' /\ Simple ts1 args rs /\ (args = [] \/ n + Z.of_nat (length args) < MAXARGS).
Proof.
  induction fuel as [|f IH]; intros n ts args rs ts' H; [done|]; cbn [pargs] in H.
  destruct (head_in _ ts); [injection H as <- <- <-; exists []; split_and!; [done|constructor|by left]|].
  destruct ts as [|[| |w] ts]; try done; [injection H as <- <- <-; exists []; split_and!; [done|constructor|by left]|].
  destruct (Z.leb_spec MAXARGS (n + 1)) as [|Hn]; [done|]; mon H; injection H as <- <- <-.
  destruct (predirs_sound _ _ _ _ E) as (ts1 & -> & Hr); destruct (IH _ _ _ _ _ E0) as (ts2 & -> & Hs & Hlen).
  exists (Word w :: ts1 ++ ts2); split_and!; [cbn; by rewrite <- app_assoc|constructor; by apply redirs_simple|right; cbn [length]].
  destruct Hlen as [->|Hlen]; cbn; lia.
Qed.

Lemma iter_back n t : Nat.iter n TBack (TBack t) = Nat.iter (S n) TBack t.
Proof. by rewrite Nat.iter_succ_r. Qed.

Lemma pbacks_sound : forall fuel t ts t' ts', pbacks fuel t ts = TOk (t', ts') ->
  exists n, ts = replicate n (Sym ch_amp) ++ ts' /\ t' = Nat.iter n TBack t.
Proof.
  induction fuel as [|f IH]; intros t ts t' ts' H; [done|]; cbn [pbacks] in H.
  destruct (head_in _ ts) eqn:Hh; [|injection H as <- <-; by exists O].
  apply (head_in_single ch_amp) in Hh; [|done]; destruct (IH _ _ _ _ H) as (n & Hts & ->); exists (S n).
  rewrite Hh, Hts; split; [done|apply iter_back].
Qed.

Lemma parser_sound : forall fuel ts,
  (forall t ts', pline fuel ts = TOk (t, ts') -> exists ts1, ts = ts1 ++ ts' /\ Line ts1 t) /\
  (forall t ts', ppipe fuel ts = TOk (t, ts') -> exists ts1, ts = ts1 ++ ts' /\ Pipe ts1 t) /\
  (forall t ts', pexec fuel ts = TOk (t, ts') -> exists ts1, ts = ts1 ++ ts' /\ Exec ts1 t) /\
  (forall t ts', pblock fuel ts = TOk (t, ts') -> exists ts1, ts = ts1 ++ ts' /\ Exec ts1 t).
Proof.
  induction fuel as [|f IH]; intros ts; [done|]; split_and!; intros t ts' H;
    [cbn [pline] in H|cbn [ppipe] in H|cbn [pexec] in H|cbn [pblock] in H].
  - mon H; apply (IH ts) in E as (ts1 & -> & Hp); apply pbacks_sound in E0 as (n & -> & ->).
    destruct (head_in _ _) eqn:Hh; [|injection H as <- <-; exists (ts1 ++ replicate n (Sym ch_amp)); split; [by rewrite app_assoc|by constructor]].
    apply (head_in_single ch_semi) in Hh; [|done]; mon H; injection H as <- <-; apply IH in E as (ts2 & Ht & Hl).
    exists (ts1 ++ replicate n (Sym ch_amp) ++ Sym ch_semi :: ts2); split; [|by constructor].
    rewrite Hh, Ht, <- !app_assoc; done.
  - mon H; apply (IH ts) in E as (ts1 & -> & Hp).
    destruct (head_in _ _) eqn:Hh; [|injection H as <- <-; exists ts1; split; [done|by constructor]].
    apply (head_in_single ch_pipe) in Hh; [|done]; mon H; injection H as <- <-; apply IH in E as (ts2 & Ht & Hl).
    exists (ts1 ++ Sym ch_pipe :: ts2); split; [|by constructor]; rewrite Hh, Ht, <- !app_assoc; done.
  - destruct (head_in _ _) eqn:Hh; [by apply (IH ts)|]; mon H; injection H as <- <-.
    apply predirs_sound in E as (ts1 & -> & Hr); apply pargs_sound in E0 as (ts2 & -> & Hs & Hn).
    exists (ts1 ++ ts2); split; [by rewrite app_assoc|]; constructor; [by apply redirs_simple|].
    destruct Hn as [->|Hn]; [done|lia].
  - destruct (head_in _ _) eqn:Hh; cbn [negb] in H; [|done]; apply (head_in_single ch_lpar) in Hh; [|done]; mon H.
    apply IH in E as (ts1 & Ht & Hl); destruct (head_in _ l) eqn:Hh'; cbn [negb] in H; [|done].
    apply (head_in_single ch_rpar) in Hh'; [|done]; mon H; injection H as <- <-; apply predirs_sound in E as (ts2 & Ht2 & Hr).
    exists (Sym ch_lpar :: ts1 ++ Sym ch_rpar :: ts2); split; [|by constructor].
    rewrite Hh, Ht, Hh', Ht2; cbn; by rewrite <- app_assoc.
Qed.

(** ** Completeness *)

Scheme Line_mind := Minimality for Line Sort Prop
  with Pipe_mind := Minimality for Pipe Sort Prop
  with Exec_mind := Minimality for Exec Sort Prop.
Combined Scheme grammar_ind from Line_mind, Pipe_mind, Exec_mind.

(** What may follow a command. *)
Definition after (toks : list Z) (rest : list (tok W)) : Prop := rest = [] \/ head_in toks rest = true.

Lemma after_redir rest : after (str "|)&;") rest -> forall k r, rest = k :: r -> redir_of k = None.
Proof.
  intros [->|Hh] k r; [done|]; intros ->; destruct k as [c| |w]; try done; cbn [head_in tok_in redir_of] in *.
  destruct (Z.eqb_spec c ch_lt) as [->|]; [done|]; destruct (Z.eqb_spec c ch_gt) as [->|]; done.
Qed.

Lemma predirs_stop f rest : after (str "|)&;") rest -> predirs (S f) rest = TOk ([], rest).
Proof. intros Ha; cbn [predirs]; destruct rest as [|k r]; [done|]; by rewrite (after_redir _ Ha k r). Qed.

Lemma predirs_complete rest : after (str "|)&;") rest -> forall ts rs, Redirs ts rs ->
  forall fuel, (length ts < fuel)%nat -> predirs fuel (ts ++ rest) = TOk (rs, rest).
Proof.
  intros Ha ts rs H; induction H as [|k mode fd w ts rs Hk _ IH]; intros [|f] Hf; try (cbn in Hf; lia).
  - by apply predirs_stop.
  - cbn [app predirs]; rewrite Hk, IH by (cbn in Hf; lia); done.
Qed.

Lemma simple_complete rest : after (str "|)&;") rest -> forall ts args rs, Simple ts args rs ->
  forall f1 f2 n, (length ts < f1)%nat -> (length ts < f2)%nat -> n + Z.of_nat (length args) < MAXARGS ->
  exists rs1 ts1 rs2, predirs f1 (ts ++ rest) = TOk (rs1, ts1) /\ pargs f2 n ts1 = TOk (args, rs2, rest) /\ rs = rs1 ++ rs2.
Proof.
  intros Ha ts args rs H; induction H as [|w ts args rs _ IH|k mode fd w ts args rs Hk _ IH]; intros [|f1] [|f2] n H1 H2 Hn; try (cbn in *; lia).
  - exists [], rest, []; rewrite predirs_stop by done; split_and!; try done; cbn [pargs].
    destruct Ha as [->| ->]; [|done]; by destruct (head_in _ _).
  - cbn [length] in *; destruct (IH f2 f2 (n + 1)) as (rs1 & ts1 & rs2 & E1 & E2 & ->); [lia|lia|lia|].
    exists [], (Word w :: ts ++ rest), (rs1 ++ rs2); split_and!; [done| |done].
    cbn [pargs head_in tok_in]; rewrite (proj2 (Z.leb_gt MAXARGS (n + 1))) by lia.
    cbn; rewrite E1; cbn; by rewrite E2.
  - cbn [length] in *; destruct (IH f1 (S f2) n) as (rs1 & ts1 & rs2 & E1 & E2 & ->); [lia|lia|done|].
    exists ((w, mode, fd) :: rs1), ts1, rs2; split_and!; [|done|done]; cbn [app predirs]; rewrite Hk; cbn; by rewrite E1.
Qed.

Lemma pbacks_complete rest : head_in (str "&") rest = false -> forall n fuel t, (n < fuel)%nat ->
  pbacks fuel t (replicate n (Sym ch_amp) ++ rest) = TOk (Nat.iter n TBack t, rest).
Proof.
  intros Hr; induction n as [|n IH]; intros [|f] t Hf; try lia; cbn [pbacks].
  - cbn [replicate app]; by rewrite Hr.
  - cbn [replicate app tail]; rewrite IH by lia; by rewrite iter_back.
Qed.

Lemma after_weaken (a b : list Z) rest : (forall c, strchr_in a c = true -> strchr_in b c = true) -> after a rest -> after b rest.
Proof.
  intros Hab [->|Hh]; [by left|right]; destruct rest as [|[c| |w] r]; cbn [head_in tok_in] in *; try done; by apply Hab.
Qed.
Lemma after_not (a b : list Z) rest : (forall c, strchr_in a c = true -> strchr_in b c = false) -> after a rest -> head_in b rest = false.
Proof.
  intros Hab [->|Hh]; [done|]; destruct rest as [|[c| |w] r]; cbn [head_in tok_in] in *; try done; by apply Hab.
Qed.
End grammar.

Ltac char_sets := intros; unfold strchr_in in *; vm_compute (str _) in *; cbn [existsb] in *; lia.

Section complete.
Context {W : Type}.
Implicit Types (ts : list (tok W)) (t : tree W).

(** A simple command does not start with a parenthesis. *)
Lemma simple_start ts args rs rest : Simple ts args rs -> after (str "|)&;") rest -> head_in (str "(") (ts ++ rest) = false.
Proof.
  intros Hs Ha; inversion Hs as [|w ts' ? ? _|k mode fd w ts' ? ? Hk _]; subst; cbn [app].
  - apply (after_not (str "|)&;")); [char_sets|done].
  - done.
  - destruct k as [c| |]; try done; cbn [redir_of head_in tok_in] in *.
    destruct (Z.eqb_spec c ch_lt) as [->|]; [done|]; destruct (Z.eqb_spec c ch_gt) as [->|]; done.
Qed.

Lemma parser_complete :
  (forall ts t, Line ts t -> forall fuel rest, (4 * length ts + 4 <= fuel)%nat -> after (str ")") rest -> pline fuel (ts ++ rest) = TOk (t, rest)) /\
  (forall ts t, Pipe ts t -> forall fuel rest, (4 * length ts + 3 <= fuel)%nat -> after (str ")&;") rest -> ppipe fuel (ts ++ rest) = TOk (t, rest)) /\
  (forall ts t, Exec ts t -> forall fuel rest, (4 * length ts + 2 <= fuel)%nat -> after (str "|)&;") rest -> pexec fuel (ts ++ rest) = TOk (t, rest)).
Proof.
  apply grammar_ind.
  - intros ts n t _ IH [|f] rest Hf Ha; [lia|]; rewrite length_app, length_replicate in Hf; rewrite <- app_assoc; cbn [pline].
    rewrite IH; [|lia|]; cbn.
    2: { destruct n; cbn; [by apply (after_weaken (str ")")); [char_sets|]|by right]. }
    rewrite pbacks_complete; [cbn|by apply (after_not (str ")")); [char_sets|]|lia].
    rewrite (after_not (str ")") (str ";")); [done|char_sets|done].
  - intros ts n t ts2 t2 _ IH _ IH2 [|f] rest Hf Ha; [lia|]; rewrite !length_app, length_replicate in Hf; cbn [length] in Hf.
    rewrite <- !app_assoc; cbn [pline]; rewrite IH; [cbn|lia|destruct n; by right].
    rewrite pbacks_complete by (done || lia); cbn; rewrite IH2 by (done || lia); done.
  - intros ts t _ IH [|f] rest Hf Ha; [lia|]; cbn [ppipe]; rewrite IH; [cbn|lia|by apply (after_weaken (str ")&;")); [char_sets|]].
    rewrite (after_not (str ")&;") (str "|")); [done|char_sets|done].
  - intros ts t ts2 t2 _ IH _ IH2 [|f] rest Hf Ha; [lia|]; rewrite !length_app in Hf; cbn [length] in Hf.
    rewrite <- !app_assoc; cbn [ppipe]; rewrite IH; [cbn|lia|by right]; rewrite IH2 by (done || lia); done.
  - intros ts args rs Hs Hn [|f] rest Hf Ha; [lia|]; cbn [pexec]; rewrite (simple_start _ _ _ _ Hs Ha).
    destruct (simple_complete rest Ha ts args rs Hs f f 0) as (rs1 & ts1 & rs2 & E1 & E2 & ->); [lia..|].
    rewrite E1; cbn; by rewrite E2.
  - intros ts t ts2 rs _ IH Hr [|[|f]] rest Hf Ha; [lia..|]; cbn [length] in Hf; rewrite length_app in Hf; cbn [length] in Hf.
    rewrite <- app_comm_cons, <- app_assoc; cbn [pexec pblock head_in tok_in tail]; change (strchr_in (str "(") ch_lpar) with true; cbn [negb].
    rewrite IH; [cbn|lia|by right]; rewrite (predirs_complete _ Ha _ _ Hr) by lia; done.
Qed.
End complete.

(** ** The parser ends *)

Section total.
Context {W : Type}.
Implicit Types (ts : list (tok W)) (t : tree W).

Lemma predirs_total : forall fuel ts, (length ts < fuel)%nat -> predirs fuel ts <> TFuel.
Proof.
  induction fuel as [|f IH]; intros ts Hf; [lia|]; cbn [predirs]; destruct ts as [|k ts]; [done|].
  destruct (redir_of k) as [[mode fd]|]; [|done]; destruct ts as [|[| |w] ts]; try done; cbn [length] in Hf.
  specialize (IH ts ltac:(lia)); by destruct (predirs f ts) as [[]| |].
Qed.
Lemma predirs_shrinks fuel ts rs ts' : predirs fuel ts = TOk (rs, ts') -> (length ts' <= length ts)%nat.
Proof. intros (ts1 & -> & _)%predirs_sound; rewrite length_app; lia. Qed.

Lemma pargs_total : forall fuel n ts, (length ts < fuel)%nat -> pargs fuel n ts <> TFuel.
Proof.
  induction fuel as [|f IH]; intros n ts Hf; [lia|]; cbn [pargs]; destruct (head_in _ ts); [done|].
  destruct ts as [|[| |w] ts]; try done; destruct (MAXARGS <=? n + 1); [done|]; cbn [length] in Hf.
  pose proof (predirs_total f ts ltac:(lia)); destruct (predirs f ts) as [[rs ts2]| |] eqn:E; [|done|done]; cbn.
  apply predirs_shrinks in E; specialize (IH (n + 1) ts2 ltac:(lia)); by destruct (pargs f (n + 1) ts2) as [[[] ?]| |].
Qed.

Lemma pbacks_total : forall fuel t ts, (length ts < fuel)%nat -> pbacks fuel t ts <> TFuel.
Proof.
  induction fuel as [|f IH]; intros t ts Hf; [lia|]; cbn [pbacks]; destruct (head_in _ ts) eqn:Hh; [|done].
  destruct ts; [done|]; apply IH; cbn in *; lia.
Qed.
Lemma pbacks_shrinks fuel t ts t' ts' : pbacks fuel t ts = TOk (t', ts') -> (length ts' <= length ts)%nat.
Proof. intros (n & -> & _)%pbacks_sound; rewrite length_app; lia. Qed.

Lemma sound_shrinks fuel ts t ts' :
  (pline fuel ts = TOk (t, ts') \/ ppipe fuel ts = TOk (t, ts') \/ pexec fuel ts = TOk (t, ts')) -> (length ts' <= length ts)%nat.
Proof.
  destruct (parser_sound fuel ts) as (H1 & H2 & H3 & _).
  intros [(ts1 & -> & _)%H1|[(ts1 & -> & _)%H2|(ts1 & -> & _)%H3]]; rewrite length_app; lia.
Qed.

Lemma tail_length ts b : head_in b ts = true -> (length (tail ts) < length ts)%nat.
Proof. destruct ts; cbn; [done|lia]. Qed.

Lemma parser_total : forall fuel ts,
  ((4 * length ts + 4 <= fuel)%nat -> pline fuel ts <> TFuel) /\
  ((4 * length ts + 3 <= fuel)%nat -> ppipe fuel ts <> TFuel) /\
  ((4 * length ts + 2 <= fuel)%nat -> pexec fuel ts <> TFuel) /\
  ((4 * length ts + 1 <= fuel)%nat -> pblock fuel ts <> TFuel).
Proof.
  induction fuel as [|f IH]; intros ts; [split_and!; intros; lia|]; split_and!; intros Hf;
    [cbn [pline]|cbn [ppipe]|cbn [pexec]|cbn [pblock]].
  - destruct (IH ts) as (_ & H & _); specialize (H ltac:(lia)); destruct (ppipe f ts) as [[t ts1]| |] eqn:E; [cbn|done|done].
    pose proof (sound_shrinks f ts t ts1 ltac:(auto)); pose proof (pbacks_total f t ts1 ltac:(lia)).
    destruct (pbacks f t ts1) as [[t' ts2]| |] eqn:E2; [cbn|done|done]; apply pbacks_shrinks in E2.
    destruct (head_in _ ts2) eqn:Hh; [|done]; apply tail_length in Hh; destruct (IH (tail ts2)) as (H9 & _); specialize (H9 ltac:(lia)).
    by destruct (pline f (tail ts2)) as [[]| |].
  - destruct (IH ts) as (_ & _ & H & _); specialize (H ltac:(lia)); destruct (pexec f ts) as [[t ts1]| |] eqn:E; [cbn|done|done].
    pose proof (sound_shrinks f ts t ts1 ltac:(auto)).
    destruct (head_in _ ts1) eqn:Hh; [|done]; apply tail_length in Hh; destruct (IH (tail ts1)) as (_ & H1 & _); specialize (H1 ltac:(lia)).
    by destruct (ppipe f (tail ts1)) as [[]| |].
  - destruct (head_in _ ts); [apply IH; lia|]; pose proof (predirs_total f ts ltac:(lia)).
    destruct (predirs f ts) as [[rs ts1]| |] eqn:E; [cbn|done|done]; apply predirs_shrinks in E.
    pose proof (pargs_total f 0 ts1 ltac:(lia)); by destruct (pargs f 0 ts1) as [[[] ?]| |].
  - destruct (head_in _ ts) eqn:Hh; cbn [negb]; [|done]; apply tail_length in Hh; destruct (IH (tail ts)) as (H & _); specialize (H ltac:(lia)).
    destruct (pline f (tail ts)) as [[t ts1]| |] eqn:E; [cbn|done|done]; pose proof (sound_shrinks f (tail ts) t ts1 ltac:(auto)).
    destruct (head_in _ ts1) eqn:Hh1; cbn [negb]; [|done]; apply tail_length in Hh1; pose proof (predirs_total f (tail ts1) ltac:(lia)).
    by destruct (predirs f (tail ts1)) as [[]| |].
Qed.

(** The parser decides the grammar. *)
Lemma pline_decides fuel ts :
  (4 * length ts + 4 <= fuel)%nat ->
  (exists t, pline fuel ts = TOk (t, []) /\ Line ts t) \/
  ((forall t, ~ Line ts t) /\ (pline fuel ts = TErr \/ exists t k r, pline fuel ts = TOk (t, k :: r))).
Proof.
  intros Hf; destruct (parser_total fuel ts) as (Ht & _); specialize (Ht Hf).
  assert (Hc : forall t, Line ts t -> pline fuel ts = TOk (t, [])).
  { intros t Hl; rewrite <- (app_nil_r ts) at 1; apply parser_complete; [done|lia|by left]. }
  destruct (pline fuel ts) as [[t [|k r]]| |] eqn:E; [left|right|right|done].
  - destruct (parser_sound fuel ts) as (Hs & _); apply Hs in E as (ts1 & -> & Hl); exists t; by rewrite app_nil_r.
  - split; [intros t' Hl%Hc; done|right; eauto].
  - split; [intros t' Hl%Hc; done|by left].
Qed.
End total.

(** ** Words do not matter to the parser *)

Section naturality.
Context {V W : Type} (f : V -> W).
Abbreviation tm := (fmap (M := list) (tok_map f)).
Definition redir_map (r : redir V) : redir W := (f r.1.1, r.1.2, r.2).
Definition tres_map {A B} (g : A -> B) (x : tres A) : tres B := match x with TOk a => TOk (g a) | TErr => TErr | TFuel => TFuel end.

Lemma head_in_map toks ts : head_in toks (tm ts) = head_in toks ts.
Proof. by destruct ts as [|[]]. Qed.
Lemma redir_of_map k : redir_of (tok_map f k) = redir_of k.
Proof. by destruct k. Qed.
Lemma tail_map ts : tail (tm ts) = tm (tail ts).
Proof. by destruct ts. Qed.
Lemma wrap_map rs : forall t, tree_map f (wrap t rs) = wrap (tree_map f t) (redir_map <$> rs).
Proof. induction rs as [|r rs IH]; intros t; [done|]; cbn [wrap foldl fmap list_fmap]; unfold wrap in *; by rewrite IH. Qed.

Lemma predirs_map : forall fuel ts, predirs fuel (tm ts) = tres_map (fun '(rs, ts') => (redir_map <$> rs, tm ts')) (predirs fuel ts).
Proof.
  induction fuel as [|n IH]; intros ts; [done|]; destruct ts as [|k ts]; [done|]; cbn [predirs fmap list_fmap].
  rewrite redir_of_map; destruct (redir_of k) as [[mode fd]|]; [|done]; destruct ts as [|[| |w] ts]; try done; cbn [fmap list_fmap tok_map].
  rewrite IH; by destruct (predirs n ts) as [[]| |].
Qed.
Lemma pargs_map : forall fuel n ts,
  pargs fuel n (tm ts) = tres_map (fun '(args, rs, ts') => (f <$> args, redir_map <$> rs, tm ts')) (pargs fuel n ts).
Proof.
  induction fuel as [|k IH]; intros n ts; [done|]; cbn [pargs]; rewrite head_in_map; destruct (head_in _ ts); [done|].
  destruct ts as [|[| |w] ts]; try done; cbn [fmap list_fmap tok_map]; destruct (MAXARGS <=? n + 1); [done|].
  rewrite predirs_map; destruct (predirs k ts) as [[rs ts2]| |]; cbn; [|done|done].
  rewrite IH; destruct (pargs k (n + 1) ts2) as [[[args rs2] ts3]| |]; cbn; [|done|done]; by rewrite fmap_app.
Qed.
Lemma pbacks_map : forall fuel t ts,
  pbacks fuel (tree_map f t) (tm ts) = tres_map (fun '(t, ts') => (tree_map f t, tm ts')) (pbacks fuel t ts).
Proof.
  induction fuel as [|n IH]; intros t ts; [done|]; cbn [pbacks]; rewrite head_in_map; destruct (head_in _ ts); [|done].
  rewrite tail_map; apply (IH (TBack t)).
Qed.

Lemma parser_map : forall fuel ts,
  let g := fun '(t, ts') => (tree_map f t, tm ts') in
  pline fuel (tm ts) = tres_map g (pline fuel ts) /\ ppipe fuel (tm ts) = tres_map g (ppipe fuel ts) /\
  pexec fuel (tm ts) = tres_map g (pexec fuel ts) /\ pblock fuel (tm ts) = tres_map g (pblock fuel ts).
Proof.
  intros fuel ts g; revert ts; induction fuel as [|n IH]; intros ts; [done|]; split_and!;
    [cbn [pline]|cbn [ppipe]|cbn [pexec]|cbn [pblock]].
  - rewrite (proj1 (proj2 (IH ts))); destruct (ppipe n ts) as [[t ts1]| |]; cbn; [|done|done].
    rewrite pbacks_map; destruct (pbacks n t ts1) as [[t' ts2]| |]; cbn; [|done|done].
    rewrite head_in_map, tail_map, (proj1 (IH (tail ts2))); destruct (head_in _ ts2); [|done]; by destruct (pline n (tail ts2)) as [[]| |].
  - rewrite (proj1 (proj2 (proj2 (IH ts)))); destruct (pexec n ts) as [[t ts1]| |]; cbn; [|done|done].
    rewrite head_in_map, tail_map, (proj1 (proj2 (IH (tail ts1)))); destruct (head_in _ ts1); [|done]; by destruct (ppipe n (tail ts1)) as [[]| |].
  - rewrite head_in_map; destruct (head_in _ ts); [apply IH|]; rewrite predirs_map; destruct (predirs n ts) as [[rs ts1]| |]; cbn; [|done|done].
    rewrite pargs_map; destruct (pargs n 0 ts1) as [[[args rs2] ts2]| |]; cbn; [|done|done]; by rewrite wrap_map, fmap_app.
  - rewrite head_in_map, tail_map; destruct (head_in _ ts); cbn [negb]; [|done].
    rewrite (proj1 (IH (tail ts))); destruct (pline n (tail ts)) as [[t ts1]| |]; cbn; [|done|done].
    rewrite head_in_map, tail_map; destruct (head_in _ ts1); cbn [negb]; [|done].
    rewrite predirs_map; destruct (predirs n (tail ts1)) as [[rs ts2]| |]; cbn; [|done|done]; by rewrite wrap_map.
Qed.
End naturality.
