(* ===== verification/ShOk.v ===== *)
(** * The shell's parser is correct

    The parser builds, in the store, the tree that the grammar gives to the
    tokens of the line, or panics when there is none; nulterminate then makes
    every word of the tree a string of its own. *)

From stdpp Require Import sorting.
From S2P Require Import Prelude CMem KString Ulib Sysfile Sh ShLex ShGram.

(** ** Trees in the store *)

Abbreviation ptree := (tree (Z * Z)).
Definition pad (l : list Z) : list Z := l ++ replicate (Z.to_nat MAXARGS - length l) 0.
Definition exec_node (args : list (Z * Z)) : node := Execcmd (pad (fst <$> args)) (pad (snd <$> args)).

(** The node [p] of the store is the root of the tree. *)
Fixpoint built (st : list node) (p : nat) (t : ptree) : Prop :=
  match t with
  | TExec args => get_node st p = Some (exec_node args)
  | TRedir c w mode fd => exists p', get_node st p = Some (Redircmd p' w.1 w.2 mode fd) /\ built st p' c
  | TPipe l r => exists p1 p2, get_node st p = Some (Pipecmd p1 p2) /\ built st p1 l /\ built st p2 r
  | TList l r => exists p1 p2, get_node st p = Some (Listcmd p1 p2) /\ built st p1 l /\ built st p2 r
  | TBack c => exists p', get_node st p = Some (Backcmd p') /\ built st p' c
  end.

(** [p'] is what the redirections [rs] make of [p]. *)
Fixpoint wraps (st : list node) (p : nat) (rs : list (redir (Z * Z))) (p' : nat) : Prop :=
  match rs with
  | [] => p' = p
  | (w, mode, fd) :: rs => exists p1, get_node st p1 = Some (Redircmd p w.1 w.2 mode fd) /\ wraps st p1 rs p'
  end.

Lemma get_node_app st st' p n : get_node st p = Some n -> get_node (st ++ st') p = Some n.
Proof. destruct p; cbn; [done|]; apply lookup_app_l_Some. Qed.
Lemma get_node_new st st' n : get_node (st ++ n :: st') (S (length st)) = Some n.
Proof. cbn; by apply list_lookup_middle. Qed.

Lemma built_app st st' t : forall p, built st p t -> built (st ++ st') p t.
Proof.
  induction t as [args|c IH w mode fd|l IHl r IHr|l IHl r IHr|c IH]; intros p H; cbn [built] in *.
  - by apply get_node_app.
  - destruct H as (p' & ? & ?); exists p'; split; [by apply get_node_app|by apply IH].
  - destruct H as (p1 & p2 & ? & ? & ?); exists p1, p2; split_and!; [by apply get_node_app|by apply IHl|by apply IHr].
  - destruct H as (p1 & p2 & ? & ? & ?); exists p1, p2; split_and!; [by apply get_node_app|by apply IHl|by apply IHr].
  - destruct H as (p' & ? & ?); exists p'; split; [by apply get_node_app|by apply IH].
Qed.
Lemma wraps_app st st' rs p' : forall p, wraps st p rs p' -> wraps (st ++ st') p rs p'.
Proof.
  induction rs as [|[[w mode] fd] rs IH]; intros p H; cbn [wraps] in *; [done|].
  destruct H as (p1 & ? & ?); exists p1; split; [by apply get_node_app|by apply IH].
Qed.
Lemma wraps_built st rs p' : forall p t, built st p t -> wraps st p rs p' -> built st p' (wrap t rs).
Proof.
  induction rs as [|[[w mode] fd] rs IH]; intros p t Hb Hw; cbn [wraps] in Hw; [by subst|].
  destruct Hw as (p1 & Hn & Hw); apply (IH p1 (TRedir t w mode fd)); [|done]; exists p; done.
Qed.
Lemma wraps_trans st rs1 rs2 p1 p2 : forall p, wraps st p rs1 p1 -> wraps st p1 rs2 p2 -> wraps st p (rs1 ++ rs2) p2.
Proof.
  induction rs1 as [|[[w mode] fd] rs1 IH]; intros p H1 H2; cbn [wraps app] in *; [by subst|].
  destruct H1 as (q & ? & ?); exists q; split; [done|by apply IH].
Qed.

(** Filling in an exec node leaves the redirections around it. *)
Lemma wraps_exec st i a b rs p' : st !! i = Some (exec_node a) -> forall p, wraps st p rs p' -> wraps (<[i := exec_node b]> st) p rs p'.
Proof.
  intros Hi; induction rs as [|[[w mode] fd] rs IH]; intros p H; cbn [wraps] in *; [done|].
  destruct H as (p1 & Hn & Hw); exists p1; split; [|by apply IH]; destruct p1 as [|j]; [done|]; cbn in *.
  rewrite list_lookup_insert_ne; [done|]; intros ->; rewrite Hi in Hn; done.
Qed.

(** ** Runs of the parser *)

Section monad.
Context {A B : Type} (x : P A) (k : A -> P B).
Lemma bind_ok s a s' : x s = Ok a s' -> (x ≫= k) s = k a s'.
Proof. unfold mbind, P_bind; by intros ->. Qed.
Lemma bind_die s msg : x s = Die msg -> (x ≫= k) s = Die msg.
Proof. unfold mbind, P_bind; by intros ->. Qed.
Lemma bind_fuel s : x s = NoFuel -> (x ≫= k) s = NoFuel.
Proof. unfold mbind, P_bind; by intros ->. Qed.
End monad.

Section simulation.
Variable m : mem.
Variables s0 es : Z.
Hypothesis line_end : m es = 0.
Hypothesis line_chars : forall a, s0 <= a < es -> m a <> 0.
Abbreviation lex := (ShLex.lex m es).

(** A run from the tokens [ts] does what the parser over tokens does. *)
Definition state_ok (s : Z) (ts : list (tok (Z * Z))) : Prop := s0 <= s <= es /\ lex s = ts.
Definition sim {A B} (r : pres A) (x : tres (B * list (tok (Z * Z)))) (R : A -> list node -> B -> Prop) : Prop :=
  match x with
  | TOk (b, ts) => exists a s st, r = Ok a (Pst s st) /\ state_ok s ts /\ R a st b
  | TErr => exists msg, r = Die msg
  | TFuel => r = NoFuel
  end.

Lemma peek_sim toks s ts st :
  state_ok s ts -> (forall c, strchr_in toks c = true -> is_symbol c = true) ->
  exists s', state_ok s' ts /\ peek m es toks (Pst s st) = Ok (head_in toks ts) (Pst s' st).
Proof.
  intros [Hs <-] Ht; destruct (peek_run m s0 es line_end line_chars toks s st Hs Ht) as (s' & Hs' & He & Hr); exists s'; done.
Qed.
Lemma gettoken_sim s k ts st :
  state_ok s (k :: ts) ->
  exists s' q eq, state_ok s' ts /\ (forall w, k = Word w -> w = (q, eq)) /\ gettoken m es (Pst s st) = Ok (kind k, q, eq) (Pst s' st).
Proof.
  intros [Hs Hl]; destruct (gettoken_run m s0 es line_end line_chars s st k ts Hs Hl) as (s' & q & eq & Hs' & He & Hw & Hr).
  exists s', q, eq; done.
Qed.

Lemma sym_in (toks : list Z) c : Forall (fun c => is_symbol c = true) toks -> strchr_in toks c = true -> is_symbol c = true.
Proof.
  intros Hf H; apply existsb_exists in H as (d & Hin & ->%Z.eqb_eq); rewrite Forall_forall in Hf; apply Hf.
  by apply list_elem_of_In.
Qed.

(** A symbol is not taken for a word or for the end. *)
Lemma sym_kind s c ts : state_ok s (Sym c :: ts) -> (c =? ch_a) = false /\ (c =? 0) = false.
Proof.
  intros [Hs Hl]; rewrite (lex_eq m s0 es line_end) in Hl by done; cbv zeta in Hl.
  destruct (skip_space m es s =? es); [done|]; injection Hl as Hk _; unfold token_at in Hk; set (q := skip_space m es s) in *.
  assert (Hsym : is_symbol c = true); [|destruct (Z.eqb_spec c ch_a) as [->|]; [done|]; by destruct (Z.eqb_spec c 0) as [->|]].
  pose proof (is_symbol_eq (m q)) as He; destruct (is_single (m q)); [injection Hk as <-; done|].
  destruct (m q =? ch_gt); [|done]; destruct (m (q + 1) =? ch_gt); [done|]; injection Hk as <-; done.
Qed.

(** *** Redirections *)

Lemma redir_head (ts : list (tok (Z * Z))) :
  head_in (str "<>") ts = match ts with [] => false | k :: _ => match redir_of k with Some _ => true | None => false end end.
Proof.
  destruct ts as [|[c| |w] ts]; try done; cbn [head_in tok_in redir_of]; unfold strchr_in; vm_compute (str _); cbn [existsb].
  unfold ch_lt, ch_gt; destruct (Z.eqb_spec c 60); [done|]; by destruct (Z.eqb_spec c 62).
Qed.

(** The node made for a redirection token. *)
Lemma redir_choice k mode fd cmd q eq s st :
  redir_of (W := Z * Z) k = Some (mode, fd) ->
  (if kind k =? ch_lt then redircmd cmd q eq O_RDONLY 0
   else if kind k =? ch_gt then redircmd cmd q eq (Z.lor (Z.lor O_WRONLY O_CREATE) O_TRUNC) 1
   else if kind k =? ch_plus then redircmd cmd q eq (Z.lor O_WRONLY O_CREATE) 1
   else mret cmd) (Pst s st) = Ok (S (length st)) (Pst s (st ++ [Redircmd cmd q eq mode fd])).
Proof.
  destruct k as [c| |]; cbn [redir_of kind]; [|by intros [= <- <-]|done].
  destruct (c =? ch_lt); [by intros [= <- <-]|]; destruct (c =? ch_gt); [by intros [= <- <-]|done].
Qed.

Lemma parseredirs_sim : forall fuel cmd s ts st, state_ok s ts ->
  sim (parseredirs m es fuel cmd (Pst s st)) (predirs fuel ts)
    (fun p st' rs => exists new, st' = st ++ new /\ wraps st' cmd rs p).
Proof.
  induction fuel as [|f IH]; intros cmd s ts st Hs; [done|]; cbn [parseredirs predirs].
  destruct (peek_sim (str "<>") s ts st Hs) as (s1 & Hs1 & Hp).
  { intros c; apply sym_in; by repeat constructor. }
  rewrite (bind_ok _ _ _ _ _ Hp), redir_head; destruct ts as [|k ts].
  { exists cmd, s1, st; split; [done|]; split; [done|]; exists []; by rewrite app_nil_r. }
  destruct (redir_of k) as [[mode fd]|] eqn:Hk.
  2: { exists cmd, s1, st; split; [done|]; split; [done|]; exists []; by rewrite app_nil_r. }
  destruct (gettoken_sim s1 k ts st Hs1) as (s2 & q & eq & Hs2 & _ & Hg); rewrite (bind_ok _ _ _ _ _ Hg).
  destruct ts as [|k2 ts].
  { destruct Hs2 as [Hs2 Hl2]; destruct (gettoken_end m s0 es line_end s2 st Hs2 Hl2) as (s3 & q2 & eq2 & _ & _ & Hg2).
    rewrite (bind_ok _ _ _ _ _ Hg2); eexists; reflexivity. }
  destruct (gettoken_sim s2 k2 ts st Hs2) as (s3 & q2 & eq2 & Hs3 & Hw & Hg2); rewrite (bind_ok _ _ _ _ _ Hg2).
  destruct k2 as [c| |w].
  - cbn [kind]; rewrite (proj1 (sym_kind _ _ _ Hs2)); eexists; reflexivity.
  - eexists; reflexivity.
  - cbn [kind]; rewrite Z.eqb_refl; cbn [negb]; rewrite (bind_ok _ _ _ _ _ (redir_choice k mode fd cmd q2 eq2 s3 st Hk)).
    specialize (IH (S (length st)) s3 ts (st ++ [Redircmd cmd q2 eq2 mode fd]) Hs3).
    destruct (predirs f ts) as [[rs ts']| |]; cbn; [|exact IH|exact IH].
    destruct IH as (p & s4 & st4 & -> & Hs4 & new & -> & Hwr); exists p, s4; eexists; split; [done|]; split; [done|].
    exists (Redircmd cmd q2 eq2 mode fd :: new); rewrite (Hw w eq_refl); split; [by rewrite <- app_assoc|].
    exists (S (length st)); split; [|done]; rewrite <- app_assoc; apply get_node_new.
Qed.

(** *** Arguments *)

Lemma pad_zero l : (length l < 10)%nat -> <[length l := 0]> (pad l) = pad l.
Proof.
  intros Hl; apply list_insert_id; unfold pad; rewrite lookup_app_r, Nat.sub_diag by lia.
  apply lookup_replicate; change (Z.to_nat MAXARGS) with 10%nat; split; [done|lia].
Qed.
Lemma pad_snoc l q : (length l < 10)%nat -> <[length l := q]> (pad l) = pad (l ++ [q]).
Proof.
  intros Hl; unfold pad; change (Z.to_nat MAXARGS) with 10%nat; rewrite insert_app_r_alt, Nat.sub_diag by lia.
  rewrite length_app; cbn [length]; replace (10 - length l)%nat with (S (10 - (length l + 1))) by lia; cbn; by rewrite <- app_assoc.
Qed.

Lemma set_arg_run st i a s q eq :
  st !! i = Some (exec_node a) -> (length a < 10)%nat ->
  set_arg (S i) (Z.of_nat (length a)) q eq (Pst s st) = Ok tt (Pst s (<[i := exec_node (a ++ [(q, eq)])]> st)).
Proof.
  intros Hi Ha; unfold set_arg; cbn [ps nodes pred]; do 2 f_equal; apply list_eq; intros j.
  destruct (decide (i = j)) as [<-|Hne]; [|by rewrite list_lookup_alter_ne, list_lookup_insert_ne].
  rewrite list_lookup_alter_eq, Hi, list_lookup_insert_eq by (by eapply lookup_lt_Some); cbn [fmap option_fmap option_map exec_node].
  rewrite Nat2Z.id; unfold exec_node; rewrite !fmap_app; cbn [fmap list_fmap fst snd].
  by rewrite <- (pad_snoc (fst <$> a)), <- (pad_snoc (snd <$> a)), !length_fmap by (rewrite length_fmap; lia).
Qed.
Lemma end_args_run st i a s :
  st !! i = Some (exec_node a) -> (length a < 10)%nat -> set_arg (S i) (Z.of_nat (length a)) 0 0 (Pst s st) = Ok tt (Pst s st).
Proof.
  intros Hi Ha; unfold set_arg; cbn [ps nodes pred]; do 2 f_equal; apply list_eq; intros j.
  destruct (decide (i = j)) as [<-|Hne]; [|by rewrite list_lookup_alter_ne].
  rewrite list_lookup_alter_eq, Hi; cbn [fmap option_fmap option_map exec_node].
  rewrite Nat2Z.id; unfold exec_node.
  rewrite <- (length_fmap fst a) at 1; rewrite pad_zero by (rewrite length_fmap; lia).
  rewrite <- (length_fmap snd a) at 1; rewrite pad_zero by (rewrite length_fmap; lia); done.
Qed.

Lemma parseargs_sim : forall fuel i a ret s ts st,
  state_ok s ts -> st !! i = Some (exec_node a) -> (length a < 10)%nat ->
  sim (parseargs m es fuel (S i) (Z.of_nat (length a)) ret (Pst s st)) (pargs fuel (Z.of_nat (length a)) ts)
    (fun p st' '(args, rs) => exists new, st' = <[i := exec_node (a ++ args)]> st ++ new /\ wraps st' ret rs p).
Proof.
  induction fuel as [|f IH]; intros i a ret s ts st Hs Hi Ha; [done|]; cbn [parseargs pargs].
  destruct (peek_sim (str "|)&;") s ts st Hs) as (s1 & Hs1 & Hp).
  { intros c; apply sym_in; by repeat constructor. }
  rewrite (bind_ok _ _ _ _ _ Hp).
  assert (Hend : forall s2 ts2, state_ok s2 ts2 ->
    sim ((set_arg (S i) (Z.of_nat (length a)) 0 0;; mret ret) (Pst s2 st)) (TOk ([], [], ts2))
      (fun p st' '(args, rs) => exists new, st' = <[i := exec_node (a ++ args)]> st ++ new /\ wraps st' ret rs p)).
  { intros s2 ts2 Hs2; rewrite (bind_ok _ _ _ _ _ (end_args_run _ _ _ _ Hi Ha)); exists ret, s2, st; split; [done|]; split; [done|].
    exists []; rewrite !app_nil_r, list_insert_id by done; done. }
  destruct (head_in _ ts) eqn:Hh; [by apply Hend|]; destruct ts as [|k ts].
  { destruct Hs1 as [Hs1 Hl1]; destruct (gettoken_end m s0 es line_end s1 st Hs1 Hl1) as (s2 & q & eq & Hs2 & Hl2 & Hg).
    rewrite (bind_ok _ _ _ _ _ Hg); by apply Hend. }
  destruct (gettoken_sim s1 k ts st Hs1) as (s2 & q & eq & Hs2 & Hw & Hg); rewrite (bind_ok _ _ _ _ _ Hg); destruct k as [c| |w]; cbn [kind].
  - destruct (sym_kind _ _ _ Hs1) as [-> ->]; eexists; reflexivity.
  - eexists; reflexivity.
  - change (ch_a =? 0) with false; rewrite Z.eqb_refl; cbn [negb]; rewrite (Hw w eq_refl), (bind_ok _ _ _ _ _ (set_arg_run _ _ _ _ q eq Hi Ha)).
    destruct (Z.leb_spec MAXARGS (Z.of_nat (length a) + 1)) as [|Hlt]; [eexists; reflexivity|].
    set (st1 := <[i := exec_node (a ++ [(q, eq)])]> st); pose proof (lookup_lt_Some _ _ _ Hi) as Hil.
    pose proof (parseredirs_sim f ret s2 ts st1 Hs2) as Hr; destruct (predirs f ts) as [[rs ts2]| |] eqn:E; cbn in Hr |- *.
    2: { destruct Hr as [msg Hr]; exists msg; by apply bind_die. }
    2: { by apply bind_fuel. }
    destruct Hr as (p & s3 & st3 & Hr & Hs3 & new & -> & Hwr); rewrite (bind_ok _ _ _ _ _ Hr).
    assert (Hi3 : (st1 ++ new) !! i = Some (exec_node (a ++ [(q, eq)]))) by (apply lookup_app_l_Some, list_lookup_insert_eq, Hil).
    assert (Hlen : length (a ++ [(q, eq)]) = S (length a)) by (rewrite length_app; cbn; lia).
    specialize (IH i (a ++ [(q, eq)]) p s3 ts2 (st1 ++ new) Hs3 Hi3); rewrite Hlen in IH; specialize (IH ltac:(unfold MAXARGS in Hlt; lia)).
    replace (Z.of_nat (S (length a))) with (Z.of_nat (length a) + 1) in IH by lia.
    destruct (pargs f (Z.of_nat (length a) + 1) ts2) as [[[args rs2] ts3]| |]; cbn in IH |- *; [|exact IH|exact IH].
    destruct IH as (p4 & s4 & st4 & -> & Hs4 & new2 & -> & Hwr4); eexists p4, s4, _; split; [done|]; split; [done|].
    rewrite insert_app_l in Hwr4 |- * by (unfold st1; rewrite length_insert; done); unfold st1 in *; rewrite list_insert_insert_eq in *.
    rewrite <- !app_assoc in *; exists (new ++ new2); split; [done|]; apply (wraps_trans _ _ _ p); [|done].
    apply (wraps_exec _ i _ (a ++ [(q, eq)] ++ args) _ _ Hi3) in Hwr; rewrite insert_app_l, list_insert_insert_eq in Hwr by (rewrite length_insert; done).
    rewrite app_assoc; by apply wraps_app.
Qed.

(** *** Lines, pipes, blocks *)

Definition grows (st : list node) (p : nat) (st' : list node) (t : ptree) : Prop := exists new, st' = st ++ new /\ built st' p t.

Lemma parsebacks_sim : forall fuel cmd t s ts st, state_ok s ts -> built st cmd t ->
  sim (parsebacks m es fuel cmd (Pst s st)) (pbacks fuel t ts) (grows st).
Proof.
  induction fuel as [|f IH]; intros cmd t s ts st Hs Hb; [done|]; cbn [parsebacks pbacks].
  destruct (peek_sim (str "&") s ts st Hs) as (s1 & Hs1 & Hp); [intros c; apply sym_in; by repeat constructor|].
  rewrite (bind_ok _ _ _ _ _ Hp); destruct (head_in _ ts) eqn:Hh.
  2: { exists cmd, s1, st; split; [done|]; split; [done|]; exists []; by rewrite app_nil_r. }
  destruct ts as [|k ts]; [done|]; destruct (gettoken_sim s1 k ts st Hs1) as (s2 & q & eq & Hs2 & _ & Hg); rewrite (bind_ok _ _ _ _ _ Hg).
  specialize (IH (S (length st)) (TBack t) s2 ts (st ++ [Backcmd cmd]) Hs2).
  assert (Hb' : built (st ++ [Backcmd cmd]) (S (length st)) (TBack t)) by (exists cmd; split; [apply get_node_new|by apply built_app]).
  specialize (IH Hb'); rewrite (bind_ok _ _ _ _ _ (eq_refl (backcmd cmd (Pst s2 st)))); cbn [tail].
  destruct (pbacks f (TBack t) ts) as [[t' ts']| |]; cbn in IH |- *; [|exact IH|exact IH].
  destruct IH as (p & s3 & st3 & -> & Hs3 & new & -> & Hb3); eexists p, s3, _; split; [done|]; split; [done|].
  exists (Backcmd cmd :: new); by rewrite <- app_assoc in *.
Qed.

(** The second operand of a binary command, and the node for both. *)
Lemma operand_sim (run : P nat) (mk : nat -> nat -> node) (TB : ptree -> ptree -> ptree) x cmd t s st :
  (forall s' p, new_node (mk cmd p) s' = Ok (S (length (nodes s'))) (Pst (ps s') (nodes s' ++ [mk cmd p]))) ->
  (forall st p1 p2 l r p, get_node st p = Some (mk p1 p2) -> built st p1 l -> built st p2 r -> built st p (TB l r)) ->
  built st cmd t -> sim (run (Pst s st)) x (grows st) ->
  sim ((r ← run; new_node (mk cmd r)) (Pst s st)) ('(t2, ts) ← x; TOk (TB t t2, ts)) (grows st).
Proof.
  intros Hnew HT Hb Hx; destruct x as [[t2 ts]| |]; cbn in Hx |- *.
  - destruct Hx as (p & s' & st' & Hr & Hs & new & -> & Hb2); rewrite (bind_ok _ _ _ _ _ Hr), Hnew; cbn [ps nodes].
    eexists _, s', _; split; [done|]; split; [done|]; exists (new ++ [mk cmd p]); split; [by rewrite app_assoc|].
    apply (HT _ cmd p); [apply get_node_new|by do 2 apply built_app|by apply built_app].
  - destruct Hx as [msg Hx]; exists msg; by apply bind_die.
  - by apply bind_fuel.
Qed.

Lemma grows_trans st st1 new p t : st1 = st ++ new -> forall st2, grows st1 p st2 t -> grows st p st2 t.
Proof. intros -> st2 (new2 & -> & Hb); exists (new ++ new2); by rewrite app_assoc. Qed.
Lemma sim_weaken {A B} (r : pres A) (x : tres (B * list (tok (Z * Z)))) R R' :
  (forall a st b, R a st b -> R' a st b) -> sim r x R -> sim r x R'.
Proof. intros HR; destruct x as [[b ts]| |]; cbn; [|done|done]; intros (a & s & st & ? & ? & ?); eauto 10. Qed.

(** Running [x], then a continuation that starts from what it built. *)
Lemma bind_sim {B} (run : P nat) (k : nat -> P nat) x (g : ptree -> list (tok (Z * Z)) -> tres (B * list (tok (Z * Z)))) s st R :
  sim (run (Pst s st)) x (grows st) ->
  (forall p t s' ts new, state_ok s' ts -> built (st ++ new) p t -> sim (k p (Pst s' (st ++ new))) (g t ts) R) ->
  sim ((run ≫= k) (Pst s st)) (x ≫= (fun '(t, ts) => g t ts)) R.
Proof.
  intros Hx Hk; destruct x as [[t ts]| |]; cbn in Hx |- *.
  - destruct Hx as (p & s' & st' & Hr & Hs & new & -> & Hb); rewrite (bind_ok _ _ _ _ _ Hr); by apply (Hk p t s' ts new).
  - destruct Hx as [msg Hx]; exists msg; by apply bind_die.
  - by apply bind_fuel.
Qed.

Lemma grows_refl st new p t : built (st ++ new) p t -> grows st p (st ++ new) t.
Proof. intros Hb; by exists new. Qed.

(** An optional second operand: a symbol, then a command. *)
Lemma tail_sim c (run : P nat) (mk : nat -> nat -> node) (TB : ptree -> ptree -> ptree) x cmd t s ts st new :
  is_symbol c = true ->
  (forall st p1 p2 l r p, get_node st p = Some (mk p1 p2) -> built st p1 l -> built st p2 r -> built st p (TB l r)) ->
  state_ok s ts -> built (st ++ new) cmd t ->
  (forall s', state_ok s' (tail ts) -> sim (run (Pst s' (st ++ new))) x (grows (st ++ new))) ->
  sim ((more ← peek m es [c]; if more : bool then gettoken m es;; (r ← run; new_node (mk cmd r)) else mret cmd) (Pst s (st ++ new)))
    (if head_in [c] ts then '(t2, ts2) ← x; TOk (TB t t2, ts2) else TOk (t, ts)) (grows st).
Proof.
  intros Hc HT Hs Hb Hx; destruct (peek_sim [c] s ts (st ++ new) Hs) as (s1 & Hs1 & Hp); [intros d; apply sym_in; by repeat constructor|].
  rewrite (bind_ok _ _ _ _ _ Hp); destruct (head_in _ ts) eqn:Hh.
  - destruct ts as [|k ts]; [done|]; destruct (gettoken_sim s1 k ts (st ++ new) Hs1) as (s2 & q & eq & Hs2 & _ & Hg).
    rewrite (bind_ok _ _ _ _ _ Hg); apply (sim_weaken _ _ (grows (st ++ new))); [intros a st2 b; by apply (grows_trans st _ new)|].
    by apply (operand_sim run mk TB); [|exact HT| |apply Hx].
  - eexists cmd, s1, _; split; [done|]; split; [done|]; by apply grows_refl.
Qed.

(** Redirections around a command that is built. *)
Lemma redirs_sim f cmd t s ts st new :
  state_ok s ts -> built (st ++ new) cmd t ->
  sim (parseredirs m es f cmd (Pst s (st ++ new))) ('(rs, ts2) ← predirs f ts; TOk (wrap t rs, ts2)) (grows st).
Proof.
  intros Hs Hb; pose proof (parseredirs_sim f cmd s ts (st ++ new) Hs) as Hr.
  destruct (predirs f ts) as [[rs ts2]| |]; cbn in Hr |- *; [|exact Hr|exact Hr].
  destruct Hr as (p & s2 & st2 & -> & Hs2 & new2 & -> & Hw); eexists p, s2, _; split; [done|]; split; [done|].
  exists (new ++ new2); split; [by rewrite app_assoc|]; apply (wraps_built _ _ _ cmd); [by apply built_app|done].
Qed.

Lemma simple_sim f s ts st :
  state_ok s ts ->
  sim ((ret ← execcmd; let cmd := ret in ret ← parseredirs m es f ret; parseargs m es f cmd 0 ret) (Pst s st))
    ('(rs, ts1) ← predirs f ts; '(args, rs2, ts2) ← pargs f 0 ts1; TOk (wrap (TExec args) (rs ++ rs2), ts2)) (grows st).
Proof.
  intros Hs; rewrite (bind_ok _ _ _ _ _ (eq_refl (execcmd (Pst s st)))); cbv zeta; cbn [ps nodes].
  change (Execcmd (replicate (Z.to_nat MAXARGS) 0) (replicate (Z.to_nat MAXARGS) 0)) with (exec_node []).
  pose proof (parseredirs_sim f (S (length st)) s ts (st ++ [exec_node []]) Hs) as Hr; destruct (predirs f ts) as [[rs ts1]| |]; cbn in Hr.
  2: { destruct Hr as [msg Hr]; exists msg; by apply bind_die. }
  2: { by apply bind_fuel. }
  destruct Hr as (p & s1 & st1 & Hr & Hs1 & new & -> & Hw); rewrite (bind_ok _ _ _ _ _ Hr).
  assert (Hi : ((st ++ [exec_node []]) ++ new) !! length st = Some (exec_node [])) by (rewrite <- app_assoc; by apply list_lookup_middle).
  pose proof (parseargs_sim f (length st) [] p s1 ts1 _ Hs1 Hi ltac:(cbn; lia)) as Ha; cbn [length] in Ha; change (Z.of_nat 0) with 0 in Ha.
  cbn [mbind tres_bind]; destruct (pargs f 0 ts1) as [[[args rs2] ts2]| |]; cbn in Ha |- *; [|exact Ha|exact Ha].
  destruct Ha as (p2 & s2 & st2 & -> & Hs2 & new2 & -> & Hw2); eexists p2, s2, _; split; [done|]; split; [done|].
  apply (wraps_exec _ _ _ args _ _ Hi) in Hw; set (st2 := <[length st := exec_node args]> _) in *.
  assert (He : st2 = st ++ exec_node args :: new).
  { unfold st2; rewrite <- app_assoc; rewrite insert_app_r_alt, Nat.sub_diag by lia; done. }
  exists (exec_node args :: new ++ new2); split; [by rewrite He, <- app_assoc|].
  apply (wraps_built _ _ _ (S (length st))); [|apply (wraps_trans _ _ _ p); [by apply wraps_app|done]].
  apply built_app; rewrite He; apply get_node_new.
Qed.

Lemma parse_sim : forall fuel s ts st, state_ok s ts ->
  sim (parseline m es fuel (Pst s st)) (pline fuel ts) (grows st) /\
  sim (parsepipe m es fuel (Pst s st)) (ppipe fuel ts) (grows st) /\
  sim (parseexec m es fuel (Pst s st)) (pexec fuel ts) (grows st) /\
  sim (parseblock m es fuel (Pst s st)) (pblock fuel ts) (grows st).
Proof.
  induction fuel as [|f IH]; intros s ts st Hs; [done|]; split_and!;
    [cbn [parseline pline]|cbn [parsepipe ppipe]|cbn [parseexec pexec]|cbn [parseblock pblock]].
  - apply bind_sim; [by apply IH|]; intros p t s1 ts1 new Hs1 Hb1.
    apply (bind_sim (parsebacks m es f p) _ (pbacks f t ts1)
      (fun t ts2 => if head_in (str ";") ts2 then '(t2, ts3) ← pline f (tail ts2); TOk (TList t t2, ts3) else TOk (t, ts2)));
      [by apply parsebacks_sim|].
    intros p2 t2 s2 ts2 new2 Hs2 Hb2; rewrite <- app_assoc in *.
    apply (tail_sim ch_semi _ Listcmd TList); [done|intros; do 2 eexists; eauto|done|done|intros; by apply IH].
  - apply bind_sim; [by apply IH|]; intros p t s1 ts1 new Hs1 Hb1.
    apply (tail_sim ch_pipe _ Pipecmd TPipe); [done|intros; do 2 eexists; eauto|done|done|intros; by apply IH].
  - destruct (peek_sim (str "(") s ts st Hs) as (s1 & Hs1 & Hp); [intros c; apply sym_in; by repeat constructor|].
    rewrite (bind_ok _ _ _ _ _ Hp); destruct (head_in _ ts); [by apply IH|by apply simple_sim].
  - destruct (peek_sim (str "(") s ts st Hs) as (s1 & Hs1 & Hp); [intros c; apply sym_in; by repeat constructor|].
    rewrite (bind_ok _ _ _ _ _ Hp); destruct (head_in _ ts) eqn:Hh; cbn [negb]; [|eexists; reflexivity].
    destruct ts as [|k ts]; [done|]; destruct (gettoken_sim s1 k ts st Hs1) as (s2 & q & eq & Hs2 & _ & Hg); rewrite (bind_ok _ _ _ _ _ Hg).
    cbn [tail]; apply bind_sim; [by apply IH|]; intros p t s3 ts3 new Hs3 Hb3.
    destruct (peek_sim (str ")") s3 ts3 (st ++ new) Hs3) as (s4 & Hs4 & Hp2); [intros c; apply sym_in; by repeat constructor|].
    rewrite (bind_ok _ _ _ _ _ Hp2); destruct (head_in _ ts3) eqn:Hh3; cbn [negb]; [|eexists; reflexivity].
    destruct ts3 as [|k3 ts3]; [done|]; destruct (gettoken_sim s4 k3 ts3 (st ++ new) Hs4) as (s5 & q5 & eq5 & Hs5 & _ & Hg5).
    rewrite (bind_ok _ _ _ _ _ Hg5); by apply redirs_sim.
Qed.
End simulation.

(** ** What a derivation says of its tree *)

Fixpoint height {W} (t : tree W) : nat :=
  match t with
  | TExec _ => 1
  | TRedir c _ _ _ | TBack c => S (height c)
  | TPipe l r | TList l r => S (Nat.max (height l) (height r))
  end.
(** Few enough arguments, and redirections of descriptors 0 and 1 only. *)
Fixpoint args_ok {W} (t : tree W) : Prop :=
  match t with
  | TExec args => Z.of_nat (length args) < MAXARGS
  | TRedir c _ _ fd => (fd = 0 \/ fd = 1) /\ args_ok c
  | TBack c => args_ok c
  | TPipe l r | TList l r => args_ok l /\ args_ok r
  end.

Section derivations.
Context {W : Type}.
Implicit Types (ts : list (tok W)) (t : tree W).

(** The size of a tree is bounded by its tokens, and its words are theirs. *)
Definition small ts t : Prop := (height t <= S (length ts))%nat /\ args_ok t /\ (forall w, w ∈ tree_words t -> w ∈ words ts).

Lemma words_app (l1 l2 : list (tok W)) : words (l1 ++ l2) = words l1 ++ words l2.
Proof. apply omap_app. Qed.

Lemma wrap_facts (rs : list (redir W)) : forall t,
  height (wrap t rs) = (length rs + height t)%nat /\ (args_ok t -> Forall (fun r => r.2 = 0 \/ r.2 = 1) rs -> args_ok (wrap t rs)) /\
  (forall w, w ∈ tree_words (wrap t rs) -> w ∈ tree_words t \/ exists r, r ∈ rs /\ r.1.1 = w).
Proof.
  induction rs as [|r rs IH]; intros t; cbn [wrap foldl]; [split_and!; [done|done|by left]|].
  destruct (IH (TRedir t r.1.1 r.1.2 r.2)) as (H1 & H2 & H3); unfold wrap in *; split_and!; [rewrite H1; cbn; lia| |].
  { intros Ha [Hr Hrs]%Forall_cons; by apply H2. }
  intros w [Hw|(r' & ? & ?)]%H3; [|right; exists r'; split; [by right|done]]; cbn in Hw; rewrite elem_of_app, list_elem_of_singleton in Hw.
  destruct Hw as [| ->]; [by left|right; exists r; split; [left|done]].
Qed.
Lemma iter_facts n t :
  height (Nat.iter n TBack t) = (n + height t)%nat /\ (args_ok t -> args_ok (Nat.iter n TBack t)) /\
  tree_words (Nat.iter n TBack t) = tree_words t.
Proof.
  induction n as [|n (IH1 & IH2 & IH3)]; [done|]; change (Nat.iter (S n) TBack t) with (TBack (Nat.iter n TBack t)).
  cbn [height args_ok tree_words]; split_and!; [lia|done|done].
Qed.

Lemma redir_fd (k : tok W) mode fd : redir_of k = Some (mode, fd) -> fd = 0 \/ fd = 1.
Proof.
  destruct k as [c| |]; cbn [redir_of]; [|intros [= _ <-]; by right|done].
  destruct (c =? ch_lt); [intros [= _ <-]; by left|]; destruct (c =? ch_gt); [intros [= _ <-]; by right|done].
Qed.
Lemma redirs_small ts rs : Redirs ts rs ->
  (2 * length rs <= length ts)%nat /\ (forall r, r ∈ rs -> r.1.1 ∈ words ts) /\ Forall (fun r => r.2 = 0 \/ r.2 = 1) rs.
Proof.
  induction 1 as [|k mode fd w ts rs Hk _ (IH1 & IH2 & IH3)]; cbn [length]; [split_and!; [lia|set_solver|constructor]|].
  split_and!; [lia| |constructor; [by eapply redir_fd|done]].
  intros r [->|Hr%IH2]%elem_of_cons; destruct k; cbn; set_solver.
Qed.
Lemma simple_small ts args rs : Simple ts args rs ->
  (2 * length rs <= length ts)%nat /\ (forall r, r ∈ rs -> r.1.1 ∈ words ts) /\ (forall w, w ∈ args -> w ∈ words ts) /\
  Forall (fun r => r.2 = 0 \/ r.2 = 1) rs.
Proof.
  induction 1 as [|w ts args rs _ (IH1 & IH2 & IH3 & IH4)|k mode fd w ts args rs Hk _ (IH1 & IH2 & IH3 & IH4)]; cbn [length].
  - split_and!; [lia|set_solver|set_solver|constructor].
  - split_and!; [lia|cbn; set_solver|cbn; set_solver|done].
  - split_and!; [lia| | |constructor; [by eapply redir_fd|done]].
    + intros r [->|Hr%IH2]%elem_of_cons; destruct k; cbn; set_solver.
    + intros v Hv%IH3; destruct k; cbn; set_solver.
Qed.

Lemma backs_small n ts t : small ts t -> small (ts ++ replicate n (Sym ch_amp)) (Nat.iter n TBack t).
Proof.
  intros (Hh & Ha & Hw); destruct (iter_facts n t) as (H1 & H2 & H3); split_and!; [rewrite H1, length_app, length_replicate; lia|by apply H2|].
  intros w; rewrite H3, words_app; intros ?%Hw; apply elem_of_app; by left.
Qed.

Lemma both_small ts t ts2 t2 k T :
  height T = S (Nat.max (height t) (height t2)) -> args_ok T = (args_ok t /\ args_ok t2) ->
  tree_words T = tree_words t ++ tree_words t2 -> small ts t -> small ts2 t2 -> small (ts ++ Sym k :: ts2) T.
Proof.
  intros Hh Ha Hw (Hh1 & Ha1 & Hw1) (Hh2 & Ha2 & Hw2); split_and!.
  - rewrite Hh, length_app; cbn [length]; lia.
  - by rewrite Ha.
  - intros w; rewrite Hw, words_app; cbn; rewrite !elem_of_app; intros [?%Hw1|?%Hw2]; auto.
Qed.

Lemma derived_small :
  (forall ts t, Line ts t -> small ts t) /\ (forall ts t, Pipe ts t -> small ts t) /\ (forall ts t, Exec ts t -> small ts t).
Proof.
  apply grammar_ind.
  - intros ts n t _ IH; by apply backs_small.
  - intros ts n t ts2 t2 _ IH _ IH2; rewrite app_assoc; by apply (both_small _ (Nat.iter n TBack t) _ t2); [| | |apply backs_small|].
  - done.
  - intros ts t ts2 t2 _ IH _ IH2; by apply (both_small _ t _ t2).
  - intros ts args rs (H1 & H2 & H3 & H4)%simple_small Hn; destruct (wrap_facts rs (TExec args)) as (W1 & W2 & W3); split_and!.
    + rewrite W1; cbn; lia.
    + by apply W2.
    + intros w [?%H3|(r & ?%H2 & <-)]%W3; done.
  - intros ts t ts2 rs _ (Hh & Ha & Hw) (H1 & H2 & H3)%redirs_small; destruct (wrap_facts rs t) as (W1 & W2 & W3); split_and!.
    + rewrite W1; cbn [length]; rewrite length_app; cbn [length]; lia.
    + by apply W2.
    + intros w Hin; change (w ∈ words (ts ++ Sym ch_rpar :: ts2)); rewrite words_app; apply elem_of_app.
      apply W3 in Hin as [?%Hw|(r & ?%H2 & <-)]; auto.
Qed.
End derivations.

(** ** Cutting the words *)

(** The end of every word becomes a NUL, and nothing else changes. *)
Definition cut (m : mem) (ends : list Z) (m' : mem) : Prop := forall a, m' a = if bool_decide (a ∈ ends) then 0 else m a.

Lemma cut_app m m1 m2 l1 l2 : cut m l1 m1 -> cut m1 l2 m2 -> cut m (l1 ++ l2) m2.
Proof.
  intros H1 H2 a; rewrite H2, H1; destruct (bool_decide_reflect (a ∈ l2)) as [Hi|Hi], (bool_decide_reflect (a ∈ l1)) as [Hj|Hj];
    destruct (bool_decide_reflect (a ∈ l1 ++ l2)) as [Hk|Hk]; try done; exfalso; apply Hk || rewrite elem_of_app in Hk; set_solver.
Qed.
Lemma cut_store m e : cut m [e] (store1 m e 0).
Proof.
  intros a; unfold store1; rewrite (bool_decide_ext (a ∈ [e]) (a = e)) by apply list_elem_of_singleton.
  destruct (Z.eqb_spec a e); [by rewrite bool_decide_true|by rewrite bool_decide_false].
Qed.

Lemma nul_args_spec zs : forall args m, (1 <= zs)%nat -> Forall (fun w => w.1 <> 0) args ->
  exists m', nul_args ((fst <$> args) ++ replicate zs 0) ((snd <$> args) ++ replicate zs 0) m = Some m' /\ cut m (snd <$> args) m'.
Proof.
  induction args as [|w args IH]; intros m Hz Hw; cbn [fmap list_fmap app nul_args].
  - destruct zs; [lia|]; exists m; split; [done|]; intros a; done.
  - apply Forall_cons in Hw as [Hw0 Hw]; rewrite (proj2 (Z.eqb_neq _ _) Hw0).
    destruct (IH (store1 m w.2 0) Hz Hw) as (m' & -> & Hc); exists m'; split; [done|].
    apply (cut_app _ (store1 m w.2 0) _ [w.2]); [apply cut_store|done].
Qed.

Lemma nulterminate_spec st : forall fuel t p m,
  built st p t -> (height t <= fuel)%nat -> args_ok t -> Forall (fun w => w.1 <> 0) (tree_words t) ->
  exists m', nulterminate fuel st p m = Some m' /\ cut m (snd <$> tree_words t) m'.
Proof.
  induction fuel as [|f IH]; intros t p m Hb Hh Ha Hw; [destruct t; cbn in Hh; lia|].
  destruct t as [args|c w mode fd|l r|l r|c]; cbn [built height args_ok tree_words nulterminate] in *.
  - destruct p as [|i]; [done|]; cbn in Hb; rewrite Hb; unfold exec_node, pad; rewrite !length_fmap.
    apply nul_args_spec; [|done]; unfold MAXARGS in *; lia.
  - destruct Hb as (p' & Hn & Hb); destruct p as [|i]; [done|]; cbn in Hn; rewrite Hn; apply Forall_app in Hw as [Hw _].
    destruct (IH c p' m Hb ltac:(lia) (proj2 Ha) Hw) as (m1 & -> & Hc); eexists; split; [done|]; rewrite fmap_app.
    apply (cut_app _ m1); [done|apply cut_store].
  - destruct Hb as (p1 & p2 & Hn & Hb1 & Hb2); destruct p as [|i]; [done|]; cbn in Hn; rewrite Hn; apply Forall_app in Hw as [Hw1 Hw2].
    destruct (IH l p1 m Hb1 ltac:(lia) (proj1 Ha) Hw1) as (m1 & -> & Hc1).
    destruct (IH r p2 m1 Hb2 ltac:(lia) (proj2 Ha) Hw2) as (m2 & -> & Hc2); exists m2; split; [done|]; rewrite fmap_app; by apply (cut_app _ m1).
  - destruct Hb as (p1 & p2 & Hn & Hb1 & Hb2); destruct p as [|i]; [done|]; cbn in Hn; rewrite Hn; apply Forall_app in Hw as [Hw1 Hw2].
    destruct (IH l p1 m Hb1 ltac:(lia) (proj1 Ha) Hw1) as (m1 & -> & Hc1).
    destruct (IH r p2 m1 Hb2 ltac:(lia) (proj2 Ha) Hw2) as (m2 & -> & Hc2); exists m2; split; [done|]; rewrite fmap_app; by apply (cut_app _ m1).
  - destruct Hb as (p' & Hn & Hb); destruct p as [|i]; [done|]; cbn in Hn; rewrite Hn; apply IH; [done|lia|done|done].
Qed.

(** The tree of texts in memory: every word is a string, and the array of
    arguments ends with a null pointer. *)
Definition string_at (m : mem) (q : Z) (w : list Z) : Prop := q <> 0 /\ cstr m q (S (length w)) = w.
Fixpoint shows (m : mem) (st : list node) (p : nat) (t : tree (list Z)) : Prop :=
  match t with
  | TExec args => exists qs zs eargv, get_node st p = Some (Execcmd (qs ++ 0 :: zs) eargv) /\ Forall2 (string_at m) qs args
  | TRedir c w mode fd => exists p' q eq, get_node st p = Some (Redircmd p' q eq mode fd) /\ string_at m q w /\ shows m st p' c
  | TPipe l r => exists p1 p2, get_node st p = Some (Pipecmd p1 p2) /\ shows m st p1 l /\ shows m st p2 r
  | TList l r => exists p1 p2, get_node st p = Some (Listcmd p1 p2) /\ shows m st p1 l /\ shows m st p2 r
  | TBack c => exists p', get_node st p = Some (Backcmd p') /\ shows m st p' c
  end.

Lemma built_shows m m' st t : forall p,
  built st p t -> args_ok t -> (forall w, w ∈ tree_words t -> string_at m' w.1 (slice m w)) -> shows m' st p (tree_map (slice m) t).
Proof.
  induction t as [args|c IH w mode fd|l IHl r IHr|l IHl r IHr|c IH]; intros p Hb Ha Hw; cbn [built shows tree_map tree_words args_ok] in *.
  - eexists (fst <$> args), _, _; split; [|by apply Forall2_fmap_2, Forall_Forall2_diag, Forall_forall].
    rewrite Hb; unfold exec_node, pad; rewrite length_fmap; unfold MAXARGS in *.
    replace (Z.to_nat 10 - length args)%nat with (S (Z.to_nat 10 - length args - 1)) by lia; reflexivity.
  - destruct Hb as (p' & ? & ?); exists p', w.1, w.2; split_and!; [done|apply Hw; set_solver|]; apply IH; [done|apply Ha|]; intros v Hv; apply Hw; set_solver.
  - destruct Hb as (p1 & p2 & ? & ? & ?), Ha; exists p1, p2; split_and!; [done|apply IHl|apply IHr]; try done; intros v Hv; apply Hw; set_solver.
  - destruct Hb as (p1 & p2 & ? & ? & ?), Ha; exists p1, p2; split_and!; [done|apply IHl|apply IHr]; try done; intros v Hv; apply Hw; set_solver.
  - destruct Hb as (p' & ? & ?); exists p'; split; [done|by apply IH].
Qed.

(** Strings in memory, cell by cell. *)
Lemma cstr_elim (l : list Z) m : forall a, cstr m a (S (length l)) = l ->
  (forall x, a <= x < a + Z.of_nat (length l) -> m x <> 0) /\ m (a + Z.of_nat (length l)) = 0 /\
  slice m (a, a + Z.of_nat (length l)) = l.
Proof.
  induction l as [|c l IH]; intros a H; rewrite cstr_S in H; destruct (Z.eqb_spec (m a) 0) as [E|E]; try done.
  - cbn [length]; rewrite Z.add_0_r; split_and!; [intros; lia|done|apply slice_nil].
  - injection H as <- H; destruct (IH (a + 1) H) as (H1 & H2 & H3); cbn [length].
    replace (a + Z.of_nat (S (length l))) with (a + 1 + Z.of_nat (length l)) by lia; split_and!; [|done|].
    + intros x Hx; destruct (decide (x = a)) as [->|]; [done|apply H1; lia].
    + rewrite slice_cons by lia; by rewrite H3.
Qed.

(** The test the parser makes with strchr on its constant strings. *)
Lemma strchr_in_ok m c l : forall a, 0 < a -> cstr m a (S (length l)) = l ->
  exists r, Ulib.strchr (S (length l)) m a c = Some r /\ (r <> 0 <-> strchr_in l c = true).
Proof.
  induction l as [|d l IH]; intros a Ha H; rewrite cstr_S in H; cbn [Ulib.strchr]; destruct (Z.eqb_spec (m a) 0) as [E|E]; try done.
  - exists 0; split; [done|]; split; done.
  - injection H as <- H; cbn [length strchr_in existsb]; destruct (Z.eqb_spec (m a) c) as [->|Hne].
    + exists a; split; [done|]; rewrite Z.eqb_refl; split; [done|lia].
    + destruct (IH (a + 1) ltac:(lia) H) as (r & Hr & Hi); exists r; split; [exact Hr|].
      rewrite (proj2 (Z.eqb_neq c (m a))) by done; exact Hi.
Qed.

Lemma sorted_total {A} (R : A -> A -> Prop) l v w : StronglySorted R l -> v ∈ l -> w ∈ l -> v = w \/ R v w \/ R w v.
Proof.
  induction 1 as [|x l _ IH Hf]; [set_solver|]; rewrite Forall_forall in Hf.
  intros [->|Hv]%elem_of_cons [->|Hw]%elem_of_cons; auto.
Qed.

(** Cutting the words of the line makes each of them a string. *)
Lemma cut_string m m' s es ws ends w :
  0 < s -> (forall a, s <= a < es -> m a <> 0) -> Forall (word_at m es s) ws -> StronglySorted (fun v w => v.2 < w.1) ws ->
  cut m ends m' -> (forall e, e ∈ ends -> exists v, v ∈ ws /\ v.2 = e) -> w ∈ ws -> w.2 ∈ ends ->
  string_at m' w.1 (slice m w).
Proof.
  intros Hs Hnz Hws Hsort Hcut Hends Hw He; rewrite Forall_forall in Hws; destruct (Hws w Hw) as ((Hw1 & Hw2) & Hw3 & _).
  assert (Hin : forall x, w.1 <= x < w.2 -> m' x = m x).
  { intros x Hx; rewrite Hcut, bool_decide_false; [done|]; intros (v & Hv & <-)%Hends; destruct (Hws v Hv) as ((? & ?) & _).
    destruct (sorted_total _ _ v w Hsort Hv Hw) as [->|[Hlt|Hlt]]; lia. }
  assert (Hlen : length (slice m w) = Z.to_nat (w.2 - w.1)) by apply length_load_bytes.
  split; [lia|]; apply cstr_intro; rewrite ?Hlen.
  - lia.
  - destruct w as [q e]; apply slice_forall; cbn in *; [lia|]; intros; apply Hnz; lia.
  - intros i Hi; rewrite Hin by lia; unfold slice, load_bytes; rewrite list_lookup_fmap, lookup_seq_lt by lia; done.
  - intros _; replace (w.1 + Z.of_nat (Z.to_nat (w.2 - w.1))) with w.2 by lia; rewrite Hcut; by rewrite bool_decide_true.
Qed.

Lemma lexes_length l ts : lexes l ts -> (length ts <= length l)%nat.
Proof.
  induction 1 as [| | | |w l ts Hw]; cbn [length]; try lia; rewrite length_app; destruct w; [done|cbn; lia].
Qed.

(** [peek(&s, es, "")] at the end of the parse. *)
Lemma final_peek m s0 es s ts st : m es = 0 -> (forall a, s0 <= a < es -> m a <> 0) -> state_ok m s0 es s ts ->
  exists s', s0 <= s' <= es /\ peek m es [] (Pst s st) = Ok false (Pst s' st) /\ (s' = es <-> ts = []).
Proof.
  intros He Hc [Hs Hl]; rewrite (lex_eq m s0 es He) in Hl by done; cbv zeta in Hl.
  destruct (skip_space_spec m es s ltac:(lia)) as (H1 & _); exists (skip_space m es s); split; [lia|]; split.
  - unfold peek, mbind, P_bind, get_ps, set_ps, mret, P_ret; cbn; by rewrite andb_false_r.
  - destruct (Z.eqb_spec (skip_space m es s) es); [split; congruence|subst ts; done].
Qed.

(** The parser on tokens in memory decides the grammar on their texts. *)
Lemma pline_text {V W} (f : V -> W) fuel (pts : list (tok V)) :
  (4 * length pts + 4 <= fuel)%nat ->
  (exists t, pline fuel pts = TOk (t, []) /\ Line pts t /\ Line (tok_map f <$> pts) (tree_map f t)) \/
  ((forall t, ~ Line (tok_map f <$> pts) t) /\ (pline fuel pts = TErr \/ exists t k r, pline fuel pts = TOk (t, k :: r))).
Proof.
  intros Hf; destruct (parser_map f fuel pts) as (Hm & _).
  destruct (pline_decides fuel (tok_map f <$> pts)) as [(t & E & Hl)|[Hno E]]; [by rewrite length_fmap| |].
  - left; rewrite Hm in E; destruct (pline fuel pts) as [[t' [|k r]]| |] eqn:Ep; cbn in E; try done; injection E as <-.
    exists t'; split_and!; [done| |done]; destruct (parser_sound fuel pts) as (Hs & _).
    apply Hs in Ep as (ts1 & -> & Hl'); by rewrite app_nil_r.
  - right; split; [done|]; rewrite Hm in E; destruct (pline fuel pts) as [[t' [|k r]]| |] eqn:Ep; cbn in E.
    + destruct E as [E|(t & k & r & E)]; done.
    + right; eauto.
    + by left.
    + destruct E as [E|(t & k & r & E)]; done.
Qed.

(** A run of the parser that reaches the end of the line. *)
Lemma parsecmd_ok m s fuel n t :
  KString.strlen fuel m s = Some n -> 0 <= n -> let es := s + n in
  0 < s -> m es = 0 -> (forall a, s <= a < es -> m a <> 0) ->
  pline fuel (lex m es s) = TOk (t, []) -> Line (lex m es s) t -> (S (length (lex m es s)) <= fuel)%nat ->
  exists p m' st, parsecmd fuel m s = Some (Parsed p m' st) /\ shows m' st p (tree_map (slice m) t).
Proof.
  intros Hlen Hn es Hs He Hc Hp Hl Hf; unfold parsecmd; rewrite Hlen; fold es; pose proof (proj1 derived_small _ _ Hl) as (Hh & Ha & Hw).
  destruct (parse_sim m s es He Hc fuel s (lex m es s) [] ltac:(split; [unfold es; lia|done])) as (Hsim & _); rewrite Hp in Hsim.
  destruct Hsim as (p & s1 & st1 & Hr & Hs1 & new & -> & Hb); cbn [app] in *.
  destruct (final_peek m s es s1 [] new He Hc Hs1) as (s2 & _ & Hpk & Heq); rewrite (bind_ok _ _ _ _ _ Hr), (bind_ok _ _ _ _ _ Hpk).
  unfold mret, P_ret; cbn [ps nodes]; rewrite (proj2 Heq eq_refl), Z.eqb_refl; cbn [negb].
  destruct (lex_words m s es He s ltac:(unfold es; lia)) as [Hws Hsort]; pose proof Hws as Hws'; rewrite Forall_forall in Hws'.
  destruct (nulterminate_spec new fuel t p m Hb ltac:(lia) Ha) as (m' & -> & Hcut).
  { apply Forall_forall; intros w ?%Hw%Hws'; destruct H as ((? & ?) & _); lia. }
  exists p, m', new; split; [done|]; apply built_shows; [done|done|]; intros w Hin.
  apply (cut_string m m' s es _ _ w Hs Hc Hws Hsort Hcut); [|by apply Hw|by apply list_elem_of_fmap_2].
  intros e (v & -> & Hv)%list_elem_of_fmap; exists v; split; [by apply Hw|done].
Qed.

(** A run that panics, or leaves something over. *)
Lemma parsecmd_fails m s fuel n :
  KString.strlen fuel m s = Some n -> 0 <= n -> let es := s + n in
  m es = 0 -> (forall a, s <= a < es -> m a <> 0) ->
  pline fuel (lex m es s) = TErr \/ (exists t k r, pline fuel (lex m es s) = TOk (t, k :: r)) ->
  exists msg, parsecmd fuel m s = Some (Failed msg).
Proof.
  intros Hlen Hn es He Hc Hp; unfold parsecmd; rewrite Hlen; fold es.
  destruct (parse_sim m s es He Hc fuel s (lex m es s) [] ltac:(split; [unfold es; lia|done])) as (Hsim & _).
  destruct Hp as [Hp|(t & k & r & Hp)]; rewrite Hp in Hsim.
  - destruct Hsim as [msg Hr]; exists msg; by rewrite (bind_die _ _ _ _ Hr).
  - destruct Hsim as (p & s1 & st1 & Hr & Hs1 & _); destruct (final_peek m s es s1 _ st1 He Hc Hs1) as (s2 & _ & Hpk & Heq).
    rewrite (bind_ok _ _ _ _ _ Hr), (bind_ok _ _ _ _ _ Hpk); unfold mret, P_ret; cbn [ps nodes].
    rewrite (proj2 (Z.eqb_neq s2 es)) by (intros H%Heq; done); eexists; done.
Qed.

(** Both cases together. *)
Lemma parsecmd_decides (m : mem) (s : Z) (text : list Z) (ts : list (tok (list Z))) (fuel : nat) :
  0 < s -> cstr m s (S (length text)) = text -> lexes text ts -> (4 * length text + 5 <= fuel)%nat ->
  (exists t p m' st, parsecmd fuel m s = Some (Parsed p m' st) /\ Line ts t /\ shows m' st p t) \/
  (exists msg, parsecmd fuel m s = Some (Failed msg) /\ forall t, ~ Line ts t).
Proof.
  intros Hs Hstr Hlex Hf; destruct (cstr_elim _ _ _ Hstr) as (Hnz & Hend & Hsl); set (es := s + Z.of_nat (length text)) in *.
  assert (Hpos : state_ok m s es s (lex m es s)) by (split; [unfold es; lia|done]).
  pose proof (lex_lexes m s es Hend s ltac:(unfold es; lia)) as Hlex'; rewrite Hsl in Hlex'.
  pose proof (lexes_det _ _ _ _ (le_n _) Hlex Hlex') as ->; pose proof (lexes_length _ _ Hlex) as Hlt; rewrite length_fmap in Hlt.
  assert (Hlen : KString.strlen fuel m s = Some (Z.of_nat (length text))).
  { unfold KString.strlen; rewrite strlen_loop_spec, Z.add_0_r, (cstr_intro text); [|lia|..].
    - cbv zeta; by rewrite decide_True by lia.
    - rewrite <- Hsl; apply slice_forall; [unfold es; lia|exact Hnz].
    - intros i Hi; rewrite <- Hsl; unfold slice, load_bytes; cbn [fst snd]; rewrite list_lookup_fmap, lookup_seq_lt by (unfold es; lia); done.
    - intros _; exact Hend. }
  destruct (pline_text (slice m) fuel (lex m es s) ltac:(lia)) as [(t & Hp & Hl & Hlt')|[Hno Hp]].
  - assert (Hb : (S (length (lex m es s)) <= fuel)%nat) by lia.
    left; destruct (parsecmd_ok m s fuel _ t Hlen ltac:(lia) Hs Hend Hnz Hp Hl Hb) as (p & m' & st & Hrun & Hsh).
    exists (tree_map (slice m) t), p, m', st; done.
  - right; destruct (parsecmd_fails m s fuel _ Hlen ltac:(lia) Hend Hnz Hp) as [msg Hrun]; by exists msg.
Qed.

(** C16: for every line of text, with any use of blanks, parsecmd builds the
    tree the grammar gives to its tokens, with every word a NUL-terminated
    string of its own, or panics when the grammar gives none. *)
Theorem parse_correct (m : mem) (s : Z) (text : list Z) (ts : list (tok (list Z))) (fuel : nat) :
  0 < s -> cstr m s (S (length text)) = text -> lexes text ts -> (4 * length text + 5 <= fuel)%nat ->
  (exists t p m' st, parsecmd fuel m s = Some (Parsed p m' st) /\ Line ts t /\ shows m' st p t) \/
  (exists msg, parsecmd fuel m s = Some (Failed msg) /\ forall t, ~ Line ts t).
Proof. apply parsecmd_decides. Qed.

(** ** An example *)

(** The line [ls>f&]. *)
Definition demo_line : list Z := Eval vm_compute in str "ls>f&".
Definition demo_mem : mem := store_bytes (fun _ => 0) 4096 demo_line.
Definition demo_tokens : list (tok (list Z)) := [Word [108; 115]; Sym ch_gt; Word [102]; Sym ch_amp].

Lemma demo_lexes : lexes demo_line demo_tokens.
Proof.
  apply (lex_word [108; 115] [62; 102; 38]); [done|by repeat constructor|by intros c [= <-]|].
  apply (lex_sym 62); [done|done|]; apply (lex_word [102] [38]); [done|by repeat constructor|by intros c [= <-]|].
  apply (lex_sym 38); [done|done|constructor].
Qed.

(** It is a background command with its output redirected. *)
Lemma demo_derives : Line demo_tokens (TBack (TRedir (TExec [[108; 115]]) [102] 0x601 1)).
Proof.
  apply (g_line [Word [108; 115]; Sym ch_gt; Word [102]] 1 (wrap (TExec [[108; 115]]) [([102], 0x601, 1)])).
  apply g_exec, g_simple; [|done]; apply s_word, s_redir; [done|constructor].
Qed.

Lemma parse_correct_witness :
  (exists t p m' st, parsecmd 25 demo_mem 4096 = Some (Parsed p m' st) /\ Line demo_tokens t /\ shows m' st p t) \/
  (exists msg, parsecmd 25 demo_mem 4096 = Some (Failed msg) /\ forall t, ~ Line demo_tokens t).
Proof.
  apply (parse_correct demo_mem 4096 demo_line demo_tokens 25); [lia|reflexivity|exact demo_lexes|cbn; lia].
Defined.
