(* ===== verification/ShRun.v ===== *)
(** * user/sh.c: running commands

    What the shell does with a command tree, as the system calls of its
    process: after a fork the child goes on with the result 0 and the parent
    with the child's pid. *)

From S2P Require Import Prelude CMem KString Ulib Sysfile Sh ShLex ShGram ShOk.

(** A process: its next system call and what it does with the result, where
    it looks at it.  Pointers are addresses; [Stuck] is a read outside the
    nodes. *)
Inductive prog : Type :=
| Exit (status : Z)
| Fork (k : Z -> prog)
| Wait (k : prog)
| Close (fd : Z) (k : prog)
| Dup (fd : Z) (k : prog)
| Open (file mode : Z) (k : Z -> prog)
| PipeCall (k : Z -> Z -> Z -> prog)      (* the result, p[0] and p[1] *)
| ExecCall (path : Z) (argv : list Z) (k : prog)
| Chdir (path : Z) (k : Z -> prog)
| Output (fd : Z) (text : list Z) (k : prog)
| Stuck.

Definition panic (msg : list Z) : prog := Output 2 (msg ++ [10]) (Exit 1).
Definition fork1 (k : Z -> prog) : prog := Fork (fun pid => if pid =? -1 then panic (str "fork") else k pid).

Section run.
Variable m : mem.
Variable st : list node.

(** The text of %s; a string of the shell is shorter than its buffer. *)
Definition text_at (q : Z) : list Z := cstr m q 100.

Fixpoint runcmd (fuel : nat) (cmd : nat) : prog :=
  match fuel with
  | O => Stuck
  | S f =>
      match cmd with
      | O => Exit 1
      | S i =>
          match st !! i with
          | None => Stuck
          | Some (Execcmd argv eargv) =>
              match argv with
              | [] => Stuck
              | a0 :: _ =>
                  if a0 =? 0 then Exit 1
                  else ExecCall a0 argv (Output 2 (str "exec " ++ text_at a0 ++ str " failed" ++ [10]) (Exit 0))
              end
          | Some (Redircmd c file efile mode fd) =>
              Close fd (Open file mode (fun r =>
                if r <? 0 then Output 2 (str "open " ++ text_at file ++ str " failed" ++ [10]) (Exit 1)
                else runcmd f c))
          | Some (Listcmd l r) => fork1 (fun pid => if pid =? 0 then runcmd f l else Wait (runcmd f r))
          | Some (Pipecmd l r) =>
              PipeCall (fun ret p0 p1 =>
                if ret <? 0 then panic (str "pipe")
                else fork1 (fun pid =>
                  if pid =? 0 then Close 1 (Dup p1 (Close p0 (Close p1 (runcmd f l))))
                  else fork1 (fun pid =>
                    if pid =? 0 then Close 0 (Dup p0 (Close p0 (Close p1 (runcmd f r))))
                    else Close p0 (Close p1 (Wait (Wait (Exit 0)))))))
          | Some (Backcmd c) => fork1 (fun pid => if pid =? 0 then runcmd f c else Exit 0)
          end
      end
  end.
End run.

(** ** The read loop *)

Section main.
Variable buf : Z.          (* the address of the static buffer *)
Definition nbuf : Z := 100.

(** The memory after [getcmd], what is left of the input, and the result. *)
Definition getcmd (m : mem) (input : list Z) : mem * list Z * Z :=
  let m := memset m buf 0 nbuf in
  let '(m, input) := gets m buf nbuf input in
  (m, input, if m buf =? 0 then -1 else 0).

(** The child: [runcmd(parsecmd(buf))]. *)
Definition run_line (fuel : nat) (m : mem) : prog :=
  match parsecmd fuel m buf with
  | None => Stuck
  | Some (Failed msg) => Output 2 msg (Exit 1)
  | Some (Parsed cmd m' st) => runcmd m' st fuel cmd
  end.

(** [while(getcmd(buf, sizeof(buf)) >= 0)] *)
Fixpoint main_loop (fuel pfuel : nat) (m : mem) (input : list Z) : prog :=
  match fuel with
  | O => Stuck
  | S f =>
      let '(m, input, r) := getcmd m input in
      Output 2 (str "$ ")
        (if r <? 0 then Exit 0
         else if (m buf =? 99) && (m (buf + 1) =? 100) && (m (buf + 2) =? 32) then
           match Ulib.strlen pfuel m buf with
           | None => Stuck
           | Some n =>
               let m := store1 m (buf + n - 1) 0 in
               Chdir (buf + 3) (fun r =>
                 if r <? 0 then Output 2 (str "cannot cd " ++ text_at m (buf + 3) ++ [10]) (main_loop f pfuel m input)
                 else main_loop f pfuel m input)
           end
         else fork1 (fun pid => if pid =? 0 then run_line pfuel m else Wait (main_loop f pfuel m input)))
  end.

(** [main]: at least three descriptors, then the loop.  [console] is the
    address of the name of the console. *)
Fixpoint open_loop (fuel : nat) (console : Z) (k : prog) : prog :=
  match fuel with
  | O => Stuck
  | S f => Open console O_RDWR (fun fd => if 0 <=? fd then if 3 <=? fd then Close fd k else open_loop f console k else k)
  end.
Definition main (fuel pfuel : nat) (console : Z) (m : mem) (input : list Z) : prog :=
  open_loop 4 console (main_loop fuel pfuel m input).
End main.

(** ** The shell runs what the line says

    How the processes of a command line end: each execs a program or exits.
    The programs are those of the command tree, each with its arguments and
    the three standard descriptors, redirected and piped as written, and no
    other one open. *)

(** ** Descriptors *)

(** A process is named by the choices that lead to it: 0 made a pipe, 1 is the
    child and 2 the parent of a fork, 3 has waited for a child.  A pipe is
    named by the process that made it. *)
Abbreviation path := (list nat).
Inductive ofile : Type :=
| Inherited (n : nat)
| Opened (name : list Z) (mode : Z)
| PipeRead (p : path)
| PipeWrite (p : path).

Abbreviation fdt := (list (option ofile)).

(** The lowest free descriptor, as fdalloc gives it out. *)
Fixpoint fd_alloc (F : fdt) (x : ofile) : option (nat * fdt) :=
  match F with
  | [] => None
  | None :: F => Some (O, Some x :: F)
  | Some y :: F => match fd_alloc F x with Some (n, F') => Some (S n, Some y :: F') | None => None end
  end.
Definition fd_close (fd : Z) (F : fdt) : fdt := <[Z.to_nat fd := None]> F.

(** The strings of an array of pointers that ends with a null one. *)
Definition argv_at (m : mem) (argv : list Z) (args : list (list Z)) : Prop :=
  exists qs zs, argv = qs ++ 0 :: zs /\ Forall2 (string_at m) qs args.

(** How a process ends. *)
Inductive act : Type :=
| Execs (file : list Z) (args : list (list Z))
| Exits (status : Z).

(** [ends m p F prog bad p' a F']: the process [p] with the descriptors [F] and
    the program [prog], or a process it forks, has become [p'] and ends with
    [a] and the descriptors [F']; [bad] tells whether a call on the way failed.
    Any call but wait, close and dup may fail. *)
Inductive ends (m : mem) : path -> fdt -> prog -> bool -> path -> act -> fdt -> Prop :=
| e_exec p F q argv k file args :
    string_at m q file -> argv_at m argv args -> ends m p F (ExecCall q argv k) false p (Execs file args) F
| e_exec_fails p F q argv k b p' a F' : ends m p F k b p' a F' -> ends m p F (ExecCall q argv k) true p' a F'
| e_exit p F n : ends m p F (Exit n) false p (Exits n) F
| e_child p F k b p' a F' : ends m (p ++ [1%nat]) F (k 0) b p' a F' -> ends m p F (Fork k) b p' a F'
| e_parent p F k pid b p' a F' : 0 < pid -> ends m (p ++ [2%nat]) F (k pid) b p' a F' -> ends m p F (Fork k) b p' a F'
| e_fork_fails p F k b p' a F' : ends m p F (k (-1)) b p' a F' -> ends m p F (Fork k) true p' a F'
| e_wait p F k b p' a F' : ends m (p ++ [3%nat]) F k b p' a F' -> ends m p F (Wait k) b p' a F'
| e_close p F fd k b p' a F' : ends m p (fd_close fd F) k b p' a F' -> ends m p F (Close fd k) b p' a F'
| e_dup p F fd x n F1 k b p' a F' :
    F !! Z.to_nat fd = Some (Some x) -> fd_alloc F x = Some (n, F1) -> ends m p F1 k b p' a F' -> ends m p F (Dup fd k) b p' a F'
| e_open p F q mode w n F1 k b p' a F' :
    string_at m q w -> fd_alloc F (Opened w mode) = Some (n, F1) -> ends m p F1 (k (Z.of_nat n)) b p' a F' -> ends m p F (Open q mode k) b p' a F'
| e_open_fails p F q mode k b p' a F' : ends m p F (k (-1)) b p' a F' -> ends m p F (Open q mode k) true p' a F'
| e_pipe p F n0 F0 n1 F1 k b p' a F' :
    fd_alloc F (PipeRead p) = Some (n0, F0) -> fd_alloc F0 (PipeWrite p) = Some (n1, F1) ->
    ends m (p ++ [0%nat]) F1 (k 0 (Z.of_nat n0) (Z.of_nat n1)) b p' a F' -> ends m p F (PipeCall k) b p' a F'
| e_pipe_fails p F c d k b p' a F' : ends m p F (k (-1) c d) b p' a F' -> ends m p F (PipeCall k) true p' a F'
| e_output p F fd text k b p' a F' : ends m p F k b p' a F' -> ends m p F (Output fd text k) b p' a F'.

(** ** What a command means *)

(** The standard descriptors. *)
Definition std (x y z : ofile) : fdt := Some x :: Some y :: Some z :: replicate 13 None.

(** The processes of a command: where they end, how, and with which
    descriptors.  An empty command exits with 1; the program of a command is its
    first word; the right command of a list starts after a wait; the process
    that made a pipe waits for both of its children, with the pipe closed, and
    the one that starts a command in the background does not wait. *)
Fixpoint runs (t : tree (list Z)) (p : path) (x y z : ofile) : list (path * act * fdt) :=
  match t with
  | TExec [] => [(p, Exits 1, std x y z)]
  | TExec (file :: args) => [(p, Execs file (file :: args), std x y z)]
  | TRedir c w mode fd => if fd =? 0 then runs c p (Opened w mode) y z else runs c p x (Opened w mode) z
  | TPipe l r =>
      runs l (p ++ [0; 1]%nat) x (PipeWrite p) z ++ runs r (p ++ [0; 2; 1]%nat) (PipeRead p) y z ++
      [(p ++ [0; 2; 2; 3; 3]%nat, Exits 0, std x y z)]
  | TList l r => runs l (p ++ [1%nat]) x y z ++ runs r (p ++ [2; 3]%nat) x y z
  | TBack c => runs c (p ++ [1%nat]) x y z ++ [(p ++ [2%nat], Exits 0, std x y z)]
  end.

(** ** Runs of single calls *)

Section calls.
Variable m : mem.

Lemma ends_exit p F n b p' a F' : ends m p F (Exit n) b p' a F' <-> b = false /\ p' = p /\ a = Exits n /\ F' = F.
Proof. split; [intros H; by inversion H|intros (-> & -> & -> & ->); constructor]. Qed.
Lemma ends_output p F fd text k b p' a F' : ends m p F (Output fd text k) b p' a F' <-> ends m p F k b p' a F'.
Proof. split; [intros H; by inversion H|by constructor]. Qed.
Lemma ends_wait p F k b p' a F' : ends m p F (Wait k) b p' a F' <-> ends m (p ++ [3%nat]) F k b p' a F'.
Proof. split; [intros H; by inversion H|by constructor]. Qed.
Lemma ends_close p F fd k b p' a F' : ends m p F (Close fd k) b p' a F' <-> ends m p (fd_close fd F) k b p' a F'.
Proof. split; [intros H; by inversion H|by constructor]. Qed.
Lemma ends_dup p F fd x n F1 k b p' a F' :
  F !! Z.to_nat fd = Some (Some x) -> fd_alloc F x = Some (n, F1) -> ends m p F (Dup fd k) b p' a F' <-> ends m p F1 k b p' a F'.
Proof.
  intros Hx Ha; split; [|by intros; eapply e_dup]; intros H; inversion H as [| | | | | | | |? ? ? y n' F1' ? ? ? ? ? Hx' Ha' H1| | | | |]; subst.
  rewrite Hx in Hx'; injection Hx' as <-; rewrite Ha in Ha'; by injection Ha' as <- <-.
Qed.

(** fork1: the child with 0, the parent with a positive pid. *)
Lemma ends_fork1 p F (kc kp : prog) p' a F' :
  ends m p F (fork1 (fun pid => if pid =? 0 then kc else kp)) false p' a F' <->
  ends m (p ++ [1%nat]) F kc false p' a F' \/ ends m (p ++ [2%nat]) F kp false p' a F'.
Proof.
  unfold fork1; split.
  - intros H; inversion H as [| | |? ? ? ? ? ? ? H1|? ? ? pid ? ? ? ? Hp H1| | | | | | | | |]; subst; cbn in H1; [by left|].
    rewrite (proj2 (Z.eqb_neq pid (-1))), (proj2 (Z.eqb_neq pid 0)) in H1 by lia; by right.
  - intros [H|H]; [by apply e_child|by apply (e_parent _ _ _ _ 1)].
Qed.
End calls.

(** Strings are determined by memory. *)
Lemma string_det m q w w' : string_at m q w -> string_at m q w' -> w = w'.
Proof.
  intros [_ H] [_ H']; destruct (cstr_elim _ _ _ H) as (Hn & Hz & Hs); destruct (cstr_elim _ _ _ H') as (Hn' & Hz' & Hs').
  assert (Hl : length w = length w').
  { destruct (lt_eq_lt_dec (length w) (length w')) as [[Hlt|]|Hlt]; [|done|].
    - destruct (Hn' (q + Z.of_nat (length w))); [lia|done].
    - destruct (Hn (q + Z.of_nat (length w'))); [lia|done]. }
  by rewrite <- Hs, <- Hs', Hl.
Qed.
Lemma argv_det m argv args args' : argv_at m argv args -> argv_at m argv args' -> args = args'.
Proof.
  intros (qs & zs & -> & H) (qs' & zs' & He & H').
  assert (Hnz : forall qs args, Forall2 (string_at m) qs args -> Forall (fun q => negb (q =? 0) = true) qs).
  { clear; induction 1 as [|q w qs args [Hq _] _ IH]; constructor; [lia|done]. }
  destruct (word_split (fun q => negb (q =? 0)) qs (0 :: zs) qs' (0 :: zs')) as [-> _]; eauto; [by intros c [= <-]|by intros c [= <-]|].
  clear He; revert args' H'; induction H as [|q w qs args Hq _ IH]; intros args' H'; inversion H' as [|? w' ? ? Hq' H1]; subst; [done|].
  f_equal; [by eapply string_det|by apply IH].
Qed.

Lemma ends_open m p F q mode w n F1 k p' a F' :
  string_at m q w -> fd_alloc F (Opened w mode) = Some (n, F1) ->
  ends m p F (Open q mode k) false p' a F' <-> ends m p F1 (k (Z.of_nat n)) false p' a F'.
Proof.
  intros Hw Ha; split; [|by intros; eapply e_open].
  intros H; inversion H as [| | | | | | | | |? ? ? ? w' n' F1' ? ? ? ? ? Hw' Ha' H1| | | |]; subst.
  rewrite (string_det _ _ _ _ Hw' Hw) in Ha'; rewrite Ha in Ha'; by injection Ha' as <- <-.
Qed.
Lemma ends_pipe m p F n0 F0 n1 F1 k p' a F' :
  fd_alloc F (PipeRead p) = Some (n0, F0) -> fd_alloc F0 (PipeWrite p) = Some (n1, F1) ->
  ends m p F (PipeCall k) false p' a F' <-> ends m (p ++ [0%nat]) F1 (k 0 (Z.of_nat n0) (Z.of_nat n1)) false p' a F'.
Proof.
  intros H0 H1; split; [|by intros; eapply e_pipe].
  intros H; inversion H as [| | | | | | | | | | |? ? ? ? ? ? ? ? ? ? ? H0' H1' H2| |]; subst.
  rewrite H0 in H0'; injection H0' as <- <-; rewrite H1 in H1'; by injection H1' as <- <-.
Qed.
Lemma ends_call m p F q argv k file args p' a F' :
  string_at m q file -> argv_at m argv args ->
  ends m p F (ExecCall q argv k) false p' a F' <-> p' = p /\ a = Execs file args /\ F' = F.
Proof.
  intros Hq Ha; split.
  - intros H; inversion H as [? ? ? ? ? file' args' Hq' Ha'| | | | | | | | | | | | |]; subst.
    by rewrite (argv_det _ _ _ _ Ha' Ha), (string_det _ _ _ _ Hq' Hq).
  - intros (-> & -> & ->); by constructor.
Qed.

(** ** The commands of a tree *)

(** The two ends of a pipe, in the children and in the shell's process. *)
Lemma pipe_ends m p x y z kl kr p' a F' :
  let k := fun ret p0 p1 =>
    if ret <? 0 then ShRun.panic (str "pipe")
    else fork1 (fun pid =>
      if pid =? 0 then Close 1 (Dup p1 (Close p0 (Close p1 kl)))
      else fork1 (fun pid =>
        if pid =? 0 then Close 0 (Dup p0 (Close p0 (Close p1 kr)))
        else Close p0 (Close p1 (Wait (Wait (Exit 0)))))) in
  ends m p (std x y z) (PipeCall k) false p' a F' <->
  ends m (p ++ [0; 1]%nat) (std x (PipeWrite p) z) kl false p' a F' \/
  ends m (p ++ [0; 2; 1]%nat) (std (PipeRead p) y z) kr false p' a F' \/
  (p' = p ++ [0; 2; 2; 3; 3]%nat /\ a = Exits 0 /\ F' = std x y z).
Proof.
  intros k; unfold k.
  rewrite (ends_pipe m p (std x y z) 3 (Some x :: Some y :: Some z :: Some (PipeRead p) :: replicate 12 None)
    4 (Some x :: Some y :: Some z :: Some (PipeRead p) :: Some (PipeWrite p) :: replicate 11 None)) by done.
  change (0 <? 0) with false; cbn [Z.of_nat]; rewrite ends_fork1; rewrite ends_fork1; rewrite !ends_close.
  rewrite (ends_dup m _ _ _ (PipeWrite p) 1 (Some x :: Some (PipeWrite p) :: Some z :: Some (PipeRead p) :: Some (PipeWrite p) :: replicate 11 None)) by done.
  rewrite (ends_dup m _ _ _ (PipeRead p) 0 (Some (PipeRead p) :: Some y :: Some z :: Some (PipeRead p) :: Some (PipeWrite p) :: replicate 11 None)) by done.
  rewrite !ends_close, !ends_wait, ends_exit, <- !app_assoc; cbn [app]; naive_solver.
Qed.

Lemma runcmd_ends m st : forall fuel t cmd p x y z p' a F',
  shows m st cmd t -> args_ok t -> (height t <= fuel)%nat ->
  ends m p (std x y z) (runcmd m st fuel cmd) false p' a F' <-> (p', a, F') ∈ runs t p x y z.
Proof.
  induction fuel as [|f IH]; intros t cmd p x y z p' a F' Hs Ha Hh; [destruct t; cbn in Hh; lia|].
  destruct t as [ws|c w mode fd|l r|l r|c]; cbn [shows height args_ok runs] in *; cbn [runcmd].
  - destruct Hs as (qs & zs & eargv & Hn & Hq); destruct cmd as [|i]; [done|]; cbn in Hn; rewrite Hn.
    inversion Hq as [|q w qs' ws' Hq1 Hq']; subst; cbn [app]; rewrite list_elem_of_singleton.
    + rewrite Z.eqb_refl, ends_exit; naive_solver.
    + rewrite (proj2 (Z.eqb_neq q 0)) by apply Hq1.
      rewrite (ends_call m p _ q _ _ w (w :: ws')); [naive_solver|done|by exists (q :: qs'), zs].
  - destruct Hs as (p1 & q & eq & Hn & Hw & Hs); destruct cmd as [|i]; [done|]; cbn in Hn; rewrite Hn, ends_close.
    destruct Ha as [[-> | ->] Ha]; cbn [Z.eqb].
    + rewrite (ends_open m p _ q mode w 0 (std (Opened w mode) y z)) by done; apply IH; [done|done|lia].
    + rewrite (ends_open m p _ q mode w 1 (std x (Opened w mode) z)) by done; apply IH; [done|done|lia].
  - destruct Hs as (p1 & p2 & Hn & Hs1 & Hs2); destruct cmd as [|i]; [done|]; cbn in Hn; rewrite Hn, pipe_ends, !elem_of_app.
    rewrite (IH l), (IH r), list_elem_of_singleton by (done || apply Ha || lia); naive_solver.
  - destruct Hs as (p1 & p2 & Hn & Hs1 & Hs2); destruct cmd as [|i]; [done|]; cbn in Hn; rewrite Hn, ends_fork1, ends_wait, <- app_assoc, elem_of_app.
    rewrite (IH l), (IH r) by (done || apply Ha || lia); done.
  - destruct Hs as (p1 & Hn & Hs); destruct cmd as [|i]; [done|]; cbn in Hn; rewrite Hn, ends_fork1, ends_exit, (IH c), elem_of_app by (done || lia).
    rewrite list_elem_of_singleton; naive_solver.
Qed.

(** After a call has failed no program is run. *)
Lemma fork1_fails m p F (kc kp : prog) p' a F' (P : Prop) :
  (forall p, ends m p F kc true p' a F' -> P) -> (forall p, ends m p F kp true p' a F' -> P) -> (forall n, a = Exits n -> P) ->
  ends m p F (fork1 (fun pid => if pid =? 0 then kc else kp)) true p' a F' -> P.
Proof.
  intros Hc Hp Hx H; unfold fork1 in H; inversion H as [| | |? ? ? ? ? ? ? H1|? ? ? pid ? ? ? ? Hpid H1|? ? ? ? ? ? ? H1| | | | | | | |]; subst; cbn in H1.
  - by eapply Hc.
  - rewrite (proj2 (Z.eqb_neq pid (-1))), (proj2 (Z.eqb_neq pid 0)) in H1 by lia; by eapply Hp.
  - unfold ShRun.panic in H1; rewrite ends_output, ends_exit in H1; destruct H1 as (_ & _ & -> & _); by eapply Hx.
Qed.
Lemma dup_fails m p F fd k p' a F' : ends m p F (Dup fd k) true p' a F' -> exists F1, ends m p F1 k true p' a F'.
Proof. intros H; inversion H; subst; eauto. Qed.

Lemma runcmd_fails m st : forall fuel cmd p F p' a F',
  ends m p F (runcmd m st fuel cmd) true p' a F' -> exists n, a = Exits n.
Proof.
  assert (Hout : forall p F text n b p' a F', ends m p F (Output 2 text (Exit n)) b p' a F' -> exists n, a = Exits n).
  { intros p F text n b p' a F'; rewrite ends_output, ends_exit; intros (_ & _ & -> & _); eauto. }
  induction fuel as [|f IH]; intros cmd p F p' a F'; cbn [runcmd]; [intros H; inversion H|].
  destruct cmd as [|i]; [rewrite ends_exit; by intros [? _]|].
  destruct (st !! i) as [[argv eargv|c file efile mode fd|l r|l r|c]|]; [| | | | |intros H; inversion H].
  - destruct argv as [|a0 argv]; [intros H; inversion H|]; case_match; [rewrite ends_exit; by intros [? _]|].
    intros H1; inversion H1; subst; by eapply Hout.
  - rewrite ends_close; intros H; inversion H as [| | | | | | | | |? ? ? ? w n F1 ? ? ? ? ? _ _ H1|? ? ? ? ? ? ? ? ? H1| | |]; subst.
    + rewrite (proj2 (Z.ltb_ge _ 0)) in H1 by lia; by eapply IH.
    + change (-1 <? 0) with true in H1; cbv iota in H1; by eapply Hout.
  - intros H; inversion H as [| | | | | | | | | | |? ? n0 F0 n1 F1 ? ? ? ? ? _ _ H1|? ? ? ? ? ? ? ? ? H1|]; subst; cbn in H1; [|by eapply Hout].
    eapply fork1_fails in H1; [exact H1| | |by eauto].
    + intros q; rewrite ends_close; intros [F2 H2]%dup_fails; rewrite !ends_close in H2; by eapply IH.
    + intros q H2; eapply fork1_fails in H2; [exact H2| | |by eauto].
      * intros q'; rewrite ends_close; intros [F2 H3]%dup_fails; rewrite !ends_close in H3; by eapply IH.
      * intros q'; rewrite !ends_close, !ends_wait, ends_exit; by intros [? _].
  - intros H; eapply fork1_fails in H; [exact H| | |by eauto]; intros q; [apply IH|rewrite ends_wait; apply IH].
  - intros H; eapply fork1_fails in H; [exact H| | |by eauto]; intros q; [apply IH|rewrite ends_exit; by intros [? _]].
Qed.

(** C17: without failing calls the processes of the child that runs a line end
    exactly as the tree the grammar gives to the line says: for each command one
    execs the program named by its first word, with its words as arguments,
    standard input, output and error as its redirections and pipes say and no
    other descriptor open; the right command of a list starts after a wait,
    and the process that made a pipe ends after two.  A process in which a call
    has failed runs no program and exits, and a line outside the grammar runs
    nothing. *)
Theorem shell_correct (buf : Z) (m : mem) (text : list Z) (ts : list (tok (list Z))) (fuel : nat) :
  0 < buf -> cstr m buf (S (length text)) = text -> lexes text ts -> (4 * length text + 5 <= fuel)%nat ->
  (exists t cmd m' st, Line ts t /\ parsecmd fuel m buf = Some (Parsed cmd m' st) /\
     (forall p x y z p' a F', ends m' p (std x y z) (run_line buf fuel m) false p' a F' <-> (p', a, F') ∈ runs t p x y z) /\
     (forall p F p' a F', ends m' p F (run_line buf fuel m) true p' a F' -> exists n, a = Exits n)) \/
  ((forall t, ~ Line ts t) /\ exists msg, run_line buf fuel m = Output 2 msg (Exit 1)).
Proof.
  intros Hb Hstr Hlex Hf; pose proof (lexes_length _ _ Hlex) as Hlen; unfold run_line.
  destruct (parsecmd_decides m buf text ts fuel Hb Hstr Hlex Hf) as [(t & cmd & m' & st & Hrun & Hl & Hs)|(msg & Hrun & Hno)]; rewrite Hrun.
  - left; exists t, cmd, m', st; split_and!; [done|done| |intros *; apply runcmd_fails]; destruct (proj1 derived_small _ _ Hl) as (Hh & Ha & _).
    intros p x y z p' a F'; apply runcmd_ends; [done|done|lia].
  - right; split; [done|by exists msg].
Qed.

Lemma shell_correct_witness :
  (exists t cmd m' st, Line demo_tokens t /\ parsecmd 25 demo_mem 4096 = Some (Parsed cmd m' st) /\
     (forall p x y z p' a F', ends m' p (std x y z) (run_line 4096 25 demo_mem) false p' a F' <-> (p', a, F') ∈ runs t p x y z) /\
     (forall p F p' a F', ends m' p F (run_line 4096 25 demo_mem) true p' a F' -> exists n, a = Exits n)) \/
  ((forall t, ~ Line demo_tokens t) /\ exists msg, run_line 4096 25 demo_mem = Output 2 msg (Exit 1)).
Proof.
  apply (shell_correct 4096 demo_mem demo_line demo_tokens 25); [lia|reflexivity|exact demo_lexes|cbn; lia].
Defined.

(** The last character of a [cd] line is taken to be its newline: at the end
    of the input, [cd ab] goes to [a]. *)
Lemma cd_chops :
  let '(m, _, _) := getcmd 4096 (fun _ => 0) (str "cd ab") in
  cstr (store1 m (4096 + 5 - 1) 0) (4096 + 3) 100 = str "a".
Proof. vm_compute; reflexivity. Qed.
