(* ===== verification/Mkfs.v ===== *)
(** * mkfs/mkfs.c

    The program that builds the file-system image.  The image is the list of
    its sectors; a run returns, or exits with an error through die or a failed
    assert.  mkfs runs on a host with the byte order of RISC-V. *)

From S2P Require Import Prelude CMem KString Riscv Kalloc Vm Locks Block Bio Log Fs.

Definition NINODES : Z := 200.
Definition nbitmap : Z := FSSIZE / BPB + 1.
Definition ninodeblocks : Z := NINODES / IPB + 1.
Definition nlog : Z := LOGSIZE.
Definition nmeta : Z := 2 + nlog + ninodeblocks + nbitmap.
Definition nblocks : Z := FSSIZE - nmeta.

(** The sectors of fsfd, and the next free inode and block. *)
Record mkst : Type := Mk {
  img : list (list Z);
  freeinode : Z;
  freeblock : Z
}.
Definition set_img (v : list (list Z)) (s : mkst) : mkst := Mk v (freeinode s) (freeblock s).

Inductive mres (A : Type) : Type :=
| Made (a : A) (s : mkst)
| Error.
Arguments Made {A} a s.
Arguments Error {A}.

Definition K (A : Type) : Type := mkst -> mres A.
#[export] Instance K_ret : MRet K := fun A a s => Made a s.
#[export] Instance K_bind : MBind K := fun A B f x s =>
  match x s with Made a s' => f a s' | Error => Error end.

(** [die] and a failed [assert]. *)
Definition die {A} : K A := fun _ => Error.
Definition check (b : bool) : K unit := if b then mret tt else die.
Definition getk : K mkst := fun s => Made s s.
Definition modk (f : mkst -> mkst) : K unit := fun s => Made tt (f s).

(** The bytes of a number in RISC-V order, read as a number of the host. *)
Definition xshort (x : Z) : Z := le_decode [u8 x; u8 (Z.shiftr x 8)].
Definition xint (x : Z) : Z := le_decode [u8 x; u8 (Z.shiftr x 8); u8 (Z.shiftr x 16); u8 (Z.shiftr x 24)].

Definition sb : superblock :=
  Superblock FSMAGIC (xint FSSIZE) (xint nblocks) (xint NINODES) (xint nlog) (xint 2) (xint (2 + nlog))
    (xint (2 + nlog + ninodeblocks)).
Definition sb_bytes : list Z :=
  concat (le_encode 4 <$> [sb_magic sb; sb_size sb; sb_nblocks sb; sb_ninodes sb; sb_nlog sb; sb_logstart sb;
                           sb_inodestart sb; sb_bmapstart sb]).

(** ** Sectors and inodes *)

Definition zeroes : list Z := replicate 1024 0.

(** A write past the end of the image leaves a hole, which reads as zeros. *)
Definition wsect (sec : Z) (buf : list Z) : K unit :=
  modk (fun s =>
    let n := Z.to_nat sec in
    set_img (if (n <? length (img s))%nat then <[n := buf]> (img s)
             else img s ++ replicate (n - length (img s)) zeroes ++ [buf]) s).
Definition rsect (sec : Z) : K (list Z) :=
  s ← getk;
  match img s !! Z.to_nat sec with
  | Some buf => mret buf
  | None => die
  end.

(** struct dinode is the on-disk part of an inode, the rest of it as in
    [inode0]. *)
Definition winode (inum : Z) (ip : inode) : K unit :=
  let bn := IBLOCK inum sb in
  buf ← rsect bn;
  wsect bn (write_dinode buf (dinode_off inum) ip).
Definition rinode (inum : Z) : K inode :=
  let bn := IBLOCK inum sb in
  buf ← rsect bn;
  mret (read_dinode buf (dinode_off inum) inode0).

Definition ialloc (type : Z) : K Z :=
  s ← getk;
  let inum := freeinode s in
  modk (fun s => Mk (img s) (u32 (freeinode s + 1)) (freeblock s));;
  winode inum (set_size (xint 0) (Inode 0 0 0 (i_lock inode0) 0 (xshort type) 0 0 (xshort 1) 0 (replicate 13 0)));;
  mret inum.

(** [freeblock++] *)
Definition new_block : K Z :=
  s ← getk;
  modk (fun s => Mk (img s) (freeinode s) (u32 (freeblock s + 1)));;
  mret (freeblock s).

(** [for(i = 0; i < used; i++) buf[i/8] = buf[i/8] | (0x1 << (i%8))] *)
Fixpoint mark_bits (n : nat) (buf : list Z) : list Z :=
  match n with
  | O => buf
  | S n' =>
      let buf := mark_bits n' buf in
      let i := Z.of_nat n' in
      put8 buf (Z.to_nat (i / 8)) (Z.lor (get8 buf (Z.to_nat (i / 8))) (Z.shiftl 1 (i mod 8)))
  end.
Definition balloc (used : Z) : K unit :=
  check (used <? BPB);;
  wsect (sb_bmapstart sb) (mark_bits (Z.to_nat used) zeroes).

(** ** Appending to a file *)

(** The block of the file for block number [fbn], allocated if need be; the
    inode may have changed. *)
Definition get_block (fbn : Z) (din : inode) : K (Z * inode) :=
  if fbn <? NDIRECT then
    din ← (if xint (addr_of fbn din) =? 0
           then b ← new_block; mret (set_addr (Z.to_nat fbn) (xint b) din)
           else mret din);
    mret (xint (addr_of fbn din), din)
  else
    din ← (if xint (addr_of NDIRECT din) =? 0
           then b ← new_block; mret (set_addr (Z.to_nat NDIRECT) (xint b) din)
           else mret din);
    let ind := xint (addr_of NDIRECT din) in
    indirect ← rsect ind;
    let o := Z.to_nat (4 * (fbn - NDIRECT)) in
    indirect ← (if get32 indirect o =? 0
                then b ← new_block;
                     let indirect := put32 indirect o (xint b) in
                     wsect ind indirect;; mret indirect
                else mret indirect);
    mret (xint (get32 indirect o), din).

Fixpoint iappend_loop (fuel : nat) (p : list Z) (off : Z) (din : inode) : K (Z * inode) :=
  match p with
  | [] => mret (off, din)
  | _ =>
      match fuel with
      | O => die
      | S f =>
          let fbn := off / BSIZE in
          check (fbn <? MAXFILE);;
          '(x, din) ← get_block fbn din;
          let n1 := Z.min (Z.of_nat (length p)) ((fbn + 1) * BSIZE - off) in
          buf ← rsect x;
          wsect x (splice buf (Z.to_nat (off - fbn * BSIZE)) (take (Z.to_nat n1) p));;
          iappend_loop f (drop (Z.to_nat n1) p) (off + n1) din
      end
  end.
Definition iappend (inum : Z) (p : list Z) : K unit :=
  din ← rinode inum;
  '(off, din) ← iappend_loop (length p) p (xint (i_size din)) din;
  winode inum (set_size (xint off) din).

(** struct dirent: [strcpy] and [strncpy] of a name after [bzero]. *)
Definition dirent (inum : Z) (name : list Z) : list Z :=
  le_encode 2 (xshort inum) ++ take 14 (name ++ replicate 14 0).

(** ** main *)

(** The names of the files without "user/" and a leading underscore. *)
Definition ch_slash : Z := 47.
Definition ch_underscore : Z := 95.
Definition strip_user (name : list Z) : list Z :=
  if bool_decide (take 5 name = str "user/") then drop 5 name else name.
Definition strip_underscore (name : list Z) : list Z :=
  match name with
  | c :: name' => if c =? ch_underscore then name' else name
  | [] => []
  end.

(** [while((cc = read(fd, buf, sizeof(buf))) > 0) iappend(inum, buf, cc)] over
    what the calls of read return. *)
Fixpoint copy_file (inum : Z) (chunks : list (list Z)) : K unit :=
  match chunks with
  | [] => mret tt
  | c :: chunks' => iappend inum c;; copy_file inum chunks'
  end.

(** A file of the command line: its name, and what read returns once it is
    open. *)
Definition add_file (f : list Z * option (list (list Z))) : K unit :=
  let shortname := strip_user f.1 in
  check (negb (existsb (Z.eqb ch_slash) shortname));;
  match f.2 with
  | None => die
  | Some chunks =>
      let shortname := strip_underscore shortname in
      check (Z.of_nat (length shortname) <=? DIRSIZ);;
      inum ← ialloc T_FILE;
      iappend ROOTINO (dirent inum shortname);;
      copy_file inum chunks
  end.
Fixpoint add_files (fs : list (list Z * option (list (list Z)))) : K unit :=
  match fs with
  | [] => mret tt
  | f :: fs' => add_file f;; add_files fs'
  end.

(** [for(i = 0; i < FSSIZE; i++) wsect(i, zeroes)] *)
Fixpoint clear_image (n : nat) (i : Z) : K unit :=
  match n with
  | O => mret tt
  | S n' => wsect i zeroes;; clear_image n' (i + 1)
  end.

Definition make_root : K unit :=
  rootino ← ialloc T_DIR;
  check (rootino =? ROOTINO);;
  iappend rootino (dirent rootino (str "."));;
  iappend rootino (dirent rootino (str "..")).

(** The size of the root directory is rounded up. *)
Definition fix_root : K unit :=
  din ← rinode ROOTINO;
  let off := xint (i_size din) in
  let off := (off / BSIZE + 1) * BSIZE in
  winode ROOTINO (set_size (xint off) din).

(** [image] is whether there is an argument for the image and it opens. *)
Definition main (image : option bool) (fs : list (list Z * option (list (list Z)))) : mres unit :=
  match image with
  | None | Some false => Error
  | Some true =>
      (clear_image (Z.to_nat FSSIZE) 0;;
       wsect 1 (splice zeroes 0 sb_bytes);;
       make_root;;
       add_files fs;;
       fix_root;;
       s ← getk;
       balloc (freeblock s)) (Mk [] 1 nmeta)
  end.
