(* ===== verification/MkfsInv.v ===== *)
(** * The image during mkfs

    mkfs hands out blocks in order and writes the bitmap at the end.  Seen
    with the bitmap it is going to write, each of its steps is a step of the
    kernel's allocator, and the kernel's lemmas about files apply. *)

From S2P Require Import Prelude CMem KString Riscv Kalloc Vm Locks Block Bio BioInv BioSpec Log LogSpec LogCrash Fs FsBase FsAlloc FsInode FsFile FsBmap FsRead FsWrite FsWriteOk Mkfs.

(** ** Numbers *)

Lemma xint_small x : 0 <= x < 2 ^ 32 -> xint x = x.
Proof.
  intros Hx; unfold xint; cbn [le_decode]; unfold u8; rewrite !Z.shiftr_div_pow2 by lia; change (2 ^ 8) with 256 in *.
  change (2 ^ 16) with (256 * 256); change (2 ^ 24) with (256 * 256 * 256); rewrite <- !Z.div_div by lia.
  pose proof (Z.div_mod x 256 ltac:(lia)); pose proof (Z.div_mod (x / 256) 256 ltac:(lia)); pose proof (Z.div_mod (x / 256 / 256) 256 ltac:(lia)).
  rewrite (Z.mod_small (x / 256 / 256 / 256)); [lia|].
  split; [repeat apply Z.div_pos; lia|]; repeat (apply Z.div_lt_upper_bound; [lia|]); lia.
Qed.
Lemma xshort_small x : 0 <= x < 2 ^ 16 -> xshort x = x.
Proof.
  intros Hx; unfold xshort; cbn [le_decode]; unfold u8; rewrite Z.shiftr_div_pow2 by lia; change (2 ^ 8) with 256 in *.
  pose proof (Z.div_mod x 256 ltac:(lia)); rewrite (Z.mod_small (x / 256)); [lia|].
  split; [apply Z.div_pos; lia|apply Z.div_lt_upper_bound; lia].
Qed.

Lemma sb_eq : sb = demo_sb.
Proof. vm_compute; reflexivity. Qed.
Lemma mk_layout : layout sb demo_flog.
Proof. rewrite sb_eq; apply demo_layout. Qed.
Lemma sb_vals : sb_size sb = 2000 /\ sb_inodestart sb = 32 /\ sb_bmapstart sb = 45 /\ bmap_end sb = 46.
Proof. rewrite sb_eq; done. Qed.
Lemma length_zeroes : length zeroes = 1024%nat.
Proof. apply length_replicate. Qed.

(** ** The view *)

Definition mview (s : mkst) (b : Z) : list Z :=
  if b =? 45 then mark_bits (Z.to_nat (freeblock s)) zeroes
  else if b <? 0 then zeroes else default zeroes (img s !! Z.to_nat b).

(** The image is whole, its free blocks zero. *)
Record img_ok (s : mkst) : Prop := {
  im_len : length (img s) = 2000%nat;
  im_blk b d : img s !! b = Some d -> length d = 1024%nat;
  im_free : 46 <= freeblock s <= 2000;
  im_zero b : freeblock s <= b < 2000 -> img s !! Z.to_nat b = Some zeroes
}.

Lemma length_mark_bits n : Z.of_nat n <= BPB -> length (mark_bits n zeroes) = 1024%nat.
Proof.
  induction n as [|n IH]; intros Hn; [apply length_zeroes|]; cbn [mark_bits].
  apply (length_set_bit _ (Z.of_nat n)); [apply IH; lia|lia].
Qed.
Lemma mark_bits_bit n b : Z.of_nat n <= BPB -> 0 <= b < BPB -> bit_of (mark_bits n zeroes) b = (b <? Z.of_nat n).
Proof.
  induction n as [|n IH]; intros Hn Hb.
  - rewrite bit_of_testbit; cbn [mark_bits]; unfold get8, zeroes.
    rewrite lookup_replicate_2 by (by apply div8_lt); cbn; rewrite Z.bits_0; lia.
  - cbn [mark_bits]; change (put8 _ _ _) with (set_bit (mark_bits n zeroes) (Z.of_nat n)).
    rewrite bit_of_set, IH by (try apply length_mark_bits; unfold BPB, BSIZE in *; lia).
    case_bool_decide; destruct (Z.ltb_spec b (Z.of_nat n)), (Z.ltb_spec b (Z.of_nat (S n))); lia || done.
Qed.

Section image.
Variable s : mkst.
Hypothesis Hs : img_ok s.

Lemma length_mview b : length (mview s b) = 1024%nat.
Proof.
  unfold mview; destruct (b =? 45); [apply length_mark_bits; pose proof (im_free _ Hs); unfold BPB, BSIZE; lia|].
  destruct (b <? 0); [apply length_zeroes|].
  destruct (img s !! Z.to_nat b) as [d|] eqn:E; cbn; [by eapply im_blk|apply length_zeroes].
Qed.

Lemma mview_used b : 0 <= b < 2000 -> used (mview s) sb b = (b <? freeblock s).
Proof.
  intros Hb; pose proof (im_free _ Hs); unfold used, BBLOCK; destruct sb_vals as (_ & _ & -> & _).
  rewrite (Z.div_small b), (Z.mod_small b) by (unfold BPB, BSIZE; lia); unfold mview.
  change (0 + 45 =? 45) with true; cbn iota; rewrite mark_bits_bit by (unfold BPB, BSIZE; lia); by rewrite Z2Nat.id by lia.
Qed.

Lemma rsect_run b : 0 <= b < 2000 -> b <> 45 -> rsect b s = Made (mview s b) s.
Proof.
  intros Hb Hne; unfold rsect, mbind, K_bind, getk, mview; rewrite (proj2 (Z.eqb_neq b 45) Hne), (proj2 (Z.ltb_ge b 0)) by lia.
  destruct (lookup_lt_is_Some_2 (img s) (Z.to_nat b)) as [d ->]; [rewrite (im_len _ Hs); lia|done].
Qed.

(** Writing a sector. *)
Definition put (b : Z) (d : list Z) : mkst := set_img (<[Z.to_nat b := d]> (img s)) s.

Lemma wsect_run b d : 0 <= b < 2000 -> wsect b d s = Made tt (put b d).
Proof.
  intros Hb; unfold wsect, modk; rewrite (proj2 (Nat.ltb_lt _ _)); [done|]; rewrite (im_len _ Hs); lia.
Qed.
Lemma mview_put b d x : 0 <= b < 2000 -> b <> 45 -> mview (put b d) x = upd (mview s) b d x.
Proof.
  intros Hb Hne; unfold mview, put, upd; cbn [img set_img freeblock]; case_decide as E.
  - subst; rewrite (proj2 (Z.eqb_neq b 45) Hne), (proj2 (Z.ltb_ge b 0)) by lia; by rewrite list_lookup_insert_eq by (rewrite (im_len _ Hs); lia).
  - destruct (x =? 45); [done|]; destruct (Z.ltb_spec x 0); [done|]; by rewrite list_lookup_insert_ne by lia.
Qed.
Lemma img_ok_put b d : 0 <= b < freeblock s -> length d = 1024%nat -> img_ok (put b d).
Proof.
  intros Hb Hd; destruct Hs as [H1 H2 H3 H4]; constructor; cbn [img put set_img freeblock]; [by rewrite length_insert| |done|].
  - intros j e; rewrite list_lookup_insert_Some; intros [(<- & <- & _)|[_ ?]]; [done|by apply (H2 j)].
  - intros j Hj; rewrite list_lookup_insert_ne by lia; by apply H4.
Qed.

(** Taking the next block is what balloc does. *)
Definition take_next : mkst := Mk (img s) (freeinode s) (freeblock s + 1).
Lemma new_block_run : freeblock s < 2000 -> new_block s = Made (freeblock s) take_next.
Proof. intros Hf; pose proof (im_free _ Hs); unfold new_block, mbind, K_bind, getk, modk; by rewrite u32_small by lia. Qed.
Lemma img_ok_next : freeblock s < 2000 -> img_ok take_next.
Proof.
  intros Hf; destruct Hs as [H1 H2 H3 H4]; constructor; cbn [img freeblock take_next]; [done|done|lia|]; intros b Hb; apply H4; lia.
Qed.
Lemma mview_next x : freeblock s < 2000 -> mview take_next x = alloc_view (mview s) sb (freeblock s) x.
Proof.
  intros Hf; pose proof (im_free _ Hs) as Hr; unfold alloc_view, upd, BBLOCK; destruct sb_vals as (_ & _ & -> & _).
  rewrite (Z.div_small (freeblock s)), (Z.mod_small (freeblock s)) by (unfold BPB, BSIZE; lia); cbn [Z.add].
  unfold mview; cbn [img freeblock take_next]; case_decide as E; [|case_decide as E2].
  - subst; rewrite (proj2 (Z.eqb_neq _ 45)), (proj2 (Z.ltb_ge _ 0)) by lia; by rewrite (im_zero _ Hs) by lia.
  - subst; change (45 =? 45) with true; cbn iota.
    replace (Z.to_nat (freeblock s + 1)) with (S (Z.to_nat (freeblock s))) by lia; cbn [mark_bits]; unfold set_bit.
    by rewrite Z2Nat.id by lia.
  - by rewrite (proj2 (Z.eqb_neq x 45)).
Qed.
End image.

(** ** Files of the image

    get_block and iappend, through the kernel's lemmas about files. *)

Lemma made_bind {A B} (x : K A) (k : A -> K B) s a s' : x s = Made a s' -> (x ≫= k) s = k a s'.
Proof. unfold mbind, K_bind; by intros ->. Qed.

Lemma ret_bind {A B} (a : A) (k : A -> K B) s : (mret a ≫= k) s = k a s.
Proof. done. Qed.

Lemma ext_V_r sb V x V' V2 x' : (forall b, V2 b = V' b) -> ext sb V x V' x' -> ext sb V x V2 x'.
Proof.
  intros H [E1 E2 E3 E4 E5 E6 E7]; split; auto.
  - intros bn Hb H0; rewrite (fblk_ext_V V' V2) by done; destruct (E2 bn Hb H0) as [-> <-]; by rewrite H.
  - intros bn Hb; rewrite (fblk_ext_V V' V2) by done; rewrite H; by apply E3.
  - intros b Hb Hu; rewrite (used_ext V2 V') by done; by apply E5.
  - intros b Ho; apply E6; by apply (owned_ext_V V' V2).
  - intros b ? ? ?; rewrite H; by apply E7.
Qed.

(** The addresses in an inode. *)
Lemma addr_small V x k : file_ok V sb x -> 0 <= k <= 12 -> addr_of k x = 0 \/ 46 <= addr_of k x < 2000.
Proof.
  intros Hx Hk; destruct (decide (addr_of k x = 0)) as [|H0]; [by left|right]; destruct sb_vals as (Hsz & _ & _ & He).
  assert (Ho : owned V x (addr_of k x)).
  { destruct (decide (k = 12)) as [->|]; [by apply owned_ind|]; rewrite <- (fblk_direct V x k) in * by lia; apply owned_blk; [unfold NBLK; lia|done]. }
  destruct (fl_data _ _ _ Hx _ Ho); lia.
Qed.
Lemma fblk_small V x bn : file_ok V sb x -> 0 <= bn < NBLK -> fblk V x bn = 0 \/ 46 <= fblk V x bn < 2000.
Proof.
  intros Hx Hb; destruct (decide (fblk V x bn = 0)) as [|H0]; [by left|right]; destruct sb_vals as (Hsz & _ & _ & He).
  destruct (fl_data _ _ _ Hx _ (owned_blk _ _ _ Hb H0)); lia.
Qed.

(** What getting a block for a file leaves alone, and its cost. *)
Record got (s : mkst) (x : inode) (s' : mkst) (x' : inode) (cost : Z) : Prop := {
  gt_ok : img_ok s';
  gt_file : file_ok (mview s') sb x';
  gt_ext : ext sb (mview s) x (mview s') x';
  gt_free : freeblock s' = freeblock s + cost;
  gt_inode : freeinode s' = freeinode s;
  gt_meta b : b < 45 -> img s' !! Z.to_nat b = img s !! Z.to_nat b
}.

Lemma got_refl s x : img_ok s -> file_ok (mview s) sb x -> got s x s x 0.
Proof. intros; constructor; auto; [apply ext_refl|lia]. Qed.
Lemma got_trans s x s1 x1 s2 x2 c1 c2 : file_ok (mview s) sb x -> got s x s1 x1 c1 -> got s1 x1 s2 x2 c2 -> got s x s2 x2 (c1 + c2).
Proof.
  intros Hx [A1 A2 A3 A4 A5 A6] [B1 B2 B3 B4 B5 B6]; constructor; auto; [|lia|congruence|intros; by rewrite B6, A6].
  by apply (ext_trans sb demo_flog _ _ (mview s1) x1); [apply mk_layout|..].
Qed.

Section block.
Variables (s : mkst) (x : inode).
Hypothesis Hs : img_ok s.
Hypothesis Hx : file_ok (mview s) sb x.

Lemma next_free : freeblock s < 2000 -> bmap_end sb <= freeblock s < sb_size sb /\ used (mview s) sb (freeblock s) = false.
Proof.
  intros Hf; pose proof (im_free _ Hs); destruct sb_vals as (-> & _ & _ & ->); split; [lia|]; rewrite mview_used by (done || lia); lia.
Qed.

(** A direct block. *)
Lemma got_direct fbn :
  0 <= fbn < 12 -> addr_of fbn x = 0 -> freeblock s < 2000 ->
  let s' := take_next s in let x' := set_addr (Z.to_nat fbn) (freeblock s) x in
  got s x s' x' 1 /\ fblk (mview s') x' fbn = freeblock s.
Proof.
  intros Hb H0 Hf s' x'; destruct (next_free Hf) as [Hr Hu].
  assert (HV : forall b, mview s' b = alloc_view (mview s) sb (freeblock s) b) by (intros b; by apply mview_next).
  destruct (map_direct sb demo_flog (mview s) x (freeblock s) mk_layout (length_mview s Hs) Hx Hr Hu fbn Hb H0) as (F & E & M).
  split; [|by rewrite (fblk_ext_V _ _ _ _ HV)]; constructor; auto.
  - by apply img_ok_next.
  - by eapply file_ok_V.
  - by eapply ext_V_r.
Qed.

(** The indirect block. *)
Lemma got_table :
  addr_of 12 x = 0 -> freeblock s < 2000 ->
  let s' := take_next s in let x' := set_addr 12 (freeblock s) x in
  got s x s' x' 1 /\ addr_of 12 x' = freeblock s /\ forall k, 0 <= k < NBLK -> fblk (mview s') x' k = fblk (mview s) x k.
Proof.
  intros H0 Hf s' x'; destruct (next_free Hf) as [Hr Hu].
  assert (HV : forall b, mview s' b = alloc_view (mview s) sb (freeblock s) b) by (intros b; by apply mview_next).
  destruct (map_table sb demo_flog (mview s) x (freeblock s) mk_layout (length_mview s Hs) Hx Hr Hu H0) as (F & E & A & M).
  split_and!; [|done|intros k Hk; by rewrite (fblk_ext_V _ _ _ _ HV), M]; constructor; auto.
  - by apply img_ok_next.
  - by eapply file_ok_V.
  - by eapply ext_V_r.
Qed.

(** An entry of the indirect block. *)
Lemma got_entry fbn :
  12 <= fbn < NBLK -> addr_of 12 x <> 0 -> fblk (mview s) x fbn = 0 -> freeblock s < 2000 ->
  let ind := addr_of 12 x in
  let s' := put (take_next s) ind (put32 (mview s ind) (Z.to_nat (4 * (fbn - 12))) (freeblock s)) in
  got s x s' x 1 /\ fblk (mview s') x fbn = freeblock s.
Proof.
  intros Hb Hi H0 Hf ind s'; destruct (next_free Hf) as [Hr Hu]; destruct (addr_small _ _ 12 Hx ltac:(lia)) as [|Hind]; [done|].
  pose proof (fl_data _ _ _ Hx ind (owned_ind _ _ Hi)) as [_ Hiu]; rewrite mview_used in Hiu by (done || (unfold ind; lia)).
  pose proof (im_free _ Hs); apply Z.ltb_lt in Hiu; fold ind in Hind.
  assert (Hlen : length (put32 (mview s ind) (Z.to_nat (4 * (fbn - 12))) (freeblock s)) = 1024%nat).
  { unfold put32; rewrite length_splice; [by apply length_mview|]; rewrite length_mview, length_le_encode by done; unfold NBLK in Hb; lia. }
  assert (Hni : mview (take_next s) ind = mview s ind).
  { rewrite mview_next by done; apply (alloc_owned sb demo_flog _ x); auto using mk_layout, length_mview; by apply owned_ind. }
  assert (HV : forall b, mview s' b = upd (alloc_view (mview s) sb (freeblock s)) ind
    (put32 (alloc_view (mview s) sb (freeblock s) ind) (Z.to_nat (4 * (fbn - 12))) (freeblock s)) b).
  { intros b; unfold s'; rewrite mview_put by (by apply img_ok_next || lia); unfold upd; case_decide; [|by apply mview_next].
    by rewrite <- Hni, mview_next. }
  destruct (map_indirect sb demo_flog (mview s) x (freeblock s) mk_layout (length_mview s Hs) Hx Hr Hu fbn Hb Hi H0) as (F & E & M).
  split; [|by rewrite (fblk_ext_V _ _ _ _ HV)]; constructor; auto.
  - apply img_ok_put; [by apply img_ok_next|cbn; lia|done].
  - by eapply file_ok_V.
  - by eapply ext_V_r.
  - intros b Hlt; cbn [img s' put set_img take_next]; by rewrite list_lookup_insert_ne by lia.
Qed.
End block.

(** How many blocks [get_block] takes. *)
Definition block_cost (s : mkst) (x : inode) (fbn : Z) : Z :=
  (if fblk (mview s) x fbn =? 0 then 1 else 0) + (if (12 <=? fbn) && (addr_of 12 x =? 0) then 1 else 0).

(** The indirect block, allocated if need be. *)
Lemma table_run s x fbn :
  img_ok s -> file_ok (mview s) sb x -> 12 <= fbn < NBLK -> freeblock s + block_cost s x fbn <= 2000 ->
  exists s1 x1,
    (if xint (addr_of NDIRECT x) =? 0 then b ← new_block; mret (set_addr (Z.to_nat NDIRECT) (xint b) x) else mret x) s = Made x1 s1 /\
    got s x s1 x1 (if addr_of 12 x =? 0 then 1 else 0) /\ addr_of 12 x1 <> 0 /\ fblk (mview s1) x1 fbn = fblk (mview s) x fbn.
Proof.
  intros Hs Hx Hb Hc; pose proof (im_free _ Hs) as Hf; unfold block_cost in Hc; rewrite (proj2 (Z.leb_le 12 fbn)) in Hc by lia.
  change NDIRECT with 12; destruct (addr_small _ _ 12 Hx ltac:(lia)) as [H0|H0].
  - rewrite H0 in Hc |- *; change (xint 0 =? 0) with true; change (0 =? 0) with true in *; cbn [andb] in Hc.
    assert (Hlt : freeblock s < 2000) by (destruct (fblk (mview s) x fbn =? 0); lia).
    destruct (got_table s x Hs Hx H0 Hlt) as (G & A & M).
    exists (take_next s), (set_addr 12 (freeblock s) x); split; [|split_and!; [done|lia|apply M; lia]].
    rewrite (made_bind _ _ _ _ _ (new_block_run s Hs Hlt)); by rewrite xint_small by lia.
  - rewrite xint_small, (proj2 (Z.eqb_neq (addr_of 12 x) 0)) by lia; exists s, x; split_and!; [done|by apply got_refl|lia|done].
Qed.

Lemma get_block_run s x fbn :
  img_ok s -> file_ok (mview s) sb x -> 0 <= fbn < NBLK -> freeblock s + block_cost s x fbn <= 2000 ->
  exists s' x', get_block fbn x s = Made (fblk (mview s') x' fbn, x') s' /\ got s x s' x' (block_cost s x fbn) /\
    fblk (mview s') x' fbn <> 0.
Proof.
  intros Hs Hx Hb Hc; pose proof (im_free _ Hs) as Hf; unfold get_block; change NDIRECT with 12; destruct (Z.ltb_spec fbn 12) as [Hd|Hd].
  - unfold block_cost in *; rewrite (proj2 (Z.leb_gt 12 fbn)) in * by lia; cbn [andb] in *; rewrite fblk_direct in * by lia.
    destruct (addr_small _ _ fbn Hx ltac:(lia)) as [H0|H0].
    + rewrite H0 in *; change (0 =? 0) with true in *; change (xint 0 =? 0) with true; cbn iota in *.
      destruct (got_direct s x Hs Hx fbn ltac:(lia) H0 ltac:(lia)) as [G M]; exists (take_next s), (set_addr (Z.to_nat fbn) (freeblock s) x).
      erewrite made_bind; [|rewrite (made_bind _ _ _ _ _ (new_block_run s Hs ltac:(lia))); rewrite xint_small by lia; reflexivity].
      rewrite M; rewrite fblk_direct in M by lia; rewrite M, xint_small by lia; split_and!; [done|done|lia].
    + rewrite xint_small, (proj2 (Z.eqb_neq (addr_of fbn x) 0)) by lia; exists s, x; rewrite fblk_direct by lia.
      split_and!; [by rewrite ret_bind, xint_small by lia|by apply got_refl|lia].
  - destruct (table_run s x fbn Hs Hx ltac:(lia) Hc) as (s1 & x1 & Hr1 & G1 & Ha1 & Hm1); rewrite (made_bind _ _ _ _ _ Hr1).
    pose proof (gt_ok _ _ _ _ _ G1) as Hs1; pose proof (gt_file _ _ _ _ _ G1) as Hx1; pose proof (gt_free _ _ _ _ _ G1) as Hf1; pose proof (im_free _ Hs1).
    destruct (addr_small _ _ 12 Hx1 ltac:(lia)) as [|Hi1]; [done|]; rewrite xint_small by lia.
    rewrite (made_bind _ _ _ _ _ (rsect_run s1 Hs1 (addr_of 12 x1) ltac:(lia) ltac:(lia))).
    rewrite <- (fblk_indirect (mview s1) x1 fbn) by (done || lia); unfold block_cost in *; rewrite (proj2 (Z.leb_le 12 fbn)) in * by lia; cbn [andb] in *.
    rewrite <- Hm1 in *; destruct (fblk_small _ _ fbn Hx1 Hb) as [H0|H0].
    + rewrite H0 in *; change (0 =? 0) with true in *; cbn iota in *.
      destruct (got_entry s1 x1 Hs1 Hx1 fbn ltac:(lia) Ha1 H0 ltac:(lia)) as [G2 M]; eexists _, x1; split_and!; [|by rewrite Z.add_comm; eapply got_trans|rewrite M; lia].
      erewrite made_bind; [|rewrite (made_bind _ _ _ _ _ (new_block_run s1 Hs1 ltac:(lia))), xint_small by lia; cbv zeta;
        rewrite (made_bind _ _ _ _ _ (wsect_run _ (img_ok_next s1 Hs1 ltac:(lia)) (addr_of 12 x1) _ ltac:(lia))); reflexivity].
      rewrite M; unfold mret, K_ret; rewrite get32_put32_same by (rewrite length_mview by done; unfold NBLK in Hb; lia).
      by rewrite u32_small, xint_small by lia.
    + rewrite (proj2 (Z.eqb_neq (fblk (mview s1) x1 fbn) 0)) by lia; exists s1, x1; split_and!; [|done|lia].
      rewrite ret_bind; rewrite <- (fblk_indirect (mview s1) x1 fbn) by (done || lia); by rewrite xint_small by lia.
Qed.

(** ** Appending *)

Lemma chg_V_r sb V x V' V2 x' : (forall b, V2 b = V' b) -> chg sb V x V' x' -> chg sb V x V2 x'.
Proof.
  intros H [E1 E2 E5 E6 E7]; split; auto.
  - intros bn Hb H0; rewrite (fblk_ext_V V' V2) by done; by apply E2.
  - intros b Hb Hu; rewrite (used_ext V2 V') by done; by apply E5.
  - intros b Ho; apply E6; by apply (owned_ext_V V' V2).
  - intros b ? ? ?; rewrite H; by apply E7.
Qed.
Lemma wrote_V_r V V' V2 x x' off dn src tot : (forall b, V2 b = V' b) -> wrote_bytes V V' x x' off dn src tot -> wrote_bytes V V2 x x' off dn src tot.
Proof.
  intros H [A B]; split.
  - intros o Ho; rewrite (fblk_ext_V V' V2), (fbyte_ext V' V2) by done; by apply A.
  - intros o Ho Hn Hz; rewrite (fbyte_ext V' V2) by done; by apply B.
Qed.

(** The blocks before [off] are there, and what follows it in them is zero. *)
Definition mapped_to (V : Z -> list Z) (x : inode) (off : Z) : Prop := forall bn, 0 <= bn -> bn * BSIZE < off -> fblk V x bn <> 0.
Definition tail_zero (V : Z -> list Z) (x : inode) (off : Z) : Prop :=
  forall o, off <= o < NBLK * BSIZE -> fblk V x (o / BSIZE) <> 0 -> fbyte V x o = 0.

(** The blocks a file of [n] bytes takes, with its indirect block. *)
Definition blocks (n : Z) : Z := (n + 1023) / 1024 + (if 12 * 1024 <? n then 1 else 0).

Lemma cost_bound s x off n :
  mapped_to (mview s) x off -> 0 <= off -> 0 < n -> off mod BSIZE + n <= BSIZE ->
  block_cost s x (off / BSIZE) <= blocks (off + n) - blocks off.
Proof.
  unfold BSIZE; intros Hm Ho Hn Hb; unfold block_cost, blocks; unfold mapped_to, BSIZE in Hm.
  pose proof (Z.div_mod off 1024 ltac:(lia)) as Hd; pose proof (Z.mod_pos_bound off 1024 ltac:(lia)) as Hr; set (q := off / 1024) in *.
  assert (E1 : (off + n + 1023) / 1024 = q + 1) by (symmetry; apply (Z.div_unique _ _ _ (off mod 1024 + n - 1)); lia).
  assert (E2 : (off + 1023) / 1024 = if off mod 1024 =? 0 then q else q + 1).
  { destruct (Z.eqb_spec (off mod 1024) 0) as [E|E]; symmetry; [apply (Z.div_unique _ _ _ 1023)|apply (Z.div_unique _ _ _ (off mod 1024 - 1))]; lia. }
  rewrite E1, E2; assert (H12 : 12 * 1024 < off -> addr_of 12 x <> 0).
  { intros Hlt Ha; apply (Hm 12); [lia|lia|]; apply fblk_none; [lia|done]. }
  assert (Hq : off mod 1024 <> 0 -> fblk (mview s) x q <> 0) by (intros; apply Hm; lia).
  destruct (Z.eqb_spec (off mod 1024) 0) as [E|E], (Z.eqb_spec (fblk (mview s) x q) 0) as [F|F], (Z.leb_spec 12 q), (Z.eqb_spec (addr_of 12 x) 0),
    (Z.ltb_spec (12 * 1024) off), (Z.ltb_spec (12 * 1024) (off + n)); cbn [andb]; try lia; tauto.
Qed.

Lemma blocks_mono n k : 0 <= n <= k -> blocks n <= blocks k.
Proof.
  intros Hn; unfold blocks; pose proof (Z.div_le_mono (n + 1023) (k + 1023) 1024 ltac:(lia) ltac:(lia)).
  destruct (Z.ltb_spec (12 * 1024) n), (Z.ltb_spec (12 * 1024) k); lia.
Qed.

(** Writing into the block of [off] keeps the rest of the file zero. *)
Lemma tail_step V x V1 x1 d off n :
  tail_zero V x off -> ext sb V x V1 x1 -> file_ok V1 sb x1 -> (forall b, length (V1 b) = 1024%nat) ->
  0 <= off -> 0 < n -> off mod BSIZE + n <= BSIZE -> off + n <= NBLK * BSIZE -> length d = Z.to_nat n ->
  let r := fblk V1 x1 (off / BSIZE) in r <> 0 ->
  tail_zero (upd V1 r (splice (V1 r) (Z.to_nat (off mod BSIZE)) d)) x1 (off + n).
Proof.
  intros Ht He Hx1 Hlen Ho Hn Hb Hsz Hd r Hr o Hoo Hz.
  destruct (write_block sb demo_flog V1 x1 (off / BSIZE) (splice (V1 r) (Z.to_nat (off mod BSIZE)) d) mk_layout Hx1) as (_ & _ & Hmap & Hbyte); [apply blk_range; lia|done|].
  fold r in Hmap, Hbyte; pose proof (blk_range o ltac:(lia)) as Hob; rewrite Hmap in Hz by done; rewrite Hbyte by lia.
  assert (Hv : fbyte V1 x1 o = 0).
  { destruct (decide (fblk V x (o / BSIZE) = 0)) as [E|E].
    - unfold fbyte; rewrite (ex_new _ _ _ _ _ He) by done; unfold get8; rewrite lookup_replicate_2; [done|].
      pose proof (Z.mod_pos_bound o BSIZE eq_refl); unfold BSIZE in *; lia.
    - rewrite (ext_fbyte _ _ _ _ _ o He) by (done || lia); apply Ht; [lia|done]. }
  case_decide as E; [|done]; unfold fbyte in Hv; rewrite E in Hv; fold r in Hv.
  pose proof (Z.mod_pos_bound o BSIZE eq_refl); pose proof (Z.mod_pos_bound off BSIZE eq_refl).
  pose proof (Z.div_mod o BSIZE ltac:(done)); pose proof (Z.div_mod off BSIZE ltac:(done)); unfold BSIZE in *.
  rewrite get8_splice, decide_False by (rewrite Hd; try rewrite Hlen; lia); done.
Qed.

(** What appending [p] at [off] does. *)
Record appended (s : mkst) (x : inode) (s' : mkst) (x' : inode) (off : Z) (p : list Z) : Prop := {
  ap_ok : img_ok s';
  ap_file : file_ok (mview s') sb x';
  ap_chg : chg sb (mview s) x (mview s') x';
  ap_wrote : wrote_bytes (mview s) (mview s') x x' off (Z.of_nat (length p)) p 0;
  ap_tail : tail_zero (mview s') x' (off + Z.of_nat (length p));
  ap_cost : freeblock s <= freeblock s' <= freeblock s + (blocks (off + Z.of_nat (length p)) - blocks off);
  ap_inode : freeinode s' = freeinode s;
  ap_meta b : b < 45 -> img s' !! Z.to_nat b = img s !! Z.to_nat b
}.

Lemma chg_refl sb V x : chg sb V x V x.
Proof. apply ext_chg, ext_refl. Qed.

Lemma appended_nil s x off : img_ok s -> file_ok (mview s) sb x -> tail_zero (mview s) x off -> appended s x s x off [].
Proof.
  intros; constructor; cbn [length]; auto using chg_refl; rewrite ?Z.add_0_r; [|done|lia].
  split; [intros o Ho; cbn in Ho; lia|done].
Qed.

Lemma wrote_drop V V' x x' off dn p m : wrote_bytes V V' x x' off dn (drop m p) 0 -> wrote_bytes V V' x x' off dn p (Z.of_nat m).
Proof.
  intros [A B]; split; [|done]; intros o Ho; destruct (A o Ho) as [A1 A2]; split; [done|]; rewrite A2.
  unfold get8; rewrite lookup_drop; do 2 f_equal; lia.
Qed.

Lemma appended_trans s x s1 x1 s2 x2 off n p :
  file_ok (mview s) sb x -> 0 <= off -> (n <= length p)%nat -> off + Z.of_nat (length p) <= NBLK * BSIZE ->
  appended s x s1 x1 off (take n p) -> appended s1 x1 s2 x2 (off + Z.of_nat n) (drop n p) -> appended s x s2 x2 off p.
Proof.
  intros Hx Ho Hn Hsz [A1 A2 A3 A4 A5 A6 A7 A8] [B1 B2 B3 B4 B5 B6 B7 B8].
  rewrite length_take_le in * by done; rewrite length_drop in *.
  assert (E : off + Z.of_nat n + Z.of_nat (length p - n) = off + Z.of_nat (length p)) by lia; rewrite E in *.
  constructor; auto; [| |lia|congruence|intros; by rewrite B8, A8].
  - by apply (chg_trans sb demo_flog _ _ (mview s1) x1); [apply mk_layout|..].
  - replace (Z.of_nat (length p)) with (Z.of_nat n + Z.of_nat (length p - n)) by lia.
    eapply (wrote_bytes_trans _ (mview s1)); [exact A3|exact B3|lia..| |by rewrite Z.add_0_l; apply wrote_drop].
    destruct A4 as [W1 W2]; split; [|done]; intros o Hoo; destruct (W1 o Hoo) as [W3 W4]; split; [done|]; rewrite W4.
    unfold get8; by rewrite lookup_take_lt by lia.
Qed.

Lemma mapped_appended s x s' x' off p :
  0 <= off -> off + Z.of_nat (length p) <= NBLK * BSIZE -> mapped_to (mview s) x off -> appended s x s' x' off p ->
  mapped_to (mview s') x' (off + Z.of_nat (length p)).
Proof.
  intros Ho Hsz Hm [_ _ A3 [A4 _] _ _ _ _] bn Hb Hlt; destruct (decide (bn * BSIZE < off)) as [H|H].
  - rewrite (ch_map _ _ _ _ _ A3); [by apply Hm|unfold BSIZE, NBLK in *; lia|by apply Hm].
  - destruct (A4 (bn * BSIZE)) as [A5 _]; [lia|]; by rewrite Z.div_mul in A5.
Qed.

(** One turn of the loop: the block at [off], and what goes into it. *)
Lemma turn_run s x off p :
  img_ok s -> file_ok (mview s) sb x -> mapped_to (mview s) x off -> tail_zero (mview s) x off ->
  0 <= off -> (0 < length p)%nat -> off mod BSIZE + Z.of_nat (length p) <= BSIZE -> off + Z.of_nat (length p) <= NBLK * BSIZE ->
  freeblock s + (blocks (off + Z.of_nat (length p)) - blocks off) <= 2000 ->
  exists s1 x1, let r := fblk (mview s1) x1 (off / BSIZE) in
    get_block (off / BSIZE) x s = Made (r, x1) s1 /\ rsect r s1 = Made (mview s1 r) s1 /\
    let d := splice (mview s1 r) (Z.to_nat (off mod BSIZE)) p in
    wsect r d s1 = Made tt (put s1 r d) /\ appended s x (put s1 r d) x1 off p.
Proof.
  intros Hs Hx Hm Ht Ho Hp Hb Hsz Hc; pose proof (blk_range off ltac:(lia)) as Hbn.
  pose proof (cost_bound s x off (Z.of_nat (length p)) Hm Ho ltac:(lia) Hb) as Hcost.
  destruct (get_block_run s x (off / BSIZE) Hs Hx Hbn ltac:(lia)) as (s1 & x1 & R & [G1 G2 G3 G4 G5 G6] & H0).
  exists s1, x1; intros r; fold r in R, H0; destruct (fblk_small _ _ _ G2 Hbn) as [|Hr]; [done|]; fold r in Hr.
  assert (Hu : r < freeblock s1).
  { destruct (fl_data _ _ _ G2 r (owned_blk _ _ _ Hbn H0)) as [_ Hu]; rewrite mview_used in Hu by (done || lia); lia. }
  split; [done|]; split; [apply rsect_run; [done|lia..]|]; intros d; split; [apply wsect_run; [done|lia]|].
  pose proof (length_mview s1 G1) as Hlen; pose proof (Z.mod_pos_bound off BSIZE eq_refl) as Hmod.
  assert (HV : forall b, mview (put s1 r d) b = upd (mview s1) r d b) by (intros b; apply mview_put; [done|lia..]).
  destruct (block_written sb demo_flog (mview s) x (mview s1) x1 off (Z.of_nat (length p)) 0 p mk_layout G2 G3 Hlen) as (F & C & W); auto; try lia.
  pose proof (tail_step (mview s) x (mview s1) x1 p off (Z.of_nat (length p)) Ht G3 G2 Hlen Ho ltac:(lia) Hb Hsz ltac:(lia) H0) as T.
  assert (Hsl : slice p (Z.to_nat 0) (Z.to_nat (Z.of_nat (length p))) = p) by (unfold slice; rewrite Nat2Z.id; change (Z.to_nat 0) with 0%nat; by rewrite drop_0, firstn_all).
  fold r in F, C, W, T; rewrite Hsl in F, C, W; fold d in F, C, W, T; constructor.
  - apply img_ok_put; [done|lia|]; unfold d; rewrite length_splice; [done|]; rewrite Hlen; unfold BSIZE in *; lia.
  - by eapply file_ok_V.
  - eapply chg_V_r; [exact HV|]; apply (chg_trans sb demo_flog _ _ (mview s1) x1); auto using mk_layout, ext_chg.
  - by eapply wrote_V_r.
  - intros o Hoo; rewrite (fblk_ext_V _ _ _ _ HV), (fbyte_ext _ _ _ _ HV); by apply T.
  - assert (0 <= block_cost s x (off / BSIZE)) by (unfold block_cost; do 2 case_match; lia).
    cbn [put set_img freeblock]; lia.
  - done.
  - intros b Hlt; cbn [img put set_img]; rewrite list_lookup_insert_ne by lia; by apply G6.
Qed.

Lemma iappend_loop_run fuel s x off p :
  img_ok s -> file_ok (mview s) sb x -> mapped_to (mview s) x off -> tail_zero (mview s) x off ->
  0 <= off -> (length p <= fuel)%nat -> off + Z.of_nat (length p) <= NBLK * BSIZE ->
  freeblock s + (blocks (off + Z.of_nat (length p)) - blocks off) <= 2000 ->
  exists s' x', iappend_loop fuel p off x s = Made (off + Z.of_nat (length p), x') s' /\ appended s x s' x' off p.
Proof.
  revert s x off p; induction fuel as [|f IH]; intros s x off p Hs Hx Hm Ht Ho Hl Hsz Hc.
  { destruct p; [|cbn in Hl; lia]; exists s, x; split; [cbn; by rewrite Z.add_0_r|by apply appended_nil]. }
  destruct (decide (p = [])) as [->|Hne]; [exists s, x; split; [cbn; by rewrite Z.add_0_r|by apply appended_nil]|].
  assert (Hp : (0 < length p)%nat) by (destruct p; [done|cbn; lia]).
  assert (Hu : iappend_loop (S f) p off x = (
    check (off / BSIZE <? MAXFILE);;
    '(b, din) ← get_block (off / BSIZE) x;
    buf ← rsect b;
    let n1 := Z.min (Z.of_nat (length p)) ((off / BSIZE + 1) * BSIZE - off) in
    wsect b (splice buf (Z.to_nat (off - off / BSIZE * BSIZE)) (take (Z.to_nat n1) p));;
    iappend_loop f (drop (Z.to_nat n1) p) (off + n1) din)) by (by destruct p).
  rewrite Hu; pose proof (Z.div_mod off BSIZE ltac:(done)) as Hd; pose proof (Z.mod_pos_bound off BSIZE eq_refl) as Hr.
  pose proof (blk_range off ltac:(lia)) as Hbn; rewrite (proj2 (Z.ltb_lt _ MAXFILE)) by (change MAXFILE with NBLK; lia).
  replace (off - off / BSIZE * BSIZE) with (off mod BSIZE) by lia; set (n := Z.to_nat (Z.min (Z.of_nat (length p)) ((off / BSIZE + 1) * BSIZE - off))).
  assert (Hn : (0 < n <= length p)%nat) by (unfold n; lia); assert (En : Z.min (Z.of_nat (length p)) ((off / BSIZE + 1) * BSIZE - off) = Z.of_nat n) by (unfold n; lia).
  assert (Hln : length (take n p) = n) by (apply length_take_le; lia).
  assert (Hmono : blocks (off + Z.of_nat n) <= blocks (off + Z.of_nat (length p))) by (apply blocks_mono; lia).
  destruct (turn_run s x off (take n p)) as (s1 & x1 & R1 & R2 & R3 & A1); rewrite ?Hln; auto; try lia.
  assert (Em : mapped_to (mview (put s1 (fblk (mview s1) x1 (off / BSIZE)) (splice (mview s1 (fblk (mview s1) x1 (off / BSIZE))) (Z.to_nat (off mod BSIZE)) (take n p)))) x1 (off + Z.of_nat n)).
  { rewrite <- Hln at 2; eapply mapped_appended; [done|rewrite Hln; lia|exact Hm|exact A1]. }
  set (s2 := put s1 _ _) in *; destruct (IH s2 x1 (off + Z.of_nat n) (drop n p)) as (s' & x' & R & A2); rewrite ?length_drop; auto; try lia.
  - apply (ap_ok _ _ _ _ _ _ A1).
  - apply (ap_file _ _ _ _ _ _ A1).
  - rewrite <- Hln at 1; apply (ap_tail _ _ _ _ _ _ A1).
  - pose proof (ap_cost _ _ _ _ _ _ A1) as HC; rewrite Hln in HC.
    replace (off + Z.of_nat n + Z.of_nat (length p - n)) with (off + Z.of_nat (length p)) by lia; lia.
  - exists s', x'; split; [|by eapply (appended_trans s x s2 x1 s' x' off n p); try done; lia].
    unfold check; rewrite ret_bind, (made_bind _ _ _ _ _ R1), (made_bind _ _ _ _ _ R2); cbv zeta.
    rewrite En, Nat2Z.id, (made_bind _ _ _ _ _ R3); fold s2; rewrite R, length_drop; do 2 f_equal; lia.
Qed.
