(* ===== verification/MkfsNode.v ===== *)
(** * Inodes of the image

    What winode, ialloc and iappend do to the inodes, and the files of an
    image under construction. *)

From S2P Require Import Prelude CMem KString Riscv Kalloc Vm Locks Block Bio BioInv BioSpec Log LogSpec LogCrash Fs FsBase FsAlloc FsInode FsFile FsBmap FsRead FsWrite FsWriteOk Mkfs MkfsInv.

(** ** One inode *)

(** The inode on disk. *)
Definition dino (s : mkst) (i : Z) : inode := read_dinode (mview s (IBLOCK i sb)) (dinode_off i) inode0.

(** The inode blocks have room for 208 inodes. *)
Lemma node_block i : 0 <= i < 208 -> 32 <= IBLOCK i sb < 45.
Proof.
  intros Hi; unfold IBLOCK; destruct sb_vals as (_ & -> & _ & _); change IPB with 16.
  pose proof (Z.div_pos i 16); pose proof (Z.div_lt_upper_bound i 16 13); lia.
Qed.

Definition dput (s : mkst) (i : Z) (x : inode) : mkst :=
  put s (IBLOCK i sb) (write_dinode (mview s (IBLOCK i sb)) (dinode_off i) x).

Section node.
Variables (s : mkst) (i : Z) (x : inode).
Hypothesis Hs : img_ok s.
Hypothesis Hi : 0 <= i < 208.

Lemma rinode_run : rinode i s = Made (dino s i) s.
Proof. pose proof (node_block i Hi); unfold rinode; rewrite (made_bind _ _ _ _ _ (rsect_run s Hs (IBLOCK i sb) ltac:(lia) ltac:(lia))); done. Qed.
Lemma winode_run : winode i x s = Made tt (dput s i x).
Proof.
  pose proof (node_block i Hi); unfold winode; rewrite (made_bind _ _ _ _ _ (rsect_run s Hs (IBLOCK i sb) ltac:(lia) ltac:(lia))).
  apply wsect_run; [done|lia].
Qed.

Hypothesis Hx : inode_ok x.

Lemma dput_ok : img_ok (dput s i x).
Proof.
  pose proof (node_block i Hi); pose proof (im_free _ Hs); pose proof (dinode_off_range i); apply img_ok_put; [done|lia|].
  rewrite length_write_dinode; rewrite ?length_mview by done; [done|lia|apply Hx].
Qed.
Lemma dput_data b : 45 <= b -> mview (dput s i x) b = mview s b.
Proof. intros Hb; pose proof (node_block i Hi); unfold dput; rewrite mview_put by (done || lia); unfold upd; by rewrite decide_False by lia. Qed.
Lemma dput_meta b : 0 <= b < 32 -> img (dput s i x) !! Z.to_nat b = img s !! Z.to_nat b.
Proof. intros Hb; pose proof (node_block i Hi); cbn [img dput put set_img]; by rewrite list_lookup_insert_ne by lia. Qed.
Lemma dput_same : dino (dput s i x) i = with_dinode x inode0.
Proof.
  pose proof (node_block i Hi); unfold dino, dput; rewrite mview_put by (done || lia); unfold upd; rewrite decide_True by done.
  apply read_write_dinode; [done|]; rewrite length_mview by done; apply dinode_off_range.
Qed.
Lemma dput_other j : 0 <= j < 208 -> j <> i -> dino (dput s i x) j = dino s j.
Proof.
  intros Hj Hne; pose proof (node_block i Hi); pose proof (node_block j Hj); unfold dino, dput; rewrite mview_put by (done || lia).
  unfold upd; case_decide as E; [|done]; apply read_dinode_ext; intros k Hk; rewrite E; apply lookup_write_dinode;
    [rewrite length_mview by done; apply dinode_off_range|apply Hx|].
  destruct (dinode_off_disj i j); [unfold IBLOCK in E; lia|lia|lia|lia].
Qed.
End node.

(** ** Files *)

(** Inode [i] is a file of type [t] with content [c]. *)
Record holds (s : mkst) (i t : Z) (c : list Z) : Prop := {
  ho_type : i_type (dino s i) = t;
  ho_nlink : i_nlink (dino s i) = 1;
  ho_size : i_size (dino s i) = Z.of_nat (length c);
  ho_ok : inode_ok (dino s i);
  ho_file : file_ok (mview s) sb (dino s i);
  ho_bytes o : 0 <= o < Z.of_nat (length c) -> fbyte (mview s) (dino s i) o = get8 c (Z.to_nat o);
  ho_tail : tail_zero (mview s) (dino s i) (Z.of_nat (length c))
}.

(** From [s] to [s'] nothing of file [i] has changed. *)
Definition untouched (s s' : mkst) (i : Z) : Prop :=
  dino s' i = dino s i /\ forall b, owned (mview s) (dino s i) b -> mview s' b = mview s b.

Lemma used_keep s s' b : img_ok s -> img_ok s' -> freeblock s <= freeblock s' -> 46 <= b < 2000 ->
  used (mview s) sb b = true -> used (mview s') sb b = true.
Proof. intros Hs Hs' Hf Hb; rewrite !mview_used by (done || lia); lia. Qed.

Lemma holds_keep s s' i t c :
  img_ok s -> img_ok s' -> freeblock s <= freeblock s' -> untouched s s' i -> holds s i t c ->
  holds s' i t c /\ forall b, owned (mview s') (dino s' i) b <-> owned (mview s) (dino s i) b.
Proof.
  intros Hs Hs' Hf [Hd HV] [H1 H2 H3 H4 H5 H6 H7]; destruct (file_same _ _ _ _ H5 HV) as (Hm & Ho & Hb).
  split; [|by rewrite Hd]; constructor; rewrite Hd; auto.
  - eapply file_ok_same; [done|done|]; destruct sb_vals as (-> & _ & _ & ->); eauto using used_keep.
  - intros o Hoo; rewrite Hb by lia; auto.
  - intros o Hoo Hz; rewrite Hm in Hz; unfold fbyte; rewrite Hm, HV; [by apply H7|].
    apply owned_blk; [apply blk_range; lia|done].
Qed.

(** The files of an image under construction, from inode 1 on. *)
Definition need (F : list (Z * list Z)) : Z := foldr (fun f n => blocks (Z.of_nat (length f.2)) + n) 0 F.

Record files (s : mkst) (F : list (Z * list Z)) : Prop := {
  fs_img : img_ok s;
  fs_count : (length F <= 199)%nat;
  fs_next : freeinode s = 1 + Z.of_nat (length F);
  fs_need : freeblock s <= 46 + need F;
  fs_holds k f : F !! k = Some f -> holds s (1 + Z.of_nat k) f.1 f.2;
  fs_disj k j : (k < length F)%nat -> (j < length F)%nat -> k <> j ->
    disjoint_files (mview s) (dino s (1 + Z.of_nat k)) (dino s (1 + Z.of_nat j));
  fs_rest i : 0 <= i < 208 -> (i = 0 \/ 1 + Z.of_nat (length F) <= i) -> i_type (dino s i) = 0;
  fs_super : img s !! 1%nat = Some (splice zeroes 0 sb_bytes);
  fs_log b : 0 <= b < 32 -> b <> 1 -> img s !! Z.to_nat b = Some zeroes
}.

(** A step that changes one file, file [k] of [F'], and leaves the others alone. *)
Lemma files_step s s' F F' k f :
  files s F -> img_ok s' -> (length F' <= 199)%nat -> freeinode s' = 1 + Z.of_nat (length F') -> freeblock s <= freeblock s' <= 46 + need F' ->
  (length F <= length F')%nat -> F' !! k = Some f -> (forall j, j <> k -> F' !! j = F !! j) ->
  holds s' (1 + Z.of_nat k) f.1 f.2 ->
  (forall i, 0 <= i < 208 -> i <> 1 + Z.of_nat k -> dino s' i = dino s i) ->
  (forall j b, (j < length F)%nat -> j <> k -> owned (mview s) (dino s (1 + Z.of_nat j)) b ->
     mview s' b = mview s b /\ ~ owned (mview s') (dino s' (1 + Z.of_nat k)) b) ->
  (forall b, 0 <= b < 32 -> img s' !! Z.to_nat b = img s !! Z.to_nat b) -> files s' F'.
Proof.
  intros HF Hs' HcF Hn Hf Hlen Hk Hoth Hh Hd Hown Hmeta; destruct HF as [A1 A2 A3 A4 A5 A6 A7 A8 A9].
  assert (Hlt : forall j, (j < length F')%nat -> j <> k -> (j < length F)%nat).
  { intros j Hj Hne; apply lookup_lt_is_Some; rewrite <- Hoth by done; by apply lookup_lt_is_Some. }
  assert (Hkeep : forall j, (j < length F)%nat -> j <> k -> exists g, F !! j = Some g /\ holds s' (1 + Z.of_nat j) g.1 g.2 /\
    forall b, owned (mview s') (dino s' (1 + Z.of_nat j)) b <-> owned (mview s) (dino s (1 + Z.of_nat j)) b).
  { intros j Hj Hne; destruct (lookup_lt_is_Some_2 F j Hj) as [g Hg]; exists g; split; [done|].
    apply (holds_keep s); [done|done|lia| |by apply A5]; split; [apply Hd; lia|]; intros b Hb; by apply (Hown j). }
  constructor; auto.
  - lia.
  - intros j g Hg; destruct (decide (j = k)) as [->|Hne]; [congruence|]; rewrite Hoth in Hg by done.
    destruct (Hkeep j (lookup_lt_Some _ _ _ Hg) Hne) as (g' & Hg' & Hh' & _); congruence.
  - intros j j' Hj Hj' Hne b Hb Hb'; destruct (decide (j = k)) as [->|Hjk], (decide (j' = k)) as [->|Hjk']; [done|..].
    + destruct (Hkeep j' (Hlt _ Hj' Hjk') Hjk') as (_ & _ & _ & Ho); by destruct (Hown j' b (Hlt _ Hj' Hjk') Hjk' (proj1 (Ho b) Hb)).
    + destruct (Hkeep j (Hlt _ Hj Hjk) Hjk) as (_ & _ & _ & Ho); by destruct (Hown j b (Hlt _ Hj Hjk) Hjk (proj1 (Ho b) Hb')).
    + destruct (Hkeep j (Hlt _ Hj Hjk) Hjk) as (_ & _ & _ & Ho), (Hkeep j' (Hlt _ Hj' Hjk') Hjk') as (_ & _ & _ & Ho').
      apply Ho in Hb'; apply Ho' in Hb; by apply (A6 j j' (Hlt _ Hj Hjk) (Hlt _ Hj' Hjk') Hne b).
  - intros i Hi Hor; pose proof (lookup_lt_Some _ _ _ Hk); rewrite Hd by lia; apply A7; lia.
  - rewrite <- A8; apply (Hmeta 1); lia.
  - intros b Hb Hb1; rewrite Hmeta by lia; by apply A9.
Qed.

(** ** ialloc *)

(** The inode ialloc writes. *)
Definition new_inode (type : Z) : inode := Inode 0 0 0 (i_lock inode0) 0 type 0 0 1 0 (replicate 13 0).

Lemma new_inode_fblk V t bn : fblk V (new_inode t) bn = 0.
Proof.
  unfold fblk; replace (addr_of NDIRECT (new_inode t)) with 0 by done.
  destruct (bn <? NDIRECT); [|done]; unfold addr_of, new_inode; cbn [i_addrs].
  destruct (replicate 13 0 !! Z.to_nat bn) eqn:E; [|done]; by apply lookup_replicate in E as [-> _].
Qed.
Lemma new_inode_file V t : file_ok V sb (new_inode t).
Proof.
  split; [done| |intros bn bn' _ _ H; by rewrite new_inode_fblk in H|intros bn _ H; by rewrite new_inode_fblk in H|done|cbn; intros; unfold BSIZE in *; lia].
  intros b [H0 [->|(bn & _ & <-)]]; [done|by rewrite new_inode_fblk in H0].
Qed.

Lemma need_app F G : need (F ++ G) = need F + need G.
Proof. unfold need; induction F as [|f F IH]; cbn [app foldr]; [done|rewrite IH; lia]. Qed.

Lemma ialloc_run s F t :
  files s F -> (length F < 199)%nat -> 0 <= t < 2 ^ 15 ->
  exists s', ialloc t s = Made (1 + Z.of_nat (length F)) s' /\ files s' (F ++ [(t, [])]).
Proof.
  intros HF Hlt Ht; pose proof (fs_img _ _ HF) as Hs; pose proof (fs_next _ _ HF) as Hn; set (i := 1 + Z.of_nat (length F)).
  set (s0 := Mk (img s) (i + 1) (freeblock s)); assert (Hs0 : img_ok s0) by (destruct Hs; by constructor).
  assert (Hok : inode_ok (new_inode t)).
  { split; cbn [new_inode i_type i_major i_minor i_nlink i_size i_addrs]; try lia; [apply length_replicate|]; apply Forall_replicate; lia. }
  assert (Hi : 0 <= i < 208) by (unfold i; lia); pose proof (dput_same s0 i (new_inode t) Hs0 Hi Hok) as Hsame.
  change (with_dinode (new_inode t) inode0) with (new_inode t) in Hsame.
  exists (dput s0 i (new_inode t)); split.
  { unfold ialloc, mbind, K_bind, getk, modk at 1; rewrite Hn, u32_small by lia.
    rewrite xshort_small by lia; change (winode _ _ _) with (winode i (new_inode t) s0); by rewrite winode_run. }
  eapply (files_step s _ F _ (length F)); [exact HF|by apply dput_ok|rewrite length_app; cbn; lia|rewrite length_app; cbn [freeinode dput put set_img s0 length]; lia|..].
  - pose proof (fs_need _ _ HF); rewrite need_app; cbn [freeblock dput put set_img s0]; change (need [(t, [])]) with 0; lia.
  - rewrite length_app; lia.
  - by rewrite list_lookup_middle.
  - intros j Hj; destruct (decide (j < length F)%nat); [by apply lookup_app_l|]; rewrite !lookup_ge_None_2; [done|lia|rewrite length_app; cbn; lia].
  - fold i; cbn [fst snd]; constructor; rewrite Hsame; [done..|exact Hok|apply new_inode_file|cbn; intros; lia|].
    intros o _ Hz; by rewrite new_inode_fblk in Hz.
  - fold i; intros j Hj Hne; by rewrite dput_other.
  - fold i; intros j b Hj Hne Hb; split.
    + apply (fun H => dput_data s0 i (new_inode t) Hs0 Hi b H).
      destruct (lookup_lt_is_Some_2 F j Hj) as [g Hg]; destruct (fl_data _ _ _ (ho_file _ _ _ _ (fs_holds _ _ HF j g Hg)) b Hb) as [Hr _].
      destruct sb_vals as (_ & _ & _ & He); lia.
    + rewrite Hsame; intros [H0 [->|(bn & _ & <-)]]; [done|by rewrite new_inode_fblk in H0].
  - intros b Hb; by rewrite dput_meta.
Qed.

(** ** iappend *)

Lemma need_insert F k f g : F !! k = Some f ->
  need (<[k := g]> F) = need F + (blocks (Z.of_nat (length g.2)) - blocks (Z.of_nat (length f.2))).
Proof.
  revert k; induction F as [|h F IH]; intros [|k] Hk; try done; cbn in Hk |- *; [injection Hk as ->; lia|].
  change (foldr _ 0 (<[k:=g]> F)) with (need (<[k := g]> F)); rewrite (IH k Hk); unfold need; lia.
Qed.

Lemma inode_ok_resize V x x' z :
  inode_ok x -> same_meta x x' -> file_ok V sb x' -> 0 <= z < 2 ^ 32 -> inode_ok (set_size z x').
Proof.
  intros Hx (_ & _ & _ & _ & _ & E1 & E2 & E3 & E4 & _) Hx' Hz; destruct Hx as [H1 H2 H3 H4 _ _ _].
  split; cbn [i_type i_major i_minor i_nlink i_size i_addrs set_size]; rewrite ?E1, ?E2, ?E3, ?E4; auto; [apply (fl_len _ _ _ Hx')|].
  apply Forall_lookup; intros k a Hk; pose proof (lookup_lt_Some _ _ _ Hk) as Hl; rewrite (fl_len _ _ _ Hx') in Hl.
  destruct (addr_small V x' (Z.of_nat k) Hx') as [H|H]; [lia| |]; unfold addr_of in H; rewrite Nat2Z.id, Hk in H; cbn in H; lia.
Qed.

(** A file the change of another does not reach. *)
Lemma chg_owned V x V' x' y b :
  chg sb V x V' x' -> file_ok V sb y -> disjoint_files V x y -> owned V y b -> V' b = V b /\ ~ owned V' x' b.
Proof.
  intros Hc Hy Hd Hb; destruct (fl_data _ _ _ Hy b Hb) as [Hr Hu]; split.
  - apply (ch_frame _ _ _ _ _ Hc); [unfold is_bmap; lia|by apply Hd|auto].
  - intros Ho; destruct (ch_own _ _ _ _ _ Hc b Ho) as [?|[_ ?]]; [by apply (Hd b)|congruence].
Qed.

Lemma mapped_byte V x off o : mapped_to V x off -> 0 <= o < off -> fblk V x (o / BSIZE) <> 0.
Proof. intros Hm Ho; apply Hm; [apply Z.div_pos; [lia|done]|]; pose proof (Z.mul_div_le o BSIZE eq_refl); lia. Qed.

Lemma get8_zeros n o : get8 (replicate n 0) o = 0.
Proof. unfold get8; destruct (replicate n 0 !! o) eqn:E; [|done]; by apply lookup_replicate in E as [-> _]. Qed.

Lemma node_range s F k f : files s F -> F !! k = Some f -> 0 <= 1 + Z.of_nat k < 208.
Proof. intros HF Hk; pose proof (fs_count _ _ HF); pose proof (lookup_lt_Some _ _ _ Hk); lia. Qed.

Section append.
Variables (s : mkst) (F : list (Z * list Z)) (k : nat) (t : Z) (c p : list Z) (m : nat) (s1 : mkst) (x1 : inode).
Hypothesis HF : files s F.
Hypothesis Hk : F !! k = Some (t, c).
Hypothesis HA : appended s (dino s (1 + Z.of_nat k)) s1 x1 (Z.of_nat (length c)) p.
#[local] Abbreviation i := (1 + Z.of_nat k).
#[local] Abbreviation c' := (c ++ p ++ replicate m 0).
#[local] Abbreviation n' := (Z.of_nat (length (c ++ p ++ replicate m 0))).
Hypothesis Hm : mapped_to (mview s1) x1 n'.
Hypothesis Hn : n' <= NBLK * BSIZE.

Lemma new_bytes o : 0 <= o < n' -> fbyte (mview s1) x1 o = get8 c' (Z.to_nat o).
Proof.
  intros Ho; pose proof (fs_holds _ _ HF k _ Hk) as Hh; cbn [fst snd] in Hh; pose proof (ho_file _ _ _ _ Hh) as Hx.
  destruct (ap_wrote _ _ _ _ _ _ HA) as [W1 W2]; rewrite !length_app, length_replicate in Ho.
  destruct (decide (o < Z.of_nat (length c))) as [H1|H1]; [|destruct (decide (o < Z.of_nat (length c) + Z.of_nat (length p))) as [H2|H2]].
  - rewrite get8_app_l by lia; rewrite <- (ho_bytes _ _ _ _ Hh) by lia; apply W2.
    + rewrite !length_app, length_replicate in Hn; lia.
    + lia.
    + apply (mapped_byte _ _ (Z.of_nat (length c))); [rewrite <- (ho_size _ _ _ _ Hh); exact (fl_mapped _ _ _ Hx)|lia].
  - destruct (W1 o ltac:(lia)) as [_ ->]; rewrite get8_app_r, get8_app_l by lia; f_equal; lia.
  - rewrite !get8_app_r, get8_zeros by lia; apply (ap_tail _ _ _ _ _ _ HA).
    + rewrite !length_app, length_replicate in Hn; lia.
    + apply (mapped_byte _ _ n'); [done|]; rewrite !length_app, length_replicate; lia.
Qed.

Lemma resize_run : let s' := dput s1 i (set_size n' x1) in
  holds s' i t c' /\ dino s' i = set_size n' x1 /\ forall b, owned (mview s') (dino s' i) b <-> owned (mview s1) x1 b.
Proof.
  intros s'; pose proof (fs_holds _ _ HF k _ Hk) as Hh; cbn [fst snd] in Hh; pose proof (node_range _ _ _ _ HF Hk) as Hi.
  pose proof (ch_meta _ _ _ _ _ (ap_chg _ _ _ _ _ _ HA)) as Hmeta; pose proof (ap_file _ _ _ _ _ _ HA) as Hx1.
  assert (Hok : inode_ok (set_size n' x1)) by (eapply inode_ok_resize; [exact (ho_ok _ _ _ _ Hh)|done|done|unfold NBLK, BSIZE in Hn; lia]).
  assert (Hd : dino s' i = set_size n' x1).
  { unfold s'; rewrite dput_same by (done || apply (ap_ok _ _ _ _ _ _ HA)); destruct Hmeta as (E1 & E2 & E3 & E4 & E5 & _).
    unfold with_dinode, set_size; cbn [i_type i_major i_minor i_nlink i_size i_addrs]; by rewrite E1, E2, E3, E4, E5. }
  destruct (file_ok_meta (mview s1) (mview s') sb demo_flog x1 mk_layout) as (F1 & F2 & F3 & F4); [|done|].
  { destruct sb_vals as (_ & _ & -> & _); intros b Hb; apply dput_data; [apply (ap_ok _ _ _ _ _ _ HA)|done|lia]. }
  split; [|split; [done|]; intros b; rewrite Hd; apply F2]; constructor; rewrite Hd; auto.
  - cbn [i_type set_size]; destruct Hmeta as (_ & _ & _ & _ & _ & -> & _); apply (ho_type _ _ _ _ Hh).
  - cbn [i_nlink set_size]; destruct Hmeta as (_ & _ & _ & _ & _ & _ & _ & _ & -> & _); apply (ho_nlink _ _ _ _ Hh).
  - apply file_ok_size; [done|lia|]; intros bn H1 H2; rewrite F4; by apply Hm.
  - intros o Ho; change (fbyte (mview s') (set_size n' x1) o) with (fbyte (mview s') x1 o); rewrite F3; [by apply new_bytes|lia|by apply (mapped_byte _ _ n')].
  - intros o Ho Hz; change (fblk (mview s') x1 (o / BSIZE) <> 0) in Hz; rewrite F4 in Hz.
    change (fbyte (mview s') x1 o = 0); rewrite F3; [|lia|done]; apply (ap_tail _ _ _ _ _ _ HA); [|done].
    rewrite !length_app in Ho; lia.
Qed.

Lemma files_resize : freeblock s1 <= 46 + need (<[k := (t, c')]> F) ->
  files (dput s1 i (set_size n' x1)) (<[k := (t, c')]> F).
Proof.
  intros Hc; destruct resize_run as (R1 & R2 & R3); pose proof (node_range _ _ _ _ HF Hk) as Hi; pose proof (ap_ok _ _ _ _ _ _ HA) as Hs1.
  pose proof (fs_holds _ _ HF k _ Hk) as Hh; cbn [fst snd] in Hh.
  assert (Hok : inode_ok (set_size n' x1)) by (rewrite <- R2; apply R1).
  eapply (files_step s _ F _ k); [exact HF|by apply dput_ok|..]; rewrite ?length_insert.
  - apply HF.
  - cbn [freeinode dput put set_img]; rewrite (ap_inode _ _ _ _ _ _ HA); apply HF.
  - pose proof (ap_cost _ _ _ _ _ _ HA); cbn [freeblock dput put set_img]; lia.
  - done.
  - apply list_lookup_insert_eq; by eapply lookup_lt_Some.
  - intros j Hj; by rewrite list_lookup_insert_ne.
  - done.
  - intros j Hj Hne; rewrite dput_other by done; unfold dino; pose proof (node_block j Hj); f_equal.
    unfold mview; rewrite (proj2 (Z.eqb_neq _ 45)), (proj2 (Z.ltb_ge _ 0)) by lia; by rewrite (ap_meta _ _ _ _ _ _ HA) by lia.
  - intros j b Hj Hne Hb; destruct (lookup_lt_is_Some_2 F j Hj) as [g Hg]; pose proof (ho_file _ _ _ _ (fs_holds _ _ HF j g Hg)) as Hy.
    destruct (chg_owned _ _ _ _ _ b (ap_chg _ _ _ _ _ _ HA) Hy) as [E1 E2]; [|done|].
    { apply (fs_disj _ _ HF); [by eapply lookup_lt_Some|done|done]. }
    split; [|by rewrite R3]; rewrite dput_data; [done|done|done|].
    destruct (fl_data _ _ _ Hy b Hb) as [Hr _]; destruct sb_vals as (_ & _ & _ & He); lia.
  - intros b Hb; rewrite dput_meta by done; apply (ap_meta _ _ _ _ _ _ HA); lia.
Qed.
End append.

Lemma iappend_run s F k t c p :
  files s F -> F !! k = Some (t, c) -> Z.of_nat (length (c ++ p)) <= NBLK * BSIZE -> 46 + need (<[k := (t, c ++ p)]> F) <= 2000 ->
  exists s', iappend (1 + Z.of_nat k) p s = Made tt s' /\ files s' (<[k := (t, c ++ p)]> F).
Proof.
  intros HF Hk Hn Hc; pose proof (fs_holds _ _ HF k _ Hk) as Hh; cbn [fst snd] in Hh; pose proof (ho_file _ _ _ _ Hh) as Hx.
  assert (Hm : mapped_to (mview s) (dino s (1 + Z.of_nat k)) (Z.of_nat (length c))) by (rewrite <- (ho_size _ _ _ _ Hh); exact (fl_mapped _ _ _ Hx)).
  pose proof (node_range _ _ _ _ HF Hk) as Hi; pose proof (fs_img _ _ HF) as Hs; pose proof (fs_need _ _ HF) as Hf.
  rewrite (need_insert _ _ _ _ Hk) in Hc; cbn [snd] in Hc; rewrite length_app, Nat2Z.inj_add in Hc, Hn.
  destruct (iappend_loop_run (length p) s (dino s (1 + Z.of_nat k)) (Z.of_nat (length c)) p) as (s1 & x1 & R & A);[done|done|done|apply Hh|lia|done|lia|lia|]. 
  pose proof (mapped_appended _ _ _ _ (Z.of_nat (length c)) _ ltac:(lia) Hn Hm A) as Hm1.
  exists (dput s1 (1 + Z.of_nat k) (set_size (Z.of_nat (length (c ++ p ++ replicate 0 0))) x1)); split.
  - unfold iappend; rewrite (made_bind _ _ _ _ _ (rinode_run s _ Hs Hi)).
    rewrite (ho_size _ _ _ _ Hh), xint_small by (unfold NBLK, BSIZE in *; lia); rewrite (made_bind _ _ _ _ _ R).
    rewrite xint_small by (unfold NBLK, BSIZE in *; lia); rewrite winode_run by (done || apply A).
    by rewrite app_nil_r, length_app, Nat2Z.inj_add.
  - replace (c ++ p) with (c ++ p ++ replicate 0 0) by (by rewrite app_nil_r).
    apply (files_resize s F k t c p 0 s1 x1); auto; rewrite app_nil_r, ?length_app, ?Nat2Z.inj_add; [done|done|].
    rewrite (need_insert _ _ _ _ Hk); cbn [snd]; rewrite length_app, Nat2Z.inj_add; pose proof (ap_cost _ _ _ _ _ _ A); lia.
Qed.
