(* ===== verification/MkfsOk.v ===== *)
(** * Correctness of mkfs *)

From S2P Require Import Prelude CMem KString Riscv Kalloc Vm Locks Block Bio BioInv BioSpec Log LogSpec LogCrash Fs FsBase FsAlloc FsInode FsFile FsBmap FsRead FsWrite FsWriteOk FsDir Mkfs MkfsInv MkfsNode.

(** ** The empty image *)

Lemma clear_image_run n i s :
  length (img s) = Z.to_nat i -> 0 <= i -> clear_image n i s = Made tt (set_img (img s ++ replicate n zeroes) s).
Proof.
  revert i s; induction n as [|n IH]; intros i s Hl Hi; [cbn; rewrite app_nil_r; by destruct s|]; cbn [clear_image].
  assert (E : wsect i zeroes s = Made tt (set_img (img s ++ [zeroes]) s)).
  { unfold wsect, modk; rewrite (proj2 (Nat.ltb_ge _ _)) by lia; by rewrite Hl, Nat.sub_diag. }
  rewrite (made_bind _ _ _ _ _ E), IH; cbn [img set_img freeinode freeblock]; [by rewrite <- app_assoc|rewrite length_app; cbn; lia|lia].
Qed.

(** The image when only the superblock is on it. *)
Definition empty_image : mkst := Mk (<[1%nat := splice zeroes 0 sb_bytes]> (replicate 2000 zeroes)) 1 46.

Lemma empty_other b : b <> 1%nat -> (b < 2000)%nat -> img empty_image !! b = Some zeroes.
Proof. intros Hne Hb; unfold empty_image; cbn [img]; rewrite list_lookup_insert_ne by done; by apply lookup_replicate_2. Qed.

Lemma le_decode_zeros n : le_decode (replicate n 0) = 0.
Proof. induction n as [|n IH]; cbn; [done|by rewrite IH]. Qed.
Lemma zeroes_type o : i_type (read_dinode zeroes o inode0) = 0.
Proof.
  cbn [i_type read_dinode]; unfold get16, slice, zeroes; rewrite drop_replicate, take_replicate.
  by rewrite le_decode_zeros.
Qed.

Lemma empty_files : files empty_image [].
Proof.
  constructor; cbn [length]; try done; try lia.
  - constructor; cbn [img freeblock empty_image]; [by rewrite length_insert, length_replicate| |done|].
    + intros b d; rewrite list_lookup_insert_Some; intros [(_ & <- & _)|[_ [-> _]%lookup_replicate]]; done.
    + intros b Hb; apply empty_other; lia.
  - intros i Hi _; pose proof (node_block i Hi); unfold dino.
    replace (mview empty_image (IBLOCK i sb)) with zeroes; [apply zeroes_type|]; unfold mview.
    rewrite (proj2 (Z.eqb_neq _ 45)), (proj2 (Z.ltb_ge _ 0)) by lia; by rewrite empty_other by lia.
  - intros b Hb Hne; apply empty_other; lia.
Qed.

(** ** The files *)

Definition mkfile : Type := (list Z * option (list (list Z)))%type.
Definition short (f : mkfile) : list Z := strip_underscore (strip_user f.1).
Definition content (f : mkfile) : list Z := concat (default [] f.2).

(** A file mkfs accepts. *)
Definition good (f : mkfile) : bool :=
  bool_decide (is_Some f.2) && negb (existsb (Z.eqb ch_slash) (strip_user f.1)) && (Z.of_nat (length (short f)) <=? 14) &&
  (Z.of_nat (length (content f)) <=? NBLK * BSIZE).

Fixpoint entries (i : Z) (fs : list mkfile) : list Z :=
  match fs with
  | [] => []
  | f :: fs' => dirent i (short f) ++ entries (i + 1) fs'
  end.
Definition dots : list Z := dirent 1 (str ".") ++ dirent 1 (str "..").
Definition nodes (fs : list mkfile) : list (Z * list Z) := (fun f => (T_FILE, content f)) <$> fs.

Lemma length_dirent_mk i n : length (dirent i n) = 16%nat.
Proof. unfold dirent; rewrite length_app, length_le_encode, length_take, length_app, length_replicate; lia. Qed.
Lemma length_entries i fs : length (entries i fs) = (16 * length fs)%nat.
Proof. revert i; induction fs as [|f fs IH]; intros i; cbn [entries length]; [done|rewrite length_app, length_dirent_mk, IH; lia]. Qed.

Lemma blocks_nonneg n : 0 <= n -> 0 <= blocks n.
Proof. intros Hn; apply (blocks_mono 0 n); lia. Qed.
Lemma need_nonneg F : 0 <= need F.
Proof. induction F as [|f F IH]; cbn; [done|]; pose proof (blocks_nonneg (Z.of_nat (length f.2))); unfold need in IH; lia. Qed.
Lemma need_cons f F : need (f :: F) = blocks (Z.of_nat (length f.2)) + need F.
Proof. done. Qed.

Lemma check_bind {B} (k : unit -> K B) s : (check true ≫= k) s = k tt s.
Proof. done. Qed.

Lemma copy_file_run chunks s F k t c :
  files s F -> F !! k = Some (t, c) -> Z.of_nat (length (c ++ concat chunks)) <= NBLK * BSIZE ->
  46 + need (<[k := (t, c ++ concat chunks)]> F) <= 2000 ->
  exists s', copy_file (1 + Z.of_nat k) chunks s = Made tt s' /\ files s' (<[k := (t, c ++ concat chunks)]> F).
Proof.
  revert s F c; induction chunks as [|p chunks IH]; intros s F c HF Hk Hn Hc; cbn [concat copy_file] in *.
  { exists s; split; [done|]; by rewrite app_nil_r, list_insert_id. }
  rewrite app_assoc in Hn, Hc |- *; rewrite (need_insert _ _ _ _ Hk) in Hc; cbn [snd] in Hc.
  assert (Hmono : blocks (Z.of_nat (length (c ++ p))) <= blocks (Z.of_nat (length ((c ++ p) ++ concat chunks)))) by (apply blocks_mono; rewrite (length_app (c ++ p)); lia).
  destruct (iappend_run s F k t c p HF Hk) as (s1 & R1 & HF1); [rewrite (length_app (c ++ p)) in Hn; lia|rewrite (need_insert _ _ _ _ Hk); cbn [snd]; lia|].
  assert (Hk1 : <[k := (t, c ++ p)]> F !! k = Some (t, c ++ p)) by (apply list_lookup_insert_eq; by eapply lookup_lt_Some).
  destruct (IH s1 _ (c ++ p) HF1 Hk1 Hn) as (s2 & R2 & HF2).
  { rewrite list_insert_insert_eq, (need_insert _ _ _ _ Hk); cbn [snd]; lia. }
  rewrite list_insert_insert_eq in HF2; exists s2; split; [by rewrite (made_bind _ _ _ _ _ R1)|done].
Qed.

Lemma insert_last {A} (h x y : A) l : <[S (length l) := y]> (h :: l ++ [x]) = h :: l ++ [y].
Proof. change (h :: <[length l := y]> (l ++ [x]) = h :: l ++ [y]); by rewrite insert_app_r_alt, Nat.sub_diag. Qed.

Lemma add_file_run s c G f :
  files s ((T_DIR, c) :: G) -> good f = true -> (S (length G) < 199)%nat ->
  let F' := (T_DIR, c ++ dirent (2 + Z.of_nat (length G)) (short f)) :: G ++ [(T_FILE, content f)] in
  Z.of_nat (length c + 16) <= NBLK * BSIZE -> 46 + need F' <= 2000 ->
  exists s', add_file f s = Made tt s' /\ files s' F'.
Proof.
  intros HF Hg Hl F' Hn Hc; unfold F' in *; clear F'; unfold good in Hg; repeat (apply andb_true_iff in Hg as [Hg ?]).
  apply bool_decide_eq_true in Hg as [chunks Hch]; unfold add_file; rewrite H1, check_bind, Hch.
  assert (Hcont : content f = concat chunks) by (unfold content; by rewrite Hch); rewrite Hcont in *.
  fold (short f); change DIRSIZ with 14; rewrite H0, check_bind.
  destruct (ialloc_run s _ T_FILE HF Hl ltac:(by vm_compute)) as (s1 & R1 & HF1); rewrite (made_bind _ _ _ _ _ R1).
  cbn [length app] in *; replace (1 + Z.of_nat (S (length G))) with (2 + Z.of_nat (length G)) in * by lia.
  set (e := dirent _ _) in *; rewrite need_cons, need_app in Hc; cbn [snd] in Hc.
  assert (He : length (c ++ e) = (length c + 16)%nat) by (unfold e; by rewrite length_app, length_dirent_mk).
  pose proof (need_nonneg [(T_FILE, concat chunks)]) as Hnn.
  destruct (iappend_run s1 ((T_DIR, c) :: G ++ [(T_FILE, [])]) 0 T_DIR c e HF1 eq_refl) as (s2 & R2 & HF2).
  { rewrite He; lia. }
  { change (<[0%nat := (T_DIR, c ++ e)]> ((T_DIR, c) :: G ++ [(T_FILE, [])])) with ((T_DIR, c ++ e) :: G ++ [(T_FILE, [])]).
    rewrite need_cons, need_app; cbn [snd]; change (need [(T_FILE, [])]) with 0; lia. }
  change (1 + Z.of_nat 0) with ROOTINO in R2; rewrite (made_bind _ _ _ _ _ R2).
  change (<[0%nat := (T_DIR, c ++ e)]> ((T_DIR, c) :: G ++ [(T_FILE, [])])) with ((T_DIR, c ++ e) :: G ++ [(T_FILE, [])]) in HF2.
  destruct (copy_file_run chunks s2 _ (S (length G)) T_FILE [] HF2) as (s3 & R3 & HF3).
  - cbn; by apply list_lookup_middle.
  - cbn [app]; lia.
  - cbn [app]; rewrite need_insert with (f := (T_FILE, [])) by (cbn; by apply list_lookup_middle); rewrite need_cons, need_app; cbn [snd].
    change (need [(T_FILE, [])]) with 0; change (blocks (Z.of_nat (length []))) with 0.
    unfold need in Hc at 2; cbn [foldr snd] in Hc; cbn [length]; change (blocks 0) with 0; lia.
  - exists s3; replace (1 + Z.of_nat (S (length G))) with (2 + Z.of_nat (length G)) in R3 by lia; split; [done|].
    cbn [app] in HF3.
    by rewrite insert_last in HF3.
Qed.

Lemma add_files_run fs s c G :
  files s ((T_DIR, c) :: G) -> Forall (fun f => good f = true) fs -> (S (length G) + length fs <= 199)%nat ->
  let F' := (T_DIR, c ++ entries (2 + Z.of_nat (length G)) fs) :: G ++ nodes fs in
  Z.of_nat (length c + 16 * length fs) <= NBLK * BSIZE -> 46 + need F' <= 2000 ->
  exists s', add_files fs s = Made tt s' /\ files s' F'.
Proof.
  revert s c G; induction fs as [|f fs IH]; intros s c G HF Hg Hl F' Hn Hc.
  { exists s; split; [done|]; unfold F'; cbn; by rewrite !app_nil_r. }
  apply Forall_cons in Hg as [Hgf Hg]; unfold F' in *; clear F'; cbn [entries length] in *; set (e := dirent _ _) in *.
  replace (2 + Z.of_nat (length G) + 1) with (2 + Z.of_nat (length (G ++ [(T_FILE, content f)]))) in * by (rewrite length_app; cbn [length]; lia).
  change (nodes (f :: fs)) with ([(T_FILE, content f)] ++ nodes fs) in *; rewrite (app_assoc G) in *; rewrite (app_assoc c) in *.
  set (es := entries _ fs) in *; assert (He : length e = 16%nat) by apply length_dirent_mk.
  destruct (add_file_run s c G f HF Hgf) as (s1 & R1 & HF1); [lia|lia| |].
  { fold e; rewrite need_cons, (need_app _ (nodes fs)) in Hc; rewrite need_cons; cbn [snd] in *; pose proof (need_nonneg (nodes fs)).
    pose proof (blocks_mono (Z.of_nat (length (c ++ e))) (Z.of_nat (length ((c ++ e) ++ es)))); rewrite (length_app (c ++ e)) in *; lia. }
  destruct (IH s1 _ _ HF1 Hg) as (s2 & R2 & HF2); [rewrite length_app; cbn [length]; lia|rewrite length_app; fold e; lia|done|].
  exists s2; split; [cbn [add_files]; by rewrite (made_bind _ _ _ _ _ R1)|done].
Qed.

Lemma make_root_run : exists s, make_root empty_image = Made tt s /\ files s [(T_DIR, dots)].
Proof.
  destruct (ialloc_run empty_image [] T_DIR empty_files) as (s1 & R1 & H1); [cbn; lia|by vm_compute|].
  destruct (iappend_run s1 _ 0 T_DIR [] (dirent 1 (str ".")) H1 eq_refl) as (s2 & R2 & H2); [by vm_compute|by vm_compute|].
  destruct (iappend_run s2 _ 0 T_DIR (dirent 1 (str ".")) (dirent 1 (str "..")) H2 eq_refl) as (s3 & R3 & H3); [by vm_compute|by vm_compute|].
  exists s3; split; [|exact H3]; unfold make_root; rewrite (made_bind _ _ _ _ _ R1).
  change (1 + Z.of_nat (length []) =? ROOTINO) with true; rewrite check_bind; by rewrite (made_bind _ _ _ _ _ R2).
Qed.

(** The size of the root directory, up to a block. *)
Definition round_up (n : Z) : Z := (n / BSIZE + 1) * BSIZE.

Lemma round_blocks n : 0 <= n -> n mod BSIZE <> 0 -> blocks (round_up n) = blocks n.
Proof.
  unfold round_up, blocks, BSIZE; intros Hn Hm; pose proof (Z.div_mod n 1024 ltac:(lia)) as Hd; pose proof (Z.mod_pos_bound n 1024 ltac:(lia)).
  assert (E : (n + 1023) / 1024 = n / 1024 + 1) by (symmetry; apply (Z.div_unique _ _ _ (n mod 1024 - 1)); lia).
  rewrite E, Z.div_add_l by lia; change (1023 / 1024) with 0.
  destruct (Z.ltb_spec (12 * 1024) n), (Z.ltb_spec (12 * 1024) ((n / 1024 + 1) * 1024)); lia.
Qed.

Lemma fix_root_run s c G :
  files s ((T_DIR, c) :: G) -> Z.of_nat (length c) mod BSIZE <> 0 ->
  exists s', fix_root s = Made tt s' /\ freeblock s' = freeblock s /\
    files s' ((T_DIR, c ++ replicate (Z.to_nat (round_up (Z.of_nat (length c)) - Z.of_nat (length c))) 0) :: G).
Proof.
  intros HF Hm; set (n := Z.of_nat (length c)) in *; pose proof (fs_img _ _ HF) as Hs; pose proof (fs_need _ _ HF) as Hf.
  pose proof (fs_holds _ _ HF 0 _ eq_refl) as Hh; cbn [fst snd] in Hh; change (1 + Z.of_nat 0) with ROOTINO in Hh.
  pose proof (ho_file _ _ _ _ Hh) as Hx; pose proof (fl_size _ _ _ Hx) as Hsz; rewrite (ho_size _ _ _ _ Hh) in Hsz; fold n in Hsz.
  pose proof (Z.div_mod n BSIZE ltac:(done)) as Hd; pose proof (Z.mod_pos_bound n BSIZE eq_refl) as Hr.
  assert (Hu : n < round_up n <= NBLK * BSIZE) by (unfold round_up, NBLK, BSIZE in *; lia); set (m := Z.to_nat (round_up n - n)).
  assert (Hlen : Z.of_nat (length (c ++ [] ++ replicate m 0)) = round_up n) by (cbn [app]; rewrite length_app, length_replicate; unfold m, n in *; lia).
  exists (dput s ROOTINO (set_size (round_up n) (dino s ROOTINO))); split_and!; [|done|].
  { unfold fix_root; rewrite (made_bind _ _ _ _ _ (rinode_run s ROOTINO Hs ltac:(done))), (ho_size _ _ _ _ Hh); fold n; unfold NBLK, BSIZE in *.
    rewrite (xint_small n) by lia; fold (round_up n); rewrite xint_small by (unfold round_up, BSIZE in *; lia); by apply winode_run. }
  rewrite <- Hlen; apply (files_resize s _ 0 T_DIR c [] m s (dino s ROOTINO) HF eq_refl); rewrite ?Hlen; [| |lia|].
  - apply appended_nil; [done|done|apply Hh].
  - intros bn Hb Hlt; apply (fl_mapped _ _ _ Hx); [done|]; rewrite (ho_size _ _ _ _ Hh); fold n; unfold round_up, BSIZE in *; lia.
  - rewrite (need_insert _ 0 (T_DIR, c)) by done; cbn [snd]; rewrite Hlen, round_blocks by lia; fold n; lia.
Qed.

(** ** Names in the root directory *)

Lemma mk_dirent_inum i n : 0 <= i < 2 ^ 16 -> de_inum (dirent i n) = i.
Proof.
  intros Hi; unfold de_inum, dirent, get16, slice; rewrite xshort_small by done.
  rewrite drop_0, take_app_length' by (by rewrite length_le_encode); rewrite le_decode_encode; by apply Z.mod_small.
Qed.
Lemma mk_dirent_name i n : str14 (de_name (dirent i n)) = str14 n.
Proof.
  unfold de_name, dirent, slice; rewrite drop_app_length' by (by rewrite length_le_encode); rewrite take_take; change (14 `min` 14)%nat with 14%nat.
  unfold str14; f_equal; unfold pad14; apply list_fmap_ext; intros j b Hj; apply lookup_seq in Hj as [-> Hj]; rewrite Nat.add_0_l.
  rewrite lookup_take_lt by done; destruct (decide (j < length n)%nat) as [H|H]; [by rewrite lookup_app_l|].
  rewrite lookup_app_r, lookup_replicate_2 by lia; by rewrite lookup_ge_None_2 by lia.
Qed.
Lemma mk_matches nm i n : 0 < i < 2 ^ 16 -> matches nm (dirent i n) = bool_decide (str14 nm = str14 n).
Proof.
  intros Hi; unfold matches; rewrite mk_dirent_inum by lia; rewrite (proj2 (Z.eqb_neq i 0)) by lia; cbn [negb andb].
  pose proof (namecmp_zero nm (de_name (dirent i n))) as H; rewrite mk_dirent_name in H.
  case_bool_decide; destruct (Z.eqb_spec (namecmp nm (de_name (dirent i n))) 0); tauto.
Qed.

(** The entries of the root directory: inode number and name. *)
Definition root_list (fs : list mkfile) : list (Z * list Z) :=
  (1, str ".") :: (1, str "..") :: imap (fun k f => (2 + Z.of_nat k, short f)) fs.

Lemma root_lookup fs k : root_list fs !! (S (S k)) = (fun f => (2 + Z.of_nat k, short f)) <$> fs !! k.
Proof. change (imap (fun k f => (2 + Z.of_nat k, short f)) fs !! k = (fun f => (2 + Z.of_nat k, short f)) <$> fs !! k); apply list_lookup_imap. Qed.

Lemma entries_concat i fs : entries i fs = concat ((fun e => dirent e.1 e.2) <$> imap (fun k f => (i + Z.of_nat k, short f)) fs).
Proof.
  revert i; induction fs as [|f fs IH]; intros i; cbn [entries imap fmap list_fmap concat]; [done|].
  rewrite IH; cbn [fst snd]; rewrite Z.add_0_r; do 3 f_equal; apply imap_ext; intros; cbn; f_equal; lia.
Qed.
Lemma root_concat fs : dots ++ entries 2 fs = concat ((fun e => dirent e.1 e.2) <$> root_list fs).
Proof. unfold dots, root_list; rewrite entries_concat; cbn [fmap list_fmap concat fst snd]; by rewrite <- app_assoc. Qed.

Lemma slice_concat l k e pad : l !! k = Some e ->
  slice (concat ((fun e => dirent e.1 e.2) <$> l) ++ pad) (16 * k) 16 = dirent e.1 e.2.
Proof.
  revert k; induction l as [|h l IH]; intros [|k] Hk; try done; cbn in Hk; cbn [fmap list_fmap concat]; rewrite <- app_assoc.
  - injection Hk as ->; unfold slice; change (16 * 0)%nat with 0%nat; by rewrite drop_0, take_app_length' by (by rewrite length_dirent_mk).
  - rewrite <- (IH k Hk); unfold slice; rewrite drop_app_ge by (rewrite length_dirent_mk; lia); rewrite length_dirent_mk; f_equal; f_equal; lia.
Qed.

(** The file [c] read in part. *)
Lemma fbytes_slice V x c o n :
  (forall o, 0 <= o < Z.of_nat (length c) -> fbyte V x o = get8 c (Z.to_nat o)) -> 0 <= o -> 0 <= n -> o + n <= Z.of_nat (length c) ->
  fbytes V x o n = slice c (Z.to_nat o) (Z.to_nat n).
Proof.
  intros H Ho Hn Hl; apply list_eq_same_length with (Z.to_nat n); [rewrite length_slice; lia|rewrite length_fbytes; lia|].
  intros k a b Hk; unfold fbytes; rewrite list_lookup_fmap, lookup_seqZ_lt, lookup_slice, decide_True by lia; cbn.
  rewrite H by lia; intros [= <-]; unfold get8; replace (Z.to_nat (o + (0 + Z.of_nat k))) with (Z.to_nat o + k)%nat by lia; by intros ->.
Qed.

(** ** The finished image *)

Definition image (s : mkst) (b : Z) : list Z := default zeroes (img s !! Z.to_nat b).
Definition inode_at (s : mkst) (i : Z) : inode := read_dinode (image s (IBLOCK i sb)) (dinode_off i) inode0.

(** The superblock as the kernel's readsb takes it from block 1. *)
Definition read_super (d : list Z) : superblock :=
  Superblock (get32 d 0) (get32 d 4) (get32 d 8) (get32 d 12) (get32 d 16) (get32 d 20) (get32 d 24) (get32 d 28).

Record node_at (s : mkst) (i t : Z) (c : list Z) : Prop := {
  na_type : i_type (inode_at s i) = t;
  na_nlink : i_nlink (inode_at s i) = 1;
  na_size : i_size (inode_at s i) = Z.of_nat (length c);
  na_file : file_ok (image s) sb (inode_at s i);
  na_bytes : fbytes (image s) (inode_at s i) 0 (Z.of_nat (length c)) = c
}.

Definition root_bytes (fs : list mkfile) : list Z :=
  let c := dots ++ entries 2 fs in
  c ++ replicate (Z.to_nat (round_up (Z.of_nat (length c)) - Z.of_nat (length c))) 0.

(** The file system on the image: what the kernel expects of a disk, and the
    files of the command line. *)
Record built (s : mkst) (fs : list mkfile) : Prop := {
  bu_blocks : length (img s) = 2000%nat /\ Forall (fun d => length d = 1024%nat) (img s);
  bu_super : read_super (image s 1) = sb;
  bu_log : get32 (image s (sb_logstart sb)) 0 = 0;
  bu_space : freeblock s <= 46 + need ((T_DIR, dots ++ entries 2 fs) :: nodes fs);
  bu_used b : 0 <= b < sb_size sb -> used (image s) sb b = (b <? freeblock s);
  bu_root : node_at s ROOTINO T_DIR (root_bytes fs);
  bu_file k f : fs !! k = Some f -> node_at s (2 + Z.of_nat k) T_FILE (content f);
  bu_find k f : fs !! k = Some f ->
    exists pos, dir_find (image s) (inode_at s ROOTINO) (short f) = Some pos /\
      de_inum (entry (image s) (inode_at s ROOTINO) pos) = 2 + Z.of_nat k;
  bu_free i : 0 <= i < sb_ninodes sb -> (i = 0 \/ 2 + Z.of_nat (length fs) <= i) -> i_type (inode_at s i) = 0;
  bu_disj i j : 1 <= i < 2 + Z.of_nat (length fs) -> 1 <= j < 2 + Z.of_nat (length fs) -> i <> j ->
    disjoint_files (image s) (inode_at s i) (inode_at s j)
}.

(** A command line mkfs has room for. *)
Record accepted (fs : list mkfile) : Prop := {
  ac_good : Forall (fun f => good f = true) fs;
  ac_count : (length fs <= 198)%nat;
  ac_root : Z.of_nat (32 + 16 * length fs) mod BSIZE <> 0;
  ac_room : 46 + need ((T_DIR, dots ++ entries 2 fs) :: nodes fs) <= 2000;
  ac_names : NoDup (str14 <$> (root_list fs).*2)
}.

Section final.
Variables (s : mkst) (fs : list mkfile).
Hypothesis Hac : accepted fs.
Hypothesis HF : files s ((T_DIR, root_bytes fs) :: nodes fs).
#[local] Abbreviation s' := (put s 45 (mark_bits (Z.to_nat (freeblock s)) zeroes)).

Lemma image_mview b : image s' b = mview s b.
Proof.
  pose proof (fs_img _ _ HF) as Hs; unfold image, mview; cbn [img put set_img]; destruct (Z.eqb_spec b 45) as [->|Hne].
  - by rewrite list_lookup_insert_eq by (rewrite (im_len _ Hs); lia).
  - rewrite list_lookup_insert_ne by lia; destruct (Z.ltb_spec b 0); [|done].
    replace (Z.to_nat b) with (Z.to_nat 0) by lia; by rewrite (fs_log _ _ HF) by lia.
Qed.
Lemma inode_dino i : inode_at s' i = dino s i.
Proof. unfold inode_at, dino; by rewrite image_mview. Qed.

Lemma node_holds i t c : holds s i t c -> node_at s' i t c.
Proof.
  intros [H1 H2 H3 H4 H5 H6 H7]; constructor; rewrite inode_dino; auto.
  - eapply file_ok_V; [apply image_mview|done].
  - rewrite (fbytes_ext (mview s)) by apply image_mview; rewrite (fbytes_slice _ _ c) by (done || lia).
    unfold slice; rewrite Nat2Z.id; change (Z.to_nat 0) with 0%nat; by rewrite drop_0, firstn_all.
Qed.

Lemma root_entry j e : root_list fs !! j = Some e -> entry (image s') (inode_at s' ROOTINO) (Z.of_nat j) = dirent e.1 e.2.
Proof.
  intros Hj; pose proof (fs_holds _ _ HF 0 _ eq_refl) as [_ _ _ _ _ H6 _]; cbn [fst snd] in H6.
  rewrite inode_dino; unfold entry; rewrite (fbytes_ext (mview s)) by apply image_mview; unfold DESIZE.
  pose proof (lookup_lt_Some _ _ _ Hj) as Hl; unfold root_list in Hl; cbn [length] in Hl; rewrite length_imap in Hl.
  assert (Hr : Z.of_nat (16 * (2 + length fs)) <= Z.of_nat (length (root_bytes fs))).
  { unfold root_bytes; rewrite !length_app, length_entries; change (length dots) with 32%nat; lia. }
  rewrite (fbytes_slice _ _ (root_bytes fs)) by (done || lia); unfold root_bytes; cbv zeta; rewrite root_concat.
  replace (Z.to_nat (16 * Z.of_nat j)) with (16 * j)%nat by lia; by apply slice_concat.
Qed.

Lemma root_find k f : fs !! k = Some f ->
  exists pos, dir_find (image s') (inode_at s' ROOTINO) (short f) = Some pos /\
    de_inum (entry (image s') (inode_at s' ROOTINO) pos) = 2 + Z.of_nat k.
Proof.
  intros Hk; pose proof (lookup_lt_Some _ _ _ Hk) as Hlt; pose proof (ac_count _ Hac) as Hc.
  assert (He : root_list fs !! (2 + k)%nat = Some (2 + Z.of_nat k, short f)) by (cbn [Nat.add]; by rewrite root_lookup, Hk).
  assert (Hpos : forall j e, root_list fs !! j = Some e -> 0 < e.1 < 2 ^ 16).
  { intros [|[|j]] e; [by intros [= <-]..|]; rewrite root_lookup; destruct (fs !! j) eqn:E; cbn; [|done].
    apply lookup_lt_Some in E; intros [= <-]; cbn; lia. }
  assert (Hm : forall j e, root_list fs !! j = Some e -> matches (short f) (entry (image s') (inode_at s' ROOTINO) (Z.of_nat j)) = bool_decide (j = (2 + k)%nat)).
  { intros j e Hj; rewrite (root_entry j e Hj), mk_matches by eauto; apply bool_decide_ext; split; [|intros ->; by simplify_eq].
    intros E; eapply (NoDup_lookup _ _ _ _ (ac_names _ Hac)); rewrite !list_lookup_fmap; [by rewrite Hj|by rewrite He, <- E]. }
  exists (Z.of_nat (2 + k)); split; [|by rewrite (root_entry _ _ He), mk_dirent_inum by (cbn; lia)].
  assert (Hl : length (root_list fs) = (2 + length fs)%nat) by (unfold root_list; cbn; by rewrite length_imap).
  assert (Hn : Z.of_nat (2 + length fs) <= nentries (inode_at s' ROOTINO)).
  { pose proof (ho_size _ _ _ _ (fs_holds _ _ HF 0 _ eq_refl)) as E; cbn [snd] in E; rewrite inode_dino; unfold nentries, DESIZE.
    change ROOTINO with (1 + Z.of_nat 0); rewrite E; apply Z.div_le_lower_bound; [lia|]; unfold root_bytes.
    rewrite !length_app, length_entries; change (length dots) with 32%nat; lia. }
  unfold dir_find; pose proof (first_entry_spec (Z.to_nat (nentries (inode_at s' ROOTINO))) 0 (matches (short f)) (image s') (inode_at s' ROOTINO)) as HS.
  assert (Hme : matches (short f) (entry (image s') (inode_at s' ROOTINO) (Z.of_nat (2 + k))) = true) by (by rewrite (Hm _ _ He), bool_decide_eq_true).
  destruct (first_entry _ _ _ _ _) as [p|]; [|by rewrite HS in Hme by lia].
  destruct HS as (H1 & H2 & H3); destruct (Z.lt_total p (Z.of_nat (2 + k))) as [Hp|[->|Hp]]; [|done|by rewrite H3 in Hme by lia].
  destruct (lookup_lt_is_Some_2 (root_list fs) (Z.to_nat p)) as [e Hj]; [lia|].
  apply Hm in Hj; rewrite Z2Nat.id, H2 in Hj by lia; symmetry in Hj; apply bool_decide_eq_true in Hj; lia.
Qed.
End final.

Lemma super_image s F : files s F -> read_super (mview s 1) = sb.
Proof.
  intros HF; unfold mview; change (1 =? 45) with false; change (1 <? 0) with false; cbn iota.
  change (Z.to_nat 1) with 1%nat; rewrite (fs_super _ _ HF); by vm_compute.
Qed.

Lemma length_root fs : length (dots ++ entries 2 fs) = (32 + 16 * length fs)%nat.
Proof. rewrite length_app, length_entries; done. Qed.
Lemma length_root_bytes fs : Z.of_nat (length (root_bytes fs)) = round_up (Z.of_nat (32 + 16 * length fs)).
Proof.
  unfold root_bytes; cbv zeta; rewrite length_app, length_replicate, length_root; set (k := (32 + 16 * length fs)%nat).
  pose proof (Z.div_mod (Z.of_nat k) BSIZE ltac:(done)); pose proof (Z.mod_pos_bound (Z.of_nat k) BSIZE eq_refl); unfold round_up, BSIZE in *; lia.
Qed.
Lemma length_nodes fs : length (nodes fs) = length fs.
Proof. apply length_fmap. Qed.

Lemma files_built s fs : accepted fs -> files s ((T_DIR, root_bytes fs) :: nodes fs) ->
  built (put s 45 (mark_bits (Z.to_nat (freeblock s)) zeroes)) fs.
Proof.
  intros Hac HF; pose proof (fs_img _ _ HF) as Hs; pose proof (im_free _ Hs) as Hfr; pose proof (image_mview s fs HF) as HV.
  assert (Hlen : length ((T_DIR, root_bytes fs) :: nodes fs) = S (length fs)) by (cbn; by rewrite length_nodes).
  assert (Hs' : img_ok (put s 45 (mark_bits (Z.to_nat (freeblock s)) zeroes))).
  { apply img_ok_put; [done|lia|]; apply length_mark_bits; unfold BPB, BSIZE; lia. }
  pose proof (ac_count _ Hac) as Hc; constructor.
  - split; [apply Hs'|]; apply Forall_lookup; intros b d; apply Hs'.
  - rewrite HV; by eapply super_image.
  - rewrite HV; unfold mview; change (sb_logstart sb) with 2; cbn [Z.eqb Z.ltb Z.compare Pos.eqb Pos.compare].
    rewrite (fs_log _ _ HF) by lia; done.
  - pose proof (fs_need _ _ HF) as Hn; rewrite need_cons in Hn |- *; cbn [snd freeblock put set_img] in *.
    by rewrite length_root_bytes, round_blocks, <- length_root in Hn by (lia || apply Hac).
  - destruct sb_vals as (-> & _); intros b Hb; rewrite (used_ext _ (mview s)) by apply HV; by rewrite (mview_used s) by done.
  - apply (node_holds s fs HF), (fs_holds _ _ HF 0 _ eq_refl).
  - intros k f Hk; apply (node_holds s fs HF); replace (2 + Z.of_nat k) with (1 + Z.of_nat (S k)) by lia.
    apply (fs_holds _ _ HF (S k) (T_FILE, content f)); change (nodes fs !! k = Some (T_FILE, content f)); unfold nodes; by rewrite list_lookup_fmap, Hk.
  - by apply root_find.
  - change (sb_ninodes sb) with 200; intros i Hi Hor; rewrite (inode_dino s fs HF); apply (fs_rest _ _ HF); rewrite ?Hlen; lia.
  - intros i j Hi Hj Hne b; rewrite !(inode_dino s fs HF); rewrite !(owned_ext_V (mview s) (image _)) by apply HV.
    pose proof (fs_disj _ _ HF (Z.to_nat (i - 1)) (Z.to_nat (j - 1)) ltac:(lia) ltac:(lia) ltac:(lia)) as D.
    replace (1 + Z.of_nat (Z.to_nat (i - 1))) with i in D by lia; replace (1 + Z.of_nat (Z.to_nat (j - 1))) with j in D by lia; apply D.
Qed.

Lemma start_run {B} (k : K B) : (clear_image (Z.to_nat FSSIZE) 0;; wsect 1 (splice zeroes 0 sb_bytes);; k) (Mk [] 1 nmeta) = k empty_image.
Proof.
  rewrite (made_bind _ _ _ _ _ (clear_image_run (Z.to_nat FSSIZE) 0 (Mk [] 1 nmeta) eq_refl ltac:(lia))).
  change (Z.to_nat FSSIZE) with 2000%nat; unfold wsect, modk, mbind, K_bind; cbn [img set_img freeinode freeblock app].
  rewrite (proj2 (Nat.ltb_lt _ _)) by (rewrite length_replicate; change (Z.to_nat 1) with 1%nat; lia); done.
Qed.

(** A file mkfs refuses. *)
Definition refused (f : mkfile) : Prop := f.2 = None \/ ch_slash ∈ strip_user f.1 \/ DIRSIZ < Z.of_nat (length (short f)).

Lemma add_files_refused fs s : Exists refused fs -> add_files fs s = Error.
Proof.
  intros H; revert s; induction H as [f fs H|f fs _ IH]; intros s; cbn [add_files].
  - assert (E : add_file f s = Error); [|unfold mbind, K_bind; by rewrite E].
    unfold add_file; destruct (existsb _ _) eqn:Hsl; [done|]; rewrite check_bind; destruct f as [nm [chunks|]]; [|done]; cbn [fst snd] in *.
    destruct H as [?|[H|H]]; [done| |].
    + assert (Hin : existsb (Z.eqb ch_slash) (strip_user nm) = true) by (apply existsb_exists; exists ch_slash; split; [by apply list_elem_of_In|lia]); congruence.
    + change (strip_underscore (strip_user nm)) with (short (nm, Some chunks)); by rewrite (proj2 (Z.leb_gt _ _)) by lia.
  - unfold mbind, K_bind; destruct (add_file f s); [apply IH|done].
Qed.

(** Files for the claim below. *)
Definition demo_files : list mkfile :=
  [(str "user/_cat", Some [replicate 1024 7; replicate 1024 8; str "end"]); (str "README", Some [str "xv6"]); (str "user/_empty", Some [])].

(** C18: mkfs builds the file system the kernel expects.  For a command line
    it has room for, of different names whose entries do not just fill their
    blocks, main succeeds, and on the image: block 1 is the
    superblock as readsb reads it, the log is empty, the bitmap marks just the
    blocks handed out, the root directory holds ".", ".." and the names, its
    size rounded up to a block and the rest zero, dirlookup finds every name
    and the inode it names, that inode is a well-formed file with the bytes
    read from the host file, no two files share a block, and every other inode
    is free.  A file that does not open or whose name has a slash or is too
    long makes it fail. *)
Theorem mkfs_correct (fs : list mkfile) :
  (accepted fs -> exists s, main (Some true) fs = Made tt s /\ built s fs) /\
  (Exists refused fs -> main (Some true) fs = Error).
Proof.
  split; intros Hac.
  2: { unfold main; rewrite start_run; unfold mbind, K_bind; destruct (make_root empty_image); [by rewrite add_files_refused|done]. }
  destruct make_root_run as (s1 & R1 & H1); pose proof (ac_count _ Hac) as Hc.
  destruct (add_files_run fs s1 dots [] H1 (ac_good _ Hac)) as (s2 & R2 & H2); [cbn; lia|change (length dots) with 32%nat; unfold NBLK, BSIZE; lia|apply Hac|].
  cbn [app length] in H2; change (2 + Z.of_nat 0) with 2 in H2.
  destruct (fix_root_run s2 _ _ H2) as (s3 & R3 & Hf & H3); [rewrite length_root; apply Hac|]; fold (root_bytes fs) in H3.
  exists (put s3 45 (mark_bits (Z.to_nat (freeblock s3)) zeroes)); split; [|by apply files_built].
  pose proof (fs_img _ _ H3) as Hs3; pose proof (im_free _ Hs3) as Hfr; unfold main.
  rewrite start_run, (made_bind _ _ _ _ _ R1), (made_bind _ _ _ _ _ R2), (made_bind _ _ _ _ _ R3).
  unfold getk at 1, mbind at 1, K_bind at 1, balloc; rewrite (proj2 (Z.ltb_lt _ BPB)) by (unfold BPB, BSIZE; lia); rewrite check_bind.
  destruct sb_vals as (_ & _ & -> & _); rewrite (wsect_run s3 Hs3 45) by lia; reflexivity.
Qed.

Lemma demo_accepted : accepted demo_files.
Proof.
  constructor; [repeat constructor|cbn; lia|by vm_compute|by vm_compute|apply (bool_decide_unpack _); by vm_compute].
Qed.

Lemma mkfs_correct_witness :
  (exists s, main (Some true) demo_files = Made tt s /\ built s demo_files) /\ main (Some true) [(str "user/a/b", Some [])] = Error.
Proof.
  split; [apply (mkfs_correct demo_files), demo_accepted|apply (mkfs_correct [(str "user/a/b", Some [])])].
  left; right; left; apply (bool_decide_unpack _); by vm_compute.
Defined.

(** ** Two limits of the command line *)

Definition empty_file (k : nat) : mkfile := ([97 + Z.of_nat (k / 26); 97 + Z.of_nat (k mod 26)], Some []).

(** When the entries fill their blocks, the size of the root is rounded up to
    a block it does not have. *)
Lemma root_hole :
  match main (Some true) (empty_file <$> seq 0 62) with
  | Made _ s => i_size (inode_at s ROOTINO) = 2048 /\ fblk (image s) (inode_at s ROOTINO) 1 = 0
  | Error => False
  end.
Proof. vm_compute; done. Qed.

(** ialloc goes on past the last inode: inode 208 is in the bitmap, and main
    succeeds with a name in the root directory for which there is no inode. *)
Lemma inode_overrun :
  match main (Some true) (empty_file <$> seq 0 207) with
  | Made _ s => IBLOCK 208 sb = sb_bmapstart sb /\ freeinode s = 209 /\ i_type (inode_at s 208) <> T_FILE
  | Error => False
  end.
Proof. vm_compute; split_and!; done. Qed.
