(* ===== verification/Usys.v ===== *)
(** * System calls of user programs

    A user program is an interaction tree over the system calls of user/user.h
    it makes, with the data behind their pointers; a run of it is against an
    operating system that answers them.  Programs that stop do so by exit. *)

From ITree Require Import Core.ITreeDefinition Core.Subevent Indexed.Sum.
From S2P Require Import Prelude CMem KString Printf UPrintf Ulib Fs Sysfile.

(** ** Calls *)

Inductive sysE : Type -> Type :=
| Fork : sysE Z
| Wait : sysE Z
| Write (fd : Z) (bytes : list Z) : sysE Z
| Read (fd n : Z) : sysE (Z * list Z)                  (* the result, and the bytes it stores *)
| Close (fd : Z) : sysE Z
| Kill (pid : Z) : sysE Z
| Exec (path : list Z) (argv : list (list Z)) : sysE Z
| Open (path : list Z) (mode : Z) : sysE Z
| Mknod (path : list Z) (major minor : Z) : sysE Z
| Unlink (path : list Z) : sysE Z
| Fstat (fd : Z) : sysE (Z * stat)
| Link (old new : list Z) : sysE Z
| Mkdir (path : list Z) : sysE Z
| Dup (fd : Z) : sysE Z
| Sleep (n : Z) : sysE Z
| Cps : sysE Z
| WaitStatus : sysE (Z * option Z)                     (* wait(&st): the result, and what it stores in st *)
| Pipe : sysE (Z * (Z * Z))                            (* the result, and the two descriptors *)
| Chdir (path : list Z) : sysE Z
| Getpid : sysE Z
| Sbrk (n : Z) : sysE Z                                (* an address, as a uint64 *)
| Msgget (key msgflg : Z) : sysE Z
| Signal (signum handler : Z) : sysE unit.

(** The ends of a run: exit, and undefined behaviour. *)
Inductive haltE : Type -> Type :=
| Exit (status : Z) : haltE Empty_set
| Undefined : haltE Empty_set.

Definition U (A : Type) : Type := itree (sysE +' haltE) A.
#[export] Instance U_ret : MRet U := fun A a => go (RetF a).
#[export] Instance U_bind : MBind U := fun A B k t => ITree.bind t k.

Definition call {A} (e : sysE A) : U A := ITree.trigger (inl1 e).
Definition exit {A} (status : Z) : U A := go (VisF (inr1 (Exit status)) (fun v : Empty_set => match v with end)).
Definition undefined {A} : U A := go (VisF (inr1 Undefined) (fun v : Empty_set => match v with end)).

(** A loop: [body] gives the state for the next round or the result. *)
Definition loop {S A} (body : S -> U (S + A)) (s : S) : U A := ITree.iter body s.

(** [for(x in l)] *)
Fixpoint each {A} (body : A -> U unit) (l : list A) : U unit :=
  match l with
  | [] => mret tt
  | a :: l' => body a;; each body l'
  end.

(** ** The library *)

(** [putc] makes one system call for each character. *)
Definition putc (fd c : Z) : U unit := call (Write fd [c]);; mret tt.
Definition fprintf (fd : Z) (fmt : list Z) (args : list varg) : U unit :=
  match User.printf fmt args with
  | Some out => each (putc fd) out
  | None => undefined
  end.
Definition printf (fmt : list Z) (args : list varg) : U unit := fprintf 1 fmt args.

Definition stat_path (n : list Z) : U (Z * stat) :=
  fd ← call (Open n O_RDONLY);
  if fd <? 0 then mret (-1, Stat 0 0 0 0 0)
  else r ← call (Fstat fd); call (Close fd);; mret r.

(** [start] calls main and exits when it returns. *)
Definition start {A} (main : U A) : U Empty_set := main;; exit 0.

(** ** Runs *)

(** An operating system: its answer to a call. *)
Class Os (E : Type) : Type := sys : forall A, sysE A -> E -> A * E.
Arguments sys {E _} {A} e s.

Inductive ending (A : Type) : Type :=
| Returned (a : A)
| Exited (status : Z)
| Crashed.
Arguments Returned {A} a.
Arguments Exited {A} status.
Arguments Crashed {A}.

Section run.
Context {E : Type} `{Os E}.

Fixpoint run {A} (n : nat) (t : U A) (s : E) : option (ending A * E) :=
  match n with
  | O => None
  | S n' =>
      match observe t with
      | RetF a => Some (Returned a, s)
      | TauF t' => run n' t' s
      | VisF e k =>
          match e with
          | inl1 e => let '(a, s') := sys e s in run n' (k a) s'
          | inr1 e => match e with Exit z => Some (Exited z, s) | Undefined => Some (Crashed, s) end
          end
      end
  end.

(** The program ends in [s'] with [o]. *)
Definition runs {A} (t : U A) (s : E) (o : ending A) (s' : E) : Prop := exists n, run n t s = Some (o, s').

Lemma run_more {A} n m (t : U A) s r : run n t s = Some r -> run (n + m) t s = Some r.
Proof.
  revert t s; induction n as [|n IH]; intros t s; cbn [run Nat.add]; [done|].
  destruct (observe t) as [a|t'|X e k]; [done|apply IH|]; destruct e as [e|e]; [|done].
  destruct (sys e s); apply IH.
Qed.

Lemma runs_det {A} (t : U A) s o1 s1 o2 s2 : runs t s o1 s1 -> runs t s o2 s2 -> o1 = o2 /\ s1 = s2.
Proof.
  intros [n Hn] [m Hm]; apply (run_more n m) in Hn; apply (run_more m n) in Hm; rewrite Nat.add_comm in Hm.
  rewrite Hn in Hm; by injection Hm as -> ->.
Qed.

Lemma runs_ret {A} (a : A) s : runs (mret a : U A) s (Returned a) s.
Proof. by exists 1%nat. Qed.
Lemma runs_exit {A} z s : runs (exit z : U A) s (Exited z) s.
Proof. by exists 1%nat. Qed.

Lemma run_bind {A B} n (t : U A) (k : A -> U B) s :
  match run n t s with
  | Some (Returned a, s1) => forall o s', runs (k a) s1 o s' -> runs (t ≫= k) s o s'
  | Some (Exited z, s1) => runs (t ≫= k) s (Exited z) s1
  | Some (Crashed, s1) => runs (t ≫= k) s Crashed s1
  | None => True
  end.
Proof.
  revert t s; induction n as [|n IH]; intros t s; cbn [run]; [done|].
  assert (Hb : observe (t ≫= k) = match observe t with
    | RetF a => observe (k a) | TauF t' => TauF (t' ≫= k) | VisF e h => VisF e (fun x => h x ≫= k) end).
  { transitivity (observe (match observe t with RetF a => k a | TauF t' => go (TauF (t' ≫= k)) | VisF e h => go (VisF e (fun x => h x ≫= k)) end)); [done|].
    by destruct (observe t). }
  assert (Hstep : forall m u, observe u = observe (t ≫= k) -> run m u s = run m (t ≫= k) s) by (intros [|m] u Hu; cbn [run]; [done|by rewrite Hu]).
  destruct (observe t) as [a|t'|X e h] eqn:Et.
  - intros o s' [m Hm]; exists m; by rewrite <- (Hstep m (k a)) by (by rewrite Hb).
  - specialize (IH t' s); destruct (run n t' s) as [[[a|z|] s1]|]; [intros o s' Hr; destruct (IH o s' Hr) as [m Hm]|destruct IH as [m Hm]|destruct IH as [m Hm]|done];
      exists (S m); cbn [run]; by rewrite Hb.
  - destruct e as [e|e].
    + destruct (sys e s) as [x s0] eqn:Es; specialize (IH (h x) s0).
      destruct (run n (h x) s0) as [[[a|z|] s1]|]; [intros o s' Hr; destruct (IH o s' Hr) as [m Hm]|destruct IH as [m Hm]|destruct IH as [m Hm]|done];
        exists (S m); cbn [run]; by rewrite Hb, Es.
    + destruct e; exists 1%nat; cbn [run]; by rewrite Hb.
Qed.

Lemma runs_bind {A B} (t : U A) (k : A -> U B) s a s1 o s' :
  runs t s (Returned a) s1 -> runs (k a) s1 o s' -> runs (t ≫= k) s o s'.
Proof. intros [n Hn] Hk; pose proof (run_bind n t k s) as H'; rewrite Hn in H'; by apply H'. Qed.
Lemma runs_call {A B} (e : sysE A) (k : A -> U B) s a s1 o s' :
  sys e s = (a, s1) -> runs (k a) s1 o s' -> runs (call e ≫= k) s o s'.
Proof. intros He; apply runs_bind; exists 2%nat; cbn; by rewrite He. Qed.
Lemma runs_bind_exit {A B} (t : U A) (k : A -> U B) s z s1 : runs t s (Exited z) s1 -> runs (t ≫= k) s (Exited z) s1.
Proof. intros [n Hn]; pose proof (run_bind n t k s) as H'; by rewrite Hn in H'. Qed.

Lemma observe_iter {I A} (body : I -> U (I + A)) (i : I) :
  observe (ITree.iter body i) = observe (ITree.bind (body i) (fun r => match r with inl j => go (TauF (ITree.iter body j)) | inr a => go (RetF a) end)).
Proof. done. Qed.
Lemma runs_observe {A} (t u : U A) s o s' : observe t = observe u -> runs u s o s' -> runs t s o s'.
Proof. intros Ht [[|n] Hn]; [done|exists (S n)]; cbn [run] in *; by rewrite Ht. Qed.

Lemma loop_next {I A} (body : I -> U (I + A)) i j s s1 o s' :
  runs (body i) s (Returned (inl j)) s1 -> runs (loop body j) s1 o s' -> runs (loop body i) s o s'.
Proof.
  intros Hb [n Hn]; eapply runs_observe; [apply observe_iter|]; eapply (runs_bind (body i)); [exact Hb|].
  exists (S n); exact Hn.
Qed.
Lemma loop_done {I A} (body : I -> U (I + A)) i a s s1 :
  runs (body i) s (Returned (inr a)) s1 -> runs (loop body i) s (Returned a) s1.
Proof. intros Hb; eapply runs_observe; [apply observe_iter|]; eapply (runs_bind (body i)); [exact Hb|]; by exists 1%nat. Qed.
Lemma loop_exit {I A} (body : I -> U (I + A)) i z s s1 :
  runs (body i) s (Exited z) s1 -> runs (loop body i) s (Exited z) s1.
Proof. intros Hb; eapply runs_observe; [apply observe_iter|]; by apply (runs_bind_exit (body i)). Qed.

Lemma each_cons {A} (body : A -> U unit) a l s s1 o s' :
  runs (body a) s (Returned tt) s1 -> runs (each body l) s1 o s' -> runs (each body (a :: l)) s o s'.
Proof. apply (runs_bind (body a) (fun _ => each body l)). Qed.
End run.
