(* ===== verification/Utools.v ===== *)
(** * User programs

    cat, wc, grep, ls, echo, kill, ln, mkdir, rm, cps, init, zombie and signal
    as trees of system calls.  [argv] includes the name of the program; a
    string is the list of its bytes before the NUL. *)

From ITree Require Import Core.ITreeDefinition.
From S2P Require Import Prelude CMem KString Printf UPrintf Ulib Grep Fs Sysfile Usys.

Definition nl : list Z := [10].
Definition S_ (s : list Z) : varg := VStr (Some s).

(** [for(i = 1; i < argc; i++)] with an open of [argv[i]] for reading, as cat, wc
    and grep have it. *)
Definition for_files (failed : list Z -> U unit) (body : Z -> list Z -> U unit) (files : list (list Z)) : U unit :=
  each (fun name =>
    fd ← call (Open name O_RDONLY);
    if fd <? 0 then failed name;; exit 1
    else body fd name;; call (Close fd);; mret tt) files.

(** ** cat *)

Definition cat (fd : Z) : U unit :=
  loop (fun _ : unit =>
    '(n, buf) ← call (Read fd 512);
    if 0 <? n then
      w ← call (Write 1 (take (Z.to_nat n) buf));
      if negb (w =? n) then fprintf 2 (str "cat: write error" ++ nl) [];; exit 1
      else mret (inl tt)
    else if n <? 0 then fprintf 2 (str "cat: read error" ++ nl) [];; exit 1
    else mret (inr tt)) tt.
Definition cat_main (argv : list (list Z)) : U unit :=
  if Z.of_nat (length argv) <=? 1 then cat 0;; exit 0
  else
    for_files (fun name => fprintf 2 (str "cat: cannot open %s" ++ nl) [S_ name]) (fun fd _ => cat fd) (drop 1 argv);;
    exit 0.

(** ** wc *)

(** [strchr(" \r\t\n\v", c)] *)
Definition blank (c : Z) : bool := existsb (Z.eqb c) [32; 13; 9; 10; 11].

(** An increment of an int; one past the largest is undefined. *)
Definition incr (n : Z) : U Z := if n =? INT_MAX then undefined else mret (n + 1).

(** [for(i=0; i<n; i++)] over the bytes read: l, w, c and inword. *)
Fixpoint wc_buf (buf : list Z) (l w c : Z) (inword : bool) : U (Z * Z * Z * bool) :=
  match buf with
  | [] => mret (l, w, c, inword)
  | b :: buf' =>
      c ← incr c;
      l ← (if b =? 10 then incr l else mret l);
      if blank b then wc_buf buf' l w c false
      else if negb inword then w ← incr w; wc_buf buf' l w c true
      else wc_buf buf' l w c inword
  end.
Definition wc (fd : Z) (name : list Z) : U unit :=
  '(l, w, c) ← loop (fun '(l, w, c, inword) =>
    '(n, buf) ← call (Read fd 512);
    if 0 <? n then r ← wc_buf (take (Z.to_nat n) buf) l w c inword; mret (inl r)
    else if n <? 0 then printf (str "wc: read error" ++ nl) [];; exit 1
    else mret (inr (l, w, c))) (0, 0, 0, false);
  printf (str "%d %d %d %s" ++ nl) [VNum l; VNum w; VNum c; S_ name].
Definition wc_main (argv : list (list Z)) : U unit :=
  if Z.of_nat (length argv) <=? 1 then wc 0 [];; exit 0
  else
    for_files (fun name => printf (str "wc: cannot open %s" ++ nl) [S_ name]) wc (drop 1 argv);;
    exit 0.

(** ** grep *)

(** The loop over the lines in the buffer: a call of write for each line that
    matches; the result is the text after the last newline. *)
Fixpoint write_lines (fuel : nat) (pattern p : list Z) : U (list Z) :=
  match fuel with
  | O => mret p
  | S f =>
      match find_nl p with
      | None => mret p
      | Some (line, p') =>
          (if match_ pattern line then call (Write 1 (line ++ [ch_nl]));; mret tt else mret tt);;
          write_lines f pattern p'
      end
  end.
Definition grep_fd (pattern : list Z) (fd : Z) : U unit :=
  loop (fun kept : list Z =>
    let m := Z.of_nat (length kept) in
    '(n, buf) ← call (Read fd (1024 - m - 1));
    if 0 <? n then
      let p := kept ++ take (Z.to_nat n) buf in
      rest ← write_lines (length p) pattern p;
      mret (inl rest)
    else mret (inr tt)) [].
Definition grep_main (argv : list (list Z)) : U unit :=
  match argv with
  | _ :: pattern :: files =>
      match files with
      | [] => grep_fd pattern 0;; exit 0
      | _ =>
          for_files (fun name => printf (str "grep: cannot open %s" ++ nl) [S_ name]) (fun fd _ => grep_fd pattern fd) files;;
          exit 0
      end
  | _ => fprintf 2 (str "usage: grep pattern [file ...]" ++ nl) [];; exit 1
  end.

(** ** ls *)

(** [for(p=path+strlen(path); p >= path && *p != '/'; p--); p++]: the index of
    [p]. *)
Fixpoint after_slash (path : list Z) (n : nat) : nat :=
  match n with
  | O => 0
  | S n' => if default 0 (path !! n') =? 47 then n else after_slash path n'
  end.
Definition fmtname (path : list Z) : list Z :=
  let p := drop (after_slash path (length path)) path in
  if DIRSIZ <=? Z.of_nat (length p) then p
  else p ++ replicate (Z.to_nat DIRSIZ - length p) 32.

Definition ls_line (name : list Z) (st : stat) : U unit :=
  printf (str "%s %d %d %d" ++ nl) [S_ (fmtname name); VNum (st_type st); VNum (st_ino st); VNum (st_size st)].
(** [while(read(fd, &de, sizeof(de)) == sizeof(de))] *)
Definition ls_entries (fd : Z) (path : list Z) : U unit :=
  loop (fun _ : unit =>
    '(n, de) ← call (Read fd DESIZE);
    if n =? DESIZE then
      if de_inum de =? 0 then mret (inl tt)
      else
        let buf := path ++ [47] ++ until_nul (de_name de) in
        '(r, st) ← stat_path buf;
        if r <? 0 then printf (str "ls: cannot stat %s" ++ nl) [S_ buf];; mret (inl tt)
        else ls_line buf st;; mret (inl tt)
    else mret (inr tt)) tt.
Definition ls (path : list Z) : U unit :=
  fd ← call (Open path O_RDONLY);
  if fd <? 0 then fprintf 2 (str "ls: cannot open %s" ++ nl) [S_ path]
  else
    '(r, st) ← call (Fstat fd);
    if r <? 0 then fprintf 2 (str "ls: cannot stat %s" ++ nl) [S_ path];; call (Close fd);; mret tt
    else
      (if (st_type st =? T_DEVICE) || (st_type st =? T_FILE) then ls_line path st
       else if st_type st =? T_DIR then
         if 512 <? Z.of_nat (length path) + 1 + DIRSIZ + 1 then printf (str "ls: path too long" ++ nl) []
         else ls_entries fd path
       else mret tt);;
      call (Close fd);; mret tt.
Definition ls_main (argv : list (list Z)) : U unit :=
  if Z.of_nat (length argv) <? 2 then ls (str ".");; exit 0
  else each ls (drop 1 argv);; exit 0.

(** ** echo, kill, ln, mkdir, rm, cps *)

Fixpoint echo_args (args : list (list Z)) : U unit :=
  match args with
  | [] => mret tt
  | a :: args' =>
      call (Write 1 a);;
      (match args' with [] => call (Write 1 nl) | _ => call (Write 1 [32]) end);;
      echo_args args'
  end.
Definition echo_main (argv : list (list Z)) : U unit := echo_args (drop 1 argv);; exit 0.

Definition kill_main (argv : list (list Z)) : U unit :=
  if Z.of_nat (length argv) <? 2 then fprintf 2 (str "usage: kill pid..." ++ nl) [];; exit 1
  else
    each (fun a => match atoi a with Some pid => call (Kill pid);; mret tt | None => undefined end) (drop 1 argv);;
    exit 0.

Definition ln_main (argv : list (list Z)) : U unit :=
  match argv with
  | [_; old; new] =>
      r ← call (Link old new);
      (if r <? 0 then fprintf 2 (str "link %s %s: failed" ++ nl) [S_ old; S_ new] else mret tt);;
      exit 0
  | _ => fprintf 2 (str "Usage: ln old new" ++ nl) [];; exit 1
  end.

(** The loop of mkdir and rm, which stops at the first failure. *)
Fixpoint until_failure (op : list Z -> U Z) (failed : list Z -> U unit) (files : list (list Z)) : U unit :=
  match files with
  | [] => mret tt
  | f :: files' => r ← op f; if r <? 0 then failed f else until_failure op failed files'
  end.
Definition mkdir_main (argv : list (list Z)) : U unit :=
  if Z.of_nat (length argv) <? 2 then fprintf 2 (str "Usage: mkdir files..." ++ nl) [];; exit 1
  else
    until_failure (fun f => call (Mkdir f)) (fun f => fprintf 2 (str "mkdir: %s failed to create" ++ nl) [S_ f]) (drop 1 argv);;
    exit 0.
Definition rm_main (argv : list (list Z)) : U unit :=
  if Z.of_nat (length argv) <? 2 then fprintf 2 (str "Usage: rm files..." ++ nl) [];; exit 1
  else
    until_failure (fun f => call (Unlink f)) (fun f => fprintf 2 (str "rm: %s failed to delete" ++ nl) [S_ f]) (drop 1 argv);;
    exit 0.

Definition cps_main : U unit := k ← call Cps; printf (str "%d" ++ nl) [VNum k];; exit 0.

(** ** init, zombie and signal *)

(** [for(;;){ wpid = wait(0); ... }]: until the shell has ended. *)
Definition wait_shell (pid : Z) : U unit :=
  loop (fun _ : unit =>
    wpid ← call Wait;
    if wpid =? pid then mret (inr tt)
    else if wpid <? 0 then printf (str "init: wait returned an error" ++ nl) [];; exit 1
    else mret (inl tt)) tt.
Definition run_shell : U unit :=
  printf (str "init: starting sh" ++ nl) [];;
  pid ← call Fork;
  if pid <? 0 then printf (str "init: fork failed" ++ nl) [];; exit 1
  else if pid =? 0 then
    call (Exec (str "sh") [str "sh"]);;
    printf (str "init: exec sh failed" ++ nl) [];;
    exit 1
  else wait_shell pid.
(** CONSOLE is major device 1. *)
Definition init_main : U unit :=
  fd ← call (Open (str "console") O_RDWR);
  (if fd <? 0 then call (Mknod (str "console") 1 0);; call (Open (str "console") O_RDWR);; mret tt else mret tt);;
  call (Dup 0);;
  call (Dup 0);;
  loop (fun _ : unit => run_shell;; mret (inl tt)) tt.

Definition zombie_main : U unit :=
  pid ← call Fork;
  (if 0 <? pid then call (Sleep 5);; mret tt else mret tt);;
  exit 0.

(** [while(1) i++], with [i] an int. *)
Definition SIGINT : Z := 2.
Definition signal_main (sigint_handler : Z) : U unit :=
  call (Signal SIGINT sigint_handler);;
  printf (str "Address of the signal handler : %p" ++ nl) [VNum sigint_handler];;
  loop (fun i => i ← incr i; mret (inl i)) 0.
