(* ===== verification/UserOs.v ===== *)
(** * What user programs rely on

    The interface between the file tools and the system: what reads, writes,
    opens and closes do to the files a process sees.  The theorems about the
    tools hold for every system that keeps it. *)

From ITree Require Import Core.ITreeDefinition.
From S2P Require Import Prelude CMem KString Printf UPrintf Ulib Fs Sysfile Usys.

(** What a process sees: the files under their paths, what is left to read
    behind its descriptors, and what it has written to 1 and 2. *)
Record view : Type := View {
  v_file : list Z -> option (stat * list Z);
  v_in : gmap Z (stat * list Z);
  v_stdout : list Z;
  v_stderr : list Z
}.
Definition set_in (m : gmap Z (stat * list Z)) (v : view) : view := View (v_file v) m (v_stdout v) (v_stderr v).
Definition emit (fd : Z) (bs : list Z) (v : view) : view :=
  if fd =? 1 then View (v_file v) (v_in v) (v_stdout v ++ bs) (v_stderr v)
  else View (v_file v) (v_in v) (v_stdout v) (v_stderr v ++ bs).

Lemma emit_nil fd v : emit fd [] v = v.
Proof. unfold emit; rewrite !app_nil_r; destruct v, (fd =? 1); done. Qed.
Lemma emit_emit fd a b v : emit fd b (emit fd a v) = emit fd (a ++ b) v.
Proof. unfold emit; destruct (fd =? 1); cbn; by rewrite app_assoc. Qed.
Lemma emit_in fd bs v : v_in (emit fd bs v) = v_in v.
Proof. unfold emit; by destruct (fd =? 1). Qed.
Lemma emit_file fd bs v : v_file (emit fd bs v) = v_file v.
Proof. unfold emit; by destruct (fd =? 1). Qed.
Lemma emit_set_in fd bs m v : emit fd bs (set_in m v) = set_in m (emit fd bs v).
Proof. unfold emit; by destruct (fd =? 1). Qed.
Lemma set_in_set m m' v : set_in m (set_in m' v) = set_in m v.
Proof. done. Qed.
Lemma set_in_id v : set_in (v_in v) v = v.
Proof. by destruct v. Qed.

(** A read returns some of what is left, all that was asked for unless it
    comes from a device; writes to 1 and 2 take everything; a process has room
    for a few more descriptors. *)
Class FileServer (E : Type) `{Os E} : Type := {
  see : E -> view;
  srv_read s fd n st c : v_in (see s) !! fd = Some (st, c) -> 0 < n ->
    exists bs c' s', sys (Read fd n) s = ((Z.of_nat (length bs), bs), s') /\ c = bs ++ c' /\ Z.of_nat (length bs) <= n /\
      (c <> [] -> bs <> []) /\ (st_type st <> T_DEVICE -> Z.of_nat (length bs) = Z.min n (Z.of_nat (length c))) /\
      see s' = set_in (<[fd := (st, c')]> (v_in (see s))) (see s);
  srv_write s fd bs : fd = 1 \/ fd = 2 ->
    exists s', sys (Write fd bs) s = (Z.of_nat (length bs), s') /\ see s' = emit fd bs (see s);
  srv_open s p : (size (v_in (see s)) < 10)%nat ->
    match v_file (see s) p with
    | Some f => exists fd s', sys (Open p O_RDONLY) s = (fd, s') /\ 0 <= fd /\ v_in (see s) !! fd = None /\
        see s' = set_in (<[fd := f]> (v_in (see s))) (see s)
    | None => exists s', sys (Open p O_RDONLY) s = (-1, s') /\ see s' = see s
    end;
  srv_fstat s fd st c : v_in (see s) !! fd = Some (st, c) ->
    exists s', sys (Fstat fd) s = ((0, st), s') /\ see s' = see s;
  srv_close s fd : exists r s', sys (Close fd) s = (r, s') /\ see s' = set_in (delete fd (v_in (see s))) (see s)
}.

(** ** Printing *)

Section print.
Context {E : Type} `{FileServer E}.

Lemma putc_runs fd c s : fd = 1 \/ fd = 2 -> exists s', runs (putc fd c) s (Returned tt) s' /\ see s' = emit fd [c] (see s).
Proof.
  intros Hfd; destruct (srv_write s fd [c] Hfd) as (s' & R & V); exists s'; split; [|done].
  eapply runs_call; [exact R|apply runs_ret].
Qed.

Lemma puts_runs fd out s : fd = 1 \/ fd = 2 -> exists s', runs (each (putc fd) out) s (Returned tt) s' /\ see s' = emit fd out (see s).
Proof.
  intros Hfd; revert s; induction out as [|c out IH]; intros s.
  { exists s; split; [apply runs_ret|by rewrite emit_nil]. }
  destruct (putc_runs fd c s Hfd) as (s1 & R1 & V1), (IH s1) as (s2 & R2 & V2); exists s2; split.
  - by eapply each_cons.
  - by rewrite V2, V1, emit_emit.
Qed.

Lemma fprintf_runs fd fmt args out s :
  fd = 1 \/ fd = 2 -> User.printf fmt args = Some out ->
  exists s', runs (fprintf fd fmt args) s (Returned tt) s' /\ see s' = emit fd out (see s).
Proof. intros Hfd Ho; unfold fprintf; rewrite Ho; by apply puts_runs. Qed.
End print.

(** ** A system that keeps the interface *)

(** Files in memory; a device gives at most three bytes at a time. *)
Definition chunk (n : Z) (st : stat) (c : list Z) : nat :=
  Z.to_nat (Z.min (if st_type st =? T_DEVICE then Z.min 3 n else n) (Z.of_nat (length c))).
Definition free_fd (m : gmap Z (stat * list Z)) : Z := foldr Z.max 2 (map_to_list m).*1 + 1.

Lemma free_fd_pos m : 3 <= free_fd m.
Proof. unfold free_fd; induction (map_to_list m).*1; cbn; lia. Qed.
Lemma free_fd_fresh m : m !! free_fd m = None.
Proof.
  destruct (m !! free_fd m) as [f|] eqn:E; [exfalso|done].
  assert (Hin : free_fd m ∈ (map_to_list m).*1) by (apply list_elem_of_fmap; exists (free_fd m, f); split; [done|by apply elem_of_map_to_list]).
  assert (Hle : forall l x, x ∈ l -> x <= foldr Z.max 2 l).
  { intros l x; induction l as [|y l IH]; [by intros ?%elem_of_nil|]; cbn; intros [->|?%IH]%elem_of_cons; lia. }
  apply Hle in Hin; unfold free_fd in Hin at 1; lia.
Qed.

#[export] Instance mem_os : Os view := fun A e =>
  match e with
  | Read fd n => fun v =>
      match v_in v !! fd with
      | Some (st, c) =>
          let k := chunk n st c in
          ((Z.of_nat k, take k c), set_in (<[fd := (st, drop k c)]> (v_in v)) v)
      | None => ((-1, []), v)
      end
  | Write fd bs => fun v => (Z.of_nat (length bs), emit fd bs v)
  | Open p _ => fun v =>
      match v_file v p with
      | Some f => let fd := free_fd (v_in v) in (fd, set_in (<[fd := f]> (v_in v)) v)
      | None => (-1, v)
      end
  | Fstat fd => fun v => match v_in v !! fd with Some (st, _) => ((0, st), v) | None => ((-1, Stat 0 0 0 0 0), v) end
  | Close fd => fun v => (0, set_in (delete fd (v_in v)) v)
  | Signal _ _ => fun v => (tt, v)
  | Fork | Wait | Kill _ | Exec _ _ | Mknod _ _ _ | Unlink _ | Link _ _ | Mkdir _ | Dup _ | Sleep _ | Cps | Chdir _ | Getpid | Sbrk _ | Msgget _ _ => fun v => (-1, v)
  | WaitStatus => fun v => ((-1, None), v)
  | Pipe => fun v => ((-1, (0, 0)), v)
  end.

#[export] Instance mem_server : FileServer view.
Proof.
  refine {| see := fun v => v |}.
  - intros v fd n st c Hfd Hn; cbn; rewrite Hfd; set (k := chunk n st c).
    assert (Hk : (k <= length c)%nat) by (unfold k, chunk; lia).
    exists (take k c), (drop k c), (set_in (<[fd := (st, drop k c)]> (v_in v)) v); rewrite length_take_le by done.
    split_and!; [done|by rewrite take_drop|unfold k, chunk; case_match; lia| | |done].
    + intros Hc Ht; apply (f_equal length) in Ht; rewrite length_take_le in Ht by done; destruct c; [done|].
      cbn [length] in Ht; unfold k, chunk in Ht; cbn [length] in Ht; case_match; lia.
    + intros Hst; unfold k, chunk; rewrite (proj2 (Z.eqb_neq _ _)) by done; lia.
  - intros v fd bs _; by eexists.
  - intros v p _; destruct (v_file v p) as [f|] eqn:E; [|exists v; split; [cbn; by rewrite E|done]].
    eexists (free_fd (v_in v)), _; split_and!; [cbn; by rewrite E|pose proof (free_fd_pos (v_in v)); lia|apply free_fd_fresh|done].
  - intros v fd st c Hfd; exists v; split; [cbn; by rewrite Hfd|done].
  - intros v fd; by eexists _, _.
Defined.
