(* ===== verification/UtoolsOk.v ===== *)
(** * Correctness of cat, wc and grep

    Whatever pieces a system that keeps the interface cuts its reads into,
    each tool writes a function of the contents of its files. *)

From ITree Require Import Core.ITreeDefinition.
From S2P Require Import Prelude CMem KString Printf UPrintf Ulib Grep Fs Sysfile Usys Utools UserOs.

(** ** The loop over the files *)

(** The exit status and what the process sees at the end: [out] of each file
    on standard output, [msg] on [efd] for one that does not open. *)
Fixpoint tool_result (out : list Z -> list Z -> list Z) (efd : Z) (msg : list Z -> list Z) (files : list (list Z)) (v : view) : Z * view :=
  match files with
  | [] => (0, v)
  | f :: files' =>
      match v_file v f with
      | Some (_, c) => tool_result out efd msg files' (emit 1 (out f c) v)
      | None => (1, emit efd (msg f) v)
      end
  end.

(** ** What wc counts *)

Definition decimal (x : Z) : list Z := rev (digits_loop 64 ch_A x 10).
Definition number (x : Z) : list Z := if i32 x <? 0 then 45 :: decimal (- i32 x) else decimal (i32 x).

Lemma printint_number x : User.printint x 10 true = Some (number x).
Proof.
  pose proof (i32_range x) as Hx; unfold number, decimal, User.printint, flush, BUFLEN; cbn [andb]; destruct (Z.ltb_spec (i32 x) 0).
  - rewrite u32_small, (proj2 (Nat.leb_le _ _)), rev_app_distr by (lia || (rewrite length_app; cbn [length];
      enough (length (digits_loop 64 ch_A (- i32 x) 10) <= 15)%nat by lia; apply digits_length; lia)); done.
  - rewrite u32_small by lia; by rewrite (proj2 (Nat.leb_le _ _)) by (apply digits_length; lia).
Qed.
Lemma number_decimal x : 0 <= x <= INT_MAX -> number x = decimal x.
Proof. unfold INT_MAX; intros Hx; unfold number; rewrite i32_small by lia; by rewrite (proj2 (Z.ltb_ge x 0)) by lia. Qed.

(** The words of a text that continues the word [cur]. *)
Fixpoint words (cur l : list Z) : list (list Z) :=
  match l with
  | [] => match cur with [] => [] | _ => [cur] end
  | b :: l' =>
      if blank b then match cur with [] => words [] l' | _ => cur :: words [] l' end
      else words (cur ++ [b]) l'
  end.
Definition wc_line (name c : list Z) : list Z :=
  decimal (Z.of_nat (length (filter (fun b => b = 10) c))) ++ [32] ++ decimal (Z.of_nat (length (words [] c))) ++ [32] ++
  decimal (Z.of_nat (length c)) ++ [32] ++ name ++ nl.

(** One character, and the counts after a text. *)
Definition wc_step (a : Z * Z * Z * bool) (b : Z) : Z * Z * Z * bool :=
  let '(l, w, c, inword) := a in
  (if b =? 10 then l + 1 else l, if blank b then w else if inword then w else w + 1, c + 1, negb (blank b)).
Definition in_word (cur : list Z) : bool := match cur with [] => false | _ => true end.

Lemma wc_counts t cur l w c :
  (foldl wc_step (l, w, c, in_word cur) t).1 =
  (l + Z.of_nat (length (filter (fun b => b = 10) t)), w + Z.of_nat (length (words cur t)) - b2z (in_word cur), c + Z.of_nat (length t)).
Proof.
  revert cur l w c; induction t as [|b t IH]; intros cur l w c; cbn [foldl words length].
  { destruct cur; cbn; (apply (f_equal2 pair); [apply (f_equal2 pair)|]; lia). }
  unfold wc_step at 2; destruct (blank b) eqn:Eb; cbn [negb].
  - rewrite (IH []); rewrite filter_cons; destruct (Z.eqb_spec b 10); [rewrite decide_True by done|rewrite decide_False by done];
      destruct cur; cbn [in_word b2z length]; (apply (f_equal2 pair); [apply (f_equal2 pair)|]; lia).
  - replace true with (in_word (cur ++ [b])) by (by destruct cur); rewrite IH, filter_cons.
    destruct (Z.eqb_spec b 10); [rewrite decide_True by done|rewrite decide_False by done];
      destruct cur; cbn [in_word b2z length app]; (apply (f_equal2 pair); [apply (f_equal2 pair)|]; lia).
Qed.

Section tools.
Context {E : Type} `{FileServer E}.

(** The descriptor has been read to its end. *)
Definition drained (fd : Z) (st : stat) (bs : list Z) (s s' : E) : Prop :=
  see s' = set_in (<[fd := (st, [])]> (v_in (see s))) (emit 1 bs (see s)).

Section files.
Variables (P : list Z -> Prop) (out : list Z -> list Z -> list Z) (efd : Z) (msg : list Z -> list Z).
Variables (failed : list Z -> U unit) (body : Z -> list Z -> U unit).
Hypothesis Hfailed : forall s name, exists s', runs (failed name) s (Returned tt) s' /\ see s' = emit efd (msg name) (see s).
Hypothesis Hbody : forall s fd name st c, v_in (see s) !! fd = Some (st, c) -> P c ->
  exists s', runs (body fd name) s (Returned tt) s' /\ drained fd st (out name c) s s'.

Lemma for_files_runs files s :
  (size (v_in (see s)) < 10)%nat -> (forall f st c, f ∈ files -> v_file (see s) f = Some (st, c) -> P c) ->
  exists s', runs (for_files failed body files;; (exit 0 : U unit)) s (Exited (tool_result out efd msg files (see s)).1) s' /\
    see s' = (tool_result out efd msg files (see s)).2.
Proof using Hfailed Hbody.
  intros Hsz HP; enough (Hf : exists s', (tool_result out efd msg files (see s)).2 = see s' /\
    (if (tool_result out efd msg files (see s)).1 =? 0 then (tool_result out efd msg files (see s)).1 = 0 /\ runs (for_files failed body files) s (Returned tt) s'
     else runs (for_files failed body files) s (Exited (tool_result out efd msg files (see s)).1) s')).
  { destruct Hf as (s' & V & R); exists s'; split; [|done]; destruct (_ =? 0).
    - destruct R as [-> R]; eapply runs_bind; [exact R|apply runs_exit].
    - by apply runs_bind_exit. }
  revert s Hsz HP; induction files as [|f files IH]; intros s Hsz HP; cbn [tool_result].
  { exists s; split; [done|split; [done|apply runs_ret]]. }
  unfold for_files; cbn [each]; pose proof (srv_open s f Hsz) as Ho; pose proof (fun st c => HP f st c ltac:(left)) as HPf.
  destruct (v_file (see s) f) as [[st c]|] eqn:Ef.
  - destruct Ho as (fd & s1 & R1 & Hfd & Hnew & V1).
    destruct (Hbody s1 fd f st c) as (s2 & R2 & V2); [rewrite V1; apply lookup_insert_eq|by eapply HPf|].
    destruct (srv_close s2 fd) as (r & s3 & R3 & V3).
    assert (V : see s3 = emit 1 (out f c) (see s)).
    { rewrite V3, V2, V1; cbn [v_in set_in]; rewrite !emit_set_in, !set_in_set.
      rewrite !delete_insert_eq, delete_id by done; rewrite <- (emit_in 1 (out f c) (see s)); apply set_in_id. }
    destruct (IH s3) as (s' & V' & R'); [by rewrite V, emit_in|intros g st' c' Hg; rewrite V, emit_file; intros; eapply (HP g); [by right|done]|].
    rewrite V in V', R'; exists s'; split; [done|].
    assert (Hone : runs (fd0 ← call (Open f O_RDONLY); if fd0 <? 0 then failed f;; exit 1 else body fd0 f;; call (Close fd0);; mret tt) s (Returned tt) s3).
    { eapply runs_call; [exact R1|]; rewrite (proj2 (Z.ltb_ge fd 0)) by lia; eapply runs_bind; [exact R2|]; eapply runs_call; [exact R3|apply runs_ret]. }
    destruct (_ =? 0); [destruct R' as [-> R']; split; [done|]|]; by eapply runs_bind.
  - destruct Ho as (s1 & R1 & V1), (Hfailed s1 f) as (s2 & R2 & V2); exists s2; split; [by rewrite V2, V1|]; cbn [fst Z.eqb].
    apply runs_bind_exit; eapply runs_call; [exact R1|]; cbn; eapply runs_bind; [exact R2|apply runs_exit].
Qed.
End files.

(** ** cat *)

Lemma cat_runs s fd st c : v_in (see s) !! fd = Some (st, c) -> exists s', runs (cat fd) s (Returned tt) s' /\ drained fd st c s s'.
Proof.
  remember (length c) as n eqn:Hn; revert s c Hn; induction n as [n IH] using lt_wf_ind; intros s c -> Hfd; unfold cat.
  destruct (srv_read s fd 512 st c Hfd ltac:(lia)) as (bs & c' & s1 & R1 & -> & Hl & Hne & _ & V1).
  destruct bs as [|b bs]; [destruct c' as [|a c']; [|by destruct Hne]|].
  - exists s1; split; [|unfold drained; by rewrite V1, emit_nil]; apply loop_done; eapply runs_call; [exact R1|apply runs_ret].
  - destruct (srv_write s1 1 (b :: bs) ltac:(by left)) as (s2 & R2 & V2).
    destruct (IH (length c') ltac:(rewrite length_app; cbn; lia) s2 c' eq_refl) as (s3 & R3 & V3).
    { rewrite V2, emit_in, V1; apply lookup_insert_eq. }
    exists s3; split.
    + eapply loop_next; [|exact R3]; eapply runs_call; [exact R1|]; cbn [fst snd]; rewrite (proj2 (Z.ltb_lt 0 _)) by (cbn; lia).
      rewrite Nat2Z.id, firstn_all; eapply runs_call; [exact R2|]; rewrite Z.eqb_refl; apply runs_ret.
    + unfold drained in *; rewrite V3, V2, V1, !emit_set_in, !set_in_set, emit_emit; cbn [v_in set_in]; by rewrite insert_insert_eq.
Qed.

(** ** wc *)

Lemma incr_runs n (s : E) : 0 <= n < INT_MAX -> runs (incr n) s (Returned (n + 1)) s.
Proof. intros Hn; unfold incr; rewrite (proj2 (Z.eqb_neq _ _)) by lia; apply runs_ret. Qed.

Lemma wc_buf_runs buf l w c i (s : E) :
  0 <= l <= c -> 0 <= w <= c -> c + Z.of_nat (length buf) <= INT_MAX ->
  runs (wc_buf buf l w c i) s (Returned (foldl wc_step (l, w, c, i) buf)) s.
Proof.
  revert l w c i; induction buf as [|b buf IH]; intros l w c i Hl Hw Hc; cbn [wc_buf foldl length] in *; [apply runs_ret|].
  eapply runs_bind; [apply incr_runs; lia|].
  eapply (runs_bind _ _ _ (if b =? 10 then l + 1 else l)); [destruct (b =? 10); [apply incr_runs; lia|apply runs_ret]|].
  unfold wc_step at 2; assert (0 <= (if b =? 10 then l + 1 else l) <= c + 1) by (destruct (b =? 10); lia).
  destruct (blank b); [apply IH; lia|]; destruct i; cbn [negb]; [apply IH; lia|].
  eapply runs_bind; [apply incr_runs; lia|]; apply IH; lia.
Qed.

Lemma wc_step_bound t l w c i :
  0 <= l <= c -> 0 <= w <= c -> let '(l', w', c', _) := foldl wc_step (l, w, c, i) t in 0 <= l' <= c' /\ 0 <= w' <= c' /\ c' = c + Z.of_nat (length t).
Proof.
  revert l w c i; induction t as [|b t IH]; intros l w c i Hl Hw; cbn [foldl length]; [lia|].
  unfold wc_step at 2; specialize (IH (if b =? 10 then l + 1 else l) (if blank b then w else if i then w else w + 1) (c + 1) (negb (blank b))).
  destruct (foldl _ _ t) as [[[l' w'] c'] i']; destruct IH as (H1 & H2 & H3); [destruct (b =? 10); lia|destruct (blank b), i; lia|lia].
Qed.

Definition wc_body (fd : Z) : Z * Z * Z * bool -> U ((Z * Z * Z * bool) + (Z * Z * Z)) := fun '(l, w, c, inword) =>
  '(n, buf) ← call (Read fd 512);
  if 0 <? n then r ← wc_buf (take (Z.to_nat n) buf) l w c inword; mret (inl r)
  else if n <? 0 then printf (str "wc: read error" ++ nl) [];; exit 1
  else mret (inr (l, w, c)).

Lemma wc_loop_runs s fd st t l w c i :
  v_in (see s) !! fd = Some (st, t) -> 0 <= l <= c -> 0 <= w <= c -> c + Z.of_nat (length t) <= INT_MAX ->
  exists s', runs (loop (wc_body fd) (l, w, c, i)) s (Returned (foldl wc_step (l, w, c, i) t).1) s' /\ drained fd st [] s s'.
Proof.
  remember (length t) as n eqn:Hn; revert s t l w c i Hn; induction n as [n IH] using lt_wf_ind; intros s t l w c i -> Hfd Hl Hw Hc.
  destruct (srv_read s fd 512 st t Hfd ltac:(lia)) as (bs & t' & s1 & R1 & -> & Hlen & Hne & _ & V1).
  destruct bs as [|b bs]; [destruct t' as [|a t']; [|by destruct Hne]|].
  - exists s1; split; [|unfold drained; by rewrite V1, emit_nil]; apply loop_done; eapply runs_call; [exact R1|apply runs_ret].
  - rewrite length_app in Hc; pose proof (wc_step_bound (b :: bs) l w c i Hl Hw) as HB; pose proof (wc_buf_runs (b :: bs) l w c i s1 Hl Hw ltac:(lia)) as RB.
    rewrite foldl_app; destruct (foldl wc_step (l, w, c, i) (b :: bs)) as [[[l' w'] c'] i'] eqn:Ef; destruct HB as (H1 & H2 & H3).
    destruct (IH (length t') ltac:(rewrite length_app; cbn; lia) s1 t' l' w' c' i' eq_refl) as (s3 & R3 & V3); [rewrite V1; apply lookup_insert_eq|lia..|].
    exists s3; split.
    + eapply loop_next; [|exact R3]; eapply runs_call; [exact R1|]; cbn [fst snd]; rewrite (proj2 (Z.ltb_lt 0 _)) by (cbn; lia).
      rewrite Nat2Z.id, firstn_all; eapply runs_bind; [exact RB|apply runs_ret].
    + unfold drained in *; rewrite V3, V1, !emit_nil, set_in_set; cbn [v_in set_in]; by rewrite insert_insert_eq.
Qed.

Lemma wc_text l w c name :
  0 <= l <= INT_MAX -> 0 <= w <= INT_MAX -> 0 <= c <= INT_MAX ->
  User.printf (str "%d %d %d %s" ++ nl) [VNum l; VNum w; VNum c; S_ name] =
  Some (decimal l ++ [32] ++ decimal w ++ [32] ++ decimal c ++ [32] ++ name ++ nl).
Proof.
  intros Hl Hw Hc; rewrite <- !number_decimal by done; clear Hl Hw Hc; cbv -[User.printint number then_print].
  by rewrite !printint_number.
Qed.

Lemma wc_runs s fd name st t :
  v_in (see s) !! fd = Some (st, t) -> Z.of_nat (length t) <= INT_MAX ->
  exists s', runs (wc fd name) s (Returned tt) s' /\ drained fd st (wc_line name t) s s'.
Proof.
  intros Hfd Ht; destruct (wc_loop_runs s fd st t 0 0 0 false Hfd) as (s1 & R1 & V1); [lia..|].
  pose proof (wc_step_bound t 0 0 0 false ltac:(lia) ltac:(lia)) as HB; pose proof (wc_counts t [] 0 0 0) as HC.
  change (in_word []) with false in HC; cbn [b2z] in HC; rewrite HC in R1; rewrite !Z.add_0_l, Z.sub_0_r in *.
  destruct (foldl _ _ t) as [[[l' w'] c'] i']; cbn [fst] in HC; injection HC as -> -> ->; destruct HB as (B1 & B2 & _).
  destruct (fprintf_runs 1 (str "%d %d %d %s" ++ nl) [VNum (Z.of_nat (length (filter (fun b => b = 10) t))); VNum (Z.of_nat (length (words [] t)));
    VNum (Z.of_nat (length t)); S_ name] (wc_line name t) s1) as (s2 & R2 & V2); [by left|apply wc_text; lia|].
  exists s2; split; [eapply runs_bind; [exact R1|exact R2]|].
  unfold drained in *; by rewrite V2, V1, emit_nil, emit_set_in.
Qed.

(** ** grep *)

Lemma write_lines_runs fuel pattern p s :
  (length p <= fuel)%nat -> 0 ∉ p ->
  exists s', runs (write_lines fuel pattern p) s (Returned (last_line [] p)) s' /\ see s' = emit 1 (selected pattern (lines [] p)) (see s).
Proof.
  revert p s; induction fuel as [|f IH]; intros p s Hf Hnul; cbn [write_lines].
  { destruct p; [|cbn in Hf; lia]; exists s; split; [apply runs_ret|by rewrite emit_nil]. }
  pose proof (find_nl_spec p Hnul) as Hp; destruct (find_nl p) as [[a b]|].
  - destruct Hp as [-> Ha]; rewrite length_app in Hf; cbn in Hf; destruct (unfinished a [] Ha) as [H1 H2].
    rewrite lines_app, last_line_app, H1, H2; cbn [app lines last_line]; change (ch_nl =? ch_nl) with true; cbn iota.
    assert (Hone : exists s1, runs (if match_ pattern a then call (Write 1 (a ++ [ch_nl]));; mret tt else mret tt) s (Returned tt) s1 /\
      see s1 = emit 1 (if match_ pattern a then a ++ [ch_nl] else []) (see s)).
    { destruct (match_ pattern a); [|exists s; split; [apply runs_ret|by rewrite emit_nil]].
      destruct (srv_write s 1 (a ++ [ch_nl]) ltac:(by left)) as (s1 & R1 & V1); exists s1; split; [|done].
      eapply runs_call; [exact R1|apply runs_ret]. }
    destruct Hone as (s1 & R1 & V1), (IH b s1) as (s2 & R2 & V2); [lia|set_solver|].
    exists s2; split; [by eapply runs_bind|]; by rewrite V2, V1, emit_emit, <- selected_cons.
  - exists s; destruct (unfinished p [] Hp) as [-> ->]; split; [apply runs_ret|by rewrite emit_nil].
Qed.

Lemma grep_fd_runs pattern fd st s kept t :
  v_in (see s) !! fd = Some (st, t) -> 0 ∉ kept ++ t -> ch_nl ∉ kept -> fits kept t ->
  exists s', runs (loop (fun kept : list Z =>
    '(n, buf) ← call (Read fd (1024 - Z.of_nat (length kept) - 1));
    if 0 <? n then rest ← write_lines (length (kept ++ take (Z.to_nat n) buf)) pattern (kept ++ take (Z.to_nat n) buf); mret (inl rest)
    else mret (inr tt)) kept) s (Returned tt) s' /\ drained fd st (selected pattern (lines kept t)) s s'.
Proof.
  remember (length t) as n eqn:Hn; revert s kept t Hn; induction n as [n IH] using lt_wf_ind; intros s kept t -> Hfd Hnul Hk Hfit.
  pose proof (fits_cur _ _ Hfit) as Hl.
  destruct (srv_read s fd (1024 - Z.of_nat (length kept) - 1) st t Hfd ltac:(lia)) as (bs & t' & s1 & R1 & -> & Hlen & Hne & _ & V1).
  destruct bs as [|b bs]; [destruct t' as [|a t']; [|by destruct Hne]|].
  - exists s1; split; [|unfold drained; by rewrite V1, emit_nil]; apply loop_done; eapply runs_call; [exact R1|apply runs_ret].
  - rewrite app_assoc in Hnul; destruct (write_lines_runs (length (kept ++ b :: bs)) pattern (kept ++ b :: bs) s1) as (s2 & R2 & V2); [done|set_solver|].
    destruct (unfinished kept [] Hk) as [B1 B2]; rewrite lines_app, last_line_app, B1, B2 in *; cbn [app] in R2, V2.
    destruct (IH (length t') ltac:(rewrite length_app; cbn; lia) s2 (last_line kept (b :: bs)) t' eq_refl) as (s3 & R3 & V3).
    + rewrite V2, emit_in, V1; apply lookup_insert_eq.
    + intros [[H'|H']%last_line_from|H']%elem_of_app; apply Hnul; set_solver.
    + by apply last_line_clean.
    + by apply fits_app.
    + exists s3; split.
      * eapply loop_next; [|exact R3]; eapply runs_call; [exact R1|]; cbn [fst snd]; rewrite (proj2 (Z.ltb_lt 0 _)) by (cbn; lia).
        rewrite Nat2Z.id, firstn_all; eapply runs_bind; [exact R2|apply runs_ret].
      * unfold drained in *; rewrite V3, V2, V1, !emit_set_in, !set_in_set, emit_emit, <- selected_app, <- lines_app; cbn [v_in set_in]; by rewrite insert_insert_eq.
Qed.
End tools.

(** ** The programs *)

(** What a tool does without file arguments: [out] of standard input. *)
Definition from_stdin (out : list Z) (st : stat) (v : view) : view := set_in (<[0 := (st, [])]> (v_in v)) (emit 1 out v).

Definition cannot_open (tool name : list Z) : list Z := tool ++ str ": cannot open " ++ name ++ nl.

Section mains.
Context {E : Type} `{FileServer E}.

(** A program without file arguments reads standard input, else its files. *)
Lemma tool_runs (P : list Z -> Prop) out efd tool failed body (files : list (list Z)) (s : E) st c :
  (forall s name, exists s', runs (failed name) s (Returned tt) s' /\ see s' = emit efd (cannot_open tool name) (see s)) ->
  (forall s fd name st c, v_in (see s) !! fd = Some (st, c) -> P c ->
    exists s', runs (body fd name) s (Returned tt) s' /\ drained fd st (out name c) s s') ->
  (size (v_in (see s)) < 10)%nat -> v_in (see s) !! 0 = Some (st, c) -> P c ->
  (forall f st t, f ∈ files -> v_file (see s) f = Some (st, t) -> P t) ->
  exists s',
    let '(status, v) := match files with
                        | [] => (0, from_stdin (out [] c) st (see s))
                        | _ => tool_result out efd (cannot_open tool) files (see s)
                        end in
    runs (match files with [] => body 0 [];; exit 0 | _ => for_files failed body files;; exit 0 end : U unit) s (Exited status) s' /\ see s' = v.
Proof.
  intros Hfailed Hbody Hsz Hin Hc Hall; destruct files as [|f files].
  - destruct (Hbody s 0 [] st c Hin Hc) as (s' & R & V); exists s'; split; [|exact V]; eapply runs_bind; [exact R|apply runs_exit].
  - destruct (for_files_runs P out efd (cannot_open tool) failed body Hfailed Hbody (f :: files) s Hsz Hall) as (s' & R & V).
    exists s'; by destruct (tool_result _ _ _ _ _).
Qed.

Lemma argc_more (a b : list Z) l : (Z.of_nat (length (a :: b :: l)) <=? 1) = false.
Proof. apply Z.leb_gt; cbn [length]; lia. Qed.

Lemma message_runs fd fmt tool name s :
  fd = 1 \/ fd = 2 -> User.printf fmt [S_ name] = Some (cannot_open tool name) ->
  exists s', runs (fprintf fd fmt [S_ name]) s (Returned tt) s' /\ see s' = emit fd (cannot_open tool name) (see s).
Proof. apply fprintf_runs. Qed.

(** C20: cat, wc and grep on any system that keeps the interface, in whatever
    pieces its reads return the data.  Without file arguments they work on
    standard input; otherwise on the files in order, up to the first that does
    not open, which gives a message and exit status 1.  cat writes the
    contents; wc the numbers of newlines, of words and of bytes; grep the lines
    with a match, where the matcher decides the meaning of the pattern.  For
    grep the lines have to fit its buffer, a line being what a newline ends,
    and hold no NUL; for wc the counts have to fit an int. *)
Theorem file_tools_correct (s : E) (prog pattern : list Z) (files : list (list Z)) (st : stat) (c : list Z) :
  (size (v_in (see s)) < 10)%nat -> v_in (see s) !! 0 = Some (st, c) ->
  let grep_ok t := (0 ∉ t) /\ fits [] t in
  let all (P : list Z -> Prop) := P c /\ forall f st t, f ∈ files -> v_file (see s) f = Some (st, t) -> P t in
  let does (main : U unit) (out : list Z -> list Z -> list Z) (efd : Z) (tool : list Z) := exists s',
    let '(status, v) := match files with
                        | [] => (0, from_stdin (out [] c) st (see s))
                        | _ => tool_result out efd (cannot_open tool) files (see s)
                        end in
    runs main s (Exited status) s' /\ see s' = v in
  does (cat_main (prog :: files)) (fun _ t => t) 2 (str "cat") /\
  (all (fun t => Z.of_nat (length t) <= INT_MAX) -> does (wc_main (prog :: files)) wc_line 1 (str "wc")) /\
  (all grep_ok -> does (grep_main (prog :: pattern :: files)) (fun _ t => selected pattern (lines [] t)) 1 (str "grep")) /\
  (forall l, match_ pattern l = true <-> somewhere pattern l).
Proof.
  intros Hsz Hin grep_ok all does; unfold does; split; [|split; [|split; [|apply match_spec]]].
  - replace (cat_main (prog :: files)) with (match files with [] => cat 0;; exit 0 | _ =>
      for_files (fun name => fprintf 2 (str "cat: cannot open %s" ++ nl) [S_ name]) (fun fd _ => cat fd) files;; exit 0 end : U unit)
      by (destruct files; [done|]; unfold cat_main; by rewrite argc_more).
    apply (tool_runs (fun _ => True) (fun _ t => t) 2 (str "cat") (fun name => fprintf 2 (str "cat: cannot open %s" ++ nl) [S_ name]) (fun fd _ => cat fd)); auto.
    + intros s1 name; apply message_runs; [by right|done].
    + intros; by apply cat_runs.
  - intros [Hc Hall]; replace (wc_main (prog :: files)) with (match files with [] => wc 0 [];; exit 0 | _ =>
      for_files (fun name => printf (str "wc: cannot open %s" ++ nl) [S_ name]) wc files;; exit 0 end : U unit)
      by (destruct files; [done|]; unfold wc_main; by rewrite argc_more).
    apply (tool_runs (fun t => Z.of_nat (length t) <= INT_MAX)); auto.
    + intros s1 name; apply message_runs; [by left|done].
    + intros; by apply wc_runs.
  - intros [Hc Hall]; apply (tool_runs grep_ok (fun _ t => selected pattern (lines [] t)) 1 (str "grep") (fun name => printf (str "grep: cannot open %s" ++ nl) [S_ name]) (fun fd _ => grep_fd pattern fd)); auto.
    + intros s1 name; apply message_runs; [by left|done].
    + intros s1 fd _ st' t Hfd [Ht0 Htf]; apply grep_fd_runs; [done|done|apply not_elem_of_nil|done].
Qed.
End mains.

(** A process with standard input from a device and two files. *)
Definition demo_stat (t : Z) : stat := Stat 1 2 t 1 0.
Definition demo_view : view :=
  View (fun p => if bool_decide (p = str "a") then Some (demo_stat T_FILE, str "one two" ++ nl ++ str " three" ++ nl)
                 else if bool_decide (p = str "b") then Some (demo_stat T_FILE, []) else None)
    (<[0 := (demo_stat T_DEVICE, str "typed" ++ nl)]> ∅) [] [].

Lemma file_tools_correct_witness :
  exists s', runs (wc_main [str "wc"; str "a"; str "b"; str "c"]) demo_view (Exited 1) s' /\
    v_stdout s' = str "2 3 15 a" ++ nl ++ str "0 0 0 b" ++ nl ++ str "wc: cannot open c" ++ nl.
Proof.
  destruct (file_tools_correct demo_view (str "wc") (str "t.*e") [str "a"; str "b"; str "c"] (demo_stat T_DEVICE) (str "typed" ++ nl)) as (_ & H & _).
  - apply Nat.ltb_lt; vm_compute; reflexivity.
  - vm_compute; reflexivity.
  - destruct H as (s' & R & V); [|exists s'; split; [exact R|]; apply (f_equal v_stdout) in V; refine (eq_trans V _); vm_compute; reflexivity].
    split; [vm_compute; discriminate|]; intros f st t Hf Hv; cbn in Hv; unfold v_file, demo_view in Hv.
    destruct (bool_decide _); [injection Hv as _ <-; vm_compute; discriminate|].
    destruct (bool_decide _); [injection Hv as _ <-; vm_compute; discriminate|discriminate].
Defined.
