(* ===== verification/LsOk.v ===== *)
(** * Correctness of ls *)

From ITree Require Import Core.ITreeDefinition.
From S2P Require Import Prelude CMem KString Printf UPrintf Ulib Grep Fs Sysfile Usys Utools UserOs UtoolsOk.

(** ** Names *)

(** The part of a path after its last slash. *)
Fixpoint last_part (cur path : list Z) : list Z :=
  match path with
  | [] => cur
  | c :: path' => if c =? 47 then last_part [] path' else last_part (cur ++ [c]) path'
  end.

Lemma last_part_snoc path c : forall cur,
  last_part cur (path ++ [c]) = if c =? 47 then [] else last_part cur path ++ [c].
Proof. induction path as [|a path IH]; intros cur; cbn; destruct (c =? 47) eqn:E; try done; destruct (a =? 47); rewrite IH, ?E; done. Qed.

Lemma after_slash_app path c n : (n <= length path)%nat -> after_slash (path ++ [c]) n = after_slash path n.
Proof.
  induction n as [|n IH]; intros Hn; cbn; [done|]; rewrite lookup_app_l by lia; case_match; [done|]; apply IH; lia.
Qed.

Lemma after_slash_le path n : (after_slash path n <= n)%nat.
Proof. induction n as [|n IH]; cbn; [done|]; case_match; lia. Qed.

(** The backwards scan of fmtname finds it. *)
Lemma after_slash_basename path : drop (after_slash path (length path)) path = last_part [] path.
Proof.
  induction path as [|c path IH] using rev_ind; [done|]; rewrite last_part_snoc, length_app, Nat.add_1_r; cbn [after_slash].
  rewrite list_lookup_middle by done; change (default 0 (Some c)) with c; destruct (c =? 47).
  - apply drop_ge; rewrite length_app; cbn; lia.
  - rewrite after_slash_app by lia; rewrite drop_app_le by apply after_slash_le; by rewrite IH.
Qed.

(** The name in a column of fourteen characters. *)
Definition column (name : list Z) : list Z := name ++ replicate (14 - length name) 32.
Lemma fmtname_column path : fmtname path = column (last_part [] path).
Proof.
  unfold fmtname, column; rewrite after_slash_basename; change DIRSIZ with 14; destruct (Z.leb_spec 14 (Z.of_nat (length (last_part [] path)))).
  - replace (14 - length (last_part [] path))%nat with 0%nat by lia; by rewrite app_nil_r.
  - done.
Qed.

(** ** The listing *)

Definition ls_row (path : list Z) (st : stat) : list Z :=
  column (last_part [] path) ++ [32] ++ number (st_type st) ++ [32] ++ number (st_ino st) ++ [32] ++ number (st_size st) ++ nl.

(** The line for an entry of the directory [path]. *)
Definition entry_line (v : view) (path de : list Z) : list Z :=
  if de_inum de =? 0 then []
  else
    let p := path ++ [47] ++ until_nul (de_name de) in
    match v_file v p with
    | Some (st, _) => ls_row p st
    | None => str "ls: cannot stat " ++ p ++ nl
    end.
Fixpoint dir_lines (n : nat) (v : view) (path c : list Z) : list Z :=
  match n with
  | O => []
  | S n' => entry_line v path (take 16 c) ++ dir_lines n' v path (drop 16 c)
  end.

(** What ls prints for one argument, and on which descriptor. *)
Definition ls_text (v : view) (path : list Z) : Z * list Z :=
  match v_file v path with
  | None => (2, str "ls: cannot open " ++ path ++ nl)
  | Some (st, c) =>
      (1, if (st_type st =? T_DEVICE) || (st_type st =? T_FILE) then ls_row path st
          else if st_type st =? T_DIR then
            if 512 <? Z.of_nat (length path) + 16 then str "ls: path too long" ++ nl
            else dir_lines (length c / 16) v path c
          else [])
  end.

Lemma ls_row_text path st :
  User.printf (str "%s %d %d %d" ++ nl) [S_ (fmtname path); VNum (st_type st); VNum (st_ino st); VNum (st_size st)] = Some (ls_row path st).
Proof. unfold ls_row; rewrite <- fmtname_column; cbv -[User.printint number then_print fmtname st_type st_ino st_size]; by rewrite !printint_number. Qed.

Section ls.
Context {E : Type} `{FileServer E}.

Lemma ls_line_runs path st s : exists s', runs (ls_line path st) s (Returned tt) s' /\ see s' = emit 1 (ls_row path st) (see s).
Proof. apply fprintf_runs; [by left|apply ls_row_text]. Qed.

Lemma stat_runs p s : (size (v_in (see s)) < 10)%nat ->
  exists r s', runs (stat_path p) s (Returned r) s' /\ see s' = see s /\
    match v_file (see s) p with Some (st, _) => r = (0, st) | None => r.1 = -1 end.
Proof.
  intros Hsz; unfold stat_path; pose proof (srv_open s p Hsz) as Ho; destruct (v_file (see s) p) as [[st c]|].
  - destruct Ho as (fd & s1 & R1 & Hfd & Hnew & V1).
    destruct (srv_fstat s1 fd st c) as (s2 & R2 & V2); [rewrite V1; apply lookup_insert_eq|]; destruct (srv_close s2 fd) as (r & s3 & R3 & V3).
    exists (0, st), s3; split_and!; [|rewrite V3, V2, V1; cbn [v_in set_in]; rewrite delete_insert_eq, delete_id, set_in_set by done; apply set_in_id|done].
    eapply runs_call; [exact R1|]; rewrite (proj2 (Z.ltb_ge fd 0)) by lia; eapply runs_call; [exact R2|]; eapply runs_call; [exact R3|apply runs_ret].
  - destruct Ho as (s1 & R1 & V1); exists (-1, Stat 0 0 0 0 0), s1; split_and!; [|done|done]; eapply runs_call; [exact R1|apply runs_ret].
Qed.

Lemma entry_runs path de s : (size (v_in (see s)) < 10)%nat ->
  exists s', runs (if de_inum de =? 0 then mret (inl tt)
    else '(r, st) ← stat_path (path ++ [47] ++ until_nul (de_name de));
         if r <? 0 then printf (str "ls: cannot stat %s" ++ nl) [S_ (path ++ [47] ++ until_nul (de_name de))];; mret (inl tt)
         else ls_line (path ++ [47] ++ until_nul (de_name de)) st;; mret (inl tt) : U (unit + unit)) s (Returned (inl tt)) s' /\
    see s' = emit 1 (entry_line (see s) path de) (see s).
Proof.
  intros Hsz; unfold entry_line; cbv zeta; destruct (de_inum de =? 0); [exists s; split; [apply runs_ret|by rewrite emit_nil]|].
  set (p := path ++ [47] ++ until_nul (de_name de)); destruct (stat_runs p s Hsz) as ([r st] & s1 & R1 & V1 & Hr).
  destruct (v_file (see s) p) as [[st' c']|].
  - injection Hr as -> ->; destruct (ls_line_runs p st' s1) as (s2 & R2 & V2); exists s2; split; [|by rewrite V2, V1].
    eapply runs_bind; [exact R1|]; cbn; eapply runs_bind; [exact R2|apply runs_ret].
  - cbn in Hr; subst r; destruct (fprintf_runs 1 (str "ls: cannot stat %s" ++ nl) [S_ p] (str "ls: cannot stat " ++ p ++ nl) s1) as (s2 & R2 & V2); [by left|done|].
    exists s2; split; [|by rewrite V2, V1]; eapply runs_bind; [exact R1|]; cbn; eapply runs_bind; [exact R2|apply runs_ret].
Qed.

Lemma entry_line_view v v' path de : v_file v' = v_file v -> entry_line v' path de = entry_line v path de.
Proof. intros Hv; unfold entry_line; by rewrite Hv. Qed.
Lemma dir_lines_view n v v' path c : v_file v' = v_file v -> dir_lines n v' path c = dir_lines n v path c.
Proof. intros Hv; revert c; induction n as [|n IH]; intros c; cbn; [done|]; by rewrite IH, (entry_line_view v v'). Qed.

(** The loop over the entries: every whole entry of the directory. *)
Lemma ls_entries_runs fd st path c s :
  v_in (see s) !! fd = Some (st, c) -> st_type st = T_DIR -> (size (v_in (see s)) < 10)%nat ->
  exists s' c', runs (ls_entries fd path) s (Returned tt) s' /\
    see s' = set_in (<[fd := (st, c')]> (v_in (see s))) (emit 1 (dir_lines (length c / 16) (see s) path c) (see s)).
Proof.
  intros Hfd Hst Hsz; remember (length c / 16)%nat as k eqn:Hk; revert s c Hk Hfd Hsz; induction k as [|k IH]; intros s c Hk Hfd Hsz; unfold ls_entries.
  all: destruct (srv_read s fd 16 st c Hfd ltac:(lia)) as (bs & c' & s1 & R1 & -> & _ & _ & Hfull & V1); rewrite Hst in Hfull; specialize (Hfull ltac:(done)).
  all: pose proof (Nat.div_mod_eq (length (bs ++ c')) 16) as Hd; pose proof (Nat.mod_upper_bound (length (bs ++ c')) 16 ltac:(lia)) as Hm.
  - exists s1, c'; split; [|by rewrite V1, emit_nil]; apply loop_done; eapply runs_call; [exact R1|]; cbn [fst snd].
    change DESIZE with 16; rewrite (proj2 (Z.eqb_neq _ 16)) by lia; apply runs_ret.
  - rewrite length_app in *; assert (Hb : length bs = 16%nat) by lia.
    assert (Hsz1 : (size (v_in (see s1)) < 10)%nat) by (rewrite V1; cbn [v_in set_in]; by rewrite map_size_insert_Some by (by eexists)).
    destruct (entry_runs path bs s1 Hsz1) as (s2 & R2 & V2).
    assert (Hin : v_in (see s2) = <[fd := (st, c')]> (v_in (see s))) by (by rewrite V2, emit_in, V1).
    destruct (IH s2 c') as (s3 & c3 & R3 & V3).
    { apply (Nat.div_unique _ _ _ ((length bs + length c') mod 16)); lia. }
    { rewrite Hin; apply lookup_insert_eq. }
    { rewrite V2, emit_in; done. }
    exists s3, c3; split.
    + eapply loop_next; [|exact R3]; eapply runs_call; [exact R1|]; cbn [fst snd]; rewrite Hb; exact R2.
    + rewrite V3, Hin, insert_insert_eq, (dir_lines_view _ (see s)) by (by rewrite V2, emit_file, V1); rewrite V2, V1, emit_emit, !emit_set_in, !set_in_set.
      cbn [dir_lines]; rewrite (entry_line_view (see s)) by done; by rewrite take_app_length', drop_app_length'.
Qed.

Lemma ls_runs path s : (size (v_in (see s)) < 9)%nat ->
  exists s', runs (ls path) s (Returned tt) s' /\ see s' = emit (ls_text (see s) path).1 (ls_text (see s) path).2 (see s).
Proof.
  intros Hsz; unfold ls, ls_text; pose proof (srv_open s path ltac:(lia)) as Ho; destruct (v_file (see s) path) as [[st c]|].
  2: { destruct Ho as (s1 & R1 & V1).
    destruct (fprintf_runs 2 (str "ls: cannot open %s" ++ nl) [S_ path] (str "ls: cannot open " ++ path ++ nl) s1) as (s2 & R2 & V2); [by right|done|].
    exists s2; split; [eapply runs_call; [exact R1|exact R2]|by rewrite V2, V1]. }
  destruct Ho as (fd & s1 & R1 & Hfd & Hnew & V1).
  destruct (srv_fstat s1 fd st c) as (s2 & R2 & V2); [rewrite V1; apply lookup_insert_eq|]; cbn [fst snd].
  set (text := if (st_type st =? T_DEVICE) || (st_type st =? T_FILE) then ls_row path st else _).
  assert (Hmid : exists s3 c3, runs (if (st_type st =? T_DEVICE) || (st_type st =? T_FILE) then ls_line path st
    else if st_type st =? T_DIR then if 512 <? Z.of_nat (length path) + 1 + DIRSIZ + 1 then printf (str "ls: path too long" ++ nl) [] else ls_entries fd path
    else mret tt) s2 (Returned tt) s3 /\ see s3 = set_in (<[fd := (st, c3)]> (v_in (see s2))) (emit 1 text (see s2))).
  { assert (Hin : v_in (see s2) !! fd = Some (st, c)) by (rewrite V2, V1; apply lookup_insert_eq).
    assert (Hid : forall bs, emit 1 bs (see s2) = set_in (<[fd := (st, c)]> (v_in (see s2))) (emit 1 bs (see s2))).
    { intros bs; rewrite insert_id by done; rewrite <- (emit_in 1 bs (see s2)) at 1; by rewrite set_in_id. }
    unfold text; destruct (_ || _); [|destruct (Z.eqb_spec (st_type st) T_DIR) as [Ht|]].
    - destruct (ls_line_runs path st s2) as (s3 & R3 & V3); exists s3, c; by rewrite V3, <- Hid.
    - replace (Z.of_nat (length path) + 1 + DIRSIZ + 1) with (Z.of_nat (length path) + 16) by (unfold DIRSIZ; lia); destruct (512 <? _).
      + destruct (fprintf_runs 1 (str "ls: path too long" ++ nl) [] (str "ls: path too long" ++ nl) s2) as (s3 & R3 & V3); [by left|done|]; exists s3, c; by rewrite V3, <- Hid.
      + destruct (ls_entries_runs fd st path c s2 Hin Ht) as (s3 & c3 & R3 & V3).
        { rewrite V2, V1; cbn [v_in set_in]; rewrite map_size_insert_None by done; lia. }
        exists s3, c3; rewrite V3, (dir_lines_view _ (see s)) by (by rewrite V2, V1); done.
    - exists s2, c; rewrite <- Hid, emit_nil; split; [apply runs_ret|done]. }
  destruct Hmid as (s3 & c3 & R3 & V3), (srv_close s3 fd) as (r & s4 & R4 & V4); exists s4; split.
  - eapply runs_call; [exact R1|]; rewrite (proj2 (Z.ltb_ge fd 0)) by lia; eapply runs_call; [exact R2|]; cbn [fst snd].
    eapply runs_bind; [exact R3|]; eapply runs_call; [exact R4|apply runs_ret].
  - rewrite V4, V3, V2, V1; cbn [v_in set_in]; rewrite !delete_insert_eq, delete_id by done; rewrite !emit_set_in, !set_in_set.
    rewrite <- (emit_in 1 text (see s)) at 1; by rewrite set_in_id.
Qed.
End ls.

(** What ls leaves of the arguments, one after the other. *)
Definition ls_views (args : list (list Z)) (v : view) : view := foldl (fun v p => emit (ls_text v p).1 (ls_text v p).2 v) v args.

Section main.
Context {E : Type} `{FileServer E}.

Lemma ls_all_runs args s : (size (v_in (see s)) < 9)%nat ->
  exists s', runs (each ls args) s (Returned tt) s' /\ see s' = ls_views args (see s).
Proof.
  revert s; induction args as [|p args IH]; intros s Hsz; [exists s; split; [apply runs_ret|done]|].
  destruct (ls_runs p s Hsz) as (s1 & R1 & V1), (IH s1) as (s2 & R2 & V2); [by rewrite V1, emit_in|].
  exists s2; split; [by eapply each_cons|]; by rewrite V2, V1.
Qed.

(** C21: ls ends with status 0 after a listing of each argument, or of the
    current directory.  A file or device gives one row, a directory one row
    for each entry in use, in the order of the directory: the last part of
    the name in a column of fourteen characters, the type, the inode number
    and the size, in decimal.  A name that does not open is reported on
    standard error. *)
Theorem ls_correct (s : E) (prog : list Z) (args : list (list Z)) :
  (size (v_in (see s)) < 9)%nat ->
  exists s', runs (ls_main (prog :: args)) s (Exited 0) s' /\
    see s' = ls_views (match args with [] => [str "."] | _ => args end) (see s).
Proof.
  intros Hsz; unfold ls_main; destruct args as [|a args].
  - destruct (ls_runs (str ".") s Hsz) as (s1 & R1 & V1); exists s1; split; [|done]; eapply runs_bind; [exact R1|apply runs_exit].
  - destruct (ls_all_runs (a :: args) s Hsz) as (s1 & R1 & V1); exists s1; split; [|done].
    rewrite (proj2 (Z.ltb_ge _ 2)) by (cbn [length]; lia); eapply runs_bind; [exact R1|apply runs_exit].
Qed.

(** ** echo *)

Definition joined (args : list (list Z)) : list Z :=
  match args with [] => [] | a :: args' => a ++ mjoin ((fun x => 32 :: x) <$> args') ++ nl end.

Lemma echo_runs prog args s : exists s', runs (echo_main (prog :: args)) s (Exited 0) s' /\ see s' = emit 1 (joined args) (see s).
Proof.
  enough (Ha : forall s, exists s', runs (echo_args args) s (Returned tt) s' /\ see s' = emit 1 (joined args) (see s)).
  { destruct (Ha s) as (s' & R & V); exists s'; split; [eapply runs_bind; [exact R|apply runs_exit]|done]. }
  clear s; induction args as [|a args IH]; intros s; [exists s; split; [apply runs_ret|by rewrite emit_nil]|]; cbn [echo_args].
  destruct (srv_write s 1 a ltac:(by left)) as (s1 & R1 & V1); destruct args as [|b args].
  - destruct (srv_write s1 1 nl ltac:(by left)) as (s2 & R2 & V2); exists s2; split; [|by rewrite V2, V1, emit_emit].
    eapply runs_call; [exact R1|]; eapply runs_call; [exact R2|apply runs_ret].
  - destruct (srv_write s1 1 [32] ltac:(by left)) as (s2 & R2 & V2), (IH s2) as (s3 & R3 & V3); exists s3; split.
    + eapply runs_call; [exact R1|]; eapply runs_call; [exact R2|exact R3].
    + rewrite V3, V2, V1, !emit_emit; cbn; by rewrite <- !app_assoc.
Qed.
End main.

(** A directory with an empty entry between two names. *)
Definition demo_dir : view :=
  View (fun p => if bool_decide (p = str "d") then
                   Some (Stat 1 5 T_DIR 1 48, [7; 0] ++ str "cat" ++ replicate 11 0 ++ replicate 16 0 ++ [9; 0] ++ str "abcdefghijklmn")
                 else if bool_decide (p = str "d/cat") then Some (Stat 1 7 T_FILE 1 12, [])
                 else None) ∅ [] [].

Lemma ls_correct_witness :
  exists s', runs (ls_main [str "ls"; str "d"; str "x"]) demo_dir (Exited 0) s' /\
    v_stdout s' = str "cat            2 7 12" ++ nl ++ str "ls: cannot stat d/abcdefghijklmn" ++ nl /\
    v_stderr s' = str "ls: cannot open x" ++ nl.
Proof.
  destruct (ls_correct demo_dir (str "ls") [str "d"; str "x"]) as (s' & R & V); [apply Nat.ltb_lt; vm_compute; reflexivity|].
  exists s'; split; [exact R|]; split; [apply (f_equal v_stdout) in V|apply (f_equal v_stderr) in V]; refine (eq_trans V _); vm_compute; reflexivity.
Defined.
