(* ===== verification/InitOk.v ===== *)
(** * init keeps a shell running

    init opens the console and then, round after round, starts a shell and
    reaps children until that shell has ended.  The kernel panics when init
    exits; init does so only when fork or wait fails. *)

From ITree Require Import Core.ITreeDefinition Indexed.Sum.
From S2P Require Import Prelude CMem KString Printf UPrintf Ulib Grep Fs Sysfile Usys Utools.

(** ** The calls of a run *)

(** A call and its answer. *)
Inductive obs : Type :=
| Obs {A : Type} (e : sysE A) (a : A).

Section trace.
Context {E : Type} `{Os E}.

(** The calls in the first [n] steps. *)
Fixpoint trace {A} (n : nat) (t : U A) (s : E) : list obs :=
  match n with
  | O => []
  | S n' =>
      match observe t with
      | RetF a => []
      | TauF t' => trace n' t' s
      | VisF e k =>
          match e with
          | inl1 e => let '(a, s') := sys e s in Obs e a :: trace n' (k a) s'
          | inr1 _ => []
          end
      end
  end.

(** The program makes the calls [l] and ends with [o] in [s']. *)
Definition acts {A} (t : U A) (s : E) (l : list obs) (o : ending A) (s' : E) : Prop :=
  exists n, run n t s = Some (o, s') /\ trace n t s = l.

Lemma trace_more {A} n m (t : U A) s r : run n t s = Some r -> trace (n + m) t s = trace n t s.
Proof.
  revert t s; induction n as [|n IH]; intros t s; cbn [run trace Nat.add]; [done|].
  destruct (observe t) as [a|t'|X e k]; [done|apply IH|]; destruct e as [e|e]; [|done].
  destruct (sys e s); intros Hr; f_equal; by apply IH.
Qed.

Lemma acts_run {A} (t : U A) s l o s' n o1 s1 :
  acts t s l o s' -> run n t s = Some (o1, s1) -> o1 = o /\ s1 = s' /\ trace n t s = l.
Proof.
  intros (m & Hm & <-) Hn; pose proof (run_more m n _ _ _ Hm) as Hm'; pose proof (run_more n m _ _ _ Hn) as Hn'.
  rewrite Nat.add_comm, Hn' in Hm'; injection Hm' as -> ->; split_and!; auto.
  rewrite <- (trace_more n m _ _ _ Hn), <- (trace_more m n _ _ _ Hm); f_equal; lia.
Qed.

Lemma acts_ret {A} (a : A) s : acts (mret a : U A) s [] (Returned a) s.
Proof. by exists 1%nat. Qed.
Lemma acts_exit {A} z s : acts (exit z : U A) s [] (Exited z) s.
Proof. by exists 1%nat. Qed.

Lemma run_step_bind {A B} n (t : U A) (k : A -> U B) (s : E) :
  run (S n) (t ≫= k) s =
  match observe t with
  | RetF a => run (S n) (k a) s
  | TauF t' => run n (t' ≫= k) s
  | VisF (inl1 e) h => let '(x, s1) := sys e s in run n (h x ≫= k) s1
  | VisF (inr1 e) h => match e with Exit z => Some (Exited z, s) | Undefined => Some (Crashed, s) end
  end.
Proof.
  assert (Hb : observe (t ≫= k) = observe (match observe t with
    | RetF a => k a | TauF t' => go (TauF (t' ≫= k)) | VisF e h => go (VisF e (fun x => h x ≫= k)) end)) by done.
  cbn [run]; rewrite Hb; destruct (observe t) as [a|t'|X e h]; [done|done|]; by destruct e as [e|e].
Qed.

Lemma trace_step_bind {A B} n (t : U A) (k : A -> U B) (s : E) :
  trace (S n) (t ≫= k) s =
  match observe t with
  | RetF a => trace (S n) (k a) s
  | TauF t' => trace n (t' ≫= k) s
  | VisF (inl1 e) h => let '(x, s1) := sys e s in Obs e x :: trace n (h x ≫= k) s1
  | VisF (inr1 e) h => []
  end.
Proof.
  assert (Hb : observe (t ≫= k) = observe (match observe t with
    | RetF a => k a | TauF t' => go (TauF (t' ≫= k)) | VisF e h => go (VisF e (fun x => h x ≫= k)) end)) by done.
  cbn [trace]; rewrite Hb; destruct (observe t) as [a|t'|X e h]; [done|done|]; by destruct e as [e|e].
Qed.

(** Calls of a sequence: those of the first part, then those of the rest. *)
Lemma trace_bind {A B} n (t : U A) (k : A -> U B) s a s1 m :
  run n t s = Some (Returned a, s1) -> exists j, trace j (t ≫= k) s = trace n t s ++ trace m (k a) s1 /\
    forall r, run m (k a) s1 = Some r -> run j (t ≫= k) s = Some r.
Proof.
  revert t s; induction n as [|n IH]; intros t s Hr; [done|]; cbn [run trace] in *.
  destruct (observe t) as [a'|t'|X e h] eqn:Et.
  - injection Hr as -> ->; destruct m as [|m]; [by exists O|exists (S m)]; rewrite trace_step_bind, Et; split; [done|].
    intros r Hk; rewrite run_step_bind, Et; exact Hk.
  - destruct (IH _ _ Hr) as (j & Hj & Hk); exists (S j); rewrite trace_step_bind, Et; split; [done|].
    intros r Hm; rewrite run_step_bind, Et; auto.
  - destruct e as [e|e]; [|by destruct e]; destruct (sys e s) as [x s2] eqn:Es; destruct (IH _ _ Hr) as (j & Hj & Hk).
    exists (S j); rewrite trace_step_bind, Et, Es, Hj; split; [done|]; intros r Hm; rewrite run_step_bind, Et, Es; auto.
Qed.

Lemma acts_bind {A B} (t : U A) (k : A -> U B) s l1 a s1 l2 o s2 :
  acts t s l1 (Returned a) s1 -> acts (k a) s1 l2 o s2 -> acts (t ≫= k) s (l1 ++ l2) o s2.
Proof.
  intros (n & Hn & <-) (m & Hm & <-); destruct (trace_bind n t k s a s1 m Hn) as (j & Hj & Hk); exists j; auto.
Qed.
Lemma acts_call {A B} (e : sysE A) (k : A -> U B) s l o s2 :
  acts (k (sys e s).1) (sys e s).2 l o s2 -> acts (call e ≫= k) s (Obs e (sys e s).1 :: l) o s2.
Proof.
  apply (acts_bind (call e) k s [Obs e (sys e s).1]); exists 2%nat; cbn; by destruct (sys e s).
Qed.

(** A run of a sequence that ends. *)
Lemma run_bind_inv {A B} n (t : U A) (k : A -> U B) (s : E) r :
  run n (t ≫= k) s = Some r ->
  (exists a s1 m, (m <= n)%nat /\ run n t s = Some (Returned a, s1) /\ run m (k a) s1 = Some r /\
     trace n (t ≫= k) s = trace n t s ++ trace m (k a) s1) \/
  (exists z s1, run n t s = Some (Exited z, s1) /\ r = (Exited z, s1) /\ trace n (t ≫= k) s = trace n t s) \/
  (exists s1, run n t s = Some (Crashed, s1)).
Proof.
  revert t s; induction n as [|n IH]; intros t s Hr; [done|]; rewrite run_step_bind in Hr; rewrite trace_step_bind; cbn [run trace].
  destruct (observe t) as [a|t'|X e h].
  - left; exists a, s, (S n); done.
  - destruct (IH _ _ Hr) as [(a & s1 & m & Hm & H1)|HE]; [left; exists a, s1, m; auto|by right].
  - destruct e as [e|e].
    + destruct (sys e s) as [x s1]; destruct (IH _ _ Hr) as [(a & s2 & m & Hm & R1 & R2 & T)|[(z & s2 & R1 & -> & T)|HE]].
      * left; exists a, s2, m; rewrite T; auto.
      * right; left; exists z, s2; rewrite T; auto.
      * by right; right.
    + destruct e; [right; left; injection Hr as <-|right; right]; eauto.
Qed.

Lemma run_call_inv {A B} n (e : sysE A) (k : A -> U B) (s : E) r :
  run n (call e ≫= k) s = Some r ->
  exists m, (m < n)%nat /\ run m (k (sys e s).1) (sys e s).2 = Some r /\
    trace n (call e ≫= k) s = Obs e (sys e s).1 :: trace m (k (sys e s).1) (sys e s).2.
Proof.
  destruct n as [|[|n]]; [done|cbn; by destruct (sys e s)|].
  rewrite run_step_bind, trace_step_bind; cbn [observe call]; cbn; destruct (sys e s) as [x s1]; intros Hr.
  exists (S n); split_and!; [lia|exact Hr|done].
Qed.

(** [t] in [s] goes on as [t'] in [s'] after the calls [l]. *)
Definition leads {A} (t : U A) (s : E) (l : list obs) (t' : U A) (s' : E) : Prop :=
  (forall m, exists n, trace n t s = l ++ trace m t' s' /\ forall r, run m t' s' = Some r -> run n t s = Some r) /\
  (forall n r, run n t s = Some r -> exists m, (m <= n)%nat /\ run m t' s' = Some r /\ trace n t s = l ++ trace m t' s').

Lemma leads_trans {A} (t1 t2 t3 : U A) s1 s2 s3 l1 l2 :
  leads t1 s1 l1 t2 s2 -> leads t2 s2 l2 t3 s3 -> leads t1 s1 (l1 ++ l2) t3 s3.
Proof.
  intros [F1 B1] [F2 B2]; split.
  - intros m; destruct (F2 m) as (n2 & H2 & R2), (F1 n2) as (n1 & H1 & R1); exists n1; rewrite H1, H2, app_assoc; auto.
  - intros n r Hr; destruct (B1 n r Hr) as (m1 & Hm1 & R1 & T1), (B2 m1 r R1) as (m2 & Hm2 & R2 & T2).
    exists m2; split_and!; [lia|done|by rewrite T1, T2, app_assoc].
Qed.
Lemma leads_acts {A B} (t : U A) (k : A -> U B) s l a s1 : acts t s l (Returned a) s1 -> leads (t ≫= k) s l (k a) s1.
Proof.
  intros Ha; split.
  - intros m; destruct Ha as (n & Hn & <-); destruct (trace_bind n t k s a s1 m Hn) as (j & Hj); by exists j.
  - intros n r Hr; destruct (run_bind_inv _ _ _ _ _ Hr) as [(a' & s2 & m & Hm & R1 & R2 & T)|[(z & s2 & R & _)|[s2 R]]].
    + destruct (acts_run _ _ _ _ _ _ _ _ Ha R1) as ([= ->] & -> & Ht); exists m; by rewrite T, Ht.
    + by destruct (acts_run _ _ _ _ _ _ _ _ Ha R) as (? & _).
    + by destruct (acts_run _ _ _ _ _ _ _ _ Ha R) as (? & _).
Qed.
Lemma leads_call {A B} (e : sysE A) (k : A -> U B) s : leads (call e ≫= k) s [Obs e (sys e s).1] (k (sys e s).1) (sys e s).2.
Proof. apply leads_acts; exists 2%nat; cbn; by destruct (sys e s). Qed.

(** Loops. *)
Lemma loop_unfold {I A} n (body : I -> U (I + A)) i s :
  let k := fun r => match r with inl j => go (TauF (loop body j)) | inr a => go (RetF a) end in
  run n (loop body i) s = run n (body i ≫= k) s /\ trace n (loop body i) s = trace n (body i ≫= k) s.
Proof. intros k; destruct n as [|n]; [done|]; split; cbn [run trace]; unfold loop at 1; by rewrite observe_iter. Qed.
Lemma leads_loop {I A} (body : I -> U (I + A)) i j s l s1 :
  acts (body i) s l (Returned (inl j)) s1 -> leads (loop body i) s l (loop body j) s1.
Proof.
  intros Ha; destruct (leads_acts (body i) (fun r => match r with inl j => go (TauF (loop body j)) | inr a => go (RetF a) end) s l _ s1 Ha) as [F B].
  split.
  - intros m; destruct (F (S m)) as (n & Hn & Hr); exists n; destruct (loop_unfold n body i s) as [-> ->]; split; [exact Hn|].
    intros r Hm; apply Hr; exact Hm.
  - intros n r Hr; rewrite (proj1 (loop_unfold n body i s)) in Hr; destruct (B n r Hr) as ([|m] & Hm & R & T); [done|].
    exists m; rewrite (proj2 (loop_unfold n body i s)); split_and!; [lia|exact R|exact T].
Qed.
Lemma loop_ends {I A} (body : I -> U (I + A)) i s l a s1 : acts (body i) s l (Returned (inr a)) s1 -> acts (loop body i) s l (Returned a) s1.
Proof.
  intros Ha; pose proof (acts_bind _ (fun r => match r with inl j => go (TauF (loop body j)) | inr a => go (RetF a) end) _ _ _ _ _ _ _ Ha (acts_ret a s1)) as (n & Hn).
  exists n; destruct (loop_unfold n body i s) as [-> ->]; by rewrite app_nil_r in Hn.
Qed.
Lemma leads_end {A} (t t' : U A) s s' l l' o s1 : leads t s l t' s' -> acts t' s' l' o s1 -> acts t s (l ++ l') o s1.
Proof. intros [F _] (m & Hm & <-); destruct (F m) as (n & Hn & Hr); exists n; auto. Qed.
Lemma loop_inv {I A} n (body : I -> U (I + A)) i s r :
  run n (loop body i) s = Some r ->
  (exists j s1 m, (m < n)%nat /\ run n (body i) s = Some (Returned (inl j), s1) /\ run m (loop body j) s1 = Some r /\
     trace n (loop body i) s = trace n (body i) s ++ trace m (loop body j) s1) \/
  (exists a s1, run n (body i) s = Some (Returned (inr a), s1) /\ r = (Returned a, s1) /\ trace n (loop body i) s = trace n (body i) s) \/
  (exists z s1, run n (body i) s = Some (Exited z, s1) /\ r = (Exited z, s1) /\ trace n (loop body i) s = trace n (body i) s) \/
  (exists s1, run n (body i) s = Some (Crashed, s1)).
Proof.
  destruct (loop_unfold n body i s) as [-> ->]; intros Hr.
  destruct (run_bind_inv _ _ _ _ _ Hr) as [([j|a] & s1 & [|m] & Hm & R1 & R2 & T)|[(z & s1 & R & -> & T)|HE]]; [done| |done| | |].
  - left; exists j, s1, m; split_and!; [lia|done|exact R2|exact T].
  - right; left; exists a, s1; cbn in R2, T; injection R2 as <-; by rewrite app_nil_r in T.
  - do 2 right; left; eauto.
  - by do 3 right.
Qed.

(** Every answer in a trace is one the system gave. *)
Lemma trace_answers {A} n (t : U A) s : Forall (fun o => match o with Obs e a => exists s', (sys e s').1 = a end) (trace n t s).
Proof.
  revert t s; induction n as [|n IH]; intros t s; cbn [trace]; [constructor|].
  destruct (observe t) as [a|t'|X e k]; [constructor|apply IH|]; destruct e as [e|e]; [|constructor].
  destruct (sys e s) as [a s1] eqn:Es; constructor; [exists s; by rewrite Es|apply IH].
Qed.
End trace.

(** ** What init is to do *)

(** The characters [out], each with a call of write. *)
Definition prints (out : list Z) (l : list obs) : Prop := Forall2 (fun c o => exists r, o = Obs (Write 1 [c]) r) out l.

(** The console on descriptors 0, 1 and 2; its device is made when there is none. *)
Inductive console_opened : list obs -> Prop :=
| co_there fd r1 r2 : 0 <= fd -> console_opened [Obs (Open (str "console") O_RDWR) fd; Obs (Dup 0) r1; Obs (Dup 0) r2]
| co_made fd r fd' r1 r2 : fd < 0 ->
    console_opened [Obs (Open (str "console") O_RDWR) fd; Obs (Mknod (str "console") 1 0) r; Obs (Open (str "console") O_RDWR) fd';
      Obs (Dup 0) r1; Obs (Dup 0) r2].

(** Children that are not the shell. *)
Definition orphans (pid : Z) (ws : list Z) : Prop := Forall (fun w => 0 <= w /\ w <> pid) ws.

(** A round, and how it ends: the parent reaps children until the shell has
    ended; the child runs the shell, and says so if it cannot. *)
Inductive round : list obs -> ending unit -> Prop :=
| rd_shell b pid ws :
    prints (str "init: starting sh" ++ nl) b -> 0 < pid -> orphans pid ws ->
    round (b ++ Obs Fork pid :: (Obs Wait <$> ws) ++ [Obs Wait pid]) (Returned tt)
| rd_child b r msg :
    prints (str "init: starting sh" ++ nl) b -> prints (str "init: exec sh failed" ++ nl) msg ->
    round (b ++ Obs Fork 0 :: Obs (Exec (str "sh") [str "sh"]) r :: msg) (Exited 1)
| rd_no_fork b pid msg :
    prints (str "init: starting sh" ++ nl) b -> pid < 0 -> prints (str "init: fork failed" ++ nl) msg ->
    round (b ++ Obs Fork pid :: msg) (Exited 1)
| rd_no_wait b pid ws w msg :
    prints (str "init: starting sh" ++ nl) b -> 0 < pid -> orphans pid ws -> w < 0 -> prints (str "init: wait returned an error" ++ nl) msg ->
    round (b ++ Obs Fork pid :: (Obs Wait <$> ws) ++ Obs Wait w :: msg) (Exited 1).

(** [k] shells, one after the other. *)
Inductive shells : nat -> list obs -> Prop :=
| sh_none : shells 0 []
| sh_more k l l' : round l (Returned tt) -> shells k l' -> shells (S k) (l ++ l').

(** ** What it does *)

Section init.
Context {E : Type} `{Os E}.

Lemma printf_acts fmt out s :
  User.printf fmt [] = Some out -> exists l s1, acts (printf fmt []) s l (Returned tt) s1 /\ prints out l.
Proof.
  intros Ho; unfold printf, fprintf; rewrite Ho; clear Ho; revert s; induction out as [|c out IH]; intros s; cbn [each].
  { exists [], s; split; [apply acts_ret|constructor]. }
  destruct (IH (sys (Write 1 [c]) s).2) as (l & s1 & R & P); exists (Obs (Write 1 [c]) (sys (Write 1 [c]) s).1 :: l), s1; split.
  - apply (acts_bind (putc 1 c) (fun _ => each (putc 1) out) s [_] tt (sys (Write 1 [c]) s).2); [|done]; apply acts_call, acts_ret.
  - constructor; eauto.
Qed.

(** A message and an exit. *)
Lemma complain {A} fmt out z (s : E) n (o : ending A) s1 :
  run n (printf fmt [];; exit z) s = Some (o, s1) -> User.printf fmt [] = Some out ->
  o = Exited z /\ prints out (trace n (printf fmt [];; exit z : U A) s).
Proof.
  intros Hr Ho; destruct (printf_acts fmt out s Ho) as (l & s2 & R & P).
  destruct (acts_run _ _ _ _ _ _ _ _ (acts_bind _ (fun _ => exit z) _ _ _ _ _ _ _ R (acts_exit z s2)) Hr) as (-> & _ & ->).
  by rewrite app_nil_r.
Qed.

(** The inner loop, and a run of it. *)
Lemma wait_shell_inv n pid (s : E) o s1 :
  run n (wait_shell pid) s = Some (o, s1) ->
  exists ws, orphans pid ws /\
    ((o = Returned tt /\ trace n (wait_shell pid) s = (Obs Wait <$> ws) ++ [Obs Wait pid]) \/
     (exists w msg, o = Exited 1 /\ w < 0 /\ prints (str "init: wait returned an error" ++ nl) msg /\
        trace n (wait_shell pid) s = (Obs Wait <$> ws) ++ Obs Wait w :: msg)).
Proof.
  unfold wait_shell; revert s; induction n as [n IH] using lt_wf_ind; intros s Hr.
  set (body := fun _ : unit => _) in *.
  assert (Hb : forall m (b : ending (unit + unit)) s2, run m (body tt) s = Some (b, s2) ->
    let w := (sys Wait s).1 in
    (w = pid /\ b = Returned (inr tt) /\ trace m (body tt) s = [Obs Wait w]) \/
    (w <> pid /\ w < 0 /\ b = Exited 1 /\ exists msg, prints (str "init: wait returned an error" ++ nl) msg /\ trace m (body tt) s = Obs Wait w :: msg) \/
    (w <> pid /\ 0 <= w /\ b = Returned (inl tt) /\ trace m (body tt) s = [Obs Wait w])).
  { intros m b s2 Hm w; unfold body in *; destruct (run_call_inv _ _ _ _ _ Hm) as (m1 & _ & R & ->); fold w in R |- *.
    destruct (Z.eqb_spec w pid) as [Hw|Hw]; [left|right; destruct (Z.ltb_spec w 0) as [Hz|Hz]; [left|right]].
    - destruct (acts_run _ _ _ _ _ _ _ _ (acts_ret (inr tt : unit + unit) _) R) as (-> & _ & ->); done.
    - destruct (complain _ _ _ _ _ _ _ R eq_refl) as [-> P]; split_and!; eauto.
    - destruct (acts_run _ _ _ _ _ _ _ _ (acts_ret (inl tt : unit + unit) _) R) as (-> & _ & ->); done. }
  destruct (loop_inv _ _ _ _ _ Hr) as [([] & s2 & m & Hm & R1 & R2 & T)|[([] & s2 & R1 & [= -> ->] & T)|[(z & s2 & R1 & [= -> ->] & T)|[s2 R1]]]];
    destruct (Hb _ _ _ R1) as [(Hw & Eb & Tb)|[(Hw & Hz & Eb & msg & P & Tb)|(Hw & Hz & Eb & Tb)]]; try done; rewrite T, Tb.
  - destruct (IH m Hm s2 R2) as (ws & Hws & Hend); exists ((sys Wait s).1 :: ws); split; [by constructor|].
    destruct Hend as [[-> ->]|(w & msg & -> & ? & ? & ->)]; [by left|right; by exists w, msg].
  - exists []; split; [constructor|left; by rewrite Hw].
  - injection Eb as ->; exists []; split; [constructor|right; by exists (sys Wait s).1, msg].
Qed.

Lemma run_shell_inv n (s : E) o s1 : run n run_shell s = Some (o, s1) -> round (trace n run_shell s) o.
Proof.
  intros Hr; unfold run_shell in *; destruct (printf_acts (str "init: starting sh" ++ nl) _ s eq_refl) as (b & s2 & Rb & Pb).
  destruct (proj2 (leads_acts _ _ _ _ _ _ Rb) n _ Hr) as (m & _ & R & ->).
  destruct (run_call_inv _ _ _ _ _ R) as (m1 & _ & R1 & ->); set (pid := (sys Fork s2).1) in *.
  destruct (Z.ltb_spec pid 0) as [H0|H0].
  { destruct (complain _ _ _ _ _ _ _ R1 eq_refl) as [-> P]; by constructor. }
  destruct (Z.eqb_spec pid 0) as [H1|H1].
  - rewrite H1; destruct (run_call_inv _ _ _ _ _ R1) as (m2 & _ & R2 & ->); destruct (complain _ _ _ _ _ _ _ R2 eq_refl) as [-> P]; by constructor.
  - destruct (wait_shell_inv _ _ _ _ _ R1) as (ws & Hws & [[-> ->]|(w & msg & -> & Hw & P & ->)]); constructor; auto; lia.
Qed.

(** The whole of a round whose shell ends. *)
Definition after_waits (n : nat) (s : E) : E := Nat.iter n (fun s => (sys Wait s).2) s.

Lemma wait_shell_acts k pid (s : E) :
  (forall s : E, 0 <= (sys Wait s).1) -> (sys Wait (after_waits k s)).1 = pid ->
  exists l s1, acts (wait_shell pid) s l (Returned tt) s1.
Proof.
  intros Hw; unfold wait_shell; revert s; induction k as [|k IH]; intros s Hk.
  - eexists _, _; apply loop_ends, acts_call; cbn in Hk; rewrite Hk, Z.eqb_refl; apply acts_ret.
  - destruct (Z.eq_dec (sys Wait s).1 pid) as [Hp|Hp].
    + eexists _, _; apply loop_ends, acts_call; rewrite Hp, Z.eqb_refl; apply acts_ret.
    + destruct (IH (sys Wait s).2) as (l & s1 & R); [by unfold after_waits in *; rewrite Nat.iter_succ_r in Hk|].
      eexists _, s1; eapply leads_end; [|exact R]; apply leads_loop, acts_call.
      apply Z.eqb_neq in Hp as ->; pose proof (Hw s) as Hs; apply Z.ltb_ge in Hs as ->; apply acts_ret.
Qed.

Lemma run_shell_acts (s : E) :
  (forall s : E, 0 < (sys Fork s).1) -> (forall s : E, 0 <= (sys Wait s).1) ->
  (forall s : E, exists k, (sys Wait (after_waits k (sys Fork s).2)).1 = (sys Fork s).1) ->
  exists l s1, acts run_shell s l (Returned tt) s1 /\ round l (Returned tt).
Proof.
  intros Hf Hw Hr; destruct (printf_acts (str "init: starting sh" ++ nl) _ s eq_refl) as (b & s2 & Rb & _).
  destruct (Hr s2) as [k Hk]; destruct (wait_shell_acts k _ _ Hw Hk) as (l & s3 & R).
  assert (HA : acts run_shell s (b ++ Obs Fork (sys Fork s2).1 :: l) (Returned tt) s3).
  { eapply acts_bind; [exact Rb|]; apply acts_call; specialize (Hf s2).
    rewrite (proj2 (Z.ltb_ge _ _)), (proj2 (Z.eqb_neq _ _)) by lia; exact R. }
  eexists _, s3; split; [exact HA|]; destruct HA as (n & Hn & <-); by apply run_shell_inv in Hn.
Qed.

(** The start of init. *)
Lemma init_opens (s : E) :
  exists l s1, console_opened l /\ leads init_main s l (loop (fun _ : unit => run_shell;; mret (inl tt)) tt) s1.
Proof.
  unfold init_main; set (rest := loop _ _); set (fd := (sys (Open (str "console") O_RDWR) s).1).
  destruct (Z.ltb_spec fd 0) as [Hfd|Hfd].
  - eexists _, _; split; [apply (co_made fd); exact Hfd|].
    eapply (leads_trans _ _ _ _ _ _ [_] (_ :: _ :: _)); [apply leads_call|]; fold fd; rewrite (proj2 (Z.ltb_lt _ _)) by done.
    eapply (leads_trans _ _ _ _ _ _ [_; _] [_; _]); [apply leads_acts, acts_call, acts_call, acts_ret|].
    eapply (leads_trans _ _ _ _ _ _ [_] [_]); apply leads_call.
  - eexists _, _; split; [apply (co_there fd); exact Hfd|].
    eapply (leads_trans _ _ _ _ _ _ [_] [_; _]); [apply leads_call|]; fold fd; rewrite (proj2 (Z.ltb_ge _ _)) by done.
    eapply (leads_trans _ _ _ _ _ _ [] [_; _]); [apply leads_acts, acts_ret|].
    eapply (leads_trans _ _ _ _ _ _ [_] [_]); apply leads_call.
Qed.

(** Its loop. *)
Lemma rounds_inv n (s : E) o s1 :
  let rest := loop (fun _ : unit => run_shell;; mret (inl tt)) tt : U unit in
  run n rest s = Some (o, s1) ->
  exists k ls l, trace n rest s = ls ++ l /\ shells k ls /\ round l (Exited 1) /\ o = Exited 1.
Proof.
  intros rest; revert s; induction n as [n IH] using lt_wf_ind; intros s Hr.
  assert (Hx : forall l z, round l (Exited z) -> z = 1) by (inversion 1; done).
  assert (Hc : forall l, ~ round l Crashed) by (intros l HC; inversion HC).
  destruct (loop_inv _ _ _ _ _ Hr) as [([] & s2 & m & Hm & R1 & R2 & T)|[([] & s2 & R1 & [= -> ->] & T)|[(z & s2 & R1 & [= -> ->] & T)|[s2 R1]]]];
    destruct (run_bind_inv _ _ _ _ _ R1) as [([] & s3 & [|m'] & Hm' & Q1 & Q2 & T')|[(z' & s3 & Q1 & E1 & T')|[s3 Q1]]]; try done;
    try (by apply run_shell_inv, Hc in Q1).
  - destruct (IH m Hm s2 R2) as (k & ls & l & T2 & Hls & Hl & ->); fold rest in T2, T.
    exists (S k), (trace n run_shell s ++ ls), l; rewrite T, T', T2; cbn [trace]; cbn; rewrite app_nil_r, app_assoc.
    split_and!; auto; constructor; [|done]; by apply run_shell_inv in Q1.
  - injection E1 as <- <-; apply run_shell_inv in Q1; pose proof (Hx _ _ Q1) as ->.
    exists O, [], (trace n run_shell s); fold rest in T; rewrite T, T'; split_and!; auto; constructor.
Qed.

Lemma rounds_go k (s : E) :
  (forall s : E, 0 < (sys Fork s).1) -> (forall s : E, 0 <= (sys Wait s).1) ->
  (forall s : E, exists k, (sys Wait (after_waits k (sys Fork s).2)).1 = (sys Fork s).1) ->
  exists n ls, trace n (loop (fun _ : unit => run_shell;; mret (inl tt)) tt : U unit) s = ls /\ shells k ls.
Proof.
  intros Hf Hw Hr; revert s; induction k as [|k IH]; intros s; [exists O, []; split; [done|constructor]|].
  destruct (run_shell_acts s Hf Hw Hr) as (l & s1 & Ra & Hl), (IH s1) as (m & ls & Hm & Hls).
  destruct (leads_loop (fun _ : unit => run_shell;; mret (inl tt : unit + unit)) tt tt s l s1) as [F _].
  { rewrite <- (app_nil_r l); eapply acts_bind; [exact Ra|apply acts_ret]. }
  destruct (F m) as (n & Hn & _); exists n, (l ++ ls); rewrite Hn, Hm; split; [done|by constructor].
Qed.

(** A round that makes init exit has a failed call. *)
Lemma round_fails l :
  round l (Exited 1) -> (exists p, p <= 0 /\ Obs Fork p ∈ l) \/ (exists w, w < 0 /\ Obs Wait w ∈ l).
Proof.
  inversion 1; subst; [left|left|right]; eexists; (split; [|rewrite !elem_of_app, ?elem_of_cons, ?elem_of_app, ?elem_of_cons; eauto 8]); lia.
Qed.

(** C22: whatever the system answers, init opens the console (making its
    device if need be) on descriptors 0, 1 and 2 and then makes rounds: each
    prints the banner, forks, and waits, passing over other children, until
    the child of that round has ended.  When it ends at all it is by
    exit(1), after some full rounds and one in which fork failed, wait
    failed, or which is the child's own part (exec of sh, which came back).
    If fork always makes a child, wait always succeeds and some later wait
    returns that child, then init completes any number of rounds and never
    ends. *)
Theorem init_correct (s : E) :
  (forall n o s1, run n init_main s = Some (o, s1) ->
     exists l0 k ls l, trace n init_main s = l0 ++ ls ++ l /\ console_opened l0 /\ shells k ls /\ round l (Exited 1) /\ o = Exited 1) /\
  ((forall s : E, 0 < (sys Fork s).1) -> (forall s : E, 0 <= (sys Wait s).1) ->
   (forall s : E, exists k, (sys Wait (after_waits k (sys Fork s).2)).1 = (sys Fork s).1) ->
   (forall k, exists n l0 ls, trace n init_main s = l0 ++ ls /\ console_opened l0 /\ shells k ls) /\
   (forall n, run n init_main s = None)).
Proof.
  destruct (init_opens s) as (l0 & s0 & H0 & F & B).
  assert (HA : forall n o s1, run n init_main s = Some (o, s1) ->
     exists l0 k ls l, trace n init_main s = l0 ++ ls ++ l /\ console_opened l0 /\ shells k ls /\ round l (Exited 1) /\ o = Exited 1).
  { intros n o s1 Hr; destruct (B n _ Hr) as (m & _ & Rm & ->).
    destruct (rounds_inv _ _ _ _ Rm) as (k & ls & l & -> & Hls & Hl & ->); by exists l0, k, ls, l. }
  split; [done|]; intros Hf Hw Hr; split.
  - intros k; destruct (rounds_go k s0 Hf Hw Hr) as (m & ls & <- & Hls), (F m) as (n & Hn & _); eauto 8.
  - intros n; destruct (run n init_main s) as [[o s1]|] eqn:En; [exfalso|done].
    destruct (HA _ _ _ En) as (l & k & ls & l' & T & _ & _ & Hl & _); pose proof (trace_answers n init_main s) as Ha.
    rewrite T, !Forall_app in Ha; destruct Ha as (_ & _ & Ha); rewrite Forall_forall in Ha.
    destruct (round_fails _ Hl) as [(p & Hp & Hin)|(w & Hp & Hin)]; destruct (Ha _ Hin) as [s' Hs']; [specialize (Hf s')|specialize (Hw s')]; lia.
Qed.
End init.

(** A system where every other wait returns a child that is not the shell. *)
#[local] Instance demo_os : Os nat := fun A e n =>
  match e with
  | Fork => (3, S n)
  | Wait => (if Nat.even n then 3 else 9, S n)
  | Read _ _ => ((-1, []), n)
  | Fstat _ => ((-1, Stat 0 0 0 0 0), n)
  | Signal _ _ => (tt, n)
  | Write _ _ | Close _ | Kill _ | Exec _ _ | Open _ _ | Mknod _ _ _ | Unlink _ | Link _ _ | Mkdir _ | Dup _ | Sleep _ | Cps | Chdir _ | Getpid | Sbrk _ | Msgget _ _ => (0, n)
  | WaitStatus => ((-1, None), n)
  | Pipe => ((-1, (0, 0)), n)
  end.


(** Two shells: the second round also reaps another child. *)
Lemma init_correct_witness :
  (exists n l0 ls, trace n init_main O = l0 ++ ls /\ console_opened l0 /\ shells 2 ls) /\ forall n, run n init_main O = None.
Proof.
  destruct (init_correct (E := nat) O) as [_ HB]; destruct HB as [HB1 HB2].
  - done.
  - intros n; cbn; by destruct (Nat.even n).
  - intros n; destruct (Nat.even (S n)) eqn:En; [exists O|exists 1%nat].
    + change ((if Nat.even (S n) then 3 else 9) = 3); by rewrite En.
    + change ((if Nat.even (S (S n)) then 3 else 9) = 3); by rewrite Nat.even_succ, <- Nat.negb_even, En.
  - split; [apply HB1|exact HB2].
Defined.
