(* ===== verification/Utests.v ===== *)
(** * Test programs

    forktest, stressfs, msgtest and grind as trees of system calls; the random
    numbers of grind, and what forktest says of a system. *)

From ITree Require Import Core.ITreeDefinition.
From S2P Require Import Prelude CMem KString Printf UPrintf Ulib Block Fs Sysfile Usys Utools.

(** ** forktest *)

Definition N : nat := 1000.
Definition print (s : list Z) : U unit := call (Write 1 s);; mret tt.

(** [for(n=0; n<N; n++)], with [left] rounds to go; the result is [n]. *)
Fixpoint fork_many (left : nat) (n : Z) : U Z :=
  match left with
  | O => mret n
  | S left' =>
      pid ← call Fork;
      if pid <? 0 then mret n
      else if pid =? 0 then exit 0
      else fork_many left' (n + 1)
  end.
(** [for(; n > 0; n--)] *)
Fixpoint wait_many (n : nat) : U unit :=
  match n with
  | O => mret tt
  | S n' =>
      r ← call Wait;
      if r <? 0 then print (str "wait stopped early" ++ nl);; exit 1
      else wait_many n'
  end.
Definition forktest : U unit :=
  print (str "fork test" ++ nl);;
  n ← fork_many N 0;
  if n =? Z.of_nat N then print (str "fork claimed to work N times!" ++ nl);; exit 1
  else
    wait_many (Z.to_nat n);;
    r ← call Wait;
    if negb (r =? -1) then print (str "wait got too many" ++ nl);; exit 1
    else print (str "fork test OK" ++ nl).
Definition forktest_main : U unit := forktest;; exit 0.

(** ** stressfs *)

(** [for(i = 0; i < 4; i++) if(fork() > 0) break;] *)
Fixpoint fork_four (left : nat) (i : Z) : U Z :=
  match left with
  | O => mret i
  | S left' => pid ← call Fork; if 0 <? pid then mret i else fork_four left' (i + 1)
  end.
Definition stressfs_main : U unit :=
  printf (str "stressfs starting" ++ nl) [];;
  let data := replicate 512 97 in
  i ← fork_four 4 0;
  printf (str "write %d" ++ nl) [VNum i];;
  let path := str "stressfs" ++ [48 + i] in
  fd ← call (Open path (Z.lor O_CREATE O_RDWR));
  each (fun _ => call (Write fd data);; mret tt) (seqZ 0 20);;
  call (Close fd);;
  printf (str "read" ++ nl) [];;
  fd ← call (Open path O_RDONLY);
  each (fun _ => call (Read fd 512);; mret tt) (seqZ 0 20);;
  call (Close fd);;
  call Wait;;
  exit 0.

(** ** msgtest *)

(** The message it prepares is not sent. *)
Definition KEY : Z := 12345.
Definition msgtest_main : U unit :=
  msqid ← call (Msgget KEY (Z.lor O_CREATE 438));
  if msqid <? 0 then printf (str "msgget failed" ++ nl) [];; exit 1
  else printf (str "msgget successful!" ++ nl) [].

(** ** grind *)

(** The new [*ctx], which is also the result. *)
Definition do_rand (ctx : Z) : Z :=
  let x := ctx mod 0x7ffffffe + 1 in
  let hi := x / 127773 in
  let lo := x mod 127773 in
  let x := 16807 * lo - 2836 * hi in
  let x := if x <? 0 then x + 0x7fffffff else x in
  x - 1.

Definition fail {A} (msg : list Z) : U A := printf (str "grind: " ++ msg ++ nl) [];; exit 1.
Definition fail2 {A} (msg : list Z) (status : Z) : U A := fprintf 2 (str "grind: " ++ msg ++ nl) [];; exit status.
Definition creat (path : list Z) : U Z := call (Open path (Z.lor O_CREATE O_RDWR)).
(** [close(open(path, O_CREATE|O_RDWR))] *)
Definition touch (path : list Z) : U unit := fd ← creat path; call (Close fd);; mret tt.
Definition unlink (path : list Z) : U unit := call (Unlink path);; mret tt.
Definition mkdir (path : list Z) : U unit := call (Mkdir path);; mret tt.
Definition chdir (path : list Z) : U unit := call (Chdir path);; mret tt.

(** [pid = fork(); if(pid == 0){ child } else if(pid < 0){ fork failed }], with
    the pid for the parent. *)
Definition fork_child (child : U Empty_set) : U Z :=
  pid ← call Fork;
  if pid =? 0 then x ← child; match (x : Empty_set) with end
  else if pid <? 0 then fail (str "fork failed")
  else mret pid.
Definition fork_wait (child : U Empty_set) : U unit := fork_child child;; call Wait;; mret tt.

(** [what == 19] *)
Definition pipe_child (fds : Z * Z) : U Empty_set :=
  call Fork;;
  call Fork;;
  w ← call (Write fds.2 (str "x"));
  (if negb (w =? 1) then printf (str "grind: pipe write failed" ++ nl) [] else mret tt);;
  '(r, _) ← call (Read fds.1 1);
  (if negb (r =? 1) then printf (str "grind: pipe read failed" ++ nl) [] else mret tt);;
  exit 0.
Definition try_pipe : U unit :=
  '(r, fds) ← call Pipe;
  if r <? 0 then fail (str "pipe failed")
  else
    fork_child (pipe_child fds);;
    call (Close fds.1);;
    call (Close fds.2);;
    call Wait;;
    mret tt.

(** [what == 21] *)
Definition try_file : U unit :=
  unlink (str "c");;
  fd1 ← creat (str "c");
  if fd1 <? 0 then fail (str "create c failed")
  else
    w ← call (Write fd1 (str "x"));
    if negb (w =? 1) then fail (str "write c failed")
    else
      '(r, st) ← call (Fstat fd1);
      if negb (r =? 0) then fail (str "fstat failed")
      else if negb (st_size st =? 1) then
        printf (str "grind: fstat reports wrong size %d" ++ nl) [VNum (i32 (st_size st))];; exit 1
      else if 200 <? st_ino st then
        printf (str "grind: fstat reports crazy i-number %d" ++ nl) [VNum (st_ino st)];; exit 1
      else
        call (Close fd1);;
        unlink (str "c").

(** [what == 22]: the two children of [echo hi | cat]. *)
Definition echo_child (aa bb : Z * Z) : U Empty_set :=
  call (Close bb.1);;
  call (Close bb.2);;
  call (Close aa.1);;
  call (Close 1);;
  d ← call (Dup aa.2);
  if negb (d =? 1) then fail2 (str "dup failed") 1
  else
    call (Close aa.2);;
    call (Exec (str "grindir/../echo") [str "echo"; str "hi"]);;
    fail2 (str "echo: not found") 2.
Definition cat_child (aa bb : Z * Z) : U Empty_set :=
  call (Close aa.2);;
  call (Close bb.1);;
  call (Close 0);;
  d ← call (Dup aa.1);
  if negb (d =? 0) then fail2 (str "dup failed") 4
  else
    call (Close aa.1);;
    call (Close 1);;
    d ← call (Dup bb.2);
    if negb (d =? 1) then fail2 (str "dup failed") 5
    else
      call (Close bb.2);;
      call (Exec (str "/cat") [str "cat"]);;
      fail2 (str "cat: not found") 6.
Definition fork_or (child : U Empty_set) (status : Z) : U unit :=
  pid ← call Fork;
  if pid =? 0 then x ← child; match (x : Empty_set) with end
  else if pid <? 0 then fail2 (str "fork failed") status
  else mret tt.
(** [read(fd, buf+i, 1)] *)
Definition read1 (fd : Z) (i : nat) (buf : list Z) : U (list Z) :=
  '(_, bs) ← call (Read fd 1); mret (splice buf i bs).
Definition try_pipeline : U unit :=
  '(r, aa) ← call Pipe;
  if r <? 0 then fail2 (str "pipe failed") 1
  else
    '(r, bb) ← call Pipe;
    if r <? 0 then fail2 (str "pipe failed") 1
    else
      fork_or (echo_child aa bb) 3;;
      fork_or (cat_child aa bb) 7;;
      call (Close aa.1);;
      call (Close aa.2);;
      call (Close bb.2);;
      buf ← read1 bb.1 0 [0; 0; 0; 0];
      buf ← read1 bb.1 1 buf;
      buf ← read1 bb.1 2 buf;
      call (Close bb.1);;
      '(_, st1) ← call WaitStatus;
      '(_, st2) ← call WaitStatus;
      match st1, st2 with
      | Some st1, Some st2 =>
          if negb (st1 =? 0) || negb (st2 =? 0) || negb (bool_decide (until_nul buf = str "hi" ++ nl)) then
            printf (str "grind: exec pipeline failed %d %d " ++ [34] ++ str "%s" ++ [34] ++ nl) [VNum st1; VNum st2; S_ (until_nul buf)];;
            exit 1
          else mret tt
      | _, _ => undefined
      end.

(** The variables of [go]: [fd], the static [buf], [iters] and [rand_next]. *)
Record grind_st : Type := GrindSt {
  g_fd : Z;
  g_buf : list Z;
  g_iters : Z;
  g_rand : Z
}.
Definition set_fd (fd : Z) (s : grind_st) : grind_st := GrindSt fd (g_buf s) (g_iters s) (g_rand s).

(** The branches that change none of them. *)
Definition act (break0 what : Z) : U unit :=
  if what =? 1 then touch (str "grindir/../a")
  else if what =? 2 then touch (str "grindir/../grindir/../b")
  else if what =? 3 then unlink (str "grindir/../a")
  else if what =? 4 then
    r ← call (Chdir (str "grindir"));
    if negb (r =? 0) then fail (str "chdir grindir failed")
    else unlink (str "../b");; chdir (str "/")
  else if what =? 9 then mkdir (str "grindir/../a");; touch (str "a/../a/./a");; unlink (str "a/a")
  else if what =? 10 then mkdir (str "/../b");; touch (str "grindir/../b/b");; unlink (str "b/b")
  else if what =? 11 then unlink (str "b");; call (Link (str "../grindir/./../a") (str "../b"));; mret tt
  else if what =? 12 then unlink (str "../grindir/../a");; call (Link (str ".././b") (str "/grindir/../a"));; mret tt
  else if what =? 13 then fork_wait (exit 0)
  else if what =? 14 then fork_wait (call Fork;; call Fork;; exit 0)
  else if what =? 15 then call (Sbrk 6011);; mret tt
  else if what =? 16 then
    a ← call (Sbrk 0);
    if break0 <? a then a ← call (Sbrk 0); call (Sbrk (i32 (break0 - a)));; mret tt
    else mret tt
  else if what =? 17 then
    pid ← fork_child (touch (str "a");; exit 0);
    r ← call (Chdir (str "../grindir/.."));
    if negb (r =? 0) then fail (str "chdir failed")
    else call (Kill pid);; call Wait;; mret tt
  else if what =? 18 then fork_wait (me ← call Getpid; call (Kill me);; exit 0)
  else if what =? 19 then try_pipe
  else if what =? 20 then
    fork_wait (unlink (str "a");; mkdir (str "a");; chdir (str "a");; unlink (str "../a");; creat (str "x");; unlink (str "x");; exit 0)
  else if what =? 21 then try_file
  else if what =? 22 then try_pipeline
  else mret tt.

(** A turn of the [while(1)]. *)
Definition go_turn (which_child break0 : Z) (s : grind_st) : U grind_st :=
  let iters := u64 (g_iters s + 1) in
  (if iters mod 500 =? 0 then call (Write 1 (if truth which_child then str "B" else str "A"));; mret tt else mret tt);;
  let r := do_rand (g_rand s) in
  let what := r mod 23 in
  let s := GrindSt (g_fd s) (g_buf s) iters r in
  if what =? 5 then call (Close (g_fd s));; fd ← creat (str "/grindir/../a"); mret (set_fd fd s)
  else if what =? 6 then call (Close (g_fd s));; fd ← creat (str "/./grindir/./../b"); mret (set_fd fd s)
  else if what =? 7 then call (Write (g_fd s) (g_buf s));; mret s
  else if what =? 8 then '(_, bs) ← call (Read (g_fd s) 999); mret (GrindSt (g_fd s) (splice (g_buf s) 0 bs) (g_iters s) (g_rand s))
  else act break0 what;; mret s.
Definition go (which_child rand_next : Z) : U Empty_set :=
  break0 ← call (Sbrk 0);
  mkdir (str "grindir");;
  r ← call (Chdir (str "grindir"));
  if negb (r =? 0) then fail (str "chdir grindir failed")
  else
    chdir (str "/");;
    loop (fun s => s ← go_turn which_child break0 s; mret (inl s)) (GrindSt (-1) (replicate 999 0) 0 rand_next).

Definition iter (rand_next : Z) : U Empty_set :=
  unlink (str "a");;
  unlink (str "b");;
  pid1 ← call Fork;
  if pid1 <? 0 then fail (str "fork failed")
  else if pid1 =? 0 then go 0 (Z.lxor rand_next 31)
  else
    pid2 ← call Fork;
    if pid2 <? 0 then fail (str "fork failed")
    else if pid2 =? 0 then go 1 (Z.lxor rand_next 7177)
    else
      '(_, st1) ← call WaitStatus;
      (if negb (default (-1) st1 =? 0) then call (Kill pid1);; call (Kill pid2);; mret tt else mret tt);;
      call WaitStatus;;
      exit 0.
Definition grind_main : U Empty_set :=
  loop (fun rand_next : Z =>
    pid ← call Fork;
    if pid =? 0 then x ← iter rand_next; match (x : Empty_set) with end
    else
      (if 0 <? pid then call Wait;; mret tt else mret tt);;
      call (Sleep 20);;
      mret (inl (u64 (rand_next + 1)))) 1.

(** ** The random numbers of grind *)

(** [do_rand] computes the generator x -> 7^5 x mod (2^31 - 1) of its comment,
    shifted to start at 0, with numbers that fit in 31 bits and a sign. *)
Theorem do_rand_lehmer (ctx : Z) :
  0 <= ctx ->
  let x := ctx mod (2 ^ 31 - 2) + 1 in
  do_rand ctx = (7 ^ 5 * x) mod (2 ^ 31 - 1) - 1 /\ 0 <= do_rand ctx <= 2 ^ 31 - 3 /\
  - 2 ^ 31 < 16807 * (x mod 127773) - 2836 * (x / 127773) < 2 ^ 31.
Proof.
  intros Hc x; assert (Hx : 1 <= x <= 2147483646) by (unfold x; pose proof (Z.mod_pos_bound ctx (2 ^ 31 - 2)); lia).
  change (7 ^ 5) with 16807; change (2 ^ 31 - 1) with 2147483647.
  pose proof (Z.div_mod x 127773 ltac:(lia)) as Hd; pose proof (Z.mod_pos_bound x 127773 ltac:(lia)) as Hm.
  assert (Hh : 0 <= x / 127773 <= 16807) by (split; [apply Z.div_pos; lia|apply Z.lt_succ_r, Z.div_lt_upper_bound; lia]).
  assert (Hnz : (16807 * x) mod 2147483647 <> 0).
  { intros H0; apply Z.mod_divide in H0; [|lia]; apply Z.gauss in H0; [|by vm_compute].
    apply Z.divide_pos_le in H0; lia. }
  pose proof (Z.mod_pos_bound (16807 * x) 2147483647 ltac:(lia)) as Hr.
  assert (E : do_rand ctx = (16807 * x) mod 2147483647 - 1); [|rewrite E; split_and!; lia].
  unfold do_rand; change 0x7ffffffe with (2 ^ 31 - 2); fold x; change 0x7fffffff with 2147483647; cbv zeta.
  f_equal; destruct (Z.ltb_spec (16807 * (x mod 127773) - 2836 * (x / 127773)) 0).
  - apply (Z.mod_unique _ _ (x / 127773 - 1)); lia.
  - apply (Z.mod_unique _ _ (x / 127773)); lia.
Qed.

Lemma do_rand_lehmer_witness : do_rand 1 = (7 ^ 5 * (1 mod (2 ^ 31 - 2) + 1)) mod (2 ^ 31 - 1) - 1.
Proof. apply (do_rand_lehmer 1); lia. Defined.

(** ** What forktest says *)

(** The processes a program sees: a fork takes one of the [slots] free
    processes, a wait gives one of the [kids] back. *)
Class Processes (E : Type) `{Os E} : Type := {
  slots : E -> nat;
  kids : E -> nat;
  console : E -> list Z;
  prc_fork s :
    match slots s with
    | O => (sys Fork s).1 < 0 /\ slots (sys Fork s).2 = O /\ kids (sys Fork s).2 = kids s
    | S n => 0 < (sys Fork s).1 /\ slots (sys Fork s).2 = n /\ kids (sys Fork s).2 = S (kids s)
    end /\ console (sys Fork s).2 = console s;
  prc_wait s :
    match kids s with
    | O => (sys Wait s).1 = -1 /\ slots (sys Wait s).2 = slots s /\ kids (sys Wait s).2 = O
    | S n => 0 < (sys Wait s).1 /\ slots (sys Wait s).2 = S (slots s) /\ kids (sys Wait s).2 = n
    end /\ console (sys Wait s).2 = console s;
  prc_write s bs : slots (sys (Write 1 bs) s).2 = slots s /\ kids (sys (Write 1 bs) s).2 = kids s /\
    console (sys (Write 1 bs) s).2 = console s ++ bs
}.

Section forktest.
Context {E : Type} `{Processes E}.

Lemma runs_sys {A B} (e : sysE A) (k : A -> U B) (s : E) o s' :
  runs (k (sys e s).1) (sys e s).2 o s' -> runs (call e ≫= k) s o s'.
Proof. intros Hk; destruct (sys e s) as [a s1] eqn:Es; by eapply runs_call. Qed.

Lemma print_runs bs (s : E) :
  exists s', runs (print bs) s (Returned tt) s' /\ slots s' = slots s /\ kids s' = kids s /\ console s' = console s ++ bs.
Proof. exists (sys (Write 1 bs) s).2; split; [apply runs_sys, runs_ret|apply prc_write]. Qed.

(** The loop forks until no process is left. *)
Lemma fork_many_runs left n (s : E) :
  exists s', runs (fork_many left n) s (Returned (n + Z.of_nat (Nat.min left (slots s)))) s' /\
    kids s' = (kids s + Nat.min left (slots s))%nat /\ slots s' = (slots s - left)%nat /\ console s' = console s.
Proof.
  revert n s; induction left as [|left IH]; intros n s; cbn [fork_many].
  { exists s; rewrite Z.add_0_r; split_and!; [apply runs_ret|simpl; lia..|done]. }
  destruct (prc_fork s) as [Hf Hc]; destruct (slots s) as [|k] eqn:Es.
  - destruct Hf as (Hp & Hs & Hk); exists (sys Fork s).2; rewrite Nat.min_0_r, Z.add_0_r; split_and!; [|lia|lia|done].
    apply runs_sys; rewrite (proj2 (Z.ltb_lt _ 0)) by lia; apply runs_ret.
  - destruct Hf as (Hp & Hs & Hk); destruct (IH (n + 1) (sys Fork s).2) as (s' & R & K & S' & C'); rewrite Hs in R, K, S'.
    exists s'; split_and!; [|lia|lia|congruence]; apply runs_sys.
    rewrite (proj2 (Z.ltb_ge _ 0)), (proj2 (Z.eqb_neq _ 0)) by lia.
    replace (n + Z.of_nat (Nat.min (S left) (S k))) with (n + 1 + Z.of_nat (Nat.min left k)) by lia; exact R.
Qed.

Lemma wait_many_runs n (s : E) :
  (n <= kids s)%nat ->
  exists s', runs (wait_many n) s (Returned tt) s' /\ kids s' = (kids s - n)%nat /\ slots s' = (slots s + n)%nat /\ console s' = console s.
Proof.
  revert s; induction n as [|n IH]; intros s Hn; cbn [wait_many].
  { exists s; split_and!; [apply runs_ret|lia..|done]. }
  destruct (prc_wait s) as [Hw Hc]; destruct (kids s) as [|k] eqn:Ek; [lia|]; destruct Hw as (Hp & Hs & Hk).
  destruct (IH (sys Wait s).2) as (s' & R & K & S' & C'); [lia|]; rewrite Hk, Hs in *.
  exists s'; split_and!; [|lia|lia|congruence]; apply runs_sys; by rewrite (proj2 (Z.ltb_ge _ 0)) by lia.
Qed.
End forktest.

(** forktest, started without children, reports success and reaps every
    process it made exactly when the system has fewer than a thousand to give;
    otherwise it says that fork claimed to work. *)
Theorem forktest_correct {E} `{Processes E} (s : E) :
  kids s = O ->
  exists s', runs forktest_main s (Exited (if decide (slots s < N)%nat then 0 else 1)) s' /\
    console s' = console s ++ str "fork test" ++ nl ++
      (if decide (slots s < N)%nat then str "fork test OK" else str "fork claimed to work N times!") ++ nl /\
    ((slots s < N)%nat -> kids s' = O /\ slots s' = slots s).
Proof.
  intros Hk; destruct (print_runs (str "fork test" ++ nl) s) as (s1 & R1 & S1 & K1 & C1).
  destruct (fork_many_runs N 0 s1) as (s2 & R2 & K2 & S2 & C2); rewrite S1 in R2, K2, S2; rewrite Z.add_0_l in R2.
  assert (Hpre : forall o s', (if decide (slots s < N)%nat then runs (wait_many (slots s);; r ← call Wait;
      if negb (r =? -1) then print (str "wait got too many" ++ nl);; exit 1 else print (str "fork test OK" ++ nl)) s2 o s'
    else runs (print (str "fork claimed to work N times!" ++ nl);; exit 1 : U unit) s2 o s') -> runs forktest s o s').
  { intros o s' Hr; eapply runs_bind; [exact R1|]; eapply runs_bind; [exact R2|]; case_decide as D.
    - rewrite Nat.min_r, (proj2 (Z.eqb_neq _ _)), Nat2Z.id by lia; exact Hr.
    - rewrite Nat.min_l, Z.eqb_refl by lia; exact Hr. }
  unfold forktest_main; case_decide as D.
  - destruct (wait_many_runs (slots s) s2) as (s3 & R3 & K3 & S3 & C3); [lia|].
    destruct (prc_wait s3) as [Hw Hc]; rewrite K2, K1, Hk in K3; replace (kids s3) with O in Hw by lia; destruct Hw as (Hp & S4 & K4).
    destruct (print_runs (str "fork test OK" ++ nl) (sys Wait s3).2) as (s5 & R5 & S5 & K5 & C5); exists s5; split_and!.
    + eapply runs_bind; [apply Hpre|apply runs_exit]; eapply runs_bind; [exact R3|]; apply runs_sys; rewrite Hp; exact R5.
    + rewrite C5, Hc, C3, C2, C1, <- !app_assoc; done.
    + intros _; split; [lia|]; rewrite S5, S4, S3, S2; lia.
  - destruct (print_runs (str "fork claimed to work N times!" ++ nl) s2) as (s3 & R3 & S3 & K3 & C3); exists s3; split_and!; [|by rewrite C3, C2, C1, <- !app_assoc|lia].
    apply runs_bind_exit, Hpre; eapply runs_bind; [exact R3|apply runs_exit].
Qed.

(** A system of 64 processes, one of them the program. *)
Definition table : Type := nat * nat * list Z.
#[local] Instance table_os : Os table := fun A e '(free, n, out) =>
  match e with
  | Fork => match free with O => (-1, (O, n, out)) | S free' => (7, (free', S n, out)) end
  | Wait => match n with O => (-1, (free, O, out)) | S n' => (7, (S free, n', out)) end
  | Write _ bs => (Z.of_nat (length bs), (free, n, out ++ bs))
  | Read _ _ => ((-1, []), (free, n, out))
  | Fstat _ => ((-1, Stat 0 0 0 0 0), (free, n, out))
  | Signal _ _ => (tt, (free, n, out))
  | WaitStatus => ((-1, None), (free, n, out))
  | Pipe => ((-1, (0, 0)), (free, n, out))
  | Close _ | Kill _ | Exec _ _ | Open _ _ | Mknod _ _ _ | Unlink _ | Link _ _ | Mkdir _ | Dup _ | Sleep _ | Cps | Chdir _ | Getpid | Sbrk _
  | Msgget _ _ => (-1, (free, n, out))
  end.
#[local] Instance table_processes : Processes table.
Proof.
  refine {| slots := fun s => s.1.1; kids := fun s => s.1.2; console := fun s => s.2 |}.
  - intros [[[|free] n] out]; cbn; split_and!; (done || lia).
  - intros [[free [|n]] out]; cbn; split_and!; (done || lia).
  - by intros [[free n] out] bs.
Defined.

Lemma forktest_correct_witness :
  exists s', runs forktest_main ((63%nat, O, []) : table) (Exited 0) s' /\
    s'.2 = str "fork test" ++ nl ++ str "fork test OK" ++ nl /\ s'.1 = (63%nat, O).
Proof.
  destruct (forktest_correct ((63%nat, O, []) : table)) as (s' & R & C & K); [done|].
  exists s'; split_and!; [exact R|exact C|]; destruct K as [K1 K2]; [cbn; unfold N; lia|].
  destruct s' as [[a b] out]; cbn in *; by subst.
Defined.
